(* ===== verification/_CoqProject ===== *)
-Q . S2P
Prelude.v
RustStr.v
Interleave.v
AppError.v
Clock.v
BTree.v
Json.v
RateLimiter.v
License.v
Entitlement.v
SqlSplit.v
DdlExec.v
Drift.v
DriftCollector.v
Health.v
Risk.v
Approvals.v
Schedule.v
SyncConfig.v
SyncRunner.v
QueryStats.v
NativeCollector.v
Reports.v
Workspace.v
Accounts.v
ServerConfig.v
Credential.v
McpTokens.v
McpTools.v
DbFamily.v
StreamRows.v
TdengineLeg.v
RedisLeg.v
MongoLeg.v
StreamQuery.v
Connections.v
SshTunnel.v
DraftTest.v
GatewayConn.v
GatewayQuery.v
GatewayStats.v
Gateway.v
Txn.v
Cells.v
DbBackends.v
Dialling.v
DbRest.v
Metadata.v
Describe.v
ControlDb.v
Automation.v
Notify.v
Runs.v
DriftRun.v
HealthRun.v
HealthSql.v
Telemetry.v
HttpTargets.v
Server.v
McpServer.v
Boot.v
