(* ===== verification/Prelude.v ===== *)
(** * DbMaster Server: a verification library

    DbMaster Server is the team server of a database client: accounts and
    workspaces, stored database connections, a gateway that runs queries, an
    MCP endpoint for agents, approval of schema changes, and three engines that
    run on a schedule (schema drift, health checks, data sync), all gated by a
    license.  This library models the parts of its crates (under src/crates/)
    that decide something, as executable definitions, and proves what makes
    them correct.

    ** Parts and files

    - Foundations: [Prelude] (Rust's Result, [i64] casts, list lemmas), [RustStr]
      (str on UTF-8 bytes: trim, split_once, find, take, replace), [Clock]
      (instants in nanoseconds; the interface [TimestampCodec] to chrono's
      RFC 3339), [BTree] (BTreeMap as a sorted list, the canonical form the
      snapshots rely on), [Json] (serde_json's Value; the interfaces [Printer]
      and [Reader] to its text form, with concrete instances for witnesses).
    - [RateLimiter] (core/auth/rate_limiter.rs): the sliding window and the
      per-IP layer.
    - [License], [Entitlement] (license/lib.rs, instance.rs, trial.rs,
      entitlement.rs): parsing, canonical bytes and verification of a license;
      instance identity, trial window, the resulting entitlement, the renewal
      banner and the atomic write of the license file.
    - [SqlSplit] (automation/sql_split.rs): the script splitter, a loop over a
      state record.
    - [DdlExec] (automation/db_handler.rs, execute_ddl_on_target_with_key): what
      an approved script sends to its target; it calls [SqlSplit].
    - [Risk] (mcp/risk.rs): the classifier of SQL for agents, over the part of
      sqlparser's tree it visits.
    - [Approvals] (automation/handler.rs, mcp/write.rs, mcp/tools.rs): submitting,
      approving, rejecting and running schema changes from REST and MCP, as
      processes that interleave at their awaits; it calls [DdlExec], [Risk] and
      the gate of [Entitlement].
    - [Drift], [DriftCollector] (drift/snapshot.rs, diff.rs, collector.rs, and
      the comparison step of runner.rs): snapshots, their hash, the diff, and
      the assembly of information_schema rows into a snapshot.
    - [Health] (health_check/alert.rs, config.rs, runner.rs): the alert state
      machine, its table, and the life of a run.
    - [SyncConfig], [SyncRunner] (data_sync/config.rs, sql.rs, runner.rs): the
      validation of a task, the SQL it generates, and the windowed copy with
      its retries, cursors and resumption.
    - [Schedule] (scheduler.rs of drift, data_sync and health_check): due times,
      the scan, and the in-flight set as a step relation.
    - [QueryStats], [NativeCollector], [Reports] (automation/query_stats.rs,
      native_collector.rs, weekly_report.rs): digests, captured samples, the
      slow logs of four engines, and the weekly report.
    - [Workspace], [Accounts] (core/workspace, core/auth): invitations and
      membership, accounts, passwords and refresh tokens, as interleaved steps.
    - [ServerConfig], [Credential] (core/config.rs, automation/credential.rs):
      the environment, the secrets the server starts with, and the encryption of
      stored credentials with its migration.
    - [McpTokens], [McpTools] (mcp/): personal tokens, the MCP endpoint, and the calls
      of its tools to their end: the read tools with what they record, the writing ones
      as the processes of [Approvals] among what others do, and the row of each call in
      the audit.
    - [DbFamily] (automation/db_handler.rs, metadata.rs): database families and
      the catalog SQL of each, with the names it quotes.
    - [StreamRows], [StreamQuery], [RedisLeg], [MongoLeg], [TdengineLeg]
      (automation/stream_query.rs and its legs): the streaming executor and the
      commands, documents and texts of three engines.
    - [Connections], [DraftTest], [GatewayConn] (gateway/): loading a stored
      connection, its tunnel, testing a draft, and registering connections.
    - [SshTunnel] (automation/ssh.rs): tunnels as they are opened, shared, lost and
      dialled, by requests that interleave; one request alone is
      [Connections.resolve].
    - [GatewayQuery], [GatewayStats], [Gateway] (gateway/handlers.rs): validation
      and event stream of a query, with what the statistics keep of it; the gateway
      as a state machine of executions, cancellations, subscriptions and the audit
      of each execution.
    - [Txn] (automation/txn.rs): transaction sessions and their sweep, with what each
      pinned pool is told on which physical connection, requests whose client goes, and
      pools that reconnect or no longer answer.
    - [Cells], [DbBackends], [DbRest] (automation/db_handler.rs): the values of a
      reply, one backend per engine, and the REST handlers that query and run
      scripts.
    - [Dialling] (mongo.rs, redis_leg.rs, tdengine_leg.rs, db_handler.rs): what each
      driver is told of a row, the versions of servers, rows and errors that come
      back.
    - [Metadata], [Describe] (automation/metadata.rs): listing databases and
      tables, and describing a table, for every engine.
    - [ControlDb], [Automation] (automation/lib.rs, handler.rs, migrations): the
      control database with its foreign keys, and the REST handlers of tasks,
      connections, saved queries and histories.
    - [Notify] (drift/notify.rs and its copies): webhooks, the address check, the
      attempts, the payloads.
    - [Runs], [DriftRun], [HealthRun] (the runners of drift and health_check, with
      audit.rs and canary.rs): whole runs as programs over the control database;
      they compose [Credential], the collectors, [Drift], [Health] and [Notify].
    - [HealthSql] (health_check/collector.rs): the queries of a health check, by what
      they select of a catalog.
    - [Telemetry] (core/telemetry.rs): anonymous events, their counters, the
      partial unique index and the redaction of addresses.
    - [HttpTargets] (data_sync/clickhouse.rs, doris_stream_load.rs): the requests
      of the two HTTP targets and the reading of their answers.
    - [Server] (core/server, src/lib.rs): the application states, their
      entitlement cells, and licenses posted while other requests run.
    - [McpServer] (mcp/handler.rs, lib.rs, the definitions of tools.rs and write.rs):
      the tools as they are listed, with their schemas and hints, and a call from its
      header to the dispatch.
    - [Boot] (src/main.rs, core/db/pool.rs): the production and the embedded
      start, the rebuild of an embedded database, its credential key.

    ** State and operations

    A struct is a Record and an enum an Inductive with the source's names; a
    table of the control database is a list or a [gmap] of its rows.  Effects
    are explicit: an operation returns the new state, a fallible one a
    [result], a panic is an outer [None] (or [Panicked]).  What lies outside
    the repository is an argument: Ed25519 and hex, SHA-256, the SQL parsers,
    the JSON printer, chrono, Unicode tables above ASCII, the answers of
    databases and webhooks.  Laws about them are hypotheses or classes
    ([TimestampLaws], [PrinterLaws], [RoundTrip]), each with a concrete
    instance.  Machine integers are [Z] with their wrap-around or cast written
    out ([as_i64], [add64], the counters of drift and health).

    ** What is shown

    - Contracts met for every input or history: the limiter answers as a log of
      requests would; [compute_drifts] reports exactly the drifts of an
      inductive specification; connectivity alerts come exactly where a counting
      specification puts them; the classifier's verdict is the maximum of the
      hazards that occur in the part of the tree it visits; a finished stream has sent a header and
      then, in order, a prefix of the rows.
    - Invariants of the state, whatever is interleaved and fails: a pinned pool is
      told its settings, one BEGIN, statements and at most one end; a workspace keeps
      its creator as the only administrator; no foreign key of the control database
      refers to what is gone (the task of a snapshot is none);
      every execution of the gateway has one row in the audit; an approval is
      run as stored.
    - Safety: an approval is run at most once; only scripts made of DDL reach a
      target; only issued licenses, bound to the instance and unexpired, unlock
      the server; signed bytes determine the license; endpoints answer only to
      their tokens and whitelists; queries stay within their limit, deadline and
      single statement; a row with a tunnel is dialled through it (MongoDB rows with
      hosts of their own apart), and a tunnel leads where it was asked to; a
      read-only connection of MongoDB, Redis or TDengine is sent nothing but reads (and,
      on Redis, the questions for the classes of commands); catalog names stay literals; a
      refresh token is used once; webhooks go only to checked addresses; a
      credential is used only once its use is on record; a start serves nothing
      before its checks are done, and an embedded one leaves its host in no way;
      a stored address names no host; only verified licenses are installed, while
      the gates, against the comments, keep the entitlement of the start; the hints of the
      MCP tools are true, their calls are for holders of live credentials, do only what
      their caller may, and are audited; a drift source that can be written is not read.
    - Conservation and round trips: credentials, registrations, MongoDB documents
      and license blocks come back as they were put; the splitter loses
      nothing; snapshots do not depend on the order of the rows and form a chain;
      the hash shortcut loses no drift; a finished copy has asked for every
      window up to the maximum and handed over what it was given, and a resumed one leaves
      no gap between windows; statements that differ in their literals share a digest; a batch for an HTTP target arrives as it
      was; a repeated event is one row; a database that is set aside is kept.
    - Termination, liveness, errors and bounds: loops end, or the cases in which
      they do not are named; a run that starts is closed; a sweep ends exactly
      the idle sessions; a license that cannot be written leaves everything as it
      was; without its secrets the server does not start; every number of a
      configuration is inside its bounds.

    ** Fuel

    [SqlSplit.split_sql_script] takes the length of the script as fuel; every
    iteration consumes a character, so it is enough.  [SyncRunner.etl_loop]
    takes a number of turns; [etl_terminates] gives one that is enough (the
    number of windows up to the maximum), and the copying theorems speak of any
    run that has ended.  [McpTools.finish] takes the turns of a call; five are enough, and
    fewer are a call that is dropped.  Everything else is structural.

    ** What is not modelled

    The drivers and the network; the table of routes, which axum matches; logging and
    the command line; password hashing, JWT, SSH and TLS, which wrap crates and are
    arguments with named laws; the MCP protocol and its sessions (rmcp); the desktop
    tools in Dart, which issue licenses.  The SQL of the control database is modelled
    by its effect on the rows, and its failures are answers; so is the SQL of the health
    checks on the sources, while the catalog queries of the drift collector are arguments
    that answer with rows.  Drift and health runs are modelled on the control database,
    data syncs on the tables they decide with. *)

From stdpp Require Export base tactics decidable option list gmap strings.
From Stdlib Require Export ZArith Lia Ascii.

(** ** Results: Rust's [Result<T, E>] *)

Inductive result (E A : Type) : Type :=
| Ok (a : A)
| Err (e : E).
Arguments Ok {E A} a.
Arguments Err {E A} e.

#[global] Instance result_eq_dec `{EqDecision E, EqDecision A} : EqDecision (result E A).
Proof. solve_decision. Defined.

(** The [?] operator: stdpp's [x ← m; k] on results. *)
#[global] Instance result_mret {E} : MRet (result E) := @Ok E.
#[global] Instance result_mbind {E} : MBind (result E) := λ A B f m,
  match m with Ok a => f a | Err e => Err e end.

Definition is_ok {E A} (r : result E A) : bool :=
  match r with Ok _ => true | Err _ => false end.

(** [Option::ok_or]. *)
Definition ok_or {E A} (o : option A) (e : E) : result E A :=
  match o with Some a => Ok a | None => Err e end.
(** [Result::map_err]. *)
Definition err_as {E F A} (f : E → F) (r : result E A) : result F A := match r with Ok a => Ok a | Err e => Err (f e) end.

(** A loop of fallible checks, left to right, that stops at the first error:
    [for (i, x) in xs.iter().enumerate() { f(i, x)?; }]. *)
Fixpoint try_iteri_from {E A} (f : nat → A → result E unit) (i : nat) (xs : list A)
  : result E unit :=
  match xs with
  | [] => Ok tt
  | x :: xs' => _ ← f i x; try_iteri_from f (S i) xs'
  end.
Definition try_iteri {E A} (f : nat → A → result E unit) (xs : list A) : result E unit :=
  try_iteri_from f 0 xs.

Lemma bind_ok_inv {E A B} (m : result E A) (f : A → result E B) b :
  (m ≫= f) = Ok b → ∃ a, m = Ok a ∧ f a = Ok b.
Proof. destruct m; naive_solver. Qed.

Lemma bind_ok_iff {E A B} (m : result E A) (f : A → result E B) b :
  (m ≫= f) = Ok b ↔ ∃ a, m = Ok a ∧ f a = Ok b.
Proof. split; [apply bind_ok_inv|]. intros (a & -> & H). exact H. Qed.

Lemma try_iteri_from_ok {E A} (f : nat → A → result E unit) i xs :
  try_iteri_from f i xs = Ok tt ↔ ∀ j x, xs !! j = Some x → f (i + j) x = Ok tt.
Proof.
  revert i. induction xs as [|x xs IH]; intros i; cbn.
  - split; [done|]. intros _. done.
  - rewrite bind_ok_iff. split.
    + intros ([] & H1 & H2) [|j] y Hy; simplify_eq/=.
      * by rewrite Nat.add_0_r.
      * rewrite <- plus_n_Sm. by apply (proj1 (IH (S i)) H2 j).
    + intros H. exists tt. split.
      * rewrite <- (Nat.add_0_r i). by apply H.
      * apply IH. intros j y Hy. specialize (H (S j) y Hy).
        by rewrite <- plus_n_Sm in H.
Qed.

(** ** Machine integers *)

Definition i64_max : Z := 2 ^ 63 - 1.
Definition u64_max : Z := 2 ^ 64 - 1.
Definition u32_max : Z := 2 ^ 32 - 1.

(** [x as i64] for a [u64] value: two's complement reinterpretation. *)
Definition as_i64 (x : Z) : Z :=
  let r := (x `mod` 2 ^ 64)%Z in
  if decide (r < 2 ^ 63)%Z then r else (r - 2 ^ 64)%Z.

(** [x as i32] for an [i64] value. *)
Definition as_i32 (x : Z) : Z :=
  let r := (x `mod` 2 ^ 32)%Z in
  if decide (r < 2 ^ 31)%Z then r else (r - 2 ^ 32)%Z.

Lemma as_i64_id x : (0 ≤ x ≤ i64_max)%Z → as_i64 x = x.
Proof.
  unfold as_i64, i64_max. intros H. rewrite Z.mod_small by lia.
  case_decide; lia.
Qed.

(** ** Lists *)

(** A fold whose steps commute for elements with different keys does not depend
    on the order of a list without duplicate keys. *)
Lemma foldl_perm_key {A B K} (f : B → A → B) (key : A → K) (P : A → Prop) l l' :
  (∀ a1 a2 b, P a1 → P a2 → key a1 ≠ key a2 → f (f b a1) a2 = f (f b a2) a1) →
  Forall P l → NoDup (key <$> l) → l ≡ₚ l' → ∀ b, foldl f b l = foldl f b l'.
Proof.
  intros Hf HP Hnd Hp. revert HP Hnd. induction Hp as [|a l l' Hp IH|a1 a2 l|l1 l2 l3 Hp1 IH1 Hp2 IH2];
    intros HP Hnd b.
  - done.
  - apply Forall_cons in HP as [_ HP]. cbn in Hnd. apply NoDup_cons in Hnd as [_ Hnd]. by apply IH.
  - apply Forall_cons in HP as [HP1 HP]. apply Forall_cons in HP as [HP2 _].
    cbn in Hnd. apply NoDup_cons in Hnd as [Hnin _]. cbn. f_equal. apply Hf; [done..|].
    intros E. apply Hnin. rewrite E. left.
  - rewrite IH1 by done. apply IH2; [by rewrite <- Hp1|by rewrite <- Hp1].
Qed.

(** Folds over related lists, with steps that do not see the difference. *)
Lemma foldl_Forall2 {A B} (R : A → A → Prop) (f : B → A → B) l l' :
  Forall2 R l l' → (∀ a a' b, a ∈ l → R a a' → f b a = f b a') →
  ∀ b, foldl f b l = foldl f b l'.
Proof.
  induction 1 as [|a a' l l' Ha Hl IH]; intros Hf b; [done|]. cbn.
  rewrite (Hf a a' b) by (done || by left). apply IH. intros x x' b' Hx. apply Hf. by right.
Qed.

Lemma filter_none {A} (P : A → Prop) `{∀ x, Decision (P x)} l :
  Forall (λ x, ¬ P x) l → filter P l = [].
Proof. induction 1; [done|]. by rewrite filter_cons, decide_False. Qed.

Lemma filter_all {A} (P : A → Prop) `{∀ x, Decision (P x)} l : Forall P l → filter P l = l.
Proof. induction 1 as [|x l Hx _ IH]; [done|]. by rewrite filter_cons, decide_True, IH. Qed.

(** [slice::sort_by_key] with an integer key: stable. *)
Section SortByKey.
Context {A : Type} (key : A → Z).

Fixpoint insert_by_key (x : A) (l : list A) : list A :=
  match l with
  | [] => [x]
  | y :: l' => if decide (key x ≤ key y)%Z then x :: l else y :: insert_by_key x l'
  end.
Definition sort_by_key (l : list A) : list A := foldr insert_by_key [] l.

Lemma insert_by_key_swap x y l : key x ≠ key y →
  insert_by_key x (insert_by_key y l) = insert_by_key y (insert_by_key x l).
Proof.
  intros Hne. induction l as [|z l IH]; cbn; repeat (case_decide; cbn); try lia; congruence.
Qed.

(** With distinct keys the sorted list does not depend on the order. *)
Lemma sort_by_key_perm l l' : NoDup (key <$> l) → l ≡ₚ l' → sort_by_key l = sort_by_key l'.
Proof.
  intros Hnd Hp. induction Hp as [|a l l' Hp IH|a1 a2 l|l1 l2 l3 Hp1 IH1 Hp2 IH2].
  - done.
  - cbn in Hnd. apply NoDup_cons in Hnd as [_ Hnd]. cbn. f_equal. by apply IH.
  - cbn in Hnd. apply NoDup_cons in Hnd as [Hnin _]. cbn. apply insert_by_key_swap.
    intros E. apply Hnin. rewrite E. left.
  - rewrite IH1 by done. apply IH2. by rewrite <- Hp1.
Qed.

Lemma insert_by_key_Permutation x l : insert_by_key x l ≡ₚ x :: l.
Proof.
  induction l as [|y l IH]; cbn; [done|]. case_decide; [done|].
  rewrite IH. apply Permutation_swap.
Qed.

Lemma sort_by_key_Permutation l : sort_by_key l ≡ₚ l.
Proof. induction l as [|x l IH]; cbn; [done|]. by rewrite insert_by_key_Permutation, IH. Qed.
End SortByKey.

(** ** Automation *)

Create HintDb dbm discriminated.
#[export] Hint Resolve as_i64_id : dbm.

(** Case split on every [match]/[if] of the goal, discharging the easy cases. *)
Ltac split_cases := repeat (case_match; simplify_eq/=; try done).

(** Inverts a chain of [?] operators in a hypothesis. *)
Ltac inv_binds :=
  repeat match goal with
  | H : (_ ≫= _) = Ok _ |- _ =>
      apply bind_ok_inv in H; destruct H as (? & ? & H)
  | u : unit |- _ => destruct u
  end.
