(* ===== verification/RustStr.v ===== *)
(** * Rust [str] operations on UTF-8 byte strings

    A [string] is the sequence of its UTF-8 bytes, as Rust's [str] stores it;
    lengths and offsets are byte lengths and offsets.  [char::is_whitespace]
    is Unicode's White_Space property, written out on its UTF-8 encodings, so
    [trim] on bytes is Rust's [trim] on every valid string. *)

From S2P Require Import Prelude.
From Stdlib Require Import Ascii String.
From stdpp Require Import strings.

Definition code (c : ascii) : N := N_of_ascii c.
Definition in_range (lo hi n : N) : bool := (N.leb lo n && N.leb n hi)%bool.

(** ** Character classes *)

Definition is_ascii_digit (c : ascii) : bool := in_range 48 57 (code c).
Definition is_ascii_uppercase (c : ascii) : bool := in_range 65 90 (code c).
Definition is_ascii_lowercase (c : ascii) : bool := in_range 97 122 (code c).
Definition is_ascii_alphabetic (c : ascii) : bool :=
  is_ascii_uppercase c || is_ascii_lowercase c.
Definition is_ascii_alphanumeric (c : ascii) : bool :=
  is_ascii_alphabetic c || is_ascii_digit c.

(** White_Space: U+0009..000D and U+0020 take one byte, U+0085 and U+00A0 two,
    U+1680, U+2000..200A, U+2028, U+2029, U+202F, U+205F and U+3000 three. *)
Definition ws1 (a : ascii) : bool := in_range 9 13 (code a) || N.eqb (code a) 32.
Definition ws2 (a b : ascii) : bool :=
  N.eqb (code a) 194 && (N.eqb (code b) 133 || N.eqb (code b) 160).
Definition ws3 (a b c : ascii) : bool :=
  (N.eqb (code a) 225 && N.eqb (code b) 154 && N.eqb (code c) 128)
  || (N.eqb (code a) 226 && N.eqb (code b) 128
      && (in_range 128 138 (code c) || N.eqb (code c) 168 || N.eqb (code c) 169
          || N.eqb (code c) 175))
  || (N.eqb (code a) 226 && N.eqb (code b) 129 && N.eqb (code c) 159)
  || (N.eqb (code a) 227 && N.eqb (code b) 128 && N.eqb (code c) 128).

(** ** Trimming and cutting *)

Fixpoint trim_start (s : string) : string :=
  match s with
  | EmptyString => s
  | String a r1 =>
      if ws1 a then trim_start r1 else
      match r1 with
      | EmptyString => s
      | String b r2 =>
          if ws2 a b then trim_start r2 else
          match r2 with
          | EmptyString => s
          | String c r3 => if ws3 a b c then trim_start r3 else s
          end
      end
  end.

(** [trim_end] works on the reversed bytes. *)
Fixpoint trim_rev (s : string) : string :=
  match s with
  | EmptyString => s
  | String a r1 =>
      if ws1 a then trim_rev r1 else
      match r1 with
      | EmptyString => s
      | String b r2 =>
          if ws2 b a then trim_rev r2 else
          match r2 with
          | EmptyString => s
          | String c r3 => if ws3 c b a then trim_rev r3 else s
          end
      end
  end.
Definition trim_end (s : string) : string := String.rev (trim_rev (String.rev s)).
Definition trim (s : string) : string := trim_end (trim_start s).

(** [str::split_once] on an ASCII separator. *)
Fixpoint split_once (sep : ascii) (s : string) : option (string * string) :=
  match s with
  | EmptyString => None
  | String c r =>
      if decide (c = sep) then Some (EmptyString, r)
      else match split_once sep r with
           | Some (a, b) => Some (String c a, b)
           | None => None
           end
  end.

(** [str::split(sep).next()]: the text before the first separator. *)
Definition split_first (sep : ascii) (s : string) : string :=
  match split_once sep s with Some (a, _) => a | None => s end.

(** [str::find], the byte offset of the first match, and [str::contains]. *)
Definition find (pat s : string) : option nat := String.index 0 pat s.
Definition contains (pat s : string) : bool := match find pat s with Some _ => true | None => false end.
Definition starts_with (p s : string) : bool := String.prefix p s.

(** [&s[a..b]]: panics ([None]) when [a > b] or [b] is out of range. *)
Definition slice (a b : nat) (s : string) : option string :=
  if (Nat.leb a b && Nat.leb b (String.length s))%bool
  then Some (String.substring a (b - a) s) else None.

(** [str::replace] for a non-empty pattern: leftmost, non-overlapping. *)
Fixpoint replace_go (pat rep : string) (skip : nat) (s : string) : string :=
  match s with
  | EmptyString => EmptyString
  | String c r =>
      match skip with
      | S k => replace_go pat rep k r
      | O => if String.prefix pat s
             then rep +:+ replace_go pat rep (String.length pat - 1) r
             else String c (replace_go pat rep 0 r)
      end
  end.
Definition replace (pat rep s : string) : string := replace_go pat rep 0 s.

(** [str::replace] of one byte. *)
Fixpoint replace_char (c : ascii) (rep s : string) : string :=
  match s with
  | EmptyString => EmptyString
  | String x r => if decide (x = c) then rep +:+ replace_char c rep r
                  else String x (replace_char c rep r)
  end.

Definition LF : ascii := "010"%char.
Definition CR : ascii := "013"%char.

(** [str::lines]: split at LF, dropping one CR before it. *)
Fixpoint lines (s : string) : list string :=
  match s with
  | EmptyString => []
  | String c r =>
      if decide (c = LF) then EmptyString :: lines r
      else if (bool_decide (c = CR) && String.prefix (String LF "") r)%bool then lines r
      else match lines r with
           | [] => [String c EmptyString]
           | l :: ls => String c l :: ls
           end
  end.

(** [str::split_whitespace().count()]. *)
Fixpoint word_count_go (in_word : bool) (s : string) : nat :=
  match s with
  | EmptyString => O
  | String a r1 =>
      if ws1 a then word_count_go false r1 else
      let next := (if in_word then O else S O) + word_count_go true r1 in
      match r1 with
      | EmptyString => next
      | String b r2 =>
          if ws2 a b then word_count_go false r2 else
          match r2 with
          | EmptyString => next
          | String c r3 => if ws3 a b c then word_count_go false r3 else next
          end
      end
  end.
Definition word_count (s : string) : nat := word_count_go false s.

(** [s.chars().take(n)]: a character is a byte that is not a continuation byte
    and the continuation bytes after it. *)
Definition is_continuation (c : ascii) : bool :=
  (128 <=? nat_of_ascii c) && (nat_of_ascii c <? 192).
Fixpoint take_chars (n : nat) (s : string) : string :=
  match s with
  | EmptyString => EmptyString
  | String c r =>
      if is_continuation c then String c (take_chars n r)
      else match n with O => EmptyString | S k => String c (take_chars k r) end
  end.
Fixpoint char_count (s : string) : nat :=
  match s with
  | EmptyString => O
  | String c r => (if is_continuation c then O else S O) + char_count r
  end.
(** [s.lines().next().unwrap_or(d).chars().take(n).collect()]. *)
Definition first_line_chars (n : nat) (d s : string) : string :=
  take_chars n (match lines s with l :: _ => l | [] => d end).

(** [Display] of an unsigned integer: decimal digits, no leading zero.  The fuel
    is the number's size in bits. *)
Definition digit (n : N) : ascii := ascii_of_N (48 + n).
Fixpoint decimal_go (fuel : nat) (n : N) (acc : string) : string :=
  match fuel with
  | O => acc
  | S f => let acc' := String (digit (n mod 10)) acc in
           if (n <? 10)%N then acc' else decimal_go f (n / 10) acc'
  end.
Definition decimal (n : N) : string := decimal_go (S (N.size_nat n)) n "".

(** ** Mapping, joining *)

Definition to_ascii_lower (c : ascii) : ascii :=
  if is_ascii_uppercase c then ascii_of_N (code c + 32) else c.
Fixpoint map_string (f : ascii → ascii) (s : string) : string :=
  match s with
  | EmptyString => EmptyString
  | String c r => String (f c) (map_string f r)
  end.
Definition to_ascii_lowercase (s : string) : string := map_string to_ascii_lower s.

Fixpoint all_chars (p : ascii → bool) (s : string) : bool :=
  match s with
  | EmptyString => true
  | String c r => p c && all_chars p r
  end.

(** [<[String]>::join]. *)
Fixpoint join (sep : string) (xs : list string) : string :=
  match xs with
  | [] => EmptyString
  | [x] => x
  | x :: xs' => x +:+ sep +:+ join sep xs'
  end.

Definition is_empty (s : string) : bool :=
  match s with EmptyString => true | _ => false end.


(** ** Lemmas *)

Definition no_char (c : ascii) (s : string) : bool :=
  all_chars (λ x, negb (bool_decide (x = c))) s.

Lemma str_app_cons c s1 s2 : String c s1 +:+ s2 = String c (s1 +:+ s2).
Proof. reflexivity. Qed.
Lemma str_app_nil_l s : "" +:+ s = s.
Proof. reflexivity. Qed.

Lemma all_chars_app p s1 s2 : all_chars p (s1 +:+ s2) = all_chars p s1 && all_chars p s2.
Proof.
  induction s1 as [|c s1 IH]; [done|]. rewrite str_app_cons. cbn. by rewrite IH, andb_assoc.
Qed.
Lemma no_char_app c s t : no_char c (s +:+ t) = no_char c s && no_char c t.
Proof. apply all_chars_app. Qed.

Lemma all_chars_impl (p q : ascii → bool) s :
  (∀ c, p c = true → q c = true) → all_chars p s = true → all_chars q s = true.
Proof.
  intros Hpq. induction s as [|c s IH]; cbn; [done|].
  rewrite !andb_true_iff. intros [H1 H2]. auto.
Qed.

Lemma str_app_nil_r s : s +:+ "" = s.
Proof. induction s as [|c s IH]; [done|]. by rewrite str_app_cons, IH. Qed.

Lemma str_app_assoc s1 s2 s3 : s1 +:+ (s2 +:+ s3) = (s1 +:+ s2) +:+ s3.
Proof. induction s1 as [|c s1 IH]; [done|]. by rewrite !str_app_cons, IH. Qed.

Lemma str_length_app s1 s2 : String.length (s1 +:+ s2) = String.length s1 + String.length s2.
Proof. induction s1 as [|c s1 IH]; [done|]. rewrite str_app_cons. cbn. by rewrite IH. Qed.

Lemma rev_app_all p s1 s2 :
  all_chars p (String.rev_app s1 s2) = all_chars p s1 && all_chars p s2.
Proof.
  revert s2. induction s1 as [|c s1 IH]; intros s2; cbn; [done|].
  rewrite IH. cbn. destruct (p c), (all_chars p s1); done.
Qed.

Lemma all_chars_rev p s : all_chars p (String.rev s) = all_chars p s.
Proof. unfold String.rev. rewrite rev_app_all. cbn. by rewrite andb_true_r. Qed.

(** Induction on a string by its length. *)
Lemma string_lt_ind (P : string → Prop) :
  (∀ s, (∀ s', String.length s' < String.length s → P s') → P s) → ∀ s, P s.
Proof.
  intros H s. remember (String.length s) as n eqn:E. revert s E.
  induction (lt_wf n) as [n _ IH]. intros s ->. apply H. intros s' Hs'.
  by apply (IH _ Hs' s').
Qed.

(** Trimming returns a suffix (of the reversed bytes for [trim_rev]). *)
Lemma trim_start_suffix s : ∃ pre, s = pre +:+ trim_start s.
Proof.
  induction s as [s IH] using string_lt_ind.
  assert (Hskip : ∀ pre r, s = pre +:+ r → String.length pre > 0 →
    ∃ pre', s = pre' +:+ trim_start r).
  { intros pre r Hs Hpre. destruct (IH r) as [pre' Hpre'].
    - rewrite Hs, str_length_app. lia.
    - exists (pre +:+ pre'). by rewrite <- str_app_assoc, <- Hpre'. }
  destruct s as [|a r1]; [by exists ""|]. cbn.
  destruct (ws1 a); [apply (Hskip (String a "")); [reflexivity|cbn; lia]|].
  destruct r1 as [|b r2]; [by exists ""|].
  destruct (ws2 a b); [apply (Hskip (String a (String b ""))); [reflexivity|cbn; lia]|].
  destruct r2 as [|c r3]; [by exists ""|].
  destruct (ws3 a b c); [apply (Hskip (String a (String b (String c "")))); [reflexivity|cbn; lia]|].
  by exists "".
Qed.

Lemma trim_rev_suffix s : ∃ pre, s = pre +:+ trim_rev s.
Proof.
  induction s as [s IH] using string_lt_ind.
  assert (Hskip : ∀ pre r, s = pre +:+ r → String.length pre > 0 →
    ∃ pre', s = pre' +:+ trim_rev r).
  { intros pre r Hs Hpre. destruct (IH r) as [pre' Hpre'].
    - rewrite Hs, str_length_app. lia.
    - exists (pre +:+ pre'). by rewrite <- str_app_assoc, <- Hpre'. }
  destruct s as [|a r1]; [by exists ""|]. cbn.
  destruct (ws1 a); [apply (Hskip (String a "")); [reflexivity|cbn; lia]|].
  destruct r1 as [|b r2]; [by exists ""|].
  destruct (ws2 b a); [apply (Hskip (String a (String b ""))); [reflexivity|cbn; lia]|].
  destruct r2 as [|c r3]; [by exists ""|].
  destruct (ws3 c b a); [apply (Hskip (String a (String b (String c "")))); [reflexivity|cbn; lia]|].
  by exists "".
Qed.

Lemma trim_all p s : all_chars p s = true → all_chars p (trim s) = true.
Proof.
  unfold trim, trim_end. intros Hs. rewrite all_chars_rev.
  destruct (trim_start_suffix s) as [pre E1].
  destruct (trim_rev_suffix (String.rev (trim_start s))) as [pre' E2].
  apply (f_equal (all_chars p)) in E1, E2.
  rewrite all_chars_app in E1, E2. rewrite all_chars_rev in E2.
  destruct (all_chars p (trim_rev _)); [done|].
  rewrite andb_false_r in E2. rewrite E2, andb_false_r in E1. congruence.
Qed.

Lemma split_once_spec sep s a b :
  split_once sep s = Some (a, b) ↔ s = a +:+ String sep b ∧ no_char sep a = true.
Proof.
  revert a. induction s as [|c s IH]; intros a; cbn.
  - split; [done|]. intros [H _]. by destruct a.
  - case_decide as Hc.
    + subst c. split.
      * intros [= <- <-]. done.
      * intros [H Hno]. destruct a as [|x a]; [rewrite str_app_nil_l in H; by simplify_eq|].
        rewrite str_app_cons in H. simplify_eq. unfold no_char in Hno. cbn in Hno.
        by rewrite bool_decide_true in Hno.
    + destruct (split_once sep s) as [[a' b']|] eqn:E; split.
      * intros [= <- <-]. destruct (proj1 (IH a') eq_refl) as [-> Hno].
        rewrite str_app_cons. split; [done|]. unfold no_char in *. cbn.
        by rewrite bool_decide_false.
      * intros [H Hno]. destruct a as [|x a]; rewrite ?str_app_nil_l, ?str_app_cons in H; simplify_eq.
        unfold no_char in Hno. cbn in Hno. rewrite andb_true_iff in Hno.
        destruct Hno as [_ Hno]. pose proof (proj2 (IH a) (conj eq_refl Hno)). congruence.
      * done.
      * intros [H Hno]. destruct a as [|x a]; rewrite ?str_app_nil_l, ?str_app_cons in H; simplify_eq.
        unfold no_char in Hno. cbn in Hno. rewrite andb_true_iff in Hno.
        destruct Hno as [_ Hno]. pose proof (proj2 (IH a) (conj eq_refl Hno)). congruence.
Qed.

Lemma split_once_all p sep s a b :
  split_once sep s = Some (a, b) → all_chars p s = true →
  all_chars p a = true ∧ all_chars p b = true.
Proof.
  intros [-> _]%split_once_spec. rewrite all_chars_app. cbn. rewrite !andb_true_iff. tauto.
Qed.

Lemma lines_no_LF s l : l ∈ lines s → no_char LF l = true.
Proof.
  revert l. induction s as [|c s IH]; intros l; cbn; [by intros ?%elem_of_nil|].
  case_decide as Hc.
  - intros [->|H]%elem_of_cons; [done|auto].
  - case_match; [auto|]. destruct (lines s) as [|l0 ls].
    + intros ->%list_elem_of_singleton. unfold no_char; cbn. by rewrite bool_decide_false.
    + intros [->|Hl]%elem_of_cons; [|apply IH; by right].
      unfold no_char; cbn. rewrite bool_decide_false by done. apply IH. left.
Qed.

Lemma prefix_app_LF p l r :
  no_char LF p = true → String.prefix p (l +:+ String LF r) = String.prefix p l.
Proof.
  revert l. induction p as [|x p IH]; intros l; [by destruct l, r|].
  unfold no_char; cbn. rewrite andb_true_iff, negb_true_iff. intros [Hx Hp].
  apply bool_decide_eq_false in Hx.
  destruct l as [|y l]; [rewrite str_app_nil_l; cbn; by destruct (ascii_dec x LF)|].
  rewrite str_app_cons. cbn. destruct (ascii_dec x y); [by apply IH|done].
Qed.

(** A pattern without LF is found line by line. *)
Lemma find_skip_line p l r :
  no_char LF p = true → p ≠ "" → find p l = None →
  find p (l +:+ String LF r) = (λ n, S (String.length l) + n) <$> find p r.
Proof.
  unfold find. intros Hp Hne. induction l as [|c l IH]; intros Hl.
  - rewrite str_app_nil_l. cbn. destruct p as [|x p]; [done|].
    unfold no_char in Hp; cbn in Hp. rewrite andb_true_iff, negb_true_iff in Hp.
    destruct Hp as [Hx%bool_decide_eq_false _]. cbn.
    destruct (ascii_dec x LF); [done|].
    by destruct (String.index 0 (String x p) r).
  - cbn [String.index] in Hl. destruct (String.prefix p (String c l)) eqn:E; [done|].
    destruct (String.index 0 p l) eqn:E'; [done|].
    rewrite str_app_cons. cbn [String.index]. rewrite <- str_app_cons, prefix_app_LF, E by done.
    rewrite IH by done. by destruct (String.index 0 p r).
Qed.

Lemma prefix_refl_app p r : String.prefix p (p +:+ r) = true.
Proof.
  induction p as [|x p IH]; [by destruct r|]. rewrite str_app_cons. cbn.
  by destruct (ascii_dec x x).
Qed.

Lemma find_here p r : find p (p +:+ r) = Some 0.
Proof.
  unfold find. destruct (p +:+ r) as [|c s] eqn:E.
  - by destruct p.
  - cbn [String.index]. by rewrite <- E, prefix_refl_app.
Qed.

Lemma substring_all s : String.substring 0 (String.length s) s = s.
Proof. induction s as [|c s IH]; cbn; [done|]. by rewrite IH. Qed.

Lemma substring_app_l a r : String.substring 0 (String.length a) (a +:+ r) = a.
Proof.
  induction a as [|c a IH]; [by destruct r|]. rewrite str_app_cons. cbn. by rewrite IH.
Qed.

Lemma substring_mid a b r :
  String.substring (String.length a) (String.length b) (a +:+ (b +:+ r)) = b.
Proof.
  induction a as [|c a IH]; [exact (substring_app_l b r)|]. rewrite str_app_cons. exact IH.
Qed.

Lemma slice_mid a b r :
  slice (String.length a) (String.length a + String.length b) (a +:+ (b +:+ r)) = Some b.
Proof.
  unfold slice. rewrite !str_length_app.
  rewrite (proj2 (Nat.leb_le _ _)), (proj2 (Nat.leb_le _ _)) by lia. cbn [andb].
  replace (_ + _ - _) with (String.length b) by lia. by rewrite substring_mid.
Qed.

Lemma lines_app_LF l r :
  no_char LF l = true → no_char CR l = true →
  lines (l +:+ String LF r) = l :: lines r.
Proof.
  unfold no_char. induction l as [|c l IH]; cbn; [done|].
  rewrite !andb_true_iff, !negb_true_iff. intros [H1 H2] [H3 H4].
  apply bool_decide_eq_false in H1. rewrite str_app_cons. cbn.
  rewrite decide_False by done. rewrite H3. cbn. by rewrite IH.
Qed.

Lemma lines_last l : l ≠ "" → no_char LF l = true → no_char CR l = true → lines l = [l].
Proof.
  unfold no_char. induction l as [|c l IH]; cbn; [done|]. intros _.
  rewrite !andb_true_iff, !negb_true_iff. intros [H1 H2] [H3 H4].
  apply bool_decide_eq_false in H1. rewrite decide_False by done. rewrite H3. cbn.
  destruct l as [|d l]; [done|]. by rewrite IH.
Qed.

#[export] Hint Resolve prefix_refl_app lines_no_LF : dbm.

Lemma find_bound p s n : find p s = Some n → n ≤ String.length s.
Proof.
  unfold find. revert n. induction s as [|c s IH]; intros n.
  - destruct p; cbn; [|done]. intros [= <-]. lia.
  - cbn [String.index]. destruct (String.prefix p (String c s)).
    + intros [= <-]. lia.
    + destruct (String.index 0 p s) as [k|]; [|done].
      intros [= <-]. specialize (IH k eq_refl). cbn. lia.
Qed.

Lemma slice_None a b s : b ≤ String.length s → slice a b s = None ↔ b < a.
Proof.
  intros Hb. unfold slice. rewrite (proj2 (Nat.leb_le b _)) by done. rewrite andb_true_r.
  destruct (Nat.leb_spec a b); split; done || lia.
Qed.

(** Text up to a separator it does not contain determines the split. *)
Lemma sep_inj c a b r s :
  no_char c a = true → no_char c b = true →
  a +:+ String c r = b +:+ String c s → a = b ∧ r = s.
Proof.
  intros Ha Hb Heq.
  pose proof (proj2 (split_once_spec c (a +:+ String c r) a r) (conj eq_refl Ha)) as E1.
  pose proof (proj2 (split_once_spec c (a +:+ String c r) b s) (conj Heq Hb)) as E2.
  rewrite E1 in E2. by simplify_eq.
Qed.

Lemma str_app_inv_head a r s : a +:+ r = a +:+ s → r = s.
Proof.
  induction a as [|c a IH]; [done|]. rewrite !str_app_cons. intros H. by simplify_eq.
Qed.

(** ** What trimming removes *)

Inductive ws_string : string → Prop :=
| ws_nil : ws_string ""
| ws_one a r : ws1 a = true → ws_string r → ws_string (String a r)
| ws_two a b r : ws2 a b = true → ws_string r → ws_string (String a (String b r))
| ws_three a b c r : ws3 a b c = true → ws_string r →
    ws_string (String a (String b (String c r))).

Lemma ws_string_app s1 s2 : ws_string s1 → ws_string s2 → ws_string (s1 +:+ s2).
Proof.
  intros H1 H2. induction H1; rewrite ?str_app_cons, ?str_app_nil_l; [done|..];
    first [by apply ws_one|by apply ws_two|by apply ws_three].
Qed.

Lemma rev_app_spec s1 s2 : String.rev_app s1 s2 = String.rev s1 +:+ s2.
Proof.
  revert s2. unfold String.rev. induction s1 as [|c s1 IH]; intros s2; cbn; [done|].
  rewrite IH, (IH (String c "")). by rewrite <- str_app_assoc, str_app_cons, str_app_nil_l.
Qed.

Lemma rev_cons c s : String.rev (String c s) = String.rev s +:+ String c "".
Proof. unfold String.rev at 1. cbn. apply rev_app_spec. Qed.

Lemma rev_app s1 s2 : String.rev (s1 +:+ s2) = String.rev s2 +:+ String.rev s1.
Proof.
  induction s1 as [|c s1 IH]; [by rewrite str_app_nil_l, str_app_nil_r|].
  by rewrite str_app_cons, !rev_cons, IH, str_app_assoc.
Qed.

Lemma rev_rev s : String.rev (String.rev s) = s.
Proof. induction s as [|c s IH]; [done|]. by rewrite rev_cons, rev_app, IH. Qed.

Lemma trim_start_ws s : ∃ w, ws_string w ∧ s = w +:+ trim_start s.
Proof.
  induction s as [s IH] using string_lt_ind.
  assert (Hskip : ∀ pre r, s = pre +:+ r → String.length pre > 0 → ws_string pre →
    ∃ w, ws_string w ∧ s = w +:+ trim_start r).
  { intros pre r Hs Hpre Hw. destruct (IH r) as (w & Hww & Hr).
    - rewrite Hs, str_length_app. lia.
    - exists (pre +:+ w). split; [by apply ws_string_app|]. by rewrite <- str_app_assoc, <- Hr. }
  assert (Hstop : ∃ w, ws_string w ∧ s = w +:+ s) by (exists ""; split; [constructor|done]).
  destruct s as [|a r1]; [done|]. cbn.
  destruct (ws1 a) eqn:E1;
    [apply (Hskip (String a "")); [done|cbn; lia|by apply ws_one, ws_nil]|].
  destruct r1 as [|b r2]; [done|].
  destruct (ws2 a b) eqn:E2;
    [apply (Hskip (String a (String b ""))); [done|cbn; lia|by apply ws_two, ws_nil]|].
  destruct r2 as [|c r3]; [done|].
  destruct (ws3 a b c) eqn:E3; [|done].
  apply (Hskip (String a (String b (String c "")))); [done|cbn; lia|by apply ws_three, ws_nil].
Qed.

Lemma trim_rev_ws s : ∃ w, ws_string (String.rev w) ∧ s = w +:+ trim_rev s.
Proof.
  induction s as [s IH] using string_lt_ind.
  assert (Hskip : ∀ pre r, s = pre +:+ r → String.length pre > 0 → ws_string (String.rev pre) →
    ∃ w, ws_string (String.rev w) ∧ s = w +:+ trim_rev r).
  { intros pre r Hs Hpre Hw. destruct (IH r) as (w & Hww & Hr).
    - rewrite Hs, str_length_app. lia.
    - exists (pre +:+ w). rewrite rev_app. split; [by apply ws_string_app|].
      by rewrite <- str_app_assoc, <- Hr. }
  assert (Hstop : ∃ w, ws_string (String.rev w) ∧ s = w +:+ s) by (exists ""; split; [constructor|done]).
  destruct s as [|a r1]; [done|]. cbn.
  destruct (ws1 a) eqn:E1;
    [apply (Hskip (String a "")); [done|cbn; lia|cbn; by apply ws_one, ws_nil]|].
  destruct r1 as [|b r2]; [done|].
  destruct (ws2 b a) eqn:E2;
    [apply (Hskip (String a (String b ""))); [done|cbn; lia|cbn; by apply ws_two, ws_nil]|].
  destruct r2 as [|c r3]; [done|].
  destruct (ws3 c b a) eqn:E3; [|done].
  apply (Hskip (String a (String b (String c "")))); [done|cbn; lia|cbn; by apply ws_three, ws_nil].
Qed.

(** The text around a trimmed string is white space. *)
Lemma trim_spec s : ∃ w1 w2, ws_string w1 ∧ ws_string w2 ∧ s = w1 +:+ (trim s +:+ w2).
Proof.
  destruct (trim_start_ws s) as (w1 & H1 & E1).
  destruct (trim_rev_ws (String.rev (trim_start s))) as (w2 & H2 & E2).
  exists w1, (String.rev w2). split; [done|]. split; [done|].
  unfold trim, trim_end. rewrite <- rev_app, <- E2, rev_rev. done.
Qed.

Lemma decimal_digits n : all_chars is_ascii_digit (decimal n) = true.
Proof.
  unfold decimal. generalize (S (N.size_nat n)). intros fuel.
  assert (H : ∀ acc, all_chars is_ascii_digit acc = true →
    all_chars is_ascii_digit (decimal_go fuel n acc) = true); [|by apply H].
  revert n. induction fuel as [|f IH]; intros n acc Hacc; [done|]. cbn.
  assert (Hd : is_ascii_digit (digit (n mod 10)) = true).
  { unfold is_ascii_digit, digit, code, in_range. pose proof (N.mod_lt n 10 ltac:(done)).
    rewrite N_ascii_embedding by lia. rewrite andb_true_iff, !N.leb_le. revert H. generalize (n mod 10)%N. intros x Hx. lia. }
  destruct (n <? 10)%N; [cbn; by rewrite Hd|]. apply IH. cbn. by rewrite Hd.
Qed.

Lemma join_all p sep xs :
  all_chars p sep = true → Forall (λ x, all_chars p x = true) xs → all_chars p (join sep xs) = true.
Proof.
  intros Hs H. induction H as [|x xs Hx H IH]; [done|]. destruct xs as [|y xs]; [done|].
  change (join sep (x :: y :: xs)) with (x +:+ (sep +:+ join sep (y :: xs))).
  by rewrite !all_chars_app, Hx, Hs, IH.
Qed.

(** Doubling a quote character, and reading the quoted text back. *)
Definition double_quotes (q : ascii) (s : string) : string := replace_char q (String q (String q "")) s.

Fixpoint unquote_go (q : ascii) (s : string) : option (string * string) :=
  match s with
  | EmptyString => None
  | String c r =>
      if decide (c = q) then
        match r with
        | String c' r' =>
            if decide (c' = q) then
              match unquote_go q r' with Some (x, k) => Some (String q x, k) | None => None end
            else Some ("", r)
        | EmptyString => Some ("", "")
        end
      else match unquote_go q r with Some (x, k) => Some (String c x, k) | None => None end
  end.

Lemma unquote_double q s k : starts_with (String q "") k = false →
  unquote_go q (double_quotes q s +:+ String q k) = Some (s, k).
Proof.
  intros Hk. unfold double_quotes. induction s as [|c s IH]; cbn.
  - rewrite str_app_nil_l. cbn. rewrite decide_True by done.
    destruct k as [|c k]; [done|]. cbn in Hk. rewrite decide_False; [done|]. intros ->.
    destruct (ascii_dec q q); [by destruct k|done].
  - case_decide as E.
    + subst c. rewrite <- str_app_assoc, !str_app_cons, str_app_nil_l. cbn.
      rewrite !decide_True by done. by rewrite IH.
    + rewrite str_app_cons. cbn. rewrite decide_False by done. by rewrite IH.
Qed.

Lemma take_chars_count n s : char_count (take_chars n s) ≤ n.
Proof.
  revert n. induction s as [|c s IH]; intros n; cbn; [lia|].
  destruct (is_continuation c) eqn:E; [cbn; rewrite E; apply IH|].
  destruct n as [|n]; [cbn; lia|]. cbn. rewrite E. specialize (IH n). lia.
Qed.

Lemma take_chars_all p n s : all_chars p s = true → all_chars p (take_chars n s) = true.
Proof.
  revert n. induction s as [|c s IH]; intros n; cbn; [done|]. rewrite andb_true_iff. intros [Hc Hs].
  destruct (is_continuation c); [cbn; by rewrite Hc, IH|].
  destruct n as [|n]; [done|]. cbn. by rewrite Hc, IH.
Qed.

Lemma first_line_chars_spec n d s : no_char LF d = true →
  no_char LF (first_line_chars n d s) = true ∧ char_count (first_line_chars n d s) ≤ n.
Proof.
  intros Hd. unfold first_line_chars. split; [|apply take_chars_count].
  apply take_chars_all. destruct (lines s) as [|l ls] eqn:E; [done|].
  apply (lines_no_LF s). rewrite E. left.
Qed.

#[export] Hint Resolve trim_all : dbm.

(** ** [str::parse] to integers

    One optional sign, then one or more digits; [None] on anything else and on
    overflow. *)

Definition digit_value (c : ascii) : N := code c - 48.
Fixpoint parse_digits_go (acc : N) (s : string) : option N :=
  match s with
  | EmptyString => Some acc
  | String c r => if is_ascii_digit c then parse_digits_go (10 * acc + digit_value c) r else None
  end.
Definition parse_digits (s : string) : option N :=
  match s with EmptyString => None | _ => parse_digits_go 0 s end.

Definition parse_u64 (s : string) : option Z :=
  let digits := match s with String c r => if decide (c = "+"%char) then r else s | _ => s end in
  n ← parse_digits digits; if decide (Z.of_N n ≤ u64_max)%Z then Some (Z.of_N n) else None.
Definition parse_i64 (s : string) : option Z :=
  match s with
  | String "-"%char r =>
      n ← parse_digits r; if decide (Z.of_N n ≤ 2 ^ 63)%Z then Some (- Z.of_N n)%Z else None
  | String "+"%char r =>
      n ← parse_digits r; if decide (Z.of_N n ≤ i64_max)%Z then Some (Z.of_N n) else None
  | _ => n ← parse_digits s; if decide (Z.of_N n ≤ i64_max)%Z then Some (Z.of_N n) else None
  end.

Lemma digit_value_digit n : (n < 10)%N → digit_value (digit n) = n ∧ is_ascii_digit (digit n) = true.
Proof.
  intros Hn. unfold digit_value, digit, is_ascii_digit, code, in_range.
  rewrite N_ascii_embedding by lia. rewrite andb_true_iff, !N.leb_le. lia.
Qed.

Fixpoint str_pow10 (s : string) : N :=
  match s with EmptyString => 1 | String _ r => 10 * str_pow10 r end%N.

Lemma parse_digits_go_shift acc s :
  all_chars is_ascii_digit s = true →
  ∃ v, parse_digits_go 0 s = Some v ∧ parse_digits_go acc s = Some (acc * str_pow10 s + v)%N.
Proof.
  revert acc. induction s as [|c s IH]; intros acc; cbn [all_chars parse_digits_go str_pow10].
  - intros _. exists 0%N. split; [done|]. f_equal. lia.
  - intros [-> Hs]%andb_true_iff.
    destruct (IH (10 * 0 + digit_value c)%N Hs) as (v & Hv & E1).
    destruct (IH (10 * acc + digit_value c)%N Hs) as (v' & Hv' & E2).
    rewrite Hv in Hv'. injection Hv' as <-. rewrite E1, E2. eexists. split; [done|]. f_equal. lia.
Qed.

Lemma size_nat_div10 m : (10 ≤ m)%N → (N.size_nat (m / 10) < N.size_nat m)%nat.
Proof.
  intros Hm. assert (H : ∀ a, N.size_nat a = N.to_nat (N.size a)).
  { intros [|p]; [done|]. cbn. induction p; cbn; lia. }
  rewrite !H. enough (N.size (m / 10) < N.size m)%N by lia.
  rewrite !N.size_log2; [|lia|apply N.neq_0_lt_0, N.div_str_pos; lia].
  enough (N.log2 (m / 10) < N.log2 m)%N by lia.
  apply N.log2_lt_pow2; [apply N.div_str_pos; lia|].
  apply N.Div0.div_lt_upper_bound. pose proof (N.log2_spec m ltac:(lia)). rewrite N.pow_succ_r' in H0. lia.
Qed.

(** Printing is read back. *)
Lemma parse_decimal n : parse_digits (decimal n) = Some n.
Proof.
  assert (Hgo : ∀ fuel m acc, (N.size_nat m < fuel)%nat → all_chars is_ascii_digit acc = true →
    ∀ v, parse_digits_go 0 acc = Some v →
    parse_digits (decimal_go fuel m acc) = Some (m * str_pow10 acc + v)%N).
  { induction fuel as [|f IH]; intros m acc Hf Hacc v Hv; [lia|]. cbn [decimal_go].
    assert (Hmod : (m mod 10 < 10)%N) by (by apply N.mod_lt).
    destruct (digit_value_digit (m mod 10) Hmod) as [Hdv Hdd].
    destruct (parse_digits_go_shift (m mod 10) acc Hacc) as (v' & Hv' & Es).
    rewrite Hv in Hv'. injection Hv' as <-.
    destruct (N.ltb_spec m 10) as [Hm|Hm].
    - cbn [parse_digits parse_digits_go]. rewrite Hdd, Hdv.
      replace (10 * 0 + m mod 10)%N with (m mod 10)%N by lia. rewrite Es. by rewrite N.mod_small.
    - rewrite (IH (m / 10)%N _) with (v := (m mod 10 * str_pow10 acc + v)%N).
      + f_equal. cbn [str_pow10]. pose proof (N.div_mod m 10). lia.
      + pose proof (size_nat_div10 m Hm). lia.
      + cbn [all_chars]. by rewrite Hdd, Hacc.
      + cbn [parse_digits_go]. rewrite Hdd, Hdv.
        replace (10 * 0 + m mod 10)%N with (m mod 10)%N by lia. exact Es. }
  unfold decimal. rewrite (Hgo (S (N.size_nat n)) n "" ltac:(lia) eq_refl 0%N eq_refl). f_equal. cbn. lia.
Qed.

(** ** [str::split] on a character, and the narrower integers *)

Fixpoint split_on (sep : ascii) (s : string) : list string :=
  match s with
  | "" => [""]
  | String c r =>
      if decide (c = sep) then "" :: split_on sep r
      else match split_on sep r with
           | x :: xs => String c x :: xs
           | [] => [String c ""]
           end
  end.

(** [str::parse::<u32>] and [::<u16>]: the digits of [u64] with a lower limit. *)
Definition parse_below (limit : Z) (s : string) : option Z :=
  n ← parse_u64 s; if decide (n ≤ limit)%Z then Some n else None.
Definition parse_u32 : string → option Z := parse_below u32_max.
Definition parse_u16 : string → option Z := parse_below (2 ^ 16 - 1).

(** [str::strip_prefix]. *)
Fixpoint str_strip_prefix (p s : string) : option string :=
  match p, s with
  | "", _ => Some s
  | String a p', String b s' => if decide (a = b) then str_strip_prefix p' s' else None
  | String _ _, "" => None
  end.
Lemma strip_prefix_app p r : str_strip_prefix p (p +:+ r) = Some r.
Proof. induction p as [|c p IH]; [done|]. rewrite str_app_cons. cbn. by rewrite decide_True. Qed.
Lemma strip_prefix_Some p s r : str_strip_prefix p s = Some r → s = p +:+ r.
Proof.
  revert s. induction p as [|a p IH]; intros s; cbn; [by intros [= ->]|].
  destruct s as [|b s]; [done|]. case_decide; [|done]. intros Hs. subst. rewrite str_app_cons. f_equal. by apply IH.
Qed.

(** ** Trimming twice *)

Lemma trim_start_length s : String.length (trim_start s) ≤ String.length s.
Proof. destruct (trim_start_suffix s) as [pre E]. rewrite E at 2. rewrite str_length_app. lia. Qed.

Lemma trim_start_cons a r1 : trim_start (String a r1) =
  if ws1 a then trim_start r1 else
  match r1 with
  | EmptyString => String a r1
  | String b r2 => if ws2 a b then trim_start r2 else
      match r2 with EmptyString => String a r1 | String c r3 => if ws3 a b c then trim_start r3 else String a r1 end
  end.
Proof. reflexivity. Qed.
Lemma trim_rev_cons a r1 : trim_rev (String a r1) =
  if ws1 a then trim_rev r1 else
  match r1 with
  | EmptyString => String a r1
  | String b r2 => if ws2 b a then trim_rev r2 else
      match r2 with EmptyString => String a r1 | String c r3 => if ws3 c b a then trim_rev r3 else String a r1 end
  end.
Proof. reflexivity. Qed.

Lemma trim_start_idem s : trim_start (trim_start s) = trim_start s.
Proof.
  induction s as [s IH] using string_lt_ind. destruct s as [|a r1]; [done|]. rewrite (trim_start_cons a r1).
  destruct (ws1 a) eqn:E1; [apply IH; cbn; lia|]. destruct r1 as [|b r2]; [by rewrite trim_start_cons, E1|].
  destruct (ws2 a b) eqn:E2; [apply IH; cbn; lia|]. destruct r2 as [|c r3]; [by rewrite trim_start_cons, E1, E2|].
  destruct (ws3 a b c) eqn:E3; [apply IH; cbn; lia|by rewrite trim_start_cons, E1, E2, E3].
Qed.

Lemma trim_rev_idem s : trim_rev (trim_rev s) = trim_rev s.
Proof.
  induction s as [s IH] using string_lt_ind. destruct s as [|a r1]; [done|]. rewrite (trim_rev_cons a r1).
  destruct (ws1 a) eqn:E1; [apply IH; cbn; lia|]. destruct r1 as [|b r2]; [by rewrite trim_rev_cons, E1|].
  destruct (ws2 b a) eqn:E2; [apply IH; cbn; lia|]. destruct r2 as [|c r3]; [by rewrite trim_rev_cons, E1, E2|].
  destruct (ws3 c b a) eqn:E3; [apply IH; cbn; lia|by rewrite trim_rev_cons, E1, E2, E3].
Qed.

(** What starts with no white space has no prefix that does. *)
Lemma trim_start_prefix s t : trim_start (s +:+ t) = s +:+ t → trim_start s = s.
Proof.
  assert (Hlen : ∀ u v : string, trim_start u = v → String.length u < String.length v → False).
  { intros u v <-. pose proof (trim_start_length u). lia. }
  destruct s as [|a r1]; [done|]. rewrite str_app_cons, !trim_start_cons.
  destruct (ws1 a); [intros E; exfalso; apply (Hlen _ _ E); cbn; lia|].
  destruct r1 as [|b r2]; [done|]. rewrite str_app_cons.
  destruct (ws2 a b); [intros E; exfalso; apply (Hlen _ _ E); cbn; lia|].
  destruct r2 as [|c r3]; [done|]. rewrite str_app_cons.
  destruct (ws3 a b c); [intros E; exfalso; apply (Hlen _ _ E); cbn; lia|done].
Qed.

Lemma trim_idem s : trim (trim s) = trim s.
Proof.
  unfold trim. set (x := trim_start s). assert (Hx : trim_start x = x) by apply trim_start_idem.
  assert (Hy : trim_start (trim_end x) = trim_end x).
  { destruct (trim_rev_suffix (String.rev x)) as [pre E]. apply (f_equal String.rev) in E.
    rewrite rev_rev, rev_app in E. apply (trim_start_prefix _ (String.rev pre)). unfold trim_end. by rewrite <- E. }
  rewrite Hy. unfold trim_end. by rewrite rev_rev, trim_rev_idem.
Qed.

Lemma to_ascii_lowercase_idem s : to_ascii_lowercase (to_ascii_lowercase s) = to_ascii_lowercase s.
Proof.
  unfold to_ascii_lowercase. induction s as [|c s IH]; [done|]. cbn. rewrite IH. f_equal.
  by destruct c as [[] [] [] [] [] [] [] []].
Qed.

(** ** UTF-8 *)

(** [String::from_utf8]: the well-formed byte sequences. *)
Definition byte_in (lo hi : N) (c : ascii) : bool := in_range lo hi (code c).
Definition continues (c : ascii) : bool := byte_in 128 191 c.
Fixpoint from_utf8 (s : string) : bool :=
  match s with
  | "" => true
  | String a r =>
      if byte_in 0 127 a then from_utf8 r else
      match r with
      | "" => false
      | String b r1 =>
          if byte_in 194 223 a && continues b then from_utf8 r1 else
          match r1 with
          | "" => false
          | String c r2 =>
              if (byte_in 224 224 a && byte_in 160 191 b
                  || byte_in 225 236 a && continues b
                  || byte_in 237 237 a && byte_in 128 159 b
                  || byte_in 238 239 a && continues b) && continues c
              then from_utf8 r2 else
              match r2 with
              | "" => false
              | String d r3 =>
                  if (byte_in 240 240 a && byte_in 144 191 b
                      || byte_in 241 243 a && continues b
                      || byte_in 244 244 a && byte_in 128 143 b) && continues c && continues d
                  then from_utf8 r3 else false
              end
          end
      end
  end.

(** [String::from_utf8_lossy]: every maximal ill-formed part becomes one U+FFFD. *)
Definition REPLACEMENT : string := "�".
Definition second_of_3 (a b : ascii) : bool :=
  byte_in 224 224 a && byte_in 160 191 b || byte_in 225 236 a && continues b
  || byte_in 237 237 a && byte_in 128 159 b || byte_in 238 239 a && continues b.
Definition second_of_4 (a b : ascii) : bool :=
  byte_in 240 240 a && byte_in 144 191 b || byte_in 241 243 a && continues b
  || byte_in 244 244 a && byte_in 128 143 b.
Fixpoint from_utf8_lossy (s : string) : string :=
  match s with
  | "" => ""
  | String a r =>
      if byte_in 0 127 a then String a (from_utf8_lossy r) else
      match r with
      | "" => REPLACEMENT
      | String b r1 =>
          if byte_in 194 223 a && continues b then String a (String b (from_utf8_lossy r1))
          else if second_of_3 a b then
            match r1 with
            | "" => REPLACEMENT
            | String c r2 =>
                if continues c then String a (String b (String c (from_utf8_lossy r2)))
                else REPLACEMENT +:+ from_utf8_lossy r1
            end
          else if second_of_4 a b then
            match r1 with
            | "" => REPLACEMENT
            | String c r2 =>
                if continues c then
                  match r2 with
                  | "" => REPLACEMENT
                  | String d r3 =>
                      if continues d then String a (String b (String c (String d (from_utf8_lossy r3))))
                      else REPLACEMENT +:+ from_utf8_lossy r2
                  end
                else REPLACEMENT +:+ from_utf8_lossy r1
            end
          else REPLACEMENT +:+ from_utf8_lossy r
      end
  end.

(** Well-formed text is left alone. *)
Lemma lossy_id s : from_utf8 s = true → from_utf8_lossy s = s.
Proof.
  induction s as [s IH] using (induction_ltof1 _ String.length).
  unfold ltof in IH. destruct s as [|a r]; [done|]. cbn.
  destruct (byte_in 0 127 a) eqn:Ea. { intros Hr. rewrite IH; [done|cbn; lia|done]. }
  destruct r as [|b r1]; [done|]. destruct (byte_in 194 223 a && continues b) eqn:E2.
  { intros Hr. rewrite IH; [done|cbn; lia|done]. }
  destruct r1 as [|c r2]; [done|]. fold (second_of_3 a b).
  destruct (second_of_3 a b) eqn:E3; cbn [andb].
  - destruct (continues c) eqn:Ec; [intros Hr; rewrite IH; [done|cbn; lia|done]|].
    destruct r2 as [|d r3]; [done|]. by rewrite andb_false_r, andb_false_l.
  - destruct r2 as [|d r3]; [done|]. fold (second_of_4 a b). destruct (second_of_4 a b), (continues c), (continues d);
      try done. cbn [andb]. intros Hr. rewrite IH; [done|cbn; lia|done].
Qed.

(** ** Splitting what was joined *)

Lemma split_on_app sep x r : no_char sep x = true → split_on sep (x +:+ String sep r) = x :: split_on sep r.
Proof.
  induction x as [|c x IH]. { intros _. rewrite str_app_nil_l. cbn [split_on]. by rewrite decide_True. }
  intros [Hc Hx]%andb_prop.
  apply negb_true_iff, bool_decide_eq_false in Hc. rewrite str_app_cons. cbn [split_on].
  rewrite decide_False by done. by rewrite IH.
Qed.
Lemma split_on_one sep x : no_char sep x = true → split_on sep x = [x].
Proof.
  induction x as [|c x IH]; [done|]. intros [Hc Hx]%andb_prop.
  apply negb_true_iff, bool_decide_eq_false in Hc. cbn [split_on]. rewrite decide_False by done. by rewrite IH.
Qed.
Lemma split_on_join sep xs : xs ≠ [] → Forall (λ x, no_char sep x = true) xs →
  split_on sep (join (String sep "") xs) = xs.
Proof.
  intros Hne. induction xs as [|x xs IH]; [done|]. intros [Hx Hxs]%Forall_cons.
  destruct xs as [|y ys]; [by apply split_on_one|].
  change (split_on sep (x +:+ String sep (join (String sep "") (y :: ys))) = x :: y :: ys).
  rewrite split_on_app by done. by rewrite IH.
Qed.
