(* ===== verification/Interleave.v ===== *)
(** * Request handlers that interleave

    An async handler is a process: it takes one step per awaited statement on
    the shared database, and between two of its steps any other handler may
    run.  [exec] is one such step, with the outside world's answer to it; it
    ends in the rest of the handler or in its reply.  A server stops, or a
    client goes away, by losing processes.

    [invariant] is the rule of Owicki and Gries for such systems: an invariant
    [I] of the database and the replies, an assertion [L] on every process that
    its own steps re-establish and no other process's step invalidates, and a
    relation [P] between any two processes. *)

From stdpp Require Import relations.
From S2P Require Import Prelude.

Section Interleave.
Context {DB Proc Answer Reply : Type}.
Context (exec : Answer → Proc → DB → DB * (Proc + Reply)).
(** What a client may ask for, given the replies so far, and what answers the
    world can give. *)
Context (may_request : DB → list Reply → Proc → Prop) (admissible : DB → Answer → Prop).

Record System := { db : DB; procs : list Proc; replies : list Reply }.

Inductive sys_step : System → System → Prop :=
| sys_request s p : may_request s.(db) s.(replies) p →
    sys_step s {| db := s.(db); procs := s.(procs) ++ [p]; replies := s.(replies) |}
| sys_run s l p r a d' p' : s.(procs) = l ++ p :: r → admissible s.(db) a →
    exec a p s.(db) = (d', inl p') →
    sys_step s {| db := d'; procs := l ++ p' :: r; replies := s.(replies) |}
| sys_reply s l p r a d' o : s.(procs) = l ++ p :: r → admissible s.(db) a →
    exec a p s.(db) = (d', inr o) →
    sys_step s {| db := d'; procs := l ++ r; replies := o :: s.(replies) |}
| sys_lost s l p r : s.(procs) = l ++ p :: r →
    sys_step s {| db := s.(db); procs := l ++ r; replies := s.(replies) |}.

Definition boot (d : DB) : System := {| db := d; procs := []; replies := [] |}.
Definition reachable (d : DB) (s : System) : Prop := rtc sys_step (boot d) s.

(** ** Running a schedule: which process moves, and the answer it gets *)

Fixpoint run_schedule (sched : list (nat * Answer)) (s : System) : option System :=
  match sched with
  | [] => Some s
  | (i, a) :: rest =>
      p ← s.(procs) !! i;
      match exec a p s.(db) with
      | (d', inl p') => run_schedule rest {| db := d'; procs := <[i := p']> s.(procs); replies := s.(replies) |}
      | (d', inr o) => run_schedule rest {| db := d'; procs := delete i s.(procs); replies := o :: s.(replies) |}
      end
  end.

(** The answers of a schedule are admissible where they are given. *)
Fixpoint schedule_ok (sched : list (nat * Answer)) (s : System) : Prop :=
  match sched with
  | [] => True
  | (i, a) :: rest =>
      admissible s.(db) a ∧
      match s.(procs) !! i with
      | None => True
      | Some p =>
          match exec a p s.(db) with
          | (d', inl p') => schedule_ok rest {| db := d'; procs := <[i := p']> s.(procs); replies := s.(replies) |}
          | (d', inr o) => schedule_ok rest {| db := d'; procs := delete i s.(procs); replies := o :: s.(replies) |}
          end
      end
  end.

Lemma run_schedule_steps sched s s' :
  run_schedule sched s = Some s' → schedule_ok sched s → rtc sys_step s s'.
Proof.
  revert s. induction sched as [|[i a] rest IH]; intros s; cbn; [by intros [= <-]|].
  destruct (procs s !! i) as [p|] eqn:Hp; [|done]. cbn.
  destruct (exec a p (db s)) as [d' [p'|o]] eqn:He; intros Hr [Ha Hok].
  - eapply rtc_l; [|by apply IH]. pose proof (take_drop_middle _ _ _ Hp) as E.
    rewrite insert_take_drop by (by eapply lookup_lt_Some).
    by eapply (sys_run s (take i s.(procs)) p (drop (S i) s.(procs))).
  - eapply rtc_l; [|by apply IH]. pose proof (take_drop_middle _ _ _ Hp) as E.
    rewrite delete_take_drop. by eapply (sys_reply s (take i s.(procs)) p (drop (S i) s.(procs))).
Qed.

Lemma request_steps s p : may_request s.(db) s.(replies) p →
  rtc sys_step s {| db := s.(db); procs := s.(procs) ++ [p]; replies := s.(replies) |}.
Proof. intros H. apply rtc_once. by constructor. Qed.

(** One handler alone, until its reply. *)
Fixpoint run_alone (answers : list Answer) (p : Proc) (d : DB) : DB * (Proc + Reply) :=
  match answers with
  | [] => (d, inl p)
  | a :: rest => match exec a p d with
                 | (d', inl p') => run_alone rest p' d'
                 | done_ => done_
                 end
  end.

(** ** The rule *)

Section Invariant.
Context (I : DB → list Reply → Prop) (L : Proc → DB → list Reply → Prop) (P : Proc → Proc → Prop).
Context (P_sym : ∀ p q, P p q → P q p).
Context (request_ok : ∀ d rs p, I d rs → may_request d rs p →
  L p d rs ∧ ∀ q, L q d rs → P p q).
Context (step_ok : ∀ d rs a p, I d rs → L p d rs → admissible d a →
  match exec a p d with
  | (d', inl p') => I d' rs ∧ L p' d' rs ∧ ∀ q, L q d rs → P p q → L q d' rs ∧ P p' q
  | (d', inr o) => I d' (o :: rs) ∧ ∀ q, L q d rs → P p q → L q d' (o :: rs)
  end).

Definition holds (s : System) : Prop :=
  I s.(db) s.(replies) ∧ Forall (λ p, L p s.(db) s.(replies)) s.(procs) ∧ ForallOrdPairs P s.(procs).

Lemma pairs_middle l p r :
  ForallOrdPairs P (l ++ p :: r) ↔ ForallOrdPairs P (l ++ r) ∧ Forall (P p) (l ++ r).
Proof.
  induction l as [|x l IH]; cbn.
  - split; [by inversion 1|]. intros []. by constructor.
  - split.
    + inversion 1 as [|? ? Hx Hp]; subst. apply IH in Hp as [H1 H2].
      apply Forall_app in Hx as [Hl [Hxp Hr]%Forall_cons].
      split; constructor; [by apply Forall_app|done|by apply P_sym|done].
    + intros [Hx [Hxp H2]%Forall_cons]. inversion Hx as [|? ? Hx1 Hx2]; subst.
      constructor; [|by apply IH]. apply Forall_app in Hx1 as [H3 H4]. apply Forall_app.
      split; [done|]. constructor; [by apply P_sym|done].
Qed.

(** What a step of [p] leaves of the others' assertions. *)
Lemma others_keep (Q : Proc → Prop) d rs p others :
  Forall (λ q, L q d rs) others → Forall (P p) others → (∀ q, L q d rs → P p q → Q q) → Forall Q others.
Proof. rewrite !Forall_forall. intros HL HP H q Hq. apply H; auto. Qed.

Lemma holds_step s s' : holds s → sys_step s s' → holds s'.
Proof.
  intros (HI & HL & HP) Hstep.
  destruct Hstep as [s p Hp|s l p r a d' p' Hps Ha He|s l p r a d' o Hps Ha He|s l p r Hps]; cbn in *.
  - destruct (request_ok s.(db) s.(replies) p HI Hp) as [H1 H2]. split; [done|]. split.
    + apply Forall_app. by split; [|constructor].
    + apply pairs_middle. rewrite app_nil_r. split; [done|]. eapply Forall_impl; [exact HL|]. exact H2.
  - rewrite Hps in HL, HP. apply pairs_middle in HP as [HP1 HP2].
    apply Forall_app in HL as [Hl [Hp Hr]%Forall_cons].
    assert (Ho : Forall (λ q, L q s.(db) s.(replies)) (l ++ r)) by (by apply Forall_app).
    pose proof (step_ok s.(db) s.(replies) a p HI Hp Ha) as H. rewrite He in H. destruct H as (H1 & H2 & H3).
    assert (Ho' : Forall (λ q, L q d' s.(replies) ∧ P p' q) (l ++ r)) by by eapply others_keep.
    apply Forall_and in Ho' as [Ho1 Ho2]. split; [done|]. split; [|by apply pairs_middle].
    apply Forall_app in Ho1 as [Hl' Hr']. apply Forall_app. by split; [|constructor].
  - rewrite Hps in HL, HP. apply pairs_middle in HP as [HP1 HP2].
    apply Forall_app in HL as [Hl [Hp Hr]%Forall_cons].
    pose proof (step_ok s.(db) s.(replies) a p HI Hp Ha) as H. rewrite He in H. destruct H as (H1 & H3).
    split; [done|]. split; [|done]. by eapply others_keep; [apply Forall_app|..].
  - rewrite Hps in HL, HP. apply pairs_middle in HP as [HP1 _].
    apply Forall_app in HL as [Hl [_ Hr]%Forall_cons]. split; [done|]. split; [by apply Forall_app|done].
Qed.

Lemma invariant d s : I d [] → reachable d s → holds s.
Proof.
  intros HI Hr. assert (H : holds (boot d)) by (split; [done|split; constructor]).
  clear HI. unfold reachable in Hr. induction Hr as [s|s s1 s2 Hstep _ IH]; [done|].
  apply IH. by eapply holds_step.
Qed.
End Invariant.
End Interleave.
Arguments System : clear implicits.
Arguments boot {DB Proc Reply} d.
