(* ===== verification/AppError.v ===== *)
(** * Errors of the REST handlers (crates/core/src/error.rs)

    [AppError], the status, code and message a client sees, and the conversions
    behind the [?] operator.  An [anyhow::Error] is its text. *)

From S2P Require Import Prelude.
From stdpp Require Import strings.

Inductive AppError : Type :=
| Validation (msg : string)
| Unauthorized (msg : string)
| TokenExpired
| InvalidCredentials
| Forbidden (msg : string)
| RegistrationDisabled
| NotFound (msg : string)
| Conflict (msg : string)
| BusinessRuleViolation (msg : string)
| RateLimited
| Internal (err : string).

Definition status_and_code (e : AppError) : Z * string :=
  match e with
  | Validation _ => (400, "VALIDATION_ERROR")
  | Unauthorized _ => (401, "UNAUTHORIZED")
  | TokenExpired => (401, "TOKEN_EXPIRED")
  | InvalidCredentials => (401, "INVALID_CREDENTIALS")
  | Forbidden _ => (403, "FORBIDDEN")
  | RegistrationDisabled => (403, "REGISTRATION_DISABLED")
  | NotFound _ => (404, "NOT_FOUND")
  | Conflict _ => (409, "CONFLICT")
  | BusinessRuleViolation _ => (422, "BUSINESS_RULE_VIOLATION")
  | RateLimited => (429, "RATE_LIMITED")
  | Internal _ => (500, "INTERNAL_ERROR")
  end%Z.

Definition client_message (e : AppError) : string :=
  match e with
  | Validation msg | Unauthorized msg | Forbidden msg | NotFound msg | Conflict msg
  | BusinessRuleViolation msg => msg
  | TokenExpired => "Access token has expired. Please refresh."
  | InvalidCredentials => "Invalid email or password."
  | RegistrationDisabled => "Registration is disabled on this server."
  | RateLimited => "Too many requests. Please wait and try again."
  | Internal _ => "An unexpected error occurred."
  end.

(** [into_response]: status, code and message. *)
Definition into_response (e : AppError) : Z * string * string :=
  (status_and_code e, client_message e).

(** [From<sqlx::Error>]. *)
Definition of_sqlx (msg : string) : AppError := Internal msg.

(** The kinds of a jsonwebtoken error that the conversion tells apart. *)
Inductive JwtError : Type := ExpiredSignature | OtherJwt (kind : string).
Definition of_jwt (e : JwtError) : AppError :=
  match e with
  | ExpiredSignature => TokenExpired
  | OtherJwt _ => Unauthorized "Invalid or malformed token."
  end.

(** A client cannot tell two internal errors apart, nor two bad tokens. *)
Lemma internal_opaque e1 e2 : into_response (of_sqlx e1) = into_response (of_sqlx e2).
Proof. reflexivity. Qed.
