(* ===== verification/Clock.v ===== *)
(** * Instants, timestamps and a concrete clock

    A [DateTime<Utc>] is a number of nanoseconds since the epoch.  RFC 3339
    parsing and printing belong to chrono: the components take them as
    parameters (the class [TimestampCodec]), with the law that a printed
    timestamp of the years 0 to 9999, which RFC 3339 covers, is parsed back.
    [bits_codec] is a concrete instance, used where a theorem is applied at a
    concrete input. *)

From S2P Require Import Prelude RustStr.

Definition SECOND : Z := 10 ^ 9.
Definition MINUTE : Z := 60 * SECOND.
Definition DAY : Z := 86400 * SECOND.

(** [TimeDelta::num_days]: both divisions truncate towards zero. *)
Definition num_days (d : Z) : Z := Z.quot (Z.quot d SECOND) 86400.

(** [DateTime::parse_from_rfc3339] (in UTC) and [DateTime::to_rfc3339]. *)
Class TimestampCodec := {
  parse_rfc3339 : string → option Z;
  to_rfc3339 : Z → string }.

(** The first and the last nanosecond of the years 0 to 9999. *)
Definition ts_min : Z := (- 62167219200) * SECOND.
Definition ts_max : Z := 253402300800 * SECOND - 1.

Class TimestampLaws (C : TimestampCodec) : Prop :=
  parse_to_rfc3339 : ∀ t, (ts_min ≤ t ≤ ts_max)%Z → parse_rfc3339 (to_rfc3339 t) = Some t.

Lemma num_days_div d : (0 ≤ d)%Z → num_days d = (d / DAY)%Z.
Proof.
  intros Hd. unfold num_days, DAY, SECOND. rewrite Z.quot_quot by lia.
  rewrite Z.quot_div_nonneg by lia. reflexivity.
Qed.

Lemma num_days_le d n : (0 ≤ n)%Z → (num_days d ≤ n ↔ d < (n + 1) * DAY)%Z.
Proof.
  intros Hn. destruct (decide (0 ≤ d)%Z) as [Hd|Hd].
  - rewrite num_days_div by done.
    pose proof (Z.div_mod d DAY ltac:(done)). pose proof (Z.mod_pos_bound d DAY ltac:(done)).
    unfold DAY, SECOND in *. nia.
  - assert (num_days d ≤ 0)%Z; [|unfold DAY, SECOND; lia].
    unfold num_days. rewrite Z.quot_quot by (unfold SECOND; lia).
    replace d with (- (- d))%Z by lia. rewrite Z.quot_opp_l by (unfold SECOND; lia).
    pose proof (Z.quot_pos (- d) (SECOND * 86400) ltac:(lia) ltac:(unfold SECOND; lia)). lia.
Qed.

(** ** A concrete codec: sign and binary digits, least significant first *)

Fixpoint pos_bits (p : positive) : string :=
  match p with
  | xH => "1"
  | xO q => String "0" (pos_bits q)
  | xI q => String "1" (pos_bits q)
  end.
Definition z_bits (z : Z) : string :=
  match z with
  | Z0 => "z"
  | Zpos p => String "+" (pos_bits p)
  | Zneg p => String "-" (pos_bits p)
  end.
Fixpoint bits_pos (s : string) : option positive :=
  match s with
  | EmptyString => None
  | String c r =>
      if decide (c = "0"%char) then xO <$> bits_pos r
      else if decide (c = "1"%char)
      then match r with EmptyString => Some xH | _ => xI <$> bits_pos r end
      else None
  end.
Definition bits_z (s : string) : option Z :=
  match s with
  | String c r =>
      if decide (c = "+"%char) then Zpos <$> bits_pos r
      else if decide (c = "-"%char) then Zneg <$> bits_pos r
      else if decide (s = "z") then Some 0%Z else None
  | _ => None
  end.

Lemma bits_pos_pos_bits p : bits_pos (pos_bits p) = Some p.
Proof.
  induction p as [q IH|q IH|]; cbn; [|by rewrite IH|done].
  rewrite IH. by destruct q.
Qed.

Definition bits_codec : TimestampCodec := {| parse_rfc3339 := bits_z; to_rfc3339 := z_bits |}.

Lemma bits_z_bits z : bits_z (z_bits z) = Some z.
Proof. destruct z as [|p|p]; cbn; [done| |]; by rewrite bits_pos_pos_bits. Qed.

Lemma bits_codec_laws : TimestampLaws bits_codec.
Proof. intros z _. apply bits_z_bits. Qed.
