(* ===== verification/BTree.v ===== *)
(** * [BTreeMap<String, V>]

    A map is the list of its entries in strictly increasing key order, the
    order Rust iterates in; keys are compared byte by byte.  A well-formed map
    is determined by its lookups ([btree_ext]), which makes the entry list a
    canonical form. *)

From S2P Require Import Prelude.
From Stdlib Require Import OrdersEx.
From stdpp Require Import strings sorting.

Definition key_compare (a b : string) : comparison := String_as_OT.compare a b.
Definition key_lt (a b : string) : Prop := key_compare a b = Lt.

#[global] Instance key_lt_strict : StrictOrder key_lt := String_as_OT.lt_strorder.

Lemma key_lt_irrefl a : ¬ key_lt a a.
Proof. intros H. exact (StrictOrder_Irreflexive (R := key_lt) a H). Qed.

Lemma key_compare_spec a b : CompareSpec (a = b) (key_lt a b) (key_lt b a) (key_compare a b).
Proof. apply String_as_OT.compare_spec. Qed.

Lemma key_compare_refl a : key_compare a a = Eq.
Proof. destruct (key_compare_spec a a) as [|H|H]; [done|by apply key_lt_irrefl in H..]. Qed.

(** Contradictions between strict comparisons of keys. *)
Ltac key_order :=
  exfalso; subst;
  repeat match goal with
  | H : key_lt ?a ?a |- _ => exact (key_lt_irrefl a H)
  | H1 : key_lt ?a ?b, H2 : key_lt ?b ?c |- _ =>
      lazymatch goal with
      | _ : key_lt a c |- _ => fail
      | _ => assert (key_lt a c) by (exact (transitivity H1 H2))
      end
  | H : ?a ≠ ?a |- _ => by destruct H
  end; fail.

(** Decides every comparison in the goal. *)
Ltac key_cases :=
  try done; try key_order;
  match goal with
  | |- context [key_compare ?a ?b] =>
      destruct (key_compare_spec a b); subst; cbn; try done; try key_order; key_cases
  end.

Definition btree (V : Type) : Type := list (string * V).

Section BTree.
Context {V : Type}.
Implicit Types m : btree V.

(** [BTreeMap::get]. *)
Fixpoint get (k : string) m : option V :=
  match m with
  | [] => None
  | (k', v) :: m' => if decide (k = k') then Some v else get k m'
  end.

Definition contains_key (k : string) m : bool :=
  match get k m with Some _ => true | None => false end.

(** [BTreeMap::insert]: an existing value is replaced. *)
Fixpoint insert (k : string) (v : V) m : btree V :=
  match m with
  | [] => [(k, v)]
  | (k', v') :: m' =>
      match key_compare k k' with
      | Lt => (k, v) :: m
      | Eq => (k, v) :: m'
      | Gt => (k', v') :: insert k v m'
      end
  end.

(** Insertion of a sequence of entries, in order. *)
Definition from_entries (es : list (string * V)) : btree V :=
  foldl (λ m e, insert e.1 e.2 m) [] es.

(** [*m.entry(k).or_insert_with(|| d) = f(..)]: mutation of an entry that is
    created first when absent. *)
Definition upsert (k : string) (d : V) (f : V → V) m : btree V :=
  insert k (f (default d (get k m))) m.

Definition wf m : Prop := StronglySorted key_lt m.*1.

Lemma get_insert k v m : get k (insert k v m) = Some v.
Proof.
  induction m as [|[k' v'] m IH]; cbn; [by rewrite decide_True|].
  destruct (key_compare_spec k k') as [->|H|H]; cbn; rewrite ?decide_True by done; try done.
  case_decide as E; [|done]. subst k'. by apply key_lt_irrefl in H.
Qed.

Lemma get_insert_ne k k' v m : k ≠ k' → get k' (insert k v m) = get k' m.
Proof.
  intros Hne. induction m as [|[k0 v0] m IH]; cbn; [by rewrite decide_False by congruence|].
  destruct (key_compare_spec k k0) as [->|H|H]; cbn.
  - by rewrite !decide_False by congruence.
  - by rewrite (decide_False (P := k' = k)) by congruence.
  - by case_decide.
Qed.

Lemma get_elem_of k v m : wf m → get k m = Some v ↔ (k, v) ∈ m.
Proof.
  induction m as [|[k0 v0] m IH]; cbn; intros Hwf.
  - split; [done|by intros ?%elem_of_nil].
  - apply StronglySorted_inv in Hwf as [Hwf Hall]. rewrite elem_of_cons.
    case_decide as E.
    + subst k0. split; [intros [= ->]; by left|]. intros [[= ->]|Hin]; [done|].
      rewrite Forall_forall in Hall. specialize (Hall k).
      exfalso. apply (key_lt_irrefl k), Hall. by apply (list_elem_of_fmap_2 fst _ (k, v)).
    + rewrite IH by done. split; [by right|]. intros [[= -> ->]|?]; done.
Qed.

Lemma get_not_in k m : k ∉ m.*1 → get k m = None.
Proof.
  induction m as [|[k0 v0] m IH]; cbn; [done|]. rewrite not_elem_of_cons. intros [H1 H2].
  rewrite decide_False by done. auto.
Qed.

Lemma contains_key_in k m : contains_key k m = true ↔ k ∈ m.*1.
Proof.
  unfold contains_key. induction m as [|[k0 v0] m IH]; cbn.
  - split; [done|by intros ?%elem_of_nil].
  - rewrite elem_of_cons. case_decide; [naive_solver|]. rewrite IH. naive_solver.
Qed.

Lemma insert_keys k k' v m : k' ∈ (insert k v m).*1 ↔ k' = k ∨ k' ∈ m.*1.
Proof.
  induction m as [|[k0 v0] m IH]; cbn; [by rewrite list_elem_of_singleton, elem_of_nil; tauto|].
  destruct (key_compare_spec k k0) as [->|H|H]; cbn; rewrite ?elem_of_cons, ?IH; tauto.
Qed.

Lemma wf_insert k v m : wf m → wf (insert k v m).
Proof.
  unfold wf. induction m as [|[k0 v0] m IH]; cbn; intros Hwf; [repeat constructor|].
  apply StronglySorted_inv in Hwf as [Hwf Hall].
  destruct (key_compare_spec k k0) as [->|H|H]; cbn; constructor; try done.
  - by constructor.
  - constructor; [done|]. rewrite Forall_forall in Hall |- *. intros x Hx.
    etransitivity; [done|auto].
  - by apply IH.
  - rewrite Forall_forall in Hall |- *. intros x. rewrite insert_keys. intros [->|Hx]; auto.
Qed.

Lemma wf_upsert k d f m : wf m → wf (upsert k d f m).
Proof. apply wf_insert. Qed.

Lemma wf_from_entries es : wf (from_entries es).
Proof.
  unfold from_entries. assert (H : wf []) by constructor. revert H. generalize (@nil (string * V)).
  induction es as [|e es IH]; intros m Hm; [done|]. cbn. by apply IH, wf_insert.
Qed.

Lemma wf_NoDup m : wf m → NoDup m.*1.
Proof.
  unfold wf. generalize (m.*1). induction 1 as [|k ks Hs IH Hall]; constructor; [|done].
  intros Hin. rewrite Forall_forall in Hall. by apply (key_lt_irrefl k), Hall.
Qed.

Lemma insert_insert k v v' m : insert k v (insert k v' m) = insert k v m.
Proof.
  induction m as [|[k0 v0] m IH]; cbn; [by rewrite key_compare_refl|].
  destruct (key_compare k k0) eqn:E; cbn; rewrite ?key_compare_refl, ?E; [done..|by rewrite IH].
Qed.

Lemma key_compare_flip a b : key_compare b a = CompOpp (key_compare a b).
Proof.
  destruct (key_compare_spec a b) as [->|H|H]; cbn; [apply key_compare_refl|..];
    destruct (key_compare_spec b a) as [->|H'|H']; try done;
    exfalso; first [by apply (key_lt_irrefl b)|by apply (key_lt_irrefl a)|idtac];
    apply (key_lt_irrefl a); by etransitivity.
Qed.

Lemma insert_comm k1 k2 v1 v2 m : k1 ≠ k2 →
  insert k1 v1 (insert k2 v2 m) = insert k2 v2 (insert k1 v1 m).
Proof.
  intros Hne. induction m as [|[k v] m IH]; cbn; [key_cases|].
  destruct (key_compare_spec k1 k), (key_compare_spec k2 k); subst; cbn; try key_cases.
  destruct (key_compare_spec k1 k), (key_compare_spec k2 k); try key_order. by rewrite IH.
Qed.

Lemma get_upsert k d f m : get k (upsert k d f m) = Some (f (default d (get k m))).
Proof. apply get_insert. Qed.

Lemma get_upsert_ne k k' d f m : k ≠ k' → get k' (upsert k d f m) = get k' m.
Proof. apply get_insert_ne. Qed.

Lemma upsert_comm k1 k2 d1 d2 f1 f2 m :
  (k1 = k2 → d1 = d2 ∧ ∀ v, f1 (f2 v) = f2 (f1 v)) →
  upsert k1 d1 f1 (upsert k2 d2 f2 m) = upsert k2 d2 f2 (upsert k1 d1 f1 m).
Proof.
  intros H. unfold upsert. destruct (decide (k1 = k2)) as [<-|Hne].
  - destruct (H eq_refl) as [<- Hf]. by rewrite !get_insert, !insert_insert; cbn; rewrite Hf.
  - by rewrite !get_insert_ne, insert_comm by congruence.
Qed.

(** Canonicity: equal lookups, equal entry lists. *)
Lemma btree_ext m1 m2 : wf m1 → wf m2 → (∀ k, get k m1 = get k m2) → m1 = m2.
Proof.
  revert m2. induction m1 as [|[k1 v1] m1 IH]; intros [|[k2 v2] m2] H1 H2 Heq; [done| | |].
  - specialize (Heq k2). cbn in Heq. by rewrite decide_True in Heq.
  - specialize (Heq k1). cbn in Heq. by rewrite decide_True in Heq.
  - pose proof (StronglySorted_inv H1) as [Hs1 Ha1]. pose proof (StronglySorted_inv H2) as [Hs2 Ha2].
    cbn in Ha1, Ha2. rewrite Forall_forall in Ha1, Ha2.
    assert (k1 = k2) as ->.
    { destruct (decide (k1 = k2)) as [|Hne]; [done|]. exfalso.
      assert (Hin1 : k1 ∈ m2.*1).
      { apply contains_key_in. unfold contains_key. specialize (Heq k1). cbn in Heq.
        rewrite decide_True, decide_False in Heq by done. by rewrite <- Heq. }
      assert (Hin2 : k2 ∈ m1.*1).
      { apply contains_key_in. unfold contains_key. specialize (Heq k2). cbn in Heq.
        rewrite decide_False, decide_True in Heq by done. by rewrite Heq. }
      apply (key_lt_irrefl k1). etransitivity; [apply (Ha1 _ Hin2)|apply (Ha2 _ Hin1)]. }
    pose proof (Heq k2) as E. cbn in E. rewrite !decide_True in E by done. injection E as ->.
    f_equal. apply IH; [done..|]. intros k. specialize (Heq k). cbn in Heq.
    case_decide as Hk; [|done]. subst k.
    rewrite !get_not_in; [done| |]; intros Hin.
    + by apply (key_lt_irrefl k2), Ha2.
    + by apply (key_lt_irrefl k2), Ha1.
Qed.

Lemma get_from_entries k es :
  NoDup es.*1 → ∀ v, get k (from_entries es) = Some v ↔ (k, v) ∈ es.
Proof.
  induction es as [|[k0 v0] es IH] using rev_ind; intros Hnd v.
  { cbn. split; [done|by intros ?%elem_of_nil]. }
  rewrite fmap_app in Hnd. cbn in Hnd. apply NoDup_app in Hnd as (Hnd & Hdisj & _).
  unfold from_entries in *. rewrite foldl_snoc, elem_of_app, list_elem_of_singleton. cbn.
  destruct (decide (k0 = k)) as [->|Hne].
  - rewrite get_insert. split; [intros [= ->]; by right|]. intros [Hin|[= ->]]; [|done].
    exfalso. apply (Hdisj k); [|by left]. by apply (list_elem_of_fmap_2 fst _ (k, v)).
  - rewrite get_insert_ne, IH by done. split; [by left|]. intros [?|[= -> ->]]; done.
Qed.

(** The order in which distinct keys are inserted does not matter. *)
Lemma from_entries_perm es es' :
  NoDup es.*1 → es ≡ₚ es' → from_entries es = from_entries es'.
Proof.
  intros Hnd Hp. assert (Hnd' : NoDup es'.*1) by by rewrite <- Hp.
  apply btree_ext; [apply wf_from_entries..|]. intros k.
  apply option_eq. intros v. by rewrite !get_from_entries, Hp.
Qed.
End BTree.

(** Maps with the same keys and related values. *)
Section Related.
Context {V : Type} (R : V → V → Prop).

Definition brel (m m' : btree V) : Prop := Forall2 (λ e e', e.1 = e'.1 ∧ R e.2 e'.2) m m'.

Lemma brel_refl m : (∀ v, R v v) → brel m m.
Proof. intros H. induction m; constructor; auto. Qed.

Lemma brel_trans m1 m2 m3 : Transitive R → brel m1 m2 → brel m2 m3 → brel m1 m3.
Proof.
  intros HR H. revert m3. induction H as [|e1 e2 l1 l2 [E1 H1] Hl IH]; intros m3 H'; inversion_clear H'; constructor.
  - destruct H as [E2 H2]. split; [congruence|by etransitivity].
  - by apply IH.
Qed.

Lemma brel_get k m m' d d' : brel m m' → R d d' → R (default d (get k m)) (default d' (get k m')).
Proof.
  intros H Hd. induction H as [|[k1 v1] [k2 v2] l l' [E Hv] Hl IH]; [done|]. cbn in *. subst k2.
  by case_decide.
Qed.

Lemma brel_insert k v v' m m' : brel m m' → R v v' → brel (insert k v m) (insert k v' m').
Proof.
  intros H Hv. induction H as [|[k1 v1] [k2 v2] l l' [E Hv1] Hl IH]; cbn in *; [by repeat constructor|].
  subst k2. destruct (key_compare k k1); by repeat (constructor; try done).
Qed.

Lemma brel_upsert k d f f' m m' : (∀ v, R v v) →
  brel m m' → (∀ v v', R v v' → R (f v) (f' v')) → brel (upsert k d f m) (upsert k d f' m').
Proof. intros Hr H Hf. apply brel_insert; [done|]. apply Hf. by apply brel_get. Qed.

Lemma brel_upsert_comm k1 k2 d f1 f2 m : (∀ v, R v v) →
  (k1 = k2 → ∀ v, R (f1 (f2 v)) (f2 (f1 v))) →
  brel (upsert k1 d f1 (upsert k2 d f2 m)) (upsert k2 d f2 (upsert k1 d f1 m)).
Proof.
  intros Hr H. destruct (decide (k1 = k2)) as [<-|Hne].
  - unfold upsert. rewrite !get_insert, !insert_insert. cbn.
    apply brel_insert; [by apply brel_refl|auto].
  - rewrite upsert_comm by done. by apply brel_refl.
Qed.
End Related.

#[export] Hint Resolve wf_insert wf_upsert wf_from_entries wf_NoDup : dbm.
