(* ===== verification/Json.v ===== *)
(** * [serde_json::Value]

    Objects keep their entries in insertion order (the [preserve_order]
    feature is on in this workspace).  Floats are their IEEE bits; printing a
    value is serde_json's business and stays a parameter of its users. *)

From S2P Require Import Prelude RustStr Clock.
From stdpp Require Import strings.

Inductive json : Type :=
| JNull
| JBool (b : bool)
| JInt (z : Z)
| JFloat (bits : Z)
| JStr (s : string)
| JArr (xs : list json)
| JObj (kvs : list (string * json)).

(** [Value::get] on an object. *)
Fixpoint assoc_get (k : string) (kvs : list (string * json)) : option json :=
  match kvs with
  | [] => None
  | (k', v) :: r => if decide (k = k') then Some v else assoc_get k r
  end.
Definition jget (k : string) (j : json) : option json :=
  match j with JObj kvs => assoc_get k kvs | _ => None end.

(** [Map::insert]: a present key keeps its place. *)
Fixpoint assoc_insert (k : string) (v : json) (kvs : list (string * json)) : list (string * json) :=
  match kvs with
  | [] => [(k, v)]
  | (k', v') :: r => if decide (k = k') then (k, v) :: r else (k', v') :: assoc_insert k v r
  end.

Definition as_str (j : json) : option string := match j with JStr s => Some s | _ => None end.
Definition as_array (j : json) : option (list json) := match j with JArr l => Some l | _ => None end.
Definition as_bool (j : json) : option bool := match j with JBool b => Some b | _ => None end.

(** Serialisation of an [Option] and of a list of strings. *)
Definition jopt {A} (f : A → json) (o : option A) : json :=
  match o with Some a => f a | None => JNull end.
Definition jstrs (l : list string) : json := JArr (JStr <$> l).

Lemma assoc_get_insert k v kvs : assoc_get k (assoc_insert k v kvs) = Some v.
Proof.
  induction kvs as [|[k' v'] r IH]; cbn; [by rewrite decide_True|].
  case_decide; cbn; [by rewrite decide_True|by rewrite decide_False].
Qed.

Lemma assoc_get_insert_ne k k' v kvs :
  k ≠ k' → assoc_get k' (assoc_insert k v kvs) = assoc_get k' kvs.
Proof.
  intros Hne. induction kvs as [|[k0 v0] r IH]; cbn; [by rewrite decide_False by congruence|].
  case_decide; cbn; [subst; by rewrite !decide_False by congruence|]. by case_decide.
Qed.

#[global] Instance JStr_inj : Inj (=) (=) JStr.
Proof. by intros ?? [= ->]. Qed.

(** ** Induction on values, and a printer

    Clients need of [serde_json::to_vec] only that values without floats print
    to different bytes ([PrinterLaws]).  [tlv] is a concrete instance. *)

Section JsonInd.
Context (P : json → Prop).
Context (HNull : P JNull) (HBool : ∀ b, P (JBool b)) (HInt : ∀ z, P (JInt z)).
Context (HFloat : ∀ b, P (JFloat b)) (HStr : ∀ s, P (JStr s)).
Context (HArr : ∀ xs, Forall P xs → P (JArr xs)).
Context (HObj : ∀ kvs, Forall (λ e, P e.2) kvs → P (JObj kvs)).

Fixpoint json_nested_ind (j : json) : P j :=
  match j with
  | JNull => HNull | JBool b => HBool b | JInt z => HInt z
  | JFloat b => HFloat b | JStr s => HStr s
  | JArr xs => HArr xs ((fix go xs := match xs return Forall P xs with
      | [] => Forall_nil_2 _
      | x :: xs' => Forall_cons_2 _ _ _ (json_nested_ind x) (go xs')
      end) xs)
  | JObj kvs => HObj kvs ((fix go kvs := match kvs return Forall (λ e, P e.2) kvs with
      | [] => Forall_nil_2 _
      | e :: kvs' => Forall_cons_2 _ _ _ (json_nested_ind e.2) (go kvs')
      end) kvs)
  end.
End JsonInd.

Fixpoint float_free (j : json) : bool :=
  match j with
  | JFloat _ => false
  | JArr xs => forallb float_free xs
  | JObj kvs => forallb (λ e, float_free e.2) kvs
  | _ => true
  end.

Lemma float_free_strs l : forallb float_free (JStr <$> l) = true.
Proof. induction l; [done|]. cbn. exact IHl. Qed.
Class Printer := { to_vec : json → string }.
Class PrinterLaws `{Printer} := {
  to_vec_inj j1 j2 : float_free j1 = true → float_free j2 = true →
    to_vec j1 = to_vec j2 → j1 = j2 }.

(** [serde_json::from_str] reads back what [to_string] printed. *)
Class Reader := { from_str : string → option json }.
Class RoundTrip `{Printer, Reader} : Prop := {
  from_to j : float_free j = true → from_str (to_vec j) = Some j;
  to_vec_nonempty j : to_vec j ≠ "" }.

(** Bytes of a string, each behind a [1], closed by a [0]. *)
Fixpoint tlv_str (s : string) : string :=
  match s with
  | EmptyString => "0"
  | String c r => String "1" (String c (tlv_str r))
  end.
Definition tlv_Z (z : Z) : string := tlv_str (z_bits z).
Fixpoint tlv (j : json) : string :=
  match j with
  | JNull => "n"
  | JBool true => "t"
  | JBool false => "f"
  | JInt z => String "i" (tlv_Z z)
  | JFloat z => String "d" (tlv_Z z)
  | JStr s => String "s" (tlv_str s)
  | JArr xs => String "a" ((fix go xs := match xs with
      | [] => "0" | x :: xs' => String "1" (tlv x +:+ go xs') end) xs)
  | JObj kvs => String "o" ((fix go kvs := match kvs with
      | [] => "0" | (k, v) :: kvs' => String "1" (tlv_str k +:+ tlv v +:+ go kvs') end) kvs)
  end.

Lemma tlv_str_inj s1 s2 r1 r2 : tlv_str s1 +:+ r1 = tlv_str s2 +:+ r2 → s1 = s2 ∧ r1 = r2.
Proof.
  revert s2. induction s1 as [|c s1 IH]; intros [|d s2]; cbn; intros H; simplify_eq/=; [done|].
  by destruct (IH s2 ltac:(done)) as [-> ->].
Qed.

Lemma tlv_Z_inj z1 z2 r1 r2 : tlv_Z z1 +:+ r1 = tlv_Z z2 +:+ r2 → z1 = z2 ∧ r1 = r2.
Proof. intros [H ->]%tlv_str_inj. apply (f_equal bits_z) in H.
  rewrite !bits_z_bits in H. by simplify_eq.
Qed.

Lemma tlv_prefix j1 : ∀ j2 r1 r2, tlv j1 +:+ r1 = tlv j2 +:+ r2 → j1 = j2 ∧ r1 = r2.
Proof.
  induction j1 as [|[]|z|z|s|xs IH|kvs IH] using json_nested_ind;
    intros [|[]|z'|z'|s'|ys|kvs'] r1 r2; cbn; intros H; simplify_eq/=; try done.
  - by apply tlv_Z_inj in H as [-> ->].
  - by apply tlv_Z_inj in H as [-> ->].
  - by apply tlv_str_inj in H as [-> ->].
  - revert ys H. induction IH as [|x xs Hx _ IHxs]; intros [|y ys] H; simplify_eq/=; [done|].
    rewrite <- !str_app_assoc in H. apply Hx in H as [-> H].
    by destruct (IHxs _ H) as [? ->]; simplify_eq.
  - revert kvs' H. induction IH as [|[k x] xs Hx _ IHxs]; intros [|[k' y] ys] H; simplify_eq/=; [done|].
    rewrite <- !str_app_assoc in H. apply tlv_str_inj in H as [-> H]. apply Hx in H as [-> H].
    by destruct (IHxs _ H) as [? ->]; simplify_eq.
Qed.

Definition tlv_printer : Printer := {| to_vec := tlv |}.
Definition tlv_printer_laws : @PrinterLaws tlv_printer.
Proof.
  constructor. intros j1 j2 _ _ H. cbn in H.
  apply (tlv_prefix j1 j2 "" ""). by rewrite H.
Defined.

(** A reader for [tlv], on a fuel that the length of the text covers. *)
Fixpoint untlv_str (s : string) : option (string * string) :=
  match s with
  | String t (String c r) =>
      if decide (t = "1"%char) then
        match untlv_str r with Some (x, r') => Some (String c x, r') | None => None end
      else Some ("", String c r)
  | String _ EmptyString => Some ("", "")
  | EmptyString => None
  end.
Definition untlv_Z (s : string) : option (Z * string) :=
  match untlv_str s with
  | Some (x, r) => match bits_z x with Some z => Some (z, r) | None => None end
  | None => None
  end.
Fixpoint untlv (n : nat) (s : string) : option (json * string) :=
  match n, s with
  | S n, String t r =>
      if decide (t = "n"%char) then Some (JNull, r)
      else if decide (t = "t"%char) then Some (JBool true, r)
      else if decide (t = "f"%char) then Some (JBool false, r)
      else if decide (t = "i"%char) then prod_map JInt id <$> untlv_Z r
      else if decide (t = "d"%char) then prod_map JFloat id <$> untlv_Z r
      else if decide (t = "s"%char) then prod_map JStr id <$> untlv_str r
      else if decide (t = "a"%char) then prod_map JArr id <$> untlv_arr n r
      else prod_map JObj id <$> untlv_obj n r
  | _, _ => None
  end
with untlv_arr (n : nat) (s : string) : option (list json * string) :=
  match n, s with
  | S n, String t r =>
      if decide (t = "0"%char) then Some ([], r)
      else '(x, r1) ← untlv n r; '(xs, r2) ← untlv_arr n r1; Some (x :: xs, r2)
  | _, _ => None
  end
with untlv_obj (n : nat) (s : string) : option (list (string * json) * string) :=
  match n, s with
  | S n, String t r =>
      if decide (t = "0"%char) then Some ([], r)
      else '(k, r0) ← untlv_str r; '(x, r1) ← untlv n r0;
           '(xs, r2) ← untlv_obj n r1; Some ((k, x) :: xs, r2)
  | _, _ => None
  end.

Definition tlv_reader : Reader :=
  {| from_str s := match untlv (S (String.length s)) s with
                   | Some (j, EmptyString) => Some j | _ => None end |}.

Lemma untlv_str_tlv s r : untlv_str (tlv_str s +:+ r) = Some (s, r).
Proof.
  induction s as [|c s IH]; [by destruct r|]. cbn. rewrite !str_app_cons. cbn. by rewrite IH.
Qed.

Lemma untlv_Z_tlv z r : untlv_Z (tlv_Z z +:+ r) = Some (z, r).
Proof.
  unfold untlv_Z, tlv_Z. rewrite untlv_str_tlv.
  cbn. by rewrite bits_z_bits.
Qed.

Lemma untlv_tlv j : ∀ n r, String.length (tlv j) < n → untlv n (tlv j +:+ r) = Some (j, r).
Proof.
  induction j as [|[]|z|z|s|xs IH|kvs IH] using json_nested_ind; intros [|n] r Hn; try lia; try done.
  - cbn. rewrite str_app_cons. cbn. by rewrite untlv_Z_tlv.
  - cbn. rewrite str_app_cons. cbn. by rewrite untlv_Z_tlv.
  - cbn. rewrite str_app_cons. cbn. by rewrite untlv_str_tlv.
  - cbn in *. rewrite str_app_cons. cbn. apply PeanoNat.lt_S_n in Hn.
    match goal with |- context [untlv_arr n ?s] => enough (untlv_arr n s = Some (xs, r)) as -> by done end.
    revert n Hn. induction IH as [|x xs Hx _ IHxs]; intros [|n] Hn; cbn in *; try lia; [done|].
    rewrite str_app_cons. cbn. rewrite str_length_app in Hn. rewrite <- str_app_assoc, Hx by lia. cbn.
    rewrite IHxs by lia. done.
  - cbn in *. rewrite str_app_cons. cbn. apply PeanoNat.lt_S_n in Hn.
    match goal with |- context [untlv_obj n ?s] => enough (untlv_obj n s = Some (kvs, r)) as -> by done end.
    revert n Hn. induction IH as [|[k x] xs Hx _ IHxs]; intros [|n] Hn; cbn in *; try lia; [done|].
    rewrite str_app_cons. cbn. rewrite !str_length_app in Hn. rewrite <- !str_app_assoc, untlv_str_tlv. cbn.
    rewrite Hx by lia. cbn. rewrite IHxs by lia. done.
Qed.

Definition tlv_round_trip : @RoundTrip tlv_printer tlv_reader.
Proof.
  constructor.
  - intros j _. cbn [from_str tlv_reader to_vec tlv_printer].
    pose proof (untlv_tlv j (S (String.length (tlv j))) "" ltac:(lia)) as H.
    rewrite str_app_nil_r in H. by rewrite H.
  - intros [|[]|z|z|s|xs|kvs]; done.
Defined.
