(* ===== verification/RateLimiter.v ===== *)
(** * The sliding-window rate limiter (crates/core/src/auth/rate_limiter.rs)

    [SlidingWindowLimiter] is a map from keys to the instants of the requests
    it let through; [check_and_record] prunes, decides and records.  Instants
    are nanoseconds in [Z]; [Duration::as_secs] is the floor division by 10^9,
    and [Instant::duration_since] saturates at zero.  The mutex makes every
    call atomic, so a run is a list of calls in lock order. *)

From S2P Require Import Prelude RustStr.

(** ** Model *)

Definition MAX_REQUESTS : nat := 5.
Definition WINDOW_SECS : Z := 60.

(** [SlidingWindowLimiter.counters]. *)
Record SlidingWindowLimiter := { counters : gmap string (list Z) }.

Definition new : SlidingWindowLimiter := {| counters := ∅ |}.

(** [now.duration_since(t).as_secs()]. *)
Definition age_secs (now t : Z) : Z := Z.max 0 (now - t) / 10 ^ 9.

(** The predicate of the [retain] call. *)
Definition fresh (window_secs now t : Z) : bool := (age_secs now t <? window_secs)%Z.

Definition check_and_record (now : Z) (key : string) (max : nat) (window_secs : Z)
    (st : SlidingWindowLimiter) : bool * SlidingWindowLimiter :=
  let entries := default [] (st.(counters) !! key) in
  let entries := List.filter (fresh window_secs now) entries in
  if bool_decide (max ≤ length entries)
  then (false, {| counters := <[key := entries]> st.(counters) |})
  else (true, {| counters := <[key := entries ++ [now]]> st.(counters) |}).

(** The per-IP layer: the decision of [RateLimiter::call]; [true] forwards the
    request to the inner service, [false] answers [AppError::RateLimited]. *)
Definition call (now : Z) (client_ip : string) (st : SlidingWindowLimiter)
    : bool * SlidingWindowLimiter :=
  check_and_record now client_ip MAX_REQUESTS WINDOW_SECS st.

(** [extract_client_ip], on the [X-Forwarded-For] header as text ([None] when
    absent or not visible ASCII). *)
Definition extract_client_ip (fwd : option string) : string :=
  match fwd with
  | Some v => let first := trim (split_first ","%char v) in
              if is_empty first then "unknown" else first
  | None => "unknown"
  end.

(** A run under fixed limits: the calls' instants and keys, in lock order. *)
Fixpoint run (max : nat) (window : Z) (st : SlidingWindowLimiter) (calls : list (Z * string))
    : list bool * SlidingWindowLimiter :=
  match calls with
  | [] => ([], st)
  | (now, key) :: cs =>
      let '(ok, st1) := check_and_record now key max window st in
      let '(oks, st2) := run max window st1 cs in
      (ok :: oks, st2)
  end.

(** ** Specification

    The limiter's contract, with no pruning: a log of every request let
    through, and a request is let through when fewer than [max] requests of
    its key are still inside the window. *)

Definition log := list (Z * string).

Definition in_window (window now : Z) (key : string) (l : log) : nat :=
  length (List.filter (λ e, bool_decide (e.2 = key) && fresh window now e.1) l).

Fixpoint spec_run (max : nat) (window : Z) (l : log) (calls : list (Z * string))
    : list bool * log :=
  match calls with
  | [] => ([], l)
  | (now, key) :: cs =>
      let ok := bool_decide (in_window window now key l < max) in
      let l1 := if ok then l ++ [(now, key)] else l in
      let '(oks, l2) := spec_run max window l1 cs in
      (ok :: oks, l2)
  end.

(** Calls arrive in the order of their instants ([Instant] is monotonic). *)
Fixpoint ordered (last : Z) (calls : list (Z * string)) : Prop :=
  match calls with
  | [] => True
  | (now, _) :: cs => (last ≤ now)%Z ∧ ordered now cs
  end.

(** ** Proofs *)

Definition log_times (key : string) (l : log) : list Z :=
  fst <$> List.filter (λ e, bool_decide (e.2 = key)) l.

Lemma filter_filter_weaken {A} (p q : A → bool) (l : list A) :
  (∀ x, p x = true → q x = true) →
  List.filter p (List.filter q l) = List.filter p l.
Proof.
  intros Hpq. induction l as [|x l IH]; cbn; [done|].
  destruct (q x) eqn:Hq; cbn; [by rewrite IH|].
  destruct (p x) eqn:Hp; [by rewrite (Hpq x Hp) in Hq | exact IH].
Qed.

Lemma fresh_antitone window now now' t :
  (now ≤ now')%Z → fresh window now' t = true → fresh window now t = true.
Proof.
  unfold fresh, age_secs. rewrite !Z.ltb_lt. intros Hle Hlt.
  eapply Z.le_lt_trans; [|exact Hlt]. apply Z.div_le_mono; lia.
Qed.

Lemma in_window_times window now key l :
  in_window window now key l = length (List.filter (fresh window now) (log_times key l)).
Proof.
  unfold in_window, log_times. induction l as [|[t k] l IH]; cbn; [done|].
  destruct (bool_decide (k = key)); cbn; [|exact IH].
  destruct (fresh window now t); cbn; by rewrite IH.
Qed.

Lemma log_times_snoc key l t k :
  log_times key (l ++ [(t, k)]) =
  log_times key l ++ (if bool_decide (k = key) then [t] else []).
Proof.
  unfold log_times. rewrite List.filter_app, fmap_app. f_equal. cbn.
  by destruct (bool_decide (k = key)).
Qed.

(** The simulation: after the instant [last], the pruned entries of every key
    and the log agree on what is inside the window, and no key has more than
    [max] entries. *)
Definition simulates (max : nat) (window last : Z) (st : SlidingWindowLimiter) (l : log) : Prop :=
  ∀ key, let entries := default [] (st.(counters) !! key) in
    length entries ≤ max ∧
    ∀ now, (last ≤ now)%Z →
      List.filter (fresh window now) entries = List.filter (fresh window now) (log_times key l).

Lemma simulates_new max window last : simulates max window last new [].
Proof. intros key. cbn. rewrite lookup_empty. cbn. split; [lia|done]. Qed.

Lemma simulates_in_window max window last st l now key :
  simulates max window last st l → (last ≤ now)%Z →
  in_window window now key l =
  length (List.filter (fresh window now) (default [] (st.(counters) !! key))).
Proof. intros H Hle. rewrite in_window_times. by rewrite (proj2 (H key) now Hle). Qed.

Lemma simulates_step max window last st l now key :
  simulates max window last st l → (last ≤ now)%Z →
  let ok := bool_decide (in_window window now key l < max) in
  (check_and_record now key max window st).1 = ok ∧
  simulates max window now (check_and_record now key max window st).2
    (if ok then l ++ [(now, key)] else l).
Proof.
  intros Hsim Hle. cbn zeta. rewrite (simulates_in_window _ _ _ _ _ _ _ Hsim Hle).
  unfold check_and_record.
  set (es := List.filter _ (default [] _)).
  destruct (decide (max ≤ length es)) as [Hmax|Hmax].
  - rewrite !bool_decide_true by done. rewrite bool_decide_false by lia. cbn.
    split; [done|]. intros k. destruct (Hsim k) as [Hlen Hagree]. cbn.
    destruct (decide (key = k)) as [<-|Hne].
    + rewrite lookup_insert_eq. cbn. split.
      * etransitivity; [apply List.filter_length_le|exact Hlen].
      * intros now' Hnow'. unfold es. rewrite filter_filter_weaken.
        -- apply Hagree. lia.
        -- intros x. apply fresh_antitone. lia.
    + rewrite lookup_insert_ne by done. split; [done|]. intros. apply Hagree. lia.
  - rewrite (bool_decide_false (max ≤ _)) by done. rewrite bool_decide_true by lia. cbn.
    split; [done|]. intros k. destruct (Hsim k) as [Hlen Hagree]. cbn.
    rewrite log_times_snoc.
    destruct (decide (key = k)) as [<-|Hne].
    + rewrite lookup_insert_eq, bool_decide_true by done. cbn. split.
      * rewrite length_app. cbn. lia.
      * intros now' Hnow'. rewrite !List.filter_app. f_equal. unfold es.
        rewrite filter_filter_weaken; [apply Hagree; lia|].
        intros x. apply fresh_antitone. lia.
    + rewrite lookup_insert_ne, bool_decide_false by done. rewrite app_nil_r.
      split; [done|]. intros. apply Hagree. lia.
Qed.

Lemma run_simulates max window last st l calls :
  simulates max window last st l → ordered last calls →
  (run max window st calls).1 = (spec_run max window l calls).1 ∧
  ∃ last', (last ≤ last')%Z ∧ (∀ e, e ∈ calls → (e.1 ≤ last')%Z) ∧
    (∀ t, (last ≤ t)%Z → (∀ e, e ∈ calls → (e.1 ≤ t)%Z) → (last' ≤ t)%Z) ∧
    simulates max window last' (run max window st calls).2 (spec_run max window l calls).2.
Proof.
  revert last st l. induction calls as [|[now key] cs IH]; intros last st l Hsim Hord; cbn.
  - split; [done|]. exists last. split_and!; [lia|set_solver|intros; lia|apply Hsim].
  - destruct Hord as [Hle Hord].
    destruct (simulates_step max window last st l now key Hsim Hle) as [Hok Hsim1].
    destruct (check_and_record now key max window st) as [ok st1]; cbn in *. subst ok.
    destruct (IH now st1 _ Hsim1 Hord) as [Heq (last' & Hl & Hin & Hmin & Hsim')].
    destruct (run max window st1 cs) as [oks st2].
    destruct (spec_run max window _ cs) as [oks' l2]; cbn in *.
    split; [by rewrite Heq|]. exists last'. split_and!; [lia| | |exact Hsim'].
    + intros e [->|He]%elem_of_cons; [done|by apply Hin].
    + intros t Ht Hts. apply Hmin.
      * apply (Hts (now, key)). left.
      * intros e He. apply Hts. by right.
Qed.

(** C17. The limiter decides every call exactly as its contract says: for any
    limit, window and sequence of calls in time order, the answers of the
    pruning implementation started empty are those of the specification that
    keeps every accepted request and counts the ones still in the window. *)
Theorem run_refines_spec max window start calls :
  ordered start calls →
  (run max window new calls).1 = (spec_run max window [] calls).1.
Proof.
  intros H. by apply (run_simulates max window start new [] calls (simulates_new _ _ _)).
Qed.

Example run_refines_spec_witness :
  ordered 0 [(0, "a"); (1, "a"); (60 * 10 ^ 9, "a")]%Z ∧
  (run 1 60 new [(0, "a"); (1, "a"); (60 * 10 ^ 9, "a")]%Z).1 = [true; false; true].
Proof.
  split; [cbn; lia|].
  rewrite (run_refines_spec 1 60 0); [vm_compute; reflexivity | cbn; lia].
Defined.

(** No key ever gets more than [max] requests through within one window:
    at any instant not before the last call, the requests of the key let
    through during the last [window] seconds number at most [max]. *)
Lemma accepted_in_window_bounded max window start calls key now :
  ordered start calls → (start ≤ now)%Z → (∀ e, e ∈ calls → (e.1 ≤ now)%Z) →
  in_window window now key
    ((λ p, p.1) <$> List.filter (λ p, p.2) (zip calls (run max window new calls).1)) ≤ max.
Proof.
  intros Hord Hstart Hnow.
  destruct (run_simulates max window start new [] calls (simulates_new _ _ _) Hord)
    as [Heq (last & Hl & Hin & Hmin & Hsim)].
  assert (Hlog : ∀ l, (spec_run max window l calls).2 =
      l ++ ((λ p, p.1) <$> List.filter (λ p, p.2) (zip calls (spec_run max window l calls).1))).
  { clear. induction calls as [|[t k] cs IH]; intros l; cbn; [by rewrite app_nil_r|].
    specialize (IH (if bool_decide (in_window window t k l < max) then l ++ [(t, k)] else l)).
    destruct (spec_run _ _ _ cs) as [oks l2] eqn:E; cbn in *.
    destruct (bool_decide _); cbn; rewrite IH; [by rewrite <- app_assoc|done]. }
  specialize (Hlog []). cbn in Hlog. rewrite Heq, <- Hlog.
  rewrite (simulates_in_window _ _ _ _ _ _ _ Hsim (Hmin _ Hstart Hnow)).
  etransitivity; [apply List.filter_length_le|]. apply (Hsim key).
Qed.

Example accepted_in_window_bounded_witness :
  in_window 60 (59 * 10 ^ 9) "a" [(0, "a"); (10 ^ 9, "a")]%Z ≤ 2 ∧
  (run 2 60 new [(0, "a"); (10 ^ 9, "a"); (2 * 10 ^ 9, "a")]%Z).1 = [true; true; false].
Proof.
  split; [|vm_compute; reflexivity].
  apply (accepted_in_window_bounded 2 60 0 [(0, "a"); (10 ^ 9, "a"); (2 * 10 ^ 9, "a")]%Z);
    [cbn; lia | lia |].
  intros e He. repeat (apply elem_of_cons in He as [->|He]; [cbn; lia|]).
  by apply elem_of_nil in He.
Defined.

(** A call for one key leaves the entries of every other key alone. *)
Lemma check_and_record_other now key key' max window st :
  key ≠ key' →
  (check_and_record now key max window st).2.(counters) !! key' = st.(counters) !! key'.
Proof. intros. unfold check_and_record. split_cases; by rewrite lookup_insert_ne. Qed.
