(* ===== verification/License.v ===== *)
(** * License format and verification (crates/license/src/lib.rs)

    [parse_license] reads the PEM-like block, [verify_license_with_pk] checks
    the fields and the Ed25519 signature over [canonical_bytes].  Hex decoding,
    the signature type and the verification are third-party code: parameters
    of the [Verify] section. *)

From S2P Require Import Prelude RustStr.

Definition PRODUCT_SERVER : string := "server".
Definition LICENSE_VERSION : Z := 2.

Record ParsedLicense := {
  p_email : string; p_expires_at : option string; p_instance_id : string;
  p_issued_at : string; p_product : string; p_license_type : string;
  p_version : Z; p_signature_hex : string }.

Record LicenseV2 := {
  email : string; expires_at : option string; instance_id : string;
  issued_at : string; license_type : string }.

Inductive ParseError :=
| MissingBlock | MissingField (n : string) | EmptyField (n : string)
| InvalidVersion (v : string) | InvalidExpiresAt (v : string)
| DuplicateField (n : string) | MissingSignature | UnknownField (k : string).

Inductive VerifyError :=
| WrongProduct (p : string) | WrongVersion (v : Z) | InvalidType (t : string)
| InvalidPublicKey | InvalidSignatureEncoding | SignatureMismatch.

#[global] Instance ParsedLicense_eq_dec : EqDecision ParsedLicense.
Proof. solve_decision. Defined.
#[global] Instance LicenseV2_eq_dec : EqDecision LicenseV2.
Proof. solve_decision. Defined.
#[global] Instance ParseError_eq_dec : EqDecision ParseError.
Proof. solve_decision. Defined.

(** One [key:value] line. *)
Definition kv (key value : string) : string := key +:+ String ":" value.

(** [LicenseV2::canonical_bytes]. *)
Definition canonical_bytes (l : LicenseV2) : string :=
  kv "email" l.(email) +:+ String LF
  (kv "expires_at" (default "" l.(expires_at)) +:+ String LF
  (kv "instance_id" l.(instance_id) +:+ String LF
  (kv "issued_at" l.(issued_at) +:+ String LF
  (kv "product" PRODUCT_SERVER +:+ String LF
  (kv "type" l.(license_type) +:+ String LF
  (kv "v" "2")))))).

Definition BEGIN_MARKER : string := "-----BEGIN DBMASTER SERVER LICENSE-----".
Definition END_MARKER : string := "-----END DBMASTER SERVER LICENSE-----".

(** The eight [Option<String>] accumulators of the parsing loop. *)
Record fields := {
  f_email : option string; f_expires_at : option string; f_instance_id : option string;
  f_issued_at : option string; f_product : option string; f_license_type : option string;
  f_version : option string; f_signature : option string }.

Definition no_fields : fields := Build_fields None None None None None None None None.

(** The [match key] of the loop body. *)
Definition set_field (fs : fields) (key value : string) : result ParseError fields :=
  let '(Build_fields e x i s p t v g) := fs in
  let put (old : option string) (name : string) (k : option string → fields)
      : result ParseError fields :=
    match old with Some _ => Err (DuplicateField name) | None => Ok (k (Some value)) end in
  if String.eqb key "email" then put e key (λ o, Build_fields o x i s p t v g)
  else if String.eqb key "expires_at" then put x key (λ o, Build_fields e o i s p t v g)
  else if String.eqb key "instance_id" then put i key (λ o, Build_fields e x o s p t v g)
  else if String.eqb key "issued_at" then put s key (λ o, Build_fields e x i o p t v g)
  else if String.eqb key "product" then put p key (λ o, Build_fields e x i s o t v g)
  else if String.eqb key "type" then put t key (λ o, Build_fields e x i s p o v g)
  else if String.eqb key "v" then put v key (λ o, Build_fields e x i s p t o g)
  else if String.eqb key "signature" then put g key (λ o, Build_fields e x i s p t v o)
  else Err (UnknownField key).

Definition parse_line (fs : fields) (raw_line : string) : result ParseError fields :=
  let trimmed := trim raw_line in
  if is_empty trimmed then Ok fs else
  match split_once ":" trimmed with
  | None => Err MissingSignature
  | Some (key, value) => set_field fs (trim key) (trim value)
  end.

Fixpoint parse_lines (fs : fields) (ls : list string) : result ParseError fields :=
  match ls with
  | [] => Ok fs
  | l :: ls' => fs' ← parse_line fs l; parse_lines fs' ls'
  end.

(** [str::parse::<u8>]: an optional [+], then decimal digits, at most 255. *)
Fixpoint digits_value (acc : Z) (s : string) : option Z :=
  match s with
  | EmptyString => Some acc
  | String c r => if is_ascii_digit c
                  then digits_value (acc * 10 + (Z.of_N (code c) - 48)) r else None
  end.
Definition parse_u8 (s : string) : option Z :=
  let ds := match s with String c r => if decide (c = "+"%char) then r else s | _ => s end in
  if is_empty ds then None
  else v ← digits_value 0 ds; if decide (v ≤ 255)%Z then Some v else None.

Definition nonempty (s name : string) : result ParseError unit :=
  if is_empty s then Err (EmptyField name) else Ok tt.

(** The checks that follow the loop. *)
Definition finish (fs : fields) : result ParseError ParsedLicense :=
  email ← ok_or fs.(f_email) (MissingField "email");
  instance_id ← ok_or fs.(f_instance_id) (MissingField "instance_id");
  issued_at ← ok_or fs.(f_issued_at) (MissingField "issued_at");
  product ← ok_or fs.(f_product) (MissingField "product");
  license_type ← ok_or fs.(f_license_type) (MissingField "type");
  signature_hex ← ok_or fs.(f_signature) MissingSignature;
  version_str ← ok_or fs.(f_version) (MissingField "v");
  _ ← nonempty email "email";
  _ ← nonempty instance_id "instance_id";
  _ ← nonempty issued_at "issued_at";
  version ← ok_or (parse_u8 version_str) (InvalidVersion version_str);
  expires_at ← match fs.(f_expires_at) with
               | None => Ok None
               | Some s => if is_empty s then Ok None
                           else if contains "T" s then Ok (Some s)
                           else Err (InvalidExpiresAt s)
               end;
  let has_expiry := match expires_at with Some _ => true | None => false end in
  if (bool_decide (license_type = "lifetime") && negb has_expiry)
     || (bool_decide (license_type = "yearly") && has_expiry)
  then Ok {| p_email := email; p_expires_at := expires_at; p_instance_id := instance_id;
             p_issued_at := issued_at; p_product := product; p_license_type := license_type;
             p_version := version; p_signature_hex := signature_hex |}
  else Err (MissingField "type_expires_at_mismatch").

(** [parse_license].  The outer [None] is a panic: the slice
    [&text[begin + BEGIN_MARKER.len()..end]] when its start passes its end. *)
Definition parse_license (text : string) : option (result ParseError ParsedLicense) :=
  match find BEGIN_MARKER text, find END_MARKER text with
  | Some b, Some e =>
      if decide (e ≤ b) then Some (Err MissingBlock)
      else body ← slice (b + String.length BEGIN_MARKER) e text;
           Some (fs ← parse_lines no_fields (lines body); finish fs)
  | _, _ => Some (Err MissingBlock)
  end.

(** The license the signature is checked for. *)
Definition payload (p : ParsedLicense) : LicenseV2 :=
  {| email := p.(p_email); expires_at := p.(p_expires_at); instance_id := p.(p_instance_id);
     issued_at := p.(p_issued_at); license_type := p.(p_license_type) |}.

Section Verify.
(** [hex::decode], [ed25519_dalek::Signature::from_slice] and
    [VerifyingKey::verify]. *)
Context {Signature VerifyingKey : Type}.
Context (hex_decode : string → option string).
Context (signature_from_slice : string → option Signature).
Context (verify : VerifyingKey → string → Signature → bool).

Definition verify_license_with_pk (parsed : ParsedLicense) (public_key : VerifyingKey)
    : result VerifyError LicenseV2 :=
  if negb (bool_decide (parsed.(p_product) = PRODUCT_SERVER))
  then Err (WrongProduct parsed.(p_product))
  else if negb (bool_decide (parsed.(p_version) = LICENSE_VERSION))
  then Err (WrongVersion parsed.(p_version))
  else if negb (bool_decide (parsed.(p_license_type) = "yearly")
                || bool_decide (parsed.(p_license_type) = "lifetime"))
  then Err (InvalidType parsed.(p_license_type))
  else
    sig_bytes ← ok_or (hex_decode parsed.(p_signature_hex)) InvalidSignatureEncoding;
    signature ← ok_or (signature_from_slice sig_bytes) InvalidSignatureEncoding;
    let license := payload parsed in
    if verify public_key (canonical_bytes license) signature
    then Ok license else Err SignatureMismatch.
End Verify.

(** The text of a license block in canonical form, signature line included. *)
Definition license_text (l : LicenseV2) (signature_hex : string) : string :=
  BEGIN_MARKER +:+ String LF
  (canonical_bytes l +:+ String LF
  (kv "signature" signature_hex +:+ String LF END_MARKER)).

(** ** Examples *)

Definition sample : LicenseV2 :=
  {| email := "a@b.c"; expires_at := Some "2027-01-01T00:00:00Z"; instance_id := "abcd";
     issued_at := "2026-01-01T00:00:00Z"; license_type := "yearly" |}.

Example parse_sample :
  parse_license (license_text sample "00ff") =
  Some (Ok {| p_email := "a@b.c"; p_expires_at := Some "2027-01-01T00:00:00Z";
              p_instance_id := "abcd"; p_issued_at := "2026-01-01T00:00:00Z";
              p_product := "server"; p_license_type := "yearly"; p_version := 2;
              p_signature_hex := "00ff" |}).
Proof. vm_compute. reflexivity. Qed.

Example parse_u8_256 : parse_u8 "256" = None ∧ parse_u8 "+2" = Some 2%Z.
Proof. vm_compute. done. Qed.

(** ** Parsing: shared lemmas *)

Definition fields_all (P : string → Prop) (fs : fields) : Prop :=
  let ok o := from_option P True o in
  ok fs.(f_email) ∧ ok fs.(f_expires_at) ∧ ok fs.(f_instance_id) ∧ ok fs.(f_issued_at) ∧
  ok fs.(f_product) ∧ ok fs.(f_license_type) ∧ ok fs.(f_version) ∧ ok fs.(f_signature).

Lemma set_field_all P fs key value fs' :
  set_field fs key value = Ok fs' → fields_all P fs → P value → fields_all P fs'.
Proof.
  destruct fs. unfold set_field, fields_all. cbn. intros H (?&?&?&?&?&?&?&?) Hv.
  repeat (case_decide || case_match); simplify_eq/=; split_and!; done.
Qed.

Lemma parse_line_all p fs l fs' :
  parse_line fs l = Ok fs' → fields_all (λ s, all_chars p s = true) fs →
  all_chars p l = true → fields_all (λ s, all_chars p s = true) fs'.
Proof.
  unfold parse_line. intros H Hfs Hl. destruct (is_empty (trim l)); [by simplify_eq|].
  destruct (split_once ":" (trim l)) as [[key value]|] eqn:E; [|done].
  eapply set_field_all; [done..|].
  apply trim_all. by apply (split_once_all p ":" (trim l) key value); auto with dbm.
Qed.

Lemma parse_lines_all p ls fs fs' :
  parse_lines fs ls = Ok fs' → fields_all (λ s, all_chars p s = true) fs →
  (∀ l, l ∈ ls → all_chars p l = true) → fields_all (λ s, all_chars p s = true) fs'.
Proof.
  revert fs. induction ls as [|l ls IH]; intros fs; cbn.
  - intros [= ->]. done.
  - intros H Hfs Hls. inv_binds. eapply IH; [done| |].
    + eapply parse_line_all; [done..|]. apply Hls. left.
    + intros l' Hl'. apply Hls. by right.
Qed.

(** What a successful parse guarantees of the payload: no field contains a
    line feed, and a present expiry is not empty. *)
Definition wf_payload (l : LicenseV2) : Prop :=
  no_char LF l.(email) = true ∧ no_char LF (default "" l.(expires_at)) = true ∧
  no_char LF l.(instance_id) = true ∧ no_char LF l.(issued_at) = true ∧
  no_char LF l.(license_type) = true ∧ l.(expires_at) ≠ Some "".

Lemma ok_or_inv {E A} (o : option A) (e : E) a : ok_or o e = Ok a → o = Some a.
Proof. destruct o; cbn; congruence. Qed.

Lemma finish_wf fs p :
  finish fs = Ok p → fields_all (λ s, no_char LF s = true) fs → wf_payload (payload p).
Proof.
  unfold finish. intros H Hfs. inv_binds.
  repeat match goal with H : ok_or _ _ = Ok _ |- _ => apply ok_or_inv in H end.
  destruct fs; unfold fields_all in Hfs; cbn in *. simplify_eq/=.
  destruct Hfs as (?&?&?&?&?&?&?&?).
  destruct f_expires_at0 as [s|]; simplify_eq/=.
  - destruct (is_empty s) eqn:Es; [simplify_eq/=|destruct (contains "T" s); simplify_eq/=];
      case_match; simplify_eq/=; unfold wf_payload; cbn; split_and!; try done.
    intros [= ->]. done.
  - case_match; simplify_eq/=. unfold wf_payload; cbn. by split_and!.
Qed.

Lemma parse_license_wf text p :
  parse_license text = Some (Ok p) → wf_payload (payload p).
Proof.
  unfold parse_license. intros H. repeat (case_match || case_decide); simplify_eq/=.
  destruct (slice _ _ text) as [body|] eqn:Eb; simplify_eq/=. inv_binds.
  eapply finish_wf; [done|]. eapply parse_lines_all; [done| |].
  - unfold fields_all. cbn. by split_and!.
  - intros l Hl. by apply (lines_no_LF body).
Qed.

Lemma kv_inj key v1 v2 r1 r2 :
  no_char LF key = true → no_char LF v1 = true → no_char LF v2 = true →
  kv key v1 +:+ String LF r1 = kv key v2 +:+ String LF r2 → v1 = v2 ∧ r1 = r2.
Proof.
  intros Hk H1 H2 Heq. apply sep_inj in Heq as [Hkv ->].
  - split; [|done]. apply str_app_inv_head in Hkv. by simplify_eq.
  - unfold kv, no_char in *. rewrite all_chars_app, Hk. exact H1.
  - unfold kv, no_char in *. rewrite all_chars_app, Hk. exact H2.
Qed.

Lemma canonical_bytes_inj l1 l2 :
  wf_payload l1 → wf_payload l2 → canonical_bytes l1 = canonical_bytes l2 → l1 = l2.
Proof.
  destruct l1 as [e1 x1 i1 s1 t1], l2 as [e2 x2 i2 s2 t2].
  intros (?&?&?&?&?&Hx1) (?&?&?&?&?&Hx2) Heq. unfold canonical_bytes in Heq. cbn in *.
  do 4 (apply kv_inj in Heq as [? Heq]; [|done..]).
  apply str_app_inv_head in Heq. injection Heq as Heq.
  apply sep_inj in Heq as [? _]; [|done..]. subst. f_equal.
  destruct x1, x2; cbn in *; congruence.
Qed.

(** C21. The signed bytes determine the license: two blocks that parse and have
    the same canonical bytes carry the same payload, so a signature made for
    one license cannot be replayed for a different one by moving text between
    fields. *)
Theorem signature_binds_payload t1 t2 p1 p2 :
  parse_license t1 = Some (Ok p1) → parse_license t2 = Some (Ok p2) →
  canonical_bytes (payload p1) = canonical_bytes (payload p2) →
  payload p1 = payload p2.
Proof. intros ?%parse_license_wf ?%parse_license_wf. by apply canonical_bytes_inj. Qed.

Example signature_binds_payload_witness :
  ∃ p1 p2, parse_license (license_text sample "00") = Some (Ok p1) ∧
           parse_license (license_text sample "ff") = Some (Ok p2) ∧ payload p1 = payload p2.
Proof.
  eexists _, _. split; [vm_compute; reflexivity|]. split; [vm_compute; reflexivity|].
  apply (signature_binds_payload (license_text sample "00") (license_text sample "ff"));
    vm_compute; reflexivity.
Defined.

(** [parse_license] panics exactly when the END marker starts inside the
    BEGIN marker: the guard [end <= begin] lets that case through to a slice
    whose start is past its end. *)
Theorem parse_license_panics_iff text :
  parse_license text = None ↔
  ∃ b e, find BEGIN_MARKER text = Some b ∧ find END_MARKER text = Some e ∧
         b < e < b + String.length BEGIN_MARKER.
Proof.
  unfold parse_license.
  destruct (find BEGIN_MARKER text) as [b|]; [|split; [done|by intros (? & ? & [=] & _)]].
  destruct (find END_MARKER text) as [e|] eqn:He; [|split; [done|by intros (? & ? & _ & [=] & _)]].
  apply find_bound in He. case_decide as Hle.
  - split; [done|]. intros (b' & e' & [= <-] & [= <-] & H). lia.
  - destruct (slice _ e text) as [body|] eqn:Es; cbn.
    + split; [done|]. intros (b' & e' & [= <-] & [= <-] & H).
      by rewrite (proj2 (slice_None (b + String.length BEGIN_MARKER) e text He)) in Es by (cbn; lia).
    + split; [|done]. intros _. exists b, e. split_and!; [done..|lia|].
      by apply (slice_None _ _ _ He).
Qed.

(** A 71-byte text that makes the parser panic. *)
Example parse_license_overlap_panics :
  parse_license "-----BEGIN DBMASTER SERVER LICENSE-----END DBMASTER SERVER LICENSE-----" = None.
Proof. vm_compute. reflexivity. Qed.

(** ** Round trip *)

(** A value that survives being written on a [key:value] line. *)
Definition line_ok (key value : string) : bool :=
  bool_decide (trim (kv key value) = kv key value) && bool_decide (trim value = value)
  && no_char LF value && no_char CR value.

Definition has_expiry (l : LicenseV2) : bool :=
  match l.(expires_at) with Some _ => true | None => false end.

(** Side conditions on the literals of the format. *)
Ltac closed_side := first [assumption | done | vm_compute; first [reflexivity | discriminate]].

(** What an issuer must respect for its license to be readable back. *)
Definition issuable (l : LicenseV2) (signature_hex : string) : bool :=
  line_ok "email" l.(email) && negb (is_empty l.(email))
  && line_ok "expires_at" (default "" l.(expires_at))
  && line_ok "instance_id" l.(instance_id) && negb (is_empty l.(instance_id))
  && line_ok "issued_at" l.(issued_at) && negb (is_empty l.(issued_at))
  && line_ok "type" l.(license_type) && line_ok "signature" signature_hex
  && match l.(expires_at) with
     | Some s => bool_decide (l.(license_type) = "yearly") && contains "T" s
     | None => bool_decide (l.(license_type) = "lifetime")
     end
  && negb (contains END_MARKER (canonical_bytes l))
  && negb (contains END_MARKER (kv "signature" signature_hex)).

Lemma contains_false p s : contains p s = false → find p s = None.
Proof. unfold contains. by destruct (find p s). Qed.

Lemma no_char_kv c key value :
  no_char c key = true → bool_decide (":"%char = c) = false → no_char c value = true →
  no_char c (kv key value) = true.
Proof.
  unfold kv, no_char. intros Hk Hc Hv. rewrite all_chars_app, Hk. cbn. by rewrite Hc, Hv.
Qed.

Lemma parse_line_kv fs key value :
  line_ok key value = true → no_char ":" key = true → trim key = key → key ≠ "" →
  parse_line fs (kv key value) = set_field fs key value.
Proof.
  unfold line_ok, parse_line. rewrite !andb_true_iff, !bool_decide_eq_true.
  intros [[[-> Hv] _] _] Hk Htk Hne.
  rewrite (proj2 (split_once_spec ":" (kv key value) key value)) by done.
  rewrite Htk, Hv. by destruct key.
Qed.

(** One step of the loop over a block written by an issuer. *)
Lemma parse_lines_kv fs key value rest :
  line_ok key value = true → no_char ":" key = true → trim key = key → key ≠ "" →
  no_char LF key = true → no_char CR key = true →
  parse_lines fs (lines (kv key value +:+ String LF rest)) =
  (set_field fs key value ≫= λ fs', parse_lines fs' (lines rest)).
Proof.
  intros Hok Hk Htk Hne HLF HCR. pose proof Hok as Hok'. unfold line_ok in Hok'.
  rewrite !andb_true_iff in Hok'. destruct Hok' as [[_ Hlf] Hcr].
  rewrite lines_app_LF by (apply no_char_kv; done). cbn [parse_lines].
  by rewrite parse_line_kv.
Qed.

(** The body between the two markers of [license_text]. *)
Definition block_body (l : LicenseV2) (signature_hex : string) : string :=
  String LF (canonical_bytes l +:+ String LF (kv "signature" signature_hex +:+ String LF "")).

Lemma license_text_body l sig :
  license_text l sig = BEGIN_MARKER +:+ (block_body l sig +:+ END_MARKER).
Proof.
  unfold license_text, block_body. rewrite !str_app_cons, <- !str_app_assoc.
  rewrite !str_app_cons, <- !str_app_assoc. by rewrite !str_app_cons.
Qed.

Lemma find_end_license_text l sig :
  find END_MARKER (canonical_bytes l) = None → find END_MARKER (kv "signature" sig) = None →
  find END_MARKER (license_text l sig) =
  Some (String.length BEGIN_MARKER + String.length (block_body l sig)).
Proof.
  intros H1 H2. unfold license_text, block_body.
  rewrite find_skip_line by closed_side.
  rewrite find_skip_line by closed_side.
  rewrite find_skip_line by closed_side.
  rewrite <- (str_app_nil_r END_MARKER) at 2. rewrite find_here. cbn [fmap option_fmap option_map].
  f_equal. cbn [String.length]. rewrite str_length_app. cbn [String.length].
  rewrite str_length_app. cbn [String.length]. lia.
Qed.

Lemma parse_block_body l sig :
  issuable l sig = true →
  (parse_lines no_fields (lines (block_body l sig)) ≫= finish) =
  Ok {| p_email := l.(email); p_expires_at := l.(expires_at);
        p_instance_id := l.(instance_id); p_issued_at := l.(issued_at);
        p_product := PRODUCT_SERVER; p_license_type := l.(license_type);
        p_version := LICENSE_VERSION; p_signature_hex := sig |}.
Proof.
  unfold issuable. rewrite !andb_true_iff, !negb_true_iff.
  intros [[[[[[[[[[[He Hen] Hx] Hi] Hin] Hs] Hsn] Ht] Hsig] Htype] _] _].
  unfold block_body, canonical_bytes. rewrite <- !str_app_assoc.
  repeat progress (rewrite ?str_app_cons; rewrite <- ?str_app_assoc).
  cbn [lines]. rewrite decide_True by done. cbn [parse_lines].
  change (parse_line no_fields "") with (Ok (E:=ParseError) no_fields).
  cbn [mbind result_mbind].
  do 8 (rewrite parse_lines_kv by closed_side;
        cbn [set_field no_fields String.eqb Ascii.eqb Bool.eqb andb mbind result_mbind]).
  unfold finish. cbn.
  destruct l as [e x i s t]; cbn in *. unfold nonempty. rewrite Hen, Hin, Hsn. cbn.
  destruct x as [x|]; cbn.
  - rewrite andb_true_iff in Htype. destruct Htype as [Hty HT].
    destruct (is_empty x) eqn:Ex; [by destruct x|].
    rewrite HT. cbn. rewrite Hty. by rewrite andb_false_r.
  - by rewrite Htype.
Qed.

(** Round trip: a license written in canonical form between the markers is
    parsed back to exactly its fields, its product, its version and its
    signature, for every license an issuer may write. *)
Theorem parse_license_text l sig :
  issuable l sig = true →
  parse_license (license_text l sig) =
  Some (Ok {| p_email := l.(email); p_expires_at := l.(expires_at);
              p_instance_id := l.(instance_id); p_issued_at := l.(issued_at);
              p_product := PRODUCT_SERVER; p_license_type := l.(license_type);
              p_version := LICENSE_VERSION; p_signature_hex := sig |}).
Proof.
  intros H. pose proof H as H'. unfold issuable in H'.
  rewrite !andb_true_iff, !negb_true_iff in H'. destruct H' as [[_ HE1] HE2].
  unfold parse_license. rewrite find_end_license_text by by apply contains_false.
  rewrite license_text_body, find_here. rewrite decide_False by (cbn; lia).
  rewrite Nat.add_0_l, slice_mid. cbn [mbind option_bind]. f_equal.
  by apply parse_block_body.
Qed.

Example parse_license_text_witness :
  is_ok (E:=ParseError) (default (Err MissingBlock) (parse_license (license_text sample "00ff")))
  = true.
Proof. rewrite (parse_license_text sample "00ff"); vm_compute; reflexivity. Defined.
