(* ===== verification/Entitlement.v ===== *)
(** * Instance identity, trial window and entitlement
    (crates/license/src/instance.rs, trial.rs, entitlement.rs)

    The [instance_meta] table is the list of its rows; [SELECT .. LIMIT 1] is
    its head.  The clock and the random generator are arguments of each
    operation.  Database I/O errors, which propagate unchanged, are not
    modelled; the [anyhow] errors the code raises itself are. *)

From S2P Require Import Prelude RustStr Clock License.

(** ** instance.rs *)

Record InstanceMeta := {
  install_uuid : string; created_at : string;
  trial_started_at : option string; trial_expires_at : option string }.

Definition insert_or_ignore (row : InstanceMeta) (tbl : list InstanceMeta) : list InstanceMeta :=
  if decide (row.(install_uuid) ∈ install_uuid <$> tbl) then tbl else tbl ++ [row].

(** [get_or_create_instance]; [uuid] is [generate_install_uuid()]. *)
Definition get_or_create_instance (uuid now_s : string) (tbl : list InstanceMeta)
    : result string InstanceMeta * list InstanceMeta :=
  match tbl with
  | existing :: _ => (Ok existing, tbl)
  | [] =>
      let tbl' := insert_or_ignore
        {| install_uuid := uuid; created_at := now_s;
           trial_started_at := None; trial_expires_at := None |} tbl in
      (ok_or (head tbl') "instance_meta row missing after insert", tbl')
  end.

(** ** trial.rs *)

Definition TRIAL_DAYS : Z := 14.

Inductive TrialStatus := Active (expires : Z) | Expired | NotStarted.

(** ** entitlement.rs *)

Definition RENEWAL_THRESHOLD_DAYS : Z := 30.
Definition RENEWAL_URGENT_DAYS : Z := 7.

Inductive GatedReason := TrialExpired | LicenseInvalid | InstanceMismatch | LicenseExpired.

Inductive EntitlementState :=
| Licensed (license : LicenseV2) (expires : option Z)
| Trial (expires : Z)
| Gated (reason : GatedReason).

Inductive RenewalTier := Soon | Urgent.

Definition is_gated (s : EntitlementState) : bool :=
  match s with Gated _ => true | _ => false end.

Definition days_until_expiry (now : Z) (s : EntitlementState) : option Z :=
  match s with
  | Licensed _ (Some exp) => Some (num_days (exp - now))
  | Licensed _ None => None
  | Trial exp => Some (num_days (exp - now))
  | Gated _ => None
  end.

Definition renewal_banner (now : Z) (s : EntitlementState) : option RenewalTier :=
  match s with
  | Licensed _ (Some _) =>
      days ← days_until_expiry now s;
      if (days <=? RENEWAL_URGENT_DAYS)%Z then Some Urgent
      else if (days <=? RENEWAL_THRESHOLD_DAYS)%Z then Some Soon
      else None
  | _ => None
  end.

Section Resolve.
Context `{C : TimestampCodec}.
Context {Signature VerifyingKey : Type}.
Context (hex_decode : string → option string).
Context (signature_from_slice : string → option Signature).
Context (verify : VerifyingKey → string → Signature → bool).
Context (verifying_key_from_bytes : string → option VerifyingKey).

Definition parse_iso8601 (s : string) : result string Z :=
  ok_or (parse_rfc3339 s) "parse ISO-8601".

(** [start_trial]: the UPDATE has no WHERE clause. *)
Definition start_trial (now : Z) (tbl : list InstanceMeta)
    : result string TrialStatus * list InstanceMeta :=
  let expires := (now + TRIAL_DAYS * DAY)%Z in
  let update r := {| install_uuid := r.(install_uuid); created_at := r.(created_at);
                     trial_started_at := Some (to_rfc3339 now);
                     trial_expires_at := Some (to_rfc3339 expires) |} in
  if decide (length tbl = 0)
  then (Err "no instance_meta row; call get_or_create_instance first", tbl)
  else (Ok (Active expires), update <$> tbl).

Definition ensure_trial_status (now : Z) (tbl : list InstanceMeta)
    : result string TrialStatus * list InstanceMeta :=
  match tbl with
  | [] => (Ok NotStarted, tbl)
  | row :: _ =>
      match row.(trial_started_at), row.(trial_expires_at) with
      | Some s, Some e =>
          (expires ← parse_iso8601 e;
           _ ← parse_iso8601 s;
           Ok (if (now <? expires)%Z then Active expires else Expired), tbl)
      | None, None => start_trial now tbl
      | _, _ => start_trial now tbl
      end
  end.

Definition license_state (now : Z) (license : LicenseV2) (local_install_uuid : string)
    : EntitlementState :=
  if negb (bool_decide (license.(instance_id) = local_install_uuid))
  then Gated InstanceMismatch
  else
    let expires := s ← license.(expires_at); parse_rfc3339 s in
    match expires with
    | Some exp => if (exp <? now)%Z then Gated LicenseExpired else Licensed license expires
    | None => Licensed license expires
    end.

(** Outer [None]: the parser panics. *)
Definition resolve_from_license_text_with_pk (now : Z) (text local_install_uuid : string)
    (public_key : VerifyingKey) : option EntitlementState :=
  parsed ← parse_license text;
  Some match parsed with
       | Ok p => match verify_license_with_pk hex_decode signature_from_slice verify p public_key with
                 | Ok license => license_state now license local_install_uuid
                 | Err _ => Gated LicenseInvalid
                 end
       | Err MissingBlock => Gated LicenseInvalid
       | Err _ => Gated LicenseInvalid
       end.

Definition SERVER_PUBLIC_KEY_HEX : string :=
  "6ef69c43723d19bdb1e40ed1fc31a6ba82936042994f1117decec6f42b33541f".

(** [trusted_verifying_key]; [override] is the environment variable that
    debug builds consult, [None] in a release build. *)
Definition trusted_verifying_key (override : option string) : result VerifyError VerifyingKey :=
  let hex_str := match override with
                 | Some pk => let pk := trim pk in
                              if is_empty pk then SERVER_PUBLIC_KEY_HEX else pk
                 | None => SERVER_PUBLIC_KEY_HEX
                 end in
  pk_bytes ← ok_or (hex_decode hex_str) InvalidPublicKey;
  if decide (String.length pk_bytes = 32)
  then ok_or (verifying_key_from_bytes pk_bytes) InvalidPublicKey
  else Err InvalidPublicKey.

Definition resolve_from_license_text (override : option string) (now : Z)
    (text local_install_uuid : string) : option EntitlementState :=
  match trusted_verifying_key override with
  | Err _ => Some (Gated LicenseInvalid)
  | Ok pk => resolve_from_license_text_with_pk now text local_install_uuid pk
  end.

Definition resolve_entitlement_with_text (override : option string) (uuid now_s : string)
    (now : Z) (license_text : option string) (tbl : list InstanceMeta)
    : option (result string EntitlementState * list InstanceMeta) :=
  match get_or_create_instance uuid now_s tbl with
  | (Err e, tbl) => Some (Err e, tbl)
  | (Ok instance, tbl) =>
      match license_text with
      | Some text =>
          st ← resolve_from_license_text override now text instance.(install_uuid);
          Some (Ok st, tbl)
      | None =>
          let '(status, tbl) := ensure_trial_status now tbl in
          Some (status ← status;
                Ok match status with
                   | Active expires => Trial expires
                   | Expired => Gated TrialExpired
                   | NotStarted => Gated TrialExpired
                   end, tbl)
      end
  end.
End Resolve.

(** ** Writing the license file

    The file system is a map from paths to contents, a path a directory and a
    file name; [rename] within a directory is atomic. *)

Definition path : Type := string * string.
Definition fs : Type := gmap path string.
Inductive fs_op := FsWrite (p : path) (content : string) | FsRename (src dst : path).

Definition tmp_path (p : path) : path := (p.1, p.2 +:+ ".tmp").

(** The file system calls of [write_license_file], in order ([chmod] does not
    change contents). *)
Definition write_license_file (p : path) (text : string) : list fs_op :=
  [FsWrite (tmp_path p) text; FsRename (tmp_path p) p].

Definition fs_exec (op : fs_op) (m : gmap path string) : gmap path string :=
  match op with
  | FsWrite p c => <[p := c]> m
  | FsRename s d => match m !! s with Some c => <[d := c]> (delete s m) | None => m end
  end.

(** The states a crash or an I/O error may leave: any prefix of the calls,
    with a torn write of arbitrary content. *)
Inductive crashed : list fs_op → gmap path string → gmap path string → Prop :=
| crashed_now ops m : crashed ops m m
| crashed_torn p c c' ops m : crashed (FsWrite p c :: ops) m (<[p := c']> m)
| crashed_later op ops m m' : crashed ops (fs_exec op m) m' → crashed (op :: ops) m m'.

(** ** Theorems *)

Section Theorems.
Context `{C : TimestampCodec}.
Context {Signature VerifyingKey : Type}.
Context (hex_decode : string → option string).
Context (signature_from_slice : string → option Signature).
Context (verify : VerifyingKey → string → Signature → bool).
Context (verifying_key_from_bytes : string → option VerifyingKey).


Lemma ensure_trial_status_set {L : TimestampLaws C} now r tbl s e :
  trial_started_at r = Some (to_rfc3339 s) → trial_expires_at r = Some (to_rfc3339 e) →
  (ts_min ≤ s ≤ ts_max)%Z → (ts_min ≤ e ≤ ts_max)%Z →
  ensure_trial_status now (r :: tbl) =
  (Ok (if (now <? e)%Z then Active e else Expired), r :: tbl).
Proof.
  intros Hs He Hs' He'. unfold ensure_trial_status, parse_iso8601. rewrite Hs, He.
  by rewrite !parse_to_rfc3339 by done.
Qed.

(** The trial window is opened once, on the first start without a
    license, and lasts exactly 14 days: every later start before the stored
    expiry is in trial with that same expiry, every start from it on is
    gated, and none of them changes the stored window. *)
Theorem trial_window_fixed (L : TimestampLaws C) override uuid now_s t0 :
  (ts_min ≤ t0)%Z → (t0 + 14 * DAY ≤ ts_max)%Z →
  ∃ tbl,
    resolve_entitlement_with_text hex_decode signature_from_slice verify verifying_key_from_bytes
      override uuid now_s t0 None [] = Some (Ok (Trial (t0 + 14 * DAY)), tbl) ∧
    ∀ uuid' now_s' t,
      resolve_entitlement_with_text hex_decode signature_from_slice verify verifying_key_from_bytes
      override uuid' now_s' t None tbl =
      Some (Ok (if (t <? t0 + 14 * DAY)%Z then Trial (t0 + 14 * DAY) else Gated TrialExpired),
            tbl).
Proof.
  intros Hmin Hmax. assert (0 < 14 * DAY)%Z by done.
  exists [{| install_uuid := uuid; created_at := now_s;
             trial_started_at := Some (to_rfc3339 t0);
             trial_expires_at := Some (to_rfc3339 (t0 + 14 * DAY)) |}].
  split; [reflexivity|]. intros uuid' now_s' t.
  unfold resolve_entitlement_with_text. cbn [get_or_create_instance].
  erewrite ensure_trial_status_set by (reflexivity || lia). cbn.
  by destruct (_ <? _)%Z.
Qed.

(** The instance identity is created once. *)
Lemma install_uuid_stable uuid now_s uuid' now_s' tbl :
  let tbl' := (get_or_create_instance uuid now_s tbl).2 in
  get_or_create_instance uuid' now_s' tbl' =
  ((get_or_create_instance uuid now_s tbl).1, tbl').
Proof.
  destruct tbl as [|r tbl]; [|done]. cbn. unfold insert_or_ignore.
  cbn. by rewrite decide_False by apply not_elem_of_nil.
Qed.

Lemma verify_ok_inv p pk l :
  verify_license_with_pk hex_decode signature_from_slice verify p pk = Ok l →
  l = payload p ∧ ∃ s, verify pk (canonical_bytes (payload p)) s = true.
Proof.
  unfold verify_license_with_pk. intros H. do 3 (destruct (negb _); [done|]). inv_binds.
  destruct (verify pk _ _) eqn:Ev; simplify_eq/=. eauto.
Qed.

Lemma license_state_licensed now l uuid l' e :
  license_state now l uuid = Licensed l' e →
  l' = l ∧ instance_id l = uuid ∧ e = (s ← expires_at l; parse_rfc3339 s) ∧
  (∀ exp, e = Some exp → (now ≤ exp)%Z).
Proof.
  unfold license_state. case_bool_decide; cbn [negb]; [|done].
  destruct (s ← expires_at l; parse_rfc3339 s) as [exp|].
  - case_match; [done|]. intros [= <- <-]. apply Z.ltb_ge in H0. naive_solver.
  - intros [= <- <-]. naive_solver.
Qed.

Lemma resolve_licensed_inv override uuid now_s now text tbl l e tbl' :
  resolve_entitlement_with_text hex_decode signature_from_slice verify verifying_key_from_bytes
      override uuid now_s now text tbl = Some (Ok (Licensed l e), tbl') →
  ∃ t p pk r, text = Some t ∧ parse_license t = Some (Ok p) ∧
    trusted_verifying_key hex_decode verifying_key_from_bytes override = Ok pk ∧
    (∃ s, verify pk (canonical_bytes (payload p)) s = true) ∧ l = payload p ∧
    get_or_create_instance uuid now_s tbl = (Ok r, tbl') ∧
    license_state now l (install_uuid r) = Licensed l e.
Proof.
  unfold resolve_entitlement_with_text.
  destruct (get_or_create_instance uuid now_s tbl) as [[r|err] tbl1] eqn:Eg; [|done].
  destruct text as [t|].
  - unfold resolve_from_license_text, resolve_from_license_text_with_pk.
    destruct (trusted_verifying_key _ _ override) as [pk|err]; [|done].
    destruct (parse_license t) as [[p|err]|] eqn:Ep; cbn; [|by destruct err|done].
    destruct (verify_license_with_pk _ _ _ p pk) as [l'|err] eqn:Ev; cbn; [|done].
    intros Heq. injection Heq as Hst <-.
    destruct (verify_ok_inv _ _ _ Ev) as [-> Hs].
    destruct (license_state_licensed _ _ _ _ _ Hst) as [-> _].
    by exists t, p, pk, r.
  - destruct (ensure_trial_status now tbl1) as [[[]|] tbl2]; cbn; congruence.
Qed.

(** C22. Only issued licenses unlock the server.  When the trusted key
    accepts nothing but the canonical bytes of licenses the vendor issued,
    any text that makes the server [Licensed] carries one of those licenses,
    unchanged in every field, bound to this server's install_uuid and, if
    its expiry is readable, not past it. *)
Theorem licensed_only_if_issued (issued : LicenseV2 → Prop) override pk uuid now_s now text tbl l e tbl' :
  trusted_verifying_key hex_decode verifying_key_from_bytes override = Ok pk →
  (∀ m s, verify pk m s = true → ∃ l0, issued l0 ∧ m = canonical_bytes l0) →
  (∀ l0, issued l0 → wf_payload l0) →
  resolve_entitlement_with_text hex_decode signature_from_slice verify verifying_key_from_bytes
      override uuid now_s now text tbl = Some (Ok (Licensed l e), tbl') →
  issued l ∧ (∃ r rest, tbl' = r :: rest ∧ instance_id l = install_uuid r) ∧
  (∀ exp, e = Some exp → (now ≤ exp)%Z).
Proof.
  intros Hpk Hverify Hwf Hres.
  destruct (resolve_licensed_inv _ _ _ _ _ _ _ _ _ Hres)
    as (t & p & pk' & r & -> & Hp & Hpk' & [s Hs] & -> & Hg & Hst).
  assert (pk' = pk) as -> by congruence.
  destruct (Hverify _ _ Hs) as (l0 & Hl0 & Hcanon).
  apply canonical_bytes_inj in Hcanon; [|by eapply parse_license_wf|by apply Hwf].
  subst l0. destruct (license_state_licensed _ _ _ _ _ Hst) as (_ & Hid & _ & Hexp).
  split; [done|]. split; [|done].
  exists r. destruct tbl as [|r0 rest]; cbn in Hg; simplify_eq/=; eauto.
Qed.

(** Gating is permanent as time passes: a license that resolves to a
    gated state keeps resolving to it at every later time. *)
Theorem license_gating_monotone t t' l uuid reason :
  (t ≤ t')%Z → license_state t l uuid = Gated reason → license_state t' l uuid = Gated reason.
Proof.
  unfold license_state. intros Hle. case_bool_decide; cbn [negb]; [|done].
  destruct (s ← expires_at l; parse_rfc3339 s) as [exp|]; [|done].
  destruct (Z.ltb_spec exp t); [|done]. destruct (Z.ltb_spec exp t'); [done|lia].
Qed.

(** A license whose expiry chrono cannot read never lapses: it is treated
    as a lifetime license, licensed at every time and with no renewal
    banner.  [parse_license] only checks that the expiry contains a ['T']. *)
Theorem unreadable_expiry_never_lapses l s :
  expires_at l = Some s → parse_rfc3339 s = None →
  ∀ t, license_state t l (instance_id l) = Licensed l None ∧
       renewal_banner t (license_state t l (instance_id l)) = None.
Proof.
  intros Hs Hp t. unfold license_state. rewrite bool_decide_true by done.
  rewrite Hs. cbn. by rewrite Hp.
Qed.

(** The renewal banner of a yearly license is urgent exactly when less
    than 8 days remain and soon exactly when at least 8 and less than 31 do:
    the day count is truncated, so the "7 days" and "30 days" tiers last
    almost a day longer than their names. *)
Theorem renewal_banner_spec now l exp :
  (renewal_banner now (Licensed l (Some exp)) = Some Urgent ↔ (exp - now < 8 * DAY)%Z) ∧
  (renewal_banner now (Licensed l (Some exp)) = Some Soon ↔
    (8 * DAY ≤ exp - now < 31 * DAY)%Z).
Proof.
  unfold renewal_banner, RENEWAL_URGENT_DAYS, RENEWAL_THRESHOLD_DAYS. cbn [days_until_expiry mbind option_bind].
  pose proof (num_days_le (exp - now) 7 ltac:(lia)). pose proof (num_days_le (exp - now) 30 ltac:(lia)).
  destruct (Z.leb_spec (num_days (exp - now)) 7), (Z.leb_spec (num_days (exp - now)) 30);
    split; split; intros ?; simplify_eq; try lia; done || (exfalso; lia).
Qed.
End Theorems.

(** Writing the license file is atomic for its readers: whatever prefix
    of the calls ran, with whatever torn content in the temporary file, the
    license path holds its old content or the complete new text, and no other
    file than the temporary one is touched. *)
Theorem write_license_file_atomic p text m m' :
  crashed (write_license_file p text) m m' →
  (m' !! p = m !! p ∨ m' !! p = Some text) ∧
  ∀ q, q ≠ p → q ≠ tmp_path p → m' !! q = m !! q.
Proof.
  assert (Hne : tmp_path p ≠ p).
  { destruct p as [d f]. unfold tmp_path. cbn. intros [= H].
    apply (f_equal String.length) in H. rewrite str_length_app in H. cbn in H. lia. }
  unfold write_license_file. intros H. inversion H; subst; clear H.
  - split; [by left|done].
  - split; [left; by apply lookup_insert_ne|]. intros q ??. by apply lookup_insert_ne.
  - inversion H4; subst; clear H4; cbn.
    + split; [left; by apply lookup_insert_ne|]. intros q ??. by apply lookup_insert_ne.
    + inversion H3; subst; clear H3. cbn. rewrite lookup_insert_eq. split.
      * right. apply lookup_insert_eq.
      * intros q Hp Ht. rewrite !lookup_insert_ne, lookup_delete_ne by done.
        by apply lookup_insert_ne.
Qed.

(** ** Witnesses *)

(** A toy signature scheme: the trusted key accepts the bytes of [sample]. *)
Definition toy_verify (pk m s : string) : bool := bool_decide (m = canonical_bytes sample).
Definition toy_key (_ : string) : option string := Some "key".
Definition toy_hex (s : string) : option string := Some (String.substring 0 32 s).
Definition sample_instance : InstanceMeta :=
  {| install_uuid := "abcd"; created_at := ""; trial_started_at := None; trial_expires_at := None |}.

Example trial_window_fixed_witness :
  ∃ tbl, ∀ t, (14 * DAY ≤ t)%Z →
    resolve_entitlement_with_text (C:=bits_codec) toy_hex Some toy_verify toy_key
      None "u" "s" t None tbl = Some (Ok (Gated TrialExpired), tbl).
Proof.
  destruct (trial_window_fixed (C:=bits_codec) toy_hex Some toy_verify toy_key
              bits_codec_laws None "u" "s" 0 ltac:(done) ltac:(done)) as (tbl & _ & H).
  exists tbl. intros t Ht. rewrite H. replace (t <? 0 + 14 * DAY)%Z with false; [done|].
  symmetry. apply Z.ltb_ge. lia.
Defined.

Lemma sample_wf : wf_payload sample.
Proof. unfold wf_payload. vm_compute. split_and!; done. Qed.

Example licensed_only_if_issued_witness :
  ∃ e tbl', resolve_entitlement_with_text (C:=bits_codec) toy_hex Some toy_verify toy_key
    None "u" "s" 0 (Some (license_text sample "00ff")) [sample_instance]
    = Some (Ok (Licensed sample e), tbl') ∧
  ∃ r rest, tbl' = r :: rest ∧ instance_id sample = install_uuid r.
Proof.
  eexists _, _. split; [vm_compute; reflexivity|].
  refine (proj1 (proj2 (licensed_only_if_issued (C:=bits_codec) toy_hex Some toy_verify toy_key
    (λ l, l = sample) None "key" "u" "s" 0 (Some (license_text sample "00ff")) [sample_instance]
    sample None [sample_instance] _ _ _ _))).
  - vm_compute. reflexivity.
  - intros m s Hm. exists sample. split; [done|]. by apply bool_decide_eq_true in Hm.
  - intros l0 ->. apply sample_wf.
  - vm_compute. reflexivity.
Defined.

Definition expired_sample : LicenseV2 :=
  {| email := "a@b.c"; expires_at := Some (z_bits 5); instance_id := "abcd";
     issued_at := "2026"; license_type := "yearly" |}.

Example license_gating_monotone_witness :
  license_state (C:=bits_codec) 100 expired_sample "abcd" = Gated LicenseExpired.
Proof.
  apply (license_gating_monotone (C:=bits_codec) 6 100); [lia|vm_compute; reflexivity].
Defined.

Example unreadable_expiry_never_lapses_witness :
  parse_rfc3339 (TimestampCodec:=bits_codec) "Tomorrow" = None ∧
  ∀ t, license_state (C:=bits_codec) t
         {| email := "a"; expires_at := Some "Tomorrow"; instance_id := "abcd";
            issued_at := "2026"; license_type := "yearly" |} "abcd" =
       Licensed {| email := "a"; expires_at := Some "Tomorrow"; instance_id := "abcd";
            issued_at := "2026"; license_type := "yearly" |} None.
Proof.
  split; [vm_compute; reflexivity|]. intros t.
  apply (unreadable_expiry_never_lapses (C:=bits_codec)
    {| email := "a"; expires_at := Some "Tomorrow"; instance_id := "abcd";
       issued_at := "2026"; license_type := "yearly" |} "Tomorrow");
    [reflexivity | vm_compute; reflexivity].
Defined.

Example write_license_file_atomic_witness :
  ∃ m', crashed (write_license_file ("etc", ".dbmlicense") "new") {[("etc", ".dbmlicense") := "old"]} m' ∧
    (m' !! ("etc", ".dbmlicense") = Some "old" ∨ m' !! ("etc", ".dbmlicense") = Some "new").
Proof.
  eexists. split; [apply crashed_torn with (c' := "ne")|].
  destruct (write_license_file_atomic ("etc", ".dbmlicense") "new"
    {[("etc", ".dbmlicense") := "old"]} _ (crashed_torn _ _ "ne" _ _)) as [[H|H] _].
  - left. exact (eq_trans H (lookup_singleton_eq _ _)).
  - right. exact H.
Defined.
