(* ===== verification/SqlSplit.v ===== *)
(** * The SQL script splitter (crates/automation/src/sql_split.rs)

    [split_sql_script] works on [Vec<char>]: a script is the list of its
    Unicode scalar values.  The loop's index [i] is kept as the suffix
    [chars[i..]], so [chars[i + k]] is the [k]-th element of the suffix.
    [char::is_whitespace] is written out; [char::is_alphanumeric] is written
    out on ASCII and a parameter above it (Unicode's tables). *)

From S2P Require Import Prelude.
From stdpp Require Import strings.

Definition char : Type := N.
Bind Scope N_scope with char.

Fixpoint chars_of (s : string) : list char :=
  match s with
  | EmptyString => []
  | String c r => N_of_ascii c :: chars_of r
  end.

(** [char::len_utf8]. *)
Definition len_utf8 (c : char) : nat :=
  if (c <? 128)%N then 1 else if (c <? 2048)%N then 2 else if (c <? 65536)%N then 3 else 4.

(** [str::len] of a string, in bytes. *)
Definition byte_len (s : list char) : nat := foldr (λ c n, len_utf8 c + n) 0 s.

Definition between (lo hi c : char) : bool := (N.leb lo c && N.leb c hi)%bool.

Definition is_whitespace (c : char) : bool :=
  between 9 13 c || N.eqb c 32%N || N.eqb c 133%N || N.eqb c 160%N || N.eqb c 5760%N
  || between 8192 8202 c || N.eqb c 8232%N || N.eqb c 8233%N || N.eqb c 8239%N
  || N.eqb c 8287%N || N.eqb c 12288%N.

Definition to_ascii_uppercase (c : char) : char := if between 97 122 c then (c - 32)%N else c.

Fixpoint drop_while {A} (p : A → bool) (l : list A) : list A :=
  match l with
  | [] => []
  | x :: l' => if p x then drop_while p l' else l
  end.
Fixpoint take_while {A} (p : A → bool) (l : list A) : list A :=
  match l with
  | [] => []
  | x :: l' => if p x then x :: take_while p l' else []
  end.

Definition trim (s : list char) : list char :=
  reverse (drop_while is_whitespace (reverse (drop_while is_whitespace s))).

Definition NL : char := 10.
Definition SQ : char := 39.
Definition DQ : char := 34.
Definition BQ : char := 96.
Definition BACKSLASH : char := 92.
Definition HASH : char := 35.
Definition DASH : char := 45.
Definition SLASH : char := 47.
Definition STAR : char := 42.
Definition UNDERSCORE : char := 95.
Definition SEMI : list char := [59%N].

(** The variables of the loop; [rest] is [chars[i..]]. *)
Record state := {
  rest : list char; statements : list (list char); buf : list char;
  delimiter : list char; in_quote : option char; begin_depth : nat }.

(** [is_line_comment_start]. *)
Definition is_line_comment_start (r : list char) : bool :=
  match r with
  | c :: r1 =>
      if N.eqb c HASH then true
      else match r1 with
           | c1 :: r2 =>
               if N.eqb c DASH && N.eqb c1 DASH
               then match r2 with [] => true | nxt :: _ => is_whitespace nxt end
               else false
           | [] => false
           end
  | [] => false
  end.

(** The block comment loop: what is pushed on [buf], and the suffix after. *)
Fixpoint block_comment (r : list char) : list char * list char :=
  match r with
  | [] => ([], [])
  | c :: r1 =>
      match r1 with
      | c1 :: r2 =>
          if N.eqb c STAR && N.eqb c1 SLASH then ([c; c1], r2)
          else let '(t, r') := block_comment r1 in (c :: t, r')
      | [] => ([c], [])
      end
  end.

(** [matches_str]. *)
Fixpoint matches_str (r s : list char) {struct s} : bool :=
  match s with
  | [] => true
  | x :: s' => match r with c :: r' => N.eqb c x && matches_str r' s' | [] => false end
  end.

Definition is_quote (c : char) : bool := N.eqb c SQ || N.eqb c DQ || N.eqb c BQ.

(** Flushing [buf.trim()] when it is not empty. *)
Definition flush (b : list char) (sts : list (list char)) : list (list char) :=
  match trim b with [] => sts | t => sts ++ [t] end.

Section Split.
(** [char::is_alphanumeric] above ASCII. *)
Context (unicode_alphanumeric : char → bool).

Definition is_alphanumeric (c : char) : bool :=
  if (c <? 128)%N then between 48 57 c || between 65 90 c || between 97 122 c
  else unicode_alphanumeric c.

Fixpoint keyword_prefix (r kw : list char) {struct kw} : option (list char) :=
  match kw with
  | [] => Some r
  | k :: kw' =>
      match r with
      | c :: r' => if N.eqb (to_ascii_uppercase c) k then keyword_prefix r' kw' else None
      | [] => None
      end
  end.

(** [match_keyword(chars, i, kw).is_some()]. *)
Definition match_keyword (r kw : list char) : bool :=
  match keyword_prefix r kw with
  | Some [] => true
  | Some (nxt :: _) => negb (is_alphanumeric nxt || N.eqb nxt UNDERSCORE)
  | None => false
  end.

Definition matches_delimiter_directive (r : list char) : bool :=
  match_keyword r (chars_of "DELIMITER").

Definition ws_not_nl (c : char) : bool := is_whitespace c && negb (N.eqb c NL).
Definition not_nl (c : char) : bool := negb (N.eqb c NL).

(** One iteration of the [while] loop, on a non-empty suffix [c :: r]. *)
Definition step (c : char) (r : list char) (st : state) : state :=
  let set_rest_buf r' b :=
    {| rest := r'; statements := st.(statements); buf := b; delimiter := st.(delimiter);
       in_quote := st.(in_quote); begin_depth := st.(begin_depth) |} in
  match st.(in_quote) with
  | Some q =>
      match r with
      | d :: r2 =>
          if N.eqb c BACKSLASH then set_rest_buf r2 (st.(buf) ++ [c; d])
          else {| rest := r; statements := st.(statements); buf := st.(buf) ++ [c];
                  delimiter := st.(delimiter);
                  in_quote := if N.eqb c q then None else Some q;
                  begin_depth := st.(begin_depth) |}
      | [] =>
          {| rest := r; statements := st.(statements); buf := st.(buf) ++ [c];
             delimiter := st.(delimiter);
             in_quote := if N.eqb c q then None else Some q;
             begin_depth := st.(begin_depth) |}
      end
  | None =>
      let here := c :: r in
      if is_line_comment_start here
      then set_rest_buf (drop_while not_nl here) (st.(buf) ++ take_while not_nl here)
      else if N.eqb c SLASH && matches_str r [STAR]
      then let '(t, r') := block_comment (tail r) in
           set_rest_buf r' (st.(buf) ++ [c; STAR] ++ t)
      else if is_quote c
      then {| rest := r; statements := st.(statements); buf := st.(buf) ++ [c];
              delimiter := st.(delimiter); in_quote := Some c;
              begin_depth := st.(begin_depth) |}
      else if bool_decide (trim st.(buf) = []) && matches_delimiter_directive here
      then let after := drop_while ws_not_nl (drop 9 here) in
           let new_delim := trim (take_while not_nl after) in
           {| rest := drop_while not_nl after; statements := st.(statements); buf := [];
              delimiter := match new_delim with [] => st.(delimiter) | _ => new_delim end;
              in_quote := None; begin_depth := st.(begin_depth) |}
      else if match_keyword here (chars_of "BEGIN")
      then {| rest := drop 5 here; statements := st.(statements); buf := st.(buf) ++ take 5 here;
              delimiter := st.(delimiter); in_quote := None;
              begin_depth := S st.(begin_depth) |}
      else if matches_str here st.(delimiter)
      then match st.(begin_depth) with
           | S _ => set_rest_buf (drop (byte_len st.(delimiter)) here) (st.(buf) ++ st.(delimiter))
           | O => {| rest := drop (byte_len st.(delimiter)) here;
                     statements := flush st.(buf) st.(statements); buf := [];
                     delimiter := st.(delimiter); in_quote := None; begin_depth := 0 |}
           end
      else
        let k := drop_while ws_not_nl (drop 3 here) in
        if (Nat.ltb 0 st.(begin_depth) && match_keyword here (chars_of "END")
            && (matches_str k st.(delimiter) || match k with [] => true | _ => false end))%bool
        then {| rest := drop 3 here; statements := st.(statements); buf := st.(buf) ++ take 3 here;
                delimiter := st.(delimiter); in_quote := None;
                begin_depth := st.(begin_depth) - 1 |}
        else set_rest_buf r (st.(buf) ++ [c])
  end.

Fixpoint loop (fuel : nat) (st : state) : state :=
  match fuel with
  | O => st
  | S f => match st.(rest) with
           | [] => st
           | c :: r => loop f (step c r st)
           end
  end.

Definition init (script : list char) : state :=
  {| rest := script; statements := []; buf := []; delimiter := SEMI; in_quote := None;
     begin_depth := 0 |}.

(** [split_sql_script]; every iteration consumes a character, so the length of
    the script is enough fuel ([loop_finishes]). *)
Definition split_sql_script (script : list char) : list (list char) :=
  let st := loop (length script) (init script) in
  flush st.(buf) st.(statements).
End Split.

(** ** Behaviour on small scripts *)

Definition ascii_only (c : char) : bool := false.
Definition split (s : string) : list (list char) := split_sql_script ascii_only (chars_of s).

Example split_simple : split "SELECT 1; SELECT 2;" = chars_of <$> ["SELECT 1"; "SELECT 2"].
Proof. vm_compute. reflexivity. Qed.

Example split_quotes : split "INSERT INTO t VALUES ('a\';b'); SELECT `;`" =
  chars_of <$> ["INSERT INTO t VALUES ('a\';b')"; "SELECT `;`"].
Proof. vm_compute. reflexivity. Qed.

Example split_routine :
  split "DELIMITER $$
CREATE PROCEDURE p() BEGIN INSERT INTO t VALUES (1); END$$ DELIMITER ;
SELECT 1;" =
  chars_of <$> ["CREATE PROCEDURE p() BEGIN INSERT INTO t VALUES (1); END"; "SELECT 1"].
Proof. vm_compute. reflexivity. Qed.

(** A comment-only fragment is returned as a statement. *)
Example split_comment_only : split "SELECT 1; -- done" = chars_of <$> ["SELECT 1"; "-- done"].
Proof. vm_compute. reflexivity. Qed.

(** [BEGIN] at the end of an identifier opens a compound body. *)
Example split_begin_in_identifier :
  split "SELECT xbegin; SELECT 2" = chars_of <$> ["SELECT xbegin; SELECT 2"].
Proof. vm_compute. reflexivity. Qed.

(** A delimiter of one two-byte character (U+00A5) swallows the character that
    follows it. *)
Example split_multibyte_delimiter :
  split_sql_script ascii_only (chars_of "DELIMITER " ++ [165%N; NL] ++ chars_of "SELECT 1"
    ++ [165%N] ++ chars_of "DROP t" ++ [165%N]) = chars_of <$> ["SELECT 1"; "ROP t"].
Proof. vm_compute. reflexivity. Qed.

(** ** Lemmas on the list helpers *)

Lemma drop_take_while {A} (p : A → bool) l : take_while p l ++ drop_while p l = l.
Proof. induction l as [|x l IH]; cbn; [done|]. destruct (p x); cbn; [by rewrite IH|done]. Qed.

Lemma drop_while_length {A} (p : A → bool) l : length (drop_while p l) ≤ length l.
Proof. induction l as [|x l IH]; cbn; [done|]. destruct (p x); cbn; lia. Qed.

Lemma drop_while_idemp {A} (p : A → bool) l : drop_while p (drop_while p l) = drop_while p l.
Proof.
  induction l as [|x l IH]; cbn; [done|]. destruct (p x) eqn:E; [done|]. cbn. by rewrite E.
Qed.

Lemma drop_while_snoc {A} (p : A → bool) l x :
  p x = false → drop_while p (l ++ [x]) = drop_while p l ++ [x].
Proof.
  intros Hx. induction l as [|y l IH]; cbn; [by rewrite Hx|]. by destruct (p y).
Qed.

Lemma drop_while_head {A} (p : A → bool) l x l' : drop_while p l = x :: l' → p x = false.
Proof.
  induction l as [|y l IH]; cbn; [done|]. destruct (p y) eqn:E; [done|]. by intros [= <- _].
Qed.

Lemma trim_idemp s : trim (trim s) = trim s.
Proof.
  unfold trim. destruct (drop_while is_whitespace s) as [|x d] eqn:E; [done|].
  pose proof (drop_while_head _ _ _ _ E) as Hx.
  rewrite reverse_cons, drop_while_snoc by done. rewrite reverse_snoc. cbn [drop_while]. rewrite Hx.
  rewrite reverse_cons, reverse_involutive, drop_while_snoc by done.
  by rewrite drop_while_idemp, reverse_snoc.
Qed.

Lemma trim_nonws x s : is_whitespace x = false → trim (x :: s) ≠ [].
Proof.
  intros Hx. unfold trim. cbn [drop_while]. rewrite Hx, reverse_cons, drop_while_snoc by done.
  rewrite reverse_snoc. done.
Qed.

Lemma block_comment_app r t r' : block_comment r = (t, r') → r = t ++ r'.
Proof.
  revert t r'. induction r as [|c r IH]; intros t r'; cbn; [by intros [= <- <-]|].
  destruct r as [|c1 r2]; [by intros [= <- <-]|].
  destruct (N.eqb c STAR && N.eqb c1 SLASH).
  - by intros [= <- <-].
  - destruct (block_comment (c1 :: r2)) as [t' r0]. intros [= <- <-].
    by rewrite (IH t' r0 eq_refl).
Qed.

Lemma matches_str_app r s : matches_str r s = true ↔ ∃ r', r = s ++ r'.
Proof.
  revert r. induction s as [|x s IH]; intros r; cbn.
  { split; intros _; [by exists r|done]. }
  destruct r as [|c r]; [split; [done|by intros [? [=]]]|].
  rewrite andb_true_iff, N.eqb_eq, IH. split.
  - intros [-> [r' ->]]. by exists r'.
  - intros [r' [= -> ->]]. eauto.
Qed.

Lemma keyword_prefix_length r kw r' :
  keyword_prefix r kw = Some r' → length r = length kw + length r'.
Proof.
  revert r. induction kw as [|k kw IH]; intros r; cbn; [by intros [= ->]|].
  destruct r as [|c r]; [done|]. case_match; [|done]. intros Hr. cbn. by rewrite (IH r Hr).
Qed.

(** ** The loop ends and conserves the text *)

Section Proofs.
Context (unicode_alphanumeric : char → bool).
Implicit Types st : state.

Lemma match_keyword_length r kw :
  match_keyword unicode_alphanumeric r kw = true → length kw ≤ length r.
Proof.
  unfold match_keyword. destruct (keyword_prefix r kw) as [r'|] eqn:E; [|done].
  apply keyword_prefix_length in E. lia.
Qed.

(** What one iteration does to [buf ++ rest] when it neither flushes nor reads
    a directive, and how the suffix shrinks. *)
Lemma step_delimiter c r st :
  st.(delimiter) ≠ [] → (step unicode_alphanumeric c r st).(delimiter) ≠ [].
Proof. unfold step. intros H. repeat case_match; cbn; congruence. Qed.

Lemma byte_len_pos s : s ≠ [] → 1 ≤ byte_len s.
Proof. destruct s as [|c s]; [done|]. cbn. unfold len_utf8. repeat case_match; lia. Qed.

Lemma step_decreases c r st :
  st.(delimiter) ≠ [] → length (step unicode_alphanumeric c r st).(rest) ≤ length r.
Proof.
  intros Hd. unfold step.
  destruct (in_quote st) as [q|].
  { destruct r as [|d r2]; cbn; [lia|]. case_match; cbn; lia. }
  destruct (is_line_comment_start (c :: r)) eqn:Ec.
  { cbn. destruct (not_nl c) eqn:Enl; [apply drop_while_length|].
    unfold not_nl in Enl. apply negb_false_iff, N.eqb_eq in Enl. subst c.
    by destruct r as [|? [|? ?]]. }
  destruct (N.eqb c SLASH && matches_str r [STAR]).
  { destruct (block_comment (tail r)) as [t r'] eqn:E. cbn.
    apply block_comment_app in E. apply (f_equal length) in E. rewrite length_app in E.
    destruct r; cbn in E; cbn; lia. }
  destruct (is_quote c); [done|].
  destruct (bool_decide _ && _).
  { cbn -[drop]. etransitivity; [apply drop_while_length|].
    etransitivity; [apply drop_while_length|]. cbn. rewrite length_drop. lia. }
  destruct (match_keyword _ _ (chars_of "BEGIN")); [cbn; rewrite length_drop; lia|].
  pose proof (byte_len_pos _ Hd) as Hb.
  destruct (matches_str (c :: r) (delimiter st)).
  { destruct (begin_depth st); cbn -[drop]; rewrite length_drop; cbn; lia. }
  case_match; cbn; [rewrite length_drop; lia|done].
Qed.

Lemma loop_finishes fuel st :
  st.(delimiter) ≠ [] → length st.(rest) ≤ fuel →
  (loop unicode_alphanumeric fuel st).(rest) = [].
Proof.
  revert st. induction fuel as [|f IH]; intros st Hd Hf; cbn.
  - destruct (rest st); cbn in Hf; [done|lia].
  - destruct (rest st) as [|c r] eqn:E; [done|]. cbn in Hf. apply IH; [by apply step_delimiter|].
    pose proof (step_decreases c r st Hd). lia.
Qed.

(** The loop run to its end, and its unfolding equation. *)
Definition run (st : state) : state := loop unicode_alphanumeric (length st.(rest)) st.

Lemma loop_enough fuel st :
  st.(delimiter) ≠ [] → length st.(rest) ≤ fuel →
  loop unicode_alphanumeric fuel st = run st.
Proof.
  unfold run. revert fuel st.
  assert (H : ∀ n fuel st, length st.(rest) ≤ n → n ≤ fuel → st.(delimiter) ≠ [] →
    loop unicode_alphanumeric fuel st = loop unicode_alphanumeric n st).
  { intros n. induction n as [|n IH]; intros fuel st Hn Hf Hd.
    - destruct (rest st) eqn:E; [|cbn in Hn; lia]. destruct fuel; cbn; by rewrite ?E.
    - destruct fuel as [|f]; [lia|]. cbn. destruct (rest st) as [|c r] eqn:E; [done|].
      apply IH; [|lia|by apply step_delimiter].
      pose proof (step_decreases c r st Hd). cbn in Hn. lia. }
  intros. by apply H.
Qed.

Lemma run_cons c r st :
  st.(delimiter) ≠ [] → st.(rest) = c :: r → run st = run (step unicode_alphanumeric c r st).
Proof.
  intros Hd E. unfold run at 1. rewrite E. cbn. rewrite E.
  apply loop_enough; [by apply step_delimiter|by apply step_decreases].
Qed.

Lemma run_nil st : st.(rest) = [] → run st = st.
Proof. intros E. unfold run. by rewrite E. Qed.

(** Induction along the iterations of the loop. *)
Lemma run_ind (P : state → Prop) :
  (∀ st, st.(rest) = [] → P st) →
  (∀ st c r, st.(rest) = c :: r → st.(delimiter) ≠ [] →
     P (step unicode_alphanumeric c r st) → P st) →
  ∀ st, st.(delimiter) ≠ [] → P st.
Proof.
  intros Hnil Hcons st. remember (length (rest st)) as n eqn:E. revert st E.
  induction (lt_wf n) as [n _ IH]. intros st -> Hd.
  destruct (rest st) as [|c r] eqn:Er; [by apply Hnil|].
  eapply Hcons; [done..|]. eapply IH; [|done|by apply step_delimiter].
  pose proof (step_decreases c r st Hd). cbn. lia.
Qed.

Lemma split_run script :
  split_sql_script unicode_alphanumeric script =
  flush (run (init script)).(buf) (run (init script)).(statements).
Proof. done. Qed.

(** *** What one iteration does, case by case *)

(** The iteration ends a statement. *)
Definition ends_statement c r st : bool :=
  bool_decide (st.(in_quote) = None) && negb (is_line_comment_start (c :: r))
  && negb (N.eqb c SLASH && matches_str r [STAR]) && negb (is_quote c)
  && negb (bool_decide (trim st.(buf) = []) && matches_delimiter_directive unicode_alphanumeric (c :: r))
  && negb (match_keyword unicode_alphanumeric (c :: r) (chars_of "BEGIN"))
  && matches_str (c :: r) st.(delimiter) && Nat.eqb st.(begin_depth) 0.

Lemma take_drop_app {A} n (l : list A) b : (b ++ take n l) ++ drop n l = b ++ l.
Proof. by rewrite <- (assoc_L (++)), take_drop. Qed.

(** Outside directives, with the delimiter [;], an iteration either moves
    characters from the suffix to [buf], or removes one [;] and flushes. *)
Lemma step_conserves c r st :
  st.(rest) = c :: r → st.(delimiter) = SEMI →
  matches_delimiter_directive unicode_alphanumeric (c :: r) = false →
  let st' := step unicode_alphanumeric c r st in
  st'.(delimiter) = SEMI ∧ (∃ n, st'.(rest) = drop n st.(rest)) ∧
  if ends_statement c r st
  then st.(rest) = SEMI ++ st'.(rest) ∧ st'.(buf) = [] ∧
       st'.(statements) = flush st.(buf) st.(statements) ∧ st'.(in_quote) = None ∧
       st'.(begin_depth) = 0
  else st'.(buf) ++ st'.(rest) = st.(buf) ++ st.(rest) ∧ st'.(statements) = st.(statements).
Proof.
  intros Er Ed Hdir. rewrite Er. unfold step, ends_statement. rewrite Hdir, andb_false_r, Ed.
  destruct (in_quote st) as [q|] eqn:Eq.
  { rewrite bool_decide_false by done. cbn -[drop].
    destruct r as [|d r2]; cbn -[drop]; [|destruct (N.eqb c BACKSLASH)]; cbn -[drop];
      rewrite <- ?(assoc_L (++)); split_and!; try done; first [by exists 1 | by exists 2]. }
  rewrite bool_decide_true by done. cbn [andb negb].
  destruct (is_line_comment_start (c :: r)).
  { cbn [andb negb rest buf statements delimiter]. rewrite <- (assoc_L (++)), drop_take_while.
    split_and!; try done. exists (length (take_while not_nl (c :: r))).
    rewrite <- (drop_take_while not_nl (c :: r)) at 3. by rewrite drop_app_length. }
  destruct (N.eqb c SLASH && matches_str r [STAR]) eqn:Ec.
  { destruct (block_comment (tail r)) as [t r'] eqn:E. cbn [andb negb rest buf statements delimiter].
    apply block_comment_app in E. rewrite andb_true_iff, matches_str_app in Ec.
    destruct Ec as [_ [r2 ->]]. cbn in E. subst r2. split_and!; try done.
    - exists (2 + length t). cbn. by rewrite drop_app_length.
    - rewrite <- !(assoc_L (++)). done. }
  destruct (is_quote c).
  { cbn. rewrite <- (assoc_L (++)). split_and!; try done. by exists 1. }
  cbn [andb negb].
  destruct (match_keyword _ _ (chars_of "BEGIN")).
  { cbn -[take drop]. rewrite take_drop_app. split_and!; try done. by eexists. }
  cbn [andb negb]. destruct (matches_str (c :: r) SEMI) eqn:Es.
  { apply matches_str_app in Es as [r' Es]. cbn in Es. injection Es as -> ->.
    destruct (begin_depth st); cbn; rewrite <- ?(assoc_L (++)); split_and!; try done; by exists 1. }
  cbn [andb]. case_match; cbn -[take drop].
  - rewrite take_drop_app. split_and!; try done. by eexists.
  - rewrite <- (assoc_L (++)). split_and!; try done. by exists 1.
Qed.

Lemma flush_app b sts sts' : flush b (sts ++ sts') = sts ++ flush b sts'.
Proof. unfold flush. case_match; [done|]. by rewrite (assoc_L (++)). Qed.

Definition no_directive (script : list char) : Prop :=
  ∀ n, matches_delimiter_directive unicode_alphanumeric (drop n script) = false.

(** The non-empty trimmed pieces. *)
Definition clean (pieces : list (list char)) : list (list char) :=
  List.filter (λ t, negb (bool_decide (t = []))) (trim <$> pieces).

Lemma flush_clean b sts : flush b sts = sts ++ clean [b].
Proof.
  unfold flush, clean. cbn. destruct (trim b) eqn:E; cbn; [by rewrite (right_id_L [] (++))|done].
Qed.

Lemma clean_app p q : clean (p ++ q) = clean p ++ clean q.
Proof. unfold clean. by rewrite fmap_app, List.filter_app. Qed.

(** Pieces joined with [;]. *)
Fixpoint join_semi (pieces : list (list char)) (last : list char) : list char :=
  match pieces with
  | [] => last
  | p :: ps => p ++ SEMI ++ join_semi ps last
  end.

Lemma run_pieces st :
  st.(delimiter) ≠ [] → st.(delimiter) = SEMI → no_directive st.(rest) →
  ∃ pieces last,
    st.(buf) ++ st.(rest) = join_semi pieces last ∧
    flush (run st).(buf) (run st).(statements) = st.(statements) ++ clean (pieces ++ [last]).
Proof.
  intros Hd. revert st Hd. apply (run_ind (λ st, st.(delimiter) = SEMI → no_directive st.(rest) → _)).
  - intros st Er _ _. rewrite run_nil by done. exists [], (buf st). cbn.
    rewrite Er, (right_id_L [] (++)). by rewrite flush_clean.
  - intros st c r Er Hd IH Ed Hdir.
    pose proof (Hdir 0) as Hdir0. rewrite Er in Hdir0. cbn in Hdir0.
    destruct (step_conserves c r st Er Ed Hdir0) as (Ed' & [n Hn] & Hstep).
    destruct IH as (pieces & last & Hj & Hr); [done| |].
    { intros m. rewrite Hn, drop_drop. apply Hdir. }
    rewrite (run_cons c r) by done.
    destruct (ends_statement c r st).
    + destruct Hstep as (Hrest & Hbuf & Hst & _). exists (buf st :: pieces), last. cbn.
      rewrite Hrest. rewrite Hbuf in Hj. cbn in Hj. rewrite Hj. split; [done|].
      rewrite Hr, Hst, flush_clean. rewrite <- (assoc_L (++)), <- clean_app. done.
    + destruct Hstep as [Hcons Hst]. exists pieces, last. by rewrite <- Hcons, <- Hst.
Qed.

(** Nothing of a script is lost or invented: a script without a DELIMITER
    directive is a sequence of pieces joined by the terminator [;], and the
    statements returned are exactly those pieces, trimmed, the empty ones
    dropped. *)
Theorem split_conserves_text script :
  no_directive script →
  ∃ pieces last, script = join_semi pieces last ∧
    split_sql_script unicode_alphanumeric script = clean (pieces ++ [last]).
Proof.
  intros H. destruct (run_pieces (init script)) as (pieces & last & Hj & Hr); [done..|].
  exists pieces, last. split; [exact Hj|]. rewrite split_run. exact Hr.
Qed.

(** *** Statements are never blank *)

Lemma step_statements_clean c r st (P : list char → Prop) :
  (∀ s, trim s = s → s ≠ [] → P s) →
  Forall P st.(statements) → Forall P (step unicode_alphanumeric c r st).(statements).
Proof.
  intros HP Hf. unfold step.
  repeat (case_match; cbn [statements]; try assumption).
  unfold flush. destruct (trim (buf st)) as [|x t] eqn:E; [done|].
  apply Forall_app. split; [done|]. constructor; [|constructor].
  apply HP; [|done]. rewrite <- E. apply trim_idemp.
Qed.

(** The loop terminates with the fuel given, for every script, having
    consumed all of it, and every statement returned is non-empty and has no
    surrounding whitespace. *)
Theorem split_terminates_clean script :
  (loop unicode_alphanumeric (length script) (init script)).(rest) = [] ∧
  Forall (λ s, s ≠ [] ∧ trim s = s) (split_sql_script unicode_alphanumeric script).
Proof.
  split; [by apply loop_finishes|]. rewrite split_run.
  assert (H : Forall (λ s, s ≠ [] ∧ trim s = s) (run (init script)).(statements)).
  { generalize (eq_refl : (init script).(statements) = []).
    assert (Hg : ∀ st, st.(delimiter) ≠ [] → Forall (λ s, s ≠ [] ∧ trim s = s) st.(statements) →
      Forall (λ s, s ≠ [] ∧ trim s = s) (run st).(statements)).
    { apply (run_ind (λ st, Forall _ st.(statements) → Forall _ (run st).(statements))).
      - intros st Er. by rewrite run_nil.
      - intros st c r Er Hd IH Hf. rewrite (run_cons c r) by done. apply IH.
        apply step_statements_clean; [|done]. auto. }
    intros _. by apply Hg. }
  unfold flush. destruct (trim (buf _)) as [|x t] eqn:E; [done|].
  apply Forall_app. split; [done|]. constructor; [|constructor].
  split; [done|]. rewrite <- E. apply trim_idemp.
Qed.

(** *** Plain text *)

(** No comment, quote, directive or BEGIN starts at this position. *)
Definition plain c r : bool :=
  negb (is_line_comment_start (c :: r)) && negb (N.eqb c SLASH && matches_str r [STAR])
  && negb (is_quote c) && negb (matches_delimiter_directive unicode_alphanumeric (c :: r))
  && negb (match_keyword unicode_alphanumeric (c :: r) (chars_of "BEGIN")).

Fixpoint plain_text (lead tail : list char) : bool :=
  match lead with
  | [] => true
  | c :: lead' => plain c (lead' ++ tail) && plain_text lead' tail
  end.

Definition top (r b : list char) (sts : list (list char)) : state :=
  {| rest := r; statements := sts; buf := b; delimiter := SEMI; in_quote := None;
     begin_depth := 0 |}.

Lemma step_plain c r b sts :
  plain c r = true →
  step unicode_alphanumeric c r (top (c :: r) b sts) =
  if N.eqb c 59 then top r [] (flush b sts) else top r (b ++ [c]) sts.
Proof.
  unfold plain. rewrite !andb_true_iff, !negb_true_iff. intros [[[[H1 H2] H3] H4] H5].
  unfold step, top. cbn [in_quote buf delimiter begin_depth statements rest].
  rewrite H1, H2, H3, H4, H5, andb_false_r. cbn [matches_str SEMI]. rewrite andb_true_r.
  by destruct (N.eqb c 59).
Qed.

(** [str::split(';')]. *)
Fixpoint split_semi (cur r : list char) : list (list char) :=
  match r with
  | [] => [cur]
  | c :: r' => if N.eqb c 59 then cur :: split_semi [] r' else split_semi (cur ++ [c]) r'
  end.

Lemma run_plain r b sts :
  plain_text r [] = true →
  flush (run (top r b sts)).(buf) (run (top r b sts)).(statements) =
  sts ++ clean (split_semi b r).
Proof.
  revert b sts. induction r as [|c r IH]; intros b sts; cbn [plain_text].
  - intros _. rewrite run_nil by done. apply flush_clean.
  - rewrite andb_true_iff, (right_id_L [] (++)). intros [Hc Hr].
    rewrite (run_cons c r) by done. rewrite step_plain by done. cbn [split_semi].
    destruct (N.eqb c 59); rewrite IH by done; [|done].
    by rewrite flush_clean, <- (assoc_L (++)), <- clean_app.
Qed.

(** On plain scripts (no quote, comment, BEGIN or DELIMITER anywhere) the
    splitter is the naive [split(';')] with the blank fragments dropped. *)
Theorem split_plain_is_naive script :
  plain_text script [] = true →
  split_sql_script unicode_alphanumeric script = clean (split_semi [] script).
Proof. intros H. rewrite split_run. exact (run_plain script [] [] H). Qed.

(** *** Quoted text *)

Lemma run_lead lead tail b sts :
  plain_text lead tail = true → 59%N ∉ lead →
  run (top (lead ++ tail) b sts) = run (top tail (b ++ lead) sts).
Proof.
  revert b. induction lead as [|c lead IH]; intros b; cbn [plain_text app].
  - by rewrite (right_id_L [] (++)).
  - rewrite andb_true_iff, not_elem_of_cons. intros [Hc Hl] [Hne Hin].
    rewrite (run_cons c (lead ++ tail)) by done. rewrite step_plain by done.
    rewrite (proj2 (N.eqb_neq c 59)) by congruence. rewrite IH by done.
    by rewrite <- (assoc_L (++)).
Qed.

Lemma run_quoted q body tail b sts :
  q ∉ body → BACKSLASH ∉ body → q ≠ BACKSLASH →
  run {| rest := body ++ q :: tail; statements := sts; buf := b; delimiter := SEMI;
         in_quote := Some q; begin_depth := 0 |} =
  run (top tail (b ++ body ++ [q]) sts).
Proof.
  intros Hq Hb Hqb. revert b Hq Hb. induction body as [|x body IH]; intros b Hq Hb; cbn [app].
  - rewrite (run_cons q tail) by done. unfold step. cbn.
    destruct tail; rewrite ?(proj2 (N.eqb_neq q BACKSLASH)), N.eqb_refl by done; done.
  - rewrite not_elem_of_cons in Hq, Hb. destruct Hq as [Hx Hq], Hb as [Hy Hb].
    rewrite (run_cons x (body ++ q :: tail)) by done.
    assert (Hne : body ++ q :: tail ≠ []) by by destruct body.
    revert IH Hne. generalize (body ++ q :: tail). intros r IH Hne.
    unfold step. cbn. destruct r as [|d r2]; [done|].
    rewrite (proj2 (N.eqb_neq x BACKSLASH)), (proj2 (N.eqb_neq x q)) by congruence.
    rewrite IH by done. by rewrite <- (assoc_L (++)).
Qed.

Definition prepend (pre : list (list char)) st : state :=
  {| rest := st.(rest); statements := pre ++ st.(statements); buf := st.(buf);
     delimiter := st.(delimiter); in_quote := st.(in_quote); begin_depth := st.(begin_depth) |}.

Lemma step_prepend c r pre st :
  step unicode_alphanumeric c r (prepend pre st) = prepend pre (step unicode_alphanumeric c r st).
Proof.
  unfold step, prepend. cbn [in_quote buf delimiter begin_depth statements rest].
  repeat (case_match; try reflexivity).
  by rewrite flush_app.
Qed.

Lemma run_prepend pre st :
  st.(delimiter) ≠ [] → run (prepend pre st) = prepend pre (run st).
Proof.
  revert st. apply (run_ind (λ st, run (prepend pre st) = prepend pre (run st))).
  - intros st Er. by rewrite !run_nil.
  - intros st c r Er Hd IH. rewrite (run_cons c r st), (run_cons c r (prepend pre st)) by done.
    by rewrite step_prepend.
Qed.

Lemma trim_with_quote lead q s : is_quote q = true → trim (lead ++ q :: s) ≠ [].
Proof.
  intros Hq. assert (Hw : is_whitespace q = false).
  { unfold is_quote in Hq. rewrite !orb_true_iff, !N.eqb_eq in Hq.
    by destruct Hq as [[-> | ->] | ->]. }
  unfold trim.
  destruct (drop_while is_whitespace (lead ++ q :: s)) as [|x d] eqn:E.
  - induction lead as [|y lead IH]; cbn in E; [by rewrite Hw in E|].
    destruct (is_whitespace y); [by apply IH|done].
  - pose proof (drop_while_head _ _ _ _ E) as Hx.
    by rewrite reverse_cons, drop_while_snoc, reverse_snoc by done.
Qed.

(** Semicolons inside a quoted literal are not boundaries: after any plain
    lead without a terminator, a literal in single quotes, double quotes or backticks whose
    body has no backslash and not its own quote stays in one statement up to
    the terminator behind it, and splitting goes on afresh after that. *)
Theorem quoted_semicolons_kept lead q body post :
  is_quote q = true → q ∉ body → BACKSLASH ∉ body → 59%N ∉ lead →
  plain_text lead (q :: body ++ q :: SEMI ++ post) = true →
  split_sql_script unicode_alphanumeric (lead ++ q :: body ++ q :: SEMI ++ post) =
  trim (lead ++ q :: body ++ [q]) :: split_sql_script unicode_alphanumeric post.
Proof.
  intros Hq Hbody Hbs Hlead Hplain. rewrite !split_run.
  change (init (lead ++ q :: body ++ q :: SEMI ++ post))
    with (top (lead ++ q :: body ++ q :: SEMI ++ post) [] []).
  assert (q ≠ BACKSLASH) as Hqb by by intros ->.
  assert (is_line_comment_start (q :: body ++ q :: SEMI ++ post) = false ∧ q ≠ SLASH) as [Hlc Hsl].
  { unfold is_quote in Hq. rewrite !orb_true_iff, !N.eqb_eq in Hq.
    destruct Hq as [[-> | ->] | ->]; split; try done; cbn; by destruct (body ++ _). }
  rewrite run_lead by done. rewrite app_nil_l.
  rewrite (run_cons q (body ++ q :: SEMI ++ post)) by done.
  unfold step at 1 2. cbn [in_quote top rest buf statements delimiter begin_depth].
  rewrite Hlc, (proj2 (N.eqb_neq q SLASH)), Hq by done. cbn [andb].
  rewrite run_quoted by done.
  set (b := (lead ++ [q]) ++ body ++ [q]).
  assert (Hb : b = lead ++ q :: body ++ [q]) by (unfold b; by rewrite <- (assoc_L (++))).
  assert (Ht : trim b ≠ []) by (rewrite Hb; by apply trim_with_quote).
  rewrite (run_cons 59%N post) by done.
  rewrite step_plain by by destruct post. cbn [N.eqb Pos.eqb].
  replace (flush b []) with [trim b] by (unfold flush; by destruct (trim b)).
  change (top post [] [trim b]) with (prepend [trim b] (init post)). rewrite <- Hb.
  rewrite run_prepend by done. cbn [prepend buf statements]. by rewrite flush_app.
Qed.
End Proofs.

(** ** Witnesses *)

Example split_conserves_text_witness :
  ∃ pieces last, chars_of "a;b" = join_semi pieces last ∧ split "a;b" = clean (pieces ++ [last]).
Proof.
  apply (split_conserves_text ascii_only (chars_of "a;b")).
  intros [|[|[|n]]]; vm_compute; [done..|]. by destruct n.
Defined.

Example split_plain_is_naive_witness : split "SELECT 1; SELECT 2" = clean (split_semi [] (chars_of "SELECT 1; SELECT 2")).
Proof. apply (split_plain_is_naive ascii_only). vm_compute. reflexivity. Defined.

Example quoted_semicolons_kept_witness :
  split "SELECT 'a;b';SELECT 2" = trim (chars_of "SELECT 'a;b'") :: split "SELECT 2".
Proof.
  apply (quoted_semicolons_kept ascii_only (chars_of "SELECT ") SQ (chars_of "a;b") (chars_of "SELECT 2"));
    [reflexivity | | | | vm_compute; reflexivity].
  all: apply (bool_decide_unpack _); vm_compute; exact I.
Defined.
