(* ===== verification/DdlExec.v ===== *)
(** * Executing approved DDL
    (crates/automation/src/db_handler.rs, execute_ddl_on_target_with_key)

    The single entry through which approved statements reach a target
    database, from the REST workflow and from the MCP tool.  What the control
    database, the credential store and the target answer are arguments;
    [char::to_uppercase] is written out on ASCII and a parameter above it. *)

From S2P Require Import Prelude RustStr SqlSplit.

(** ** Strings and characters *)

(** [str::chars]: UTF-8 decoding. *)
Definition byte_at (c : ascii) : N := N_of_ascii c.
Definition tail_bits (c : ascii) : N := N.land (byte_at c) 63.
Fixpoint utf8_chars (s : string) : list char :=
  match s with
  | EmptyString => []
  | String a r =>
      let b := byte_at a in
      if (b <? 128)%N then b :: utf8_chars r
      else match r with
           | String a1 r1 =>
               if (b <? 224)%N then (N.lor (N.shiftl (N.land b 31) 6) (tail_bits a1)) :: utf8_chars r1
               else match r1 with
                    | String a2 r2 =>
                        if (b <? 240)%N
                        then (N.lor (N.shiftl (N.land b 15) 12)
                               (N.lor (N.shiftl (tail_bits a1) 6) (tail_bits a2))) :: utf8_chars r2
                        else match r2 with
                             | String a3 r3 =>
                                 (N.lor (N.shiftl (N.land b 7) 18)
                                   (N.lor (N.shiftl (tail_bits a1) 12)
                                     (N.lor (N.shiftl (tail_bits a2) 6) (tail_bits a3)))) :: utf8_chars r3
                             | EmptyString => []
                             end
                    | EmptyString => []
                    end
           | EmptyString => []
           end
  end.

(** [char::encode_utf8]. *)
Definition tail_byte (n : N) : ascii := ascii_of_N (N.lor 128 (N.land n 63)).
Definition encode_char (c : char) : string :=
  if (c <? 128)%N then String (ascii_of_N c) ""
  else if (c <? 2048)%N
  then String (ascii_of_N (N.lor 192 (N.shiftr c 6))) (String (tail_byte c) "")
  else if (c <? 65536)%N
  then String (ascii_of_N (N.lor 224 (N.shiftr c 12)))
         (String (tail_byte (N.shiftr c 6)) (String (tail_byte c) ""))
  else String (ascii_of_N (N.lor 240 (N.shiftr c 18)))
         (String (tail_byte (N.shiftr c 12))
           (String (tail_byte (N.shiftr c 6)) (String (tail_byte c) ""))).
Definition string_of_chars (s : list char) : string :=
  foldr (λ c r, encode_char c +:+ r) "" s.

(** [redact] of db_handler.rs. *)
Definition redact (s : string) : string :=
  if contains "connect" s || contains "Connection" s then "database connection failed"
  else if contains "file_path" s || contains "config" s then take_chars 200 s
  else "query execution failed".

(** ** Connections *)

(** The columns of [database_connections] read here. *)
Record Connection := {
  conn_name : string; conn_db_type : string; conn_kind : string; conn_read_only : Z }.

(** [mysql_family_for(..).is_some()] and [backend_for]. *)
Definition mysql_family (db_type : string) : bool :=
  bool_decide (to_ascii_lowercase db_type ∈
    ["mysql"; "doris"; "oceanbase"; "tidb"; "starrocks"; "mariadb"]).
Definition backend_for (db_type : string) : result string unit :=
  if mysql_family db_type then Ok tt
  else if bool_decide (to_ascii_lowercase db_type ∈
    ["postgres"; "postgresql"; "pg"; "sqlite"; "clickhouse"; "sqlserver"; "mssql"])
  then Ok tt else Err ("unsupported db_type: " +:+ to_ascii_lowercase db_type).

Section Ddl.
Context (unicode_alphanumeric : char → bool) (unicode_upper : char → list char).

Definition to_uppercase (s : list char) : list char :=
  mjoin ((λ c, if (c <? 128)%N then [to_ascii_uppercase c] else unicode_upper c) <$> s).
Definition trim_start (s : list char) : list char := drop_while is_whitespace s.

Definition ddl_keywords : list string := ["CREATE"; "ALTER"; "DROP"; "TRUNCATE"; "RENAME"].
Definition is_ddl_statement (sql : list char) : bool :=
  let upper := to_uppercase (trim_start sql) in
  existsb (λ kw, matches_str upper (chars_of kw)) ddl_keywords.

(** The whitelist loop: the first statement refused, if any. *)
Fixpoint refused_statement (statements : list (list char)) : option (list char) :=
  match statements with
  | [] => None
  | stmt :: rest =>
      match trim stmt with
      | [] => refused_statement rest
      | s => if is_ddl_statement s then refused_statement rest else Some s
      end
  end.

(** The execution loop: [backend i s] is the answer to the [i]-th statement
    sent.  The statements sent are returned with the result. *)
Fixpoint run_statements (backend : nat → list char → result string unit) (i : nat)
    (statements : list (list char)) : result string unit * list (list char) :=
  match statements with
  | [] => (Ok tt, [])
  | stmt :: rest =>
      match trim stmt with
      | [] => run_statements backend i rest
      | s => match backend i s with
             | Err msg => (Err (redact msg), [s])
             | Ok _ => let '(r, sent) := run_statements backend (S i) rest in (r, s :: sent)
             end
      end
  end.

(** [loaded] is the connection row and its decrypted password, or the message
    of the failure; [guard] is the separate read of [kind] and [read_only],
    [None] when that read fails. *)
Definition execute_ddl_on_target_with_key (loaded : result string Connection)
    (guard : option Connection) (backend : nat → list char → result string unit)
    (ddl_sql : string) : result string unit * list (list char) :=
  match loaded with
  | Err e => (Err e, [])
  | Ok conn =>
      if bool_decide (to_ascii_lowercase conn.(conn_db_type) = "clickhouse")
      then (Err "ClickHouse does not support transactional DDL execution", [])
      else
      let blocked :=
        match guard with
        | Some g => if negb (g.(conn_read_only) =? 0)%Z then Some "target connection is read-only"
                    else if bool_decide (g.(conn_kind) = "source_drift")
                    then Some "cannot execute DDL on a source_drift connection" else None
        | None => None
        end in
      match blocked with
      | Some e => (Err e, [])
      | None =>
          match backend_for conn.(conn_db_type) with
          | Err e => (Err e, [])
          | Ok _ =>
              let statements := split_sql_script unicode_alphanumeric (utf8_chars ddl_sql) in
              match refused_statement statements with
              | Some s => (Err ("rejected non-DDL statement (only CREATE/ALTER/DROP/TRUNCATE/RENAME allowed): "
                                +:+ redact (string_of_chars s)), [])
              | None => run_statements backend 0 statements
              end
          end
      end
  end.
End Ddl.

(** ** What reaches the target *)

Example utf8_roundtrip_samples :
  (λ s, string_of_chars (utf8_chars s)) <$> ["a¥é中𝄞z"; ""] = ["a¥é中𝄞z"; ""] ∧
  utf8_chars "¥中𝄞" = [165; 20013; 119070]%N.
Proof. by vm_compute. Qed.

(** The statements a script stands for. *)
Definition script_statements (alnum : char → bool) (ddl_sql : string) : list (list char) :=
  filter (λ s, s ≠ []) (trim <$> split_sql_script alnum (utf8_chars ddl_sql)).

Lemma refused_none up sts : refused_statement up sts = None →
  Forall (λ s, is_ddl_statement up s = true) (filter (λ s, s ≠ []) (trim <$> sts)).
Proof.
  induction sts as [|stmt sts IH]; cbn [refused_statement fmap list_fmap]; [by constructor|].
  rewrite filter_cons. destruct (trim stmt) as [|c s] eqn:E.
  - rewrite decide_False by naive_solver. done.
  - rewrite decide_True by done. destruct (is_ddl_statement up (c :: s)) eqn:Ed; [|done].
    intros H. constructor; [done|by apply IH].
Qed.

(** What [run_statements] sends is a prefix of the statements: all of them when
    it succeeds, and otherwise up to the first one that fails. *)
Lemma run_statements_spec backend sts i r sent :
  run_statements backend i sts = (r, sent) →
  let all := filter (λ s, s ≠ []) (trim <$> sts) in
  sent `prefix_of` all ∧
  (∀ k s, S k < length sent → sent !! k = Some s → backend (i + k) s = Ok tt) ∧
  match r with
  | Ok _ => sent = all ∧ ∀ k s, sent !! k = Some s → backend (i + k) s = Ok tt
  | Err e => ∃ k s msg, length sent = S k ∧ sent !! k = Some s ∧ backend (i + k) s = Err msg ∧ e = redact msg
  end.
Proof.
  revert i r sent. induction sts as [|stmt sts IH]; intros i r sent; cbn [run_statements fmap list_fmap].
  - intros [= <- <-]. split_and!; try done; cbn; try lia; by intros k s; rewrite lookup_nil.
  - cbn zeta. rewrite filter_cons. destruct (trim stmt) as [|c s] eqn:E.
    + rewrite decide_False by naive_solver. apply IH.
    + rewrite decide_True by done. destruct (backend i (c :: s)) as [[]|msg] eqn:Eb.
      * destruct (run_statements backend (S i) sts) as [r' sent'] eqn:Er. intros [= -> <-].
        destruct (IH (S i) r sent' Er) as (Hp & Hok & Hr).
        assert (Hsh : ∀ k s', S k < length ((c :: s) :: sent') →
          ((c :: s) :: sent') !! k = Some s' → backend (i + k) s' = Ok tt).
        { intros [|k] s' Hk Hl; [rewrite Nat.add_0_r; by simplify_eq/=|].
          rewrite Nat.add_succ_r. apply (Hok k); [cbn in Hk; lia|done]. }
        split; [by apply prefix_cons|split; [done|]]. destruct r as [u|e].
        { destruct Hr as [-> Hr]. split; [done|]. intros [|k] s' Hl; [rewrite Nat.add_0_r; by simplify_eq/=|].
          rewrite Nat.add_succ_r. by apply (Hr k). }
        destruct Hr as (k & s' & m & Hl & Hk & Hb & He). exists (S k), s', m.
        cbn. rewrite Hl, Nat.add_succ_r. done.
      * intros [= <- <-]. split; [by apply prefix_cons, prefix_nil|split; [cbn; lia|]].
        exists 0, (c :: s), msg. by rewrite Nat.add_0_r.
Qed.

(** The whole contract of an execution. *)
Lemma execute_contract alnum up loaded guard backend ddl_sql r sent :
  execute_ddl_on_target_with_key alnum up loaded guard backend ddl_sql = (r, sent) →
  let all := script_statements alnum ddl_sql in
  sent `prefix_of` all ∧ (r = Ok tt → sent = all) ∧
  (∀ k s, S k < length sent → sent !! k = Some s → backend k s = Ok tt) ∧
  (∀ e, r = Err e → sent ≠ [] → ∃ s msg, last sent = Some s ∧ backend (pred (length sent)) s = Err msg ∧ e = redact msg) ∧
  (sent ≠ [] → Forall (λ s, is_ddl_statement up s = true) all ∧
    ∃ conn, loaded = Ok conn ∧ to_ascii_lowercase conn.(conn_db_type) ≠ "clickhouse" ∧
      backend_for conn.(conn_db_type) = Ok tt ∧
      (guard = None ∨ ∃ g, guard = Some g ∧ g.(conn_read_only) = 0%Z ∧ g.(conn_kind) ≠ "source_drift")).
Proof.
  assert (Hno : ∀ e, (Err e : result string unit, []) = (r, sent) →
    let all := script_statements alnum ddl_sql in
    sent `prefix_of` all ∧ (r = Ok tt → sent = all) ∧
    (∀ k s, S k < length sent → sent !! k = Some s → backend k s = Ok tt) ∧ sent = []).
  { intros e [= <- <-]. split; [apply prefix_nil|]. split; [done|]. by split; [cbn; lia|]. }
  unfold execute_ddl_on_target_with_key. destruct loaded as [conn|e]; [|intros H; naive_solver].
  case_bool_decide as Hch; [intros H; naive_solver|]. cbn zeta.
  destruct (match guard with Some _ => _ | None => _ end) as [e|] eqn:Hg; [intros H; naive_solver|].
  destruct (backend_for (conn_db_type conn)) as [[]|e] eqn:Hb; [|intros H; naive_solver].
  destruct (refused_statement _ _) as [s|] eqn:Href; [intros H; naive_solver|].
  intros H. apply run_statements_spec in H as (Hp & Hok & Hr). split_and!; [done| |done| |].
  - intros ->. by destruct Hr.
  - intros e -> _. destruct Hr as (k & s & msg & Hl & Hk & Hb' & ->). exists s, msg. by rewrite last_lookup, Hl.
  - intros _. split; [by apply refused_none|]. exists conn. split_and!; [done..|].
    destruct guard as [g|]; [right; exists g|by left]. split; [done|].
    destruct (Z.eqb_spec (conn_read_only g) 0); [|done]. cbn in Hg. by case_bool_decide.
Qed.


(** ** Concrete scripts *)

Definition no_upper (c : char) : list char := [c].
Definition ex_target : Connection :=
  {| conn_name := "prod"; conn_db_type := "MySQL"; conn_kind := "target"; conn_read_only := 0 |}.
Definition ex_run (guard : option Connection) (sql : string) : result string unit * list string :=
  let '(r, sent) := execute_ddl_on_target_with_key ascii_only no_upper (Ok ex_target) guard
    (λ _ s, if bool_decide (s = chars_of "DROP TABLE b") then Err "unknown table" else Ok tt) sql in
  (r, string_of_chars <$> sent).

Example ddl_stops_at_failure :
  ex_run (Some ex_target) "create table a(i int); DROP TABLE b; DROP TABLE c" =
    (Err "query execution failed", ["create table a(i int)"; "DROP TABLE b"]).
Proof. by vm_compute. Qed.

Example dml_refused : (ex_run (Some ex_target) "DROP TABLE c; DELETE FROM a").2 = [].
Proof. by vm_compute. Qed.

(** When reading the guard fails, a read-only target is written to. *)
Example guard_fails_open :
  let ro := {| conn_name := "prod"; conn_db_type := "mysql"; conn_kind := "target"; conn_read_only := 1 |} in
  (execute_ddl_on_target_with_key ascii_only no_upper (Ok ro) None (λ _ _, Ok tt) "DROP TABLE c").1 = Ok tt.
Proof. by vm_compute. Qed.

(** The whitelist looks at the beginning of a statement: a changed delimiter
    makes one statement of two. *)
Example delimiter_hides_dml :
  (ex_run (Some ex_target) "DELIMITER //
CREATE TABLE a(i int); DELETE FROM users").2 = ["CREATE TABLE a(i int); DELETE FROM users"].
Proof. by vm_compute. Qed.

