(* ===== verification/Drift.v ===== *)
(** * Schema snapshots and drift detection
    (crates/drift/src/snapshot.rs and diff.rs)

    A snapshot is a tree of BTreeMaps; [compute_drifts] walks two of them.
    The loops that push on [out] are lists of drifts in push order.  The JSON
    printer and SHA-256 are parameters. *)

From S2P Require Import Prelude RustStr BTree Json.

(** ** snapshot.rs *)

Inductive DbType := MySql | Postgres.

Definition from_db_type_str (s : string) : option DbType :=
  let s := to_ascii_lowercase s in
  if decide (s = "mysql") then Some MySql
  else if decide (s = "postgres" ∨ s = "postgresql" ∨ s = "pg") then Some Postgres
  else None.

Definition as_wire_str (d : DbType) : string :=
  match d with MySql => "mysql" | Postgres => "postgres" end.

Record ColumnSchema := {
  col_name : string; ordinal : Z; data_type : string; is_nullable : bool;
  column_default : option string; char_max_length : option Z;
  numeric_precision : option Z; numeric_scale : option Z }.

Record PrimaryKey := { pk_name : option string; pk_columns : list string }.
Record IndexSchema := { ix_name : string; ix_columns : list string; is_unique : bool }.
Record ForeignKey := {
  fk_name : string; fk_columns : list string; ref_schema : option string;
  ref_table : string; ref_columns : list string }.

Record TableSchema := {
  t_schema : string; t_name : string; columns : btree ColumnSchema;
  primary_key : option PrimaryKey; indexes : btree IndexSchema;
  foreign_keys : btree ForeignKey }.

Record SchemaSnapshot := {
  database : string; db_type : DbType; tables : btree TableSchema }.

#[global] Instance ColumnSchema_eq_dec : EqDecision ColumnSchema.
Proof. solve_decision. Defined.
#[global] Instance PrimaryKey_eq_dec : EqDecision PrimaryKey.
Proof. solve_decision. Defined.

Definition qualified_name (t : TableSchema) : string := t.(t_schema) +:+ "." +:+ t.(t_name).

(** The derived [Serialize] implementations: fields in declaration order,
    [None] as null, maps as objects in key order. *)
Definition column_json (c : ColumnSchema) : json :=
  JObj [("name", JStr c.(col_name)); ("ordinal", JInt c.(ordinal));
        ("data_type", JStr c.(data_type)); ("is_nullable", JBool c.(is_nullable));
        ("column_default", jopt JStr c.(column_default));
        ("char_max_length", jopt JInt c.(char_max_length));
        ("numeric_precision", jopt JInt c.(numeric_precision));
        ("numeric_scale", jopt JInt c.(numeric_scale))].
Definition pk_json (p : PrimaryKey) : json :=
  JObj [("name", jopt JStr p.(pk_name)); ("columns", jstrs p.(pk_columns))].
Definition index_json (i : IndexSchema) : json :=
  JObj [("name", JStr i.(ix_name)); ("columns", jstrs i.(ix_columns));
        ("is_unique", JBool i.(is_unique))].
Definition fk_json (f : ForeignKey) : json :=
  JObj [("name", JStr f.(fk_name)); ("columns", jstrs f.(fk_columns));
        ("ref_schema", jopt JStr f.(ref_schema)); ("ref_table", JStr f.(ref_table));
        ("ref_columns", jstrs f.(ref_columns))].
Definition map_json {V} (f : V → json) (m : btree V) : json := JObj (prod_map id f <$> m).
Definition table_json (t : TableSchema) : json :=
  JObj [("schema", JStr t.(t_schema)); ("name", JStr t.(t_name));
        ("columns", map_json column_json t.(columns));
        ("primary_key", jopt pk_json t.(primary_key));
        ("indexes", map_json index_json t.(indexes));
        ("foreign_keys", map_json fk_json t.(foreign_keys))].
Definition snapshot_json (s : SchemaSnapshot) : json :=
  JObj [("database", JStr s.(database)); ("db_type", JStr (as_wire_str s.(db_type)));
        ("tables", map_json table_json s.(tables))].

(** ** diff.rs *)

Inductive DriftKind :=
| TableAdded | TableDropped | ColumnAdded | ColumnDropped | ColumnTypeChanged
| ColumnNullabilityChanged | IndexAdded | IndexDropped | PkChanged | FkAdded | FkDropped.
#[global] Instance DriftKind_eq_dec : EqDecision DriftKind.
Proof. solve_decision. Defined.

Definition kind_wire_str (k : DriftKind) : string :=
  match k with
  | TableAdded => "table_added" | TableDropped => "table_dropped"
  | ColumnAdded => "column_added" | ColumnDropped => "column_dropped"
  | ColumnTypeChanged => "column_type_changed"
  | ColumnNullabilityChanged => "column_nullability_changed"
  | IndexAdded => "index_added" | IndexDropped => "index_dropped"
  | PkChanged => "pk_changed" | FkAdded => "fk_added" | FkDropped => "fk_dropped"
  end.

Record DriftObject := {
  o_schema : option string; o_table : option string;
  o_column : option string; o_index : option string }.

Record DriftEntry := { kind : DriftKind; object : DriftObject; before : json; after : json }.

(** [DriftKindCounts]: eleven [u32] counters. *)
Record DriftKindCounts := {
  n_table_added : Z; n_table_dropped : Z; n_column_added : Z; n_column_dropped : Z;
  n_column_type_changed : Z; n_column_nullability_changed : Z; n_index_added : Z;
  n_index_dropped : Z; n_pk_changed : Z; n_fk_added : Z; n_fk_dropped : Z }.

Definition zero_counts : DriftKindCounts := Build_DriftKindCounts 0 0 0 0 0 0 0 0 0 0 0.

(** [u32] addition, wrapping as in a release build. *)
Definition add32 (a b : Z) : Z := (a + b) mod 2 ^ 32.

Definition total (c : DriftKindCounts) : Z :=
  add32 (add32 (add32 (add32 (add32 (add32 (add32 (add32 (add32 (add32
    c.(n_table_added) c.(n_table_dropped)) c.(n_column_added)) c.(n_column_dropped))
    c.(n_column_type_changed)) c.(n_column_nullability_changed)) c.(n_index_added))
    c.(n_index_dropped)) c.(n_pk_changed)) c.(n_fk_added)) c.(n_fk_dropped).

Definition bump (c : DriftKindCounts) (k : DriftKind) : DriftKindCounts :=
  let '(Build_DriftKindCounts ta td ca cd ct cn ia id pk fa fd) := c in
  match k with
  | TableAdded => Build_DriftKindCounts (add32 ta 1) td ca cd ct cn ia id pk fa fd
  | TableDropped => Build_DriftKindCounts ta (add32 td 1) ca cd ct cn ia id pk fa fd
  | ColumnAdded => Build_DriftKindCounts ta td (add32 ca 1) cd ct cn ia id pk fa fd
  | ColumnDropped => Build_DriftKindCounts ta td ca (add32 cd 1) ct cn ia id pk fa fd
  | ColumnTypeChanged => Build_DriftKindCounts ta td ca cd (add32 ct 1) cn ia id pk fa fd
  | ColumnNullabilityChanged => Build_DriftKindCounts ta td ca cd ct (add32 cn 1) ia id pk fa fd
  | IndexAdded => Build_DriftKindCounts ta td ca cd ct cn (add32 ia 1) id pk fa fd
  | IndexDropped => Build_DriftKindCounts ta td ca cd ct cn ia (add32 id 1) pk fa fd
  | PkChanged => Build_DriftKindCounts ta td ca cd ct cn ia id (add32 pk 1) fa fd
  | FkAdded => Build_DriftKindCounts ta td ca cd ct cn ia id pk (add32 fa 1) fd
  | FkDropped => Build_DriftKindCounts ta td ca cd ct cn ia id pk fa (add32 fd 1)
  end.

Definition summarize (drifts : list DriftEntry) : DriftKindCounts :=
  foldl (λ c d, bump c d.(kind)) zero_counts drifts.

Definition column_type_summary (c : ColumnSchema) : json :=
  JObj [("data_type", JStr c.(data_type)); ("char_max_length", jopt JInt c.(char_max_length));
        ("numeric_precision", jopt JInt c.(numeric_precision));
        ("numeric_scale", jopt JInt c.(numeric_scale))].
Definition column_full (c : ColumnSchema) : json :=
  JObj [("data_type", JStr c.(data_type)); ("is_nullable", JBool c.(is_nullable));
        ("column_default", jopt JStr c.(column_default));
        ("char_max_length", jopt JInt c.(char_max_length));
        ("numeric_precision", jopt JInt c.(numeric_precision));
        ("numeric_scale", jopt JInt c.(numeric_scale))].
Definition pk_summary (pk : PrimaryKey) : json :=
  JObj [("name", jopt JStr pk.(pk_name)); ("columns", jstrs pk.(pk_columns))].
Definition index_summary (ix : IndexSchema) : json :=
  JObj [("columns", jstrs ix.(ix_columns)); ("is_unique", JBool ix.(is_unique))].
Definition fk_summary (fk : ForeignKey) : json :=
  JObj [("columns", jstrs fk.(fk_columns)); ("ref_schema", jopt JStr fk.(ref_schema));
        ("ref_table", JStr fk.(ref_table)); ("ref_columns", jstrs fk.(ref_columns))].
Definition table_summary (t : TableSchema) : json :=
  JObj [("columns", JInt (Z.of_nat (length t.(columns)))); ("indexes", JInt (Z.of_nat (length t.(indexes))));
        ("foreign_keys", JInt (Z.of_nat (length t.(foreign_keys))))].

Definition column_type_differs (a b : ColumnSchema) : bool :=
  negb (bool_decide (a.(data_type) = b.(data_type)))
  || negb (bool_decide (a.(char_max_length) = b.(char_max_length)))
  || negb (bool_decide (a.(numeric_precision) = b.(numeric_precision)))
  || negb (bool_decide (a.(numeric_scale) = b.(numeric_scale))).

Definition object_for_table (t : TableSchema) : DriftObject :=
  {| o_schema := Some t.(t_schema); o_table := Some t.(t_name); o_column := None; o_index := None |}.
Definition object_for_column (t : TableSchema) (col : string) : DriftObject :=
  {| o_schema := Some t.(t_schema); o_table := Some t.(t_name); o_column := Some col; o_index := None |}.
Definition object_for_index (t : TableSchema) (idx : string) : DriftObject :=
  {| o_schema := Some t.(t_schema); o_table := Some t.(t_name); o_column := None; o_index := Some idx |}.
Definition object_for_fk (t : TableSchema) (fk : string) : DriftObject :=
  {| o_schema := Some t.(t_schema); o_table := Some t.(t_name); o_column := None; o_index := Some fk |}.

(** The entries of the first map whose key the second one lacks. *)
Definition missing_in {A B V} (m : btree A) (other : btree B) (f : string → A → V) : list V :=
  flat_map (λ e, if contains_key e.1 other then [] else [f e.1 e.2]) m.

Definition diff_column (prior current : TableSchema) (name : string) (pri cur : ColumnSchema)
    : list DriftEntry :=
  (if column_type_differs pri cur
   then [{| kind := ColumnTypeChanged; object := object_for_column current name;
            before := column_type_summary pri; after := column_type_summary cur |}] else []) ++
  (if negb (Bool.eqb pri.(is_nullable) cur.(is_nullable))
   then [{| kind := ColumnNullabilityChanged; object := object_for_column current name;
            before := JBool pri.(is_nullable); after := JBool cur.(is_nullable) |}] else []).

Definition diff_table_columns (prior current : TableSchema) : list DriftEntry :=
  missing_in current.(columns) prior.(columns) (λ name col,
    {| kind := ColumnAdded; object := object_for_column current name;
       before := JNull; after := column_full col |}) ++
  missing_in prior.(columns) current.(columns) (λ name col,
    {| kind := ColumnDropped; object := object_for_column prior name;
       before := column_full col; after := JNull |}) ++
  flat_map (λ e, match get e.1 current.(columns) with
                 | None => []
                 | Some cur => diff_column prior current e.1 e.2 cur
                 end) prior.(columns).

Definition diff_table_pk (prior current : TableSchema) : list DriftEntry :=
  if decide (prior.(primary_key) = current.(primary_key)) then []
  else [{| kind := PkChanged; object := object_for_table current;
           before := jopt pk_summary prior.(primary_key);
           after := jopt pk_summary current.(primary_key) |}].

Definition diff_table_indexes (prior current : TableSchema) : list DriftEntry :=
  missing_in current.(indexes) prior.(indexes) (λ name ix,
    {| kind := IndexAdded; object := object_for_index current name;
       before := JNull; after := index_summary ix |}) ++
  missing_in prior.(indexes) current.(indexes) (λ name ix,
    {| kind := IndexDropped; object := object_for_index prior name;
       before := index_summary ix; after := JNull |}).

Definition diff_table_fks (prior current : TableSchema) : list DriftEntry :=
  missing_in current.(foreign_keys) prior.(foreign_keys) (λ name fk,
    {| kind := FkAdded; object := object_for_fk current name;
       before := JNull; after := fk_summary fk |}) ++
  missing_in prior.(foreign_keys) current.(foreign_keys) (λ name fk,
    {| kind := FkDropped; object := object_for_fk prior name;
       before := fk_summary fk; after := JNull |}).

Definition diff_table (prior current : TableSchema) : list DriftEntry :=
  diff_table_columns prior current ++ diff_table_pk prior current
  ++ diff_table_indexes prior current ++ diff_table_fks prior current.

Definition compute_drifts (prior current : SchemaSnapshot) : list DriftEntry :=
  missing_in current.(tables) prior.(tables) (λ _ t,
    {| kind := TableAdded; object := object_for_table t;
       before := JNull; after := table_summary t |}) ++
  missing_in prior.(tables) current.(tables) (λ _ t,
    {| kind := TableDropped; object := object_for_table t;
       before := table_summary t; after := JNull |}) ++
  flat_map (λ e, match get e.1 current.(tables) with
                 | None => []
                 | Some cur_table => diff_table e.2 cur_table
                 end) prior.(tables).

(** ** snapshot.rs, [canonical_json] and [canonical_hash] *)

Section Hash.
Context `{Printer} (sha256_hex : string → string).

Definition canonical_json (s : SchemaSnapshot) : string := to_vec (snapshot_json s).
Definition canonical_hash (s : SchemaSnapshot) : string := sha256_hex (canonical_json s).

(** ** runner.rs, steps 7 and 8: the comparison with the prior snapshot *)

Record PriorSnapshotRow := {
  p_id : string; captured_at : string; schema_hash : string; schema_json : string }.

(** [from_str] parses the JSON column; the count is [d.len() as u32]. *)
Definition drifts_since_prior (from_str : string → option SchemaSnapshot)
    (prior : option PriorSnapshotRow) (snapshot : SchemaSnapshot)
    : result string (list DriftEntry * option string * Z) :=
  match prior with
  | Some p =>
      if decide (p.(schema_hash) = canonical_hash snapshot)
      then Ok ([], Some p.(captured_at), 0%Z)
      else prior_snap ← ok_or (from_str p.(schema_json)) "parse prior snapshot json";
           let d := compute_drifts prior_snap snapshot in
           Ok (d, Some p.(captured_at), (Z.of_nat (length d) mod 2 ^ 32)%Z)
  | None => Ok ([], None, 0%Z)
  end.

(** The row a run stores for the next one. *)
Definition snapshot_row (id when : string) (s : SchemaSnapshot) : PriorSnapshotRow :=
  {| p_id := id; captured_at := when; schema_hash := canonical_hash s;
     schema_json := canonical_json s |}.
End Hash.

(** ** Well-formed snapshots *)

Definition wf_table (t : TableSchema) : Prop :=
  wf t.(columns) ∧ wf t.(indexes) ∧ wf t.(foreign_keys).
Definition wf_snapshot (s : SchemaSnapshot) : Prop :=
  wf s.(tables) ∧ ∀ k t, get k s.(tables) = Some t → wf_table t.

(** ** The JSON form determines the snapshot *)

Lemma jopt_inj {A} (f : A → json) o o' :
  (∀ a b, f a = f b → a = b) → (∀ a, f a ≠ JNull) → jopt f o = jopt f o' → o = o'.
Proof.
  intros Hf Hn. destruct o as [a|], o' as [b|]; cbn; intros E; [|by apply Hn in E| |done].
  - by rewrite (Hf _ _ E).
  - by symmetry in E; apply Hn in E.
Qed.
Lemma jopt_JStr o o' : jopt JStr o = jopt JStr o' → o = o'.
Proof. apply jopt_inj; [by intros ?? [= ->]|done]. Qed.
Lemma jopt_JInt o o' : jopt JInt o = jopt JInt o' → o = o'.
Proof. apply jopt_inj; [by intros ?? [= ->]|done]. Qed.
Lemma entries_inj {V} (f : V → json) (m m' : btree V) :
  (∀ a b, f a = f b → a = b) → prod_map id f <$> m = prod_map id f <$> m' → m = m'.
Proof.
  intros Hf. revert m'.
  induction m as [|[k v] m IH]; intros [|[k' v'] m'] E; cbn in E; simplify_eq; [done|].
  match goal with E : f v = f v' |- _ => apply Hf in E as -> end. f_equal. by apply IH.
Qed.

(** Splits an equality of objects into equalities of the fields. *)
Ltac json_fields E :=
  injection E; clear E; intros; subst;
  repeat match goal with
  | H : jopt JStr _ = jopt JStr _ |- _ => apply jopt_JStr in H
  | H : jopt JInt _ = jopt JInt _ |- _ => apply jopt_JInt in H
  | H : JStr <$> _ = JStr <$> _ |- _ => apply (inj (fmap JStr)) in H
  end; subst.

Lemma column_json_inj a b : column_json a = column_json b → a = b.
Proof. destruct a, b. intros E. cbn in E. json_fields E. done. Qed.
Lemma pk_json_inj a b : pk_json a = pk_json b → a = b.
Proof. destruct a, b. intros E. cbn in E. json_fields E. done. Qed.
Lemma index_json_inj a b : index_json a = index_json b → a = b.
Proof. destruct a, b. intros E. cbn in E. json_fields E. done. Qed.
Lemma fk_json_inj a b : fk_json a = fk_json b → a = b.
Proof. destruct a, b. intros E. cbn in E. json_fields E. done. Qed.

Lemma table_json_inj a b : table_json a = table_json b → a = b.
Proof.
  destruct a as [? ? c1 p1 i1 f1], b as [? ? c2 p2 i2 f2]. intros E. cbn in E. json_fields E.
  rewrite (entries_inj column_json c1 c2), (entries_inj index_json i1 i2),
    (entries_inj fk_json f1 f2), (jopt_inj pk_json p1 p2);
    auto using column_json_inj, index_json_inj, fk_json_inj, pk_json_inj.
Qed.

Lemma snapshot_json_inj a b : snapshot_json a = snapshot_json b → a = b.
Proof.
  destruct a as [? d1 t1], b as [? d2 t2]. intros E. cbn in E. json_fields E.
  rewrite (entries_inj table_json t1 t2) by auto using table_json_inj.
  by destruct d1, d2.
Qed.

Lemma float_free_jopt {A} (f : A → json) o : (∀ a, float_free (f a) = true) → float_free (jopt f o) = true.
Proof. destruct o; cbn; auto. Qed.
Lemma float_free_entries {V} (f : V → json) (m : btree V) :
  (∀ a, float_free (f a) = true) →
  forallb (λ e, float_free e.2) (prod_map id f <$> m) = true.
Proof. intros Hf. induction m as [|[k v] m IH]; [done|]. cbn. rewrite Hf. exact IH. Qed.

Create Rewrite HintDb ff.
#[local] Hint Rewrite @float_free_jopt float_free_strs @float_free_entries using
  (intros [] || intros ?; cbn -[jopt]; autorewrite with ff; reflexivity) : ff.

Lemma snapshot_float_free s : float_free (snapshot_json s) = true.
Proof. destruct s. cbn -[jopt]. by autorewrite with ff. Qed.

(** ** What a drift is *)

Section Spec.
Variables (prior current : SchemaSnapshot).

(** A pair of tables present on both sides under one key. *)
Definition common_table (tp tc : TableSchema) : Prop :=
  ∃ k, get k prior.(tables) = Some tp ∧ get k current.(tables) = Some tc.

Inductive drift_of : DriftEntry → Prop :=
| drift_table_added k t : get k current.(tables) = Some t → get k prior.(tables) = None →
    drift_of {| kind := TableAdded; object := object_for_table t;
                before := JNull; after := table_summary t |}
| drift_table_dropped k t : get k prior.(tables) = Some t → get k current.(tables) = None →
    drift_of {| kind := TableDropped; object := object_for_table t;
                before := table_summary t; after := JNull |}
| drift_column_added tp tc n c : common_table tp tc →
    get n tc.(columns) = Some c → get n tp.(columns) = None →
    drift_of {| kind := ColumnAdded; object := object_for_column tc n;
                before := JNull; after := column_full c |}
| drift_column_dropped tp tc n c : common_table tp tc →
    get n tp.(columns) = Some c → get n tc.(columns) = None →
    drift_of {| kind := ColumnDropped; object := object_for_column tp n;
                before := column_full c; after := JNull |}
| drift_column_type tp tc n cp cc : common_table tp tc →
    get n tp.(columns) = Some cp → get n tc.(columns) = Some cc →
    (cp.(data_type), cp.(char_max_length), cp.(numeric_precision), cp.(numeric_scale)) ≠
    (cc.(data_type), cc.(char_max_length), cc.(numeric_precision), cc.(numeric_scale)) →
    drift_of {| kind := ColumnTypeChanged; object := object_for_column tc n;
                before := column_type_summary cp; after := column_type_summary cc |}
| drift_column_null tp tc n cp cc : common_table tp tc →
    get n tp.(columns) = Some cp → get n tc.(columns) = Some cc →
    cp.(is_nullable) ≠ cc.(is_nullable) →
    drift_of {| kind := ColumnNullabilityChanged; object := object_for_column tc n;
                before := JBool cp.(is_nullable); after := JBool cc.(is_nullable) |}
| drift_pk tp tc : common_table tp tc → tp.(primary_key) ≠ tc.(primary_key) →
    drift_of {| kind := PkChanged; object := object_for_table tc;
                before := jopt pk_summary tp.(primary_key);
                after := jopt pk_summary tc.(primary_key) |}
| drift_index_added tp tc n i : common_table tp tc →
    get n tc.(indexes) = Some i → get n tp.(indexes) = None →
    drift_of {| kind := IndexAdded; object := object_for_index tc n;
                before := JNull; after := index_summary i |}
| drift_index_dropped tp tc n i : common_table tp tc →
    get n tp.(indexes) = Some i → get n tc.(indexes) = None →
    drift_of {| kind := IndexDropped; object := object_for_index tp n;
                before := index_summary i; after := JNull |}
| drift_fk_added tp tc n f : common_table tp tc →
    get n tc.(foreign_keys) = Some f → get n tp.(foreign_keys) = None →
    drift_of {| kind := FkAdded; object := object_for_fk tc n;
                before := JNull; after := fk_summary f |}
| drift_fk_dropped tp tc n f : common_table tp tc →
    get n tp.(foreign_keys) = Some f → get n tc.(foreign_keys) = None →
    drift_of {| kind := FkDropped; object := object_for_fk tp n;
                before := fk_summary f; after := JNull |}.
End Spec.

(** The part of the schema the eleven kinds can see. *)
Definition same_keys {A B} (m : btree A) (m' : btree B) : Prop :=
  ∀ k, contains_key k m = contains_key k m'.
Definition same_column (a b : ColumnSchema) : Prop :=
  a.(data_type) = b.(data_type) ∧ a.(is_nullable) = b.(is_nullable) ∧
  a.(char_max_length) = b.(char_max_length) ∧
  a.(numeric_precision) = b.(numeric_precision) ∧ a.(numeric_scale) = b.(numeric_scale).
Record same_table (a b : TableSchema) : Prop := {
  st_columns : same_keys a.(columns) b.(columns);
  st_column n ca cb : get n a.(columns) = Some ca → get n b.(columns) = Some cb → same_column ca cb;
  st_pk : a.(primary_key) = b.(primary_key);
  st_indexes : same_keys a.(indexes) b.(indexes);
  st_fks : same_keys a.(foreign_keys) b.(foreign_keys) }.
Record same_structure (a b : SchemaSnapshot) : Prop := {
  ss_tables : same_keys a.(tables) b.(tables);
  ss_table k ta tb : get k a.(tables) = Some ta → get k b.(tables) = Some tb → same_table ta tb }.

(** ** Membership in the pieces of [compute_drifts] *)

Lemma elem_of_missing_in {A B V} (m : btree A) (o : btree B) (f : string → A → V) d :
  wf m → d ∈ missing_in m o f ↔ ∃ k v, get k m = Some v ∧ get k o = None ∧ d = f k v.
Proof.
  intros Hwf. unfold missing_in. rewrite list_elem_of_In, in_flat_map. setoid_rewrite <- list_elem_of_In.
  split.
  - intros ([k v] & Hin & Hd). apply get_elem_of in Hin; [|done]. cbn in Hd.
    unfold contains_key in Hd. destruct (get k o) eqn:E; [by apply elem_of_nil in Hd|].
    apply list_elem_of_singleton in Hd. eauto.
  - intros (k & v & Hk & Ho & ->). exists (k, v). rewrite <- get_elem_of by done.
    split; [done|]. cbn. unfold contains_key. rewrite Ho. by left.
Qed.

Lemma elem_of_common {A B V} (m : btree A) (o : btree B) (f : string → A → B → list V) d :
  wf m →
  d ∈ flat_map (λ e, match get e.1 o with None => [] | Some c => f e.1 e.2 c end) m ↔
  ∃ k v c, get k m = Some v ∧ get k o = Some c ∧ d ∈ f k v c.
Proof.
  intros Hwf. rewrite list_elem_of_In, in_flat_map. setoid_rewrite <- list_elem_of_In. split.
  - intros ([k v] & Hin & Hd). apply get_elem_of in Hin; [|done]. cbn in Hd.
    destruct (get k o) eqn:E; [eauto 6|by apply elem_of_nil in Hd].
  - intros (k & v & c & Hk & Ho & Hd). exists (k, v). rewrite <- get_elem_of by done.
    split; [done|]. cbn. by rewrite Ho.
Qed.

Lemma column_type_differs_spec a b : column_type_differs a b = true ↔
  (a.(data_type), a.(char_max_length), a.(numeric_precision), a.(numeric_scale)) ≠
  (b.(data_type), b.(char_max_length), b.(numeric_precision), b.(numeric_scale)).
Proof.
  unfold column_type_differs. rewrite !orb_true_iff, !negb_true_iff, !bool_decide_eq_false.
  destruct (decide (data_type a = data_type b)), (decide (char_max_length a = char_max_length b)),
    (decide (numeric_precision a = numeric_precision b)), (decide (numeric_scale a = numeric_scale b));
    split; intros; try congruence; try tauto; naive_solver congruence.
Qed.

Lemma elem_of_if {A} (b : bool) (x d : A) : d ∈ (if b then [x] else []) ↔ b = true ∧ d = x.
Proof. destruct b; rewrite ?list_elem_of_singleton, ?elem_of_nil; naive_solver. Qed.

Lemma neg_eqb_true a b : negb (Bool.eqb a b) = true ↔ a ≠ b.
Proof. destruct a, b; naive_solver. Qed.

Lemma elem_of_diff_pk tp tc d : d ∈ diff_table_pk tp tc ↔
  tp.(primary_key) ≠ tc.(primary_key) ∧
  d = {| kind := PkChanged; object := object_for_table tc;
         before := jopt pk_summary tp.(primary_key); after := jopt pk_summary tc.(primary_key) |}.
Proof.
  unfold diff_table_pk. case_decide; rewrite ?list_elem_of_singleton, ?elem_of_nil; naive_solver.
Qed.

Lemma elem_of_diff_columns tp tc d : wf tp.(columns) → wf tc.(columns) →
  d ∈ diff_table_columns tp tc ↔
  (∃ n c, get n tc.(columns) = Some c ∧ get n tp.(columns) = None ∧
     d = {| kind := ColumnAdded; object := object_for_column tc n; before := JNull; after := column_full c |})
  ∨ (∃ n c, get n tp.(columns) = Some c ∧ get n tc.(columns) = None ∧
     d = {| kind := ColumnDropped; object := object_for_column tp n; before := column_full c; after := JNull |})
  ∨ (∃ n cp cc, get n tp.(columns) = Some cp ∧ get n tc.(columns) = Some cc ∧ d ∈ diff_column tp tc n cp cc).
Proof.
  intros H1 H2. unfold diff_table_columns.
  rewrite !elem_of_app, !elem_of_missing_in by done.
  by rewrite (elem_of_common _ _ (diff_column tp tc)).
Qed.

Lemma elem_of_diff_indexes tp tc d : wf tp.(indexes) → wf tc.(indexes) →
  d ∈ diff_table_indexes tp tc ↔
  (∃ n i, get n tc.(indexes) = Some i ∧ get n tp.(indexes) = None ∧
     d = {| kind := IndexAdded; object := object_for_index tc n; before := JNull; after := index_summary i |})
  ∨ (∃ n i, get n tp.(indexes) = Some i ∧ get n tc.(indexes) = None ∧
     d = {| kind := IndexDropped; object := object_for_index tp n; before := index_summary i; after := JNull |}).
Proof. intros H1 H2. unfold diff_table_indexes. by rewrite elem_of_app, !elem_of_missing_in. Qed.

Lemma elem_of_diff_fks tp tc d : wf tp.(foreign_keys) → wf tc.(foreign_keys) →
  d ∈ diff_table_fks tp tc ↔
  (∃ n f, get n tc.(foreign_keys) = Some f ∧ get n tp.(foreign_keys) = None ∧
     d = {| kind := FkAdded; object := object_for_fk tc n; before := JNull; after := fk_summary f |})
  ∨ (∃ n f, get n tp.(foreign_keys) = Some f ∧ get n tc.(foreign_keys) = None ∧
     d = {| kind := FkDropped; object := object_for_fk tp n; before := fk_summary f; after := JNull |}).
Proof. intros H1 H2. unfold diff_table_fks. by rewrite elem_of_app, !elem_of_missing_in. Qed.

Lemma elem_of_compute_drifts p c d : wf_snapshot p → wf_snapshot c →
  d ∈ compute_drifts p c ↔
  (∃ k t, get k c.(tables) = Some t ∧ get k p.(tables) = None ∧
     d = {| kind := TableAdded; object := object_for_table t; before := JNull; after := table_summary t |})
  ∨ (∃ k t, get k p.(tables) = Some t ∧ get k c.(tables) = None ∧
     d = {| kind := TableDropped; object := object_for_table t; before := table_summary t; after := JNull |})
  ∨ (∃ k tp tc, get k p.(tables) = Some tp ∧ get k c.(tables) = Some tc ∧ d ∈ diff_table tp tc).
Proof.
  intros [Hp _] [Hc _]. unfold compute_drifts.
  rewrite !elem_of_app, !elem_of_missing_in by done.
  by rewrite (elem_of_common _ _ (λ _, diff_table)).
Qed.

Lemma elem_of_diff_column tp tc n cp cc d : d ∈ diff_column tp tc n cp cc ↔
  ((cp.(data_type), cp.(char_max_length), cp.(numeric_precision), cp.(numeric_scale)) ≠
   (cc.(data_type), cc.(char_max_length), cc.(numeric_precision), cc.(numeric_scale)) ∧
   d = {| kind := ColumnTypeChanged; object := object_for_column tc n;
          before := column_type_summary cp; after := column_type_summary cc |})
  ∨ (cp.(is_nullable) ≠ cc.(is_nullable) ∧
     d = {| kind := ColumnNullabilityChanged; object := object_for_column tc n;
            before := JBool cp.(is_nullable); after := JBool cc.(is_nullable) |}).
Proof.
  unfold diff_column. by rewrite elem_of_app, !elem_of_if, column_type_differs_spec, neg_eqb_true.
Qed.

Lemma wf_common p c k tp tc : wf_snapshot p → wf_snapshot c →
  get k p.(tables) = Some tp → get k c.(tables) = Some tc → wf_table tp ∧ wf_table tc.
Proof. intros [_ Hp] [_ Hc] H1 H2. eauto. Qed.

Lemma elem_of_diff_table tp tc d : wf_table tp → wf_table tc →
  d ∈ diff_table tp tc ↔ d ∈ diff_table_columns tp tc ∨ d ∈ diff_table_pk tp tc
    ∨ d ∈ diff_table_indexes tp tc ∨ d ∈ diff_table_fks tp tc.
Proof. intros _ _. unfold diff_table. by rewrite !elem_of_app. Qed.

(** C23. [compute_drifts] reports exactly the drifts of the specification:
    nothing else, and none of the eleven kinds is missed. *)
Theorem compute_drifts_refines p c d : wf_snapshot p → wf_snapshot c →
  d ∈ compute_drifts p c ↔ drift_of p c d.
Proof.
  intros Hp Hc. rewrite elem_of_compute_drifts by done. split.
  - intros [(k & t & H1 & H2 & ->)|[(k & t & H1 & H2 & ->)|(k & tp & tc & H1 & H2 & Hd)]];
      [by econstructor..|].
    destruct (wf_common p c k tp tc Hp Hc H1 H2) as [[? []] [? []]].
    assert (Hcom : common_table p c tp tc) by (by exists k).
    unfold diff_table in Hd. rewrite !elem_of_app, elem_of_diff_columns, elem_of_diff_pk,
      elem_of_diff_indexes, elem_of_diff_fks in Hd by done.
    setoid_rewrite elem_of_diff_column in Hd.
    destruct_or! Hd; destruct_and?; naive_solver eauto using drift_of.
  - assert (Hcom : ∀ tp tc, common_table p c tp tc → d ∈ diff_table tp tc →
      (∃ k tp tc, get k p.(tables) = Some tp ∧ get k c.(tables) = Some tc ∧ d ∈ diff_table tp tc))
      by (intros tp tc (k & ? & ?) ?; eauto 8).
    destruct 1 as [| |tp tc ? ? [k [Hk1 Hk2]]|tp tc ? ? [k [Hk1 Hk2]]|tp tc ? ? ? [k [Hk1 Hk2]]
      |tp tc ? ? ? [k [Hk1 Hk2]]|tp tc [k [Hk1 Hk2]]|tp tc ? ? [k [Hk1 Hk2]]|tp tc ? ? [k [Hk1 Hk2]]
      |tp tc ? ? [k [Hk1 Hk2]]|tp tc ? ? [k [Hk1 Hk2]]]; [by eauto 8..| | | | | | | | |];
    destruct (wf_common p c k tp tc Hp Hc Hk1 Hk2) as [[? []] [? []]]; do 2 right;
      exists k, tp, tc; (split; [done|split; [done|]]); unfold diff_table;
      rewrite !elem_of_app, elem_of_diff_columns, elem_of_diff_pk,
        elem_of_diff_indexes, elem_of_diff_fks by done;
      setoid_rewrite elem_of_diff_column; naive_solver.
Qed.

(** ** When nothing is reported *)

Lemma missing_in_nil {A B V} (m : btree A) (o : btree B) (f : string → A → V) :
  missing_in m o f = [] ↔ ∀ k, contains_key k m = true → contains_key k o = true.
Proof.
  setoid_rewrite contains_key_in at 1. unfold missing_in.
  induction m as [|[k v] m IH]; cbn.
  { split; [|done]. intros _ k Hk. exfalso. by apply (not_elem_of_nil k). }
  rewrite app_nil. setoid_rewrite IH. setoid_rewrite elem_of_cons. cbn.
  destruct (contains_key k o) eqn:E; split.
  - intros [_ H] k' [->|Hk']; auto.
  - intros H. split; [done|]. intros k' Hk'. apply H. by right.
  - by intros [? _].
  - intros H. rewrite (H k) in E by by left. done.
Qed.

Lemma same_keys_nil {A B V W} (m : btree A) (o : btree B) (f : string → A → V) (g : string → B → W) :
  missing_in m o f = [] ∧ missing_in o m g = [] ↔ same_keys m o.
Proof.
  rewrite !missing_in_nil. unfold same_keys. split.
  - intros [H1 H2] k. specialize (H1 k). specialize (H2 k).
    destruct (contains_key k m), (contains_key k o); naive_solver.
  - intros H. split; intros k; by rewrite H.
Qed.

Lemma and_regroup (P Q R : Prop) : P ∧ Q ∧ R ↔ (P ∧ Q) ∧ R.
Proof. tauto. Qed.

Lemma same_keys_sym {A B} (m : btree A) (o : btree B) : same_keys m o ↔ same_keys o m.
Proof. split; intros H k; by rewrite H. Qed.

Lemma common_nil {A B V} (m : btree A) (o : btree B) (f : string → A → B → list V) :
  wf m →
  flat_map (λ e, match get e.1 o with None => [] | Some c => f e.1 e.2 c end) m = [] ↔
  ∀ k v c, get k m = Some v → get k o = Some c → f k v c = [].
Proof.
  intros Hwf. split.
  - intros E k v c H1 H2.
    destruct (f k v c) as [|x l] eqn:Ef; [done|]. exfalso. apply (not_elem_of_nil x).
    rewrite <- E, (elem_of_common m o f) by done. exists k, v, c. rewrite Ef. repeat split; [done..|left].
  - intros H. match goal with |- ?l = [] => destruct l as [|x l'] eqn:E; [done|] end.
    assert (Hx : x ∈ x :: l') by left. rewrite <- E, (elem_of_common m o f) in Hx by done.
    destruct Hx as (k & v & c & H1 & H2 & Hx). rewrite (H k v c H1 H2) in Hx. by apply elem_of_nil in Hx.
Qed.

Lemma diff_column_nil tp tc n cp cc : diff_column tp tc n cp cc = [] ↔ same_column cp cc.
Proof.
  unfold diff_column, same_column, column_type_differs. rewrite app_nil.
  destruct (decide (data_type cp = data_type cc)), (decide (char_max_length cp = char_max_length cc)),
    (decide (numeric_precision cp = numeric_precision cc)), (decide (numeric_scale cp = numeric_scale cc));
    rewrite ?bool_decide_true, ?bool_decide_false by done; cbn; try naive_solver;
    destruct (is_nullable cp), (is_nullable cc); naive_solver.
Qed.

Lemma diff_table_pk_nil tp tc : diff_table_pk tp tc = [] ↔ primary_key tp = primary_key tc.
Proof. unfold diff_table_pk. by case_decide. Qed.

Lemma diff_table_columns_nil tp tc : wf tp.(columns) →
  diff_table_columns tp tc = [] ↔ same_keys tp.(columns) tc.(columns) ∧
    ∀ n cp cc, get n tp.(columns) = Some cp → get n tc.(columns) = Some cc → same_column cp cc.
Proof.
  intros H. unfold diff_table_columns. rewrite !app_nil, (common_nil _ _ (diff_column tp tc)) by done.
  setoid_rewrite diff_column_nil. rewrite and_regroup, same_keys_nil, same_keys_sym. done.
Qed.

Lemma diff_table_nil tp tc : wf_table tp → diff_table tp tc = [] ↔ same_table tp tc.
Proof.
  intros [H _]. unfold diff_table, diff_table_indexes, diff_table_fks.
  rewrite !app_nil, diff_table_columns_nil, diff_table_pk_nil, !same_keys_nil by done.
  rewrite (same_keys_sym (indexes tc)), (same_keys_sym (foreign_keys tc)). split.
  - intros ((? & ?) & ? & ? & ?). by constructor.
  - intros []. done.
Qed.

Lemma compute_drifts_nil p c : wf_snapshot p → compute_drifts p c = [] ↔ same_structure p c.
Proof.
  intros [Hp Ht]. unfold compute_drifts.
  rewrite !app_nil, (common_nil _ _ (λ _, diff_table)), and_regroup, same_keys_nil, same_keys_sym by done.
  split.
  - intros [H1 H2]. constructor; [done|]. intros k ta tb Ha Hb. apply diff_table_nil; eauto.
  - intros [H1 H2]. split; [done|]. intros k ta tb Ha Hb. apply diff_table_nil; eauto.
Qed.

Lemma same_column_refl c : same_column c c.
Proof. done. Qed.
Lemma same_table_refl t : same_table t t.
Proof. constructor; try done. intros n ca cb H1 H2. simplify_eq. done. Qed.
Lemma same_structure_refl s : same_structure s s.
Proof. constructor; [done|]. intros k ta tb H1 H2. simplify_eq. apply same_table_refl. Qed.

(** Nothing is reported exactly when the two snapshots agree on tables,
    column names, types and nullability, primary keys, and the names of indexes
    and foreign keys: defaults, ordinals and the definitions of indexes and
    foreign keys are the blind spots, all of them. *)
Theorem no_drift_iff_same_structure p c : wf_snapshot p →
  compute_drifts p c = [] ↔ same_structure p c.
Proof. apply compute_drifts_nil. Qed.

(** ** Counters *)

(** The counter of a kind. *)
Definition count_of (k : DriftKind) (c : DriftKindCounts) : Z :=
  match k with
  | TableAdded => c.(n_table_added) | TableDropped => c.(n_table_dropped)
  | ColumnAdded => c.(n_column_added) | ColumnDropped => c.(n_column_dropped)
  | ColumnTypeChanged => c.(n_column_type_changed)
  | ColumnNullabilityChanged => c.(n_column_nullability_changed)
  | IndexAdded => c.(n_index_added) | IndexDropped => c.(n_index_dropped)
  | PkChanged => c.(n_pk_changed) | FkAdded => c.(n_fk_added) | FkDropped => c.(n_fk_dropped)
  end.

Definition occurrences (k : DriftKind) (ds : list DriftEntry) : nat :=
  length (filter (λ d, d.(kind) = k) ds).

Lemma count_of_bump k k' c :
  count_of k (bump c k') = if decide (k' = k) then add32 (count_of k c) 1 else count_of k c.
Proof. destruct c, k, k'; reflexivity. Qed.

Lemma add32_mod x y : add32 (x mod 2 ^ 32) y = ((x + y) mod 2 ^ 32)%Z.
Proof. unfold add32. by rewrite Zplus_mod_idemp_l. Qed.

Lemma add32_mod2 x y : add32 (x mod 2 ^ 32) (y mod 2 ^ 32) = ((x + y) mod 2 ^ 32)%Z.
Proof. unfold add32. by rewrite <- Zplus_mod. Qed.

Lemma count_of_foldl k ds : ∀ c x, count_of k c = (x mod 2 ^ 32)%Z →
  count_of k (foldl (λ c d, bump c d.(kind)) c ds) = ((x + Z.of_nat (occurrences k ds)) mod 2 ^ 32)%Z.
Proof.
  unfold occurrences. induction ds as [|d ds IH]; intros c x Hc.
  - cbn. by rewrite Z.add_0_r.
  - cbn [foldl]. rewrite filter_cons. destruct (decide (kind d = k)) as [E|E].
    + rewrite (IH _ (x + 1)%Z); [f_equal; cbn [length]; lia|].
      rewrite count_of_bump, decide_True, Hc by done. apply add32_mod.
    + apply IH. by rewrite count_of_bump, decide_False.
Qed.

Lemma summarize_count k ds :
  count_of k (summarize ds) = (Z.of_nat (occurrences k ds) mod 2 ^ 32)%Z.
Proof. unfold summarize. rewrite (count_of_foldl k ds zero_counts 0); [done|by destruct k]. Qed.

Definition all_kinds : list DriftKind :=
  [TableAdded; TableDropped; ColumnAdded; ColumnDropped; ColumnTypeChanged;
   ColumnNullabilityChanged; IndexAdded; IndexDropped; PkChanged; FkAdded; FkDropped].

Lemma occurrences_cons k d ds :
  occurrences k (d :: ds) = (if decide (d.(kind) = k) then 1 else 0) + occurrences k ds.
Proof. unfold occurrences. rewrite filter_cons. by case_decide. Qed.

Lemma one_kind k0 : sum_list_with (λ k, if decide (k0 = k) then 1 else 0) all_kinds = 1.
Proof. by destruct k0; vm_compute. Qed.

Lemma sum_list_with_add {A} (f g : A → nat) l :
  sum_list_with (λ x, f x + g x) l = sum_list_with f l + sum_list_with g l.
Proof. induction l as [|x l IH]; cbn; lia. Qed.

Lemma sum_list_with_ext {A} (f g : A → nat) l :
  (∀ x, f x = g x) → sum_list_with f l = sum_list_with g l.
Proof. intros H. induction l as [|x l IH]; cbn; [done|]. by rewrite H, IH. Qed.

Lemma occurrences_total ds : sum_list_with (λ k, occurrences k ds) all_kinds = length ds.
Proof.
  induction ds as [|d ds IH]; [done|]. cbn [length]. rewrite <- IH, <- Nat.add_1_l.
  rewrite <- (one_kind d.(kind)), <- sum_list_with_add.
  apply sum_list_with_ext. intros k. apply occurrences_cons.
Qed.

Lemma total_counts (f : DriftKind → nat) c :
  (∀ k, count_of k c = (Z.of_nat (f k) mod 2 ^ 32)%Z) →
  total c = (Z.of_nat (sum_list_with f all_kinds) mod 2 ^ 32)%Z.
Proof.
  intros H. unfold total.
  change (n_table_added c) with (count_of TableAdded c).
  change (n_table_dropped c) with (count_of TableDropped c).
  change (n_column_added c) with (count_of ColumnAdded c).
  change (n_column_dropped c) with (count_of ColumnDropped c).
  change (n_column_type_changed c) with (count_of ColumnTypeChanged c).
  change (n_column_nullability_changed c) with (count_of ColumnNullabilityChanged c).
  change (n_index_added c) with (count_of IndexAdded c).
  change (n_index_dropped c) with (count_of IndexDropped c).
  change (n_pk_changed c) with (count_of PkChanged c).
  change (n_fk_added c) with (count_of FkAdded c).
  change (n_fk_dropped c) with (count_of FkDropped c).
  rewrite !H, !add32_mod2. f_equal. cbn [sum_list_with all_kinds]. lia.
Qed.

(** Each counter of the summary is the number of drifts of its kind and the
    total is their number, as long as they fit in a u32. *)
Theorem summarize_counts ds : (Z.of_nat (length ds) < 2 ^ 32)%Z →
  (∀ k, count_of k (summarize ds) = Z.of_nat (occurrences k ds)) ∧
  total (summarize ds) = Z.of_nat (length ds).
Proof.
  intros Hlen. split.
  - intros k. rewrite summarize_count. apply Z.mod_small. split; [lia|].
    unfold occurrences. pose proof (length_filter (λ d, kind d = k) ds). lia.
  - rewrite (total_counts _ _ (λ k, summarize_count k ds)), occurrences_total.
    apply Z.mod_small. lia.
Qed.

(** ** Hash and comparison *)

Section HashTheorems.
Context `{PrinterLaws} (sha256_hex : string → string).

(** Barring a SHA-256 collision between these two serialisations, two
    snapshots have the same hash exactly when they are the same snapshot. *)
Theorem canonical_hash_iff s1 s2 :
  (sha256_hex (canonical_json s1) = sha256_hex (canonical_json s2) →
   canonical_json s1 = canonical_json s2) →
  canonical_hash sha256_hex s1 = canonical_hash sha256_hex s2 ↔ s1 = s2.
Proof.
  intros Hcoll. split; [|by intros ->]. intros E. apply Hcoll in E.
  apply snapshot_json_inj, to_vec_inj; auto using snapshot_float_free.
Qed.

(** C35. Skipping the diff when the stored hash matches loses nothing: against
    a stored row of snapshot [p], a run reports exactly the drifts from [p]. *)
Theorem hash_shortcut_sound from_str id when p c :
  wf_snapshot p →
  from_str (canonical_json p) = Some p →
  (sha256_hex (canonical_json p) = sha256_hex (canonical_json c) →
   canonical_json p = canonical_json c) →
  drifts_since_prior sha256_hex from_str (Some (snapshot_row sha256_hex id when p)) c =
  Ok (compute_drifts p c, Some when, (Z.of_nat (length (compute_drifts p c)) mod 2 ^ 32)%Z).
Proof.
  intros Hp Hparse Hcoll. cbn. case_decide as E.
  - apply Hcoll in E. assert (p = c) as <-
      by (apply snapshot_json_inj, to_vec_inj; auto using snapshot_float_free).
    by rewrite (proj2 (compute_drifts_nil p p Hp) (same_structure_refl p)).
  - by rewrite Hparse.
Qed.
End HashTheorems.

(** ** Witnesses: a column widened, made nullable, an index and a table added *)

Lemma wf_snapshot_entries s :
  wf s.(tables) → Forall (λ e, wf_table e.2) s.(tables) → wf_snapshot s.
Proof.
  intros Hwf Hall. split; [done|]. intros k t Ht%get_elem_of; [|done].
  rewrite Forall_forall in Hall. exact (Hall (k, t) Ht).
Qed.

Definition ex_col (n ty : string) (len : option Z) (nullable : bool) : ColumnSchema :=
  Build_ColumnSchema n 1 ty nullable None len None None.
Definition ex_table (len : Z) (nullable : bool) (ix : btree IndexSchema) : TableSchema :=
  Build_TableSchema "public" "users"
    [("id", ex_col "id" "int" None false); ("name", ex_col "name" "varchar" (Some len) nullable)]
    (Some (Build_PrimaryKey (Some "users_pkey") ["id"])) ix [].
Definition ex_prior : SchemaSnapshot :=
  Build_SchemaSnapshot "shop" Postgres [("public.users", ex_table 50 false [])].
Definition ex_current : SchemaSnapshot :=
  Build_SchemaSnapshot "shop" Postgres
    [("public.orders", Build_TableSchema "public" "orders" [] None [] []);
     ("public.users", ex_table 100 true [("ix_name", Build_IndexSchema "ix_name" ["name"] false)])].

Lemma ex_prior_wf : wf_snapshot ex_prior.
Proof.
  apply wf_snapshot_entries; [by repeat constructor|]. repeat constructor.
Defined.
Lemma ex_current_wf : wf_snapshot ex_current.
Proof.
  apply wf_snapshot_entries; [by repeat constructor|]. repeat constructor.
Defined.

Example ex_kinds : kind <$> compute_drifts ex_prior ex_current =
  [TableAdded; ColumnTypeChanged; ColumnNullabilityChanged; IndexAdded].
Proof. vm_compute. reflexivity. Qed.

Lemma compute_drifts_refines_witness :
  {| kind := ColumnNullabilityChanged;
     object := {| o_schema := Some "public"; o_table := Some "users"; o_column := Some "name"; o_index := None |};
     before := JBool false; after := JBool true |} ∈ compute_drifts ex_prior ex_current.
Proof.
  apply (compute_drifts_refines ex_prior ex_current); [exact ex_prior_wf|exact ex_current_wf|].
  apply (drift_column_null ex_prior ex_current (ex_table 50 false [])
    (ex_table 100 true [("ix_name", Build_IndexSchema "ix_name" ["name"] false)])
    "name" (ex_col "name" "varchar" (Some 50%Z) false) (ex_col "name" "varchar" (Some 100%Z) true));
    [by exists "public.users"|reflexivity|reflexivity|done].
Defined.

(** An index redefined under its name is not a drift. *)
Definition ex_redefined (unique : bool) : SchemaSnapshot :=
  Build_SchemaSnapshot "shop" Postgres
    [("public.users", ex_table 50 false [("ix_name", Build_IndexSchema "ix_name" ["name"] unique)])].

Lemma no_drift_iff_same_structure_witness :
  wf_snapshot (ex_redefined false) ∧
  same_structure (ex_redefined false) (ex_redefined true).
Proof.
  assert (Hwf : wf_snapshot (ex_redefined false)).
  { apply wf_snapshot_entries; [by repeat constructor|]. repeat constructor. }
  split; [exact Hwf|]. apply (no_drift_iff_same_structure _ _ Hwf). reflexivity.
Defined.

Lemma summarize_counts_witness :
  (Z.of_nat (length (compute_drifts ex_prior ex_current)) < 2 ^ 32)%Z ∧
  total (summarize (compute_drifts ex_prior ex_current)) = 4%Z.
Proof.
  split; [by vm_compute|].
  destruct (summarize_counts (compute_drifts ex_prior ex_current)) as [_ H]; [by vm_compute|].
  rewrite H. by vm_compute.
Defined.

Lemma canonical_hash_iff_witness :
  let _ := tlv_printer in
  canonical_hash (λ s, s) (ex_redefined false) ≠ canonical_hash (λ s, s) (ex_redefined true).
Proof.
  cbn zeta. intros E.
  apply (@canonical_hash_iff tlv_printer tlv_printer_laws (λ s, s)) in E; [|by intros ?].
  discriminate E.
Defined.

Lemma hash_shortcut_sound_witness :
  let _ := tlv_printer in
  let row := snapshot_row (λ s, s) "snap-1" "2025-01-01T00:00:00Z" ex_prior in
  let from_str s := if decide (s = canonical_json ex_prior) then Some ex_prior else None in
  drifts_since_prior (λ s, s) from_str (Some row) ex_current =
    Ok (compute_drifts ex_prior ex_current, Some "2025-01-01T00:00:00Z", 4%Z).
Proof.
  cbn zeta. rewrite (@hash_shortcut_sound tlv_printer tlv_printer_laws (λ s, s)); [by vm_compute| | |].
  - exact ex_prior_wf.
  - by rewrite decide_True.
  - by intros ?.
Defined.
