(* ===== verification/DriftCollector.v ===== *)
(** * From information_schema rows to a snapshot (crates/drift/src/collector.rs)

    The pure half of the collector: the assemblers that fold flat rows into the
    table tree, for MySQL and PostgreSQL.  The queries and their ORDER BY
    belong to the databases: the rows are arbitrary lists here. *)

From S2P Require Import Prelude RustStr BTree Json Drift.

Record MySqlColumnRow := {
  mc_table_name : string; mc_column_name : string; mc_ordinal_position : Z;
  mc_data_type : string; mc_is_nullable : string; mc_column_default : option string;
  mc_char_max_length : option Z; mc_numeric_precision : option Z; mc_numeric_scale : option Z }.

Record MySqlIndexRow := {
  mi_table_name : string; mi_index_name : string; mi_column_name : string;
  mi_seq_in_index : Z; mi_non_unique : Z }.

Record MySqlFkRow := {
  mf_table_name : string; mf_constraint_name : string; mf_column_name : string;
  mf_ordinal_position : Z; mf_ref_table : string; mf_ref_column : string }.

Record PgColumnRow := {
  pc_table_name : string; pc_schema_name : string; pc_column_name : string;
  pc_ordinal_position : Z; pc_data_type : string; pc_is_nullable : string;
  pc_column_default : option string; pc_char_max_length : option Z;
  pc_numeric_precision : option Z; pc_numeric_scale : option Z }.

Record PgIndexRow := {
  pi_table_name : string; pi_index_name : string; pi_schema_name : string;
  pi_is_unique : bool; pi_is_primary : bool; pi_column_names : list string }.

Record PgFkRow := {
  pf_table_name : string; pf_schema_name : string; pf_constraint_name : string;
  pf_ref_table : string; pf_ref_schema : string; pf_columns : list string;
  pf_ref_columns : list string }.

(** ['YES'/'NO'], compared without case. *)
Definition is_nullable_decode (s : string) : bool :=
  negb (bool_decide (to_ascii_lowercase s = "no")).

Definition table_key (schema name : string) : string := schema +:+ "." +:+ name.

(** The table a row creates when it is the first of its key. *)
Definition new_table (schema name : string) : TableSchema :=
  Build_TableSchema schema name [] None [] [].

Definition set_columns (f : btree ColumnSchema → btree ColumnSchema) (t : TableSchema) : TableSchema :=
  Build_TableSchema t.(t_schema) t.(t_name) (f t.(columns)) t.(primary_key) t.(indexes) t.(foreign_keys).
Definition set_primary_key (pk : PrimaryKey) (t : TableSchema) : TableSchema :=
  Build_TableSchema t.(t_schema) t.(t_name) t.(columns) (Some pk) t.(indexes) t.(foreign_keys).
Definition set_indexes (f : btree IndexSchema → btree IndexSchema) (t : TableSchema) : TableSchema :=
  Build_TableSchema t.(t_schema) t.(t_name) t.(columns) t.(primary_key) (f t.(indexes)) t.(foreign_keys).
Definition set_foreign_keys (f : btree ForeignKey → btree ForeignKey) (t : TableSchema) : TableSchema :=
  Build_TableSchema t.(t_schema) t.(t_name) t.(columns) t.(primary_key) t.(indexes) (f t.(foreign_keys)).

(** [tables.entry(key).or_insert_with(new_table)], then a mutation. *)
Definition at_table (schema name : string) (f : TableSchema → TableSchema)
    (tables : btree TableSchema) : btree TableSchema :=
  upsert (table_key schema name) (new_table schema name) f tables.

(** ** MySQL *)

Definition mysql_column (r : MySqlColumnRow) : ColumnSchema :=
  Build_ColumnSchema r.(mc_column_name) (as_i32 r.(mc_ordinal_position)) r.(mc_data_type)
    (is_nullable_decode r.(mc_is_nullable)) r.(mc_column_default) r.(mc_char_max_length)
    r.(mc_numeric_precision) r.(mc_numeric_scale).

Definition assemble_mysql_columns (database_name : string) (rows : list MySqlColumnRow)
    : btree TableSchema :=
  foldl (λ tables r,
    at_table database_name r.(mc_table_name)
      (set_columns (insert r.(mc_column_name) (mysql_column r))) tables) [] rows.

(** The secondary index a row adds a column to; uniqueness is that of the last row. *)
Definition push_index_column (r : MySqlIndexRow) (ix : IndexSchema) : IndexSchema :=
  Build_IndexSchema ix.(ix_name) (ix.(ix_columns) ++ [r.(mi_column_name)])
    (bool_decide (r.(mi_non_unique) = 0%Z)).

(** One turn of the row loop, on the tables and the buffered PK rows. *)
Definition mysql_index_step (database_name : string)
    (st : btree TableSchema * btree (list (Z * string))) (r : MySqlIndexRow)
    : btree TableSchema * btree (list (Z * string)) :=
  let '(tables, pk_columns) := st in
  let tables := at_table database_name r.(mi_table_name) id tables in
  if decide (r.(mi_index_name) = "PRIMARY") then
    (tables, upsert (table_key database_name r.(mi_table_name)) []
       (λ v, v ++ [(r.(mi_seq_in_index), r.(mi_column_name))]) pk_columns)
  else
    (at_table database_name r.(mi_table_name)
       (set_indexes (upsert r.(mi_index_name)
          (Build_IndexSchema r.(mi_index_name) [] (bool_decide (r.(mi_non_unique) = 0%Z)))
          (push_index_column r))) tables, pk_columns).

(** [if let Some(table) = tables.get_mut(&key)]: the PK of one table. *)
Definition mysql_set_pk (tables : btree TableSchema) (e : string * list (Z * string))
    : btree TableSchema :=
  match get e.1 tables with
  | Some t => insert e.1 (set_primary_key
      (Build_PrimaryKey (Some "PRIMARY") (sort_by_key fst e.2).*2) t) tables
  | None => tables
  end.

Definition assemble_mysql_indexes (tables : btree TableSchema) (database_name : string)
    (rows : list MySqlIndexRow) : btree TableSchema :=
  let '(tables, pk_columns) := foldl (mysql_index_step database_name) (tables, []) rows in
  foldl mysql_set_pk tables pk_columns.

(** [buf], keyed by (table, constraint): a map of maps, which has the
    lexicographic order of the pairs. *)
Definition fk_buffer (rows : list MySqlFkRow) : btree (btree (list MySqlFkRow)) :=
  foldl (λ buf r, upsert r.(mf_table_name) []
    (upsert r.(mf_constraint_name) [] (λ g, g ++ [r])) buf) [] rows.

Definition mysql_fk (database_name fk_name : string) (group : list MySqlFkRow) : ForeignKey :=
  let group := sort_by_key mf_ordinal_position group in
  Build_ForeignKey fk_name (mf_column_name <$> group) (Some database_name)
    (default "" (mf_ref_table <$> head group)) (mf_ref_column <$> group).

Definition assemble_mysql_fks (tables : btree TableSchema) (database_name : string)
    (rows : list MySqlFkRow) : btree TableSchema :=
  foldl (λ tables e,
    foldl (λ tables g,
      at_table database_name e.1
        (set_foreign_keys (insert g.1 (mysql_fk database_name g.1 g.2))) tables) tables e.2)
    tables (fk_buffer rows).

(** ** PostgreSQL *)

Definition pg_column (r : PgColumnRow) : ColumnSchema :=
  Build_ColumnSchema r.(pc_column_name) (as_i32 r.(pc_ordinal_position)) r.(pc_data_type)
    (is_nullable_decode r.(pc_is_nullable)) r.(pc_column_default) r.(pc_char_max_length)
    r.(pc_numeric_precision) r.(pc_numeric_scale).

Definition assemble_pg_columns (rows : list PgColumnRow) : btree TableSchema :=
  foldl (λ tables r,
    at_table r.(pc_schema_name) r.(pc_table_name)
      (set_columns (insert r.(pc_column_name) (pg_column r))) tables) [] rows.

Definition pg_index_step (tables : btree TableSchema) (r : PgIndexRow) : btree TableSchema :=
  at_table r.(pi_schema_name) r.(pi_table_name)
    (if r.(pi_is_primary)
     then set_primary_key (Build_PrimaryKey (Some r.(pi_index_name)) r.(pi_column_names))
     else set_indexes (insert r.(pi_index_name)
            (Build_IndexSchema r.(pi_index_name) r.(pi_column_names) r.(pi_is_unique)))) tables.

Definition assemble_pg_indexes (tables : btree TableSchema) (rows : list PgIndexRow)
    : btree TableSchema := foldl pg_index_step tables rows.

Definition pg_fk (r : PgFkRow) : ForeignKey :=
  Build_ForeignKey r.(pf_constraint_name) r.(pf_columns)
    (if is_empty r.(pf_ref_schema) then None else Some r.(pf_ref_schema))
    r.(pf_ref_table) r.(pf_ref_columns).

Definition assemble_pg_fks (tables : btree TableSchema) (rows : list PgFkRow)
    : btree TableSchema :=
  foldl (λ tables r,
    at_table r.(pf_schema_name) r.(pf_table_name)
      (set_foreign_keys (insert r.(pf_constraint_name) (pg_fk r))) tables) tables rows.

(** ** Snapshots from the fetched rows *)

Definition build_snapshot (database : string) (db : DbType) (tables : btree TableSchema)
    : SchemaSnapshot := Build_SchemaSnapshot database db tables.

Definition collect_mysql (database : string) (column_rows : list MySqlColumnRow)
    (index_rows : list MySqlIndexRow) (fk_rows : list MySqlFkRow) : SchemaSnapshot :=
  let tables := assemble_mysql_columns database column_rows in
  let tables := assemble_mysql_indexes tables database index_rows in
  let tables := assemble_mysql_fks tables database fk_rows in
  build_snapshot database MySql tables.

Definition collect_postgres (database : string) (column_rows : list PgColumnRow)
    (index_rows : list PgIndexRow) (fk_rows : list PgFkRow) : SchemaSnapshot :=
  let tables := assemble_pg_columns column_rows in
  let tables := assemble_pg_indexes tables index_rows in
  let tables := assemble_pg_fks tables fk_rows in
  build_snapshot database Postgres tables.

(** ** Steps on different keys commute *)

Lemma at_table_comm s1 t1 s2 t2 f1 f2 m :
  (table_key s1 t1 = table_key s2 t2 → s1 = s2 ∧ t1 = t2 ∧ ∀ v, f1 (f2 v) = f2 (f1 v)) →
  at_table s1 t1 f1 (at_table s2 t2 f2 m) = at_table s2 t2 f2 (at_table s1 t1 f1 m).
Proof.
  intros H. apply upsert_comm. intros E. destruct (H E) as (-> & -> & Hf). done.
Qed.

Lemma table_key_same_schema s t1 t2 : table_key s t1 = table_key s t2 → t1 = t2.
Proof. unfold table_key. intros H. apply str_app_inv_head in H. by simplify_eq. Qed.

Lemma table_key_inj s1 t1 s2 t2 :
  no_char "." s1 = true → no_char "." s2 = true →
  table_key s1 t1 = table_key s2 t2 → s1 = s2 ∧ t1 = t2.
Proof. apply sep_inj. Qed.

Lemma set_columns_comm k1 k2 v1 v2 t : k1 ≠ k2 →
  set_columns (insert k1 v1) (set_columns (insert k2 v2) t) =
  set_columns (insert k2 v2) (set_columns (insert k1 v1) t).
Proof. intros H. unfold set_columns. cbn. by rewrite insert_comm. Qed.

Lemma set_foreign_keys_comm k1 k2 v1 v2 t : k1 ≠ k2 →
  set_foreign_keys (insert k1 v1) (set_foreign_keys (insert k2 v2) t) =
  set_foreign_keys (insert k2 v2) (set_foreign_keys (insert k1 v1) t).
Proof. intros H. unfold set_foreign_keys. cbn. by rewrite insert_comm. Qed.

(** ** PostgreSQL: the row order is irrelevant *)

(** At most one row per column, per index or primary key, per constraint. *)
Definition pg_column_key (r : PgColumnRow) := (r.(pc_schema_name), r.(pc_table_name), r.(pc_column_name)).
Definition pg_index_key (r : PgIndexRow) :=
  (r.(pi_schema_name), r.(pi_table_name),
   if r.(pi_is_primary) then None else Some r.(pi_index_name)).
Definition pg_fk_key (r : PgFkRow) := (r.(pf_schema_name), r.(pf_table_name), r.(pf_constraint_name)).

Lemma pg_columns_order rows rows' :
  Forall (λ r, no_char "." r.(pc_schema_name) = true) rows →
  NoDup (pg_column_key <$> rows) → rows ≡ₚ rows' →
  assemble_pg_columns rows = assemble_pg_columns rows'.
Proof.
  intros HP Hnd Hp. unfold assemble_pg_columns.
  apply (foldl_perm_key _ pg_column_key _ _ _) with (3 := Hnd) (2 := HP); [|done].
  intros r1 r2 m H1 H2 Hne. apply at_table_comm. intros E.
  destruct (table_key_inj _ _ _ _ H2 H1 E) as [E1 E2]. split; [done|split; [done|]]. intros t.
  apply set_columns_comm. intros E3. apply Hne. unfold pg_column_key. congruence.
Qed.

Lemma pg_indexes_order tables rows rows' :
  Forall (λ r, no_char "." r.(pi_schema_name) = true) rows →
  NoDup (pg_index_key <$> rows) → rows ≡ₚ rows' →
  assemble_pg_indexes tables rows = assemble_pg_indexes tables rows'.
Proof.
  intros HP Hnd Hp. unfold assemble_pg_indexes.
  apply (foldl_perm_key _ pg_index_key _ _ _) with (3 := Hnd) (2 := HP); [|done].
  intros r1 r2 m H1 H2 Hne. apply at_table_comm. intros E.
  destruct (table_key_inj _ _ _ _ H2 H1 E) as [E1 E2]. split; [done|split; [done|]]. intros t.
  unfold pg_index_key in Hne. destruct (pi_is_primary r1), (pi_is_primary r2);
    [by rewrite E1, E2 in Hne|done|done|].
  unfold set_indexes. cbn. rewrite insert_comm by congruence. done.
Qed.

Lemma pg_fks_order tables rows rows' :
  Forall (λ r, no_char "." r.(pf_schema_name) = true) rows →
  NoDup (pg_fk_key <$> rows) → rows ≡ₚ rows' →
  assemble_pg_fks tables rows = assemble_pg_fks tables rows'.
Proof.
  intros HP Hnd Hp. unfold assemble_pg_fks.
  apply (foldl_perm_key _ pg_fk_key _ _ _) with (3 := Hnd) (2 := HP); [|done].
  intros r1 r2 m H1 H2 Hne. apply at_table_comm. intros E.
  destruct (table_key_inj _ _ _ _ H2 H1 E) as [E1 E2]. split; [done|split; [done|]]. intros t.
  apply set_foreign_keys_comm. intros E3. apply Hne. unfold pg_fk_key. congruence.
Qed.

(** The PostgreSQL snapshot does not depend on the order in which the
    server returned the rows, when no schema name contains a dot. *)
Theorem pg_snapshot_order_independent db cols cols' idx idx' fks fks' :
  Forall (λ r, no_char "." r.(pc_schema_name) = true) cols →
  Forall (λ r, no_char "." r.(pi_schema_name) = true) idx →
  Forall (λ r, no_char "." r.(pf_schema_name) = true) fks →
  NoDup (pg_column_key <$> cols) → NoDup (pg_index_key <$> idx) → NoDup (pg_fk_key <$> fks) →
  cols ≡ₚ cols' → idx ≡ₚ idx' → fks ≡ₚ fks' →
  collect_postgres db cols idx fks = collect_postgres db cols' idx' fks'.
Proof.
  intros. unfold collect_postgres.
  by rewrite (pg_columns_order cols cols'), (pg_indexes_order _ idx idx'), (pg_fks_order _ fks fks').
Qed.

(** ** MySQL: which reorderings of the rows are invisible *)

Lemma mysql_columns_order db rows rows' :
  NoDup ((λ r, (r.(mc_table_name), r.(mc_column_name))) <$> rows) → rows ≡ₚ rows' →
  assemble_mysql_columns db rows = assemble_mysql_columns db rows'.
Proof.
  intros Hnd Hp. unfold assemble_mysql_columns.
  apply (foldl_perm_key _ _ (λ _, True) _ _) with (3 := Hnd);
    [|by apply Forall_forall|done].
  intros r1 r2 m _ _ Hne. apply at_table_comm. intros E%table_key_same_schema.
  split; [done|split; [done|]]. intros t. apply set_columns_comm. congruence.
Qed.

(** Rows of the primary key and rows of different indexes may change places;
    the rows of one secondary index must keep theirs. *)
Definition indep (x y : MySqlIndexRow) : Prop :=
  x.(mi_index_name) = "PRIMARY" ∨ y.(mi_index_name) = "PRIMARY" ∨
  (x.(mi_table_name), x.(mi_index_name)) ≠ (y.(mi_table_name), y.(mi_index_name)).

Inductive reorder : list MySqlIndexRow → list MySqlIndexRow → Prop :=
| reorder_refl l : reorder l l
| reorder_skip x l l' : reorder l l' → reorder (x :: l) (x :: l')
| reorder_swap x y l : indep x y → reorder (y :: x :: l) (x :: y :: l)
| reorder_trans l1 l2 l3 : reorder l1 l2 → reorder l2 l3 → reorder l1 l3.

(** States with the same tables and, per key, the same PK rows in some order. *)
Definition st_rel (s s' : btree TableSchema * btree (list (Z * string))) : Prop :=
  s.1 = s'.1 ∧ brel (≡ₚ) s.2 s'.2.

#[global] Instance st_rel_preorder : PreOrder st_rel.
Proof.
  split.
  - intros s. split; [done|by apply brel_refl].
  - intros s1 s2 s3 [E1 H1] [E2 H2]. split; [congruence|]. by apply (brel_trans _ _ s2.2 _ _).
Qed.

Lemma mysql_index_step_rel db s s' r :
  st_rel s s' → st_rel (mysql_index_step db s r) (mysql_index_step db s' r).
Proof.
  destruct s as [t pk], s' as [t' pk']. intros [E H]. cbn in E, H. subst t'. cbn.
  case_decide; split; cbn; try done.
  apply brel_upsert; [done..|]. intros v v' Hv. by rewrite Hv.
Qed.

Lemma fold_rel db rows : ∀ s s', st_rel s s' →
  st_rel (foldl (mysql_index_step db) s rows) (foldl (mysql_index_step db) s' rows).
Proof.
  induction rows as [|r rows IH]; intros s s' H; [done|]. cbn. by apply IH, mysql_index_step_rel.
Qed.

(** The part of a step that concerns the table itself. *)
Definition index_row_effect (r : MySqlIndexRow) (t : TableSchema) : TableSchema :=
  if decide (r.(mi_index_name) = "PRIMARY") then t
  else set_indexes (upsert r.(mi_index_name)
         (Build_IndexSchema r.(mi_index_name) [] (bool_decide (r.(mi_non_unique) = 0%Z)))
         (push_index_column r)) t.

Lemma at_table_twice s t f tables :
  at_table s t f (at_table s t id tables) = at_table s t f tables.
Proof. unfold at_table, upsert. by rewrite get_insert, insert_insert. Qed.

Lemma mysql_index_step_tables db s r :
  (mysql_index_step db s r).1 = at_table db r.(mi_table_name) (index_row_effect r) s.1.
Proof.
  destruct s as [t pk]. cbn. unfold index_row_effect. case_decide; cbn; [done|].
  apply at_table_twice.
Qed.

Lemma set_indexes_ext f g t : f t.(indexes) = g t.(indexes) → set_indexes f t = set_indexes g t.
Proof. unfold set_indexes. by intros ->. Qed.

Lemma index_rows_comm x y t : indep x y → x.(mi_table_name) = y.(mi_table_name) →
  index_row_effect x (index_row_effect y t) = index_row_effect y (index_row_effect x t).
Proof.
  intros Hi E. unfold index_row_effect. do 2 case_decide; try done.
  unfold set_indexes. cbn. f_equal. apply upsert_comm. intros E'.
  exfalso. destruct Hi as [|[|Hne]]; [done..|]. apply Hne. congruence.
Qed.

Lemma mysql_index_step_comm db s x y : indep x y →
  st_rel (mysql_index_step db (mysql_index_step db s y) x) (mysql_index_step db (mysql_index_step db s x) y).
Proof.
  intros Hi. split.
  - rewrite !mysql_index_step_tables. apply at_table_comm. intros E%table_key_same_schema.
    split; [done|split; [done|]]. intros t. by apply index_rows_comm.
  - destruct s as [t pk]. unfold mysql_index_step. do 2 case_decide; cbn; try by apply brel_refl.
    apply brel_upsert_comm; [done|]. intros _ v. cbn.
    rewrite <- !app_assoc. apply Permutation_app_head, Permutation_app_comm.
Qed.

Lemma reorder_fold db rows rows' : reorder rows rows' → ∀ s,
  st_rel (foldl (mysql_index_step db) s rows) (foldl (mysql_index_step db) s rows').
Proof.
  induction 1 as [|x l l' _ IH|x y l Hi|l1 l2 l3 _ IH1 _ IH2]; intros s; cbn.
  - done.
  - apply IH.
  - by apply fold_rel, mysql_index_step_comm.
  - exact (transitivity (IH1 s) (IH2 s)).
Qed.

(** What the PK buffer holds for a table. *)
Definition pk_rows (t : string) (rows : list MySqlIndexRow) : list MySqlIndexRow :=
  filter (λ r, r.(mi_table_name) = t ∧ r.(mi_index_name) = "PRIMARY") rows.

Lemma pk_buffer db tables rows :
  let pk := (foldl (mysql_index_step db) (tables, []) rows).2 in
  wf pk ∧ ∀ k v, get k pk = Some v → ∃ t, k = table_key db t ∧
    v = (λ r, (r.(mi_seq_in_index), r.(mi_column_name))) <$> pk_rows t rows.
Proof.
  cbn zeta. unfold pk_rows.
  assert (H : ∀ t, default [] (get (table_key db t) (foldl (mysql_index_step db) (tables, []) rows).2) =
    (λ r, (r.(mi_seq_in_index), r.(mi_column_name))) <$>
    filter (λ r, r.(mi_table_name) = t ∧ r.(mi_index_name) = "PRIMARY") rows).
  { induction rows as [|r rows IH] using rev_ind; intros t; [done|].
    rewrite foldl_snoc, filter_app, fmap_app, <- IH, filter_cons, filter_nil.
    destruct (foldl _ _ rows) as [T pk]. unfold mysql_index_step. cbn [fst snd].
    destruct (decide (mi_index_name r = "PRIMARY")) as [E|E]; cbn [fst snd];
      [|rewrite decide_False by naive_solver; cbn; by rewrite app_nil_r].
    destruct (decide (mi_table_name r = t)) as [<-|Hne].
    - rewrite get_upsert, decide_True by done. reflexivity.
    - rewrite get_upsert_ne; [|by intros H%table_key_same_schema].
      rewrite decide_False by naive_solver. by rewrite app_nil_r. }
  assert (Hk : wf (foldl (mysql_index_step db) (tables, []) rows).2 ∧
    ∀ k, k ∈ (foldl (mysql_index_step db) (tables, []) rows).2.*1 → ∃ t, k = table_key db t).
  { clear H. induction rows as [|r rows [IH1 IH2]] using rev_ind; [split; [by constructor|]; cbn; by intros k ?%elem_of_nil|].
    rewrite foldl_snoc. destruct (foldl _ _ rows) as [T pk]. cbn in *. case_decide; cbn; [|done].
    split; [by apply wf_upsert|]. intros k. unfold upsert. rewrite insert_keys. naive_solver. }
  destruct Hk as [Hwf Hk]. split; [done|]. intros k v Hv.
  destruct (Hk k) as [t ->]; [apply contains_key_in; unfold contains_key; by rewrite Hv|].
  exists t. split; [done|]. by rewrite <- H, Hv.
Qed.

Lemma mysql_indexes_order tables db rows rows' :
  (∀ t, NoDup (mi_seq_in_index <$> pk_rows t rows)) → reorder rows rows' →
  assemble_mysql_indexes tables db rows = assemble_mysql_indexes tables db rows'.
Proof.
  intros Hnd Hr. unfold assemble_mysql_indexes.
  pose proof (reorder_fold db rows rows' Hr (tables, [])) as [E H].
  pose proof (pk_buffer db tables rows) as [Hwf Hpk]. cbn zeta in Hwf, Hpk.
  destruct (foldl _ _ rows) as [T pk], (foldl _ _ rows') as [T' pk']. cbn in *. subst T'.
  apply (foldl_Forall2 _ _ _ _ H). intros [k v] [k' v'] b Hin [E Hv]. cbn in E, Hv. subst k'.
  unfold mysql_set_pk. cbn. case_match; [|done]. do 3 f_equal. f_equal.
  apply (sort_by_key_perm fst); [|done]. apply get_elem_of, Hpk in Hin as (t' & _ & ->); [|done].
  rewrite <- list_fmap_compose. apply Hnd.
Qed.

(** ** MySQL foreign keys *)

Definition fk_rows_of (t c : string) (rows : list MySqlFkRow) : list MySqlFkRow :=
  filter (λ r, r.(mf_table_name) = t ∧ r.(mf_constraint_name) = c) rows.

Definition fk_step (buf : btree (btree (list MySqlFkRow))) (r : MySqlFkRow) :=
  upsert r.(mf_table_name) [] (upsert r.(mf_constraint_name) [] (λ g, g ++ [r])) buf.

Lemma fk_buffer_snoc rows r : fk_buffer (rows ++ [r]) = fk_step (fk_buffer rows) r.
Proof. unfold fk_buffer. by rewrite foldl_snoc. Qed.

Lemma fk_buffer_wf rows :
  wf (fk_buffer rows) ∧ ∀ t inner, get t (fk_buffer rows) = Some inner → wf inner.
Proof.
  induction rows as [|r rows [IH1 IH2]] using rev_ind; [split; [by constructor|done]|].
  rewrite fk_buffer_snoc. split; [by apply wf_upsert|]. intros t inner. unfold fk_step.
  destruct (decide (mf_table_name r = t)) as [<-|Hne].
  - rewrite get_upsert. intros [= <-]. apply wf_upsert.
    destruct (get _ (fk_buffer rows)) eqn:E; [eauto|by constructor].
  - rewrite get_upsert_ne by done. apply IH2.
Qed.

Lemma fk_buffer_get t c rows :
  default [] (get c (default [] (get t (fk_buffer rows)))) = fk_rows_of t c rows.
Proof.
  unfold fk_rows_of. induction rows as [|r rows IH] using rev_ind; [done|].
  rewrite fk_buffer_snoc, filter_app, <- IH, filter_cons, filter_nil. unfold fk_step.
  destruct (decide (mf_table_name r = t)) as [<-|Hne].
  - rewrite get_upsert. cbn [default from_option id].
    destruct (decide (mf_constraint_name r = c)) as [<-|Hne].
    + by rewrite get_upsert, decide_True.
    + rewrite get_upsert_ne, decide_False by (done || naive_solver). by rewrite app_nil_r.
  - rewrite get_upsert_ne, decide_False by (done || naive_solver). by rewrite app_nil_r.
Qed.

Lemma fk_fold_rel rows : ∀ b b', brel (brel (≡ₚ)) b b' →
  brel (brel (≡ₚ)) (foldl fk_step b rows) (foldl fk_step b' rows).
Proof.
  assert (Hr : ∀ v, brel (V := list MySqlFkRow) (≡ₚ) v v) by (intros; by apply brel_refl).
  induction rows as [|r rows IH]; intros b b' H; [done|]. cbn. apply IH.
  apply brel_upsert; [done..|]. intros v v' Hv. apply brel_upsert; [done..|].
  intros g g' Hg. by rewrite Hg.
Qed.

Lemma fk_buffer_perm rows rows' : rows ≡ₚ rows' →
  brel (brel (≡ₚ)) (fk_buffer rows) (fk_buffer rows').
Proof.
  assert (Hr : ∀ v, brel (V := list MySqlFkRow) (≡ₚ) v v) by (intros; by apply brel_refl).
  intros Hp. unfold fk_buffer. fold fk_step.
  change (brel (brel (≡ₚ)) (foldl fk_step [] rows) (foldl fk_step [] rows')).
  generalize (@nil (string * btree (list MySqlFkRow))).
  induction Hp as [|r l l' _ IH|r1 r2 l|l1 l2 l3 _ IH1 _ IH2]; intros b; cbn.
  - by apply brel_refl.
  - apply IH.
  - apply fk_fold_rel, brel_upsert_comm; [done|]. intros _ v.
    apply brel_upsert_comm; [done|]. intros _ g. rewrite <- !app_assoc.
    apply Permutation_app_head, Permutation_app_comm.
  - apply (brel_trans _ _ (foldl fk_step b l2)); [|done..].
    intros x y z Hxy Hyz. by apply (brel_trans _ _ y _ _).
Qed.

Lemma mysql_fk_perm db c g g' :
  NoDup (mf_ordinal_position <$> g) → g ≡ₚ g' → mysql_fk db c g = mysql_fk db c g'.
Proof. intros Hnd Hp. unfold mysql_fk. by rewrite (sort_by_key_perm _ g g'). Qed.

Lemma mysql_fks_order tables db rows rows' :
  (∀ t c, NoDup (mf_ordinal_position <$> fk_rows_of t c rows)) → rows ≡ₚ rows' →
  assemble_mysql_fks tables db rows = assemble_mysql_fks tables db rows'.
Proof.
  intros Hnd Hp. unfold assemble_mysql_fks.
  apply (foldl_Forall2 _ _ _ _ (fk_buffer_perm rows rows' Hp)).
  destruct (fk_buffer_wf rows) as [Hwf Hin].
  intros [t i] [t' i'] b Ht%get_elem_of [E Hi]; [|done]. cbn in E, Hi |- *. subst t'.
  apply (foldl_Forall2 _ _ _ _ Hi). intros [c g] [c' g'] b' Hc%get_elem_of [E Hg]; [|by eapply Hin].
  cbn in E, Hg |- *. subst c'. rewrite (mysql_fk_perm db c g g'); [done| |done].
  pose proof (fk_buffer_get t c rows) as Hget. rewrite Ht in Hget. cbn in Hget.
  rewrite Hc in Hget. cbn in Hget. rewrite Hget. apply Hnd.
Qed.

(** The MySQL snapshot depends on the row order only through the rows of
    each secondary index: primary keys and foreign keys are put in the order of
    their positions, whatever the order the server returned them in. *)
Theorem mysql_snapshot_order_independent db cols cols' idx idx' fks fks' :
  NoDup ((λ r, (r.(mc_table_name), r.(mc_column_name))) <$> cols) →
  (∀ t, NoDup (mi_seq_in_index <$> pk_rows t idx)) →
  (∀ t c, NoDup (mf_ordinal_position <$> fk_rows_of t c fks)) →
  cols ≡ₚ cols' → reorder idx idx' → fks ≡ₚ fks' →
  collect_mysql db cols idx fks = collect_mysql db cols' idx' fks'.
Proof.
  intros. unfold collect_mysql.
  by rewrite (mysql_columns_order db cols cols'), (mysql_indexes_order _ db idx idx'),
    (mysql_fks_order _ db fks fks').
Qed.

(** ** Snapshots from the collector are well-formed *)

Lemma wf_snapshot_at_table db d tables s t f :
  wf_snapshot (Build_SchemaSnapshot db d tables) →
  (∀ tb, wf_table tb → wf_table (f tb)) →
  wf_snapshot (Build_SchemaSnapshot db d (at_table s t f tables)).
Proof.
  intros [H1 H2] Hf. cbn in *. split; cbn; [by apply wf_upsert|]. intros k tb. unfold at_table.
  destruct (decide (table_key s t = k)) as [<-|Hne].
  - rewrite get_upsert. intros [= <-]. apply Hf.
    destruct (get _ tables) eqn:E; [eauto|]. by repeat constructor.
  - rewrite get_upsert_ne by done. apply H2.
Qed.

Lemma wf_snapshot_foldl {A} db d (f : btree TableSchema → A → btree TableSchema) l : ∀ tables,
  (∀ ts a, wf_snapshot (Build_SchemaSnapshot db d ts) → wf_snapshot (Build_SchemaSnapshot db d (f ts a))) →
  wf_snapshot (Build_SchemaSnapshot db d tables) →
  wf_snapshot (Build_SchemaSnapshot db d (foldl f tables l)).
Proof. induction l as [|a l IH]; intros tables Hf H; [done|]. cbn. apply IH; auto. Qed.

Lemma wf_set_columns n c tb : wf_table tb → wf_table (set_columns (insert n c) tb).
Proof. intros (? & ? & ?). by split; [apply wf_insert|]. Qed.
Lemma wf_set_foreign_keys n c tb : wf_table tb → wf_table (set_foreign_keys (insert n c) tb).
Proof. intros (? & ? & ?). split; [done|split; [done|by apply wf_insert]]. Qed.
Lemma wf_set_indexes f tb : (∀ m, wf m → wf (f m)) → wf_table tb → wf_table (set_indexes f tb).
Proof. intros Hf (? & ? & ?). split; [done|split; [by apply Hf|done]]. Qed.

#[local] Hint Resolve wf_snapshot_at_table wf_set_columns wf_set_foreign_keys wf_set_indexes
  wf_insert wf_upsert : wfs.

Lemma wf_empty db d : wf_snapshot (Build_SchemaSnapshot db d []).
Proof. split; [by constructor|done]. Qed.

(** Every snapshot the PostgreSQL collector builds is well-formed: the
    precondition of the theorems on drifts holds for it. *)
Theorem collect_postgres_wf db cols idx fks : wf_snapshot (collect_postgres db cols idx fks).
Proof.
  unfold collect_postgres, build_snapshot. apply wf_snapshot_foldl; [eauto with wfs|].
  apply wf_snapshot_foldl.
  - intros ts r H. apply wf_snapshot_at_table; [done|]. intros tb Htb.
    case_match; [exact Htb|eauto with wfs].
  - apply wf_snapshot_foldl; [eauto with wfs|apply wf_empty].
Qed.

(** Every snapshot the MySQL collector builds is well-formed. *)
Theorem collect_mysql_wf db cols idx fks : wf_snapshot (collect_mysql db cols idx fks).
Proof.
  unfold collect_mysql, build_snapshot. apply wf_snapshot_foldl.
  { intros ts e H. apply wf_snapshot_foldl; eauto with wfs. }
  unfold assemble_mysql_indexes.
  destruct (foldl (mysql_index_step db) _ idx) as [T pk] eqn:E.
  apply wf_snapshot_foldl.
  - intros ts [k v] [H1 H2]. unfold mysql_set_pk. cbn in *. case_match eqn:Hk; [|done].
    split; cbn; [by apply wf_insert|]. intros k' tb.
    destruct (decide (k = k')) as [<-|Hne]; [rewrite get_insert; intros [= <-]|rewrite get_insert_ne by done; eauto].
    destruct (H2 _ _ Hk) as (? & ? & ?). done.
  - revert pk T E. induction idx as [|r idx IH] using rev_ind; intros pk T E.
    { injection E as <- <-. apply wf_snapshot_foldl; [eauto with wfs|apply wf_empty]. }
    rewrite foldl_snoc in E. destruct (foldl _ _ idx) as [T0 pk0].
    pose proof (mysql_index_step_tables db (T0, pk0) r) as HT. rewrite E in HT. cbn in HT. subst T.
    apply wf_snapshot_at_table; [by eapply IH|]. intros tb Htb. unfold index_row_effect.
    case_decide; [done|eauto with wfs].
Qed.

(** ** Witnesses and corner cases *)

Definition ex_pg_col (s t c : string) (n : Z) : PgColumnRow :=
  Build_PgColumnRow t s c n "integer" "NO" None None (Some 32%Z) (Some 0%Z).
Definition ex_pg_cols : list PgColumnRow :=
  [ex_pg_col "public" "orders" "id" 1; ex_pg_col "public" "users" "id" 1;
   ex_pg_col "audit" "users" "id" 1].
Definition ex_pg_idx : list PgIndexRow :=
  [Build_PgIndexRow "users" "users_pkey" "public" true true ["id"];
   Build_PgIndexRow "users" "ix" "public" false false ["id"]].
Definition ex_pg_fks : list PgFkRow :=
  [Build_PgFkRow "orders" "public" "fk1" "users" "public" ["id"] ["id"];
   Build_PgFkRow "orders" "public" "fk2" "users" "audit" ["id"] ["id"]].

Lemma pg_snapshot_order_independent_witness :
  collect_postgres "shop" ex_pg_cols ex_pg_idx ex_pg_fks =
  collect_postgres "shop" (rev ex_pg_cols) (rev ex_pg_idx) (rev ex_pg_fks).
Proof.
  apply pg_snapshot_order_independent;
    [repeat constructor|repeat constructor|repeat constructor
    |by apply (bool_decide_unpack _); vm_compute|by apply (bool_decide_unpack _); vm_compute
    |by apply (bool_decide_unpack _); vm_compute
    |apply Permutation_rev..].
Defined.

(** A composite key and a composite constraint, fetched backwards. *)
Definition ex_my_idx : list MySqlIndexRow :=
  [Build_MySqlIndexRow "t" "PRIMARY" "a" 1 0; Build_MySqlIndexRow "t" "PRIMARY" "b" 2 0;
   Build_MySqlIndexRow "t" "ix" "c" 1 1].
Definition ex_my_idx' : list MySqlIndexRow :=
  [Build_MySqlIndexRow "t" "PRIMARY" "b" 2 0; Build_MySqlIndexRow "t" "PRIMARY" "a" 1 0;
   Build_MySqlIndexRow "t" "ix" "c" 1 1].
Definition ex_my_fks : list MySqlFkRow :=
  [Build_MySqlFkRow "t" "fk" "a" 1 "u" "x"; Build_MySqlFkRow "t" "fk" "b" 2 "u" "y"].
Definition ex_my_cols : list MySqlColumnRow :=
  [Build_MySqlColumnRow "t" "a" 1 "int" "NO" None None None None;
   Build_MySqlColumnRow "t" "b" 2 "int" "YES" None None None None].

Lemma mysql_snapshot_order_independent_witness :
  collect_mysql "shop" ex_my_cols ex_my_idx ex_my_fks =
  collect_mysql "shop" (rev ex_my_cols) ex_my_idx' (rev ex_my_fks).
Proof.
  apply mysql_snapshot_order_independent.
  - by apply (bool_decide_unpack _); vm_compute.
  - intros t. unfold pk_rows, ex_my_idx. rewrite !filter_cons, filter_nil.
    repeat case_decide; cbn; repeat (constructor; [set_solver|]); constructor.
  - intros t c. unfold fk_rows_of, ex_my_fks. rewrite !filter_cons, filter_nil.
    repeat case_decide; cbn; repeat (constructor; [set_solver|]); constructor.
  - apply Permutation_rev.
  - apply reorder_swap. by left.
  - apply Permutation_rev.
Defined.

(** The rows of a secondary index are taken as they come: swapping them changes
    the snapshot. *)
Example secondary_index_rows_keep_order :
  let rows := [Build_MySqlIndexRow "t" "ix" "a" 1 1; Build_MySqlIndexRow "t" "ix" "b" 2 1] in
  collect_mysql "shop" [] rows [] ≠ collect_mysql "shop" [] (rev rows) [].
Proof. by vm_compute. Qed.

(** Two PostgreSQL tables whose quoted names contain dots share one key: the
    second one disappears into the first. *)
Example dotted_names_collide :
  fst <$> tables (collect_postgres "shop"
    [ex_pg_col "a.b" "c" "x" 1; ex_pg_col "a" "b.c" "y" 1] [] []) = ["a.b.c"].
Proof. reflexivity. Qed.
