(* ===== verification/Health.v ===== *)
(** * Health checks: alert state machine, configuration and one run
    (crates/health_check/src/alert.rs, config.rs, runner.rs)

    The alert state of a task is a table of rows keyed by metric, each row the
    strings and integers SQLite stores.  What the source database answers
    (connection, canary statement, collected metrics), whether a webhook is
    delivered, JSON text, Unicode lower-casing and the iteration order of a
    [HashSet] are parameters. *)

From S2P Require Import Prelude RustStr BTree Json.
From stdpp Require Import gmap.

(** ** config.rs *)

Record MetricFlags := {
  f_connectivity : bool; f_row_count : bool; f_missing_pk : bool; f_connection_count : bool }.

Record HealthCheckTaskConfig := {
  metrics : MetricFlags; fail_threshold : Z; large_table_threshold : Z;
  connection_count_threshold : Z; retention_days : Z }.

Definition default_metrics : MetricFlags := Build_MetricFlags true true true true.
Definition default_config : HealthCheckTaskConfig :=
  Build_HealthCheckTaskConfig default_metrics 3 10000000 100 30.

(** [ConfigError::OutOfRange]. *)
Record OutOfRange := { oor_field : string; oor_min : Z; oor_max : Z; oor_value : Z }.

Definition validate (c : HealthCheckTaskConfig) : result OutOfRange unit :=
  if negb ((1 <=? c.(fail_threshold)) && (c.(fail_threshold) <=? 10))%Z then
    Err (Build_OutOfRange "fail_threshold" 1 10 c.(fail_threshold))
  else if negb ((1 <=? c.(retention_days)) && (c.(retention_days) <=? 365))%Z then
    Err (Build_OutOfRange "retention_days" 1 365 c.(retention_days))
  else Ok tt.

(** The derived parser is an argument. *)
Definition from_json_or_default (parse : string → option HealthCheckTaskConfig) (raw : string)
    : HealthCheckTaskConfig := default default_config (parse raw).

(** ** alert.rs: the state machine *)

Inductive AlertState := SOk | SFailing (count : Z) | SAlerting.

Definition as_db_str (s : AlertState) : string :=
  match s with SOk => "ok" | SFailing _ => "failing" | SAlerting => "alerting" end.
Definition fail_count (s : AlertState) : Z :=
  match s with SFailing count => count | _ => 0 end.

Inductive Severity := Critical | Warning | Info.
Inductive Trigger := Alert | Resolved.

Record AlertChange := { metric : string; severity : Severity; trigger : Trigger; detail : json }.

Definition with_detail (d : json) (c : AlertChange) : AlertChange :=
  Build_AlertChange c.(metric) c.(severity) c.(trigger) d.

(** [count + 1] on a [u32], wrapping as in a release build. *)
Definition evaluate_threshold_metric (current : option AlertState) (failing : bool)
    (threshold : Z) (m : string) (sev : Severity) : AlertState * option AlertChange :=
  match default SOk current, failing with
  | SAlerting, false => (SOk, Some (Build_AlertChange m sev Resolved (JObj [])))
  | SFailing _, false => (SOk, None)
  | SOk, false => (SOk, None)
  | SOk, true => (SFailing 1, None)
  | SFailing count, true =>
      let next := ((count + 1) mod 2 ^ 32)%Z in
      if (threshold <=? next)%Z
      then (SAlerting, Some (Build_AlertChange m sev Alert (JObj [("consecutive_failures", JInt next)])))
      else (SFailing next, None)
  | SAlerting, true => (SAlerting, None)
  end.

(** ** collector.rs: what a collection returns *)

Record ConnectivityResult := { conn_ok : bool; latency_ms : Z; conn_error : option string }.
Record MetricsSnapshot := {
  connectivity : ConnectivityResult;
  row_count : option (list (string * Z));
  missing_pk : option (list string);
  connection_count : option Z;
  snap_db_type : string;
  unsupported_metrics : list (string * string) }.

Definition connectivity_only_snapshot (db_type : string) (c : ConnectivityResult)
    (flags : MetricFlags) : MetricsSnapshot :=
  Build_MetricsSnapshot c None None None db_type
    ((if flags.(f_row_count) then [("row_count", "unsupported_db_type")] else []) ++
     (if flags.(f_missing_pk) then [("missing_pk", "unsupported_db_type")] else []) ++
     (if flags.(f_connection_count) then [("connection_count", "unsupported_db_type")] else [])).

Definition evaluate_connectivity (current : option AlertState) (probe : ConnectivityResult)
    (threshold : Z) : AlertState * option AlertChange :=
  let '(new_state, change) :=
    evaluate_threshold_metric current (negb probe.(conn_ok)) threshold "connectivity" Critical in
  (new_state, with_detail (JObj [("latency_ms", JInt probe.(latency_ms));
                                 ("error", jopt JStr probe.(conn_error))]) <$> change).

Definition over_threshold (top_tables : list (string * Z)) (limit : Z) : list (string * Z) :=
  filter (λ e, (limit ≤ e.2)%Z) top_tables.

Definition evaluate_row_count (current : option AlertState) (top_tables : list (string * Z))
    (large_table_threshold fail_threshold : Z) : AlertState * option AlertChange :=
  let over := over_threshold top_tables large_table_threshold in
  let '(new_state, change) :=
    evaluate_threshold_metric current (negb (bool_decide (over = []))) fail_threshold "row_count" Warning in
  (new_state, with_detail (JObj [("large_tables", JArr ((λ e,
     JObj [("table", JStr e.1); ("estimated_rows", JInt e.2)]) <$> over))]) <$> change).

Definition evaluate_connection_count (current : option AlertState) (count : option Z)
    (connection_count_threshold fail_threshold : Z) : AlertState * option AlertChange :=
  let failing := match count with Some c => (connection_count_threshold <=? c)%Z | None => false end in
  let '(new_state, change) :=
    evaluate_threshold_metric current failing fail_threshold "connection_count" Warning in
  (new_state, with_detail (JObj [("current", jopt JInt count);
                                 ("threshold", JInt connection_count_threshold)]) <$> change).

Definition detail_last_missing (d : option json) : option (list string) :=
  v ← d; l ← jget "last_missing" v; arr ← as_array l; Some (omap (M:=list) as_str arr).
Definition detail_for_missing_pk (tables : list string) : json :=
  JObj [("last_missing", jstrs tables)].

Definition missing_change (t : string) : AlertChange :=
  Build_AlertChange "missing_pk" Warning Alert (JObj [("table", JStr t)]).
Definition restored_change (t : string) : AlertChange :=
  Build_AlertChange "missing_pk" Info Resolved (JObj [("table", JStr t)]).

(** A row of [health_alert_state]: state, fail_count, detail (NULL is [None]). *)
Record AlertRow := { r_state : string; r_fail_count : Z; r_detail : option string }.
Notation AlertTable := (gmap string AlertRow).

Section Health.
Context `{Printer, Reader}.
(** The order in which a [HashSet] is iterated. *)
Context (hash_iter : gset string → list string).
(** [str::to_lowercase] beyond ASCII. *)
Context (to_lowercase : string → string).

Definition evaluate_missing_pk (prior_tables : option (list string)) (tables : list string)
    : list string * list AlertChange :=
  match prior_tables with
  | None => (tables, [])
  | Some prior =>
      let prior : gset string := list_to_set prior in
      let current : gset string := list_to_set tables in
      let newly_missing := filter (λ t, t ∉ prior) (hash_iter current) in
      let restored := filter (λ t, t ∉ current) (hash_iter prior) in
      (tables, (missing_change <$> newly_missing) ++ (restored_change <$> restored))
  end.

(** ** alert.rs: persistence *)

Definition load_metric_state (tbl : AlertTable) (m : string)
    : result string (option (AlertState * option json)) :=
  match tbl !! m with
  | None => Ok None
  | Some row =>
      state ← (if decide (row.(r_state) = "ok") then Ok SOk
               else if decide (row.(r_state) = "alerting") then Ok SAlerting
               else if decide (row.(r_state) = "failing")
               then Ok (SFailing (Z.max row.(r_fail_count) 0 mod 2 ^ 32))
               else Err "invalid health_alert_state.state");
      let d := match row.(r_detail) with
               | Some s => if is_empty s then None else from_str s
               | None => None
               end in
      Ok (Some (state, d))
  end.

Definition persist_metric_state (tbl : AlertTable) (m : string) (s : AlertState)
    (d : option json) : AlertTable :=
  <[m := Build_AlertRow (as_db_str s) (fail_count s)
           (Some (match d with Some v => to_vec v | None => "" end))]> tbl.

(** [.ok().flatten()]: an unreadable row counts as a first run. *)
Definition prior_of (tbl : AlertTable) (m : string) : option (AlertState * option json) :=
  match load_metric_state tbl m with Ok o => o | Err _ => None end.

(** ** runner.rs *)

Definition threshold_part (tbl : AlertTable) (m : string)
    (ev : option AlertState → AlertState * option AlertChange) : AlertTable * list AlertChange :=
  let '(new_state, change) := ev (fst <$> prior_of tbl m) in
  (persist_metric_state tbl m new_state None, option_list change).

Definition missing_pk_part (tbl : AlertTable) (tables : list string) : AlertTable * list AlertChange :=
  let prior_tables := p ← prior_of tbl "missing_pk"; detail_last_missing p.2 in
  let '(persisted_set, pk_changes) := evaluate_missing_pk prior_tables tables in
  (persist_metric_state tbl "missing_pk" SOk (Some (detail_for_missing_pk persisted_set)), pk_changes).

(** A part that runs only when the metric was collected. *)
Definition if_collected {A} (o : option A) (part : AlertTable → A → AlertTable * list AlertChange)
    (st : AlertTable * list AlertChange) : AlertTable * list AlertChange :=
  match o with
  | Some a => let '(tbl, cs) := part st.1 a in (tbl, st.2 ++ cs)
  | None => st
  end.

Definition evaluate_all (tbl : AlertTable) (snapshot : MetricsSnapshot) (config : HealthCheckTaskConfig)
    : AlertTable * list AlertChange :=
  let st := threshold_part tbl "connectivity" (λ cur,
    evaluate_connectivity cur snapshot.(connectivity) config.(fail_threshold)) in
  let st := if_collected snapshot.(row_count) (λ tbl stats,
    threshold_part tbl "row_count" (λ cur,
      evaluate_row_count cur stats config.(large_table_threshold) config.(fail_threshold))) st in
  let st := if_collected snapshot.(connection_count) (λ tbl count,
    threshold_part tbl "connection_count" (λ cur,
      evaluate_connection_count cur (Some count) config.(connection_count_threshold)
        config.(fail_threshold))) st in
  if_collected snapshot.(missing_pk) missing_pk_part st.

Definition redact_error (e : string) : string := first_line_chars 300 "health_check run error" e.
Definition redact_sqlx_err (s : string) : string := first_line_chars 200 "driver error" s.

(** The canary: creating a temporary table must fail for lack of privilege. *)
Definition run_canary_mysql (create : result string unit) : result string unit :=
  match create with
  | Ok _ => Err "source account is writable; refusing to run health_check"
  | Err e =>
      let s := to_lowercase e in
      if contains "access denied" s || contains "permission" s || contains "create" s
         || contains "privilege" s
      then Ok tt else Err ("canary probe failed: " +:+ redact_sqlx_err s)
  end.
Definition run_canary_pg (create : result string unit) : result string unit :=
  match create with
  | Ok _ => Err "source account is writable; refusing to run health_check"
  | Err e =>
      let s := to_lowercase e in
      if contains "permission" s || contains "privilege" s
      then Ok tt else Err ("canary probe failed: " +:+ redact_sqlx_err s)
  end.

(** What the source answers during one run. *)
Record Source := {
  src_db_type : string; src_kind : string;
  decrypt : result string unit;
  connect : result string unit;
  create_canary : result string unit;
  collected : MetricsSnapshot }.

(** Steps 3 to 6 of [run_task_inner]: the alert table after the run, and the
    error that ended it or the snapshot and its changes. *)
Definition collect_and_evaluate (tbl : AlertTable) (src : Source) (config : HealthCheckTaskConfig)
    : AlertTable * result string (MetricsSnapshot * list AlertChange) :=
  let supported canary :=
    match (_ ← src.(connect);
           if decide (src.(src_kind) = "source_drift") then canary src.(create_canary) else Ok tt) with
    | Err e => (tbl, Err e)
    | Ok _ => let '(tbl', changes) := evaluate_all tbl src.(collected) config in
              (tbl', Ok (src.(collected), changes))
    end in
  match src.(decrypt) with
  | Err e => (tbl, Err ("credential decrypt failed: " +:+ e))
  | Ok _ =>
      if decide (src.(src_db_type) = "mysql") then supported run_canary_mysql
      else if decide (src.(src_db_type) = "postgres") then supported run_canary_pg
      else (tbl, Ok (connectivity_only_snapshot src.(src_db_type)
              (Build_ConnectivityResult false 0 (Some ("unsupported db_type: " +:+ src.(src_db_type))))
              config.(metrics), []))
  end.

Definition count_collected (s : MetricsSnapshot) : Z :=
  1 + (if s.(row_count) then 1 else 0) + (if s.(missing_pk) then 1 else 0)
    + (if s.(connection_count) then 1 else 0).

Record RunOutcome := {
  status : string; metrics_collected : Z; alert_changes : Z; webhook_status : string }.

(** Step 7: one delivery per change; [url] is the first webhook of the task. *)
Definition deliver_all (deliver : AlertChange → bool) (url : option string)
    (changes : list AlertChange) : string :=
  match changes, url with
  | [], _ => "skipped"
  | _, None => "skipped"
  | _, Some _ => if forallb deliver changes then "ok" else "failed"
  end.

(** What a run writes: its row of [health_check_results] (status and error) and
    the end of its [task_run_history] row (status and error). *)
Record RunRows := { res_status : string; res_error : option string;
                    hist_status : string; hist_error : option string }.

Definition run_task (tbl : AlertTable) (src : Source) (config : HealthCheckTaskConfig)
    (deliver : AlertChange → bool) (url : option string)
    : AlertTable * RunRows * result string RunOutcome :=
  match collect_and_evaluate tbl src config with
  | (tbl', Err e) =>
      let redacted := redact_error e in
      (tbl', Build_RunRows "failed" (Some redacted) "failed" (Some redacted), Err e)
  | (tbl', Ok (snapshot, changes)) =>
      let run_status := match snapshot.(unsupported_metrics) with [] => "success" | _ => "partial" end in
      (tbl', Build_RunRows run_status None "succeeded" None,
       Ok (Build_RunOutcome run_status (count_collected snapshot)
             (Z.of_nat (length changes) mod 2 ^ 32) (deliver_all deliver url changes)))
  end.
End Health.

(** ** The state machine against its specification *)

(** The number of failing samples at the end of a history. *)
Definition streak (bs : list bool) : nat := foldl (λ n (b : bool), if b then S n else 0) 0 bs.

(** The failures needed for an alert: a threshold below two acts as two. *)
Definition needed (threshold : Z) : Z := Z.max 2 threshold.

Definition expected_state (threshold : Z) (bs : list bool) : AlertState :=
  let k := Z.of_nat (streak bs) in
  if (k =? 0)%Z then SOk else if (k <? needed threshold)%Z then SFailing k else SAlerting.

Definition expected_triggers (threshold : Z) (bs : list bool) (b : bool) : list Trigger :=
  if b then (if (Z.of_nat (streak (bs ++ [b])) =? needed threshold)%Z then [Alert] else [])
  else (if (needed threshold <=? Z.of_nat (streak bs))%Z then [Resolved] else []).

Definition is_u32 (x : Z) : Prop := (0 ≤ x < 2 ^ 32)%Z.

Lemma streak_snoc bs b : streak (bs ++ [b]) = if b then S (streak bs) else 0.
Proof. unfold streak. by rewrite foldl_snoc. Qed.

(** The state a history leaves: nothing before the first sample. *)
Definition history_state (threshold : Z) (bs : list bool) : option AlertState :=
  match bs with [] => None | _ => Some (expected_state threshold bs) end.

Lemma history_state_default th bs : default SOk (history_state th bs) = expected_state th bs.
Proof. by destruct bs. Qed.

(** Decides the comparisons of the goal and closes the impossible cases. *)
#[local] Ltac z_cases :=
  repeat match goal with
  | |- context [(?a =? ?b)%Z] => destruct (Z.eqb_spec a b)
  | |- context [(?a <? ?b)%Z] => destruct (Z.ltb_spec a b)
  | |- context [(?a <=? ?b)%Z] => destruct (Z.leb_spec a b)
  end; try lia; (split; [by f_equal; lia|split; [done|by repeat constructor]]).

Lemma threshold_step th bs b m sev : is_u32 th →
  let '(st, change) := evaluate_threshold_metric (history_state th bs) b th m sev in
  st = expected_state th (bs ++ [b]) ∧
  trigger <$> option_list change = expected_triggers th bs b ∧
  Forall (λ c, c.(metric) = m) (option_list change).
Proof.
  intros Hth. unfold is_u32 in Hth. unfold evaluate_threshold_metric. rewrite history_state_default.
  unfold expected_triggers, expected_state, needed. rewrite streak_snoc.
  destruct (Z.eqb_spec (Z.of_nat (streak bs)) 0) as [E0|E0].
  - destruct b; rewrite ?E0; cbn -[Z.of_nat Z.eqb]; z_cases.
  - destruct (Z.ltb_spec (Z.of_nat (streak bs)) (Z.max 2 th)) as [H|H];
      destruct b; cbn -[Z.of_nat]; [rewrite Z.mod_small by lia|..];
      rewrite ?Nat2Z.inj_succ; z_cases.
Qed.

Lemma trigger_with_detail d (c : option AlertChange) :
  trigger <$> option_list (with_detail d <$> c) = trigger <$> option_list c.
Proof. by destruct c. Qed.
Lemma metric_with_detail d m (c : option AlertChange) :
  Forall (λ c, c.(metric) = m) (option_list (with_detail d <$> c)) ↔
  Forall (λ c, c.(metric) = m) (option_list c).
Proof. destruct c as [c|]; cbn; by rewrite ?Forall_singleton. Qed.

Lemma connectivity_step th bs probe : is_u32 th →
  let '(st, change) := evaluate_connectivity (history_state th bs) probe th in
  st = expected_state th (bs ++ [negb probe.(conn_ok)]) ∧
  trigger <$> option_list change = expected_triggers th bs (negb probe.(conn_ok)) ∧
  Forall (λ c, c.(metric) = "connectivity") (option_list change).
Proof.
  intros Hth. unfold evaluate_connectivity.
  pose proof (threshold_step th bs (negb (conn_ok probe)) "connectivity" Critical Hth) as H.
  destruct (evaluate_threshold_metric _ _ _ _ _) as [st ch].
  rewrite trigger_with_detail, metric_with_detail. exact H.
Qed.

Lemma expected_state_valid th bs n : is_u32 th → expected_state th bs = SFailing n → is_u32 n.
Proof.
  unfold expected_state, needed, is_u32. intros Hth.
  destruct (Z.eqb_spec (Z.of_nat (streak bs)) 0); [done|].
  destruct (Z.ltb_spec (Z.of_nat (streak bs)) (Z.max 2 th)); [|done]. intros [= <-]. lia.
Qed.

(** ** Persistence *)

Section HealthTheorems.
Context {Pr : Printer} {Rd : Reader} {RT : RoundTrip}.
Context (hash_iter : gset string → list string).
Context (hash_iter_perm : ∀ s, hash_iter s ≡ₚ elements s).

Lemma load_persist (tbl : AlertTable) m m' s d :
  (∀ n, s = SFailing n → is_u32 n) →
  (∀ v, d = Some v → float_free v = true) →
  load_metric_state (persist_metric_state tbl m s d) m = Ok (Some (s, d)) ∧
  (m ≠ m' → load_metric_state (persist_metric_state tbl m s d) m' = load_metric_state tbl m').
Proof.
  intros Hs Hd. unfold load_metric_state, persist_metric_state. split.
  - rewrite lookup_insert_eq. cbn.
    assert (Hdet : (if is_empty (match d with Some v => to_vec v | None => "" end) then None
                    else from_str (match d with Some v => to_vec v | None => "" end)) = d).
    { destruct d as [v|]; [|done]. destruct (to_vec v) eqn:E; [by apply to_vec_nonempty in E|].
      cbn [is_empty]. rewrite <- E. by apply from_to, Hd. }
    destruct s as [|n|]; cbn; rewrite Hdet; [done| |done].
    specialize (Hs n eq_refl). unfold is_u32 in Hs.
    by rewrite Z.max_l, Z.mod_small by lia.
  - intros Hne. by rewrite lookup_insert_ne.
Qed.

(** A metric's state and detail are read back as they were written, and
    writing one metric leaves the others alone. *)
Theorem persist_load_roundtrip (tbl : AlertTable) m m' s d :
  (∀ n, s = SFailing n → is_u32 n) →
  (∀ v, d = Some v → float_free v = true) →
  load_metric_state (persist_metric_state tbl m s d) m = Ok (Some (s, d)) ∧
  (m ≠ m' → load_metric_state (persist_metric_state tbl m s d) m' = load_metric_state tbl m').
Proof. apply load_persist. Qed.

Lemma prior_of_persist tbl m s d :
  (∀ n, s = SFailing n → is_u32 n) → (∀ v, d = Some v → float_free v = true) →
  prior_of (persist_metric_state tbl m s d) m = Some (s, d).
Proof. intros Hs Hd. unfold prior_of. by rewrite (proj1 (load_persist tbl m m s d Hs Hd)). Qed.

(** A part of the evaluation writes one row and reports one metric. *)
Definition about (m : string) (tbl : AlertTable) (r : AlertTable * list AlertChange) : Prop :=
  (∀ m', m' ≠ m → r.1 !! m' = tbl !! m') ∧ Forall (λ c, c.(metric) = m) r.2.

Lemma threshold_part_about tbl m ev :
  (∀ cur, Forall (λ c, c.(metric) = m) (option_list (ev cur).2)) →
  about m tbl (threshold_part tbl m ev).
Proof.
  intros Hev. unfold threshold_part. specialize (Hev (fst <$> prior_of tbl m)).
  destruct (ev _) as [s c]. split; [|done]. intros m' Hne. by apply lookup_insert_ne.
Qed.

Lemma evaluate_threshold_metric_name cur b th m sev :
  Forall (λ c, c.(metric) = m) (option_list (evaluate_threshold_metric cur b th m sev).2).
Proof.
  unfold evaluate_threshold_metric. destruct (default SOk cur), b; try case_match; by repeat constructor.
Qed.

Lemma missing_pk_part_about tbl tables :
  about "missing_pk" tbl (missing_pk_part hash_iter tbl tables).
Proof.
  unfold missing_pk_part, evaluate_missing_pk.
  destruct (mbind _ _) as [prior|]; (split; [intros m' Hne; by apply lookup_insert_ne|]); cbn; [|done].
  apply Forall_app; split; apply Forall_fmap, Forall_true; done.
Qed.

(** A metric that later parts do not concern keeps its row and its changes. *)
Lemma if_collected_other {A} m m0 (o : option A) part st :
  (∀ tbl a, about m0 tbl (part tbl a)) → m ≠ m0 →
  (if_collected o part st).1 !! m = st.1 !! m ∧
  filter (λ c, c.(metric) = m) (if_collected o part st).2 = filter (λ c, c.(metric) = m) st.2.
Proof.
  intros Hp Hne. destruct o as [a|]; cbn; [|done].
  destruct (Hp st.1 a) as [H1 H2]. destruct (part st.1 a) as [tbl cs]. cbn in *.
  split; [by apply H1|]. rewrite filter_app. rewrite (filter_none _ cs); [by rewrite app_nil_r|].
  eapply Forall_impl; [exact H2|]. cbn. congruence.
Qed.

Lemma row_count_about tbl stats lim th :
  about "row_count" tbl (threshold_part tbl "row_count" (λ cur, evaluate_row_count cur stats lim th)).
Proof.
  apply threshold_part_about. intros cur. unfold evaluate_row_count.
  pose proof (evaluate_threshold_metric_name cur
    (negb (bool_decide (over_threshold stats lim = []))) th "row_count" Warning) as E.
  destruct (evaluate_threshold_metric _ _ _ _ _). by apply metric_with_detail.
Qed.

Lemma connection_count_about tbl n lim th :
  about "connection_count" tbl (threshold_part tbl "connection_count" (λ cur,
    evaluate_connection_count cur (Some n) lim th)).
Proof.
  apply threshold_part_about. intros cur. unfold evaluate_connection_count.
  pose proof (evaluate_threshold_metric_name cur (lim <=? n)%Z th "connection_count" Warning) as E.
  destruct (evaluate_threshold_metric _ _ _ _ _). by apply metric_with_detail.
Qed.

Lemma connectivity_about tbl probe th :
  about "connectivity" tbl (threshold_part tbl "connectivity" (λ cur, evaluate_connectivity cur probe th)).
Proof.
  apply threshold_part_about. intros cur. unfold evaluate_connectivity.
  pose proof (evaluate_threshold_metric_name cur (negb (conn_ok probe)) th "connectivity" Critical) as E.
  destruct (evaluate_threshold_metric _ _ _ _ _). by apply metric_with_detail.
Qed.

Create HintDb about discriminated.
#[local] Hint Resolve row_count_about connection_count_about connectivity_about missing_pk_part_about : about.

#[local] Ltac skip_part m0 :=
  match goal with
  | |- context [if_collected ?o ?p ?st] =>
      let E1 := fresh in let E2 := fresh in
      destruct (if_collected_other "connectivity" m0 o p st) as [E1 E2];
      [auto with about|done|rewrite E1, E2; clear E1 E2]
  end.

Lemma evaluate_all_connectivity tbl snap cfg :
  let r := evaluate_all hash_iter tbl snap cfg in
  let p := threshold_part tbl "connectivity" (λ cur,
    evaluate_connectivity cur snap.(connectivity) cfg.(fail_threshold)) in
  r.1 !! "connectivity" = p.1 !! "connectivity" ∧
  filter (λ c, c.(metric) = "connectivity") r.2 = p.2.
Proof.
  cbn zeta. unfold evaluate_all.
  skip_part "missing_pk". skip_part "connection_count". skip_part "row_count".
  split; [done|]. apply filter_all. apply connectivity_about.
Qed.

(** ** A sequence of evaluations from an empty table *)

Definition evaluations (cfg : HealthCheckTaskConfig) (snaps : list MetricsSnapshot) : AlertTable :=
  foldl (λ tbl s, (evaluate_all hash_iter tbl s cfg).1) ∅ snaps.

Definition unreachable (s : MetricsSnapshot) : bool := negb s.(connectivity).(conn_ok).

Lemma prior_of_row tbl tbl' m : tbl !! m = tbl' !! m → prior_of tbl m = prior_of tbl' m.
Proof. intros E. unfold prior_of, load_metric_state. by rewrite E. Qed.

Lemma evaluations_connectivity cfg snaps : is_u32 cfg.(fail_threshold) →
  fst <$> prior_of (evaluations cfg snaps) "connectivity" =
  history_state cfg.(fail_threshold) (unreachable <$> snaps).
Proof.
  intros Hth. induction snaps as [|s snaps IH] using rev_ind; [done|].
  unfold evaluations. rewrite foldl_snoc. fold (evaluations cfg snaps).
  rewrite (prior_of_row _ _ _ (proj1 (evaluate_all_connectivity (evaluations cfg snaps) s cfg))).
  unfold threshold_part. rewrite IH.
  pose proof (connectivity_step _ (unreachable <$> snaps) (connectivity s) Hth) as Hs.
  destruct (evaluate_connectivity _ _ _) as [st ch]. destruct Hs as (-> & _). cbn [fst].
  rewrite prior_of_persist; [|by intros n; apply expected_state_valid|done].
  rewrite fmap_app. cbn. by destruct (unreachable <$> snaps).
Qed.

(** Over any sequence of collections, an alert for an unreachable source is
    sent exactly at the [needed]-th failure in a row (fail_threshold, but never
    less than two), and a recovery exactly at the first success after one. *)
Theorem connectivity_alerts_exactly cfg snaps snap : is_u32 cfg.(fail_threshold) →
  trigger <$> filter (λ c, c.(metric) = "connectivity")
                (evaluate_all hash_iter (evaluations cfg snaps) snap cfg).2 =
  expected_triggers cfg.(fail_threshold) (unreachable <$> snaps) (unreachable snap).
Proof.
  intros Hth. rewrite (proj2 (evaluate_all_connectivity _ _ _)).
  unfold threshold_part. rewrite evaluations_connectivity by done.
  pose proof (connectivity_step _ (unreachable <$> snaps) (connectivity snap) Hth) as Hs.
  destruct (evaluate_connectivity _ _ _) as [st ch]. cbn [snd]. apply Hs.
Qed.

(** ** Missing primary keys *)

Lemma hash_difference (s1 s2 : gset string) :
  filter (λ t, t ∉ s2) (hash_iter s1) ≡ₚ elements (s1 ∖ s2).
Proof.
  rewrite (hash_iter_perm s1). apply NoDup_Permutation.
  - apply NoDup_filter, NoDup_elements.
  - apply NoDup_elements.
  - intros x. rewrite list_elem_of_filter, !elem_of_elements, elem_of_difference. tauto.
Qed.


Lemma evaluate_all_missing_pk tbl snap cfg :
  let r := evaluate_all hash_iter tbl snap cfg in
  match snap.(missing_pk) with
  | None => r.1 !! "missing_pk" = tbl !! "missing_pk"
  | Some l =>
      prior_of r.1 "missing_pk" = Some (SOk, Some (detail_for_missing_pk l)) ∧
      filter (λ c, c.(metric) = "missing_pk") r.2 =
      (evaluate_missing_pk hash_iter (p ← prior_of tbl "missing_pk"; detail_last_missing p.2) l).2
  end.
Proof.
  cbn zeta. unfold evaluate_all.
  set (st1 := threshold_part tbl "connectivity" _).
  destruct (connectivity_about tbl (connectivity snap) (fail_threshold cfg)) as [H1 H1'].
  fold st1 in H1, H1'.
  assert (E1 : st1.1 !! "missing_pk" = tbl !! "missing_pk") by by apply H1.
  assert (F1 : filter (λ c, c.(metric) = "missing_pk") st1.2 = []).
  { apply filter_none. eapply Forall_impl; [exact H1'|]. cbn. congruence. }
  clearbody st1. clear H1 H1'.
  set (st2 := if_collected _ _ st1).
  destruct (if_collected_other "missing_pk" "row_count" (row_count snap) (λ tbl stats,
    threshold_part tbl "row_count" (λ cur, evaluate_row_count cur stats
      (large_table_threshold cfg) (fail_threshold cfg))) st1) as [E2 F2]; [auto with about|done|].
  fold st2 in E2, F2. rewrite E1 in E2. rewrite F1 in F2. clearbody st2. clear E1 F1.
  set (st3 := if_collected _ _ st2).
  destruct (if_collected_other "missing_pk" "connection_count" (connection_count snap) (λ tbl count,
    threshold_part tbl "connection_count" (λ cur, evaluate_connection_count cur (Some count)
      (connection_count_threshold cfg) (fail_threshold cfg))) st2) as [E3 F3]; [auto with about|done|].
  fold st3 in E3, F3. rewrite E2 in E3. rewrite F2 in F3. clearbody st3. clear E2 F2.
  destruct (missing_pk snap) as [l|]; [|exact E3].
  pose proof (missing_pk_part_about st3.1 l) as [_ Ha]. cbn.
  unfold missing_pk_part in *. rewrite (prior_of_row _ _ _ E3) in *.
  assert (Hl : ∀ o, (evaluate_missing_pk hash_iter o l).1 = l) by (by intros []).
  specialize (Hl (p ← prior_of tbl "missing_pk"; detail_last_missing p.2)).
  destruct (evaluate_missing_pk hash_iter _ l) as [set cs]. cbn in *. subst set. split.
  - apply prior_of_persist; [done|]. intros v [= <-]. cbn. by rewrite float_free_strs.
  - by rewrite filter_app, F3, (filter_all _ _ Ha).
Qed.

Lemma omap_as_str l : omap (M:=list) as_str (JStr <$> l) = l.
Proof. induction l as [|t l IH]; [done|]. cbn. by rewrite IH. Qed.

Lemma detail_round_trip l : detail_last_missing (Some (detail_for_missing_pk l)) = Some l.
Proof. exact (f_equal Some (omap_as_str l)). Qed.

(** Runs in which the metric was not collected leave the baseline alone. *)
Lemma missing_pk_baseline tbl cfg snaps :
  Forall (λ s, s.(missing_pk) = None) snaps →
  prior_of (foldl (λ tbl s, (evaluate_all hash_iter tbl s cfg).1) tbl snaps) "missing_pk" =
  prior_of tbl "missing_pk".
Proof.
  revert tbl. induction snaps as [|s snaps IH]; intros tbl Hs; [done|].
  apply Forall_cons in Hs as [Hs Hall]. cbn. rewrite IH by done. apply prior_of_row.
  pose proof (evaluate_all_missing_pk tbl s cfg) as E. cbn zeta in E. by rewrite Hs in E.
Qed.

(** After a run that collected the tables without a primary key, and any
    runs that could not collect them, the next collection alerts once for each
    table that joined the list and resolves once each table that left it. *)
Theorem missing_pk_reports_difference tbl cfg s1 mid s2 l1 l2 :
  s1.(missing_pk) = Some l1 → Forall (λ s, s.(missing_pk) = None) mid → s2.(missing_pk) = Some l2 →
  let tbl' := foldl (λ tbl s, (evaluate_all hash_iter tbl s cfg).1) tbl (s1 :: mid) in
  filter (λ c, c.(metric) = "missing_pk") (evaluate_all hash_iter tbl' s2 cfg).2 ≡ₚ
  (missing_change <$> elements (list_to_set l2 ∖ list_to_set l1 : gset string)) ++
  (restored_change <$> elements (list_to_set l1 ∖ list_to_set l2 : gset string)).
Proof.
  intros E1 Hmid E2. cbn zeta.
  pose proof (evaluate_all_missing_pk tbl s1 cfg) as H1. cbn zeta in H1. rewrite E1 in H1.
  destruct H1 as [H1 _].
  match goal with |- context [evaluate_all hash_iter ?t s2 cfg] => set (tbl' := t) end.
  assert (Hp : prior_of tbl' "missing_pk" = Some (SOk, Some (detail_for_missing_pk l1))).
  { unfold tbl'. cbn [foldl]. by rewrite missing_pk_baseline. }
  pose proof (evaluate_all_missing_pk tbl' s2 cfg) as H2. cbn zeta in H2. rewrite E2 in H2.
  destruct H2 as [_ ->]. rewrite Hp. cbn [mbind option_bind snd].
  rewrite detail_round_trip. unfold evaluate_missing_pk. cbn [snd].
  by rewrite !hash_difference.
Qed.

(** ** One run *)

Context (to_lowercase : string → string).

(** Metrics are evaluated, and alerts sent, only against a source that could
    be reached with the decrypted credential and, for a drift source, only after
    the database refused the canary table: any other run leaves the alert table
    as it was and reports no change, an outage included. *)
Theorem evaluated_only_behind_canary tbl src cfg tbl' r :
  collect_and_evaluate hash_iter to_lowercase tbl src cfg = (tbl', r) →
  (tbl' = tbl ∧ ∀ snap cs, r = Ok (snap, cs) → cs = []) ∨
  (src.(decrypt) = Ok tt ∧ src.(connect) = Ok tt ∧
   (src.(src_db_type) = "mysql" ∨ src.(src_db_type) = "postgres") ∧
   (src.(src_kind) = "source_drift" → ∃ e, src.(create_canary) = Err e)).
Proof.
  unfold collect_and_evaluate.
  assert (Hcan : ∀ canary : result string unit → result string unit,
    (∀ u, canary u = Ok tt → ∃ e, u = Err e) →
    (_ ← connect src; if decide (src_kind src = "source_drift") then canary (create_canary src) else Ok tt) = Ok tt →
    connect src = Ok tt ∧ (src_kind src = "source_drift" → ∃ e, create_canary src = Err e)).
  { intros canary Hc ([] & Hcon & Hk)%bind_ok_inv. split; [done|]. intros Hd.
    rewrite decide_True in Hk by done. by apply Hc. }
  assert (Hmy : ∀ u, run_canary_mysql to_lowercase u = Ok tt → ∃ e, u = Err e) by (intros [|]; [done|eauto]).
  assert (Hpg : ∀ u, run_canary_pg to_lowercase u = Ok tt → ∃ e, u = Err e) by (intros [|]; [done|eauto]).
  destruct (decrypt src) as [[]|e]; [|intros [= <- <-]; by left].
  cbn zeta. destruct (decide (src_db_type src = "mysql")) as [Em|Em];
    [|destruct (decide (src_db_type src = "postgres")) as [Ep|Ep]].
  - destruct (_ ← connect src; _) as [[]|e] eqn:E; [|intros [= <- <-]; by left].
    intros _. right. destruct (Hcan _ Hmy E). auto.
  - destruct (_ ← connect src; _) as [[]|e] eqn:E; [|intros [= <- <-]; by left].
    intros _. right. destruct (Hcan _ Hpg E). auto.
  - intros [= <- <-]. left. split; [done|]. by intros ? ? [= _ <-].
Qed.

(** A failed run records its error in both rows, on one line and in at most
    three hundred characters; a run that succeeds records none. *)
Theorem run_errors_redacted tbl src cfg deliver url :
  let '(_, rows, outcome) := run_task hash_iter to_lowercase tbl src cfg deliver url in
  match outcome with
  | Err _ => ∃ e, rows = Build_RunRows "failed" (Some e) "failed" (Some e) ∧
      no_char LF e = true ∧ char_count e ≤ 300
  | Ok o => rows = Build_RunRows o.(status) None "succeeded" None ∧
      (o.(status) = "success" ∨ o.(status) = "partial")
  end.
Proof.
  unfold run_task. destruct (collect_and_evaluate _ _ _ _ _) as [tbl' [[snap cs]|e]].
  - cbn. split; [done|]. destruct (unsupported_metrics snap); auto.
  - exists (redact_error e). split; [done|]. by apply first_line_chars_spec.
Qed.
End HealthTheorems.

(** ** Witnesses *)

Definition ex_snapshot (up : bool) (missing : option (list string)) : MetricsSnapshot :=
  Build_MetricsSnapshot (Build_ConnectivityResult up 3 None) None missing None "mysql" [].
Definition ex_cfg (th : Z) : HealthCheckTaskConfig :=
  Build_HealthCheckTaskConfig default_metrics th 10000000 100 30.

(** With [fail_threshold = 1] the first failure is not yet an alert. *)
Lemma connectivity_alerts_exactly_witness :
  let _ := tlv_printer in let _ := tlv_reader in
  is_u32 1 ∧
  (trigger <$> filter (λ c, c.(metric) = "connectivity")
     (evaluate_all elements (evaluations elements (ex_cfg 1) [ex_snapshot true None])
        (ex_snapshot false None) (ex_cfg 1)).2) = [] ∧
  (trigger <$> filter (λ c, c.(metric) = "connectivity")
     (evaluate_all elements (evaluations elements (ex_cfg 1) [ex_snapshot false None])
        (ex_snapshot false None) (ex_cfg 1)).2) = [Alert].
Proof.
  cbn zeta. assert (H1 : is_u32 1) by done. split; [done|]. split.
  - exact (@connectivity_alerts_exactly tlv_printer tlv_reader tlv_round_trip elements
      (ex_cfg 1) [ex_snapshot true None] (ex_snapshot false None) H1).
  - exact (@connectivity_alerts_exactly tlv_printer tlv_reader tlv_round_trip elements
      (ex_cfg 1) [ex_snapshot false None] (ex_snapshot false None) H1).
Defined.

Lemma persist_load_roundtrip_witness :
  let _ := tlv_printer in let _ := tlv_reader in
  load_metric_state (persist_metric_state ∅ "row_count" (SFailing 2) None) "row_count"
    = Ok (Some (SFailing 2, None)).
Proof.
  cbn zeta.
  apply (@persist_load_roundtrip tlv_printer tlv_reader tlv_round_trip ∅ "row_count" "missing_pk");
    [by intros n [= <-]|done].
Defined.

Lemma missing_pk_reports_difference_witness :
  let _ := tlv_printer in let _ := tlv_reader in
  filter (λ c, c.(metric) = "missing_pk")
    (evaluate_all elements
       (foldl (λ tbl s, (evaluate_all elements tbl s (ex_cfg 3)).1) ∅
          [ex_snapshot true (Some ["a"; "b"]); ex_snapshot true None])
       (ex_snapshot true (Some ["b"; "c"])) (ex_cfg 3)).2
  ≡ₚ [missing_change "c"; restored_change "a"].
Proof.
  cbn zeta.
  etransitivity.
  - apply (@missing_pk_reports_difference tlv_printer tlv_reader tlv_round_trip elements (λ s, reflexivity _)
      ∅ (ex_cfg 3) (ex_snapshot true (Some ["a"; "b"])) [ex_snapshot true None]
      (ex_snapshot true (Some ["b"; "c"])) ["a"; "b"] ["b"; "c"]);
      [reflexivity|by constructor|reflexivity].
  - vm_compute. reflexivity.
Defined.

Definition ex_source (connects : bool) : Source :=
  Build_Source "mysql" "source_drift" (Ok tt)
    (if connects then Ok tt else Err "mysql connect failed") (Err "CREATE command denied")
    (ex_snapshot false None).

(** An unreachable source: the alert table is untouched. *)
Lemma evaluated_only_behind_canary_witness :
  let _ := tlv_printer in let _ := tlv_reader in
  ∃ e, collect_and_evaluate elements to_ascii_lowercase ∅ (ex_source false) (ex_cfg 3) = (∅, Err e) ∧
  ((∅ : AlertTable) = ∅ ∨ connect (ex_source false) = Ok tt).
Proof.
  cbn zeta. exists "mysql connect failed".
  assert (E : @collect_and_evaluate tlv_printer tlv_reader elements to_ascii_lowercase ∅
    (ex_source false) (ex_cfg 3) = (∅, Err "mysql connect failed")) by reflexivity.
  split; [exact E|].
  destruct (@evaluated_only_behind_canary tlv_printer tlv_reader elements to_ascii_lowercase
    _ _ _ _ _ E) as [[H _]|(_ & H & _)]; [by left|by right].
Defined.
