(* ===== verification/Risk.v ===== *)
(** * SQL risk classification (crates/mcp/src/risk.rs)

    The syntax tree is sqlparser's, cut to what the classifier looks at: the
    constructors it names with the children it visits, and one constructor for
    everything else.  The three dialect parsers and Unicode lower-casing are
    parameters. *)

From S2P Require Import Prelude RustStr.

(** ** Classes and verdicts *)

Inductive RiskClass := ReadOnly | Write | Ddl | Transaction.
#[global] Instance RiskClass_eq_dec : EqDecision RiskClass.
Proof. solve_decision. Defined.

Definition as_str (c : RiskClass) : string :=
  match c with
  | ReadOnly => "read_only" | Write => "write" | Ddl => "ddl" | Transaction => "transaction"
  end.

(** The derived [Ord]: declaration order. *)
Definition severity_of (c : RiskClass) : nat :=
  match c with ReadOnly => 0 | Write => 1 | Ddl => 2 | Transaction => 3 end.
Definition class_gt (a b : RiskClass) : bool := severity_of b <? severity_of a.

Record RiskVerdict := { class : RiskClass; reasons : list string }.

Definition empty_verdict : RiskVerdict := {| class := ReadOnly; reasons := [] |}.
Definition is_read_only (v : RiskVerdict) : bool := bool_decide (v.(class) = ReadOnly).

Definition bump (c : RiskClass) (reason : string) (v : RiskVerdict) : RiskVerdict :=
  {| class := if class_gt c v.(class) then c else v.(class);
     reasons := if bool_decide (reason ∈ v.(reasons)) then v.(reasons)
                else v.(reasons) ++ [reason] |}.

(** ** The syntax tree *)

(** [ObjectNamePart]: an identifier, or another form. *)
Inductive NamePart := Identifier (value : string) | OtherPart.

Inductive Expr :=
| EFunction (name : list NamePart) (args : FunctionArguments)
| ENested (e : Expr) | EUnaryOp (e : Expr) | EBinaryOp (l r : Expr) | ECast (e : Expr)
| EIsNull (e : Expr) | EIsNotNull (e : Expr)
| EInList (e : Expr) (list_ : list Expr)
| EInSubquery (e : Expr) (subquery : Query) | EExists (subquery : Query) | ESubquery (subquery : Query)
| ECase (operand : option Expr) (conditions : list CaseWhen) (else_result : option Expr)
| EBetween (e : Expr) | ELike (e : Expr) | EILike (e : Expr) | ESimilarTo (e : Expr)
| EInUnnest (e array_expr : Expr)
| EOther
with CaseWhen := MkCaseWhen (condition result_ : Expr)
with FunctionArguments := FANone | FASubquery (q : Query) | FAList (args : list FunctionArg)
with FunctionArg := UnnamedExprArg (e : Expr) | OtherArg
with Query := MkQuery (with_ctes : option (list Cte)) (locks : nat) (body : SetExpr)
with Cte := MkCte (query : Query)
with SetExpr :=
| SESelect (s : Select) | SEQuery (q : Query) | SESetOperation (left_ right_ : SetExpr)
| SEInsert (s : Statement) | SEUpdate (s : Statement) | SEDelete (s : Statement) | SEMerge (s : Statement)
| SEOther
with Select := MkSelect (into : bool) (projection : list SelectItem) (selection having : option Expr)
with SelectItem := UnnamedExpr (e : Expr) | ExprWithAlias (e : Expr) | OtherItem
with Statement :=
| SQuery (q : Query) | SExplain (analyze : bool) (s : Statement)
| SShowVariable | SShowTables | SShowColumns | SShowFunctions | SShowCreate | SShowDatabases
| SExplainTable
| SStartTransaction | SCommit | SRollback | SSavepoint | SReleaseSavepoint
| SInsert | SUpdate | SDelete | SMerge | SLoad
| SUse | SSet | SCall | SExecute | SPrepare
| SCreateTable | SCreateIndex | SCreateView | SCreateSchema | SCreateDatabase | SCreateFunction
| SCreateRole | SAlterTable | SDrop | STruncate | SGrant | SRevoke
| SOtherStatement.

Section Risk.
Context (to_lowercase : string → string).

Definition side_effect_functions : list string :=
  ["nextval"; "setval"; "pg_advisory_lock"; "pg_advisory_unlock"; "pg_advisory_xact_lock";
   "pg_advisory_unlock_all"; "pg_terminate_backend"; "pg_cancel_backend"; "pg_reload_conf"].

Definition is_side_effect_function (name : list NamePart) : bool :=
  let last_ := match last name with
               | Some (Identifier v) => to_lowercase v
               | _ => ""
               end in
  bool_decide (last_ ∈ side_effect_functions).

Fixpoint classify_expr (e : Expr) (v : RiskVerdict) : RiskVerdict :=
  match e with
  | EFunction name args =>
      let v := if is_side_effect_function name
               then bump Write "side-effect function in expression" v else v in
      walk_function_args args v
  | ENested e | EUnaryOp e => classify_expr e v
  | EBinaryOp l r => classify_expr r (classify_expr l v)
  | ECast e => classify_expr e v
  | EIsNull e | EIsNotNull e => classify_expr e v
  | EInList e l => foldl (λ v e, classify_expr e v) (classify_expr e v) l
  | EInSubquery e q => classify_query q (classify_expr e v)
  | EExists q => classify_query q v
  | ESubquery q => classify_query q v
  | ECase operand conditions else_result =>
      let v := match operand with Some op => classify_expr op v | None => v end in
      let v := foldl (λ v w, classify_when w v) v conditions in
      match else_result with Some e => classify_expr e v | None => v end
  | EBetween e | ELike e | EILike e | ESimilarTo e => classify_expr e v
  | EInUnnest e a => classify_expr a (classify_expr e v)
  | EOther => v
  end
with classify_when (w : CaseWhen) (v : RiskVerdict) : RiskVerdict :=
  match w with MkCaseWhen c r => classify_expr r (classify_expr c v) end
with walk_function_args (args : FunctionArguments) (v : RiskVerdict) : RiskVerdict :=
  match args with
  | FAList l => foldl (λ v a, walk_arg a v) v l
  | FANone | FASubquery _ => v
  end
with walk_arg (a : FunctionArg) (v : RiskVerdict) : RiskVerdict :=
  match a with UnnamedExprArg e => classify_expr e v | OtherArg => v end
with classify_query (q : Query) (v : RiskVerdict) : RiskVerdict :=
  match q with
  | MkQuery with_ctes locks body =>
      let v := match with_ctes with
               | Some ctes => foldl (λ v c, classify_cte c v) v ctes
               | None => v
               end in
      let v := match locks with
               | O => v
               | S _ => bump Write "locking read (FOR UPDATE/FOR SHARE)" v
               end in
      classify_set_expr body v
  end
with classify_cte (c : Cte) (v : RiskVerdict) : RiskVerdict :=
  match c with MkCte q => classify_query q v end
with classify_set_expr (b : SetExpr) (v : RiskVerdict) : RiskVerdict :=
  match b with
  | SESelect s => classify_select s v
  | SEQuery q => classify_query q v
  | SESetOperation l r => classify_set_expr r (classify_set_expr l v)
  | SEInsert s | SEUpdate s | SEDelete s | SEMerge s => classify_statement s v
  | SEOther => v
  end
with classify_select (s : Select) (v : RiskVerdict) : RiskVerdict :=
  match s with
  | MkSelect into projection selection having =>
      let v := if into then bump Write "SELECT INTO" v else v in
      let v := foldl (λ v i, classify_item i v) v projection in
      let v := match selection with Some e => classify_expr e v | None => v end in
      match having with Some e => classify_expr e v | None => v end
  end
with classify_item (i : SelectItem) (v : RiskVerdict) : RiskVerdict :=
  match i with UnnamedExpr e | ExprWithAlias e => classify_expr e v | OtherItem => v end
with classify_statement (s : Statement) (v : RiskVerdict) : RiskVerdict :=
  match s with
  | SQuery q => classify_query q v
  | SExplain analyze s => if analyze then classify_statement s v else v
  | SShowVariable | SShowTables | SShowColumns | SShowFunctions | SShowCreate | SShowDatabases
  | SExplainTable => v
  | SStartTransaction | SCommit | SRollback | SSavepoint | SReleaseSavepoint =>
      bump Transaction "transaction control statement" v
  | SInsert | SUpdate | SDelete | SMerge | SLoad => bump Write "data-modifying statement" v
  | SUse => bump Write "USE statement forbidden (database switch)" v
  | SSet => bump Write "SET statement forbidden (session state change)" v
  | SCall => bump Write "CALL forbidden (procedure body not analyzable)" v
  | SExecute | SPrepare => bump Write "prepared-statement execution forbidden" v
  | SCreateTable | SCreateIndex | SCreateView | SCreateSchema | SCreateDatabase | SCreateFunction
  | SCreateRole | SAlterTable | SDrop | STruncate | SGrant | SRevoke =>
      bump Ddl "schema/privilege change (DDL)" v
  | SOtherStatement => bump Write "unrecognized statement form (fail-closed)" v
  end.

(** ** Whole scripts *)

Definition contains_executable_comment (sql : string) : bool := contains "/*!" sql.

Context (parse_mysql parse_pg parse_generic : string → option (list Statement)).

Definition parse_any (sql : string) : option (list Statement) :=
  match parse_mysql sql with
  | Some s => Some s
  | None => match parse_pg sql with Some s => Some s | None => parse_generic sql end
  end.

Definition statement_count (sql : string) : nat :=
  match parse_any sql with Some s => length s | None => 0 end.

Definition classify (sql : string) : RiskVerdict :=
  let verdict := if contains_executable_comment sql
                 then bump Write "executable comment (/*! */) not allowed" empty_verdict
                 else empty_verdict in
  match parse_any sql with
  | None => {| class := Write; reasons := ["parse failure (fail-closed: treated as write)"] |}
  | Some [] => {| class := Write; reasons := ["no parseable statement"] |}
  | Some statements => foldl (λ v s, classify_statement s v) verdict statements
  end.
End Risk.

(** ** Specification: hazards of the visited nodes

    [steps n] lists, in the order of the code, what a node contributes: hazards
    of its own, and the children that are visited.  A hazard occurs in a node
    when a chain of visited children leads to it. *)

Definition hazard : Type := RiskClass * string.

Inductive node :=
| NExpr (e : Expr) | NWhen (w : CaseWhen) | NArgs (a : FunctionArguments) | NArg (a : FunctionArg)
| NQuery (q : Query) | NCte (c : Cte) | NSet (b : SetExpr) | NSelect (s : Select)
| NItem (i : SelectItem) | NStmt (s : Statement).

(** ** Folding hazards into a verdict *)

Definition bump_all (hs : list hazard) (v : RiskVerdict) : RiskVerdict :=
  foldl (λ v h, bump h.1 h.2 v) v hs.

Lemma bump_all_reasons hs v r :
  r ∈ (bump_all hs v).(reasons) ↔ r ∈ v.(reasons) ∨ ∃ c, (c, r) ∈ hs.
Proof.
  unfold bump_all. revert v. induction hs as [|[c0 r0] hs IH]; intros v; cbn.
  - setoid_rewrite elem_of_nil. naive_solver.
  - rewrite IH. setoid_rewrite elem_of_cons. cbn. case_bool_decide as E.
    + naive_solver.
    + rewrite elem_of_app, list_elem_of_singleton. naive_solver.
Qed.

Lemma bump_all_nodup hs v : NoDup v.(reasons) → NoDup (bump_all hs v).(reasons).
Proof.
  unfold bump_all. revert v. induction hs as [|[c0 r0] hs IH]; intros v Hv; cbn; [done|].
  apply IH. cbn. case_bool_decide; [done|]. apply NoDup_app. split; [done|]. split.
  - intros x Hx ->%list_elem_of_singleton. done.
  - apply NoDup_singleton.
Qed.

Lemma bump_class c r v :
  severity_of v.(class) ≤ severity_of (bump c r v).(class) ∧
  severity_of c ≤ severity_of (bump c r v).(class) ∧
  ((bump c r v).(class) = v.(class) ∨ (bump c r v).(class) = c).
Proof.
  unfold bump, class_gt. cbn [class]. destruct (Nat.ltb_spec (severity_of (class v)) (severity_of c)); cbn; split_and!; try lia; auto.
Qed.

Lemma bump_all_class hs v :
  severity_of v.(class) ≤ severity_of (bump_all hs v).(class) ∧
  (∀ h, h ∈ hs → severity_of h.1 ≤ severity_of (bump_all hs v).(class)) ∧
  ((bump_all hs v).(class) = v.(class) ∨ ∃ r, ((bump_all hs v).(class), r) ∈ hs).
Proof.
  unfold bump_all. revert v. induction hs as [|[c0 r0] hs IH]; intros v; cbn.
  - split; [done|]. split; [by intros h ?%elem_of_nil|]. by left.
  - destruct (IH (bump c0 r0 v)) as (H1 & H2 & H3).
    destruct (bump_class c0 r0 v) as (Hv & Hc & Hor).
    split; [by etransitivity|]. split.
    + intros h [->|Hh]%elem_of_cons; [by etransitivity|auto].
    + destruct H3 as [H3|[r H3]]; [|right; exists r; by right].
      rewrite H3. destruct Hor as [->| ->]; [by left|right; exists r0; by left].
Qed.

(** ** The steps of a node *)

Section Spec.
Context (to_lowercase : string → string).

Definition own (c : RiskClass) (r : string) : hazard + node := inl (c, r).
Definition visit (n : node) : hazard + node := inr n.
Definition visit_opt (o : option Expr) : list (hazard + node) :=
  match o with Some e => [visit (NExpr e)] | None => [] end.

Definition stmt_steps (s : Statement) : list (hazard + node) :=
  match s with
  | SQuery q => [visit (NQuery q)]
  | SExplain true s => [visit (NStmt s)]
  | SExplain false _
  | SShowVariable | SShowTables | SShowColumns | SShowFunctions | SShowCreate | SShowDatabases
  | SExplainTable => []
  | SStartTransaction | SCommit | SRollback | SSavepoint | SReleaseSavepoint =>
      [own Transaction "transaction control statement"]
  | SInsert | SUpdate | SDelete | SMerge | SLoad => [own Write "data-modifying statement"]
  | SUse => [own Write "USE statement forbidden (database switch)"]
  | SSet => [own Write "SET statement forbidden (session state change)"]
  | SCall => [own Write "CALL forbidden (procedure body not analyzable)"]
  | SExecute | SPrepare => [own Write "prepared-statement execution forbidden"]
  | SOtherStatement => [own Write "unrecognized statement form (fail-closed)"]
  | _ => [own Ddl "schema/privilege change (DDL)"]
  end.

Definition expr_steps (e : Expr) : list (hazard + node) :=
  match e with
  | EFunction name args =>
      (if is_side_effect_function to_lowercase name
       then [own Write "side-effect function in expression"] else []) ++ [visit (NArgs args)]
  | ENested e | EUnaryOp e | ECast e | EIsNull e | EIsNotNull e
  | EBetween e | ELike e | EILike e | ESimilarTo e => [visit (NExpr e)]
  | EBinaryOp l r => [visit (NExpr l); visit (NExpr r)]
  | EInList e l => visit (NExpr e) :: (visit ∘ NExpr <$> l)
  | EInSubquery e q => [visit (NExpr e); visit (NQuery q)]
  | EExists q | ESubquery q => [visit (NQuery q)]
  | ECase operand conditions else_result =>
      visit_opt operand ++ (visit ∘ NWhen <$> conditions) ++ visit_opt else_result
  | EInUnnest e a => [visit (NExpr e); visit (NExpr a)]
  | EOther => []
  end.

Definition steps (n : node) : list (hazard + node) :=
  match n with
  | NExpr e => expr_steps e
  | NWhen (MkCaseWhen c r) => [visit (NExpr c); visit (NExpr r)]
  | NArgs (FAList l) => visit ∘ NArg <$> l
  | NArgs _ => []
  | NArg (UnnamedExprArg e) => [visit (NExpr e)]
  | NArg OtherArg => []
  | NQuery (MkQuery with_ctes locks body) =>
      match with_ctes with Some ctes => visit ∘ NCte <$> ctes | None => [] end ++
      match locks with O => [] | S _ => [own Write "locking read (FOR UPDATE/FOR SHARE)"] end ++
      [visit (NSet body)]
  | NCte (MkCte q) => [visit (NQuery q)]
  | NSet (SESelect s) => [visit (NSelect s)]
  | NSet (SEQuery q) => [visit (NQuery q)]
  | NSet (SESetOperation l r) => [visit (NSet l); visit (NSet r)]
  | NSet (SEInsert s) | NSet (SEUpdate s) | NSet (SEDelete s) | NSet (SEMerge s) => [visit (NStmt s)]
  | NSet SEOther => []
  | NSelect (MkSelect into projection selection having) =>
      (if into then [own Write "SELECT INTO"] else []) ++ (visit ∘ NItem <$> projection) ++
      visit_opt selection ++ visit_opt having
  | NItem (UnnamedExpr e) | NItem (ExprWithAlias e) => [visit (NExpr e)]
  | NItem OtherItem => []
  | NStmt s => stmt_steps s
  end.

Inductive occurs (h : hazard) : node → Prop :=
| occurs_here n : inl h ∈ steps n → occurs h n
| occurs_below n c : inr c ∈ steps n → occurs h c → occurs h n.

(** ** The traversal follows the steps *)

Definition classify_node (n : node) (v : RiskVerdict) : RiskVerdict :=
  match n with
  | NExpr e => classify_expr to_lowercase e v
  | NWhen w => classify_when to_lowercase w v
  | NArgs a => walk_function_args to_lowercase a v
  | NArg a => walk_arg to_lowercase a v
  | NQuery q => classify_query to_lowercase q v
  | NCte c => classify_cte to_lowercase c v
  | NSet b => classify_set_expr to_lowercase b v
  | NSelect s => classify_select to_lowercase s v
  | NItem i => classify_item to_lowercase i v
  | NStmt s => classify_statement to_lowercase s v
  end.

Definition do_step (v : RiskVerdict) (s : hazard + node) : RiskVerdict :=
  match s with inl h => bump h.1 h.2 v | inr c => classify_node c v end.

Lemma foldl_visit {A} (f : A → node) (g : A → RiskVerdict → RiskVerdict) l v :
  (∀ a v, g a v = classify_node (f a) v) →
  foldl do_step v (visit ∘ f <$> l) = foldl (λ v a, g a v) v l.
Proof. intros Hg. revert v. induction l as [|a l IH]; intros v; [done|]. cbn. by rewrite IH, Hg. Qed.

Lemma foldl_visit_opt o v :
  foldl do_step v (visit_opt o) = match o with Some e => classify_expr to_lowercase e v | None => v end.
Proof. by destruct o. Qed.

Lemma classify_node_steps n v : classify_node n v = foldl do_step v (steps n).
Proof.
  destruct n as [e|[c r]|a|a|q|c|b|s|i|s]; cbn.
  - destruct e; cbn; try done.
    + rewrite foldl_app. by destruct (is_side_effect_function _ _).
    + by rewrite (foldl_visit NExpr (classify_expr to_lowercase)).
    + rewrite !foldl_app, !foldl_visit_opt. by rewrite (foldl_visit NWhen (classify_when to_lowercase)).
  - done.
  - destruct a as [| |l]; cbn; [done..|]. by rewrite (foldl_visit NArg (walk_arg to_lowercase)).
  - by destruct a.
  - destruct q as [w locks body]. rewrite !foldl_app.
    destruct w as [ctes|]; cbn; [rewrite (foldl_visit NCte (classify_cte to_lowercase)) by done|];
      by destruct locks.
  - by destruct c.
  - by destruct b.
  - destruct s as [into projection selection having]. rewrite !foldl_app, !foldl_visit_opt.
    rewrite (foldl_visit NItem (classify_item to_lowercase)) by done. by destruct into.
  - by destruct i.
  - destruct s; cbn; by try case_match.
Qed.

(** ** Visiting children is well-founded *)

Definition child (c n : node) : Prop := inr c ∈ steps n.

Lemma acc_intro n : Forall (λ s, match s with inr c => Acc child c | inl _ => True end) (steps n) →
  Acc child n.
Proof. intros H. constructor. intros c Hc. rewrite Forall_forall in H. exact (H (inr c) Hc). Qed.

#[local] Ltac list_steps :=
  cbn; repeat first [apply Forall_nil_2 | apply Forall_cons_2 | apply Forall_app_2 | exact I].

Fixpoint acc_expr (e : Expr) : Acc child (NExpr e)
with acc_when (w : CaseWhen) : Acc child (NWhen w)
with acc_args (a : FunctionArguments) : Acc child (NArgs a)
with acc_arg (a : FunctionArg) : Acc child (NArg a)
with acc_query (q : Query) : Acc child (NQuery q)
with acc_cte (c : Cte) : Acc child (NCte c)
with acc_set (b : SetExpr) : Acc child (NSet b)
with acc_select (s : Select) : Acc child (NSelect s)
with acc_item (i : SelectItem) : Acc child (NItem i)
with acc_stmt (s : Statement) : Acc child (NStmt s).
Proof.
  - apply acc_intro. destruct e as [name args|e|e|l r|e|e|e|e l|e q|q|q|op cs el|e|e|e|e|e a|]; list_steps;
      try first [apply acc_expr|apply acc_query|apply acc_args].
    + destruct (is_side_effect_function _ _); list_steps.
    + induction l as [|x l IH]; cbn; constructor; [apply acc_expr|exact IH].
    + destruct op; list_steps; apply acc_expr.
    + induction cs as [|x l IH]; cbn; constructor; [apply acc_when|exact IH].
    + destruct el; list_steps; apply acc_expr.
  - apply acc_intro. destruct w as [c r]. list_steps; apply acc_expr.
  - apply acc_intro. destruct a as [| |l]; [constructor..|].
    cbn. induction l as [|x l IH]; cbn; constructor; [apply acc_arg|exact IH].
  - apply acc_intro. destruct a; list_steps; apply acc_expr.
  - apply acc_intro. destruct q as [w locks body]. list_steps; [|by destruct locks; list_steps|apply acc_set].
    destruct w as [l|]; [|constructor].
    induction l as [|x l IH]; cbn; constructor; [apply acc_cte|exact IH].
  - apply acc_intro. destruct c as [q]. list_steps. apply acc_query.
  - apply acc_intro. destruct b; list_steps;
      first [apply acc_select|apply acc_query|apply acc_set|apply acc_stmt].
  - apply acc_intro. destruct s as [into l sel hav]. list_steps.
    + destruct into; list_steps.
    + induction l as [|x l IH]; cbn; constructor; [apply acc_item|exact IH].
    + destruct sel; list_steps; apply acc_expr.
    + destruct hav; list_steps; apply acc_expr.
  - apply acc_intro. destruct i; list_steps; apply acc_expr.
  - apply acc_intro. destruct s; cbn; try case_match; list_steps; first [apply acc_query|apply acc_stmt].
Qed.

Lemma acc_node n : Acc child n.
Proof.
  destruct n; [apply acc_expr|apply acc_when|apply acc_args|apply acc_arg|apply acc_query
    |apply acc_cte|apply acc_set|apply acc_select|apply acc_item|apply acc_stmt].
Qed.

(** ** The verdict is the fold of the hazards that occur *)

Definition collected (n : node) : Prop :=
  ∃ hs, (∀ h, h ∈ hs ↔ occurs h n) ∧ ∀ v, classify_node n v = bump_all hs v.

Lemma collect_steps ss : (∀ c, inr c ∈ ss → collected c) →
  ∃ hs, (∀ h, h ∈ hs ↔ inl h ∈ ss ∨ ∃ c, inr c ∈ ss ∧ occurs h c) ∧
        ∀ v, foldl do_step v ss = bump_all hs v.
Proof.
  induction ss as [|[h|c] ss IH]; intros Hss.
  - exists []. split; [|done]. intros h. rewrite !elem_of_nil. setoid_rewrite elem_of_nil. naive_solver.
  - destruct IH as (hs & Hhs & Hf); [intros c Hc; apply Hss; by right|].
    exists (h :: hs). split; [|intros v; cbn; apply Hf]. intros h'.
    rewrite elem_of_cons, Hhs. setoid_rewrite elem_of_cons. naive_solver.
  - destruct IH as (hs & Hhs & Hf); [intros c' Hc'; apply Hss; by right|].
    destruct (Hss c) as (hs0 & Hhs0 & Hf0); [by left|].
    exists (hs0 ++ hs). split.
    + intros h'. rewrite elem_of_app, Hhs, Hhs0. setoid_rewrite elem_of_cons. naive_solver.
    + intros v. cbn. rewrite Hf0, Hf. unfold bump_all. by rewrite foldl_app.
Qed.

Lemma node_collected n : collected n.
Proof.
  induction (acc_node n) as [n _ IH]. destruct (collect_steps (steps n) IH) as (hs & Hhs & Hf).
  exists hs. split.
  - intros h. rewrite Hhs. split.
    + intros [H|(c & Hc & H)]; [by apply occurs_here|by eapply occurs_below].
    + destruct 1 as [n H|n c Hc H]; [by left|right; by exists c].
  - intros v. rewrite classify_node_steps. apply Hf.
Qed.

Lemma own_not_read_only n h : inl h ∈ steps n → h.1 ≠ ReadOnly.
Proof.
  assert (Hv : ∀ {A} (f : A → node) l,
    Forall (λ s : hazard + node, match s with inl h => h.1 ≠ ReadOnly | inr _ => True end) (visit ∘ f <$> l))
    by (intros A f l; by apply Forall_fmap, Forall_true).
  assert (Ho : ∀ o,
    Forall (λ s : hazard + node, match s with inl h => h.1 ≠ ReadOnly | inr _ => True end) (visit_opt o))
    by (intros [|]; by repeat constructor).
  assert (H : Forall (λ s : hazard + node, match s with inl h => h.1 ≠ ReadOnly | inr _ => True end) (steps n)).
  { destruct n as [[]|[]|[]|[]|[w locks b]|[]|[]|[into p s hv]|[]|[]]; list_steps; auto; try done;
      try case_match; list_steps; auto; done. }
  intros Hin. rewrite Forall_forall in H. exact (H _ Hin).
Qed.

Lemma occurs_not_read_only h n : occurs h n → h.1 ≠ ReadOnly.
Proof. induction 1; [by eapply own_not_read_only|done]. Qed.
End Spec.

(** ** Whole scripts *)

Section Scripts.
Context (to_lowercase : string → string).
Context (parse_mysql parse_pg parse_generic : string → option (list Statement)).

(** The hazards of a parsed script. *)
Definition script_hazard (sql : string) (stmts : list Statement) (h : hazard) : Prop :=
  (contains_executable_comment sql = true ∧ h = (Write, "executable comment (/*! */) not allowed"))
  ∨ ∃ s, s ∈ stmts ∧ occurs to_lowercase h (NStmt s).

Lemma classify_fold sql stmts :
  parse_any parse_mysql parse_pg parse_generic sql = Some stmts → stmts ≠ [] →
  ∃ hs, (∀ h, h ∈ hs ↔ script_hazard sql stmts h) ∧
    classify to_lowercase parse_mysql parse_pg parse_generic sql = bump_all hs empty_verdict.
Proof.
  intros Hp Hne. unfold classify. rewrite Hp. destruct stmts as [|s0 l]; [done|].
  set (stmts := s0 :: l). set (v0 := if contains_executable_comment sql then _ else _).
  destruct (collect_steps to_lowercase (visit ∘ NStmt <$> stmts)) as (hs & Hhs & Hf);
    [intros c _; apply node_collected|].
  exists ((if contains_executable_comment sql
           then [(Write, "executable comment (/*! */) not allowed")] else []) ++ hs).
  split.
  - intros h. rewrite elem_of_app, Hhs. unfold script_hazard.
    assert (E1 : h ∈ (if contains_executable_comment sql
        then [(Write, "executable comment (/*! */) not allowed")] else []) ↔
      contains_executable_comment sql = true ∧ h = (Write, "executable comment (/*! */) not allowed")).
    { destruct (contains_executable_comment sql); rewrite ?list_elem_of_singleton, ?elem_of_nil; naive_solver. }
    rewrite E1. setoid_rewrite list_elem_of_fmap. cbn. split.
    + intros [H|[(a & Ha & _)|(c & (s & [= ->] & Hs) & Ho)]]; [by left|done|right; eauto].
    + intros [H|(s & Hs & Ho)]; [by left|]. right. right. exists (NStmt s). eauto.
  - unfold bump_all in Hf |- *. rewrite foldl_app, <- Hf.
    rewrite (foldl_visit to_lowercase NStmt (classify_statement to_lowercase)) by done.
    unfold v0. by destruct (contains_executable_comment sql).
Qed.

(**  The verdict of a script is the most severe class among the hazards that
    occur in it, with each of their reasons once and no other reason. *)
Theorem classify_spec sql stmts :
  parse_any parse_mysql parse_pg parse_generic sql = Some stmts → stmts ≠ [] →
  let v := classify to_lowercase parse_mysql parse_pg parse_generic sql in
  (∀ r, r ∈ v.(reasons) ↔ ∃ c, script_hazard sql stmts (c, r)) ∧ NoDup v.(reasons) ∧
  (∀ h, script_hazard sql stmts h → severity_of h.1 ≤ severity_of v.(class)) ∧
  (v.(class) = ReadOnly ∨ ∃ r, script_hazard sql stmts (v.(class), r)).
Proof.
  intros Hp Hne. destruct (classify_fold sql stmts Hp Hne) as (hs & Hhs & ->). cbn zeta.
  destruct (bump_all_class hs empty_verdict) as (_ & H2 & H3). split; [|split; [|split]].
  - intros r. rewrite bump_all_reasons. setoid_rewrite Hhs. cbn.
    split; [by intros [?%elem_of_nil|?]|by right].
  - apply bump_all_nodup. constructor.
  - intros h Hh. apply H2. by apply Hhs.
  - destruct H3 as [H3|[r Hr]]; [by left|]. right. exists r. by apply Hhs.
Qed.

(** Fail-closed: a text passes as read-only exactly when one of the dialects
    parses it to at least one statement, it holds no executable comment, and no
    hazard occurs in any statement. *)
Theorem read_only_iff sql :
  is_read_only (classify to_lowercase parse_mysql parse_pg parse_generic sql) = true ↔
  ∃ stmts, parse_any parse_mysql parse_pg parse_generic sql = Some stmts ∧ stmts ≠ [] ∧
    contains_executable_comment sql = false ∧
    ∀ s h, s ∈ stmts → ¬ occurs to_lowercase h (NStmt s).
Proof.
  unfold is_read_only. rewrite bool_decide_eq_true.
  assert (Hsome : ∀ stmts, parse_any parse_mysql parse_pg parse_generic sql = Some stmts → stmts ≠ [] →
    class (classify to_lowercase parse_mysql parse_pg parse_generic sql) = ReadOnly ↔
    contains_executable_comment sql = false ∧ ∀ s h, s ∈ stmts → ¬ occurs to_lowercase h (NStmt s)).
  { intros stmts Hp Hne. destruct (classify_fold sql stmts Hp Hne) as (hs & Hhs & ->).
    destruct (bump_all_class hs empty_verdict) as (_ & H2 & H3). split.
    - intros Hc. rewrite Hc in H2. cbn in H2.
      assert (Hno : ∀ h, ¬ script_hazard sql stmts h).
      { intros h Hh. pose proof (H2 h (proj2 (Hhs h) Hh)).
        assert (h.1 ≠ ReadOnly).
        { destruct Hh as [[_ ->]|(s & _ & Ho)]; [done|by eapply occurs_not_read_only]. }
        destruct h as [[] r]; cbn in *; done || lia. }
      split.
      + destruct (contains_executable_comment sql) eqn:E; [|done].
        exfalso. eapply Hno. by left.
      + intros s h Hs Ho. apply (Hno h). right. eauto.
    - intros [Hc Hs]. destruct H3 as [H3|[r Hr]]; [done|]. apply Hhs in Hr as [[E _]|(s & Hin & Ho)].
      + congruence.
      + by apply Hs in Ho. }
  split.
  - intros Hc. destruct (parse_any _ _ _ sql) as [[|s l]|] eqn:Hp.
    + unfold classify in Hc. by rewrite Hp in Hc.
    + exists (s :: l). split; [done|]. split; [done|]. by apply (Hsome (s :: l)).
    + unfold classify in Hc. by rewrite Hp in Hc.
  - intros (stmts & Hp & Hne & H). by apply (Hsome stmts Hp Hne).
Qed.
End Scripts.

(** ** Witness: a writable CTE under EXPLAIN ANALYZE, and a nested nextval *)

Definition ex_nextval : Expr :=
  EFunction [Identifier "coalesce"]
    (FAList [UnnamedExprArg (EFunction [Identifier "pg_catalog"; Identifier "NextVal"]
               (FAList [UnnamedExprArg EOther]))]).
Definition ex_statement : Statement :=
  SExplain true (SQuery (MkQuery (Some [MkCte (MkQuery None 0 (SEDelete SDelete))]) 0
    (SESelect (MkSelect false [UnnamedExpr ex_nextval] None None)))).
Definition ex_parse (sql : string) : option (list Statement) :=
  if decide (sql = "EXPLAIN ANALYZE WITH d AS (DELETE ..) SELECT ..") then Some [ex_statement] else None.

Lemma classify_spec_witness :
  let sql := "EXPLAIN ANALYZE WITH d AS (DELETE ..) SELECT .." in
  let v := classify to_ascii_lowercase (λ _, None) ex_parse (λ _, None) sql in
  v = {| class := Write; reasons := ["data-modifying statement"; "side-effect function in expression"] |} ∧
  ∃ c, script_hazard to_ascii_lowercase sql [ex_statement] (c, "data-modifying statement").
Proof.
  cbn zeta.
  destruct (classify_spec to_ascii_lowercase (λ _, None) ex_parse (λ _, None)
    "EXPLAIN ANALYZE WITH d AS (DELETE ..) SELECT .." [ex_statement]) as (H & _); [reflexivity|done|].
  split; [reflexivity|]. apply H. left.
Defined.
