(* ===== verification/Approvals.v ===== *)
(** * The DDL approval workflow
    (crates/automation/src/handler.rs: submit_approval, approve_approval,
    reject_approval; crates/mcp/src/write.rs and the gate of tools.rs)

    Requests run concurrently: a handler is a process [proc] that takes one step
    per [await] on the control database, so every interleaving of requests,
    restarts, license changes and database failures is a sequence of steps of
    [sys_step].  Each SQL statement is atomic, as SQLite makes it.  The answers
    of the outside world to a step are its [Answer]. *)

From S2P Require Import Prelude RustStr Clock Json License Entitlement SqlSplit DdlExec Risk.
From stdpp Require Import relations.

(** ** The tables *)

(** A row of [ddl_approvals]. *)
Record Approval := {
  ddl_sql : string; target_db_id : string; submitter_id : string; reviewer_id : option string;
  status : string; exec_status : string; created_at : string; resolved_at : option string;
  executed_at : option string; exec_error : option string }.

(** A row of [credential_access_audit]. *)
Record AuditRow := {
  au_connection : string; au_status : string; au_error : option string; au_triggered_by : string }.

(** One run of [execute_ddl_on_target_with_key]: for which approval, on whose
    request, and what was sent. *)
Inductive Via := ViaRest | ViaMcp.
Record Execution := {
  e_id : string; e_sql : string; e_target : string; e_by : string; e_via : Via;
  e_sent : list (list char); e_result : result string unit }.

Record World := {
  approvals : gmap string Approval; database_connections : gmap string Connection;
  entitlement : EntitlementState; audit : list AuditRow; executions : list Execution }.

Definition with_approvals (f : gmap string Approval → gmap string Approval) (w : World) : World :=
  {| approvals := f w.(approvals); database_connections := w.(database_connections);
     entitlement := w.(entitlement); audit := w.(audit); executions := w.(executions) |}.
Definition with_audit (a : AuditRow) (w : World) : World :=
  {| approvals := w.(approvals); database_connections := w.(database_connections);
     entitlement := w.(entitlement); audit := w.(audit) ++ [a]; executions := w.(executions) |}.
Definition with_execution (e : Execution) (w : World) : World :=
  {| approvals := w.(approvals); database_connections := w.(database_connections);
     entitlement := w.(entitlement); audit := w.(audit); executions := w.(executions) ++ [e] |}.

(** What the outside world answers to a step: the control database (an error
    or success), the clock, the UUID generator, the credential store, the
    separate read of the guard, the target database. *)
Record Answer := {
  ans_db : result string unit; ans_now : string; ans_uuid : string;
  ans_decrypt : result string unit; ans_guard : bool;
  ans_backend : nat → list char → result string unit }.

Inductive reply :=
| RestOk (data : json)
| RestErr (status : option Z) (code message : string)
| ToolOk (data : json)
| ToolErr (message : string).

(** Requests, the suspended rest of the handlers, and the spawned task. *)
Inductive proc :=
| SubmitApproval (sub sql target : string)
| ApproveApproval (sub id : string)
| ApproveClaim (sub id sql target : string)
| ExecTask (sub id sql target : string)
| ExecPersist (sub id target : string) (r : result string unit)
| ExecAudit (sub target : string) (r : result string unit)
| RejectApproval (sub id : string)
| SubmitWrite (sub : string) (args : list (string * json))
| SubmitWriteCheck (sub conn sql : string)
| SubmitWriteInsert (sub conn sql : string)
| ExecuteWrite (sub : string) (args : list (string * json))
| ExecuteWriteAllowed (sub id : string) (row : Approval)
| ExecuteWriteClaim (sub id : string) (row : Approval)
| ExecuteWriteRun (sub id : string) (row : Approval)
| ExecuteWritePersist (id : string) (r : result string unit)
| CurrentExecState (id : string)
| GetApproval (sub : string) (args : list (string * json)).

(** The requests clients can send. *)
Definition is_request (p : proc) : bool :=
  match p with
  | SubmitApproval _ _ _ | ApproveApproval _ _ | RejectApproval _ _ | SubmitWrite _ _
  | ExecuteWrite _ _ | GetApproval _ _ => true
  | _ => false
  end.

(** ** Row updates *)

Definition new_approval (sub sql target now : string) : Approval :=
  {| ddl_sql := sql; target_db_id := target; submitter_id := sub; reviewer_id := None;
     status := "pending"; exec_status := "pending"; created_at := now; resolved_at := None;
     executed_at := None; exec_error := None |}.
Definition claim_row (sub now : string) (a : Approval) : Approval :=
  {| ddl_sql := a.(ddl_sql); target_db_id := a.(target_db_id); submitter_id := a.(submitter_id);
     reviewer_id := Some sub; status := "executing"; exec_status := "executing";
     created_at := a.(created_at); resolved_at := Some now; executed_at := Some now;
     exec_error := a.(exec_error) |}.
Definition claim_exec_row (now : string) (a : Approval) : Approval :=
  {| ddl_sql := a.(ddl_sql); target_db_id := a.(target_db_id); submitter_id := a.(submitter_id);
     reviewer_id := a.(reviewer_id); status := a.(status); exec_status := "executing";
     created_at := a.(created_at); resolved_at := a.(resolved_at); executed_at := Some now;
     exec_error := a.(exec_error) |}.
Definition finish_row (r : result string unit) (a : Approval) : Approval :=
  let s := match r with Ok _ => "approved" | Err _ => "failed" end in
  {| ddl_sql := a.(ddl_sql); target_db_id := a.(target_db_id); submitter_id := a.(submitter_id);
     reviewer_id := a.(reviewer_id); status := s; exec_status := s;
     created_at := a.(created_at); resolved_at := a.(resolved_at); executed_at := a.(executed_at);
     exec_error := match r with Ok _ => a.(exec_error) | Err e => Some e end |}.
Definition reject_row (now : string) (a : Approval) : Approval :=
  {| ddl_sql := a.(ddl_sql); target_db_id := a.(target_db_id); submitter_id := a.(submitter_id);
     reviewer_id := a.(reviewer_id); status := "rejected"; exec_status := a.(exec_status);
     created_at := a.(created_at); resolved_at := Some now; executed_at := a.(executed_at);
     exec_error := a.(exec_error) |}.

Section Workflow.
Context {Pr : Printer}.
Context (unicode_alphanumeric : char → bool) (unicode_upper : char → list char).
Context (to_lowercase : string → string).
Context (parse_mysql parse_pg parse_generic : string → option (list Statement)).
(** [mcp.allowed_connections]. *)
Context (whitelist : list string).
Local Notation classify := (classify to_lowercase parse_mysql parse_pg parse_generic).
Local Notation statement_count := (statement_count parse_mysql parse_pg parse_generic).

(** [arg_str] and [require_str] of tools.rs. *)
Definition arg_str (args : list (string * json)) (name : string) : result string (option string) :=
  match assoc_get name args with
  | None | Some JNull => Ok None
  | Some (JStr s) => Ok (Some s)
  | Some other => Err ("argument '" +:+ name +:+ "' must be a string, got " +:+ to_vec other)
  end.
Definition require_str (args : list (string * json)) (name : string) : result string string :=
  o ← arg_str args name;
  match o with
  | Some s => if is_empty (RustStr.trim s) then Err ("missing required argument '" +:+ name +:+ "'") else Ok s
  | None => Err ("missing required argument '" +:+ name +:+ "'")
  end.

(** [gate_blocked] of the REST handlers and [write_gate_blocked] of the tools. *)
Definition gate_blocked (w : World) : option reply :=
  if is_gated w.(entitlement)
  then Some (RestErr (Some 403) "ENTITLEMENT_GATED"
    "License gated. Activate or renew your license to perform this action.")%Z
  else None.
Definition write_gate_blocked (w : World) : option string :=
  if is_gated w.(entitlement)
  then Some "ENTITLEMENT_GATED: server license is gated — activate or renew to use write tools (read tools remain available)"
  else None.

(** [ConnectionWhitelist::allows] and [ensure_connection_allowed]. *)
Definition allows (id name : string) : bool :=
  bool_decide (whitelist = []) || bool_decide (id ∈ whitelist) || bool_decide (name ∈ whitelist).
Definition ensure_connection_allowed (a : Answer) (w : World) (conn_id : string)
    : result string unit :=
  if bool_decide (whitelist = []) then Ok tt else
  match a.(ans_db) with
  | Err e => Err ("DB_ERROR: server database read failed: " +:+ take_chars 120 e)
  | Ok _ => match w.(database_connections) !! conn_id with
            | Some c => if allows conn_id c.(conn_name) then Ok tt
                        else Err "CONNECTION_NOT_ALLOWED: connection is not exposed over MCP (not in mcp.allowed_connections)"
            | None => Ok tt
            end
  end.

(** The two reads of [execute_ddl_on_target_with_key], and its run. *)
Definition load_and_decrypt (a : Answer) (w : World) (target : string) : result string Connection :=
  _ ← a.(ans_db);
  c ← ok_or (w.(database_connections) !! target) ("connection " +:+ target +:+ " not found");
  _ ← a.(ans_decrypt);
  Ok c.
Definition execute_ddl_on_target (a : Answer) (w : World) (target sql : string)
    : result string unit * list (list char) :=
  execute_ddl_on_target_with_key unicode_alphanumeric unicode_upper (load_and_decrypt a w target)
    (if a.(ans_guard) then w.(database_connections) !! target else None) a.(ans_backend) sql.

Definition risk_json (v : RiskVerdict) : json :=
  JObj [("level", JStr (as_str v.(class))); ("reasons", JArr (JStr <$> v.(reasons)))].

(** [load_own_approval]. *)
Definition load_own_approval (a : Answer) (w : World) (sub id : string) : result string Approval :=
  match a.(ans_db) with
  | Err _ => Err "DB_ERROR: could not read the approval"
  | Ok _ =>
      match w.(approvals) !! id with
      | Some row => if decide (row.(submitter_id) = sub) then Ok row
          else Err "NOT_FOUND: approval not found (unknown id, or not submitted by you)"
      | None => Err "NOT_FOUND: approval not found (unknown id, or not submitted by you)"
      end
  end.

Definition opt_field (k : string) (o : option string) : list (string * json) :=
  match o with Some v => [(k, JStr v)] | None => [] end.

Definition get_approval (a : Answer) (w : World) (sub : string) (args : list (string * json))
    : result string json :=
  id ← match require_str args "approval_id" with
       | Ok s => Ok s | Err e => Err ("INVALID_ARGUMENT: " +:+ e) end;
  row ← load_own_approval a w sub id;
  Ok (JObj ([("approvalId", JStr id); ("status", JStr row.(status));
             ("execStatus", JStr row.(exec_status)); ("risk", risk_json (classify row.(ddl_sql)));
             ("createdAt", JStr row.(created_at))]
            ++ opt_field "resolvedAt" row.(resolved_at) ++ opt_field "execError" row.(exec_error))).

Definition exec_reply (id s : string) (err : option string) : json :=
  JObj ([("approvalId", JStr id); ("execStatus", JStr s)] ++ opt_field "execError" err).

(** The step of a process: the world after it, what it goes on as (or spawns),
    and the reply it sends. *)
Definition outcome : Type := World * list proc * option reply.
Definition answer (w : World) (r : reply) : outcome := (w, [], Some r).
Definition goto (w : World) (p : proc) : outcome := (w, [p], None).

Definition insert_approval (a : Answer) (w : World) (row : Approval) : result string World :=
  _ ← a.(ans_db);
  match w.(approvals) !! a.(ans_uuid) with
  | Some _ => Err "UNIQUE constraint failed: ddl_approvals.id"
  | None => Ok (with_approvals <[a.(ans_uuid) := row]> w)
  end.

Definition submit_approval (a : Answer) (w : World) (sub sql target : string) : outcome :=
  match gate_blocked w with
  | Some r => answer w r
  | None =>
      match insert_approval a w (new_approval sub sql target a.(ans_now)) with
      | Ok w' => answer w' (RestOk (JObj [("id", JStr a.(ans_uuid)); ("status", JStr "pending")]))
      | Err e => answer w (RestErr None "SUBMIT_FAILED" e)
      end
  end.

Definition approve_approval (a : Answer) (w : World) (sub id : string) : outcome :=
  match gate_blocked w with
  | Some r => answer w r
  | None =>
      match a.(ans_db) with
      | Err e => answer w (RestErr (Some 500%Z) "DB_ERROR" e)
      | Ok _ =>
          match w.(approvals) !! id with
          | None => answer w (RestErr (Some 404%Z) "APPROVAL_NOT_FOUND" ("approval " +:+ id +:+ " not found"))
          | Some row =>
              if decide (row.(status) = "pending")
              then goto w (ApproveClaim sub id row.(ddl_sql) row.(target_db_id))
              else answer w (RestErr (Some 409%Z) "ALREADY_RESOLVED"
                     ("approval is " +:+ row.(status) +:+ ", not pending"))
          end
      end
  end.

Definition approve_claim (a : Answer) (w : World) (sub id sql target : string) : outcome :=
  match a.(ans_db) with
  | Err e => answer w (RestErr (Some 500%Z) "DB_ERROR" e)
  | Ok _ =>
      let conflict := answer w (RestErr (Some 409%Z) "CONFLICT"
                        "approval was already claimed by another reviewer") in
      match w.(approvals) !! id with
      | Some row =>
          if decide (row.(status) = "pending")
          then (with_approvals <[id := claim_row sub a.(ans_now) row]> w, [ExecTask sub id sql target],
                Some (RestOk (JObj [("id", JStr id); ("status", JStr "executing");
                                    ("exec_status", JStr "executing")])))
          else conflict
      | None => conflict
      end
  end.

(** The spawned task, up to each of its awaits. *)
Definition exec_task (a : Answer) (w : World) (sub id sql target : string) : outcome :=
  let '(r, sent) := execute_ddl_on_target a w target sql in
  goto (with_execution {| e_id := id; e_sql := sql; e_target := target; e_by := sub; e_via := ViaRest;
                          e_sent := sent; e_result := r |} w) (ExecPersist sub id target r).
Definition persist (a : Answer) (id : string) (r : result string unit) (w : World) : World :=
  match a.(ans_db) with Ok _ => with_approvals (alter (finish_row r) id) w | Err _ => w end.
Definition exec_audit (a : Answer) (w : World) (sub target : string) (r : result string unit) : outcome :=
  (match a.(ans_db) with
   | Ok _ => with_audit {| au_connection := target;
       au_status := match r with Ok _ => "ok" | Err _ => "error" end;
       au_error := match r with Ok _ => None | Err e => Some e end; au_triggered_by := sub |} w
   | Err _ => w
   end, [], None).

Definition reject_approval (a : Answer) (w : World) (id : string) : outcome :=
  match gate_blocked w with
  | Some r => answer w r
  | None => answer (match a.(ans_db) with
                    | Ok _ => with_approvals (alter (reject_row a.(ans_now)) id) w
                    | Err _ => w end) (RestOk (JObj [("status", JStr "rejected")]))
  end.

(** *** The MCP tools *)

Definition submit_write (a : Answer) (w : World) (sub : string) (args : list (string * json)) : outcome :=
  match write_gate_blocked w with
  | Some e => answer w (ToolErr e)
  | None =>
      match (conn ← require_str args "connection_id"; sql ← require_str args "sql"; Ok (conn, sql)) with
      | Err e => answer w (ToolErr ("INVALID_ARGUMENT: " +:+ e))
      | Ok (conn, sql) =>
          match ensure_connection_allowed a w conn with
          | Err e => answer w (ToolErr e)
          | Ok _ => goto w (SubmitWriteCheck sub conn sql)
          end
      end
  end.

Definition submit_write_check (a : Answer) (w : World) (sub conn sql : string) : outcome :=
  if is_read_only (classify sql)
  then answer w (ToolErr "READ_ONLY_SQL: statement is read-only — use read_query instead (no approval needed)")
  else if decide (statement_count sql ≠ 1)
  then answer w (ToolErr "MULTI_STATEMENT: submit exactly one SQL statement per submit_write call")
  else match a.(ans_db) with
       | Err _ => answer w (ToolErr "DB_ERROR: could not verify the connection")
       | Ok _ => match w.(database_connections) !! conn with
                 | None => answer w (ToolErr ("NOT_FOUND: connection '" +:+ conn +:+
                             "' not found (check list_connections)"))
                 | Some _ => goto w (SubmitWriteInsert sub conn sql)
                 end
       end.

Definition submit_write_insert (a : Answer) (w : World) (sub conn sql : string) : outcome :=
  match insert_approval a w (new_approval sub sql conn a.(ans_now)) with
  | Ok w' => answer w' (ToolOk (JObj [("approvalId", JStr a.(ans_uuid)); ("status", JStr "pending");
                                      ("risk", risk_json (classify sql))]))
  | Err _ => answer w (ToolErr "SUBMIT_FAILED: could not create the approval")
  end.

Definition execute_write (a : Answer) (w : World) (sub : string) (args : list (string * json)) : outcome :=
  match write_gate_blocked w with
  | Some e => answer w (ToolErr e)
  | None =>
      match require_str args "approval_id" with
      | Err e => answer w (ToolErr ("INVALID_ARGUMENT: " +:+ e))
      | Ok id =>
          match load_own_approval a w sub id with
          | Err e => answer w (ToolErr e)
          | Ok row =>
              if decide (row.(status) = "approved") then goto w (ExecuteWriteAllowed sub id row)
              else answer w (ToolErr ("APPROVAL_NOT_APPROVED: approval status is '" +:+ row.(status) +:+
                "' — a human must approve it (in the dbmaster client) before execute_write can run"))
          end
      end
  end.

Definition execute_write_allowed (a : Answer) (w : World) (sub id : string) (row : Approval) : outcome :=
  match ensure_connection_allowed a w row.(target_db_id) with
  | Err e => answer w (ToolErr e)
  | Ok _ => goto w (ExecuteWriteClaim sub id row)
  end.

Definition execute_write_claim (a : Answer) (w : World) (sub id : string) (row : Approval) : outcome :=
  match a.(ans_db) with
  | Err _ => answer w (ToolErr "EXECUTE_FAILED: could not claim the approval for execution")
  | Ok _ =>
      match w.(approvals) !! id with
      | Some cur =>
          if decide (cur.(exec_status) = "pending")
          then goto (with_approvals <[id := claim_exec_row a.(ans_now) cur]> w) (ExecuteWriteRun sub id row)
          else goto w (CurrentExecState id)
      | None => goto w (CurrentExecState id)
      end
  end.

Definition execute_write_run (a : Answer) (w : World) (sub id : string) (row : Approval) : outcome :=
  let '(r, sent) := execute_ddl_on_target a w row.(target_db_id) row.(ddl_sql) in
  goto (with_execution {| e_id := id; e_sql := row.(ddl_sql); e_target := row.(target_db_id);
                          e_by := sub; e_via := ViaMcp; e_sent := sent; e_result := r |} w)
       (ExecuteWritePersist id r).

Definition execute_write_persist (a : Answer) (w : World) (id : string) (r : result string unit) : outcome :=
  answer (persist a id r w)
    (ToolOk (match r with
             | Ok _ => exec_reply id "approved" None
             | Err e => exec_reply id "failed" (Some e)
             end)).

Definition current_exec_state (a : Answer) (w : World) (id : string) : outcome :=
  match a.(ans_db) with
  | Err _ => answer w (ToolErr "DB_ERROR: could not read the approval state")
  | Ok _ => match w.(approvals) !! id with
            | Some row => answer w (ToolOk (exec_reply id row.(exec_status) row.(exec_error)))
            | None => answer w (ToolErr "NOT_FOUND: approval not found (unknown id, or not submitted by you)")
            end
  end.

Definition step (a : Answer) (w : World) (p : proc) : outcome :=
  match p with
  | SubmitApproval sub sql target => submit_approval a w sub sql target
  | ApproveApproval sub id => approve_approval a w sub id
  | ApproveClaim sub id sql target => approve_claim a w sub id sql target
  | ExecTask sub id sql target => exec_task a w sub id sql target
  | ExecPersist sub id target r => goto (persist a id r w) (ExecAudit sub target r)
  | ExecAudit sub target r => exec_audit a w sub target r
  | RejectApproval _ id => reject_approval a w id
  | SubmitWrite sub args => submit_write a w sub args
  | SubmitWriteCheck sub conn sql => submit_write_check a w sub conn sql
  | SubmitWriteInsert sub conn sql => submit_write_insert a w sub conn sql
  | ExecuteWrite sub args => execute_write a w sub args
  | ExecuteWriteAllowed sub id row => execute_write_allowed a w sub id row
  | ExecuteWriteClaim sub id row => execute_write_claim a w sub id row
  | ExecuteWriteRun sub id row => execute_write_run a w sub id row
  | ExecuteWritePersist id r => execute_write_persist a w id r
  | CurrentExecState id => current_exec_state a w id
  | GetApproval sub args =>
      answer w (match get_approval a w sub args with Ok d => ToolOk d | Err e => ToolErr e end)
  end.

(** The whole system: requests arrive, processes run one step at a time in any
    order, connections and the license change, and the server may stop, which
    loses the processes and keeps the tables. *)
Definition System : Type := World * list proc.
Inductive sys_step : System → System → Prop :=
| request w ps p : is_request p = true → sys_step (w, ps) (w, ps ++ [p])
| run_proc w ps1 p ps2 a w' qs r : step a w p = (w', qs, r) →
    sys_step (w, ps1 ++ p :: ps2) (w', ps1 ++ qs ++ ps2)
| world_changes w ps conns ent :
    sys_step (w, ps) ({| approvals := w.(approvals); database_connections := conns;
                         entitlement := ent; audit := w.(audit); executions := w.(executions) |}, ps)
| restart w ps : sys_step (w, ps) (w, []).

(** A server that starts on some table of approvals. *)
Definition starts (tbl : gmap string Approval) (s : System) : Prop :=
  s.2 = [] ∧ s.1.(approvals) = tbl ∧ s.1.(executions) = [].
Definition reachable (tbl : gmap string Approval) (s : System) : Prop :=
  ∃ s0, starts tbl s0 ∧ rtc sys_step s0 s.

(** Running the processes of a given position one after the other. *)
Fixpoint run_schedule (sched : list (nat * Answer)) (s : System) : option System :=
  match sched with
  | [] => Some s
  | (i, a) :: rest =>
      p ← s.2 !! i;
      let '(w', qs, _) := step a s.1 p in
      run_schedule rest (w', take i s.2 ++ qs ++ drop (S i) s.2)
  end.

Lemma forking_schedule_steps sched s s' : run_schedule sched s = Some s' → rtc sys_step s s'.
Proof.
  revert s. induction sched as [|[i a] sched IH]; intros [w ps]; cbn; [by intros [= <-]|].
  destruct (ps !! i) as [p|] eqn:Hp; [|done]. cbn. destruct (step a w p) as [[w' qs] r] eqn:Hs.
  intros H. eapply rtc_l; [|by apply IH].
  rewrite <- (take_drop_middle ps i p Hp) at 1. by eapply run_proc.
Qed.

(** ** How rows evolve *)

Definition claimed (a : Approval) : Prop := a.(status) ≠ "pending" ∧ a.(exec_status) ≠ "pending".

(** What no step undoes. *)
Record row_le (a b : Approval) : Prop := {
  rl_sql : b.(ddl_sql) = a.(ddl_sql);
  rl_target : b.(target_db_id) = a.(target_db_id);
  rl_submitter : b.(submitter_id) = a.(submitter_id);
  rl_status : a.(status) ≠ "pending" → b.(status) ≠ "pending" ∧ b.(reviewer_id) = a.(reviewer_id);
  rl_exec : a.(exec_status) ≠ "pending" → b.(exec_status) ≠ "pending" }.

#[global] Instance row_le_refl : Reflexive row_le.
Proof. by split. Qed.

Definition grows (w w' : World) : Prop := ∀ id a,
  w.(approvals) !! id = Some a → ∃ b, w'.(approvals) !! id = Some b ∧ row_le a b.

Lemma grows_same w w' : approvals w' = approvals w → grows w w'.
Proof. intros H id a Ha. exists a. by rewrite H. Qed.

Lemma grows_insert w w' id a b : approvals w !! id = Some a → row_le a b →
  approvals w' = <[id := b]> (approvals w) → grows w w'.
Proof.
  intros Ha Hle Hw i x Hx. rewrite Hw. destruct (decide (id = i)) as [->|Hne].
  - exists b. rewrite lookup_insert_eq. by simplify_eq.
  - exists x. by rewrite lookup_insert_ne.
Qed.

Lemma grows_fresh w w' id b : approvals w !! id = None →
  approvals w' = <[id := b]> (approvals w) → grows w w'.
Proof.
  intros Ha Hw i x Hx. exists x. rewrite Hw, lookup_insert_ne; [done|congruence].
Qed.

Lemma grows_alter w w' f id : (∀ a, row_le a (f a)) →
  approvals w' = alter f id (approvals w) → grows w w'.
Proof.
  intros Hf Hw i x Hx. rewrite Hw. destruct (decide (id = i)) as [->|Hne].
  - exists (f x). by rewrite lookup_alter_eq, Hx.
  - exists x. by rewrite lookup_alter_ne.
Qed.

Lemma claim_row_le sub now a : a.(status) = "pending" → row_le a (claim_row sub now a).
Proof. by split. Qed.
Lemma claim_exec_row_le now a : row_le a (claim_exec_row now a).
Proof. by split. Qed.
Lemma finish_row_le r a : row_le a (finish_row r a).
Proof. by split; destruct r. Qed.
Lemma reject_row_le now a : row_le a (reject_row now a).
Proof. by split. Qed.

(** ** The invariant *)

(** What a suspended handler remembers of the row it read. *)
Definition row_of (w : World) (id sql target : string) (P : Approval → Prop) : Prop :=
  ∃ a, w.(approvals) !! id = Some a ∧ a.(ddl_sql) = sql ∧ a.(target_db_id) = target ∧ P a.

Definition proc_ok (w : World) (p : proc) : Prop :=
  match p with
  | ApproveClaim _ id sql target => row_of w id sql target (λ _, True)
  | ExecTask sub id sql target => row_of w id sql target (λ a, claimed a ∧ a.(reviewer_id) = Some sub)
  | ExecuteWriteAllowed sub id row | ExecuteWriteClaim sub id row =>
      row_of w id row.(ddl_sql) row.(target_db_id) (λ a, a.(status) ≠ "pending" ∧ a.(submitter_id) = sub)
  | ExecuteWriteRun sub id row =>
      row_of w id row.(ddl_sql) row.(target_db_id) (λ a, claimed a ∧ a.(submitter_id) = sub)
  | _ => True
  end.

Definition exec_ok (w : World) (e : Execution) : Prop :=
  e.(e_sent) `prefix_of` script_statements unicode_alphanumeric e.(e_sql) ∧
  row_of w e.(e_id) e.(e_sql) e.(e_target) (λ a, claimed a ∧
    match e.(e_via) with
    | ViaRest => a.(reviewer_id) = Some e.(e_by)
    | ViaMcp => a.(submitter_id) = e.(e_by)
    end).

Lemma row_of_grows w w' id sql target (P Q : Approval → Prop) :
  (∀ a b, row_le a b → P a → Q b) → grows w w' → row_of w id sql target P → row_of w' id sql target Q.
Proof.
  intros HPQ Hg (a & Ha & Hs & Ht & HP). destruct (Hg id a Ha) as (b & Hb & Hle).
  exists b. split_and!; [done|by rewrite (rl_sql _ _ Hle)|by rewrite (rl_target _ _ Hle)|by eapply HPQ].
Qed.

Lemma claimed_le a b : row_le a b → claimed a → claimed b ∧ b.(reviewer_id) = a.(reviewer_id).
Proof. intros [] [Hs He]. destruct (rl_status0 Hs). unfold claimed. auto. Qed.

Lemma proc_ok_grows w w' p : grows w w' → proc_ok w p → proc_ok w' p.
Proof.
  intros Hg. destruct p; cbn; try done; apply row_of_grows; try done; intros a b Hle.
  - intros [Hc Hr]. destruct (claimed_le a b Hle Hc) as [? ->]. done.
  - intros [Hs Hr]. destruct Hle. by destruct (rl_status0 Hs); split; [|congruence].
  - intros [Hs Hr]. destruct Hle. by destruct (rl_status0 Hs); split; [|congruence].
  - intros [Hc Hr]. destruct (claimed_le a b Hle Hc). destruct Hle. by split; [|congruence].
Qed.

Lemma exec_ok_grows w w' e : grows w w' → exec_ok w e → exec_ok w' e.
Proof.
  intros Hg [Hpre He]. split; [done|]. revert He. apply row_of_grows; [|done]. intros a b Hle [Hc Hv].
  destruct (claimed_le a b Hle Hc) as [? Hr]. destruct Hle. destruct (e_via e); split; congruence.
Qed.

(** Runs done and runs about to be done for an approval. *)
Definition executes (id : string) (p : proc) : Prop :=
  match p with ExecTask _ i _ _ | ExecuteWriteRun _ i _ => i = id | _ => False end.
#[local] Instance executes_dec id p : Decision (executes id p).
Proof. destruct p; cbn; apply _. Defined.
Definition pending_runs (id : string) (ps : list proc) : nat := length (filter (executes id) ps).
Definition runs (id : string) (w : World) : nat :=
  length (filter (λ e, e.(e_id) = id) w.(executions)).

Record inv (s : System) : Prop := {
  inv_procs : Forall (proc_ok s.1) s.2;
  inv_execs : Forall (exec_ok s.1) s.1.(executions);
  inv_once : ∀ id, runs id s.1 + pending_runs id s.2 ≤ 1 }.

Lemma pending_runs_app id ps qs : pending_runs id (ps ++ qs) = pending_runs id ps + pending_runs id qs.
Proof. unfold pending_runs. by rewrite filter_app, length_app. Qed.

(** An approval some run is due to has been claimed. *)
Lemma due_claimed s id : inv s → 0 < runs id s.1 + pending_runs id s.2 →
  ∃ a, s.1.(approvals) !! id = Some a ∧ claimed a.
Proof.
  intros [Hp He _] Hpos. destruct (decide (0 < runs id s.1)) as [Hr|Hr].
  - destruct (filter (λ e, e_id e = id) (executions s.1)) as [|e l] eqn:E.
    { unfold runs in Hr. rewrite E in Hr. cbn in Hr. lia. }
    assert (Hin : e ∈ filter (λ e, e_id e = id) (executions s.1)) by (rewrite E; by left).
    apply list_elem_of_filter in Hin as [<- Hin]. rewrite Forall_forall in He.
    destruct (He e Hin) as (_ & a & Ha & _ & _ & Hc & _). eauto.
  - destruct (filter (executes id) s.2) as [|p l] eqn:E.
    { unfold pending_runs in Hpos. rewrite E in Hpos. cbn in Hpos. lia. }
    assert (Hin : p ∈ filter (executes id) s.2) by (rewrite E; by left).
    apply list_elem_of_filter in Hin as [Hx Hin]. rewrite Forall_forall in Hp. specialize (Hp p Hin).
    destruct p; cbn in Hx; try done; subst; destruct Hp as (a & Ha & _ & _ & Hc & _); eauto.
Qed.

(** What the step of a process must guarantee. *)
Record good (w : World) (p : proc) (w' : World) (qs : list proc) : Prop := {
  good_grows : grows w w';
  good_procs : Forall (proc_ok w') qs;
  good_execs : ∃ new, w'.(executions) = w.(executions) ++ new ∧ Forall (exec_ok w') new;
  good_once : ∀ id,
    runs id w' + pending_runs id qs ≤ runs id w + pending_runs id [p] ∨
    (∃ a, w.(approvals) !! id = Some a ∧ ¬ claimed a) ∧ runs id w' = runs id w ∧ pending_runs id qs ≤ 1 }.

(** A step that neither executes nor claims. *)
Lemma good_quiet w p w' qs : executions w' = executions w → grows w w' →
  Forall (proc_ok w') qs → (∀ id, pending_runs id qs = 0) → good w p w' qs.
Proof.
  intros He Hg Hq H0. split; [done|done|exists []; by rewrite app_nil_r|].
  intros id. left. unfold runs. rewrite He, H0. lia.
Qed.

Lemma good_read w p qs : Forall (proc_ok w) qs → (∀ id, pending_runs id qs = 0) → good w p w qs.
Proof. intros. by apply good_quiet; [|apply grows_same|..]. Qed.

Lemma good_answer w p : good w p w [].
Proof. by apply good_read; [constructor|]. Qed.

(** A claim of an approval nobody had claimed. *)
Lemma good_claim w p w' q id a : approvals w !! id = Some a → ¬ claimed a →
  executions w' = executions w → grows w w' → proc_ok w' q →
  (∀ i, pending_runs i [q] = if decide (i = id) then 1 else 0) → good w p w' [q].
Proof.
  intros Ha Hc He Hg Hq Hn. split; [done|by constructor|exists []; by rewrite app_nil_r|].
  intros i. rewrite Hn. unfold runs. rewrite He. destruct (decide (i = id)) as [->|Hne]; [right; eauto|left; lia].
Qed.

(** The run itself: the process becomes an execution. *)
Lemma execute_sent a w target sql r sent : execute_ddl_on_target a w target sql = (r, sent) →
  sent `prefix_of` script_statements unicode_alphanumeric sql.
Proof. unfold execute_ddl_on_target. intros H. by apply execute_contract in H as [? _]. Qed.

Lemma good_run w p q e : exec_ok w e → executes (e_id e) p → proc_ok w q →
  (∀ i, pending_runs i [q] = 0) → good w p (with_execution e w) [q].
Proof.
  intros He Hx Hq Hn. assert (Hg : grows w (with_execution e w)) by by apply grows_same.
  split; [done| |exists [e]; split; [done|]|].
  - constructor; [|constructor]. by eapply proc_ok_grows.
  - constructor; [|constructor]. by eapply exec_ok_grows.
  - intros i. left. rewrite Hn. unfold runs. cbn [with_execution executions]. rewrite filter_app, length_app.
    unfold pending_runs. rewrite !filter_cons, !filter_nil.
    destruct (decide (e_id e = i)) as [<-|]; [rewrite (decide_True (P := executes _ p)) by done|]; cbn; lia.
Qed.

Lemma persist_quiet a id r w : executions (persist a id r w) = executions w ∧ grows w (persist a id r w).
Proof.
  unfold persist. destruct (ans_db a); [|by split; [|apply grows_same]].
  split; [done|]. eapply grows_alter; [apply finish_row_le|done].
Qed.

Lemma insert_approval_good a w row w' p : insert_approval a w row = Ok w' → good w p w' [].
Proof.
  unfold insert_approval. intros H. inv_binds. destruct (approvals w !! ans_uuid a) eqn:Hu; simplify_eq.
  apply good_quiet; [done|by eapply grows_fresh|by constructor|done].
Qed.

Lemma load_own_inv a w sub id row : load_own_approval a w sub id = Ok row →
  approvals w !! id = Some row ∧ submitter_id row = sub.
Proof.
  unfold load_own_approval. destruct (ans_db a); [|done]. destruct (approvals w !! id); [|done].
  case_decide; naive_solver.
Qed.

Lemma submit_good a w sub sql target p w' qs r :
  submit_approval a w sub sql target = (w', qs, r) → good w p w' qs.
Proof.
  unfold submit_approval. destruct (gate_blocked w); [intros [= <- <- <-]; apply good_answer|].
  destruct (insert_approval _ _ _) eqn:Hi; intros [= <- <- <-]; [by eapply insert_approval_good|apply good_answer].
Qed.

Lemma approve_good a w sub id p w' qs r :
  approve_approval a w sub id = (w', qs, r) → good w p w' qs.
Proof.
  unfold approve_approval. destruct (gate_blocked w); [intros [= <- <- <-]; apply good_answer|].
  destruct (ans_db a); [|intros [= <- <- <-]; apply good_answer].
  destruct (approvals w !! id) as [row|] eqn:Ha; [|intros [= <- <- <-]; apply good_answer].
  case_decide; intros [= <- <- <-]; [|apply good_answer].
  apply good_read; [|done]. constructor; [|constructor]. by exists row.
Qed.

Lemma approve_claim_good a w sub id sql target w' qs r : proc_ok w (ApproveClaim sub id sql target) →
  approve_claim a w sub id sql target = (w', qs, r) → good w (ApproveClaim sub id sql target) w' qs.
Proof.
  intros (row' & Hr' & Hs & Ht & _). unfold approve_claim.
  destruct (ans_db a); [|intros [= <- <- <-]; apply good_answer].
  rewrite Hr'. case_decide as Hp; [|intros [= <- <- <-]; apply good_answer].
  intros [= <- <- <-]. eapply good_claim; [done|intros [? _]; done|done| | |].
  - eapply grows_insert; [done|by apply claim_row_le|done].
  - eexists. cbn. rewrite lookup_insert_eq. by split_and!.
  - intros i. unfold pending_runs. rewrite filter_cons, filter_nil. cbn [executes].
    destruct (decide (id = i)), (decide (i = id)); congruence || done.
Qed.

Lemma exec_task_good a w sub id sql target w' qs r : proc_ok w (ExecTask sub id sql target) →
  exec_task a w sub id sql target = (w', qs, r) → good w (ExecTask sub id sql target) w' qs.
Proof.
  intros Hp. unfold exec_task. destruct (execute_ddl_on_target a w target sql) as [res sent] eqn:He.
  intros [= <- <- <-]. apply execute_sent in He. by apply good_run.
Qed.

Lemma persist_good a w id r p qs : Forall (proc_ok (persist a id r w)) qs →
  (∀ i, pending_runs i qs = 0) → good w p (persist a id r w) qs.
Proof. intros. by apply good_quiet; [apply persist_quiet|apply persist_quiet|..]. Qed.

Lemma reject_good a w id p w' qs r : reject_approval a w id = (w', qs, r) → good w p w' qs.
Proof.
  unfold reject_approval. destruct (gate_blocked w); [intros [= <- <- <-]; apply good_answer|].
  intros [= <- <- <-]. destruct (ans_db a); [|apply good_answer].
  apply good_quiet; [done| |by constructor|done]. eapply grows_alter; [apply reject_row_le|done].
Qed.

Lemma submit_write_good a w sub args p w' qs r :
  submit_write a w sub args = (w', qs, r) → good w p w' qs.
Proof.
  unfold submit_write. destruct (write_gate_blocked w); [intros [= <- <- <-]; apply good_answer|].
  match goal with |- match ?m with _ => _ end = _ → _ => destruct m as [[conn sql]|] end;
    [|intros [= <- <- <-]; apply good_answer].
  destruct (ensure_connection_allowed a w conn); intros [= <- <- <-]; [|apply good_answer].
  by apply good_read; [repeat constructor|].
Qed.

Lemma submit_write_check_good a w sub conn sql p w' qs r :
  submit_write_check a w sub conn sql = (w', qs, r) → good w p w' qs.
Proof.
  unfold submit_write_check. destruct (is_read_only _); [intros [= <- <- <-]; apply good_answer|].
  case_decide; [intros [= <- <- <-]; apply good_answer|].
  destruct (ans_db a); [|intros [= <- <- <-]; apply good_answer].
  destruct (database_connections w !! conn); intros [= <- <- <-]; [|apply good_answer].
  by apply good_read; [repeat constructor|].
Qed.

Lemma submit_write_insert_good a w sub conn sql p w' qs r :
  submit_write_insert a w sub conn sql = (w', qs, r) → good w p w' qs.
Proof.
  unfold submit_write_insert. destruct (insert_approval _ _ _) eqn:Hi; intros [= <- <- <-];
    [by eapply insert_approval_good|apply good_answer].
Qed.

Lemma execute_write_good a w sub args p w' qs r :
  execute_write a w sub args = (w', qs, r) → good w p w' qs.
Proof.
  unfold execute_write. destruct (write_gate_blocked w); [intros [= <- <- <-]; apply good_answer|].
  destruct (require_str args _) as [id|]; [|intros [= <- <- <-]; apply good_answer].
  destruct (load_own_approval a w sub id) as [row|] eqn:Hl; [|intros [= <- <- <-]; apply good_answer].
  apply load_own_inv in Hl as [Ha Hs].
  case_decide as Hst; intros [= <- <- <-]; [|apply good_answer].
  apply good_read; [|done]. constructor; [|constructor]. exists row. by rewrite Hst.
Qed.

Lemma execute_write_allowed_good a w sub id row w' qs r : proc_ok w (ExecuteWriteAllowed sub id row) →
  execute_write_allowed a w sub id row = (w', qs, r) → good w (ExecuteWriteAllowed sub id row) w' qs.
Proof.
  intros Hp. unfold execute_write_allowed.
  destruct (ensure_connection_allowed a w _); intros [= <- <- <-]; [|apply good_answer].
  by apply good_read; [constructor; [|constructor]|].
Qed.

Lemma execute_write_claim_good a w sub id row w' qs r : proc_ok w (ExecuteWriteClaim sub id row) →
  execute_write_claim a w sub id row = (w', qs, r) → good w (ExecuteWriteClaim sub id row) w' qs.
Proof.
  intros (cur & Hc & Hs & Ht & Hst & Hsub). unfold execute_write_claim.
  destruct (ans_db a); [|intros [= <- <- <-]; apply good_answer].
  rewrite Hc. case_decide as Hp; intros [= <- <- <-]; [|by apply good_read; [repeat constructor|]].
  eapply good_claim; [done|intros [_ ?]; done|done| | |].
  - eapply grows_insert; [done|by apply claim_exec_row_le|done].
  - eexists. cbn. rewrite lookup_insert_eq. by split_and!.
  - intros i. unfold pending_runs. rewrite filter_cons, filter_nil. cbn [executes].
    destruct (decide (id = i)), (decide (i = id)); congruence || done.
Qed.

Lemma execute_write_run_good a w sub id row w' qs r : proc_ok w (ExecuteWriteRun sub id row) →
  execute_write_run a w sub id row = (w', qs, r) → good w (ExecuteWriteRun sub id row) w' qs.
Proof.
  intros Hp. unfold execute_write_run. destruct (execute_ddl_on_target a w _ _) as [res sent] eqn:He.
  intros [= <- <- <-]. apply execute_sent in He. by apply good_run.
Qed.

Lemma forking_step_good a w p w' qs r : proc_ok w p → step a w p = (w', qs, r) → good w p w' qs.
Proof.
  intros Hp. destruct p; cbn [step].
  - apply submit_good.
  - apply approve_good.
  - by apply approve_claim_good.
  - by apply exec_task_good.
  - intros [= <- <- <-]. by apply persist_good; [repeat constructor|].
  - unfold exec_audit. intros [= <- <- <-]. by destruct (ans_db a); [|apply good_answer];
      apply good_quiet; [|apply grows_same|constructor|].
  - apply reject_good.
  - apply submit_write_good.
  - apply submit_write_check_good.
  - apply submit_write_insert_good.
  - apply execute_write_good.
  - by apply execute_write_allowed_good.
  - by apply execute_write_claim_good.
  - by apply execute_write_run_good.
  - intros [= <- <- <-]. by apply persist_good; [constructor|].
  - unfold current_exec_state. destruct (ans_db a), (approvals w !! id); intros [= <- <- <-]; apply good_answer.
  - intros [= <- <- <-]. apply good_answer.
Qed.

Lemma inv_step s s' : inv s → sys_step s s' → inv s'.
Proof.
  intros Hinv Hst. destruct Hst as [w ps p Hreq|w ps1 p ps2 a w' qs r Hs|w ps conns ent|w ps].
  - destruct Hinv as [Hp He Ho]. split; [apply Forall_app; split; [done|]|done|].
    + constructor; [by destruct p|constructor].
    + intros id. cbn [fst snd] in *. rewrite pending_runs_app. specialize (Ho id).
      assert (pending_runs id [p] = 0) by by destruct p. lia.
  - pose proof Hinv as [Hp He Ho]. cbn [fst snd] in *.
    apply Forall_app in Hp as [Hp1 Hp]. apply Forall_cons in Hp as [Hpp Hp2].
    destruct (forking_step_good _ _ _ _ _ _ Hpp Hs) as [Hg Hq (new & Hn & Hnew) Honce].
    assert (Hmono : ∀ l, Forall (proc_ok w) l → Forall (proc_ok w') l)
      by (intros l Hl; eapply Forall_impl; [exact Hl|]; intros q; by apply proc_ok_grows).
    split; cbn [fst snd].
    + rewrite !Forall_app. auto.
    + rewrite Hn. apply Forall_app. split; [|done].
      eapply Forall_impl; [exact He|]. intros; by eapply exec_ok_grows.
    + intros id. specialize (Ho id). cbn [fst snd] in Ho. change (p :: ps2) with ([p] ++ ps2) in Ho.
      rewrite !pending_runs_app in Ho. rewrite !pending_runs_app. destruct (Honce id) as [Hle|((x & Hx & Hnc) & Hr & Hq1)]; [lia|].
      destruct (decide (0 < runs id w + pending_runs id (ps1 ++ p :: ps2))) as [Hpos|Hz].
      * destruct (due_claimed (w, ps1 ++ p :: ps2) id Hinv Hpos) as (y & Hy & Hcl). cbn in Hy. by simplify_eq.
      * change (p :: ps2) with ([p] ++ ps2) in Hz. rewrite !pending_runs_app in Hz. cbn [fst snd] in *. lia.
  - destruct Hinv as [Hp He Ho]. split; [| |exact Ho].
    + eapply Forall_impl; [exact Hp|]. intros q. apply proc_ok_grows. by apply grows_same.
    + eapply Forall_impl; [exact He|]. intros q. apply exec_ok_grows. by apply grows_same.
  - destruct Hinv as [Hp He Ho]. split; [constructor|done|]. intros id. specialize (Ho id). cbn in *. lia.
Qed.

Lemma inv_reachable tbl s : reachable tbl s → inv s.
Proof.
  intros (s0 & (Hps & _ & He) & Hr).
  assert (H0 : inv s0).
  { destruct s0 as [w ps]. cbn in *. subst ps. split; cbn; [constructor|by rewrite He|].
    intros id. unfold runs. rewrite He. cbn. lia. }
  clear Hps He. induction Hr as [|s1 s2 s3 Hst _ IH]; [done|]. by apply IH, (inv_step s1).
Qed.

(** C1. However requests, failures, restarts and license changes interleave, and
    whatever the table held at first, the SQL of an approval is run at most
    once. *)
Theorem executed_at_most_once tbl s id : reachable tbl s → runs id s.1 ≤ 1.
Proof. intros [_ _ Ho]%inv_reachable. specialize (Ho id). lia. Qed.

(** C2. Whatever has been run is exactly the script and the target stored in its
    approval when it was submitted, and what was sent are the first statements
    of that script; the approval is no longer pending, and the one who ran it
    is the recorded reviewer, or, through the MCP tool, the submitter. *)
Theorem executed_as_reviewed tbl s e : reachable tbl s → e ∈ s.1.(executions) →
  e.(e_sent) `prefix_of` script_statements unicode_alphanumeric e.(e_sql) ∧
  ∃ a, s.1.(approvals) !! e.(e_id) = Some a ∧ a.(ddl_sql) = e.(e_sql) ∧
    a.(target_db_id) = e.(e_target) ∧ a.(status) ≠ "pending" ∧ a.(exec_status) ≠ "pending" ∧
    match e.(e_via) with
    | ViaRest => a.(reviewer_id) = Some e.(e_by)
    | ViaMcp => a.(submitter_id) = e.(e_by)
    end.
Proof.
  intros [_ He _]%inv_reachable Hin. rewrite Forall_forall in He.
  destruct (He e Hin) as (? & a & ? & ? & ? & [? ?] & ?). split; [done|]. by exists a.
Qed.

(** ** The MCP tool *)

(** An approved row has been run, or is being run. *)
Definition rows_ok (m : gmap string Approval) : Prop := ∀ id a,
  m !! id = Some a → a.(status) = "approved" → a.(exec_status) ≠ "pending".

Lemma rows_ok_insert m id b : rows_ok m → (b.(status) = "approved" → b.(exec_status) ≠ "pending") →
  rows_ok (<[id := b]> m).
Proof.
  intros Hm Hb i a. destruct (decide (id = i)) as [->|Hne].
  - rewrite lookup_insert_eq. by intros [= <-].
  - rewrite lookup_insert_ne by done. apply Hm.
Qed.

Lemma rows_ok_alter m f id : rows_ok m →
  (∀ b, (b.(status) = "approved" → b.(exec_status) ≠ "pending") →
        (f b).(status) = "approved" → (f b).(exec_status) ≠ "pending") →
  rows_ok (alter f id m).
Proof.
  intros Hm Hf i a. destruct (decide (id = i)) as [->|Hne].
  - rewrite lookup_alter_eq. destruct (m !! i) as [b|] eqn:Hb; [|done]. cbn. intros [= <-].
    apply Hf. by apply (Hm i).
  - rewrite lookup_alter_ne by done. apply Hm.
Qed.

Definition tool_idle (w : World) (p : proc) : Prop :=
  match p with
  | ExecuteWriteAllowed _ id _ | ExecuteWriteClaim _ id _ =>
      ∃ a, w.(approvals) !! id = Some a ∧ a.(exec_status) ≠ "pending"
  | ExecuteWriteRun _ _ _ => False
  | _ => True
  end.

Lemma tool_idle_grows w w' p : grows w w' → tool_idle w p → tool_idle w' p.
Proof.
  intros Hg. destruct p; cbn; try done; intros (a & Ha & He);
    destruct (Hg _ _ Ha) as (b & Hb & []); eauto.
Qed.

Record tool_inv (w w' : World) (qs : list proc) : Prop := {
  ti_rows : rows_ok w'.(approvals);
  ti_idle : Forall (tool_idle w') qs;
  ti_rest : ∃ new, w'.(executions) = w.(executions) ++ new ∧ Forall (λ e, e.(e_via) = ViaRest) new }.

Lemma tool_inv_quiet w w' qs : rows_ok w'.(approvals) → Forall (tool_idle w') qs →
  executions w' = executions w → tool_inv w w' qs.
Proof. intros H1 H2 He. split; [done|done|exists []; by rewrite app_nil_r]. Qed.

Lemma persist_rows a id r w : rows_ok (approvals w) → rows_ok (approvals (persist a id r w)).
Proof.
  intros Hw. unfold persist. destruct (ans_db a); [|done]. apply rows_ok_alter; [done|].
  intros b _. by destruct r.
Qed.

Lemma insert_approval_tool a w sub sql target w' : rows_ok (approvals w) →
  insert_approval a w (new_approval sub sql target (ans_now a)) = Ok w' → tool_inv w w' [].
Proof.
  unfold insert_approval. intros Hw Hi. inv_binds. destruct (approvals w !! ans_uuid a); simplify_eq.
  apply tool_inv_quiet; [by apply rows_ok_insert|constructor|done].
Qed.

Ltac step_cases :=
  repeat (case_match || case_decide); intros [= <- <- <-];
  try (apply tool_inv_quiet; [done|by repeat constructor|reflexivity]).

Lemma step_tool a w p w' qs r : rows_ok w.(approvals) → tool_idle w p →
  step a w p = (w', qs, r) → tool_inv w w' qs.
Proof.
  intros Hw Hp. destruct p; cbn [step] in *.
  - unfold submit_approval, answer. destruct (gate_blocked w); [step_cases|].
    destruct (insert_approval _ _ _) eqn:Hi; [|step_cases]. intros [= <- <- <-].
    by eapply insert_approval_tool.
  - unfold approve_approval, answer, goto. step_cases.
  - unfold approve_claim, answer. step_cases.
    apply tool_inv_quiet; [by apply rows_ok_insert|repeat constructor|done].
  - unfold exec_task, goto. destruct (execute_ddl_on_target _ _ _ _). intros [= <- <- <-].
    split; [done|repeat constructor|]. eexists [_]. split; [reflexivity|]. by constructor.
  - unfold goto. intros [= <- <- <-].
    apply tool_inv_quiet; [by apply persist_rows|repeat constructor|apply persist_quiet].
  - unfold exec_audit. intros [= <- <- <-]. by destruct (ans_db a); apply tool_inv_quiet.
  - unfold reject_approval, answer. destruct (gate_blocked w); [step_cases|]. intros [= <- <- <-].
    destruct (ans_db a); (apply tool_inv_quiet; [|constructor|done]); [|done].
    by apply rows_ok_alter.
  - unfold submit_write, answer, goto. step_cases.
  - unfold submit_write_check, answer, goto. step_cases.
  - unfold submit_write_insert, answer. destruct (insert_approval _ _ _) eqn:Hi; [|step_cases].
    intros [= <- <- <-]. by eapply insert_approval_tool.
  - unfold execute_write, answer, goto. destruct (write_gate_blocked w); [step_cases|].
    destruct (require_str args _) as [id|]; [|step_cases].
    destruct (load_own_approval a w sub id) as [row|] eqn:Hl; [|step_cases].
    apply load_own_inv in Hl as [Ha _]. case_decide as Hst; [|step_cases]. intros [= <- <- <-].
    apply tool_inv_quiet; [done| |done]. constructor; [|constructor]. exists row. split; [done|by apply (Hw id)].
  - unfold execute_write_allowed, answer, goto. destruct (ensure_connection_allowed _ _ _); step_cases.
  - destruct Hp as (x & Hx & He). unfold execute_write_claim, answer, goto. rewrite Hx.
    rewrite decide_False by done. step_cases.
  - done.
  - unfold execute_write_persist, answer. intros [= <- <- <-].
    apply tool_inv_quiet; [by apply persist_rows|constructor|apply persist_quiet].
  - unfold current_exec_state, answer. step_cases.
  - unfold answer. step_cases.
Qed.

Record tool_state (s : System) : Prop := {
  ts_inv : inv s;
  ts_rows : rows_ok s.1.(approvals);
  ts_idle : Forall (tool_idle s.1) s.2;
  ts_rest : Forall (λ e, e.(e_via) = ViaRest) s.1.(executions) }.

Lemma tool_state_step s s' : tool_state s → sys_step s s' → tool_state s'.
Proof.
  intros [Hinv Hw Hi He] Hst. pose proof (inv_step _ _ Hinv Hst) as Hinv'.
  destruct Hst as [w ps p Hreq|w ps1 p ps2 a w' qs r Hs|w ps conns ent|w ps]; cbn [fst snd] in *.
  - split; [done..| |done]. apply Forall_app. split; [done|]. constructor; [by destruct p|constructor].
  - apply Forall_app in Hi as [Hi1 Hi]. apply Forall_cons in Hi as [Hip Hi2].
    destruct (step_tool _ _ _ _ _ _ Hw Hip Hs) as [Hw' Hq (new & Hn & Hnew)].
    assert (Hpp : proc_ok w p).
    { destruct Hinv as [Hp _ _]. cbn in Hp. rewrite Forall_app, Forall_cons in Hp. tauto. }
    destruct (forking_step_good _ _ _ _ _ _ Hpp Hs) as [Hg _ _ _].
    assert (Hmono : ∀ l, Forall (tool_idle w) l → Forall (tool_idle w') l)
      by (intros l Hl; eapply Forall_impl; [exact Hl|]; intros q; by apply tool_idle_grows).
    split; cbn [fst snd]; [done..| |].
    + rewrite !Forall_app. auto.
    + rewrite Hn. by apply Forall_app.
  - split; [done..| |done]. eapply Forall_impl; [exact Hi|]. intros q. apply tool_idle_grows. by apply grows_same.
  - split; [done..|constructor|done].
Qed.

(** The MCP tool never runs anything: approving a row through the REST API
    runs it at once and leaves nothing to claim, so every run was started by
    an approval request (on a table without rows approved but never run, as
    rows approved by versions before migration 009 are). *)
Theorem mcp_never_executes tbl s e : rows_ok tbl → reachable tbl s →
  e ∈ s.1.(executions) → e.(e_via) = ViaRest.
Proof.
  intros Htbl (s0 & (Hps & Ht & He) & Hr).
  assert (H0 : tool_state s0).
  { split; [|by rewrite Ht|by rewrite Hps|by rewrite He].
    apply (inv_reachable tbl). by exists s0. }
  clear Hps Ht He Htbl. induction Hr as [s|s1 s2 s3 Hst _ IH]; [|by apply IH, (tool_state_step s1)].
  intros Hin. pose proof (ts_rest _ H0) as H. rewrite Forall_forall in H. by apply H.
Qed.
End Workflow.

(** ** Concrete histories *)

#[local] Existing Instance tlv_printer.

Local Notation parse1 := (λ _ : string, Some [SDrop]).
Local Notation run := (run_schedule ascii_only no_upper (λ s, s) parse1 parse1 parse1 []).
Local Notation sys_reachable := (reachable ascii_only no_upper (λ s, s) parse1 parse1 parse1 []).

Definition ok_at (now uuid : string) : Answer :=
  {| ans_db := Ok tt; ans_now := now; ans_uuid := uuid; ans_decrypt := Ok tt; ans_guard := true;
     ans_backend := λ _ _, Ok tt |}.
Definition ex_world (tbl : gmap string Approval) : World :=
  {| approvals := tbl; database_connections := {["db" := ex_target]}; entitlement := Trial 0;
     audit := []; executions := [] |}.
Definition ex_pending : Approval := new_approval "alice" "DROP TABLE c; DROP TABLE d" "db" "t0".
Definition ex_table : gmap string Approval := {["a1" := ex_pending]}.

(** Two reviewers race; the submitter tries the MCP tool afterwards. *)
Definition ex_requests : list proc :=
  [ApproveApproval "bob" "a1"; ApproveApproval "carol" "a1";
   ExecuteWrite "alice" [("approval_id", JStr "a1")]].
Definition ex_schedule : list (nat * Answer) :=
  [(0, ok_at "t1" ""); (1, ok_at "t1" ""); (1, ok_at "t2" ""); (0, ok_at "t3" "");
   (0, ok_at "t4" ""); (0, ok_at "t5" ""); (0, ok_at "t6" ""); (0, ok_at "t7" "");
   (0, ok_at "t8" ""); (0, ok_at "t9" ""); (0, ok_at "t10" "")].
Definition ex_final : System := default (ex_world ∅, []) (run ex_schedule (ex_world ex_table, ex_requests)).

Lemma requests_arrive w ps : Forall (λ p, is_request p = true) ps →
  rtc (sys_step ascii_only no_upper (λ s, s) parse1 parse1 parse1 []) (w, []) (w, ps).
Proof.
  induction ps as [|p ps IH] using rev_ind; [done|]. intros [H1 H2]%Forall_app.
  eapply rtc_r; [by apply IH|]. constructor. by apply Forall_cons in H2 as [? _].
Qed.

Lemma forking_ex_reachable sched s :
  run sched (ex_world ex_table, ex_requests) = Some s → sys_reachable ex_table s.
Proof.
  intros H. exists (ex_world ex_table, []). split; [done|]. etrans.
  - apply (requests_arrive _ ex_requests). by repeat constructor.
  - by eapply forking_schedule_steps.
Qed.

Lemma executed_at_most_once_witness :
  runs "a1" ex_final.1 ≤ 1 ∧ runs "a1" ex_final.1 = 1 ∧ ex_final.2 = [].
Proof.
  split; [|by vm_compute].
  apply (executed_at_most_once ascii_only no_upper (λ s, s) parse1 parse1 parse1 [] ex_table).
  apply (forking_ex_reachable ex_schedule). vm_compute. reflexivity.
Defined.

Lemma executed_as_reviewed_witness :
  ∃ e a, ex_final.1.(executions) = [e] ∧ ex_final.1.(approvals) !! e.(e_id) = Some a ∧
    a.(ddl_sql) = "DROP TABLE c; DROP TABLE d" ∧ a.(reviewer_id) = Some "carol".
Proof.
  set (e := {| e_id := "a1"; e_sql := "DROP TABLE c; DROP TABLE d"; e_target := "db"; e_by := "carol";
    e_via := ViaRest; e_sent := chars_of <$> ["DROP TABLE c"; "DROP TABLE d"]; e_result := Ok tt |}).
  assert (He : ex_final.1.(executions) = [e]) by (vm_compute; reflexivity).
  destruct (executed_as_reviewed ascii_only no_upper (λ s, s) parse1 parse1 parse1 [] ex_table ex_final e)
    as (_ & a & Ha & Hs & _ & _ & _ & Hr).
  - apply (forking_ex_reachable ex_schedule). vm_compute. reflexivity.
  - rewrite He. by left.
  - exists e, a. by split_and!.
Defined.

Lemma mcp_never_executes_witness : ∃ e, ex_final.1.(executions) = [e] ∧ e.(e_via) = ViaRest.
Proof.
  destruct (executions ex_final.1) as [|e [|]] eqn:He; [by vm_compute in He| |by vm_compute in He].
  exists e. split; [done|].
  apply (mcp_never_executes ascii_only no_upper (λ s, s) parse1 parse1 parse1 [] ex_table ex_final).
  - intros id a. unfold ex_table. intros [_ <-]%lookup_singleton_Some. by intros [=].
  - apply (forking_ex_reachable ex_schedule). vm_compute. reflexivity.
  - rewrite He. by left.
Defined.

(** A rejection that arrives while the approval runs is answered with success
    and then overwritten; one that arrives afterwards relabels what has run. *)
Definition status_of (s : option System) : option (string * string) :=
  (λ a, (a.(status), a.(exec_status))) <$> (s ≫= λ s, s.1.(approvals) !! "a1").
Example rejection_overwritten :
  status_of (run [(0, ok_at "t1" ""); (0, ok_at "t2" ""); (1, ok_at "t3" ""); (0, ok_at "t4" "");
                  (0, ok_at "t5" "")]
    (ex_world ex_table, [ApproveApproval "bob" "a1"; RejectApproval "carol" "a1"]))
  = Some ("approved", "approved").
Proof. by vm_compute. Qed.
Example rejected_after_the_run :
  status_of (run [(0, ok_at "t1" ""); (0, ok_at "t2" ""); (0, ok_at "t3" ""); (0, ok_at "t4" "");
                  (1, ok_at "t5" "")]
    (ex_world ex_table, [ApproveApproval "bob" "a1"; RejectApproval "carol" "a1"]))
  = Some ("rejected", "approved").
Proof. by vm_compute. Qed.
