(* ===== verification/Schedule.v ===== *)
(** * The schedulers
    (crates/drift, crates/data_sync, crates/health_check: scheduler.rs)

    The three schedulers share one shape: every minute the enabled tasks of
    their type are scanned, those that are due and not already running are
    marked and started on a task of their own, and a finished run clears its
    mark.  They differ in [is_due].  The cron crate is a parameter, and
    reading the configuration JSON is the class [Reader]. *)

From S2P Require Import Prelude RustStr Clock Json SqlSplit DdlExec.
From stdpp Require Import relations.

(** ** When a task is due *)

(** [str::split_whitespace().count()]. *)
Fixpoint count_words (in_word : bool) (s : list char) : nat :=
  match s with
  | [] => 0
  | c :: r => if is_whitespace c then count_words false r
              else (if in_word then 0 else 1) + count_words true r
  end.

Section Due.
Context `{TimestampCodec}.

(** drift: [interval_minutes] after the last run. *)
Definition is_due_interval (last_run_at : option string) (interval_minutes : Z) (now : Z) : bool :=
  match last_run_at with
  | None => true
  | Some ts => match parse_rfc3339 ts with
               | None => true
               | Some parsed => (parsed + Z.max 1 interval_minutes * MINUTE <=? now)%Z
               end
  end.

(** data_sync and health_check: some tick of the cron expression lies after the
    last run and not after now.  [cron_from_str] is [Schedule::from_str],
    [after] the first instant strictly after a given one. *)
Context {Schedule : Type} (cron_from_str : string → option Schedule) (after : Schedule → Z → option Z).

Definition parse_schedule (expr : string) : option Schedule :=
  let trimmed := RustStr.trim expr in
  cron_from_str (if decide (count_words false (utf8_chars trimmed) = 5) then "0 " +:+ trimmed else trimmed).

Definition is_due_cron (cron_expr : string) (last_run_at : option string) (now : Z) : bool :=
  match parse_schedule cron_expr with
  | None => false
  | Some schedule =>
      match last_run_at with
      | None => true
      | Some ts => match parse_rfc3339 ts with
                   | None => true
                   | Some last => match after schedule last with Some t => (t <=? now)%Z | None => false end
                   end
      end
  end.
End Due.

(** The interval of a drift task. *)
Definition as_u64 (j : json) : option Z :=
  match j with JInt z => if ((0 <=? z) && (z <? 2 ^ 64))%Z then Some z else None | _ => None end.
Definition task_interval_minutes `{Reader} (config_json : string) (dflt : Z) : Z :=
  match from_str config_json with
  | None => dflt
  | Some v => default dflt
      (x ← jget "interval_minutes" v; n ← as_u64 x;
       n ← (if (n <? 2 ^ 32)%Z then Some n else None);
       if ((1 <=? n) && (n <=? 1440))%Z then Some n else None)
  end.

(** ** Scan and dispatch *)

Record TaskRow := {
  id : string; task_type : string; enabled : bool; cron_expr : string; config : string;
  last_run_at : option string }.

(** [SCAN_SQL]: drift takes every enabled task of its type, the other two only
    those with a cron expression. *)
Definition scan_sql (type : string) (needs_cron : bool) (rows : list TaskRow) : list TaskRow :=
  filter (λ t, t.(task_type) = type ∧ t.(enabled) = true ∧ (needs_cron = true → t.(cron_expr) ≠ "")) rows.

(** [try_acquire] and [release] of [InFlightTasks]. *)
Definition try_acquire (task_id : string) (in_flight : gset string) : bool * gset string :=
  (bool_decide (task_id ∉ in_flight), {[task_id]} ∪ in_flight).
Definition release (task_id : string) (in_flight : gset string) : gset string :=
  in_flight ∖ {[task_id]}.

(** One turn of the scan loop: whether the task is started, and the marks. *)
Definition dispatch_one (due : TaskRow → bool) (t : TaskRow) (in_flight : gset string)
    : bool * gset string :=
  if due t then try_acquire t.(id) in_flight else (false, in_flight).

(** A whole scan: the tasks started, in order, and the marks after it. *)
Fixpoint scan_and_dispatch (due : TaskRow → bool) (rows : list TaskRow) (in_flight : gset string)
    : list string * gset string :=
  match rows with
  | [] => ([], in_flight)
  | t :: rows =>
      let '(started, in_flight) := dispatch_one due t in_flight in
      let '(ids, in_flight) := scan_and_dispatch due rows in_flight in
      ((if started then t.(id) :: ids else ids), in_flight)
  end.

Lemma dispatch_one_spec due t marks started marks' :
  dispatch_one due t marks = (started, marks') →
  (started = true ↔ due t = true ∧ t.(id) ∉ marks) ∧
  marks' = if due t then {[t.(id)]} ∪ marks else marks.
Proof.
  unfold dispatch_one, try_acquire. destruct (due t); intros [= <- <-]; [|naive_solver].
  rewrite bool_decide_eq_true. naive_solver.
Qed.

(** ** The scheduler as a system

    The scan takes one task per turn, while runs end and rows change.  A run
    that panics ends without clearing its mark. *)
Record Scheduler := {
  tasks : list TaskRow; scanning : option (Z * list TaskRow);
  in_flight : gset string; running : list string }.

Section System.
Context (type : string) (needs_cron : bool) (is_due : TaskRow → Z → bool).

Inductive sched_step : Scheduler → Scheduler → Prop :=
| tick s now : s.(scanning) = None → sched_step s
    {| tasks := s.(tasks); scanning := Some (now, scan_sql type needs_cron s.(tasks));
       in_flight := s.(in_flight); running := s.(running) |}
| turn s now t rest started marks : s.(scanning) = Some (now, t :: rest) →
    dispatch_one (λ t, is_due t now) t s.(in_flight) = (started, marks) → sched_step s
    {| tasks := s.(tasks); scanning := Some (now, rest); in_flight := marks;
       running := if started then s.(running) ++ [t.(id)] else s.(running) |}
| scan_ends s now : s.(scanning) = Some (now, []) → sched_step s
    {| tasks := s.(tasks); scanning := None; in_flight := s.(in_flight); running := s.(running) |}
| run_ends s r1 i r2 : s.(running) = r1 ++ i :: r2 → sched_step s
    {| tasks := s.(tasks); scanning := s.(scanning); in_flight := release i s.(in_flight);
       running := r1 ++ r2 |}
| run_panics s r1 i r2 : s.(running) = r1 ++ i :: r2 → sched_step s
    {| tasks := s.(tasks); scanning := s.(scanning); in_flight := s.(in_flight); running := r1 ++ r2 |}
| tasks_change s rows : sched_step s
    {| tasks := rows; scanning := s.(scanning); in_flight := s.(in_flight); running := s.(running) |}.

(** A server that has just started. *)
Definition boot (rows : list TaskRow) : Scheduler :=
  {| tasks := rows; scanning := None; in_flight := ∅; running := [] |}.

Definition marked (s : Scheduler) : Prop :=
  NoDup s.(running) ∧ ∀ i, i ∈ s.(running) → i ∈ s.(in_flight).

Lemma marked_step s s' : marked s → sched_step s s' → marked s'.
Proof.
  intros [Hnd Hin] Hst. destruct Hst as [s now _|s now t rest st marks _ Hd|s now _|s r1 i r2 Hr|s r1 i r2 Hr|s rows];
    try done.
  - apply dispatch_one_spec in Hd as [Hs ->]. split; cbn [running in_flight].
    + destruct st; [|done]. destruct (proj1 Hs eq_refl) as [_ Hni]. apply NoDup_app.
      split_and!; [done| |apply NoDup_singleton]. intros i Hi ->%list_elem_of_singleton. auto.
    + intros i Hi. assert (Hc : i ∈ running s ∨ st = true ∧ i = id t).
      { destruct st; [|by left]. apply elem_of_app in Hi as [?|?%list_elem_of_singleton]; auto. }
      destruct Hc as [Hc|[-> ->]]; [destruct (is_due t now); set_solver|].
      destruct (proj1 Hs eq_refl) as [-> _]. set_solver.
  - cbn. rewrite Hr in Hnd, Hin. apply NoDup_app in Hnd as (H1 & Hx & H2). apply NoDup_cons in H2 as [Hi H2].
    split; cbn [running in_flight].
    + apply NoDup_app. split_and!; [done| |done]. set_solver.
    + intros j Hj. unfold release. apply elem_of_difference. split; [set_solver|].
      intros ->%elem_of_singleton. set_solver.
  - rewrite Hr in Hnd, Hin. apply NoDup_app in Hnd as (H1 & Hx & H2). apply NoDup_cons in H2 as [Hi H2].
    split; cbn [running in_flight]; [|set_solver]. apply NoDup_app. split_and!; [done| |done]. set_solver.
Qed.

Lemma marked_reachable rows s : rtc sched_step (boot rows) s → marked s.
Proof.
  intros Hr. assert (H0 : marked (boot rows)) by (split; [constructor|by intros j ?%elem_of_nil]).
  induction Hr as [|s1 s2 s3 H _ IH]; [done|]. by apply IH, (marked_step s1).
Qed.

(** The scheduler never has two runs of a task at once, whatever the order
    of scans, starts, ends, panics and changes of the tasks. *)
Theorem one_run_in_flight rows s i :
  rtc sched_step (boot rows) s → length (filter (λ j, j = i) s.(running)) ≤ 1.
Proof.
  intros [Hnd _]%marked_reachable. induction Hnd as [|x l Hx Hnd IH]; [cbn; lia|].
  rewrite filter_cons. destruct (decide (x = i)) as [->|]; [|done].
  rewrite filter_none; [cbn; lia|]. apply Forall_forall. by intros j Hj ->.
Qed.

(** A task whose run panicked keeps its mark: it is not running and no later
    scan starts it again, for as long as the server is up. *)
Theorem panicked_task_stays_stuck rows s s' i : rtc sched_step (boot rows) s → i ∈ s.(in_flight) → i ∉ s.(running) →
  rtc sched_step s s' → i ∈ s'.(in_flight) ∧ i ∉ s'.(running).
Proof.
  intros Hm%marked_reachable Hi Hn Hr. induction Hr as [|s1 s2 s3 H _ IH]; [done|].
  apply IH; [by eapply marked_step|..]; clear IH;
    destruct H as [s now _|s now t rest st marks _ Hd|s now _|s r1 j r2 Hr|s r1 j r2 Hr|s rows0]; cbn [in_flight running] in *; try done.
  - apply dispatch_one_spec in Hd as [_ ->]. destruct (is_due t now); set_solver.
  - unfold release. rewrite Hr in Hn. set_solver.
  - apply dispatch_one_spec in Hd as [Hs _]. destruct st; [|done].
    destruct (proj1 Hs eq_refl) as [_ Ht]. rewrite elem_of_app, list_elem_of_singleton.
    intros [?| ->]; auto.
  - rewrite Hr in Hn. set_solver.
  - rewrite Hr in Hn. set_solver.
Qed.
End System.

(** ** One scan *)

(** A scan starts, in the order of the rows, exactly the tasks that are due
    and not marked, and marks every task that is due. *)
Theorem scan_starts_exactly due rows marks : NoDup (id <$> rows) →
  scan_and_dispatch due rows marks =
    (id <$> filter (λ t, due t = true ∧ t.(id) ∉ marks) rows,
     list_to_set (id <$> filter (λ t, due t = true) rows) ∪ marks).
Proof.
  revert marks. induction rows as [|t rows IH]; intros marks; cbn [scan_and_dispatch fmap list_fmap];
    [intros _; f_equal; cbn; set_solver|].
  intros [Ht Hnd]%NoDup_cons. destruct (dispatch_one due t marks) as [st marks'] eqn:Hd.
  apply dispatch_one_spec in Hd as [Hst ->]. rewrite (IH _ Hnd), !filter_cons.
  assert (Hf : filter (λ t', due t' = true ∧ id t' ∉ (if due t then {[id t]} ∪ marks else marks)) rows =
               filter (λ t', due t' = true ∧ id t' ∉ marks) rows).
  { clear -Ht. induction rows as [|x rows IH]; [done|]. rewrite !filter_cons.
    rewrite fmap_cons, not_elem_of_cons in Ht. destruct Ht as [Hx Ht]. rewrite (IH Ht).
    destruct (due t); [|done]. destruct (decide (due x = true ∧ id x ∉ marks)) as [[? ?]|Hn].
    - rewrite decide_True; [done|]. set_solver.
    - rewrite decide_False; [done|]. set_solver. }
  rewrite Hf. f_equal.
  - destruct st.
    + rewrite decide_True by by apply Hst. done.
    + rewrite decide_False; [done|]. intros H. by apply Hst in H.
  - destruct (due t) eqn:E; [|by rewrite decide_False].
    rewrite decide_True by done. set_solver.
Qed.

(** ** Due times *)

(** A task that has just run is not due again before its interval is over. *)
Lemma not_due_within_interval `{TimestampLaws} t interval now : (ts_min ≤ t ≤ ts_max)%Z →
  is_due_interval (Some (to_rfc3339 t)) interval now = true ↔ (t + Z.max 1 interval * MINUTE ≤ now)%Z.
Proof. intros Ht. unfold is_due_interval. rewrite parse_to_rfc3339 by done. apply Z.leb_le. Qed.

(** ** Concrete schedules *)

Definition ex_row (i : string) (last : option string) : TaskRow :=
  {| id := i; task_type := "schema_drift"; enabled := true; cron_expr := ""; config := "{}";
     last_run_at := last |}.
Definition ex_due (t : TaskRow) (now : Z) : bool :=
  @is_due_interval bits_codec t.(last_run_at) 5 now.

Lemma scan_starts_exactly_witness :
  let rows := [ex_row "a" None; ex_row "b" (Some (z_bits 0)); ex_row "c" None] in
  scan_and_dispatch (λ t, ex_due t MINUTE) rows {["c"]} =
    (id <$> filter (λ t, ex_due t MINUTE = true ∧ t.(id) ∉ ({["c"]} : gset string)) rows,
     list_to_set (id <$> filter (λ t, ex_due t MINUTE = true) rows) ∪ {["c"]}) ∧
  (scan_and_dispatch (λ t, ex_due t MINUTE) rows {["c"]}).1 = ["a"].
Proof.
  intros rows. split; [|vm_compute; reflexivity].
  apply (scan_starts_exactly (λ t, ex_due t MINUTE) rows {["c"]}).
  apply (bool_decide_unpack _). vm_compute. exact I.
Defined.

(** A run of [a] panics; five minutes later it is due, and is not started. *)
Definition ex_panicked : Scheduler :=
  {| tasks := [ex_row "a" None]; scanning := None; in_flight := {["a"]}; running := [] |}.

Lemma ex_panicked_reachable :
  rtc (sched_step "schema_drift" false ex_due) (boot [ex_row "a" None]) ex_panicked.
Proof.
  eapply rtc_l; [apply (tick _ _ _ _ 0); reflexivity|].
  eapply rtc_l; [eapply turn; [reflexivity|vm_compute; reflexivity]|].
  eapply rtc_l; [eapply scan_ends; reflexivity|].
  eapply rtc_l; [apply (run_panics _ _ _ _ [] "a" []); reflexivity|].
  apply rtc_refl.
Qed.

Lemma one_run_in_flight_witness : length (filter (λ j, j = "a") (running ex_panicked)) ≤ 1.
Proof. exact (one_run_in_flight "schema_drift" false ex_due _ _ "a" ex_panicked_reachable). Defined.

Lemma panicked_task_stays_stuck_witness :
  "a" ∈ in_flight ex_panicked ∧ "a" ∉ running {|
    tasks := [ex_row "a" None]; scanning := Some (5 * MINUTE, [])%Z; in_flight := {["a"]}; running := [] |}.
Proof.
  split; [unfold ex_panicked; cbn [in_flight]; set_solver|].
  refine (proj2 (panicked_task_stays_stuck "schema_drift" false ex_due _ ex_panicked _ "a"
    ex_panicked_reachable _ _ _)).
  - unfold ex_panicked. cbn [in_flight]. set_solver.
  - by apply not_elem_of_nil.
  - eapply rtc_l; [apply (tick _ _ _ _ (5 * MINUTE)); reflexivity|].
    eapply rtc_l; [eapply turn; [reflexivity|vm_compute; reflexivity]|]. apply rtc_refl.
Defined.
