(* ===== verification/SyncConfig.v ===== *)
(** * Data-sync tasks: configuration and generated SQL
    (crates/data_sync/src/config.rs, sql.rs, and the statement builders of
    runner.rs)

    The validation of a task, the text of the batch SELECT, and the pieces of
    the batch INSERT: what sqlx's QueryBuilder is fed, text and bound values.
    RFC 3339 parsing and JSON printing are parameters. *)

From S2P Require Import Prelude RustStr Clock Json.

(** ** config.rs *)

Record SourceConfig := { s_connection_id : string; s_database : option string; s_table : string }.
Record TargetConfig := { t_connection_id : string; t_database : option string; t_table : string }.
Inductive JoinType := LeftJoin.
Record JoinTable := {
  j_table : string; j_alias : option string; j_type : JoinType; j_on : string;
  j_database : option string }.
Record ColumnSelect := { c_source : string; c_target : string }.
Record ConstantColumn := { k_target : string; k_value : json }.
Record ColumnMapping := { columns : list ColumnSelect; constants : list ConstantColumn }.
Record BatchingConfig := {
  time_field : string; batch_size : option Z; start : option string; batch_retries : option Z }.
Inductive TargetStrategy := Append | Truncate | Upsert (key : string).
Record ScheduleConfig := { cron : string; timezone : option string }.
Record DataSyncTaskConfig := {
  source : SourceConfig; target : TargetConfig; join_tables : list JoinTable;
  column_mapping : ColumnMapping; batching : BatchingConfig;
  target_strategy : TargetStrategy; schedule : option ScheduleConfig }.

Inductive ConfigError :=
| UnsafeIdentifier (field : string) | InvalidOnClause (field : string)
| NoColumns | InvalidBatchSize | InvalidStartDate | EmptyCron.

Definition ident_start (c : ascii) : bool := is_ascii_alphabetic c || bool_decide (c = "_"%char).
Definition ident_char (c : ascii) : bool := is_ascii_alphanumeric c || bool_decide (c = "_"%char).

Definition is_safe_identifier (s : string) : bool :=
  match s with
  | EmptyString => false
  | String first chars =>
      if negb (ident_start first) then false
      else if negb (all_chars ident_char chars) then false
      else (1 <=? String.length s) && (String.length s <=? 64)
  end.

Definition is_safe_qualified (s : string) : bool :=
  match split_once "." s with
  | Some (alias, col) => is_safe_identifier alias && is_safe_identifier col
  | None => false
  end.

Definition validate_identifier (value field : string) : result ConfigError unit :=
  if is_safe_identifier value then Ok tt else Err (UnsafeIdentifier field).
Definition validate_identifier_opt (value : option string) (field : string)
    : result ConfigError unit :=
  match value with
  | None => Ok tt
  | Some s => if is_safe_identifier s then Ok tt else Err (UnsafeIdentifier field)
  end.
Definition validate_qualified (value field : string) : result ConfigError unit :=
  if is_safe_qualified value then Ok tt else Err (UnsafeIdentifier field).

Definition validate_on (value field : string) : result ConfigError unit :=
  match split_once "=" (trim value) with
  | None => Err (InvalidOnClause field)
  | Some (lhs, rhs) =>
      if negb (is_safe_qualified (trim lhs)) || negb (is_safe_qualified (trim rhs))
      then Err (InvalidOnClause field) else Ok tt
  end.

(** [format!("{list}[{i}].{field}")]. *)
Definition indexed (list_ : string) (i : nat) (field : string) : string :=
  list_ +:+ "[" +:+ decimal (N.of_nat i) +:+ "]." +:+ field.

Definition effective_alias (j : JoinTable) : string := default j.(j_table) j.(j_alias).

Definition validate_join (i : nat) (jt : JoinTable) : result ConfigError unit :=
  _ ← validate_identifier jt.(j_table) (indexed "join_tables" i "table");
  _ ← validate_identifier_opt jt.(j_database) (indexed "join_tables" i "database");
  _ ← match jt.(j_alias) with
      | Some alias => validate_identifier alias (indexed "join_tables" i "alias")
      | None => Ok tt
      end;
  validate_on jt.(j_on) (indexed "join_tables" i "on").

Definition validate_column (i : nat) (c : ColumnSelect) : result ConfigError unit :=
  _ ← validate_qualified c.(c_source) (indexed "column_mapping.columns" i "source");
  validate_identifier c.(c_target) (indexed "column_mapping.columns" i "target").

Definition validate `{TimestampCodec} (c : DataSyncTaskConfig) : result ConfigError unit :=
  _ ← validate_identifier_opt c.(source).(s_database) "source.database";
  _ ← validate_identifier c.(source).(s_table) "source.table";
  _ ← validate_identifier_opt c.(target).(t_database) "target.database";
  _ ← validate_identifier c.(target).(t_table) "target.table";
  _ ← try_iteri validate_join c.(join_tables);
  _ ← match c.(column_mapping).(columns), c.(column_mapping).(constants) with
      | [], [] => Err NoColumns
      | _, _ => Ok tt
      end;
  _ ← try_iteri validate_column c.(column_mapping).(columns);
  _ ← try_iteri (λ i k, validate_identifier k.(k_target) (indexed "column_mapping.constants" i "target"))
        c.(column_mapping).(constants);
  _ ← validate_identifier c.(batching).(time_field) "batching.time_field";
  _ ← (if bool_decide (c.(batching).(batch_size) = Some 0%Z) then Err InvalidBatchSize else Ok tt);
  _ ← match c.(batching).(start) with
      | Some s => match parse_rfc3339 s with Some _ => Ok tt | None => Err InvalidStartDate end
      | None => Ok tt
      end;
  _ ← match c.(schedule) with
      | Some sched => if is_empty (trim sched.(cron)) then Err EmptyCron else Ok tt
      | None => Ok tt
      end;
  match c.(target_strategy) with
  | Upsert key => validate_identifier key "target_strategy.upsert_key"
  | _ => Ok tt
  end.

(** ** sql.rs *)

Inductive Dialect := DMySql | DPostgres | DClickHouse | DDoris.

Definition BQ : ascii := "`"%char.
Definition DQ : ascii := "034"%char.
Definition SQ : ascii := "'"%char.

Definition quote_with (q : ascii) (name : string) : string :=
  String q (double_quotes q name +:+ String q "").
Definition quote (name : string) (d : Dialect) : string :=
  match d with
  | DMySql | DClickHouse | DDoris => quote_with BQ name
  | DPostgres => quote_with DQ name
  end.

(** ** runner.rs: the batch SELECT *)

(** [default_database] is the connection's. *)
Definition qualified_table (database default_database : option string) (table : string)
    (d : Dialect) : string :=
  match (match database with Some db => Some db | None => default_database end) with
  | Some db => if is_empty db then quote table d else quote db d +:+ "." +:+ quote table d
  | None => quote table d
  end.
Definition qualified_main_table (src : SourceConfig) (default_database : option string) (d : Dialect)
    : string := qualified_table src.(s_database) default_database src.(s_table) d.
Definition qualified_join_table (jt : JoinTable) (default_database : option string) (d : Dialect)
    : string := qualified_table jt.(j_database) default_database jt.(j_table) d.

Definition join_clause (default_database : option string) (d : Dialect) (jt : JoinTable) : string :=
  " LEFT JOIN " +:+ qualified_join_table jt default_database d +:+ " AS " +:+ effective_alias jt
  +:+ " ON " +:+ jt.(j_on).

Definition select_item (d : Dialect) (c : ColumnSelect) : string :=
  match d with
  | DPostgres => c.(c_source) +:+ "::text AS " +:+ quote c.(c_target) d
  | DMySql | DClickHouse | DDoris =>
      "CAST(" +:+ c.(c_source) +:+ " AS CHAR) AS " +:+ quote c.(c_target) d
  end.

Definition select_limit (c : DataSyncTaskConfig) : Z :=
  Z.max 1 (default 10000%Z c.(batching).(batch_size)).

Definition build_select_sql (c : DataSyncTaskConfig) (default_database : option string) (d : Dialect)
    : string :=
  let main_table := qualified_main_table c.(source) default_database d in
  let from_ := foldl (λ f jt, f +:+ join_clause default_database d jt)
                 ("FROM " +:+ main_table +:+ " AS main") c.(join_tables) in
  let select_list := match c.(column_mapping).(columns) with
                     | [] => "*"
                     | cols => join ", " (select_item d <$> cols)
                     end in
  let time_col := "main." +:+ c.(batching).(time_field) in
  "SELECT " +:+ select_list +:+ " " +:+ from_ +:+ " WHERE " +:+ time_col +:+ " >= __P0__ AND "
  +:+ time_col +:+ " < __P1__ ORDER BY " +:+ time_col +:+ " LIMIT "
  +:+ decimal (Z.to_N (select_limit c)).

Definition mysql_select (sql : string) : string :=
  replace "__P1__" "?" (replace "__P0__" "?" sql).
Definition pg_select (sql : string) : string :=
  replace "__P1__" "$2" (replace "__P0__" "$1" sql).

(** The MIN/MAX probe of [resolve_window_*]. *)
Definition window_sql (c : DataSyncTaskConfig) (d : Dialect) : string :=
  let tf := quote c.(batching).(time_field) d in
  match d with
  | DPostgres => "SELECT MIN(" +:+ tf +:+ ")::text, MAX(" +:+ tf +:+ ")::text FROM "
                 +:+ quote c.(source).(s_table) d
  | _ => "SELECT CAST(MIN(" +:+ tf +:+ ") AS CHAR), CAST(MAX(" +:+ tf +:+ ") AS CHAR) FROM "
         +:+ quote c.(source).(s_table) d
  end.

(** ** runner.rs: the batch INSERT *)

Definition target_columns (c : DataSyncTaskConfig) (cols : list ColumnSelect) (d : Dialect)
    : list string :=
  ((λ x, quote x.(c_target) d) <$> cols) ++
  ((λ k, quote k.(k_target) d) <$> c.(column_mapping).(constants)).

Definition upsert_tail (c : DataSyncTaskConfig) (col_names : list string) (d : Dialect)
    : option string :=
  match c.(target_strategy) with
  | Upsert key =>
      let qk := quote key d in
      let updates := (λ x, x +:+ "=VALUES(" +:+ x +:+ ")") <$> filter (λ x, x ≠ qk) col_names in
      Some (match updates with
            | [] => "ON DUPLICATE KEY UPDATE " +:+ qk +:+ "=" +:+ qk
            | _ => "ON DUPLICATE KEY UPDATE " +:+ join ", " updates
            end)
  | _ => None
  end.
Definition upsert_tail_pg (c : DataSyncTaskConfig) (col_names : list string) (d : Dialect)
    : option string :=
  match c.(target_strategy) with
  | Upsert key =>
      let qk := quote key d in
      let updates := (λ x, x +:+ "=EXCLUDED." +:+ x) <$> filter (λ x, x ≠ qk) col_names in
      Some (match updates with
            | [] => "ON CONFLICT (" +:+ qk +:+ ") DO NOTHING"
            | _ => "ON CONFLICT (" +:+ qk +:+ ") DO UPDATE SET " +:+ join ", " updates
            end)
  | _ => None
  end.

(** A statement under construction: text pushed, values bound. *)
Inductive piece := Text (s : string) | Bound (v : option string).

(** A source row, as [try_get::<Option<String>>(name).ok()] reads it. *)
Definition SqlRow := string → option string.
Definition JsonRow := list (string * json).

Section Insert.
Context `{Printer}.

Definition json_value_to_string (v : json) : string :=
  match v with JStr s => s | JNull => "" | other => to_vec other end.

Definition push_pg_literal (v : option string) : piece :=
  match v with
  | Some s => Text ("'" +:+ double_quotes SQ s +:+ "'::unknown")
  | None => Text "NULL"
  end.

(** The loop over rows that the four inserters share. [value] reads a selected
    column, [constant] pushes a constant. *)
Definition row_pieces {Row} (value : Row → ColumnSelect → piece) (constant : json → piece)
    (cols : list ColumnSelect) (consts : list ConstantColumn) (ri : nat) (r : Row) : list piece :=
  (if 0 <? ri then [Text ", "] else []) ++ [Text "("] ++
  concat (imap (λ ci c, (if 0 <? ci then [Text ", "] else []) ++ [value r c]) cols) ++
  concat (imap (λ k cst, (if negb (bool_decide (cols = [])) || (0 <? k) then [Text ", "] else [])
                         ++ [constant cst.(k_value)]) consts) ++
  [Text ")"].

Definition insert_pieces {Row} (value : Row → ColumnSelect → piece) (constant : json → piece)
    (tail : option string) (c : DataSyncTaskConfig) (d : Dialect)
    (rows : list Row) (cols : list ColumnSelect) : list piece :=
  [Text ("INSERT INTO " +:+ quote c.(target).(t_table) d +:+ " (");
   Text (join ", " (target_columns c cols d)); Text ") VALUES "] ++
  concat (imap (row_pieces value constant cols c.(column_mapping).(constants)) rows) ++
  match tail with Some t => [Text " "; Text t] | None => [] end.

(** [None]: nothing is executed for an empty batch. *)
Definition unless_empty {Row} (rows : list Row) (ps : list piece) : option (list piece) :=
  match rows with [] => None | _ => Some ps end.

Definition insert_batch_mysql (c : DataSyncTaskConfig) (rows : list SqlRow) (cols : list ColumnSelect) :=
  unless_empty rows (insert_pieces (λ (r : SqlRow) x, Bound (r x.(c_target)))
    (λ v, Bound (Some (json_value_to_string v)))
    (upsert_tail c (target_columns c cols DMySql) DMySql) c DMySql rows cols).
Definition insert_batch_pg (c : DataSyncTaskConfig) (rows : list SqlRow) (cols : list ColumnSelect) :=
  unless_empty rows (insert_pieces (λ (r : SqlRow) x, Bound (r x.(c_target)))
    (λ v, Bound (Some (json_value_to_string v)))
    (upsert_tail_pg c (target_columns c cols DPostgres) DPostgres) c DPostgres rows cols).

Definition row_to_json (cols : list ColumnSelect) (r : SqlRow) : JsonRow :=
  foldl (λ m c, assoc_insert c.(c_target) (JStr (default "" (r c.(c_target)))) m) [] cols.
Definition rows_to_json_mysql (rows : list SqlRow) (cols : list ColumnSelect) : list JsonRow :=
  row_to_json cols <$> rows.
Definition rows_to_json_pg (rows : list SqlRow) (cols : list ColumnSelect) : list JsonRow :=
  row_to_json cols <$> rows.

Definition json_cell (r : JsonRow) (x : ColumnSelect) : option string :=
  v ← assoc_get x.(c_target) r; as_str v.

Definition insert_json_batch_mysql (c : DataSyncTaskConfig) (rows : list JsonRow)
    (cols : list ColumnSelect) :=
  unless_empty rows (insert_pieces (λ r x, Bound (json_cell r x))
    (λ v, Bound (Some (json_value_to_string v)))
    (upsert_tail c (target_columns c cols DMySql) DMySql) c DMySql rows cols).
Definition insert_json_batch_pg (c : DataSyncTaskConfig) (rows : list JsonRow)
    (cols : list ColumnSelect) :=
  unless_empty rows (insert_pieces (λ r x, push_pg_literal (json_cell r x))
    (λ v, push_pg_literal (Some (json_value_to_string v)))
    (upsert_tail_pg c (target_columns c cols DPostgres) DPostgres) c DPostgres rows cols).
End Insert.

(** ** Validation *)

Lemma validate_identifier_ok v f : validate_identifier v f = Ok tt ↔ is_safe_identifier v = true.
Proof. unfold validate_identifier. by destruct (is_safe_identifier v). Qed.

Definition opt_safe (o : option string) : Prop := ∀ v, o = Some v → is_safe_identifier v = true.

Lemma validate_identifier_opt_ok o f : validate_identifier_opt o f = Ok tt ↔ opt_safe o.
Proof.
  unfold validate_identifier_opt, opt_safe. destruct o as [v|]; [|naive_solver].
  destruct (is_safe_identifier v) eqn:E; naive_solver congruence.
Qed.

Lemma validate_qualified_ok v f : validate_qualified v f = Ok tt ↔ is_safe_qualified v = true.
Proof. unfold validate_qualified. by destruct (is_safe_qualified v). Qed.

Lemma is_safe_qualified_shape s : is_safe_qualified s = true →
  ∃ a b, s = a +:+ String "." b ∧ is_safe_identifier a = true ∧ is_safe_identifier b = true.
Proof.
  unfold is_safe_qualified. destruct (split_once "." s) as [[a b]|] eqn:E; [|done].
  apply split_once_spec in E as [-> _]. rewrite andb_true_iff. intros [Ha Hb]. by exists a, b.
Qed.

Definition qualified (s : string) : Prop :=
  ∃ a b, s = a +:+ String "." b ∧ is_safe_identifier a = true ∧ is_safe_identifier b = true.

Lemma validate_on_inv v f : validate_on v f = Ok tt →
  ∃ w0 l w1 w2 r w3, v = w0 +:+ (l +:+ (w1 +:+ String "=" (w2 +:+ (r +:+ w3)))) ∧
    qualified l ∧ qualified r ∧ ws_string w0 ∧ ws_string w1 ∧ ws_string w2 ∧ ws_string w3.
Proof.
  unfold validate_on. destruct (split_once "=" (trim v)) as [[lhs rhs]|] eqn:E; [|done].
  destruct (is_safe_qualified (trim lhs)) eqn:E1; [|done].
  destruct (is_safe_qualified (trim rhs)) eqn:E2; [|done]. intros _.
  apply split_once_spec in E as [E _].
  destruct (trim_spec v) as (a & b & Ha & Hb & Ev).
  destruct (trim_spec lhs) as (c & d & Hc & Hd & El).
  destruct (trim_spec rhs) as (e & g & He & Hg & Er).
  exists (a +:+ c), (trim lhs), d, e, (trim rhs), (g +:+ b). split_and!.
  - rewrite Ev, E. rewrite El at 1. rewrite Er at 1.
    repeat (rewrite <- ?str_app_assoc, ?str_app_cons). done.
  - by apply is_safe_qualified_shape.
  - by apply is_safe_qualified_shape.
  - by apply ws_string_app.
  - done.
  - done.
  - by apply ws_string_app.
Qed.

(** An accepted ON clause is two alias.column references joined by one
    equals sign, with nothing but white space around them. *)
Theorem validate_on_shape v f : validate_on v f = Ok tt →
  ∃ w0 l w1 w2 r w3, v = w0 +:+ (l +:+ (w1 +:+ String "=" (w2 +:+ (r +:+ w3)))) ∧
    qualified l ∧ qualified r ∧ ws_string w0 ∧ ws_string w1 ∧ ws_string w2 ∧ ws_string w3.
Proof. apply validate_on_inv. Qed.

(** The conditions a configuration must meet. *)
Record valid_config `{TimestampCodec} (c : DataSyncTaskConfig) : Prop := {
  vc_source : opt_safe c.(source).(s_database) ∧ is_safe_identifier c.(source).(s_table) = true;
  vc_target : opt_safe c.(target).(t_database) ∧ is_safe_identifier c.(target).(t_table) = true;
  vc_joins j : j ∈ c.(join_tables) →
    is_safe_identifier j.(j_table) = true ∧ opt_safe j.(j_database) ∧ opt_safe j.(j_alias) ∧
    validate_on j.(j_on) "" = Ok tt;
  vc_nonempty : c.(column_mapping).(columns) ≠ [] ∨ c.(column_mapping).(constants) ≠ [];
  vc_columns x : x ∈ c.(column_mapping).(columns) →
    is_safe_qualified x.(c_source) = true ∧ is_safe_identifier x.(c_target) = true;
  vc_constants k : k ∈ c.(column_mapping).(constants) → is_safe_identifier k.(k_target) = true;
  vc_time : is_safe_identifier c.(batching).(time_field) = true;
  vc_batch : c.(batching).(batch_size) ≠ Some 0%Z;
  vc_start s : c.(batching).(start) = Some s → is_Some (parse_rfc3339 s);
  vc_cron s : c.(schedule) = Some s → trim s.(cron) ≠ "";
  vc_key k : c.(target_strategy) = Upsert k → is_safe_identifier k = true }.

Lemma validate_on_field v f f' : validate_on v f = Ok tt → validate_on v f' = Ok tt.
Proof. unfold validate_on. repeat case_match; done. Qed.

Lemma try_iteri_ok {E A} (f : nat → A → result E unit) (P : A → Prop) xs :
  (∀ i x, f i x = Ok tt ↔ P x) → try_iteri f xs = Ok tt ↔ ∀ x, x ∈ xs → P x.
Proof.
  intros Hf. unfold try_iteri. rewrite try_iteri_from_ok. split.
  - intros H x (i & Hi)%list_elem_of_lookup. by apply (Hf (0 + i)), H.
  - intros H j x Hx. apply Hf, H. by eapply list_elem_of_lookup_2.
Qed.

Lemma unit_bind {E} (m k : result E unit) :
  (_ ← m; k) = Ok tt ↔ m = Ok tt ∧ k = Ok tt.
Proof. rewrite bind_ok_iff. split; [by intros ([] & ? & ?)|intros [? ?]; by exists tt]. Qed.

Lemma validate_join_ok i j : validate_join i j = Ok tt ↔
  is_safe_identifier j.(j_table) = true ∧ opt_safe j.(j_database) ∧ opt_safe j.(j_alias) ∧
  validate_on j.(j_on) "" = Ok tt.
Proof.
  unfold validate_join. rewrite !unit_bind, validate_identifier_ok, validate_identifier_opt_ok.
  assert (Ha : (match j_alias j with
      | Some alias => validate_identifier alias (indexed "join_tables" i "alias")
      | None => Ok tt end = Ok tt) ↔ opt_safe (j_alias j)).
  { rewrite <- (validate_identifier_opt_ok _ (indexed "join_tables" i "alias")). by destruct (j_alias j). }
  rewrite Ha. split; intros (? & ? & ? & ?); split_and!; try done; by eapply validate_on_field.
Qed.

Lemma validate_column_ok i x : validate_column i x = Ok tt ↔
  is_safe_qualified x.(c_source) = true ∧ is_safe_identifier x.(c_target) = true.
Proof. unfold validate_column. by rewrite unit_bind, validate_qualified_ok, validate_identifier_ok. Qed.

Lemma validate_iff `{TimestampCodec} c : validate c = Ok tt ↔ valid_config c.
Proof.
  unfold validate. rewrite !unit_bind, !validate_identifier_ok, !validate_identifier_opt_ok.
  rewrite (try_iteri_ok _ _ _ validate_join_ok), (try_iteri_ok _ _ _ validate_column_ok).
  rewrite (try_iteri_ok _ (λ k, is_safe_identifier k.(k_target) = true))
    by (intros; apply validate_identifier_ok).
  split.
  - intros (H1 & H2 & H3 & H4 & H5 & H6 & H7 & H8 & H9 & H10 & H11 & H12 & H13).
    constructor; try done.
    + destruct (columns _), (constants _); naive_solver.
    + by case_bool_decide.
    + intros s Hs. rewrite Hs in H11. destruct (parse_rfc3339 s); done.
    + intros s Hs. rewrite Hs in H12. by destruct (trim (cron s)).
    + intros k Hk. rewrite Hk in H13. by apply validate_identifier_ok in H13.
  - intros []. destruct_and!. split_and!; try done.
    + destruct (columns _), (constants _); naive_solver.
    + by rewrite bool_decide_false.
    + destruct (start (batching c)) as [s|]; [|done]. by destruct (vc_start0 s eq_refl) as [t ->].
    + destruct (schedule c) as [s|]; [|done]. specialize (vc_cron0 s eq_refl). by destruct (trim (cron s)).
    + destruct (target_strategy c) as [| |k]; [done..|]. apply validate_identifier_ok. auto.
Qed.

(** [validate] accepts exactly the configurations that meet every condition. *)
Theorem validate_exact `{TimestampCodec} c : validate c = Ok tt ↔ valid_config c.
Proof. apply validate_iff. Qed.

(** ** Quoting *)

(** A quoted name reads back as the name, whatever characters it holds, when
    the text after it does not start with the quote character: a name cannot
    end its quotes early. *)
Theorem quote_reads_back name d k :
  let q := match d with DPostgres => DQ | _ => BQ end in
  starts_with (String q "") k = false →
  ∃ body, quote name d +:+ k = String q body ∧ unquote_go q body = Some (name, k).
Proof.
  intros q Hk. exists (double_quotes q name +:+ String q k). split.
  - destruct d; cbn [quote]; unfold quote_with; rewrite str_app_cons; f_equal;
      by rewrite <- str_app_assoc, str_app_cons, str_app_nil_l.
  - by apply unquote_double.
Qed.

(** A value sent as a PostgreSQL literal reads back as the value, followed by
    the cast. *)
Theorem pg_literal_reads_back s :
  ∃ body, push_pg_literal (Some s) = Text (String SQ body) ∧
    unquote_go SQ body = Some (s, "::unknown").
Proof.
  exists (double_quotes SQ s +:+ String SQ "::unknown"). split; [reflexivity|].
  by apply unquote_double.
Qed.

(** ** The SELECT of a validated task *)

(** Everything but the characters that can end a statement, open a string
    literal, escape, or start a comment: ; ' \ - / # $ *)
Definition harmless (c : ascii) : bool :=
  negb (existsb (N.eqb (code c)) [59; 39; 92; 45; 47; 35; 36]%N).

Lemma ident_char_harmless c : ident_char c = true → harmless c = true.
Proof. destruct c as [[][][][][][][][]]; by vm_compute. Qed.
Lemma ident_start_char c : ident_start c = true → ident_char c = true.
Proof. destruct c as [[][][][][][][][]]; by vm_compute. Qed.
Lemma digit_harmless c : is_ascii_digit c = true → harmless c = true.
Proof. destruct c as [[][][][][][][][]]; by vm_compute. Qed.
Lemma ws1_harmless c : ws1 c = true → harmless c = true.
Proof. destruct c as [[][][][][][][][]]; by vm_compute. Qed.

Lemma high_harmless c : (127 <? code c)%N = true → harmless c = true.
Proof. destruct c as [[][][][][][][][]]; by vm_compute. Qed.

Lemma safe_harmless s : is_safe_identifier s = true → all_chars harmless s = true.
Proof.
  destruct s as [|c s]; [done|]. cbn.
  destruct (ident_start c) eqn:Hc; [|done]. destruct (all_chars ident_char s) eqn:Hs; [|done].
  intros _. rewrite (ident_char_harmless c) by by apply ident_start_char.
  exact (all_chars_impl _ _ _ ident_char_harmless Hs).
Qed.

Lemma qualified_harmless s : qualified s → all_chars harmless s = true.
Proof.
  intros (a & b & -> & Ha & Hb). rewrite all_chars_app. cbn. by rewrite !safe_harmless.
Qed.

Lemma ws2_high a b : ws2 a b = true → (127 <? code a)%N = true ∧ (127 <? code b)%N = true.
Proof.
  unfold ws2. rewrite andb_true_iff, orb_true_iff, !N.eqb_eq, !N.ltb_lt. lia.
Qed.
Lemma ws3_high a b c : ws3 a b c = true →
  (127 <? code a)%N = true ∧ (127 <? code b)%N = true ∧ (127 <? code c)%N = true.
Proof.
  unfold ws3, in_range.
  repeat rewrite ?andb_true_iff, ?orb_true_iff, ?N.eqb_eq, ?N.leb_le, ?N.ltb_lt. lia.
Qed.

Lemma ws_harmless s : ws_string s → all_chars harmless s = true.
Proof.
  induction 1 as [|a r Ha _ IH|a b r Ha _ IH|a b c r Ha _ IH]; cbn; [done|..]; rewrite IH.
  - by rewrite ws1_harmless.
  - apply ws2_high in Ha as [? ?]. by rewrite !high_harmless.
  - apply ws3_high in Ha as (? & ? & ?). by rewrite !high_harmless.
Qed.

Lemma double_quotes_harmless q s : harmless q = true → all_chars harmless s = true →
  all_chars harmless (double_quotes q s) = true.
Proof.
  intros Hq. unfold double_quotes. induction s as [|c s IH]; cbn; [done|].
  rewrite andb_true_iff. intros [Hc Hs]. case_decide.
  - rewrite !all_chars_app. cbn. by rewrite Hq, IH.
  - cbn. by rewrite Hc, IH.
Qed.

Lemma quote_harmless s d : all_chars harmless s = true → all_chars harmless (quote s d) = true.
Proof.
  intros Hs. destruct d; cbn; rewrite all_chars_app, double_quotes_harmless by done; done.
Qed.

Lemma all_chars_cons p c s : all_chars p (String c s) = p c && all_chars p s.
Proof. reflexivity. Qed.

Lemma on_harmless v : validate_on v "" = Ok tt → all_chars harmless v = true.
Proof.
  intros (w0 & l & w1 & w2 & r & w3 & -> & Hl & Hr & H0 & H1 & H2 & H3)%validate_on_inv.
  rewrite !all_chars_app, all_chars_cons, !all_chars_app.
  by rewrite (qualified_harmless l), (qualified_harmless r), (ws_harmless w0), (ws_harmless w1),
    (ws_harmless w2), (ws_harmless w3).
Qed.

Lemma qualified_table_harmless db dflt t d :
  opt_safe db → (∀ s, dflt = Some s → all_chars harmless s = true) →
  is_safe_identifier t = true → all_chars harmless (qualified_table db dflt t d) = true.
Proof.
  intros Hdb Hdf Ht. unfold qualified_table.
  assert (Hq : all_chars harmless (quote t d) = true) by auto using quote_harmless, safe_harmless.
  destruct db as [s|]; [|destruct dflt as [s|]; [|done]];
    (destruct (is_empty s); [done|]; rewrite !all_chars_app, Hq, (quote_harmless s); [done|]).
  - apply safe_harmless. by apply Hdb.
  - by apply Hdf.
Qed.

Lemma join_clause_harmless dflt d j :
  (∀ s, dflt = Some s → all_chars harmless s = true) →
  is_safe_identifier j.(j_table) = true → opt_safe j.(j_database) → opt_safe j.(j_alias) →
  validate_on j.(j_on) "" = Ok tt → all_chars harmless (join_clause dflt d j) = true.
Proof.
  intros Hdf Ht Hdb Ha Hon.
  assert (He : is_safe_identifier (effective_alias j) = true).
  { unfold effective_alias. destruct (j_alias j) as [a|]; [by apply Ha|done]. }
  unfold join_clause, qualified_join_table.
  by rewrite !all_chars_app, qualified_table_harmless, (on_harmless _ Hon), (safe_harmless _ He).
Qed.

Lemma select_item_harmless d x :
  is_safe_qualified x.(c_source) = true → is_safe_identifier x.(c_target) = true →
  all_chars harmless (select_item d x) = true.
Proof.
  intros Hs Ht. apply is_safe_qualified_shape, qualified_harmless in Hs.
  unfold select_item. destruct d; by rewrite !all_chars_app, Hs, (quote_harmless (c_target x)) by auto using safe_harmless.
Qed.

(** The batch SELECT of an accepted configuration holds no statement
    separator, string literal, escape or comment, for any JOIN and ON clause
    that got past validation. *)
Theorem select_sql_harmless `{TimestampCodec} c dflt d :
  validate c = Ok tt → (∀ s, dflt = Some s → all_chars harmless s = true) →
  all_chars harmless (build_select_sql c dflt d) = true.
Proof.
  intros Hv Hdf. apply validate_iff in Hv. destruct Hv as [[Hs Hst] _ Hj _ Hcol _ Htf _ _ _ _].
  assert (Hl : all_chars harmless (join ", " (select_item d <$> columns (column_mapping c))) = true).
  { apply join_all; [done|]. rewrite Forall_fmap, Forall_forall. intros x Hx.
    destruct (Hcol x Hx). by apply select_item_harmless. }
  unfold build_select_sql, qualified_main_table.
  assert (Hfrom : ∀ js f, (∀ j, j ∈ js → j ∈ join_tables c) → all_chars harmless f = true →
    all_chars harmless (foldl (λ f jt, f +:+ join_clause dflt d jt) f js) = true).
  { induction js as [|j js IH]; intros f Hin Hf; [done|]. cbn. apply IH.
    - intros j' Hj'. apply Hin. by right.
    - destruct (Hj j) as (? & ? & ? & ?); [apply Hin; by left|].
      by rewrite all_chars_app, Hf, join_clause_harmless. }
  rewrite !all_chars_app, Hfrom; [| |rewrite !all_chars_app, qualified_table_harmless by done; done]; [|done].
  rewrite (safe_harmless _ Htf), (all_chars_impl _ _ _ digit_harmless (decimal_digits _)).
  destruct (columns (column_mapping c)); [done|by rewrite Hl].
Qed.

(** ** The INSERT *)

(** Values separated by a text. *)
Fixpoint sep_by (s : piece) (ls : list piece) : list piece :=
  match ls with
  | [] => []
  | [x] => [x]
  | x :: ls' => x :: s :: sep_by s ls'
  end.

Definition comma : piece := Text ", ".

Lemma sep_by_tail {A} (f : A → piece) (l : list A) x :
  x :: concat (map (λ a, [comma; f a]) l) = sep_by comma (x :: map f l).
Proof.
  revert x. induction l as [|a l IH]; intros x; [done|].
  change (x :: comma :: (f a :: concat (map (λ a, [comma; f a]) l)) = x :: comma :: sep_by comma (f a :: map f l)).
  by rewrite IH.
Qed.

Lemma imap_tail {A} (f : A → piece) (test : nat → bool) (l : list A) :
  (∀ i, test (S i) = true) → ∀ i, test i = true →
  concat (imap (λ j a, (if test (i + j) then [comma] else []) ++ [f a]) l) =
  concat (map (λ a, [comma; f a]) l).
Proof.
  intros HS. induction l as [|a l IH]; intros i Hi; [done|].
  rewrite imap_cons. cbn [concat map]. rewrite Nat.add_0_r, Hi. cbn. do 2 f_equal.
  rewrite <- (IH (S i)) by done. f_equal. apply imap_ext. intros j x _. cbn.
  by rewrite Nat.add_succ_r.
Qed.

Lemma commas_imap {A} (f : A → piece) (l : list A) :
  concat (imap (λ i a, (if 0 <? i then [comma] else []) ++ [f a]) l) = sep_by comma (f <$> l).
Proof.
  destruct l as [|a l]; [done|]. rewrite imap_cons. cbn [concat fmap list_fmap app Nat.ltb Nat.leb].
  rewrite <- sep_by_tail. cbn. f_equal.
  by apply (imap_tail f (λ i, 0 <? i) l ltac:(done) 1).
Qed.

Lemma sep_by_app {A B} (f : A → piece) (g : B → piece) x l1 l2 :
  sep_by comma (x :: map f l1) ++ concat (map (λ b, [comma; g b]) l2) =
  sep_by comma (x :: map f l1 ++ map g l2).
Proof.
  revert x. induction l1 as [|a l1 IH]; intros x.
  - cbn [map app]. rewrite <- sep_by_tail. done.
  - change (x :: comma :: (sep_by comma (f a :: map f l1) ++ concat (map (λ b, [comma; g b]) l2)) =
      x :: comma :: sep_by comma (f a :: map f l1 ++ map g l2)). by rewrite IH.
Qed.

(** The tuple of one row: its values, selected columns first. *)
Definition row_values {Row} (value : Row → ColumnSelect → piece) (constant : json → piece)
    (cols : list ColumnSelect) (consts : list ConstantColumn) (r : Row) : list piece :=
  map (value r) cols ++ map (λ k, constant k.(k_value)) consts.

Lemma row_pieces_tuple {Row} value constant cols consts ri (r : Row) :
  row_pieces value constant cols consts ri r =
  (if 0 <? ri then [comma] else []) ++
  Text "(" :: sep_by comma (row_values value constant cols consts r) ++ [Text ")"].
Proof.
  unfold row_pieces, row_values. fold comma. f_equal. cbn [app]. f_equal. rewrite app_assoc. f_equal.
  rewrite (commas_imap (value r) cols). destruct cols as [|c cs].
  - cbn. apply (commas_imap (λ k, constant k.(k_value)) consts).
  - rewrite bool_decide_false by done. cbn [negb orb].
    rewrite (imap_tail (λ k, constant k.(k_value)) (λ _, true) consts ltac:(done) 0 eq_refl).
    apply sep_by_app.
Qed.

(** An INSERT is its header, one parenthesised tuple per row with commas
    between, and the upsert tail; every tuple has one value per target column,
    commas only between values. *)
Theorem insert_statement_shape {Row} value constant tail c d (rows : list Row) :
  let cols := c.(column_mapping).(columns) in
  let tuple r := Text "(" :: sep_by comma (row_values value constant cols c.(column_mapping).(constants) r)
                 ++ [Text ")"] in
  insert_pieces value constant tail c d rows cols =
    [Text ("INSERT INTO " +:+ quote c.(target).(t_table) d +:+ " (");
     Text (join ", " (target_columns c cols d)); Text ") VALUES "] ++
    concat (imap (λ ri r, (if 0 <? ri then [comma] else []) ++ tuple r) rows) ++
    match tail with Some t => [Text " "; Text t] | None => [] end
  ∧ ∀ r, length (row_values value constant cols c.(column_mapping).(constants) r) =
         length (target_columns c cols d).
Proof.
  cbn zeta. split.
  - unfold insert_pieces. do 2 f_equal. f_equal. apply imap_ext. intros i r _. apply row_pieces_tuple.
  - intros r. unfold row_values, target_columns. by rewrite !length_app, !length_map, ?length_fmap.
Qed.

(** ** Row values are bound, never written into the statement *)

Definition erase (p : piece) : piece := match p with Text s => Text s | Bound _ => Bound None end.

Lemma erase_sep_by l : map erase (sep_by comma l) = sep_by comma (map erase l).
Proof. induction l as [|x [|y l] IH]; [done..|]. cbn in *. by rewrite IH. Qed.

Lemma imap_blind {A B} (h : nat → A → B) rows rows' :
  (∀ i r r', h i r = h i r') → length rows = length rows' → imap h rows = imap h rows'.
Proof.
  revert h rows'. induction rows as [|r rows IH]; intros h [|r' rows'] Hh Hlen; try done.
  rewrite !imap_cons. f_equal; [apply Hh|]. apply IH; [intros; apply Hh|]. by injection Hlen.
Qed.

Lemma insert_pieces_erase {Row} (value : Row → ColumnSelect → piece) constant tail c d rows rows' cols :
  (∀ r r' x, erase (value r x) = erase (value r' x)) → length rows = length rows' →
  map erase (insert_pieces value constant tail c d rows cols) =
  map erase (insert_pieces value constant tail c d rows' cols).
Proof.
  intros Hv Hlen. unfold insert_pieces. rewrite !map_app, !concat_map. do 2 f_equal. f_equal.
  change (map (map erase)) with (@fmap list list_fmap _ _ (map erase)). rewrite !fmap_imap.
  apply imap_blind; [|done]. intros i r r'. unfold compose. rewrite !row_pieces_tuple, !map_app.
  f_equal. cbn [map]. f_equal. rewrite !map_app, !erase_sep_by. do 2 f_equal.
  unfold row_values. rewrite !map_app, !map_map. f_equal. apply map_ext. intros x. apply Hv.
Qed.

(** Between databases of the same kind, and into MySQL, the text of the
    INSERT is the same for every batch of a given size: the values of the rows
    only travel as bound parameters. *)
Theorem values_only_bound `{Printer} c cols :
  (∀ rows rows', length rows = length rows' →
    map erase <$> insert_batch_mysql c rows cols = map erase <$> insert_batch_mysql c rows' cols ∧
    map erase <$> insert_batch_pg c rows cols = map erase <$> insert_batch_pg c rows' cols) ∧
  (∀ rows rows', length rows = length rows' →
    map erase <$> insert_json_batch_mysql c rows cols =
    map erase <$> insert_json_batch_mysql c rows' cols).
Proof.
  assert (Hu : ∀ Row (rows rows' : list Row) ps ps', length rows = length rows' →
    map erase ps = map erase ps' → map erase <$> unless_empty rows ps = map erase <$> unless_empty rows' ps').
  { intros Row [|] [|] ps ps' Hl E; try done. cbn. by rewrite E. }
  split; intros rows rows' Hlen; [split|]; apply Hu; try done; by apply insert_pieces_erase.
Qed.

(** ** Witnesses and corner cases *)

Definition ex_config (on : string) : DataSyncTaskConfig :=
  {| source := Build_SourceConfig "src" None "orders";
     target := Build_TargetConfig "tgt" None "wide";
     join_tables := [Build_JoinTable "users" (Some "u") LeftJoin on (Some "crm")];
     column_mapping := {| columns := [Build_ColumnSelect "main.id" "id"; Build_ColumnSelect "u.name" "name"];
                          constants := [Build_ConstantColumn "origin" (JStr "orders")] |};
     batching := Build_BatchingConfig "created_at" (Some 500%Z) None None;
     target_strategy := Upsert "id"; schedule := None |}.

Example ex_select : build_select_sql (ex_config "main.user_id = u.id") (Some "shop") DMySql =
  "SELECT CAST(main.id AS CHAR) AS `id`, CAST(u.name AS CHAR) AS `name` FROM `shop`.`orders` AS main LEFT JOIN `crm`.`users` AS u ON main.user_id = u.id WHERE main.created_at >= __P0__ AND main.created_at < __P1__ ORDER BY main.created_at LIMIT 500".
Proof. vm_compute. reflexivity. Qed.

Lemma select_sql_harmless_witness :
  let _ := bits_codec in
  validate (ex_config " main.user_id= u.id ") = Ok tt ∧
  all_chars harmless (build_select_sql (ex_config " main.user_id= u.id ") (Some "shop") DMySql) = true.
Proof.
  cbn zeta.
  assert (E : @validate bits_codec (ex_config " main.user_id= u.id ") = Ok tt) by (vm_compute; reflexivity).
  split; [exact E|].
  apply (@select_sql_harmless bits_codec _ (Some "shop") DMySql E). by intros s [= <-].
Defined.

Lemma validate_on_shape_witness :
  ∃ w0 l w1 w2 r w3, " main.user_id= u.id " =
      w0 +:+ (l +:+ (w1 +:+ String "=" (w2 +:+ (r +:+ w3)))) ∧
    qualified l ∧ qualified r ∧ ws_string w0 ∧ ws_string w1 ∧ ws_string w2 ∧ ws_string w3.
Proof. apply (validate_on_shape _ "on"). vm_compute. reflexivity. Defined.

Lemma quote_reads_back_witness :
  ∃ body, quote "we`ird" DMySql +:+ ".x" = String BQ body ∧ unquote_go BQ body = Some ("we`ird", ".x").
Proof. apply (quote_reads_back "we`ird" DMySql ".x"). reflexivity. Defined.

Lemma values_only_bound_witness :
  let _ := tlv_printer in
  let c := ex_config "main.user_id = u.id" in let cols := c.(column_mapping).(columns) in
  map erase <$> insert_batch_mysql c [λ _, Some "1'; DROP TABLE x"] cols =
  map erase <$> insert_batch_mysql c [λ _, Some "2"] cols.
Proof.
  cbn zeta.
  destruct (@values_only_bound tlv_printer (ex_config "main.user_id = u.id")
    (columns (column_mapping (ex_config "main.user_id = u.id")))) as [H _].
  apply H. reflexivity.
Defined.

(** A column may be called like a placeholder; the query then has three. *)
Example sentinel_column :
  let c := ex_config "main.user_id = u.__P0__" in
  let _ := bits_codec in
  validate c = Ok tt ∧
  contains "u.?" (mysql_select (build_select_sql c None DMySql)) = true.
Proof. by vm_compute. Qed.

(** Between databases of different kinds a NULL becomes an empty string. *)
Example cross_driver_null :
  json_cell (row_to_json [Build_ColumnSelect "main.x" "x"] (λ _, None)) (Build_ColumnSelect "main.x" "x")
  = Some "".
Proof. reflexivity. Qed.
