(* ===== verification/SyncRunner.v ===== *)
(** * Data-sync runs (crates/data_sync/src/runner.rs)

    One run copies a table in time windows.  The source, the target and the
    control database answer through an environment [Env], by iteration and
    attempt, so cancellation, failures and rows that change during the run are
    all covered.  A run is its final state with a log of what it did, and how it
    ended; [Panicked] is chrono's overflow panic, [OutOfFuel] a loop still
    running.  chrono's parsers and printer and the range of its instants are
    parameters. *)

From S2P Require Import Prelude RustStr Clock BTree Json SyncConfig.
From Stdlib Require Import SpecFloat Sorted.

(** ** Retrying a batch *)

Definition RETRY_BACKOFF_MS : list Z := [1000; 4000; 16000]%Z.

(** [attempt] is the number of this attempt, [left_] how many may follow.  The
    pauses taken are returned with the result. *)
Fixpoint retry_from {T} (f : nat → result string T) (attempt left_ : nat)
    : result unit T * list Z :=
  match f attempt with
  | Ok v => (Ok v, [])
  | Err _ =>
      match left_ with
      | O => (Err tt, [])
      | S k =>
          let backoff := default 16000%Z (RETRY_BACKOFF_MS !! (attempt - 1)) in
          let '(r, pauses) := retry_from f (S attempt) k in (r, backoff :: pauses)
      end
  end.
Definition retry_batch_insert {T} (max_retries : nat) (f : nat → result string T)
    : result unit T * list Z :=
  retry_from f 1 (max 1 max_retries - 1).

(** ** Drivers *)

Inductive DbType := MySql | Postgres | ClickHouse | Doris.
Definition from_db_type_str (s : string) : option DbType :=
  let s := to_ascii_lowercase s in
  if decide (s = "mysql") then Some MySql
  else if decide (s = "postgres" ∨ s = "postgresql" ∨ s = "pg") then Some Postgres
  else if decide (s = "clickhouse") then Some ClickHouse
  else if decide (s = "doris") then Some Doris
  else None.

(** The supported (source, target) pairs. *)
Inductive Pair := MyMy | PgPg | MyPg | PgMy | MyCh | PgCh | MyDoris | PgDoris.
#[global] Instance Pair_eq_dec : EqDecision Pair.
Proof. solve_decision. Defined.

Definition fetch_sql (p : Pair) (c : DataSyncTaskConfig) (default_database : option string) : string :=
  match p with
  | MyMy | MyPg | MyCh | MyDoris => mysql_select (build_select_sql c default_database DMySql)
  | PgPg | PgMy | PgCh | PgDoris => pg_select (build_select_sql c default_database DPostgres)
  end.

(** What the target receives: a SQL statement, or JSON rows over HTTP. *)
Inductive Payload := PSql (stmt : option (list piece)) | PHttp (table : string) (rows : list JsonRow).

Definition payload `{Printer} (p : Pair) (c : DataSyncTaskConfig) (rows : list SqlRow) : Payload :=
  let cols := c.(column_mapping).(columns) in
  match p with
  | MyMy => PSql (insert_batch_mysql c rows cols)
  | PgPg => PSql (insert_batch_pg c rows cols)
  | MyPg => PSql (insert_json_batch_pg c (rows_to_json_mysql rows cols) cols)
  | PgMy => PSql (insert_json_batch_mysql c (rows_to_json_pg rows cols) cols)
  | MyCh | MyDoris => PHttp c.(target).(t_table) (rows_to_json_mysql rows cols)
  | PgCh | PgDoris => PHttp c.(target).(t_table) (rows_to_json_pg rows cols)
  end.

(** What a successful insert adds to [processed]: the batch for the SQL targets,
    what the server reports for the HTTP ones. *)
Definition inserted_count (p : Pair) (n written : nat) : nat :=
  match p with
  | MyMy | PgPg | MyPg | PgMy => n
  | MyCh | PgCh | MyDoris | PgDoris => written
  end.

(** [maybe_truncate_*]: whether the TRUNCATE is sent. *)
Definition maybe_truncate (c : DataSyncTaskConfig) (is_resume : bool) : bool :=
  if is_resume then false
  else match c.(target_strategy) with Truncate => true | _ => false end.

Definition is_some {A} (o : option A) : bool := match o with Some _ => true | None => false end.
Definition is_none {A} (o : option A) : bool := negb (is_some o).

(** The argument each loop passes for [is_resume]. *)
Definition truncates (p : Pair) (c : DataSyncTaskConfig) (resume_cursor : option string) : bool :=
  match p with
  | MyMy => maybe_truncate c (is_some resume_cursor)
  | PgPg | MyPg | PgMy => maybe_truncate c (is_none resume_cursor)
  | MyCh | PgCh => maybe_truncate c (is_some resume_cursor)
  | MyDoris | PgDoris => false
  end.

(** [resolve_window_*] after the probe: MIN and MAX as text, NULL on an empty
    table; [now1] and [now2] are the two clock readings. *)
Definition resolve_window (probe : option string * option string) (now1 now2 : string)
    (c : DataSyncTaskConfig) (resume_cursor : option string) : string * string :=
  let min_ := default now1 probe.1 in
  let max_ := default now2 probe.2 in
  let start_ := match resume_cursor with
                | Some r => r
                | None => default min_ c.(batching).(start)
                end in
  (start_, max_).

Section Cursors.
Context `{TimestampCodec}.
Context (parse_naive parse_naive_frac : string → option Z) (dt_min dt_max : Z).

Definition parse_cursor (s : string) : option Z :=
  match parse_rfc3339 s with
  | Some t => Some t
  | None => match parse_naive s with Some t => Some t | None => parse_naive_frac s end
  end.

Definition cursor_gt (a b : string) : bool :=
  match parse_cursor a, parse_cursor b with
  | Some x, Some y => (y <? x)%Z
  | _, _ => match key_compare a b with Gt => true | _ => false end
  end.

(** [None] is a panic, of [Duration::seconds] or of the addition. *)
Definition advance_cursor (cursor : string) (batch_size : Z) : option string :=
  match parse_cursor cursor with
  | None => Some cursor
  | Some parsed =>
      let secs := as_i64 (Z.max 1 batch_size) in
      if (secs <? - (i64_max / 1000))%Z || (i64_max / 1000 <? secs)%Z then None else
      let next := (parsed + secs * SECOND)%Z in
      if (next <? dt_min)%Z || (dt_max <? next)%Z then None else Some (to_rfc3339 next)
  end.

(** Progress in percent, computed in binary64. *)
Definition i64_to_f64 (z : Z) : spec_float := binary_normalize 53 1024 z 0 false.
Definition f64_to_i64 (x : spec_float) : Z :=
  match x with
  | S754_finite s m e =>
      let v := if (0 <=? e)%Z then (Zpos m * 2 ^ e)%Z else (Zpos m / 2 ^ (- e))%Z in
      let v := if s then (- v)%Z else v in
      Z.max (- 2 ^ 63) (Z.min i64_max v)
  | S754_infinity s => if s then (- 2 ^ 63)%Z else i64_max
  | S754_zero _ | S754_nan => 0%Z
  end.
Definition f64_clamp (lo hi x : spec_float) : spec_float :=
  if SFltb x lo then lo else if SFltb hi x then hi else x.
Definition timestamp_millis (t : Z) : Z := (t / 10 ^ 6)%Z.

Definition compute_pct (cursor max_ : string) : Z :=
  match parse_cursor cursor, parse_cursor max_ with
  | Some c, Some m =>
      if (m <=? c)%Z then 100%Z else
      let pct := SFmul 53 1024
        (SFdiv 53 1024 (i64_to_f64 (timestamp_millis c)) (i64_to_f64 (Z.max 1 (timestamp_millis m))))
        (i64_to_f64 100) in
      f64_to_i64 (f64_clamp (i64_to_f64 0) (i64_to_f64 100) pct)
  | _, _ => 0%Z
  end.

(** ** The batch loop *)

Record RunOutcome := { processed_rows : Z; failed_rows : Z; canceled : bool }.

Inductive event :=
| Truncated
| Fetched (from_ to_ : string) (rows : list SqlRow)
| Attempted (p : Payload) (ok : bool)
| Paused (ms : Z)
| Progress (cursor : string) (pct processed failed : Z).

Record Env := {
  env_cancel : nat → result string bool;
  env_fetch : nat → string → string → string → result string (list SqlRow);
  env_insert : nat → nat → Payload → result string nat;
  env_progress : nat → result string unit }.

Record LoopCtx := {
  ctx_config : DataSyncTaskConfig; ctx_database : option string; ctx_batch_size : Z;
  ctx_resume : option string; ctx_retries : nat }.

Record St := { st_cursor : string; st_processed : Z; st_failed : Z; st_log : list event }.

Inductive exit := Finished (r : result string RunOutcome) | Panicked | OutOfFuel.

(** [u64] addition. *)
Definition add64 (a b : Z) : Z := ((a + b) mod 2 ^ 64)%Z.

Context `{Printer}.

Definition log_events (l : list event) (st : St) : St :=
  {| st_cursor := st.(st_cursor); st_processed := st.(st_processed);
     st_failed := st.(st_failed); st_log := st.(st_log) ++ l |}.
Definition log_event (e : event) (st : St) : St := log_events [e] st.
Definition with_cursor (c : string) (st : St) : St :=
  {| st_cursor := c; st_processed := st.(st_processed);
     st_failed := st.(st_failed); st_log := st.(st_log) |}.
Definition count_batch (processed failed : nat) (st : St) : St :=
  {| st_cursor := st.(st_cursor); st_processed := add64 st.(st_processed) (Z.of_nat processed);
     st_failed := add64 st.(st_failed) (Z.of_nat failed); st_log := st.(st_log) |}.
Definition outcome (c : bool) (st : St) : RunOutcome :=
  {| processed_rows := st.(st_processed); failed_rows := st.(st_failed); canceled := c |}.

Section Loop.
Context (p : Pair) (env : Env) (ctx : LoopCtx) (max_ : string).

(** The attempts at a batch: all but the last failed, and a pause follows each of these. *)
Definition attempts (pl : Payload) (ok : bool) (pauses : list Z) : list event :=
  concat (map (λ ms, [Attempted pl false; Paused ms]) pauses) ++ [Attempted pl ok].
(** The insert of a batch with its retries, and the counters. *)
Definition insert_rows (i : nat) (rows : list SqlRow) (st : St) : St :=
  let pl := payload p ctx.(ctx_config) rows in
  let '(r, pauses) := retry_batch_insert ctx.(ctx_retries) (λ attempt, env.(env_insert) i attempt pl) in
  match r with
  | Ok written => count_batch (inserted_count p (length rows) written) 0 (log_events (attempts pl true pauses) st)
  | Err _ => count_batch 0 (length rows) (log_events (attempts pl false pauses) st)
  end.

(** One turn of the loop: the state to go on with, or the end. *)
Definition etl_body (i : nat) (st : St) : St + St * exit :=
  match env.(env_cancel) i with
  | Err e => inr (st, Finished (Err e))
  | Ok true => inr (st, Finished (Ok (outcome true st)))
  | Ok false =>
      match advance_cursor st.(st_cursor) ctx.(ctx_batch_size) with
      | None => inr (st, Panicked)
      | Some next =>
          match env.(env_fetch) i (fetch_sql p ctx.(ctx_config) ctx.(ctx_database)) st.(st_cursor) next with
          | Err e => inr (st, Finished (Err e))
          | Ok rows =>
              let st := log_event (Fetched st.(st_cursor) next rows) st in
              match rows with
              | [] =>
                  if cursor_gt next max_ then inr (st, Finished (Ok (outcome false st)))
                  else inl (with_cursor next st)
              | _ =>
                  let st := insert_rows i rows st in
                  match env.(env_progress) i with
                  | Err e => inr (st, Finished (Err e))
                  | Ok _ =>
                      let st := log_event (Progress st.(st_cursor)
                        (compute_pct st.(st_cursor) max_) st.(st_processed) st.(st_failed)) st in
                      let st := with_cursor next st in
                      if cursor_gt st.(st_cursor) max_
                      then inr (st, Finished (Ok (outcome false st))) else inl st
                  end
              end
          end
      end
  end.

Fixpoint etl_loop (fuel i : nat) (st : St) : St * exit :=
  match fuel with
  | O => (st, OutOfFuel)
  | S fuel => match etl_body i st with
              | inl st' => etl_loop fuel (S i) st'
              | inr r => r
              end
  end.
End Loop.

(** The body of each [etl_*] function: window, truncate guard, loop. *)
Definition etl (p : Pair) (env : Env) (ctx : LoopCtx) (probe : result string (option string * option string))
    (now1 now2 : string) (fuel : nat) : St * exit :=
  match probe with
  | Err e => ({| st_cursor := ""; st_processed := 0; st_failed := 0; st_log := [] |}, Finished (Err e))
  | Ok pr =>
      let '(cursor, max_) := resolve_window pr now1 now2 ctx.(ctx_config) ctx.(ctx_resume) in
      let st := {| st_cursor := cursor; st_processed := 0; st_failed := 0;
                   st_log := if truncates p ctx.(ctx_config) ctx.(ctx_resume) then [Truncated] else [] |} in
      etl_loop p env ctx max_ fuel 0 st
  end.

(** The five entry points.  [etl_cross] and the HTTP targets take the driver of
    the source; the pairs [etl_cross] refuses are errors before any effect. *)
Inductive SqlKind := KMySql | KPostgres.
Definition refuse (e : string) : St * exit :=
  ({| st_cursor := ""; st_processed := 0; st_failed := 0; st_log := [] |}, Finished (Err e)).

Definition etl_mysql_to_mysql := etl MyMy.
Definition etl_pg_to_pg := etl PgPg.
Definition etl_cross (src tgt : SqlKind) env ctx probe now1 now2 fuel : St * exit :=
  match src, tgt with
  | KMySql, KPostgres => etl MyPg env ctx probe now1 now2 fuel
  | KPostgres, KMySql => etl PgMy env ctx probe now1 now2 fuel
  | _, _ => refuse "unsupported source/target combination for cross-driver ETL"
  end.
Definition etl_to_clickhouse (src : SqlKind) :=
  etl (match src with KMySql => MyCh | KPostgres => PgCh end).
Definition etl_to_doris_stream_load (src : SqlKind) :=
  etl (match src with KMySql => MyDoris | KPostgres => PgDoris end).

(** ** From the task row to the loop *)

Record TaskRow := { task_config : string; source_db_id : string; target_db_id : option string }.
Record ConnectionRow := {
  db_type : string; password_encrypted : string; default_database : option string }.

(** Parsing the configuration is serde's, decryption and opening the pools are
    other code: [open_pools] is the outcome of the latter. *)
Definition run_task_inner
    (from_str_config : string → result string DataSyncTaskConfig)
    (scheduled_tasks : option TaskRow) (database_connections : string → option ConnectionRow)
    (decrypt_password : string → result string string) (default_batch_size : Z)
    (open_pools : DbType → DbType → result string unit)
    (config_error : ConfigError → string)
    (env : Env) (probe : result string (option string * option string)) (now1 now2 : string)
    (fuel : nat) (task_id : string) (resume_cursor : option string) : St * exit :=
  let prepared : result string (LoopCtx * DbType * DbType) :=
    (task ← match scheduled_tasks with
            | Some t => Ok t | None => Err ("task " +:+ task_id +:+ " not found") end;
     config ← from_str_config task.(task_config);
     _ ← match validate config with
         | Ok u => Ok u | Err e => Err ("invalid config: " +:+ config_error e) end;
     tgt_id ← match task.(target_db_id) with
              | Some i => Ok i
              | None => Err ("data_sync task " +:+ task_id +:+ " has no target_db_id") end;
     let load i := match database_connections i with
                   | Some c => Ok c | None => Err ("connection " +:+ i +:+ " not found") end in
     src ← load task.(source_db_id);
     tgt ← load tgt_id;
     _ ← decrypt_password src.(password_encrypted);
     _ ← decrypt_password tgt.(password_encrypted);
     let batch_size := Z.max 1 (default (Z.max 1 default_batch_size) config.(batching).(batch_size)) in
     src_db ← match from_db_type_str src.(db_type) with
              | Some d => Ok d | None => Err ("unsupported source db_type: " +:+ src.(db_type)) end;
     tgt_db ← match from_db_type_str tgt.(db_type) with
              | Some d => Ok d | None => Err ("unsupported target db_type: " +:+ tgt.(db_type)) end;
     Ok ({| ctx_config := config; ctx_database := src.(default_database);
            ctx_batch_size := batch_size; ctx_resume := resume_cursor;
            ctx_retries := Z.to_nat (default 3%Z config.(batching).(batch_retries)) |}, src_db, tgt_db)) in
  match prepared with
  | Err e => refuse e
  | Ok (ctx, src_db, tgt_db) =>
      let opened (k : LoopCtx → result string (option string * option string) → string → string → nat → St * exit) :=
        match open_pools src_db tgt_db with
        | Err e => refuse e
        | Ok _ => k ctx probe now1 now2 fuel
        end in
      match src_db, tgt_db with
      | MySql, MySql => opened (etl_mysql_to_mysql env)
      | Postgres, Postgres => opened (etl_pg_to_pg env)
      | MySql, Postgres => opened (etl_cross KMySql KPostgres env)
      | Postgres, MySql => opened (etl_cross KPostgres KMySql env)
      | MySql, ClickHouse => opened (etl_to_clickhouse KMySql env)
      | Postgres, ClickHouse => opened (etl_to_clickhouse KPostgres env)
      | ClickHouse, _ => refuse "clickhouse can only be used as data_sync target, not source"
      | MySql, Doris => opened (etl_to_doris_stream_load KMySql env)
      | Postgres, Doris => opened (etl_to_doris_stream_load KPostgres env)
      | Doris, _ => refuse "doris can only be used as data_sync target, not source"
      end
  end.
End Cursors.

(** ** The rows of [data_sync_runs] *)

Record RunRow := {
  run_id : string; started_at : string; finished_at : option string; run_status : string;
  run_cursor : option string; run_error : option string; run_processed : Z; run_failed : Z;
  cancel_requested : Z }.

(** [ORDER BY started_at DESC LIMIT 1]. *)
Definition latest (rows : list RunRow) : option RunRow :=
  foldl (λ best r, match best with
                   | Some b => match key_compare b.(started_at) r.(started_at) with
                               | Lt => Some r | _ => best end
                   | None => Some r
                   end) None rows.

Definition find_resumable_cursor (rows : list RunRow) : option string :=
  match latest rows with
  | Some r => match r.(run_cursor) with
              | Some c => if decide (r.(run_status) = "succeeded") then None else Some c
              | None => None
              end
  | None => None
  end.

Definition check_cancel (rows : list RunRow) : bool :=
  match latest (filter (λ r, r.(run_status) = "running") rows) with
  | Some r => negb (r.(cancel_requested) =? 0)%Z
  | None => false
  end.

(** [status_label] and [should_notify] of [run_task]. *)
Definition status_label (r : result string RunOutcome) : string :=
  match r with
  | Ok o => if o.(canceled) then "canceled" else "succeeded"
  | Err _ => "failed"
  end.
Definition should_notify (r : result string RunOutcome) : bool :=
  match r with Ok o => (0 <? o.(failed_rows))%Z | Err _ => true end.

Definition redact_error (s : string) : string :=
  if contains "connect" s then "source/target database connection failed"
  else if contains "config" s || contains "identifier" s || contains "ON clause" s
  then take_chars 300 s
  else if contains "not found" s then take_chars 200 s
  else "data_sync ETL run failed".

(** The cursor column of the run row after a run. *)
Definition persisted_cursor (log : list event) : option string :=
  foldl (λ o e, match e with Progress c _ _ _ => Some c | _ => o end) None log.
Definition persisted_counts (log : list event) : Z * Z :=
  foldl (λ o e, match e with Progress _ _ a b => (a, b) | _ => o end) (0%Z, 0%Z) log.

(** [run_task]: the rows of the task after the run.  [read_ok] and [finalised]
    say whether reading the resume cursor and the last update went through;
    [cancel] is what a user set meanwhile.  A run that panics or is still
    running leaves its row as the last progress update made it. *)
Definition run_task (read_ok finalised : bool) (cancel : Z) (id now_rfc now_end : string)
    (inner : option string → St * exit) (rows : list RunRow) : list RunRow * exit :=
  let resume_cursor := if read_ok then find_resumable_cursor rows else None in
  let '(st, e) := inner resume_cursor in
  let running := {| run_id := id; started_at := now_rfc; finished_at := None; run_status := "running";
    run_cursor := persisted_cursor st.(st_log); run_error := None;
    run_processed := (persisted_counts st.(st_log)).1; run_failed := (persisted_counts st.(st_log)).2;
    cancel_requested := cancel |} in
  let row := match e with
             | Finished r => if finalised then
                 {| run_id := id; started_at := now_rfc; finished_at := Some now_end;
                    run_status := status_label r; run_cursor := running.(run_cursor);
                    run_error := match r with Ok _ => None | Err s => Some (redact_error s) end;
                    run_processed := match r with Ok o => as_i64 o.(processed_rows)
                                                | Err _ => running.(run_processed) end;
                    run_failed := match r with Ok o => as_i64 o.(failed_rows)
                                             | Err _ => running.(run_failed) end;
                    cancel_requested := cancel |}
                 else running
             | Panicked | OutOfFuel => running
             end in
  (rows ++ [row], e).

Lemma latest_app rows r : latest (rows ++ [r]) =
  match latest rows with
  | Some b => match key_compare b.(started_at) r.(started_at) with Lt => Some r | _ => Some b end
  | None => Some r
  end.
Proof.
  unfold latest. rewrite foldl_snoc.
  match goal with |- context [foldl ?f ?o rows] => destruct (foldl f o rows) as [b|] end; [|done].
  by destruct (key_compare _ _).
Qed.

Lemma latest_elem rows r : latest rows = Some r → r ∈ rows.
Proof.
  revert r. induction rows as [|x rows IH] using rev_ind; [done|]. intros r.
  rewrite latest_app, elem_of_app, list_elem_of_singleton.
  destruct (latest rows) as [b|]; [|naive_solver]. destruct (key_compare _ _); naive_solver.
Qed.

Lemma latest_snoc rows r : (∀ x, x ∈ rows → key_compare x.(started_at) r.(started_at) = Lt) →
  latest (rows ++ [r]) = Some r.
Proof.
  intros H. rewrite latest_app. destruct (latest rows) as [b|] eqn:E; [|done].
  by rewrite (H b (latest_elem _ _ E)).
Qed.

(** A run starts from where the latest one left off, and leaves for the next
    one the cursor it last saved, unless it completed and was recorded as such:
    then the next starts afresh. *)
Theorem next_run_resumes (read_ok finalised : bool) cancel id now_rfc now_end
    (inner : option string → St * exit) (rows : list RunRow) :
  (∀ x, x ∈ rows → key_compare x.(started_at) now_rfc = Lt) →
  let r := inner (if read_ok then find_resumable_cursor rows else None) in
  find_resumable_cursor (run_task read_ok finalised cancel id now_rfc now_end inner rows).1 =
  match r.2 with
  | Finished (Ok o) => if finalised && negb o.(canceled) then None else persisted_cursor r.1.(st_log)
  | _ => persisted_cursor r.1.(st_log)
  end.
Proof.
  intros Hlt. unfold run_task. destruct (inner _) as [st e]. cbn [fst].
  unfold find_resumable_cursor. rewrite latest_snoc.
  - destruct e as [[o|err]| |], finalised; cbn; try (by destruct (persisted_cursor _));
      destruct (canceled o); cbn; by destruct (persisted_cursor _).
  - intros x Hx. specialize (Hlt x Hx). by destruct e as [[]| |], finalised.
Qed.

(** ** Retries *)

Lemma retry_from_spec {T} (f : nat → result string T) attempt left_ :
  let '(r, pauses) := retry_from f attempt left_ in
  match r with
  | Ok v => ∃ k, k ≤ left_ ∧ f (attempt + k) = Ok v ∧ length pauses = k ∧
      ∀ j, j < k → ∃ e, f (attempt + j) = Err e
  | Err _ => length pauses = left_ ∧ ∀ j, j ≤ left_ → ∃ e, f (attempt + j) = Err e
  end.
Proof.
  revert attempt. induction left_ as [|k IH]; intros attempt; cbn.
  - destruct (f attempt) as [v|e] eqn:E.
    + exists 0. rewrite Nat.add_0_r. split_and!; [lia|done|done|lia].
    + split; [done|]. intros j Hj. replace j with 0 by lia. rewrite Nat.add_0_r. eauto.
  - destruct (f attempt) as [v|e] eqn:E.
    + exists 0. rewrite Nat.add_0_r. split_and!; [lia|done|done|lia].
    + specialize (IH (S attempt)). destruct (retry_from f (S attempt) k) as [[v|[]] pauses]; cbn.
      * destruct IH as (j & Hj & Hf & Hl & Hb). exists (S j). rewrite Nat.add_succ_r.
        split_and!; [lia|done|by rewrite Hl|]. intros [|i] Hi; [rewrite Nat.add_0_r; eauto|].
        rewrite Nat.add_succ_r. apply Hb. lia.
      * destruct IH as [Hl Hb]. split; [by rewrite Hl|].
        intros [|i] Hi; [rewrite Nat.add_0_r; eauto|]. rewrite Nat.add_succ_r. apply Hb. lia.
Qed.

(** A batch is tried at least once and at most [max_retries] times, stops at
    the first success, fails only when every try failed, and pauses exactly
    between tries. *)
Theorem retry_attempts {T} max_retries (f : nat → result string T) :
  let n := max 1 max_retries in
  let '(r, pauses) := retry_batch_insert max_retries f in
  match r with
  | Ok v => ∃ k, 1 ≤ k ≤ n ∧ f k = Ok v ∧ length pauses = k - 1 ∧
      ∀ j, 1 ≤ j < k → ∃ e, f j = Err e
  | Err _ => length pauses = n - 1 ∧ ∀ j, 1 ≤ j ≤ n → ∃ e, f j = Err e
  end.
Proof.
  cbn zeta. unfold retry_batch_insert. pose proof (retry_from_spec f 1 (max 1 max_retries - 1)) as H.
  destruct (retry_from f 1 _) as [[v|[]] pauses].
  - destruct H as (k & Hk & Hf & Hl & Hb). exists (S k). split_and!; [lia|lia|done|lia|].
    intros [|j] Hj; [lia|]. apply (Hb j). lia.
  - destruct H as [Hl Hb]. split; [done|]. intros [|j] Hj; [lia|]. apply (Hb j). lia.
Qed.

(** ** Truncation *)

Lemma truncates_iff p c resume : truncates p c resume = true ↔
  c.(target_strategy) = Truncate ∧
  match p with
  | MyMy | MyCh | PgCh => resume = None
  | PgPg | MyPg | PgMy => resume ≠ None
  | MyDoris | PgDoris => False
  end.
Proof.
  unfold truncates, maybe_truncate, is_none, is_some.
  destruct p, resume, (target_strategy c); cbn; naive_solver.
Qed.

(** ** The loop *)

Lemma persisted_snoc log e : persisted_cursor (log ++ [e]) =
  match e with Progress c _ _ _ => Some c | _ => persisted_cursor log end.
Proof. unfold persisted_cursor. by rewrite foldl_snoc. Qed.

(** A source table in the order of its time column, and its windows. *)
Notation Table := (list (Z * SqlRow)) (only parsing).
Definition by_time (tbl : Table) : Prop := StronglySorted (λ x y, (x.1 ≤ y.1)%Z) tbl.
Definition rows_between (tbl : Table) (a b : Z) : list SqlRow :=
  map snd (filter (λ x, (a ≤ x.1 < b)%Z) tbl).
Definition rows_from (tbl : Table) (a : Z) : list SqlRow :=
  map snd (filter (λ x, (a ≤ x.1)%Z) tbl).

Lemma rows_between_split tbl a b c : by_time tbl → (a ≤ b ≤ c)%Z →
  rows_between tbl a c = rows_between tbl a b ++ rows_between tbl b c.
Proof.
  unfold rows_between. intros Hs H. induction Hs as [|x tbl Hs IH Hx]; [done|].
  rewrite !filter_cons. destruct (decide (x.1 < b)%Z) as [Hlt|Hge].
  - rewrite (decide_False (P := (b ≤ x.1 < c)%Z)) by lia.
    destruct (decide (a ≤ x.1)%Z); [rewrite !decide_True by lia|rewrite !decide_False by lia];
      cbn; by rewrite IH.
  - assert (filter (λ y : Z * SqlRow, (a ≤ y.1 < b)%Z) tbl = []) as Hn.
    { apply filter_none. eapply Forall_impl; [exact Hx|]. cbn. lia. }
    rewrite Hn in IH |- *. rewrite (decide_False (P := (a ≤ x.1 < b)%Z)) by lia.
    destruct (decide (x.1 < c)%Z); [rewrite !decide_True by lia|rewrite !decide_False by lia];
      cbn in *; by rewrite IH.
Qed.

Lemma rows_between_all tbl a b : (∀ x, x ∈ tbl → (x.1 < b)%Z) → rows_between tbl a b = rows_from tbl a.
Proof.
  intros H. unfold rows_between, rows_from. f_equal. induction tbl as [|x tbl IH]; [done|].
  rewrite !filter_cons. specialize (IH ltac:(intros; apply H; by right)).
  specialize (H x ltac:(by left)).
  destruct (decide (a ≤ x.1)%Z); [rewrite !decide_True by lia|rewrite !decide_False by lia];
    by rewrite IH.
Qed.

Lemma rows_between_nil tbl a : rows_between tbl a a = [].
Proof. unfold rows_between. rewrite filter_none; [done|]. apply Forall_true. lia. Qed.

Section LoopTheorems.
Context {TC : TimestampCodec} {TL : TimestampLaws TC} {Pr : Printer}.
Context (parse_naive parse_naive_frac : string → option Z) (dt_min dt_max : Z).
Context (p : Pair) (env : Env) (ctx : LoopCtx) (max_ : string).

Definition step_ns : Z := Z.max 1 ctx.(ctx_batch_size) * SECOND.

(** An instant from which one more window can be computed and printed. *)
Definition in_range (t : Z) : Prop :=
  (Z.max dt_min ts_min ≤ t ∧ t + step_ns ≤ Z.min dt_max ts_max)%Z.

Lemma advance_ok c t :
  parse_cursor parse_naive parse_naive_frac c = Some t →
  (Z.max 1 ctx.(ctx_batch_size) ≤ i64_max / 1000)%Z →
  in_range t →
  advance_cursor parse_naive parse_naive_frac dt_min dt_max c ctx.(ctx_batch_size) =
    Some (to_rfc3339 (t + step_ns)) ∧
  parse_cursor parse_naive parse_naive_frac (to_rfc3339 (t + step_ns)) = Some (t + step_ns)%Z.
Proof.
  intros Hc Hb [Hmin Hmax]. split.
  - unfold advance_cursor. rewrite Hc.
    change (i64_max / 1000)%Z with 9223372036854775%Z in *.
    rewrite as_i64_id by (change i64_max with 9223372036854775807%Z; lia).
    unfold step_ns, SECOND in *.
    repeat match goal with |- context [(?a <? ?b)%Z] => destruct (Z.ltb_spec a b); try lia end.
    done.
  - unfold parse_cursor. rewrite parse_to_rfc3339; [done|]. unfold step_ns, SECOND in *. lia.
Qed.

Lemma step_pos : (0 < step_ns)%Z.
Proof. unfold step_ns, SECOND. lia. Qed.

Lemma cursor_gt_parsed a b x y :
  parse_cursor parse_naive parse_naive_frac a = Some x →
  parse_cursor parse_naive parse_naive_frac b = Some y →
  cursor_gt parse_naive parse_naive_frac a b = (y <? x)%Z.
Proof. intros Ha Hb. unfold cursor_gt. by rewrite Ha, Hb. Qed.

(** The attempts at a batch truncate nothing and save no cursor. *)
Definition quiet_event (e : event) : Prop := match e with Attempted _ _ | Paused _ | Fetched _ _ _ => True | _ => False end.
Lemma attempts_quiet pl ok pauses : Forall quiet_event (attempts pl ok pauses).
Proof.
  unfold attempts. apply Forall_app. split; [|by apply Forall_singleton].
  induction pauses as [|ms pauses IH]; cbn; [constructor|by repeat constructor].
Qed.
Lemma insert_rows_log i rows st : ∃ l, Forall quiet_event l ∧
  st_log (insert_rows p env ctx i rows st) = st_log st ++ l ∧ st_cursor (insert_rows p env ctx i rows st) = st_cursor st.
Proof.
  unfold insert_rows. destruct (retry_batch_insert _ _) as [[v|[]] pauses]; cbn; eexists; (split; [apply attempts_quiet|done]).
Qed.

(** One turn, from a cursor that denotes an instant. *)
Lemma body_cases i st t tm :
  parse_cursor parse_naive parse_naive_frac (st_cursor st) = Some t →
  parse_cursor parse_naive parse_naive_frac max_ = Some tm →
  (Z.max 1 ctx.(ctx_batch_size) ≤ i64_max / 1000)%Z →
  in_range t →
  match etl_body parse_naive parse_naive_frac dt_min dt_max p env ctx max_ i st with
  | inl st' => st_cursor st' = to_rfc3339 (t + step_ns) ∧
      parse_cursor parse_naive parse_naive_frac (st_cursor st') = Some (t + step_ns)%Z ∧
      (t + step_ns ≤ tm)%Z
  | inr (_, e) => ∃ r, e = Finished r
  end.
Proof.
  intros Hc Hm Hb Ht. unfold etl_body. destruct (env_cancel env i) as [[]|e]; [eauto| |eauto].
  destruct (advance_ok _ _ Hc Hb Ht) as [-> Hn].
  destruct (env_fetch env i _ _ _) as [rows|e]; [|eauto].
  rewrite (cursor_gt_parsed _ _ _ _ Hn Hm).
  destruct rows as [|r rows].
  - destruct (Z.ltb_spec tm (t + step_ns)); [eauto|]. done.
  - destruct (env_progress env i); [|eauto]. cbn [with_cursor st_cursor].
    rewrite (cursor_gt_parsed _ _ _ _ Hn Hm).
    destruct (Z.ltb_spec tm (t + step_ns)); [eauto|]. done.
Qed.

(** A run whose start and maximum denote instants ends: one turn per window
    of [batch_size] seconds up to the maximum, whatever the databases answer,
    and no addition of instants overflows. *)
Theorem etl_terminates st t tm fuel :
  parse_cursor parse_naive parse_naive_frac (st_cursor st) = Some t →
  parse_cursor parse_naive parse_naive_frac max_ = Some tm →
  (Z.max 1 ctx.(ctx_batch_size) ≤ i64_max / 1000)%Z →
  in_range t → in_range tm →
  0 < fuel → (tm - t < Z.of_nat fuel * step_ns)%Z → ∀ i,
  ∃ r, (etl_loop parse_naive parse_naive_frac dt_min dt_max p env ctx max_ fuel i st).2 = Finished r.
Proof.
  intros Hc Hm Hb. revert st t Hc. induction fuel as [|fuel IH]; intros st t Hc Hr Hr' Hf Ht i; [lia|].
  pose proof step_pos. pose proof (body_cases i st t tm Hc Hm Hb Hr) as H'. cbn [etl_loop].
  destruct (etl_body _ _ _ _ _ _ _ _ i st) as [st'|[st' e]]; [|exact H'].
  destruct H' as (Hc' & Hp & Hle). apply (IH st' (t + step_ns)%Z); [done|unfold in_range in *; lia|done|nia|lia].
Qed.

(** No turn of the loop truncates the target. *)
Lemma body_keeps_truncated i st :
  let st' := match etl_body parse_naive parse_naive_frac dt_min dt_max p env ctx max_ i st with
             | inl st' => st' | inr (st', _) => st' end in
  Truncated ∈ st'.(st_log) ↔ Truncated ∈ st.(st_log).
Proof.
  unfold etl_body. destruct (env_cancel env i) as [[]|]; [done| |done].
  destruct (advance_cursor _ _ _ _ _ _); [|done]. destruct (env_fetch env i _ _ _) as [rows|]; [|done].
  destruct rows as [|r rows].
  { destruct (cursor_gt _ _ _ _); cbn; rewrite elem_of_app, list_elem_of_singleton; naive_solver. }
  destruct (insert_rows_log i (r :: rows) (log_event (Fetched (st_cursor st) s (r :: rows)) st)) as (l & Hl & Hlog & _).
  assert (Hno : Truncated ∉ l) by (intros Hin; rewrite Forall_forall in Hl; by apply Hl in Hin).
  destruct (env_progress env i); [destruct (cursor_gt _ _ _ _)|]; cbn zeta;
    cbn [st_log with_cursor log_event log_events] in Hlog |- *; rewrite Hlog, !elem_of_app, !list_elem_of_singleton; naive_solver.
Qed.

Lemma loop_keeps_truncated fuel i st :
  Truncated ∈ (etl_loop parse_naive parse_naive_frac dt_min dt_max p env ctx max_ fuel i st).1.(st_log)
  ↔ Truncated ∈ st.(st_log).
Proof.
  revert i st. induction fuel as [|fuel IH]; intros i st; [done|]. cbn [etl_loop].
  pose proof (body_keeps_truncated i st) as H. cbn zeta in H.
  destruct (etl_body _ _ _ _ _ _ _ _ i st) as [st'|[st' e]]; [by rewrite IH|exact H].
Qed.

(** A cursor in none of the three formats (a DATE column, a timestamptz
    printed with a numeric offset) never moves: with nothing to fetch and no
    cancellation the loop runs forever. *)
Theorem unparseable_cursor_spins st :
  parse_cursor parse_naive parse_naive_frac (st_cursor st) = None →
  cursor_gt parse_naive parse_naive_frac (st_cursor st) max_ = false →
  (∀ i, env_cancel env i = Ok false) →
  (∀ i sql c n, env_fetch env i sql c n = Ok []) → ∀ fuel i,
  (etl_loop parse_naive parse_naive_frac dt_min dt_max p env ctx max_ fuel i st).2 = OutOfFuel.
Proof.
  intros Hc Hgt Hcan Hfe fuel. revert st Hc Hgt.
  induction fuel as [|fuel IH]; intros st Hc Hgt i; [done|].
  cbn [etl_loop]. unfold etl_body. rewrite Hcan. unfold advance_cursor. rewrite Hc, Hfe.
  cbn [st_cursor log_event]. rewrite Hgt. apply IH; done.
Qed.

End LoopTheorems.

(** When a run truncates its target: for MySQL-to-MySQL and ClickHouse
    targets exactly on fresh runs, for the other SQL pairs exactly on resumed
    runs, for Doris never; in every case only under the truncate strategy. *)
Theorem truncates_exactly `{TimestampCodec, Printer} parse_naive parse_naive_frac dt_min dt_max
    p env ctx probe now1 now2 fuel :
  Truncated ∈ (etl parse_naive parse_naive_frac dt_min dt_max p env ctx (Ok probe) now1 now2 fuel).1.(st_log) ↔
  ctx.(ctx_config).(target_strategy) = Truncate ∧
  match p with
  | MyMy | MyCh | PgCh => ctx.(ctx_resume) = None
  | PgPg | MyPg | PgMy => ctx.(ctx_resume) ≠ None
  | MyDoris | PgDoris => False
  end.
Proof.
  rewrite <- truncates_iff. unfold etl. destruct (resolve_window _ _ _ _ _) as [c m].
  etrans; [apply loop_keeps_truncated|]. cbn [st_log].
  destruct (truncates _ _ _); [|by rewrite elem_of_nil]. by rewrite list_elem_of_singleton.
Qed.

(** ** What a run copies *)

Definition sql_target (p : Pair) : bool :=
  match p with MyMy | PgPg | MyPg | PgMy => true | _ => false end.

(** A window of the run: what was asked for, what the source gave, what became of its batch
    and the pauses between the attempts at it. *)
Record Window := { w_from : string; w_to : string; w_rows : list SqlRow; w_written : result unit nat; w_pauses : list Z }.

Section Windows.
Context {TC : TimestampCodec} {Pr : Printer}.
Context (parse_naive parse_naive_frac : string → option Z) (dt_min dt_max : Z).
Context (p : Pair) (ctx : LoopCtx).
Local Notation PC := (parse_cursor parse_naive parse_naive_frac).
Local Notation advance c := (advance_cursor parse_naive parse_naive_frac dt_min dt_max c ctx.(ctx_batch_size)).
Local Notation beyond c max_ := (cursor_gt parse_naive parse_naive_frac c max_).

(** Windows that follow one another from a start. *)
Fixpoint consecutive (c : string) (ws : list Window) : Prop :=
  match ws with
  | [] => True
  | w :: ws => w.(w_from) = c ∧ advance c = Some w.(w_to) ∧ consecutive w.(w_to) ws
  end.
Definition end_of (c : string) (ws : list Window) : string := default c (w_to <$> last ws).
Lemma end_of_cons c w ws : end_of c (w :: ws) = end_of w.(w_to) ws.
Proof. unfold end_of. rewrite last_cons. by destruct (last ws). Qed.
Lemma end_of_snoc c w ws : end_of c (ws ++ [w]) = w.(w_to).
Proof. unfold end_of. by rewrite last_snoc. Qed.
Lemma consecutive_app c ws ws' : consecutive c (ws ++ ws') ↔ consecutive c ws ∧ consecutive (end_of c ws) ws'.
Proof.
  revert c. induction ws as [|w ws IH]; intros c; cbn [app consecutive]; [unfold end_of; cbn; tauto|].
  rewrite IH, end_of_cons. tauto.
Qed.

(** The counters: the rows of the batches that went through, as the target reports them,
    and of those given up. *)
Definition tally (n : Z * Z) (w : Window) : Z * Z :=
  match w.(w_rows), w.(w_written) with
  | [], _ => n
  | rows, Ok written => (add64 n.1 (Z.of_nat (inserted_count p (length rows) written)), add64 n.2 0)
  | rows, Err _ => (add64 n.1 0, add64 n.2 (Z.of_nat (length rows)))
  end.
Notation tallied := (foldl tally (0, 0)%Z).
(** What a window leaves in the log: nothing but the query when it is empty. *)
Definition handed (w : Window) : list event :=
  Fetched w.(w_from) w.(w_to) w.(w_rows) ::
  match w.(w_rows) with
  | [] => []
  | rows => attempts (payload p ctx.(ctx_config) rows) (is_ok w.(w_written)) w.(w_pauses)
  end.
Definition window_log (max_ : string) (n : Z * Z) (w : Window) : list event :=
  handed w ++ match w.(w_rows) with
              | [] => []
              | _ => let n := tally n w in
                     [Progress w.(w_from) (compute_pct parse_naive parse_naive_frac w.(w_from) max_) n.1 n.2]
              end.
Fixpoint windows_log (max_ : string) (n : Z * Z) (ws : list Window) : list event :=
  match ws with [] => [] | w :: ws => window_log max_ n w ++ windows_log max_ (tally n w) ws end.
Lemma windows_log_snoc max_ n ws w : windows_log max_ n (ws ++ [w]) = windows_log max_ n ws ++ window_log max_ (foldl tally n ws) w.
Proof. revert n. induction ws as [|x ws IH]; intros n; cbn; [by rewrite app_nil_r|]. by rewrite IH, app_assoc. Qed.

(** A window is what the source answered to the query of that turn, and its batch is what
    the retries made of it. *)
Definition answered (env : Env) (i : nat) (w : Window) : Prop :=
  env.(env_fetch) i (fetch_sql p ctx.(ctx_config) ctx.(ctx_database)) w.(w_from) w.(w_to) = Ok w.(w_rows) ∧
  (w.(w_rows) ≠ [] → retry_batch_insert ctx.(ctx_retries) (λ attempt, env.(env_insert) i attempt (payload p ctx.(ctx_config) w.(w_rows))) =
     (w.(w_written), w.(w_pauses))).

(** ** One run *)

Section OneRun.
Context (env : Env) (max_ start_ : string) (log0 : list event).
Definition logged (ws : list Window) (tail : list event) (st : St) : Prop := st.(st_log) = log0 ++ windows_log max_ (0, 0)%Z ws ++ tail.
Definition state_after (ws : list Window) (st : St) : Prop := logged ws [] st ∧ (st.(st_processed), st.(st_failed)) = tallied ws.
Record covered (ws : list Window) : Prop := {
  cv_consecutive : consecutive start_ ws;
  cv_answered : ∀ i w, ws !! i = Some w → answered env i w }.
(** No window but the last reaches beyond the maximum. *)
Definition within_max (ws : list Window) : Prop := Forall (λ w, beyond w.(w_to) max_ = false) ws.
(** How a run may end: with its windows handled, and, when its progress could not be
    saved, one more handed over. *)
Definition handed_over (ws : list Window) (tail : list event) : Prop := tail = [] ∨ ∃ w, covered (ws ++ [w]) ∧ tail = handed w.
Definition ended (st : St) (e : exit) : Prop := ∃ ws tail, covered ws ∧ logged ws tail st ∧ handed_over ws tail ∧
  match e with
  | Finished (Ok o) => state_after ws st ∧ o = outcome o.(canceled) st ∧
      if o.(canceled) then within_max ws
      else ∃ before w, ws = before ++ [w] ∧ within_max before ∧ beyond w.(w_to) max_ = true
  | _ => within_max ws
  end.
Lemma ended_before ws st e : covered ws → within_max ws → state_after ws st →
  match e with Finished (Ok o) => o = outcome true st | _ => True end → ended st e.
Proof.
  intros Hc Hm Hs He. exists ws, []. split_and!; [done|apply Hs|by left|]. destruct e as [[o|]| |]; [|done..]. rewrite He. by split_and!.
Qed.
Lemma ended_beyond ws w st : covered (ws ++ [w]) → within_max ws → state_after (ws ++ [w]) st → beyond w.(w_to) max_ = true →
  ended st (Finished (Ok (outcome false st))).
Proof. intros Hc Hm Hs Hb. exists (ws ++ [w]), []. split_and!; [done|apply Hs|by left|done|done|]. by exists ws, w. Qed.

Lemma covered_snoc ws w : covered ws → w.(w_from) = end_of start_ ws → advance w.(w_from) = Some w.(w_to) →
  answered env (length ws) w → covered (ws ++ [w]).
Proof.
  intros [Hc Ha] Hf Hn Hw. split.
  - apply consecutive_app. split; [done|]. cbn. split_and!; [done| |done]. by rewrite <- Hf.
  - intros i x. rewrite lookup_app_Some. intros [Hi|[Hi Hx]]; [by apply Ha|]. apply list_lookup_singleton_Some in Hx as [Hz <-].
    by replace i with (length ws) by lia.
Qed.
Lemma insert_rows_window i w st : w.(w_rows) ≠ [] → answered env i w →
  insert_rows p env ctx i w.(w_rows) st =
  {| st_cursor := st.(st_cursor); st_processed := (tally (st.(st_processed), st.(st_failed)) w).1;
     st_failed := (tally (st.(st_processed), st.(st_failed)) w).2;
     st_log := st.(st_log) ++ attempts (payload p ctx.(ctx_config) w.(w_rows)) (is_ok w.(w_written)) w.(w_pauses) |}.
Proof.
  intros Hne [_ Hr]. specialize (Hr Hne). unfold insert_rows, tally. rewrite Hr.
  destruct w as [f n [|r rows] [written|[]] pauses]; cbn in *; done.
Qed.
Lemma body_covered st ws : covered ws → within_max ws → state_after ws st → st.(st_cursor) = end_of start_ ws →
  match etl_body parse_naive parse_naive_frac dt_min dt_max p env ctx max_ (length ws) st with
  | inl st' => ∃ w, covered (ws ++ [w]) ∧ within_max (ws ++ [w]) ∧ state_after (ws ++ [w]) st' ∧ st'.(st_cursor) = w.(w_to)
  | inr (st', e) => ended st' e
  end.
Proof.
  intros Hc Hm Hs Hcur. unfold etl_body. destruct (env_cancel env _) as [[]|e]; [by eapply ended_before| |by eapply ended_before].
  destruct (advance _) as [next|] eqn:Ha; [|by eapply ended_before]. destruct (env_fetch env _ _ _ _) as [rows|e] eqn:Ef; [|by eapply ended_before].
  destruct (retry_batch_insert ctx.(ctx_retries) (λ attempt, env_insert env (length ws) attempt (payload p (ctx_config ctx) rows))) as [written pauses] eqn:Er.
  pose (w := {| w_from := st_cursor st; w_to := next; w_rows := rows; w_written := written; w_pauses := pauses |}).
  assert (Hw : answered env (length ws) w) by by split.
  assert (Hcw : covered (ws ++ [w])) by by apply covered_snoc.
  destruct Hs as [Hl Hn]. unfold logged in Hl. rewrite app_nil_r in Hl.
  assert (Hmw : beyond next max_ = false → within_max (ws ++ [w])).
  { intros Hb. apply Forall_app. split; [done|]. by apply Forall_singleton. }
  destruct rows as [|r rows].
  - assert (Hse : ∀ c, state_after (ws ++ [w]) (with_cursor c (log_event (Fetched (st_cursor st) next []) st))).
    { intros c. split; [|by rewrite foldl_app, <- Hn]. unfold logged. cbn. rewrite Hl, windows_log_snoc, app_nil_r. cbn. by rewrite app_assoc. }
    destruct (beyond next max_) eqn:Hb; [by apply (ended_beyond ws w); [..|exact (Hse (st_cursor st))|]|].
    exists w. split_and!; [done|by apply Hmw|apply Hse|done].
  - pose proof (insert_rows_window (length ws) w (log_event (Fetched (st_cursor st) next (r :: rows)) st) ltac:(done) Hw) as Hins.
    cbn [w_rows w] in Hins. rewrite Hins. clear Hins. cbn [with_cursor log_event log_events st_log st_cursor st_processed st_failed].
    destruct (env_progress env _) as [|e].
    + match goal with |- context [inl ?s] => assert (Hse : state_after (ws ++ [w]) s) end.
      { split; unfold logged; cbn [st_log st_processed st_failed].
        - rewrite Hl, windows_log_snoc, app_nil_r, <- Hn. cbn. by rewrite <- !app_assoc.
        - rewrite foldl_app, <- Hn. cbn [foldl]. by destruct (tally _ _). }
      destruct (beyond next max_) eqn:Hb; [by apply (ended_beyond ws w)|].
      exists w. split_and!; [done|by apply Hmw|exact Hse|done].
    + exists ws, (handed w). split_and!; [done| |right; by exists w|done]. unfold logged. cbn. rewrite Hl. cbn. by rewrite <- !app_assoc.
Qed.
Lemma loop_covered fuel st ws : covered ws → within_max ws → state_after ws st → st.(st_cursor) = end_of start_ ws →
  let r := etl_loop parse_naive parse_naive_frac dt_min dt_max p env ctx max_ fuel (length ws) st in ended r.1 r.2.
Proof.
  revert st ws. induction fuel as [|fuel IH]; intros st ws Hc Hm Hs Hcur; cbn [etl_loop]; [by eapply ended_before|].
  pose proof (body_covered st ws Hc Hm Hs Hcur) as H. destruct (etl_body _ _ _ _ _ _ _ _ _ st) as [st'|[st' e]]; [|exact H].
  destruct H as (w & H1 & H2 & H3 & H4). specialize (IH st' (ws ++ [w]) H1 H2 H3). rewrite length_app in IH. cbn [length] in IH.
  rewrite Nat.add_1_r in IH. apply IH. by rewrite end_of_snoc.
Qed.
End OneRun.

(** The log a run starts with. *)
Definition opening : list event := if truncates p ctx.(ctx_config) ctx.(ctx_resume) then [Truncated] else [].
Lemma etl_covered env probe now1 now2 start_ max_ fuel : resolve_window probe now1 now2 ctx.(ctx_config) ctx.(ctx_resume) = (start_, max_) →
  let r := etl parse_naive parse_naive_frac dt_min dt_max p env ctx (Ok probe) now1 now2 fuel in ended env max_ start_ opening r.1 r.2.
Proof.
  intros Hw. unfold etl. rewrite Hw. apply (loop_covered _ _ _ _ _ _ []); [by split|constructor| |done].
  split; [|done]. unfold logged. cbn. by rewrite app_nil_r.
Qed.
(** The saved cursor is where the last window with rows began. *)
Lemma window_persisted max_ n w log : persisted_cursor (log ++ window_log max_ n w) =
  match w.(w_rows) with [] => persisted_cursor log | _ => Some w.(w_from) end.
Proof.
  unfold window_log, handed. destruct (w_rows w) as [|r rows]; [by rewrite app_nil_r, persisted_snoc|].
  by rewrite app_assoc, persisted_snoc.
Qed.
Lemma quiet_persisted log l : Forall quiet_event l → persisted_cursor (log ++ l) = persisted_cursor log.
Proof.
  induction l as [|e l IH] using rev_ind; [by rewrite app_nil_r|]. intros [Hl He]%Forall_app. apply Forall_cons in He as [He _].
  rewrite app_assoc, persisted_snoc. destruct e; try done; by apply IH.
Qed.
Lemma handed_quiet w : Forall quiet_event (handed w).
Proof. unfold handed. constructor; [done|]. destruct (w_rows w); [constructor|apply attempts_quiet]. Qed.
Lemma persisted_window max_ log ws c : persisted_cursor log = None → persisted_cursor (log ++ windows_log max_ (0, 0)%Z ws) = Some c →
  ∃ before w rest, ws = before ++ w :: rest ∧ w.(w_from) = c ∧ w.(w_rows) ≠ [] ∧ Forall (λ x, x.(w_rows) = []) rest.
Proof.
  intros Hl. induction ws as [|w ws IH] using rev_ind; [cbn; rewrite app_nil_r; congruence|].
  rewrite windows_log_snoc, app_assoc, window_persisted. destruct (w_rows w) as [|r rows] eqn:Er.
  - intros (before & x & rest & -> & Hf & Hx & Hr)%IH. exists before, x, (rest ++ [w]). rewrite <- app_assoc. split_and!; [done..|].
    apply Forall_app. split; [done|by apply Forall_singleton].
  - intros [= <-]. exists ws, w, []. split_and!; [done|done|by rewrite Er|constructor].
Qed.
End Windows.

(** ** What the source holds *)

Lemma table_bound (tbl : list (Z * SqlRow)) b : ∃ m, (b ≤ m)%Z ∧ ∀ x, x ∈ tbl → (x.1 < m)%Z.
Proof.
  induction tbl as [|y tbl (m & Hb & Hm)]; [by exists b; split; [|intros x ?%elem_of_nil]|].
  exists (Z.max m (y.1 + 1)). split; [lia|].
  intros x [->|Hx]%elem_of_cons; [|specialize (Hm x Hx)]; lia.
Qed.

Lemma rows_from_split tbl a b : by_time tbl → (a ≤ b)%Z →
  rows_from tbl a = rows_between tbl a b ++ rows_from tbl b.
Proof.
  intros Hs Hab. destruct (table_bound tbl b) as (m & Hm & Hall).
  rewrite <- !(rows_between_all tbl _ m) by done. by apply rows_between_split.
Qed.

Definition rows_of (ws : list Window) : list SqlRow := concat (map w_rows ws).
Lemma rows_of_snoc ws w : rows_of (ws ++ [w]) = rows_of ws ++ w.(w_rows).
Proof. unfold rows_of. rewrite map_app, concat_app. cbn. by rewrite app_nil_r. Qed.

Definition with_resume (c : string) (ctx : LoopCtx) : LoopCtx :=
  {| ctx_config := ctx.(ctx_config); ctx_database := ctx.(ctx_database);
     ctx_batch_size := ctx.(ctx_batch_size); ctx_resume := Some c; ctx_retries := ctx.(ctx_retries) |}.

Section Source.
Context {TC : TimestampCodec} {TL : TimestampLaws TC} {Pr : Printer}.
Context (parse_naive parse_naive_frac : string → option Z) (dt_min dt_max : Z).
Context (p : Pair) (ctx : LoopCtx) (tbl : list (Z * SqlRow)) (t0 tm : Z).
Local Notation PC := (parse_cursor parse_naive parse_naive_frac).
Local Notation step := (step_ns ctx).
Local Notation run := (etl parse_naive parse_naive_frac dt_min dt_max p).
Local Notation consecutive := (consecutive parse_naive parse_naive_frac dt_min dt_max ctx).
Local Notation covered := (covered parse_naive parse_naive_frac dt_min dt_max p ctx).

(** What SQL promises of the batch query: the rows of the window in the order
    of the time column, at most LIMIT of them. *)
Definition source_answers (env : Env) : Prop := ∀ i c n a b rows, PC c = Some a → PC n = Some b →
  env_fetch env i (fetch_sql p ctx.(ctx_config) ctx.(ctx_database)) c n = Ok rows →
  rows = take (Z.to_nat (select_limit ctx.(ctx_config))) (rows_between tbl a b).

(** No window holds more rows than LIMIT. *)
Definition windows_fit : Prop := ∀ a,
  length (rows_between tbl a (a + step)) ≤ Z.to_nat (select_limit ctx.(ctx_config)).

(** A source that does not change: sorted, nothing after the maximum [tm], windows
    within LIMIT, instants chrono can represent and print. *)
Record source_ok (max_ : string) : Prop := {
  so_sorted : by_time tbl;
  so_fit : windows_fit;
  so_batch : (Z.max 1 ctx.(ctx_batch_size) ≤ i64_max / 1000)%Z;
  so_max : PC max_ = Some tm;
  so_last : ∀ x, x ∈ tbl → (x.1 ≤ tm)%Z;
  so_tm : in_range dt_min dt_max ctx tm;
  so_t0 : in_range dt_min dt_max ctx t0 }.

Section Read.
Context (env : Env) (max_ start_ : string) (Hok : source_ok max_) (Hsrc : source_answers env) (Hs : PC start_ = Some t0).
(** The windows so far hold the rows up to [t]. *)
Definition read_up_to (ws : list Window) (t : Z) : Prop :=
  PC (end_of start_ ws) = Some t ∧ (t0 ≤ t)%Z ∧ rows_of ws = rows_between tbl t0 t.
Lemma read_more ws w t : covered env start_ (ws ++ [w]) → read_up_to ws t → (t ≤ Z.max t0 tm)%Z → read_up_to (ws ++ [w]) (t + step).
Proof.
  intros [Hc Ha] (Hp & Hle & Hr) Hm. destruct Hok. apply consecutive_app in Hc as [_ (Hf & Hn & _)]. rewrite <- Hf in Hp, Hn.
  pose proof (step_pos ctx). assert (Hin : in_range dt_min dt_max ctx t) by (unfold in_range in *; lia).
  destruct (advance_ok parse_naive parse_naive_frac _ _ ctx _ _ Hp so_batch0 Hin) as [Ha' Hn']. rewrite Ha' in Hn. injection Hn as Hn.
  rewrite Hn in Hn'. split_and!; [by rewrite end_of_snoc|lia|].
  destruct (Ha (length ws) w) as [Hf' _]; [by apply list_lookup_middle|]. pose proof (Hsrc _ _ _ _ _ _ Hp Hn' Hf') as Hrows.
  rewrite rows_of_snoc, Hr, Hrows, take_ge by apply so_fit0. symmetry. apply rows_between_split; [done|lia].
Qed.
Lemma covered_read ws : covered env start_ ws → within_max parse_naive parse_naive_frac max_ ws → ∃ t, read_up_to ws t ∧ (t ≤ Z.max t0 tm)%Z.
Proof.
  induction ws as [|w ws IH] using rev_ind; intros Hc Hm.
  - exists t0. split; [|lia]. split_and!; [done|lia|]. by rewrite rows_between_nil.
  - apply Forall_app in Hm as [Hm Hw]. apply Forall_cons in Hw as [Hw _]. destruct IH as (t & Ht & Hle); [|done|].
    { destruct Hc as [Hc Ha]. apply consecutive_app in Hc as [Hc _]. split; [done|]. intros i x Hx. apply Ha. by apply lookup_app_l_Some. }
    exists (t + step)%Z. pose proof (read_more ws w t Hc Ht Hle) as Hr. split; [done|]. destruct Hr as [Hp _]. rewrite end_of_snoc in Hp.
    destruct Hok. rewrite (cursor_gt_parsed _ _ _ _ _ _ Hp so_max0) in Hw. apply Z.ltb_ge in Hw. lia.
Qed.
(** All windows of a complete run hold all rows from the start on. *)
Lemma complete_read ws w : covered env start_ (ws ++ [w]) → within_max parse_naive parse_naive_frac max_ ws →
  cursor_gt parse_naive parse_naive_frac w.(w_to) max_ = true → rows_of (ws ++ [w]) = rows_from tbl t0.
Proof.
  intros Hc Hm Hb. assert (Hc' : covered env start_ ws).
  { destruct Hc as [Hc Ha]. apply consecutive_app in Hc as [Hc _]. split; [done|]. intros i x Hx. apply Ha. by apply lookup_app_l_Some. }
  destruct (covered_read ws Hc' Hm) as (t & Ht & Hle). destruct (read_more ws w t Hc Ht Hle) as (Hp & _ & ->). rewrite end_of_snoc in Hp.
  destruct Hok. rewrite (cursor_gt_parsed _ _ _ _ _ _ Hp so_max0) in Hb. apply Z.ltb_lt in Hb.
  apply rows_between_all. intros x Hx. specialize (so_last0 x Hx). lia.
Qed.
End Read.
End Source.

Section Runs.
Context {TC : TimestampCodec} {TL : TimestampLaws TC} {Pr : Printer}.
Context (parse_naive parse_naive_frac : string → option Z) (dt_min dt_max : Z).
Context (p : Pair) (ctx : LoopCtx).
Local Notation PC := (parse_cursor parse_naive parse_naive_frac).
Local Notation run := (etl parse_naive parse_naive_frac dt_min dt_max p).
Local Notation consecutive := (consecutive parse_naive parse_naive_frac dt_min dt_max ctx).
Local Notation windows_log := (windows_log parse_naive parse_naive_frac p ctx).
Local Notation beyond c max_ := (cursor_gt parse_naive parse_naive_frac c max_).
Local Notation within_max := (within_max parse_naive parse_naive_frac).
Local Notation source_ok := (source_ok parse_naive parse_naive_frac dt_min dt_max ctx).
Local Notation source_answers := (source_answers parse_naive parse_naive_frac p ctx).

Lemma ended_within max_ (st : St) (e : exit) before again after :
  match e with
  | Finished (Ok o) => state_after parse_naive parse_naive_frac p ctx max_ (opening p ctx) (before ++ again :: after) st ∧ o = outcome o.(canceled) st ∧
      if o.(canceled) then within_max max_ (before ++ again :: after)
      else ∃ before' w, before ++ again :: after = before' ++ [w] ∧ within_max max_ before' ∧ beyond w.(w_to) max_ = true
  | _ => within_max max_ (before ++ again :: after)
  end → within_max max_ before.
Proof.
  assert (Hall : within_max max_ (before ++ again :: after) → within_max max_ before) by by intros [? _]%Forall_app.
  destruct e as [[o|]| |]; [|done..]. intros (_ & _ & H). destruct (canceled o); [by apply Hall|]. destruct H as (b' & w & E & Hb & _).
  destruct after as [|x after _] using rev_ind; [by apply app_inj_tail in E as [-> _]|].
  rewrite app_comm_cons, app_assoc in E. apply app_inj_tail in E as [<- _]. by apply Forall_app in Hb as [? _].
Qed.


End Runs.

(** ** Concrete runs *)

#[local] Existing Instances bits_codec tlv_printer.
#[local] Existing Instance bits_codec_laws.

Definition no_naive (_ : string) : option Z := None.
Local Notation PC := (parse_cursor no_naive no_naive).
Local Notation run := (etl no_naive no_naive ts_min ts_max).

Definition ex_row (v : string) : SqlRow := λ _, Some v.
Definition ex_table : list (Z * SqlRow) :=
  [(0, ex_row "a"); (700 * SECOND, ex_row "b"); (1200 * SECOND, ex_row "c")]%Z.

(** A source and a target that work, cancelled before turn [stop]. *)
Definition ex_env (stop limit : nat) (tbl : list (Z * SqlRow)) : Env := {|
  env_cancel i := Ok (bool_decide (i = stop));
  env_fetch _ _ c n := match PC c, PC n with
                       | Some a, Some b => Ok (take limit (rows_between tbl a b))
                       | _, _ => Err "bad bind" end;
  env_insert _ attempt _ := if bool_decide (attempt = 1) then Err "deadlock" else Ok 0;
  env_progress _ := Ok tt |}.

(** Windows of 500 seconds, LIMIT 500. *)
Definition ex_ctx : LoopCtx := {|
  ctx_config := ex_config "main.user_id = u.id"; ctx_database := Some "shop";
  ctx_batch_size := 500; ctx_resume := None; ctx_retries := 3 |}.
Definition ex_max : string := z_bits (1200 * SECOND).
Definition ex_probe : option string * option string := (Some (z_bits 0), Some ex_max).

Lemma ex_source_ok : source_ok no_naive no_naive ts_min ts_max ex_ctx ex_table 0 (1200 * SECOND) ex_max.
Proof.
  split; [| | | | | |].
  - unfold by_time, ex_table. repeat constructor; cbn; done.
  - intros a. unfold rows_between. rewrite length_map.
    etrans; [apply length_filter|].
    change (Z.to_nat _) with 500. cbn. lia.
  - done.
  - vm_compute. reflexivity.
  - unfold ex_table. intros x. rewrite !elem_of_cons. intros [->|[->|[->|H]]]; cbn; [done..|].
    by apply elem_of_nil in H.
  - vm_compute. done.
  - vm_compute. done.
Qed.

Lemma ex_source_answers stop ctx : ctx_config ctx = ctx_config ex_ctx →
  source_answers no_naive no_naive MyMy ctx ex_table (ex_env stop 500 ex_table).
Proof.
  intros Hc i c n a b rows Ha Hb. cbn. rewrite Ha, Hb, Hc. intros [= <-]. done.
Qed.

(** Nothing to copy and nobody to cancel. *)
Definition ex_idle (rows : list SqlRow) : Env := {|
  env_cancel _ := Ok false; env_fetch _ _ _ _ := Ok rows;
  env_insert _ _ _ := Ok 0; env_progress _ := Ok tt |}.
Local Notation ex_run stop ctx :=
  (run MyMy (ex_env stop 500 ex_table) ctx (Ok ex_probe) "now1" "now2" 9).

Lemma etl_terminates_witness :
  ∃ r, (etl_loop no_naive no_naive ts_min ts_max MyMy (ex_env 9 500 ex_table) ex_ctx ex_max 3 0
    {| st_cursor := z_bits 0; st_processed := 0; st_failed := 0; st_log := [] |}).2 = Finished r.
Proof.
  apply (etl_terminates no_naive no_naive ts_min ts_max MyMy (ex_env 9 500 ex_table) ex_ctx ex_max _
    0 (1200 * SECOND) 3); try lia; by vm_compute.
Defined.

Lemma unparseable_cursor_spins_witness :
  (etl_loop no_naive no_naive ts_min ts_max MyMy (ex_idle []) ex_ctx "2026-01-02" 1000 0
    {| st_cursor := "2026-01-01"; st_processed := 0; st_failed := 0; st_log := [] |}).2 = OutOfFuel.
Proof.
  apply (unparseable_cursor_spins no_naive no_naive ts_min ts_max MyMy (ex_idle []) ex_ctx "2026-01-02"
    _); [reflexivity|reflexivity|reflexivity|reflexivity].
Defined.



(** Two rows in one second, windows of one second and LIMIT 1: the run succeeds
    and the second row is never fetched. *)
Example limit_drops_rows :
  let c := ex_config "main.user_id = u.id" in
  let tight := {| source := source c; target := target c; join_tables := join_tables c;
    column_mapping := column_mapping c; batching := Build_BatchingConfig "created_at" (Some 1%Z) None None;
    target_strategy := target_strategy c; schedule := None |} in
  let ctx := {| ctx_config := tight; ctx_database := None; ctx_batch_size := 1;
                ctx_resume := None; ctx_retries := 3 |} in
  let tbl := [(0%Z, ex_row "a"); (1%Z, ex_row "b")] in
  let probe := (Some (z_bits 0), Some (z_bits 1)) in
  (run MyMy (ex_env 9 (Z.to_nat (select_limit tight)) tbl) ctx (Ok probe) "" "" 9).2 =
    Finished (Ok {| processed_rows := 1; failed_rows := 0; canceled := false |}) ∧
  length (rows_from tbl 0) = 2.
Proof. by vm_compute. Qed.

Lemma next_run_resumes_witness :
  let old := {| run_id := "r1"; started_at := "2026-01-01"; finished_at := None; run_status := "failed";
    run_cursor := Some (z_bits (500 * SECOND)); run_error := None; run_processed := 1; run_failed := 0;
    cancel_requested := 0 |} in
  let inner r := ex_run 1 (match r with Some c => with_resume c ex_ctx | None => ex_ctx end) in
  find_resumable_cursor (run_task true true 1 "r2" "2026-01-02" "2026-01-03" inner [old]).1 =
    persisted_cursor (st_log (inner (Some (z_bits (500 * SECOND)))).1) ∧
  persisted_cursor (st_log (inner (Some (z_bits (500 * SECOND)))).1) = Some (z_bits (500 * SECOND)).
Proof.
  intros old inner. split; [|vm_compute; reflexivity].
  pose proof (next_run_resumes true true 1 "r2" "2026-01-02" "2026-01-03" inner [old]) as H.
  specialize (H ltac:(intros x ->%list_elem_of_singleton; reflexivity)).
  change (if true then find_resumable_cursor [old] else None) with (Some (z_bits (500 * SECOND))) in H.
  assert (E : (inner (Some (z_bits (500 * SECOND)))).2 =
    Finished (Ok {| processed_rows := 1; failed_rows := 0; canceled := true |})) by (vm_compute; reflexivity).
  cbn zeta in H. rewrite E in H. exact H.
Defined.
