(* ===== verification/QueryStats.v ===== *)
(** * Slow-query sampling (crates/automation/src/query_stats.rs)

    The digest of an executed statement ([normalize_digest]), the in-memory
    gate that decides whether a sample is kept (threshold, then the sliding
    window of [RateLimiter] keyed by digest), the row that is written, the
    aggregation behind the summary endpoint and the weekly report, and the
    retention sweep.

    SQL text is a list of [char]s as in [SqlSplit]; the peekable iterator over
    it is the remaining suffix.  [str::to_uppercase] and the text form of a
    JSON value are parameters.  The table [query_stats] is the list of its rows
    in insertion order. *)

From Stdlib Require Import Ascii String OrdersEx.
From stdpp Require Import strings sorting.
From S2P Require Import Prelude RustStr Json BTree RateLimiter DdlExec SqlSplit.

(** ** Digests *)

Definition DIGEST_MAX_CHARS : nat := 1000.
Definition SQL_TEXT_MAX_CHARS : nat := Z.to_nat 8192.
Definition CAP_WINDOW_SECS : Z := 3600.

Definition SPACE : char := 32.
Definition QMARK : char := 63.
Definition DOT : char := 46.
Definition PLUS : char := 43.

(** [char::is_ascii_digit], [char::is_ascii_hexdigit]. *)
Definition is_digit (c : char) : bool := between 48 57 c.
Definition is_hexdigit (c : char) : bool := is_digit c || between 65 70 c || between 97 102 c.
Definition is_sign (c : char) : bool := N.eqb c PLUS || N.eqb c DASH.

(** [matches!(chars.peek(), Some(c) if p(c))]. *)
Definition peeks (p : char → bool) (r : list char) : bool :=
  match r with c :: _ => p c | [] => false end.

(** The scientific tail of a number: consumed only when digits follow. *)
Definition exponent_tail (r : list char) : list char :=
  match r with
  | e :: r1 =>
      if N.eqb e 101 || N.eqb e 69 then
        match r1 with
        | s :: r2 =>
            if is_digit s then drop_while is_digit r1
            else if is_sign s && peeks is_digit r2 then drop_while is_digit r2
            else r
        | [] => r
        end
      else r
  | [] => r
  end.

(** [consume_number_tail]: the iterator after the call. *)
Definition consume_number_tail (hex_prefix : bool) (r : list char) : list char :=
  if hex_prefix && peeks (λ x, N.eqb x 120 || N.eqb x 88) r
  then drop_while is_hexdigit (tail r)
  else exponent_tail (drop_while (λ d, is_digit d || N.eqb d DOT) r).

(** The loop over a string literal, after its opening quote. *)
Fixpoint skip_string (escaped : bool) (r : list char) : list char :=
  match r with
  | [] => []
  | c2 :: r1 =>
      if escaped then skip_string false r1
      else if N.eqb c2 BACKSLASH then skip_string true r1
      else if N.eqb c2 SQ then
        match r1 with
        | c3 :: r2 => if N.eqb c3 SQ then skip_string false r2 else r1
        | [] => []
        end
      else skip_string false r1
  end.

(** [out.ends_with(' ')] and the push after folded white space. *)
Definition push_space (out : list char) : list char :=
  match out with
  | [] => []
  | _ => if decide (last out = Some SPACE) then out else out ++ [SPACE]
  end.

(** One turn of the loop of [normalize_sql]: the iterator and [out] after it. *)
Definition normalize_step (c : char) (r out : list char) : list char * list char :=
  if N.eqb c SQ then (skip_string false r, out ++ [QMARK])
  else if is_digit c then (consume_number_tail (N.eqb c 48) r, out ++ [QMARK])
  else if is_sign c && peeks is_digit r then (consume_number_tail false (tail r), out ++ [QMARK])
  else if is_whitespace c then (drop_while is_whitespace r, push_space out)
  else (r, out ++ [c]).

Fixpoint normalize_go (fuel : nat) (r out : list char) : list char :=
  match fuel, r with
  | S f, c :: r1 => let '(r2, out2) := normalize_step c r1 out in normalize_go f r2 out2
  | _, _ => out
  end.
(** Every turn consumes a character, so the length of the text is enough. *)
Definition normalize_sql (sql : list char) : list char := normalize_go (length sql) sql [].

Definition ELLIPSIS : string := "…".
Definition truncate_chars (s : string) (max : nat) : string :=
  if (char_count s <=? max) then s else take_chars max s +:+ ELLIPSIS.

(** What was executed. *)
Inductive CapturePayload : Type :=
| PSql (sql : string)
| PMongo (doc : json)
| PRedis (cmdline : list string)
| PRedisPipeline (pipeline : list (list string)).

Definition normalize_mongo (doc : json) : string :=
  match doc with
  | JObj ((cmd, cmd_value) :: _) =>
      "mongo:" +:+ cmd +:+ ":" +:+ default "?" (as_str cmd_value)
  | _ => "mongo:?"
  end.

Section Digest.
(** [str::to_uppercase]. *)
Context (to_uppercase : string → string).

Definition redis_cmd (c : list string) : string :=
  match c with s :: _ => to_uppercase s | [] => "" end.
Definition normalize_redis (cmdline : list string) : string :=
  "redis:" +:+ redis_cmd cmdline +:+ ":" +:+ decimal (N.of_nat (length cmdline)).
Definition normalize_redis_pipeline (pipeline : list (list string)) : string :=
  truncate_chars
    ("redis:PIPELINE[" +:+ decimal (N.of_nat (length pipeline)) +:+ "]:"
       +:+ join "+" (redis_cmd <$> pipeline)) DIGEST_MAX_CHARS.

Definition normalize_digest (payload : CapturePayload) : string :=
  match payload with
  | PSql sql => truncate_chars (string_of_chars (normalize_sql (utf8_chars sql))) DIGEST_MAX_CHARS
  | PMongo doc => normalize_mongo doc
  | PRedis cmdline => normalize_redis cmdline
  | PRedisPipeline pipeline => normalize_redis_pipeline pipeline
  end.
End Digest.

(** [render_plaintext]; a JSON document prints as [print] says. *)
Definition render_plaintext (print : json → string) (payload : CapturePayload) : string :=
  match payload with
  | PSql sql => sql
  | PMongo doc => print doc
  | PRedis cmdline => join " " cmdline
  | PRedisPipeline pipeline => join " ; " (join " " <$> pipeline)
  end.

(** ** Capturing *)

Inductive CaptureEntry : Type := GwSse | SyncQuery | TxnQuery | AdminScript | McpRead.
Definition entry_as_str (e : CaptureEntry) : string :=
  match e with
  | GwSse => "gw_sse" | SyncQuery => "sync_query" | TxnQuery => "txn_query"
  | AdminScript => "admin_script" | McpRead => "mcp_read"
  end.

Inductive CaptureOutcome : Type := COk | CError (code : string) | CCancelled.
Definition outcome_status (o : CaptureOutcome) : string :=
  match o with COk => "ok" | CError _ => "error" | CCancelled => "cancelled" end.
Definition outcome_error_code (o : CaptureOutcome) : option string :=
  match o with CError code => Some code | _ => None end.

Record CaptureContext := {
  ctx_conn_id : string; ctx_db_kind : option string; ctx_database : option string;
  ctx_user_id : option string; ctx_entry : CaptureEntry; ctx_outcome : CaptureOutcome }.

Record InsertRow := {
  r_id : string; r_source : string; r_conn_id : string; r_db_kind : string;
  r_database : option string; r_digest : string; r_sql_text : option string;
  r_elapsed_ms : Z; r_row_count : option Z; r_affected_rows : option Z;
  r_query_count : option Z; r_status : string; r_error_code : option string;
  r_user_id : option string; r_entry : string; r_captured_at : string }.

(** The table [query_stats]; [insert_row] appends when SQLite accepts it. *)
Notation Table := (list InsertRow).
Definition insert_row (accepted : bool) (row : InsertRow) (t : Table) : result string unit * Table :=
  if accepted then (Ok tt, t ++ [row]) else (Err "database error", t).

(** [Config]'s four fields read here. *)
Record Config := {
  slow_query_enabled : bool; slow_query_threshold_ms : Z;
  slow_query_store_sql : bool; slow_query_cap_per_digest_per_hour : Z }.

(** [QueryStatsRecorder], less its pool; [dropped] is an [AtomicU64]. *)
Record QueryStatsRecorder := {
  enabled : bool; threshold_ms : Z; store_sql : bool; cap_per_hour : nat;
  cap_limiter : SlidingWindowLimiter; dropped : Z }.

Definition recorder_new (c : Config) : QueryStatsRecorder :=
  {| enabled := c.(slow_query_enabled); threshold_ms := c.(slow_query_threshold_ms);
     store_sql := c.(slow_query_store_sql);
     cap_per_hour := Z.to_nat c.(slow_query_cap_per_digest_per_hour);
     cap_limiter := RateLimiter.new; dropped := 0 |}.

Definition with_limiter (r : QueryStatsRecorder) (l : SlidingWindowLimiter) (d : Z) :=
  {| enabled := r.(enabled); threshold_ms := r.(threshold_ms); store_sql := r.(store_sql);
     cap_per_hour := r.(cap_per_hour); cap_limiter := l; dropped := d |}.

(** [gate], at the instant [now]; [fetch_add] wraps. *)
Definition gate (now elapsed_ms : Z) (digest : string) (r : QueryStatsRecorder)
    : bool * QueryStatsRecorder :=
  if negb r.(enabled) || (elapsed_ms <? r.(threshold_ms))%Z then (false, r)
  else
    let '(ok, l) := check_and_record now digest r.(cap_per_hour) CAP_WINDOW_SECS r.(cap_limiter) in
    if ok then (true, with_limiter r l r.(dropped))
    else (false, with_limiter r l ((r.(dropped) + 1) `mod` 2 ^ 64)%Z).

(** What [record] moves into the spawned task: [OwnedCapture], the digest, the
    text and the counters. *)
Record Capture := {
  c_conn_id : string; c_db_kind : option string; c_database : option string;
  c_user_id : option string; c_entry : string; c_status : string; c_error_code : option string;
  c_digest : string; c_sql_text : option string; c_elapsed_ms : Z;
  c_row_count : option Z; c_affected_rows : option Z }.

Section Record_.
Context (to_uppercase : string → string) (print : json → string).

Definition record (now elapsed_ms : Z) (ctx : CaptureContext) (payload : CapturePayload)
    (row_count affected_rows : option Z) (r : QueryStatsRecorder)
    : option Capture * QueryStatsRecorder :=
  let digest := normalize_digest to_uppercase payload in
  match gate now elapsed_ms digest r with
  | (false, r') => (None, r')
  | (true, r') =>
      let sql_text :=
        if r'.(store_sql)
        then Some (truncate_chars (render_plaintext print payload) SQL_TEXT_MAX_CHARS)
        else None in
      (Some {| c_conn_id := ctx.(ctx_conn_id); c_db_kind := ctx.(ctx_db_kind);
               c_database := ctx.(ctx_database); c_user_id := ctx.(ctx_user_id);
               c_entry := entry_as_str ctx.(ctx_entry);
               c_status := outcome_status ctx.(ctx_outcome);
               c_error_code := outcome_error_code ctx.(ctx_outcome);
               c_digest := digest; c_sql_text := sql_text; c_elapsed_ms := elapsed_ms;
               c_row_count := row_count; c_affected_rows := affected_rows |}, r')
  end.

(** The spawned task.  [lookup] answers the SELECT of the connection's db_type;
    without an answer the sample is thrown away. *)
Definition write_capture (lookup : string → result string (option string)) (id captured_at : string)
    (accepted : bool) (c : Capture) (t : Table) : Table :=
  let db_kind := match c.(c_db_kind) with
                 | Some k => Some k
                 | None => match lookup c.(c_conn_id) with Ok (Some k) => Some k | _ => None end
                 end in
  match db_kind with
  | None => t
  | Some db_kind =>
      (insert_row accepted
         {| r_id := id; r_source := "gateway"; r_conn_id := c.(c_conn_id); r_db_kind := db_kind;
            r_database := c.(c_database); r_digest := c.(c_digest); r_sql_text := c.(c_sql_text);
            r_elapsed_ms := as_i64 c.(c_elapsed_ms); r_row_count := as_i64 <$> c.(c_row_count);
            r_affected_rows := as_i64 <$> c.(c_affected_rows); r_query_count := None;
            r_status := c.(c_status); r_error_code := c.(c_error_code);
            r_user_id := c.(c_user_id); r_entry := c.(c_entry); r_captured_at := captured_at |} t).2
  end.

(** The process-wide recorder: set once, and absent until then. *)
Definition init (c : Config) (g : option QueryStatsRecorder) : option QueryStatsRecorder :=
  match g with Some r => Some r | None => Some (recorder_new c) end.
Definition dropped_total (g : option QueryStatsRecorder) : option Z := dropped <$> g.
Definition global_record (now elapsed_ms : Z) (ctx : CaptureContext) (payload : CapturePayload)
    (row_count affected_rows : option Z) (g : option QueryStatsRecorder)
    : option Capture * option QueryStatsRecorder :=
  match g with
  | None => (None, None)
  | Some r => let '(c, r') := record now elapsed_ms ctx payload row_count affected_rows r in
              (c, Some r')
  end.

(** [record_stream]: the end of a stream is [Ok (row_count, affected_rows)] or
    the code of its error. *)
Definition stream_outcome (o : result string (Z * option Z)) : CaptureOutcome * option Z * option Z :=
  match o with
  | Ok (rows, affected) => (COk, Some rows, affected)
  | Err code => (if decide (code = "CANCELLED") then CCancelled else CError code, None, None)
  end.
Definition record_stream (now elapsed_ms : Z) (conn_id : string) (db : option string)
    (payload : CapturePayload) (o : result string (Z * option Z)) (g : option QueryStatsRecorder)
    : option Capture * option QueryStatsRecorder :=
  let '(oc, row_count, affected) := stream_outcome o in
  global_record now elapsed_ms
    {| ctx_conn_id := conn_id; ctx_db_kind := None; ctx_database := db; ctx_user_id := None;
       ctx_entry := GwSse; ctx_outcome := oc |} payload row_count affected g.
End Record_.

(** Samples of a database's own slow log: no threshold and no cap. *)
Definition insert_native (accepted : bool) (id captured_at conn_id db_kind : string)
    (database : option string) (source digest : string) (sql_text : option string)
    (elapsed_ms : Z) (query_count : option Z) (t : Table) : result string unit * Table :=
  insert_row accepted
    {| r_id := id; r_source := source; r_conn_id := conn_id; r_db_kind := db_kind;
       r_database := database; r_digest := digest;
       r_sql_text := (λ s, truncate_chars s SQL_TEXT_MAX_CHARS) <$> sql_text;
       r_elapsed_ms := elapsed_ms; r_row_count := None; r_affected_rows := None;
       r_query_count := query_count; r_status := "ok"; r_error_code := None;
       r_user_id := None; r_entry := "native"; r_captured_at := captured_at |} t.

(** ** Reading *)

(** SQLite compares text byte by byte. *)
Definition text_lt (a b : string) : bool := match key_compare a b with Lt => true | _ => false end.
Definition text_le (a b : string) : bool := negb (text_lt b a).
Definition text_min (a b : string) : string := if text_lt b a then b else a.
Definition text_max (a b : string) : string := if text_lt a b then b else a.

(** [COALESCE(query_count, 1)]. *)
Definition queries (r : InsertRow) : Z := default 1%Z r.(r_query_count).

Definition group_key : Type := string * string * string.
Definition key_of (r : InsertRow) : group_key := (r.(r_digest), r.(r_db_kind), r.(r_conn_id)).

(** The WHERE clause: captured since, and of the connection if one is given. *)
Definition in_scope (since : string) (conn_id : option string) (r : InsertRow) : bool :=
  text_le since r.(r_captured_at)
  && match conn_id with None => true | Some c => bool_decide (r.(r_conn_id) = c) end.

(** The sort expressions a caller may pass. *)
Inductive SortExpr : Type := SumElapsed | CountRows | AvgElapsed | MaxElapsed.

(** [SUM] over integers raises "integer overflow" beyond [i64]. *)
Definition sum_i64 (l : list Z) : option Z :=
  let s := foldr Z.add 0%Z l in
  if decide (- 2 ^ 63 ≤ s ≤ i64_max)%Z then Some s else None.
Definition maximum (l : list Z) : Z := foldr Z.max (hd 0%Z l) l.

(** GROUP BY an expression: the rows with one value of it. *)
Definition group_by {K} `{EqDecision K} (key : InsertRow → K) (k : K) (rows : list InsertRow)
    : list InsertRow := filter (λ r, key r = k) rows.

Section Aggregate.
(** SQLite's REAL: the quotient of two integers, and its order. *)
Context {F : Type} (real_div : Z → Z → F) (real_le : F → F → bool).

Record DigestAggRow := {
  digest : string; db_kind : string; conn_id : string; count : Z; total_ms : Z;
  avg_ms : F; max_ms : Z; first_seen : string; last_seen : string }.

(** The aggregates of one (non-empty) group. *)
Definition aggregate_group (k : group_key) (rows : list InsertRow) : option DigestAggRow :=
  n ← sum_i64 (queries <$> rows);
  total ← sum_i64 (r_elapsed_ms <$> rows);
  let times := r_captured_at <$> rows in
  Some {| digest := k.1.1; db_kind := k.1.2; conn_id := k.2; count := n; total_ms := total;
          avg_ms := real_div total n; max_ms := maximum (r_elapsed_ms <$> rows);
          first_seen := foldr text_min (hd "" times) times;
          last_seen := foldr text_max (hd "" times) times |}.

Definition group : group_key → list InsertRow → list InsertRow := group_by key_of.

(** [ORDER BY expr DESC, last_seen DESC]: [a] may stand before [b].  The rows
    of a group are needed beside its aggregates: [COUNT] and [AVG] are not
    among them. *)
Definition sort_value_le (e : SortExpr) (a b : DigestAggRow * list InsertRow) : bool :=
  match e with
  | SumElapsed => (a.1.(total_ms) <=? b.1.(total_ms))%Z
  | CountRows => (length a.2 <=? length b.2)
  | AvgElapsed => real_le (real_div a.1.(total_ms) (Z.of_nat (length a.2)))
                          (real_div b.1.(total_ms) (Z.of_nat (length b.2)))
  | MaxElapsed => (a.1.(max_ms) <=? b.1.(max_ms))%Z
  end.
Definition before (e : SortExpr) (a b : DigestAggRow * list InsertRow) : Prop :=
  sort_value_le e b a = true ∧
  (sort_value_le e a b = true → text_le b.1.(last_seen) a.1.(last_seen) = true).
#[global] Instance before_dec e a b : Decision (before e a b).
Proof. unfold before. apply _. Defined.

(** [LIMIT n]: a negative limit is none. *)
Definition sql_limit {A} (n : Z) (l : list A) : list A :=
  if decide (n < 0)%Z then l else take (Z.to_nat n) l.

Definition group_rows (since : string) (conn : option string) (t : Table)
    : option (list (DigestAggRow * list InsertRow)) :=
  let scope := filter (λ r, in_scope since conn r = true) t in
  mapM (λ k, let g := group k scope in (λ a, (a, g)) <$> aggregate_group k g)
       (remove_dups (key_of <$> scope)).

Definition aggregate (since : string) (conn : option string) (e : SortExpr) (limit : Z) (t : Table)
    : result string (list DigestAggRow) :=
  match group_rows since conn t with
  | None => Err "integer overflow"
  | Some gs => Ok (fst <$> sql_limit limit (merge_sort (before e) gs))
  end.
End Aggregate.
Arguments DigestAggRow : clear implicits.

(** [latest_sample]: the text of the newest row of a digest and connection. *)
Definition newest (rows : list InsertRow) : option InsertRow :=
  foldr (λ r acc, match acc with
                  | Some b => if text_le b.(r_captured_at) r.(r_captured_at) then Some r else Some b
                  | None => Some r
                  end) None rows.
Definition latest_sample (d c : string) (t : Table) : option string :=
  r ← newest (filter (λ r, r.(r_digest) = d ∧ r.(r_conn_id) = c) t); r.(r_sql_text).

(** [rotate]: [cutoff] is [datetime('now', '-N days')]. *)
Definition rotate (cutoff : string) (t : Table) : nat * Table :=
  let kept := filter (λ r, text_lt r.(r_captured_at) cutoff = false) t in
  (length t - length kept, kept).

(** ** Digests and literals

    SQL text as pieces: a plain character, a white-space character, a quoted
    literal and a number.  [render] is the text, [shape] what is left of it
    when every literal is a question mark. *)

Inductive piece : Type :=
| PChar (c : char)
| PWs (c : char)
| PStr (body : list char)
| PNum (text : list char).

Definition render1 (p : piece) : list char :=
  match p with
  | PChar c | PWs c => [c]
  | PStr body => SQ :: body ++ [SQ]
  | PNum text => text
  end.
Definition render (t : list piece) : list char := t ≫= render1.
Definition shape1 (p : piece) : char :=
  match p with PChar c => c | PWs _ => SPACE | PStr _ | PNum _ => QMARK end.
Definition shape (t : list piece) : list char := shape1 <$> t.

(** The inside of a quoted literal: backslash pairs, doubled quotes, and
    characters that are neither. *)
Inductive str_body : list char → Prop :=
| body_nil : str_body []
| body_escape c b : str_body b → str_body (BACKSLASH :: c :: b)
| body_doubled b : str_body b → str_body (SQ :: SQ :: b)
| body_char c b : c ≠ SQ → c ≠ BACKSLASH → str_body b → str_body (c :: b).

Inductive exponent : list char → Prop :=
| exp_none : exponent []
| exp_digits e d ds : e = 101%N ∨ e = 69%N → is_digit d = true →
    Forall (λ x, is_digit x = true) ds → exponent (e :: d :: ds)
| exp_signed e s d ds : e = 101%N ∨ e = 69%N → is_sign s = true → is_digit d = true →
    Forall (λ x, is_digit x = true) ds → exponent (e :: s :: d :: ds).

Inductive number : list char → Prop :=
| num_hex x hs : x = 120%N ∨ x = 88%N → Forall (λ h, is_hexdigit h = true) hs →
    number (48%N :: x :: hs)
| num_plain d ds ex : is_digit d = true →
    Forall (λ x, is_digit x || N.eqb x DOT = true) ds → exponent ex → number (d :: ds ++ ex)
| num_signed s d ds ex : is_sign s = true → is_digit d = true →
    Forall (λ x, is_digit x || N.eqb x DOT = true) ds → exponent ex → number (s :: d :: ds ++ ex).

(** Characters a number could go on with. *)
Definition continues_number (c : char) : bool :=
  is_digit c || between 65 90 c || between 97 122 c || N.eqb c DOT.

Definition plain (c : char) : bool :=
  negb (N.eqb c SQ) && negb (is_digit c) && negb (is_whitespace c).

Fixpoint well_formed (t : list piece) : Prop :=
  match t with
  | [] => True
  | PChar c :: t' => plain c = true ∧ (is_sign c = true → peeks is_digit (render t') = false) ∧ well_formed t'
  | PWs c :: t' => is_whitespace c = true ∧ well_formed t'
  | PStr body :: t' => str_body body ∧ peeks (N.eqb SQ) (render t') = false ∧ well_formed t'
  | PNum text :: t' => number text ∧ peeks continues_number (render t') = false ∧ well_formed t'
  end.

(** Runs of spaces become one space, and a leading run nothing. *)
Fixpoint squeeze (skip : bool) (l : list char) : list char :=
  match l with
  | [] => []
  | c :: l' => if N.eqb c SPACE
               then (if skip then squeeze true l' else SPACE :: squeeze true l')
               else c :: squeeze false l'
  end.

Lemma drop_while_app (p : char → bool) l k :
  Forall (λ x, p x = true) l → drop_while p (l ++ k) = drop_while p k.
Proof. induction 1 as [|x l Hx _ IH]; cbn; [done|by rewrite Hx]. Qed.

Lemma drop_while_stop (p : char → bool) k : peeks p k = false → drop_while p k = k.
Proof. destruct k as [|c k]; cbn; [done|]. by intros ->. Qed.

Lemma peeks_impl (p q : char → bool) k :
  (∀ c, q c = true → p c = true) → peeks p k = false → peeks q k = false.
Proof.
  intros Hpq. destruct k as [|c k]; [done|]. cbn. intros Hp.
  destruct (q c) eqn:E; [|done]. rewrite (Hpq c E) in Hp. done.
Qed.

Ltac char_cases :=
  unfold continues_number, is_hexdigit, is_digit, is_sign, is_whitespace, between, SQ, QMARK, SPACE,
    PLUS, DASH, DOT, BACKSLASH in *;
  repeat match goal with
  | H : _ && _ = true |- _ => apply andb_true_iff in H as [??]
  | H : _ || _ = true |- _ => apply orb_true_iff in H as [?|?]
  | H : _ || _ = false |- _ => apply orb_false_iff in H as [??]
  end;
  rewrite ?N.leb_le, ?N.eqb_eq, ?N.eqb_neq in *.

Lemma skip_string_body body k :
  str_body body → peeks (N.eqb SQ) k = false → skip_string false (body ++ SQ :: k) = k.
Proof.
  intros Hb Hk. induction Hb as [|c b _ IH|b _ IH|c b H1 H2 _ IH].
  - change ([] ++ SQ :: k) with (SQ :: k). destruct k as [|c k]; [done|].
    cbn [peeks] in Hk. cbn [skip_string].
    change (N.eqb SQ BACKSLASH) with false. change (N.eqb SQ SQ) with true. cbn iota.
    by rewrite N.eqb_sym, Hk.
  - exact IH.
  - exact IH.
  - cbn. by rewrite (proj2 (N.eqb_neq _ _) H1), (proj2 (N.eqb_neq _ _) H2).
Qed.

Lemma exponent_tail_spec ex k :
  exponent ex → peeks continues_number k = false → exponent_tail (ex ++ k) = k.
Proof.
  intros Hex Hk.
  assert (Hd : peeks is_digit k = false).
  { eapply peeks_impl, Hk. intros c Hc. unfold continues_number. by rewrite Hc. }
  assert (He : ∀ e, e = 101%N ∨ e = 69%N → N.eqb e 101 || N.eqb e 69 = true) by (intros ? [-> | ->]; done).
  destruct Hex as [|e d ds E Ed Hds|e s d ds E Es Ed Hds].
  - destruct k as [|c k]; [done|]. cbn in *.
    destruct (N.eqb c 101 || N.eqb c 69) eqn:Ec; [|done].
    apply orb_true_iff in Ec as [->%N.eqb_eq | ->%N.eqb_eq]; vm_compute in Hk; done.
  - cbn. rewrite (He e E), Ed. rewrite drop_while_app by done. by apply drop_while_stop.
  - cbn. rewrite (He e E), Es, Ed. cbn.
    assert (is_digit s = false) as ->.
    { revert Es. unfold is_sign, PLUS, DASH. rewrite orb_true_iff, !N.eqb_eq. by intros [-> | ->]. }
    rewrite drop_while_app by done. by apply drop_while_stop.
Qed.

Lemma decimal_tail ds ex k :
  Forall (λ x, is_digit x || N.eqb x DOT = true) ds → exponent ex →
  peeks continues_number k = false →
  exponent_tail (drop_while (λ d, is_digit d || N.eqb d DOT) ((ds ++ ex) ++ k)) = k.
Proof.
  intros Hds Hex Hk. rewrite <- app_assoc, drop_while_app by done.
  rewrite drop_while_stop; [by apply exponent_tail_spec|].
  destruct Hex as [|e d ds' [-> | ->] _ _|e s d ds' [-> | ->] _ _ _]; [|done..].
  eapply peeks_impl, Hk. intros c. unfold continues_number.
  rewrite !orb_true_iff. tauto.
Qed.

(** One turn of the loop at the head of each piece. *)
Lemma step_string body k out : str_body body → peeks (N.eqb SQ) k = false →
  normalize_step SQ (body ++ [SQ] ++ k) out = (k, out ++ [QMARK]).
Proof. intros Hb Hk. cbn. by rewrite skip_string_body. Qed.

Lemma sign_not_digit c : is_sign c = true → is_digit c = false ∧ N.eqb c SQ = false.
Proof. unfold is_sign. rewrite orb_true_iff, !N.eqb_eq. by intros [-> | ->]. Qed.
Lemma digit_not_sq c : is_digit c = true → N.eqb c SQ = false.
Proof. intros H. apply N.eqb_neq. intros ->. done. Qed.

Lemma step_number text k out c r : number text → peeks continues_number k = false →
  text ++ k = c :: r → normalize_step c r out = (k, out ++ [QMARK]).
Proof.
  intros Hn Hk Heq. unfold normalize_step.
  destruct Hn as [x hs Hx Hhs|d ds ex Hd Hds Hex|s d ds ex Hs Hd Hds Hex];
    cbn [app] in Heq; injection Heq as <- <-.
  - change (N.eqb 48 SQ) with false. change (is_digit 48) with true.
    change (N.eqb 48 48) with true. cbn iota. unfold consume_number_tail.
    replace (peeks _ (_ :: _)) with true by (by destruct Hx as [-> | ->]).
    cbn [andb tail]. rewrite drop_while_app by done. rewrite drop_while_stop; [done|].
    eapply peeks_impl, Hk. intros c. unfold is_hexdigit. intros H. char_cases.
    all: rewrite !orb_true_iff, !andb_true_iff, !N.leb_le; lia.
  - rewrite (digit_not_sq d Hd), Hd. unfold consume_number_tail.
    rewrite decimal_tail by done.
    replace (peeks (λ x, N.eqb x 120 || N.eqb x 88) _) with false; [by rewrite andb_false_r|].
    symmetry. { destruct Hds as [|x ds Hx _].
      - destruct Hex as [|e d' ds' [-> | ->] _ _|e s d' ds' [-> | ->] _ _ _]; [|done..]. cbn.
        eapply peeks_impl, Hk. intros c.
        rewrite orb_true_iff, !N.eqb_eq. by intros [-> | ->].
      - cbn. revert Hx. destruct (N.eqb_spec x 120) as [->|]; [done|].
        by destruct (N.eqb_spec x 88) as [->|]. }
  - destruct (sign_not_digit s Hs) as [E1 E2]. rewrite E2, E1, Hs. cbn [peeks andb]. rewrite Hd.
    unfold consume_number_tail. cbn [tail andb]. by rewrite decimal_tail.
Qed.

(** Whether folded white space leaves nothing behind. *)
Definition at_space (out : list char) : bool := bool_decide (out = [] ∨ last out = Some SPACE).

Lemma at_space_snoc out c : c ≠ SPACE → at_space (out ++ [c]) = false.
Proof.
  intros Hc. apply bool_decide_eq_false. rewrite last_snoc. intros [H|[= H]]; [|done].
  by apply app_eq_nil in H as [_ ?].
Qed.

Lemma push_space_spec out :
  push_space out = (if at_space out then out else out ++ [SPACE]) ∧ at_space (push_space out) = true.
Proof.
  unfold push_space, at_space. destruct out as [|x out].
  { by rewrite bool_decide_true by (by left). }
  case_decide as H.
  - by rewrite bool_decide_true by (by right).
  - rewrite bool_decide_false by (by intros [?|?]). split; [done|].
    apply bool_decide_true. right. by rewrite last_snoc.
Qed.

(** The pieces left when leading white space is dropped. *)
Fixpoint drop_ws (t : list piece) : list piece :=
  match t with PWs _ :: t' => drop_ws t' | _ => t end.

Lemma drop_ws_wf t : well_formed t → well_formed (drop_ws t).
Proof. induction t as [|[c|c|b|n] t IH]; cbn; try done. intros [_ H]. by apply IH. Qed.

Lemma drop_ws_squeeze t : squeeze true (shape t) = squeeze true (shape (drop_ws t)).
Proof. induction t as [|[c|c|b|n] t IH]; cbn; done. Qed.

Lemma sign_not_ws c : is_sign c || is_digit c = true → is_whitespace c = false.
Proof.
  intros H. destruct (is_whitespace c) eqn:E; [|done]. char_cases; subst; try lia.
Qed.

Lemma number_head n k : number n → peeks (λ c, is_sign c || is_digit c) (n ++ k) = true.
Proof. by destruct 1 as [x hs _ _|d ds ex Hd _ _|s d ds ex Hs _ _ _]; cbn; rewrite ?Hd, ?Hs, ?orb_true_r. Qed.

Lemma drop_ws_render t : well_formed t → drop_while is_whitespace (render t) = render (drop_ws t).
Proof.
  induction t as [|[c|c|b|n] t IH]; intros Hwf; [done| | |done|].
  - apply drop_while_stop. cbn. destruct Hwf as [Hp _]. unfold plain in Hp.
    rewrite !andb_true_iff, !negb_true_iff in Hp. tauto.
  - cbn in Hwf |- *. destruct Hwf as [-> Hwf]. by apply IH.
  - apply drop_while_stop. destruct Hwf as (Hn & _). pose proof (number_head n (render t) Hn) as H.
    change (peeks is_whitespace (n ++ render t) = false).
    destruct (n ++ render t) as [|c r]; [done|]. by apply sign_not_ws.
Qed.

Lemma drop_ws_length t : length (render (drop_ws t)) ≤ length (render t).
Proof.
  induction t as [|[c|c|b|n] t IH]; try done.
  change (length (render (drop_ws t)) ≤ S (length (render t))). lia.
Qed.

Lemma render_nil t : well_formed t → render t = [] → t = [].
Proof.
  destruct t as [|[c|c|b|n] t]; intros Hwf H; try done.
  change (n ++ render t = []) in H. apply app_eq_nil in H as [-> _].
  destruct Hwf as [Hn _]. inversion Hn.
Qed.

Lemma push_literal out t :
  (out ++ [QMARK]) ++ squeeze false t = out ++ squeeze (at_space out) (QMARK :: t).
Proof. by rewrite <- app_assoc. Qed.

Lemma normalize_go_pieces fuel t out :
  well_formed t → length (render t) ≤ fuel →
  normalize_go fuel (render t) out = out ++ squeeze (at_space out) (shape t).
Proof.
  revert t out. induction fuel as [|f IH]; intros t out Hwf Hlen.
  { rewrite (render_nil t Hwf) by (apply length_zero_iff_nil; lia). by rewrite app_nil_r. }
  destruct t as [|[c|c|body|n] t]; [by rewrite app_nil_r|..].
  - destruct Hwf as (Hp & Hs & Hwf). unfold plain in Hp.
    rewrite !andb_true_iff, !negb_true_iff in Hp. destruct Hp as [[H1 H2] H3].
    change (render (PChar c :: t)) with (c :: render t) in *. cbn [normalize_go].
    unfold normalize_step. rewrite H1, H2, H3.
    replace (is_sign c && peeks is_digit (render t)) with false
      by (symmetry; destruct (is_sign c); [exact (Hs eq_refl)|done]).
    assert (Hc : c ≠ SPACE) by (intros ->; done).
    rewrite IH by (done || cbn [length] in Hlen; lia).
    rewrite at_space_snoc by done. rewrite <- app_assoc. cbn.
    by rewrite (proj2 (N.eqb_neq c SPACE) Hc).
  - destruct Hwf as (Hw & Hwf).
    change (render (PWs c :: t)) with (c :: render t) in *. cbn [normalize_go].
    assert (normalize_step c (render t) out = (render (drop_ws t), push_space out)) as ->.
    { unfold normalize_step. rewrite Hw, drop_ws_render by done.
      destruct (N.eqb_spec c SQ) as [->|]; [done|].
      destruct (is_digit c) eqn:E1; [by rewrite sign_not_ws in Hw by (by rewrite E1, orb_true_r)|].
      destruct (is_sign c) eqn:E2; [by rewrite sign_not_ws in Hw by (by rewrite E2)|]. done. }
    rewrite IH; [|by apply drop_ws_wf|pose proof (drop_ws_length t); cbn [length] in Hlen; lia].
    destruct (push_space_spec out) as [-> ->]. rewrite <- drop_ws_squeeze.
    destruct (at_space out); [done|]. by rewrite <- app_assoc.
  - destruct Hwf as (Hb & Hk & Hwf).
    change (render (PStr body :: t)) with (SQ :: (body ++ [SQ]) ++ render t) in *.
    rewrite <- app_assoc in *. cbn [normalize_go]. rewrite step_string by done.
    rewrite IH; [|done|cbn [length] in Hlen; rewrite !length_app in Hlen; lia].
    rewrite at_space_snoc by done. apply push_literal.
  - destruct Hwf as (Hn & Hk & Hwf). change (render (PNum n :: t)) with (n ++ render t) in *.
    destruct (n ++ render t) as [|c r] eqn:E.
    { apply app_eq_nil in E as [-> _]. by inversion Hn. }
    cbn [normalize_go]. rewrite (step_number n (render t) out c r) by done.
    rewrite IH; [|done|].
    + rewrite at_space_snoc by done. apply push_literal.
    + apply (f_equal length) in E. rewrite length_app in E.
      destruct Hn; cbn [length] in E, Hlen; lia.
Qed.


(** A statement with two literals, as pieces. *)
Notation ex_pieces name num :=
  ((PChar <$> chars_of "name") ++ [PWs SPACE; PChar 61; PWs SPACE; PStr (chars_of name); PWs SPACE]
   ++ (PChar <$> chars_of "or") ++ [PWs SPACE; PChar 120; PChar 62; PNum (chars_of num)])%N.


(** ** What a digest can hold *)

Definition no_literal_char (c : char) : Prop := is_digit c = false ∧ c ≠ SQ.

Lemma normalize_step_no_literal c r out r2 out2 :
  normalize_step c r out = (r2, out2) → Forall no_literal_char out → Forall no_literal_char out2.
Proof.
  intros H Hout. unfold normalize_step in H.
  assert (Hsnoc : ∀ x, no_literal_char x → Forall no_literal_char (out ++ [x])).
  { intros x Hx. apply Forall_app. split; [done|]. by constructor. }
  destruct (N.eqb_spec c SQ) as [|Hc]; [simplify_eq; by apply Hsnoc|].
  destruct (is_digit c) eqn:Ed; [simplify_eq; by apply Hsnoc|].
  destruct (is_sign c && peeks is_digit r); [simplify_eq; by apply Hsnoc|].
  destruct (is_whitespace c); simplify_eq; [|by apply Hsnoc].
  destruct (push_space_spec out) as [-> _]. destruct (at_space out); [done|by apply Hsnoc].
Qed.

Lemma normalize_go_no_literal fuel r out :
  Forall no_literal_char out → Forall no_literal_char (normalize_go fuel r out).
Proof.
  revert r out. induction fuel as [|f IH]; intros r out Hout; [done|].
  destruct r as [|c r]; [done|]. cbn [normalize_go].
  destruct (normalize_step c r out) as [r2 out2] eqn:E. by eapply IH, normalize_step_no_literal.
Qed.

Lemma char_count_app s1 s2 : char_count (s1 +:+ s2) = char_count s1 + char_count s2.
Proof. induction s1 as [|c s1 IH]; [done|]. rewrite str_app_cons. cbn. rewrite IH. lia. Qed.

Lemma truncate_chars_bound s max : char_count (truncate_chars s max) ≤ S max.
Proof.
  unfold truncate_chars. destruct (Nat.leb_spec (char_count s) max); [lia|].
  rewrite char_count_app. pose proof (take_chars_count max s).
  change (char_count ELLIPSIS) with 1. lia.
Qed.

(** Whatever SQL was executed, its digest holds no digit and no single
    quote (no number and no quoted literal survives, even cut short or
    unterminated), and the stored digest of a SQL statement or a pipeline has at
    most 1000 characters and the ellipsis. *)
Theorem digest_holds_no_literal up sql pipeline :
  Forall no_literal_char (normalize_sql sql) ∧
  char_count (normalize_digest up (PSql (string_of_chars sql))) ≤ S DIGEST_MAX_CHARS ∧
  char_count (normalize_digest up (PRedisPipeline pipeline)) ≤ S DIGEST_MAX_CHARS.
Proof.
  split; [by apply normalize_go_no_literal|]. split; apply truncate_chars_bound.
Qed.

(** A single Redis command and a Mongo command are not truncated. *)
Fixpoint repeat_string (n : nat) (s : string) : string :=
  match n with O => "" | S k => s +:+ repeat_string k s end.
Example redis_digest_unbounded :
  char_count (normalize_digest id (PRedis [repeat_string 1500 "x"])) = 1508.
Proof. by vm_compute. Qed.

(** Digits inside identifiers are literals to the normaliser. *)
Example identifier_digits_merge :
  normalize_digest id (PSql "SELECT a1 FROM orders_2024") =
  normalize_digest id (PSql "SELECT a2 FROM orders_1999").
Proof. by vm_compute. Qed.

(** ** A run of captures *)

Record Exec := {
  x_now : Z; x_elapsed : Z; x_ctx : CaptureContext; x_payload : CapturePayload;
  x_rows : option Z; x_affected : option Z }.

Section Run.
Context (to_uppercase : string → string) (print : json → string).

Fixpoint record_run (r : QueryStatsRecorder) (xs : list Exec)
    : list (option Capture) * QueryStatsRecorder :=
  match xs with
  | [] => ([], r)
  | x :: xs' =>
      let '(c, r1) := record to_uppercase print x.(x_now) x.(x_elapsed) x.(x_ctx) x.(x_payload)
                        x.(x_rows) x.(x_affected) r in
      let '(cs, r2) := record_run r1 xs' in (c :: cs, r2)
  end.

Definition slow (r : QueryStatsRecorder) (x : Exec) : bool :=
  r.(enabled) && negb (x.(x_elapsed) <? r.(threshold_ms))%Z.
Definition call_of (x : Exec) : Z * string :=
  (x.(x_now), normalize_digest to_uppercase x.(x_payload)).
(** The executions that were captured, as calls of the limiter. *)
Definition captured (xs : list Exec) (outs : list (option Capture)) : list (Z * string) :=
  (λ p, call_of p.1) <$> List.filter (λ p, bool_decide (is_Some p.2)) (zip xs outs).

Definition same_settings (r r' : QueryStatsRecorder) : Prop :=
  r'.(enabled) = r.(enabled) ∧ r'.(threshold_ms) = r.(threshold_ms) ∧
  r'.(cap_per_hour) = r.(cap_per_hour).

(** One call: nothing happens to a fast execution; a slow one is captured
    exactly when the limiter lets its digest through, and counted otherwise. *)
Lemma record_slow r x :
  slow r x = true →
  let '(ok, l) := check_and_record x.(x_now) (call_of x).2 r.(cap_per_hour) CAP_WINDOW_SECS r.(cap_limiter) in
  let '(c, r') := record to_uppercase print x.(x_now) x.(x_elapsed) x.(x_ctx) x.(x_payload)
                    x.(x_rows) x.(x_affected) r in
  same_settings r r' ∧ bool_decide (is_Some c) = ok ∧ r'.(cap_limiter) = l ∧
  r'.(dropped) = (if ok then r.(dropped) else (r.(dropped) + 1) `mod` 2 ^ 64)%Z.
Proof.
  unfold slow, record, gate. intros [He Ht]%andb_true_iff.
  rewrite He. cbn [negb orb]. apply negb_true_iff in Ht. rewrite Ht. cbn [call_of snd].
  destruct (check_and_record _ _ _ _ _) as [[] l]; done.
Qed.

Lemma record_fast r x :
  slow r x = false →
  record to_uppercase print x.(x_now) x.(x_elapsed) x.(x_ctx) x.(x_payload)
    x.(x_rows) x.(x_affected) r = (None, r).
Proof.
  unfold slow, record, gate. intros [He|Ht]%andb_false_iff; [by rewrite He|].
  apply negb_false_iff in Ht. by rewrite Ht, orb_true_r.
Qed.

(** The limiter sees the slow executions, in order. *)
Lemma record_run_limiter r xs :
  let '(outs, r') := record_run r xs in
  let calls := call_of <$> List.filter (slow r) xs in
  let '(oks, l) := RateLimiter.run r.(cap_per_hour) CAP_WINDOW_SECS r.(cap_limiter) calls in
  captured xs outs = fst <$> List.filter snd (zip calls oks) ∧
  length outs = length xs ∧
  ((0 ≤ r.(dropped) < 2 ^ 64)%Z →
   r'.(dropped) = (r.(dropped) + Z.of_nat (length (List.filter (slow r) xs))
                   - Z.of_nat (length (captured xs outs))) `mod` 2 ^ 64)%Z.
Proof.
  revert r. induction xs as [|x xs IH]; intros r; cbn [record_run].
  { cbn. split_and!; [done..|]. intros H. rewrite Z.mod_small; lia. }
  cbn [List.filter]. destruct (slow r x) eqn:Es.
  - pose proof (record_slow r x Es) as Hr. rewrite fmap_cons. cbn [RateLimiter.run].
    change (call_of x) with (x.(x_now), (call_of x).2) at 1. cbn iota.
    destruct (check_and_record _ _ _ _ _) as [ok l].
    destruct (record _ _ _ _ _ _ _ _ r) as [c r1].
    destruct Hr as ((H1 & H2 & H3) & Hok & <- & Hd). specialize (IH r1).
    assert (Hslow : slow r1 = slow r) by (unfold slow; by rewrite H1, H2).
    rewrite Hslow, H3 in IH. destruct (record_run r1 xs) as [outs r'].
    cbn zeta in IH. destruct (RateLimiter.run _ _ _ _) as [oks l']. destruct IH as (IH1 & IH2 & IH3).
    unfold captured in *. cbn. rewrite Hok. split_and!; [|lia|].
    + destruct ok; cbn; by rewrite IH1.
    + intros Hb. rewrite IH3.
      * rewrite Hd. destruct ok; cbn [fmap list_fmap length]; [f_equal; lia|].
        rewrite Zminus_mod, Zplus_mod, Zplus_mod_idemp_l, <- Zplus_mod, <- Zminus_mod. f_equal. lia.
      * rewrite Hd. destruct ok; [done|]. apply Z.mod_pos_bound. lia.
  - rewrite (record_fast r x Es). specialize (IH r).
    destruct (record_run r xs) as [outs r']. cbn zeta in IH |- *. destruct (RateLimiter.run _ _ _ _) as [oks l'].
    destruct IH as (IH1 & IH2 & IH3). unfold captured in *. cbn. split_and!; [done|lia|done].
Qed.
End Run.

Lemma captured_slow up print r xs i x c :
  xs !! i = Some x → (record_run up print r xs).1 !! i = Some (Some c) →
  slow r x = true.
Proof.
  revert r i. induction xs as [|y xs IH]; intros r i Hx; [done|]. cbn [record_run].
  destruct (slow r y) eqn:Es.
  - pose proof (record_slow up print r y Es) as Hr.
    destruct (check_and_record _ _ _ _ _) as [ok l].
    destruct (record _ _ _ _ _ _ _ _ r) as [c1 r1]. destruct Hr as ((H1 & H2 & H3) & _).
    destruct (record_run up print r1 xs) as [outs r'] eqn:E.
    destruct i as [|i]; cbn in Hx |- *; [by simplify_eq|]. intros Ho.
    replace (slow r x) with (slow r1 x) by (unfold slow; by rewrite H1, H2).
    apply (IH r1 i Hx). by rewrite E.
  - rewrite (record_fast up print r y Es).
    destruct (record_run up print r xs) as [outs r'] eqn:E.
    destruct i as [|i]; cbn in Hx |- *; [by intros|]. intros Ho. apply (IH r i Hx). by rewrite E.
Qed.

Lemma ordered_filter up p start xs :
  ordered start (call_of up <$> xs) → ordered start (call_of up <$> List.filter p xs).
Proof.
  assert (Hw : ∀ a b l, (a ≤ b)%Z → ordered b l → ordered a l).
  { intros a b [|[t k] l] Hab; [done|]. cbn. intros [H1 H2]. split; [lia|done]. }
  revert start. induction xs as [|x xs IH]; intros start; cbn [List.filter]; [done|].
  rewrite fmap_cons. intros [H1 H2]. destruct (p x).
  - rewrite fmap_cons. split; [done|by apply IH].
  - apply IH. by eapply Hw.
Qed.

(** Sampling is bounded and accounted for: from a fresh recorder, and for
    any sequence of executions in time order, only executions that reach the
    threshold (with sampling enabled) are captured, no digest gets more than the
    configured number of captures within one hour, and the executions that were
    slow but not captured are exactly the ones the dropped counter counts. *)
Theorem captures_capped up print c start xs now d :
  ordered start (call_of up <$> xs) → (start ≤ now)%Z →
  (∀ x, x ∈ xs → (x.(x_now) ≤ now)%Z) →
  let r := recorder_new c in
  let '(outs, r') := record_run up print r xs in
  (∀ i x cap, xs !! i = Some x → outs !! i = Some (Some cap) →
     c.(slow_query_enabled) = true ∧ (c.(slow_query_threshold_ms) ≤ x.(x_elapsed))%Z) ∧
  in_window CAP_WINDOW_SECS now d (captured up xs outs)
    ≤ Z.to_nat c.(slow_query_cap_per_digest_per_hour) ∧
  r'.(dropped) = ((Z.of_nat (length (List.filter (slow r) xs))
                   - Z.of_nat (length (captured up xs outs))) `mod` 2 ^ 64)%Z.
Proof.
  intros Hord Hstart Hnow r.
  pose proof (record_run_limiter up print r xs) as Hl.
  pose proof (captured_slow up print r xs) as Hslow.
  destruct (record_run up print r xs) as [outs r']. cbn [fst] in Hslow. cbn zeta in Hl.
  pose proof (accepted_in_window_bounded r.(cap_per_hour) CAP_WINDOW_SECS start
    (call_of up <$> List.filter (slow r) xs) d now (ordered_filter up _ _ _ Hord) Hstart) as Hb.
  change (cap_limiter r) with RateLimiter.new in Hl.
  destruct (RateLimiter.run _ _ _ _) as [oks l]. destruct Hl as (-> & _ & Hd). split_and!.
  - intros i x cap Hx Ho. specialize (Hslow i x cap Hx Ho). unfold slow in Hslow.
    apply andb_true_iff in Hslow as [? Ht]. apply negb_true_iff, Z.ltb_ge in Ht. done.
  - apply Hb. intros e (x & -> & Hx)%list_elem_of_fmap. apply Hnow.
    apply list_elem_of_In, List.filter_In in Hx as [Hx _]. by apply list_elem_of_In.
  - rewrite Hd by (cbn; lia). f_equal.
Qed.

Notation ex_config := {| slow_query_enabled := true; slow_query_threshold_ms := 500;
  slow_query_store_sql := false; slow_query_cap_per_digest_per_hour := 1 |}.
Notation ex_ctx := {| ctx_conn_id := "c1"; ctx_db_kind := Some "mysql"; ctx_database := None;
  ctx_user_id := None; ctx_entry := SyncQuery; ctx_outcome := COk |}.
Notation ex_exec t ms sql := {| x_now := t; x_elapsed := ms; x_ctx := ex_ctx;
  x_payload := PSql sql; x_rows := None; x_affected := None |}.
Notation ex_execs := [ex_exec 0%Z 900%Z "SELECT 1"; ex_exec 1%Z 30%Z "SELECT a"; ex_exec 2%Z 700%Z "SELECT 2"].

Example captures_capped_witness :
  in_window CAP_WINDOW_SECS 5 "SELECT ?"
    (captured id ex_execs (record_run id (λ _, "") (recorder_new ex_config) ex_execs).1) ≤ 1 ∧
  (record_run id (λ _, "") (recorder_new ex_config) ex_execs).2.(dropped) = 1%Z.
Proof.
  pose proof (captures_capped id (λ _, "") ex_config 0 ex_execs 5 "SELECT ?") as H.
  assert (Ho : ordered 0 (call_of id <$> ex_execs)) by (cbn; lia).
  assert (Ht : ∀ x, x ∈ ex_execs → (x.(x_now) ≤ 5)%Z).
  { intros x Hx. repeat (apply elem_of_cons in Hx as [->|Hx]; [cbn; lia|]). by apply elem_of_nil in Hx. }
  specialize (H Ho ltac:(lia) Ht). cbn zeta in H.
  destruct (record_run _ _ _ _) as [outs r'] eqn:E.
  destruct H as (_ & Hw & _). split; [exact Hw|].
  replace r' with (record_run id (λ _, "") (recorder_new ex_config) ex_execs).2 by (by rewrite E).
  vm_compute. done.
Defined.

(** ** Aggregation *)

Definition sum (l : list Z) : Z := foldr Z.add 0%Z l.

Lemma sum_app l1 l2 : sum (l1 ++ l2) = (sum l1 + sum l2)%Z.
Proof. induction l1 as [|x l1 IH]; cbn; [done|]. unfold sum in *. lia. Qed.

Lemma sum_perm l1 l2 : l1 ≡ₚ l2 → sum l1 = sum l2.
Proof. unfold sum. induction 1; cbn; lia. Qed.

Lemma sum_i64_spec l s : sum_i64 l = Some s → s = sum l.
Proof. unfold sum_i64. case_decide; [|done]. by intros [= <-]. Qed.

(** The sum over the groups of a list of keys without duplicates. *)
Section Groups.
Context {K : Type} `{EqDecision K} (key : InsertRow → K) (f : InsertRow → Z).

Lemma sum_groups_cons r rows ks : NoDup ks →
  sum ((λ k, sum (f <$> group_by key k (r :: rows))) <$> ks) =
  (sum ((λ k, sum (f <$> group_by key k rows)) <$> ks) + (if decide (key r ∈ ks) then f r else 0))%Z.
Proof.
  unfold group_by. induction 1 as [|k ks Hk Hnd IH]; [done|]. rewrite !fmap_cons, filter_cons.
  change (sum (?x :: ?l)) with (x + sum l)%Z. rewrite IH.
  destruct (decide (key r = k)) as [<-|E].
  - rewrite fmap_cons. change (sum (?x :: ?l)) with (x + sum l)%Z.
    rewrite (decide_False (P := key r ∈ ks)), (decide_True (P := key r ∈ key r :: ks))
      by (done || by left). lia.
  - destruct (decide (key r ∈ ks)) as [Hin|Hin].
    + rewrite (decide_True (P := key r ∈ k :: ks)) by (by right). lia.
    + rewrite (decide_False (P := key r ∈ k :: ks)) by (by intros [?|?]%elem_of_cons). lia.
Qed.

Lemma sum_groups rows ks : NoDup ks → (∀ r, r ∈ rows → key r ∈ ks) →
  sum ((λ k, sum (f <$> group_by key k rows)) <$> ks) = sum (f <$> rows).
Proof.
  intros Hnd. induction rows as [|r rows IH]; intros Hin.
  - clear. induction ks as [|k ks IH]; [done|]. rewrite fmap_cons. exact IH.
  - rewrite sum_groups_cons, decide_True by (done || by apply Hin; left).
    rewrite fmap_cons, IH by (intros; apply Hin; by right). unfold sum. cbn [foldr]. lia.
Qed.
End Groups.

Lemma length_remove_dups {A} `{EqDecision A} (l : list A) : length (remove_dups l) ≤ length l.
Proof.
  apply submseteq_length, NoDup_submseteq; [apply NoDup_remove_dups|].
  intros x. by rewrite elem_of_remove_dups.
Qed.

Section AggregateFacts.
Context {F : Type} (real_div : Z → Z → F) (real_le : F → F → bool).

Definition key_of_agg (a : DigestAggRow F) : group_key := (a.(digest), a.(db_kind), a.(conn_id)).

(** What an aggregate says of its group. *)
Definition describes (scope : list InsertRow) (p : DigestAggRow F * list InsertRow) : Prop :=
  p.2 = group (key_of_agg p.1) scope ∧
  p.1.(count) = sum (queries <$> p.2) ∧ p.1.(total_ms) = sum (r_elapsed_ms <$> p.2) ∧
  p.1.(avg_ms) = real_div p.1.(total_ms) p.1.(count).

Lemma group_rows_spec since conn t gs :
  group_rows real_div since conn t = Some gs →
  let scope := filter (λ r, in_scope since conn r = true) t in
  (λ p, key_of_agg p.1) <$> gs = remove_dups (key_of <$> scope) ∧ Forall (describes scope) gs.
Proof.
  intros H. cbn zeta. unfold group_rows in H. cbn zeta in H. revert H.
  generalize (filter (λ r, in_scope since conn r = true) t). intros scope H%mapM_Some_1.
  induction H as [|k p ks gs Hp _ [IH1 IH2]]; [by split; [|constructor]|].
  apply fmap_Some in Hp as (a & Ha & ->). unfold aggregate_group in Ha.
  apply bind_Some in Ha as (n & Hn & Ha). apply bind_Some in Ha as (tot & Ht & [= <-]).
  apply sum_i64_spec in Hn, Ht.
  destruct k as [[kd kk] kc]. rewrite fmap_cons, IH1. split; [done|].
  constructor; [|done]. split_and!; done.
Qed.

Lemma describes_sums (scope : list InsertRow) gs :
  Forall (describes scope) gs →
  (count <$> gs.*1) = (λ k, sum (queries <$> group k scope)) <$> ((λ p, key_of_agg p.1) <$> gs) ∧
  (total_ms <$> gs.*1) = (λ k, sum (r_elapsed_ms <$> group k scope)) <$> ((λ p, key_of_agg p.1) <$> gs).
Proof.
  induction 1 as [|[a g] gs (Hg & Hc & Ht & _) Hgs [IH1 IH2]]; [done|]. cbn in Hg, Hc, Ht. subst g.
  rewrite !fmap_cons, IH1, IH2. cbn [fst]. by rewrite Hc, Ht.
Qed.

(** The summary loses and invents nothing: when no limit cuts it, every
    (digest, kind, connection) of the selected samples has one line, the counts
    of the lines add up to the queries of the samples (a counter sample counting
    for all its queries) and their times to the samples' times, and every
    line's average is its time over its count. *)
Theorem summary_conserves since conn e limit t rows :
  aggregate real_div real_le since conn e limit t = Ok rows →
  (limit < 0 ∨ Z.of_nat (length t) ≤ limit)%Z →
  let scope := filter (λ r, in_scope since conn r = true) t in
  NoDup (key_of_agg <$> rows) ∧
  (∀ k, k ∈ key_of_agg <$> rows ↔ k ∈ key_of <$> scope) ∧
  sum (count <$> rows) = sum (queries <$> scope) ∧
  sum (total_ms <$> rows) = sum (r_elapsed_ms <$> scope) ∧
  Forall (λ a, a.(avg_ms) = real_div a.(total_ms) a.(count)) rows.
Proof.
  unfold aggregate. destruct (group_rows real_div since conn t) as [gs|] eqn:E; [|done].
  intros [= <-] Hlim. destruct (group_rows_spec since conn t gs E) as [Hk Hd].
  set (scope := filter (λ r, in_scope since conn r = true) t) in *.
  destruct (describes_sums scope gs Hd) as [Hc Ht].
  assert (Hp : fst <$> sql_limit limit (merge_sort (before real_div real_le e) gs) ≡ₚ gs.*1).
  { replace (sql_limit _ _) with (merge_sort (before real_div real_le e) gs);
      [by rewrite merge_sort_Permutation|]. unfold sql_limit. case_decide; [done|].
    rewrite take_ge; [done|]. rewrite merge_sort_Permutation.
    apply (f_equal length) in Hk. rewrite length_fmap in Hk. rewrite Hk.
    pose proof (length_filter (λ r, in_scope since conn r = true) t) as Hf. fold scope in Hf.
    pose proof (length_remove_dups (key_of <$> scope)) as Hr. rewrite length_fmap in Hr. lia. }
  assert (Hkeys : key_of_agg <$> gs.*1 = remove_dups (key_of <$> scope))
    by (rewrite <- Hk, <- list_fmap_compose; done).
  split_and!.
  - rewrite Hp, Hkeys. apply NoDup_remove_dups.
  - intros k. rewrite Hp, Hkeys. apply elem_of_remove_dups.
  - rewrite (sum_perm _ _ (fmap_Permutation count _ _ Hp)), Hc, Hk. apply sum_groups.
    + apply NoDup_remove_dups.
    + intros r Hr. apply elem_of_remove_dups. by apply list_elem_of_fmap_2.
  - rewrite (sum_perm _ _ (fmap_Permutation total_ms _ _ Hp)), Ht, Hk. apply sum_groups.
    + apply NoDup_remove_dups.
    + intros r Hr. apply elem_of_remove_dups. by apply list_elem_of_fmap_2.
  - rewrite Hp. apply Forall_fmap. eapply Forall_impl; [exact Hd|]. by intros p (_ & _ & _ & H).
Qed.
End AggregateFacts.

Lemma text_le_total a b : text_le a b = true ∨ text_le b a = true.
Proof.
  unfold text_le, text_lt.
  destruct (key_compare_spec b a), (key_compare_spec a b); first [by left|by right|key_order].
Qed.

Lemma text_lt_iff a b : text_lt a b = true ↔ key_lt a b.
Proof. unfold text_lt, key_lt. by destruct (key_compare a b). Qed.

Lemma text_le_trans a b c : text_le a b = true → text_le b c = true → text_le a c = true.
Proof.
  unfold text_le, text_lt.
  destruct (key_compare_spec b a), (key_compare_spec c b), (key_compare_spec c a);
    intros; first [done|key_order].
Qed.

(** ** The order of the summary *)

Section TopN.
Context {F : Type} (real_div : Z → Z → F) (real_le : F → F → bool).
Notation bef := (before real_div real_le SumElapsed).

#[local] Instance before_total : Total bef.
Proof.
  intros a b. unfold before. cbn. rewrite !Z.leb_le.
  destruct (text_le_total a.1.(last_seen) b.1.(last_seen)) as [H|H];
    destruct (Z.lt_total a.1.(total_ms) b.1.(total_ms)) as [Hz|[Hz|Hz]];
    first [left; split; [lia|intros; (done || lia)]|right; split; [lia|intros; (done || lia)]].
Qed.
#[local] Instance before_trans : Transitive bef.
Proof.
  intros a b c. unfold before. cbn. rewrite !Z.leb_le. intros [H1 H2] [H3 H4].
  split; [lia|]. intros H5. eapply text_le_trans; [apply H4|apply H2]; lia.
Qed.

(** The default summary (and the weekly report) lists the heaviest digests:
    at most [limit] lines, in descending order of total time, and a digest that
    is left out is no heavier than any line that is listed, and is left out only
    because the limit is reached. *)
Theorem top_digests_heaviest since conn limit t rows :
  (0 ≤ limit)%Z →
  aggregate real_div real_le since conn SumElapsed limit t = Ok rows →
  let scope := filter (λ r, in_scope since conn r = true) t in
  StronglySorted (λ a b, (b.(total_ms) ≤ a.(total_ms))%Z) rows ∧
  (Z.of_nat (length rows) ≤ limit)%Z ∧
  ∀ r, r ∈ scope → key_of r ∉ key_of_agg <$> rows →
    Z.of_nat (length rows) = limit ∧
    ∀ a, a ∈ rows → (sum (r_elapsed_ms <$> group (key_of r) scope) ≤ a.(total_ms))%Z.
Proof.
  unfold aggregate. intros Hlim. destruct (group_rows real_div since conn t) as [gs|] eqn:E; [|done].
  intros [= <-]. destruct (group_rows_spec real_div since conn t gs E) as [Hk Hd].
  set (scope := filter (λ r, in_scope since conn r = true) t) in *.
  pose proof (StronglySorted_merge_sort bef gs) as Hs.
  pose proof (merge_sort_Permutation bef gs) as Hp. unfold sql_limit. rewrite decide_False by lia.
  set (l := merge_sort bef gs) in *. set (n := Z.to_nat limit). split_and!.
  - rewrite <- (take_drop n l) in Hs. apply StronglySorted_app_1_l in Hs.
    induction Hs as [|a l' _ IH Ha]; [constructor|]. rewrite fmap_cons. constructor; [done|].
    apply Forall_fmap. eapply Forall_impl; [exact Ha|]. intros b [Hb _].
    cbn in Hb |- *. by apply Z.leb_le.
  - rewrite length_fmap, length_take. lia.
  - intros r Hr Hnot.
    assert (Hin : key_of r ∈ (λ p, key_of_agg p.1) <$> l).
    { rewrite Hp, Hk. apply elem_of_remove_dups. by apply list_elem_of_fmap_2. }
    apply list_elem_of_fmap in Hin as (p & Hkey & Hpin).
    rewrite <- (take_drop n l), elem_of_app in Hpin. destruct Hpin as [Hpin|Hpin].
    { exfalso. apply Hnot. rewrite Hkey, <- list_fmap_compose.
      by apply (list_elem_of_fmap_2 (λ p, key_of_agg p.1)). }
    split.
    { rewrite length_fmap, length_take. destruct (drop n l) as [|q r'] eqn:Ed; [by apply elem_of_nil in Hpin|].
      apply (f_equal length) in Ed. rewrite length_drop in Ed. cbn in Ed. lia. }
    intros a (q & -> & Hq)%list_elem_of_fmap.
    assert (Hpd : describes real_div scope p).
    { rewrite Forall_forall in Hd. apply Hd. rewrite <- Hp, <- (take_drop n l), elem_of_app. by right. }
    destruct Hpd as (Hg & _ & Htot & _). rewrite Hkey, <- Hg, <- Htot.
    rewrite <- (take_drop n l) in Hs.
    pose proof (StronglySorted_app_1_elem_of _ _ _ _ _ Hs Hq Hpin) as [Hb _]. by apply Z.leb_le.
Qed.
End TopN.

Notation ex_row id d ms qc at_ := {| r_id := id; r_source := "gateway"; r_conn_id := "c1";
  r_db_kind := "mysql"; r_database := None; r_digest := d; r_sql_text := None; r_elapsed_ms := ms;
  r_row_count := None; r_affected_rows := None; r_query_count := qc; r_status := "ok";
  r_error_code := None; r_user_id := None; r_entry := "native"; r_captured_at := at_ |}.
(** Two events of one digest, and one counter sample of 1000 queries. *)
Notation ex_table := [ex_row "1" "A" 600%Z None "2026-01-01T00"; ex_row "2" "A" 700%Z None "2026-01-02T00";
  ex_row "3" "B" 900%Z (Some 1000%Z) "2026-01-02T01"].
Notation ex_aggregate e limit :=
  (aggregate (λ a b, a * 1000 / b)%Z Z.leb "2026" None e limit ex_table).

Example summary_conserves_witness :
  (∃ rows, ex_aggregate SumElapsed (-1)%Z = Ok rows ∧ sum (count <$> rows) = 1002%Z ∧
    sum (total_ms <$> rows) = 2200%Z).
Proof.
  eexists. split; [vm_compute; reflexivity|].
  match goal with |- sum (count <$> ?rows) = _ ∧ _ =>
    destruct (summary_conserves (λ a b, a * 1000 / b)%Z Z.leb "2026" None SumElapsed (-1) ex_table rows)
      as (_ & _ & Hc & Ht & _); [vm_compute; reflexivity|by left|] end.
  split; [rewrite Hc|rewrite Ht]; vm_compute; reflexivity.
Defined.

Example top_digests_heaviest_witness :
  (∃ rows, ex_aggregate SumElapsed 1%Z = Ok rows ∧
    ∀ a, a ∈ rows → (900 ≤ a.(total_ms))%Z).
Proof.
  eexists. split; [vm_compute; reflexivity|].
  match goal with |- ∀ a, a ∈ ?rows → _ =>
    destruct (top_digests_heaviest (λ a b, a * 1000 / b)%Z Z.leb "2026" None 1 ex_table rows)
      as (_ & _ & H); [lia|vm_compute; reflexivity|] end.
  destruct (H (ex_row "3" "B" 900%Z (Some 1000%Z) "2026-01-02T01")) as [_ Ha].
  - apply list_elem_of_filter. split; [done|]. do 2 right. left.
  - cbn. intros Hin. apply list_elem_of_singleton in Hin. done.
  - exact Ha.
Defined.

(** Sorting by count orders by the number of samples, not by the count shown:
    the digest executed 1000 times stands below the one executed twice. *)
Example sort_by_count_ignores_counters :
  match ex_aggregate CountRows 10%Z with
  | Ok rows => (λ a, (a.(digest), a.(count))) <$> rows
  | Err _ => []
  end = [("A", 2); ("B", 1000)]%Z.
Proof. by vm_compute. Qed.

(** ** Retention *)

Lemma key_compare_prefix d1 d2 a b :
  String.length d1 = String.length d2 →
  key_compare (d1 +:+ a) (d2 +:+ b) =
  match key_compare d1 d2 with Eq => key_compare a b | c => c end.
Proof.
  revert d2. induction d1 as [|x d1 IH]; intros [|y d2] Hlen; try done.
  rewrite !str_app_cons. cbn in Hlen. unfold key_compare in *. cbn [String_as_OT.compare].
  destruct (Ascii_as_OT.compare x y); [|done..]. apply IH. lia.
Qed.

(** The sweep compares an RFC 3339 instant (with a T after the date) with
    SQLite's [datetime] (with a space): a sample goes exactly when its date is
    before the cutoff's, and one of the cutoff's own day is kept at any hour. *)
Theorem rotate_by_date cutoff_date cutoff_time t date time r :
  String.length date = String.length cutoff_date →
  r.(r_captured_at) = date +:+ "T" +:+ time → r ∈ t →
  r ∈ (rotate (cutoff_date +:+ " " +:+ cutoff_time) t).2 ↔ text_lt date cutoff_date = false.
Proof.
  intros Hlen Hr Hin. unfold rotate. cbn [snd]. rewrite list_elem_of_filter, Hr.
  unfold text_lt. rewrite key_compare_prefix by done.
  destruct (key_compare date cutoff_date); [|naive_solver..].
  split; [done|]. intros _. split; [|done]. done.
Qed.
