(* ===== verification/NativeCollector.v ===== *)
(** * Native slow-log collection (crates/automation/src/native_collector.rs)

    Once an hour the collector pulls a database's own slow log into
    [query_stats]: Redis SLOWLOG and MySQL's slow_log table as events behind a
    cursor, MySQL's statement digests as the difference of two snapshots.

    A database's answers are arguments, and so are the printer and reader of the
    snapshot's JSON.  Cursors are a finite map from (connection, source); the
    inserts go through [QueryStats.insert_native].  An [Env] numbers the inserts
    of one collection: their id, their instant, and whether SQLite takes them. *)

From Stdlib Require Import Ascii String.
From stdpp Require Import strings gmap.
From S2P Require Import Prelude RustStr Clock Json QueryStats.

Definition REDIS_SOURCE : string := "db_native:redis_slowlog".
Definition MYSQL_SOURCE : string := "db_native:mysql_slow_log".
Definition PS_DIGEST_SOURCE : string := "db_native:mysql_ps_digest".

(** ** Cursors and inserts *)

Notation Cursors := (gmap (string * string) string).
Definition cursor_get (conn_id source : string) (c : Cursors) : option string := c !! (conn_id, source).
(** A failed write is only logged. *)
Definition cursor_put (accepted : bool) (conn_id source cursor : string) (c : Cursors) : Cursors :=
  if accepted then <[(conn_id, source) := cursor]> c else c.

Record State := { cursors : Cursors; samples : list InsertRow }.

Record Env := {
  uuid : nat → string; stamp : nat → string; accepts : nat → bool; cursor_accepted : bool }.

(** The arguments of one [insert_native], and the mark its cursor follows. *)
Record Sample (M : Type) := {
  s_db_kind : string; s_database : option string; s_source : string; s_digest : string;
  s_text : option string; s_elapsed : Z; s_count : option Z; s_mark : M }.
Arguments s_db_kind {M} _. Arguments s_database {M} _. Arguments s_source {M} _.
Arguments s_digest {M} _. Arguments s_text {M} _. Arguments s_elapsed {M} _.
Arguments s_count {M} _. Arguments s_mark {M} _.

(** The insert loops: a refused sample is skipped; the marks of the stored ones. *)
Fixpoint insert_samples {M} (env : Env) (i : nat) (conn_id : string) (xs : list (Sample M))
    (t : list InsertRow) : list M * list InsertRow :=
  match xs with
  | [] => ([], t)
  | x :: xs' =>
      match insert_native (env.(accepts) i) (env.(uuid) i) (env.(stamp) i) conn_id x.(s_db_kind)
              x.(s_database) x.(s_source) x.(s_digest) x.(s_text) x.(s_elapsed) x.(s_count) t with
      | (Err _, t') => insert_samples env (S i) conn_id xs' t'
      | (Ok _, t') => let '(ms, t'') := insert_samples env (S i) conn_id xs' t' in
                      (x.(s_mark) :: ms, t'')
      end
  end.

(** ** Redis: SLOWLOG *)

(** [Value::as_i64]. *)
Definition as_i64_json (j : json) : option Z :=
  match j with
  | JInt z => if decide (- 2 ^ 63 ≤ z ≤ i64_max)%Z then Some z else None
  | _ => None
  end.

Section Redis.
Context (to_uppercase : string → string).

(** The body of the loop up to the insert: [None] for an entry it skips.
    [entries] are the elements of the reply as JSON, [z as u64] of a positive
    [i64] is itself. *)
Definition redis_sample (last : Z) (entry : json) : option (Sample Z) :=
  match as_array entry with
  | Some (id :: _ :: dur :: argv :: _) =>
      let id := default 0%Z (as_i64_json id) in
      let dur_us := default 0%Z (as_i64_json dur) in
      let args := match as_array argv with
                  | Some xs => (λ x, default "" (as_str x)) <$> xs
                  | None => []
                  end in
      match args with
      | [] => None
      | a :: _ =>
          if bool_decide (to_ascii_lowercase a = "slowlog") || (id <=? 0)%Z || (id <=? last)%Z
          then None
          else Some {| s_db_kind := "redis"; s_database := None; s_source := REDIS_SOURCE;
                       s_digest := normalize_digest to_uppercase (PRedis args);
                       s_text := Some (join " " args);
                       s_elapsed := Z.max (Z.quot dur_us 1000) 1; s_count := None; s_mark := id |}
      end
  | _ => None
  end.

(** [collect_redis]; [reply] is the answer to SLOWLOG GET 128 (or the failure to
    connect or to read), as JSON. *)
Definition collect_redis (env : Env) (conn_id : string) (reply : result string json) (st : State)
    : result string nat * State :=
  match reply with
  | Err e => (Err e, st)
  | Ok reply =>
      let entries := default [] (as_array reply) in
      let last := default 0%Z (cursor_get conn_id REDIS_SOURCE st.(cursors) ≫= parse_u64) in
      let '(ids, t) := insert_samples env 0 conn_id (omap (redis_sample last) entries) st.(samples) in
      let max_id := foldl Z.max last ids in
      (Ok (length ids),
       {| cursors := if (last <? max_id)%Z
                     then cursor_put env.(cursor_accepted) conn_id REDIS_SOURCE
                            (decimal (Z.to_N max_id)) st.(cursors)
                     else st.(cursors);
          samples := t |})
  end.
End Redis.

(** ** MySQL: the slow_log table *)

(** [s.split(':')]'s first three parts. *)
Definition split3 (sep : ascii) (s : string) : string * option string * option string :=
  match split_once sep s with
  | None => (s, None, None)
  | Some (a, r) =>
      match split_once sep r with
      | None => (a, Some r, None)
      | Some (b, r') => (a, Some b, Some (split_first sep r'))
      end
  end.

(** [format!("{frac:0<6}")]: padded on the right, by characters. *)
Fixpoint zeros (n : nat) : string := match n with O => "" | S k => String "0"%char (zeros k) end.
Definition pad_right6 (s : string) : string := s +:+ zeros (6 - char_count s).

(** [parse_mysql_time_ms], in wrapping [i64] arithmetic; [None] is the panic of
    [padded[..3]] inside a character. *)
Definition parse_mysql_time_ms (s : string) : option Z :=
  let '(hs, ms, ss) := split3 ":"%char s in
  let h := default 0%Z (parse_i64 hs) in
  let m := default 0%Z (ms ≫= parse_i64) in
  let sec_str := default "0" ss in
  sec_frac ← (match split_once "."%char sec_str with
    | Some (sec, frac) =>
        let sec := default 0%Z (parse_i64 sec) in
        if is_empty frac then Some (sec, 0%Z)
        else
          let padded := pad_right6 frac in
          match String.get 3 padded with
          | Some c => if is_continuation c then None
                      else Some (sec, default 0%Z (parse_i64 (String.substring 0 3 padded)))
          | None => None
          end
    | None => Some (default 0%Z (parse_i64 sec_str), 0%Z)
    end);
  Some (as_i64 (h * 3600000 + m * 60000 + sec_frac.1 * 1000 + sec_frac.2)%Z).

(** What a MySQL server answers: its slow-log settings, the rows of
    [mysql.slow_log] after a cursor (start_time, query_time, sql_text, db) in the
    order of start_time, whether performance_schema is on, and the rows of the
    digest table (digest, text, count, picoseconds, schema). *)
Record MySql := {
  settings : result string (Z * string);
  slow_log : string → result string (list (string * string * option string * option string));
  performance_schema : result string Z;
  digest_rows : result string (list (string * string * Z * Z * option string)) }.

(** ** MySQL: digest snapshots *)

(** [PsSnapshot]: counters by composite key. *)
Record PsSnapshot := { taken : Z; counters : gmap string (Z * Z) }.

Record PsDelta := {
  d_count : Z; d_total_ms : Z; digest_text : string; schema : option string }.

Definition ps_key (digest_hex : string) (schema : option string) : string :=
  digest_hex +:+ "|" +:+ default "" schema.
Definition ps_to_ms (ps : Z) : Z := Z.quot ps (10 ^ 9).

(** [k.rsplit_once('|')] and what becomes of its second half. *)
Definition rsplit_once (sep : ascii) (s : string) : option (string * string) :=
  match split_once sep (String.rev s) with
  | Some (b, a) => Some (String.rev a, String.rev b)
  | None => None
  end.
Definition schema_of (k : string) : option string :=
  match rsplit_once "|"%char k with
  | Some (_, s) => if is_empty s then None else Some s
  | None => None
  end.

Definition PsRow : Type := string * string * Z * Z.

(** A shared key whose count went back. *)
Definition regressed (prev : PsSnapshot) (row : PsRow) : bool :=
  let '(k, _, c, _) := row in
  match prev.(counters) !! k with Some (pc, _) => (c <? pc)%Z | None => false end.

Definition ps_delta (prev : PsSnapshot) (row : PsRow) : option PsDelta :=
  let '(k, text, c, total_ms) := row in
  match prev.(counters) !! k with
  | None => None
  | Some (pc, ptotal) =>
      let count := (c - pc)%Z in
      if (count <=? 0)%Z then None
      else Some {| d_count := count; d_total_ms := Z.max (total_ms - ptotal) 0;
                   digest_text := text; schema := schema_of k |}
  end.

Definition diff_ps_snapshots (prev : option PsSnapshot) (cur : list PsRow) : list PsDelta :=
  match prev with
  | None => []
  | Some prev => if existsb (regressed prev) cur then [] else omap (ps_delta prev) cur
  end.

(** [i64::try_from(x).unwrap_or(i64::MAX)] for a [u64]. *)
Definition saturate_i64 (x : Z) : Z := Z.min x i64_max.

Definition ps_row (r : string * string * Z * Z * option string) : PsRow :=
  let '(dh, text, c, tps, schema) := r in
  (ps_key dh schema, text, saturate_i64 c, ps_to_ms (saturate_i64 tps)).

(** The new baseline; a later row of the same key overwrites. *)
Definition snapshot_of (now_ms : Z) (rows : list PsRow) : PsSnapshot :=
  {| taken := now_ms;
     counters := foldl (λ m '(k, _, c, ms), <[k := (c, ms)]> m) ∅ rows |}.

Section MySql.
Context (to_uppercase : string → string).
(** [serde_json::to_string] and [from_str] on a snapshot. *)
Context (to_json : PsSnapshot → result string string) (from_json : string → option PsSnapshot).

Definition ps_sample (db_kind : string) (d : PsDelta) : Sample unit :=
  {| s_db_kind := db_kind; s_database := d.(schema); s_source := PS_DIGEST_SOURCE;
     s_digest := normalize_digest to_uppercase (PSql d.(digest_text));
     s_text := Some d.(digest_text); s_elapsed := Z.max d.(d_total_ms) 1;
     s_count := Some d.(d_count); s_mark := tt |}.

Definition collect_mysql_ps_digest (env : Env) (now_ms : Z) (conn_id db_kind : string)
    (mp : MySql) (st : State) : result string nat * State :=
  match mp.(performance_schema) with
  | Err e => (Err ("performance_schema flag read failed: " +:+ e), st)
  | Ok ps_on =>
      if decide (ps_on = 0)%Z then (Ok 0, st) else
      match mp.(digest_rows) with
      | Err e => (Err ("ps digest table read failed: " +:+ e), st)
      | Ok rows =>
          let now_rows := ps_row <$> rows in
          let prev := cursor_get conn_id PS_DIGEST_SOURCE st.(cursors) ≫= from_json in
          let deltas := diff_ps_snapshots prev now_rows in
          let '(ms, t) := insert_samples env 0 conn_id (ps_sample db_kind <$> deltas) st.(samples) in
          (Ok (length ms),
           {| cursors := match to_json (snapshot_of now_ms now_rows) with
                         | Ok json => cursor_put env.(cursor_accepted) conn_id PS_DIGEST_SOURCE json st.(cursors)
                         | Err _ => st.(cursors)
                         end;
              samples := t |})
      end
  end.

(** One row of slow_log; [None] when its duration makes the parser panic. *)
Definition slow_sample (db_kind : string) (row : string * string * option string * option string)
    : option (Sample string) :=
  let '(start_time, query_time, sql_text, db) := row in
  ms ← parse_mysql_time_ms query_time;
  Some {| s_db_kind := db_kind; s_database := db; s_source := MYSQL_SOURCE;
          s_digest := normalize_digest to_uppercase (PSql (default "" sql_text));
          s_text := sql_text; s_elapsed := Z.max ms 1; s_count := None; s_mark := start_time |}.

(** [collect_mysql]; [hour_ago] is [mysql_source_now_minus_hours(1)], [lower] is
    [str::to_lowercase], [None] a panic. *)
Definition collect_mysql (lower : string → string) (env : Env) (now_ms : Z) (hour_ago : string)
    (conn_id db_kind : string) (opened : result string MySql) (st : State)
    : option (result string nat * State) :=
  match opened with
  | Err e => Some (Err e, st)
  | Ok mp =>
      match mp.(settings) with
      | Err e => Some (Err ("slow log settings read failed: " +:+ e), st)
      | Ok (slow_on, log_output) =>
          if bool_decide (slow_on = 0)%Z || negb (contains "table" (lower log_output))
          then Some (collect_mysql_ps_digest env now_ms conn_id db_kind mp st)
          else
            let cursor := default hour_ago (cursor_get conn_id MYSQL_SOURCE st.(cursors)) in
            match mp.(slow_log) cursor with
            | Err e => Some (Err ("mysql.slow_log read failed: " +:+ e), st)
            | Ok rows =>
                xs ← mapM (slow_sample db_kind) rows;
                let '(times, t) := insert_samples env 0 conn_id xs st.(samples) in
                let max_ts := foldl text_max cursor times in
                Some (Ok (length times),
                      {| cursors := match times with
                                    | [] => st.(cursors)
                                    | _ => cursor_put env.(cursor_accepted) conn_id MYSQL_SOURCE max_ts st.(cursors)
                                    end;
                         samples := t |})
            end
      end
  end.

(** [collect_all]: what each registered connection answers.  A failure is only
    logged; a panic ends the task. *)
Inductive Source : Type :=
| FromRedis (reply : result string json)
| FromMySql (opened : result string MySql).

Fixpoint collect_all (lower : string → string) (env : nat → Env) (now_ms : Z) (hour_ago : string)
    (conns : list (string * string * Source)) (st : State) : option State :=
  match conns with
  | [] => Some st
  | (conn_id, db_type, src) :: conns' =>
      let env0 := env (length conns') in
      st' ← match src with
            | FromRedis reply => Some (collect_redis to_uppercase env0 conn_id reply st).2
            | FromMySql opened => snd <$> collect_mysql lower env0 now_ms hour_ago conn_id db_type opened st
            end;
      collect_all lower env now_ms hour_ago conns' st'
  end.
End MySql.

(** ** The insert loops *)

Lemma insert_samples_marks {M} env i conn (xs : list (Sample M)) t :
  (insert_samples env i conn xs t).1 `sublist_of` (s_mark <$> xs).
Proof.
  revert i t. induction xs as [|x xs IH]; intros i t; [constructor|].
  cbn [insert_samples]. unfold insert_native, insert_row. rewrite fmap_cons.
  destruct (accepts env i).
  - specialize (IH (S i) (t ++ [{| r_id := uuid env i; r_source := s_source x; r_conn_id := conn;
      r_db_kind := s_db_kind x; r_database := s_database x; r_digest := s_digest x;
      r_sql_text := (λ s, truncate_chars s SQL_TEXT_MAX_CHARS) <$> s_text x; r_elapsed_ms := s_elapsed x;
      r_row_count := None; r_affected_rows := None; r_query_count := s_count x; r_status := "ok";
      r_error_code := None; r_user_id := None; r_entry := "native"; r_captured_at := stamp env i |}])).
    destruct (insert_samples _ _ _ _ _). by apply sublist_skip.
  - by apply sublist_cons.
Qed.

Lemma insert_samples_all {M} env i conn (xs : list (Sample M)) t :
  (∀ j, accepts env j = true) →
  ∃ added, insert_samples env i conn xs t = (s_mark <$> xs, t ++ added) ∧
    (queries <$> added) = ((λ x, default 1%Z (s_count x)) <$> xs) ∧
    Forall (λ r, r.(r_conn_id) = conn) added.
Proof.
  intros Hacc. revert i t. induction xs as [|x xs IH]; intros i t.
  { exists []. by rewrite app_nil_r. }
  cbn [insert_samples]. unfold insert_native, insert_row. rewrite Hacc.
  match goal with |- context [t ++ [?r]] => destruct (IH (S i) (t ++ [r])) as (added & -> & Hq & Hc);
    exists (r :: added) end.
  rewrite !fmap_cons, Hq, <- app_assoc. split_and!; [done..|]. by constructor.
Qed.

(** ** Redis: every entry at most once *)

Lemma parse_u64_decimal n : (Z.of_N n ≤ u64_max)%Z → parse_u64 (decimal n) = Some (Z.of_N n).
Proof.
  intros Hn. unfold parse_u64.
  assert (match decimal n with
          | String c r => if decide (c = "+"%char) then r else decimal n
          | _ => decimal n end = decimal n) as ->.
  { pose proof (decimal_digits n) as Hd. destruct (decimal n) as [|c r]; [done|].
    case_decide as E; [|done]. by subst c. }
  rewrite parse_decimal. cbn. by rewrite decide_True.
Qed.

(** The cursor as [collect_redis] reads it. *)
Definition redis_last (conn_id : string) (st : State) : Z :=
  default 0%Z (cursor_get conn_id REDIS_SOURCE st.(cursors) ≫= parse_u64).
(** The ids of the entries a collection stores, in order. *)
Definition redis_stored (up : string → string) (env : Env) (conn_id : string)
    (reply : result string json) (st : State) : list Z :=
  match reply with
  | Err _ => []
  | Ok reply => (insert_samples env 0 conn_id
      (omap (redis_sample up (redis_last conn_id st)) (default [] (as_array reply))) st.(samples)).1
  end.
Definition entry_id (entry : json) : option Z :=
  match as_array entry with Some (id :: _) => as_i64_json id | _ => None end.

Lemma redis_sample_mark up last e x :
  redis_sample up last e = Some x →
  entry_id e = Some x.(s_mark) ∧ (last < s_mark x ≤ i64_max)%Z ∧ (0 < s_mark x)%Z.
Proof.
  unfold redis_sample, entry_id.
  destruct (as_array e) as [[|id [|ts [|dur [|argv rest]]]]|]; try done.
  set (args := match as_array argv with Some _ => _ | None => _ end).
  destruct args as [|a args]; [done|].
  destruct (as_i64_json id) as [z|] eqn:Eid; cbn [default from_option].
  - destruct (_ || _ || _) eqn:E; [done|]. intros [= <-]. cbn.
    apply orb_false_iff in E as [[_ E1]%orb_false_iff E2].
    apply Z.leb_gt in E1, E2. cbn in E1, E2. unfold as_i64_json in Eid.
    destruct id; try done. case_decide; simplify_eq. split_and!; [done|lia..].
  - by rewrite orb_true_r.
Qed.

Lemma omap_marks up last entries :
  ((s_mark <$> omap (redis_sample up last) entries) `sublist_of` omap entry_id entries) ∧
  Forall (λ z, (last < z ≤ i64_max)%Z) (s_mark <$> omap (redis_sample up last) entries).
Proof.
  induction entries as [|e entries [IH1 IH2]]; [by repeat constructor|]. cbn [omap list_omap].
  destruct (redis_sample up last e) as [x|] eqn:E.
  - destruct (redis_sample_mark up last e x E) as (-> & H & _). rewrite fmap_cons.
    split; [by apply sublist_skip|by constructor].
  - split; [|done]. destruct (entry_id e); [by apply sublist_cons|done].
Qed.

Lemma foldl_max last l : (last ≤ foldl Z.max last l)%Z ∧ Forall (λ z, (z ≤ foldl Z.max last l)%Z) l ∧
  ∀ b, (last ≤ b)%Z → Forall (λ z, (z ≤ b)%Z) l → (foldl Z.max last l ≤ b)%Z.
Proof.
  revert last. induction l as [|x l IH]; intros last; cbn; [split_and!; [lia|constructor|by intros]|].
  destruct (IH (Z.max last x)) as (H1 & H2 & H3). split_and!; [lia|constructor; [lia|done]|].
  intros b Hb [Hx Hl]%Forall_cons. apply H3; [lia|done].
Qed.

Lemma sublist_Forall {A} (P : A → Prop) l k : l `sublist_of` k → Forall P k → Forall P l.
Proof. induction 1; intros Hk; inversion Hk; subst; auto. Qed.

(** One collection: what it stores lies above the old cursor, without
    repetition, and the cursor it leaves is not below. *)
Lemma collect_redis_step up env conn reply st :
  cursor_accepted env = true → (0 ≤ redis_last conn st ≤ i64_max)%Z →
  (∀ j, reply = Ok j → NoDup (omap entry_id (default [] (as_array j)))) →
  let ids := redis_stored up env conn reply st in
  let st' := (collect_redis up env conn reply st).2 in
  NoDup ids ∧ Forall (λ z, (redis_last conn st < z ≤ redis_last conn st')%Z) ids ∧
  (redis_last conn st ≤ redis_last conn st' ≤ i64_max)%Z.
Proof.
  intros Hacc Hlast Hnd. unfold redis_stored, collect_redis. fold (redis_last conn st).
  destruct reply as [j|e]; [|cbn; split_and!; [apply NoDup_nil_2|constructor|lia..]].
  specialize (Hnd j eq_refl).
  set (xs := omap _ _). pose proof (insert_samples_marks env 0 conn xs st.(samples)) as Hsub.
  destruct (insert_samples env 0 conn xs st.(samples)) as [ids t]. cbn [fst snd] in *.
  destruct (omap_marks up (redis_last conn st) (default [] (as_array j))) as [Hs Hf].
  fold xs in Hs, Hf.
  assert (Hids : Forall (λ z, (redis_last conn st < z ≤ i64_max)%Z) ids) by exact (sublist_Forall _ _ _ Hsub Hf).
  destruct (foldl_max (redis_last conn st) ids) as (H1 & H2 & H3).
  assert (Hm : (foldl Z.max (redis_last conn st) ids ≤ i64_max)%Z).
  { apply H3; [lia|]. eapply Forall_impl; [exact Hids|]. cbn. lia. }
  assert (Hl' : redis_last conn {| cursors :=
      if (redis_last conn st <? foldl Z.max (redis_last conn st) ids)%Z
      then cursor_put env.(cursor_accepted) conn REDIS_SOURCE
             (decimal (Z.to_N (foldl Z.max (redis_last conn st) ids))) st.(cursors)
      else st.(cursors); samples := t |} = foldl Z.max (redis_last conn st) ids).
  { unfold redis_last at 1, cursor_get, cursor_put. cbn [cursors]. rewrite Hacc.
    destruct (Z.ltb_spec (redis_last conn st) (foldl Z.max (redis_last conn st) ids)).
    - rewrite lookup_insert_eq. cbn [mbind option_bind].
      rewrite parse_u64_decimal by (unfold u64_max, i64_max in *; lia). cbn [default from_option]. unfold id. lia.
    - fold (cursor_get conn REDIS_SOURCE (cursors st)). fold (redis_last conn st). lia. }
  rewrite Hl'. split_and!; [|..|done|done].
  - eapply sublist_NoDup; [exact Hnd|by etransitivity].
  - apply Forall_and. split; [|done]. eapply Forall_impl; [exact Hids|]. cbn. lia.
Qed.

(** Hourly collections of one connection: the ids each stores, and the state
    at the end. *)
Fixpoint redis_run (up : string → string) (conn_id : string)
    (ticks : list (Env * result string json)) (st : State) : list (list Z) * State :=
  match ticks with
  | [] => ([], st)
  | (env, reply) :: ticks' =>
      let '(idss, st') := redis_run up conn_id ticks' (collect_redis up env conn_id reply st).2 in
      (redis_stored up env conn_id reply st :: idss, st')
  end.

(** A slow-log entry of a Redis server is stored at most once, however the
    hourly replies overlap: over any number of collections whose replies hold
    each id once, whatever inserts fail, the ids stored are pairwise distinct and
    none lies above the cursor, as long as the cursor itself could be written. *)
Theorem redis_entries_once up conn ticks st :
  (0 ≤ redis_last conn st ≤ i64_max)%Z →
  Forall (λ tk, cursor_accepted tk.1 = true ∧
    ∀ j, tk.2 = Ok j → NoDup (omap entry_id (default [] (as_array j)))) ticks →
  let '(idss, st') := redis_run up conn ticks st in
  NoDup (concat idss) ∧
  Forall (λ z, (redis_last conn st < z ≤ redis_last conn st')%Z) (concat idss).
Proof.
  intros Hst Ht. cut (let '(idss, st') := redis_run up conn ticks st in
    NoDup (concat idss) ∧ (redis_last conn st ≤ redis_last conn st')%Z ∧
    Forall (λ z, (redis_last conn st < z ≤ redis_last conn st')%Z) (concat idss)).
  { destruct (redis_run up conn ticks st). tauto. }
  revert st Hst. induction Ht as [|[env reply] ticks [Hc Hnd] Ht IH]; intros st Hst.
  { cbn. split_and!; [apply NoDup_nil_2|lia|constructor]. }
  cbn [redis_run]. destruct (collect_redis_step up env conn reply st Hc Hst Hnd) as (H1 & H2 & H3).
  specialize (IH (collect_redis up env conn reply st).2 ltac:(lia)).
  destruct (redis_run up conn ticks _) as [idss st']. destruct IH as (IH1 & IH2 & IH3).
  cbn [concat]. split_and!; [|lia|].
  - apply NoDup_app. split_and!; [done| |done]. intros z Hz1 Hz2.
    rewrite Forall_forall in H2, IH3. specialize (H2 z Hz1). specialize (IH3 z Hz2). cbn in H2, IH3. lia.
  - apply Forall_app. split.
    + eapply Forall_impl; [exact H2|]. cbn. lia.
    + eapply Forall_impl; [exact IH3|]. cbn. lia.
Qed.

Notation ex_env := {| uuid := λ _, "u"; stamp := λ _, "2026-01-01T00"; accepts := λ _, true;
  cursor_accepted := true |}.
Notation ex_entry n cmd := (JArr [JInt n; JInt 0; JInt 15000; JArr [JStr cmd; JStr "k"]]).
Notation ex_ticks := [(ex_env, Ok (JArr [ex_entry 8%Z "GET"; ex_entry 7%Z "HGETALL"]));
                      (ex_env, Ok (JArr [ex_entry 9%Z "SLOWLOG"; ex_entry 10%Z "KEYS"; ex_entry 8%Z "GET"]))].
Notation ex_state := {| cursors := ∅; samples := [] |}.

Example redis_entries_once_witness :
  NoDup (concat (redis_run id "c1" ex_ticks ex_state).1) ∧
  (redis_run id "c1" ex_ticks ex_state).1 = [[8; 7]; [10]]%Z.
Proof.
  split; [|vm_compute; reflexivity].
  pose proof (redis_entries_once id "c1" ex_ticks ex_state) as H.
  destruct (redis_run id "c1" ex_ticks ex_state) as [idss st'].
  destruct H as [H _]; [vm_compute; split; discriminate| |exact H].
  repeat constructor; intros j [= <-]; cbn; apply (bool_decide_unpack _); vm_compute; exact I.
Defined.

(** A restarted server counts its entries from zero again: until its ids pass
    the old cursor, nothing of it is collected. *)
Example redis_restart_blinds :
  (redis_run id "c1" (ex_ticks ++ [(ex_env, Ok (JArr [ex_entry 3%Z "KEYS"; ex_entry 2%Z "KEYS"]))]) ex_state).1
  = [[8; 7]; [10]; []]%Z.
Proof. by vm_compute. Qed.

(** An entry whose insert failed is not tried again once a later one is stored. *)
Example redis_failed_insert_lost :
  let env1 := {| uuid := λ _, "u"; stamp := λ _, ""; accepts := λ i, negb (Nat.eqb i 0); cursor_accepted := true |} in
  let reply := Ok (JArr [ex_entry 7%Z "GET"; ex_entry 8%Z "GET"]) in
  (redis_run id "c1" [(env1, reply); (ex_env, reply)] ex_state).1 = [[8]; []]%Z.
Proof. by vm_compute. Qed.

(** ** Digest counters: nothing is counted twice *)

Definition row_key (r : PsRow) : string := r.1.1.1.
Definition row_count (r : PsRow) : Z := r.1.2.

(** Collections of the digest table, all inserts accepted. *)
Section PsRun.
Context (up : string → string) (to_json : PsSnapshot → result string string)
  (from_json : string → option PsSnapshot) (conn_id db_kind : string).

Fixpoint ps_run (ticks : list (Z * list (string * string * Z * Z * option string))) (st : State) : State :=
  match ticks with
  | [] => st
  | (now_ms, rows) :: ticks' =>
      ps_run ticks' (collect_mysql_ps_digest up to_json from_json
        {| uuid := λ _, ""; stamp := λ _, ""; accepts := λ _, true; cursor_accepted := true |}
        now_ms conn_id db_kind
        {| settings := Ok (0%Z, "FILE"); slow_log := λ _, Ok []; performance_schema := Ok 1%Z;
           digest_rows := Ok rows |} st).2
  end.

(** The counters of the server at one collection, as its rows show them. *)
Definition shows (K : list string) (C : string → Z) (rows : list PsRow) : Prop :=
  NoDup (row_key <$> rows) ∧ Forall (λ r, row_key r ∈ K ∧ row_count r = C (row_key r)) rows.
Definition complete (K : list string) (rows : list PsRow) : Prop :=
  ∀ k, k ∈ K → k ∈ row_key <$> rows.
Definition growth (K : list string) (C C' : string → Z) : Z := sum ((λ k, (C' k - C k)%Z) <$> K).

Lemma snapshot_lookup now rows :
  NoDup (row_key <$> rows) →
  (∀ r, r ∈ rows → (snapshot_of now rows).(counters) !! row_key r = Some (row_count r, r.2)) ∧
  ∀ k, k ∉ row_key <$> rows → (snapshot_of now rows).(counters) !! k = None.
Proof.
  unfold snapshot_of. cbn [counters]. intros Hnd.
  assert (H : ∀ (m : gmap string (Z * Z)),
    let m' := foldl (λ (m : gmap string (Z * Z)) (r : PsRow), let '(k, _, c, ms) := r in <[k := (c, ms)]> m) m rows in
    (∀ r, r ∈ rows → m' !! row_key r = Some (row_count r, r.2)) ∧
    ∀ k, k ∉ row_key <$> rows → m' !! k = m !! k).
  { induction rows as [|[[[k0 tx] c] ms] rows IH]; intros m.
    { split; [by intros r ?%elem_of_nil|done]. }
    rewrite fmap_cons in *. apply NoDup_cons in Hnd as [Hk0 Hnd]. cbn [foldl].
    destruct (IH Hnd (<[k0 := (c, ms)]> m)) as [IH1 IH2]. split.
    - intros r [->|Hr]%elem_of_cons; [|by apply IH1].
      rewrite IH2 by done. by rewrite lookup_insert_eq.
    - intros k [Hne Hk]%not_elem_of_cons. rewrite IH2 by done. by rewrite lookup_insert_ne. }
  destruct (H ∅) as [H1 H2]. split; [exact H1|]. intros k Hk. rewrite H2 by done. apply lookup_empty.
Qed.

Lemma sum_le {A} (f g : A → Z) l : (∀ x, x ∈ l → (f x ≤ g x)%Z) → (sum (f <$> l) ≤ sum (g <$> l))%Z.
Proof.
  induction l as [|x l IH]; intros H; [done|]. rewrite !fmap_cons. unfold sum in *. cbn [foldr].
  assert (f x ≤ g x)%Z by (apply H; left).
  assert (foldr Z.add 0 (f <$> l) ≤ foldr Z.add 0 (g <$> l))%Z by (apply IH; intros; apply H; by right). lia.
Qed.

Lemma sum_sub {A} (f : A → Z) l k : l ⊆+ k → (∀ x, (0 ≤ f x)%Z) → (sum (f <$> l) ≤ sum (f <$> k))%Z.
Proof.
  intros [r Hr]%submseteq_Permutation Hf. rewrite (sum_perm _ _ (fmap_Permutation f _ _ Hr)), fmap_app, sum_app.
  pose proof (sum_le (λ _, 0%Z) f r (λ x _, Hf x)).
  enough (sum ((λ _, 0%Z) <$> r) = 0%Z) by lia. clear. induction r as [|x r IH]; [done|].
  rewrite fmap_cons. unfold sum in *. cbn [foldr]. lia.
Qed.

(** The deltas of one round, as a sum over its rows. *)
Definition delta_count (prev : PsSnapshot) (r : PsRow) : Z :=
  match ps_delta prev r with Some d => d.(d_count) | None => 0 end.
Lemma omap_delta_sum prev rows :
  sum (d_count <$> omap (ps_delta prev) rows) = sum (delta_count prev <$> rows).
Proof.
  induction rows as [|r rows IH]; [done|]. rewrite fmap_cons. cbn [omap list_omap].
  change (sum (?x :: ?l)) with (x + sum l)%Z. unfold delta_count at 1.
  destruct (ps_delta prev r); [rewrite fmap_cons; change (sum (?x :: ?l)) with (x + sum l)%Z|]; lia.
Qed.

Lemma round_bound K C C' now rows rows' :
  NoDup K → (∀ k, (C k ≤ C' k)%Z) → shows K C rows → shows K C' rows' →
  let total := sum (d_count <$> diff_ps_snapshots (Some (snapshot_of now rows)) rows') in
  (total ≤ growth K C C')%Z ∧ (complete K rows → complete K rows' → total = growth K C C').
Proof.
  intros HK Hmono [Hnd Hrows] [Hnd' Hrows']. cbn zeta.
  destruct (snapshot_lookup now rows Hnd) as [Hin Hout].
  set (prev := snapshot_of now rows) in *.
  assert (Hprev : ∀ k pc pt, prev.(counters) !! k = Some (pc, pt) → pc = C k).
  { intros k pc pt Hk. destruct (decide (k ∈ row_key <$> rows)) as [Hel|Hnel].
    - apply list_elem_of_fmap in Hel as (r & -> & Hr). rewrite (Hin r Hr) in Hk. simplify_eq.
      rewrite Forall_forall in Hrows. exact (proj2 (Hrows r Hr)).
    - rewrite Hout in Hk; done. }
  assert (Hno : existsb (regressed prev) rows' = false).
  { apply not_true_iff_false. rewrite existsb_exists. intros ([[[k tx] c] ms] & Hr & Hreg).
    apply list_elem_of_In in Hr. rewrite Forall_forall in Hrows'. specialize (Hrows' _ Hr) as [_ Hc].
    unfold regressed in Hreg. cbn in Hc. revert Hreg. destruct (counters prev !! k) as [[pc pt]|] eqn:E; [|discriminate].
    intros Hreg. apply Hprev in E. apply Z.ltb_lt in Hreg. specialize (Hmono k). subst. unfold row_key in *. cbn in *. lia. }
  assert (Hd : ∀ r, r ∈ rows' → (delta_count prev r ≤ C' (row_key r) - C (row_key r))%Z ∧
    (row_key r ∈ row_key <$> rows → delta_count prev r = C' (row_key r) - C (row_key r))%Z).
  { intros [[[k tx] c] ms] Hr. rewrite Forall_forall in Hrows'. specialize (Hrows' _ Hr) as [_ Hc].
    unfold delta_count, ps_delta. change (row_key (k, tx, c, ms)) with k in *.
    change (row_count (k, tx, c, ms)) with c in Hc. specialize (Hmono k).
    destruct (counters prev !! k) as [[pc pt]|] eqn:E.
    - apply Hprev in E. subst. destruct (Z.leb_spec (C' k - C k) 0); cbn [d_count]; lia.
    - split; [lia|]. intros Hel. apply list_elem_of_fmap in Hel as (r & -> & Hr'). rewrite (Hin r Hr') in E. done. }
  unfold diff_ps_snapshots. rewrite Hno, omap_delta_sum. unfold growth.
  assert (Hsub : row_key <$> rows' ⊆+ K).
  { apply NoDup_submseteq; [done|]. intros k (r & -> & Hr)%list_elem_of_fmap.
    rewrite Forall_forall in Hrows'. exact (proj1 (Hrows' r Hr)). }
  pose proof (sum_sub (λ k, (C' k - C k)%Z) _ _ Hsub ltac:(intros k; specialize (Hmono k); lia)) as Hs.
  rewrite <- list_fmap_compose in Hs.
  pose proof (sum_le (delta_count prev) ((λ k, (C' k - C k)%Z) ∘ row_key) rows' (λ r Hr, proj1 (Hd r Hr))) as Hl.
  split; [lia|]. intros Hcomp Hcomp'.
  assert (Hp : row_key <$> rows' ≡ₚ K).
  { apply NoDup_Permutation; [done..|]. intros k. split; [|apply Hcomp'].
    intros Hk. eapply elem_of_submseteq; [exact Hk|exact Hsub]. }
  rewrite <- (sum_perm _ _ (fmap_Permutation (λ k, (C' k - C k)%Z) _ _ Hp)), <- list_fmap_compose.
  apply Z.le_antisymm; [done|]. apply sum_le. intros r Hr. destruct (Hd r Hr) as [_ He].
  cbn. rewrite He; [done|]. apply Hcomp. eapply elem_of_submseteq; [|exact Hsub]. by apply list_elem_of_fmap_2.
Qed.

(** One collection, all inserts accepted. *)
Lemma collect_ps_step now_ms rows st :
  (∀ s, ∃ j, to_json s = Ok j ∧ from_json j = Some s) →
  let st' := ps_run [(now_ms, rows)] st in
  let deltas := diff_ps_snapshots (cursor_get conn_id PS_DIGEST_SOURCE st.(cursors) ≫= from_json)
                  (ps_row <$> rows) in
  (∃ added, st'.(samples) = st.(samples) ++ added ∧ (queries <$> added) = (d_count <$> deltas)) ∧
  (cursor_get conn_id PS_DIGEST_SOURCE st'.(cursors) ≫= from_json)
    = Some (snapshot_of now_ms (ps_row <$> rows)).
Proof.
  intros Hjson st' deltas. subst st'. cbn [ps_run]. unfold collect_mysql_ps_digest. cbn [performance_schema digest_rows].
  rewrite decide_False by done. fold deltas.
  match goal with |- context [insert_samples ?env 0 conn_id ?xs ?t] =>
    destruct (insert_samples_all env 0 conn_id xs t ltac:(done)) as (added & -> & Hq & _) end.
  cbn [snd samples cursors]. split.
  - exists added. split; [done|]. rewrite Hq, <- list_fmap_compose. done.
  - destruct (Hjson (snapshot_of now_ms (ps_row <$> rows))) as (j & -> & Hj).
    unfold cursor_get, cursor_put. cbn. by rewrite lookup_insert_eq.
Qed.

Lemma growth_trans K C1 C2 C3 : (growth K C1 C2 + growth K C2 C3)%Z = growth K C1 C3.
Proof.
  unfold growth. induction K as [|k K IH]; [done|]. rewrite !fmap_cons.
  change (sum (?x :: ?l)) with (x + sum l)%Z. lia.
Qed.

Lemma ps_run_from K (C : nat → string → Z) ticks i now rows st :
  (∀ s, ∃ j, to_json s = Ok j ∧ from_json j = Some s) → NoDup K →
  (∀ i k, (C i k ≤ C (S i) k)%Z) →
  shows K (C i) rows →
  (∀ j tk, ticks !! j = Some tk → shows K (C (S i + j)) (ps_row <$> tk.2)) →
  (cursor_get conn_id PS_DIGEST_SOURCE st.(cursors) ≫= from_json) = Some (snapshot_of now rows) →
  ∃ added, (ps_run ticks st).(samples) = st.(samples) ++ added ∧
    (sum (queries <$> added) ≤ growth K (C i) (C (i + length ticks)%nat))%Z ∧
    (complete K rows → (∀ tk, tk ∈ ticks → complete K (ps_row <$> tk.2)) →
      sum (queries <$> added) = growth K (C i) (C (i + length ticks)%nat)).
Proof.
  intros Hjson HK Hmono. revert i now rows st. induction ticks as [|[t rs] ticks IH];
    intros i now rows st Hrows Hticks Hcur.
  { exists []. rewrite app_nil_r, Nat.add_0_r.
    assert (growth K (C i) (C i) = 0%Z) as ->.
    { unfold growth. clear. induction K as [|k K IH]; [done|]. rewrite fmap_cons.
      change (sum (?x :: ?l)) with (x + sum l)%Z. lia. }
    done. }
  change (ps_run ((t, rs) :: ticks) st) with (ps_run ticks (ps_run [(t, rs)] st)).
  destruct (collect_ps_step t rs st Hjson) as ((added1 & Hs & Hq) & Hc). rewrite Hcur in Hq.
  pose proof (Hticks 0 (t, rs) eq_refl) as H0. rewrite Nat.add_0_r in H0. cbn [snd] in H0.
  destruct (round_bound K (C i) (C (S i)) now rows (ps_row <$> rs) HK (Hmono i) Hrows H0) as [Hb He].
  destruct (IH (S i) t (ps_row <$> rs) (ps_run [(t, rs)] st) H0) as (added2 & Hs2 & Hb2 & He2); [|done|].
  { intros j tk Hj. replace (S (S i) + j) with (S i + S j) by lia. by apply Hticks. }
  exists (added1 ++ added2). rewrite Hs2, Hs, <- app_assoc. cbn [length].
  rewrite <- plus_n_Sm. change (S (i + length ticks)) with (S i + length ticks).
  rewrite fmap_app, sum_app, Hq. rewrite <- (growth_trans K (C i) (C (S i))). split_and!; [done|lia|].
  intros Hcomp Hall. rewrite He, He2; [done|..].
  - apply (Hall (t, rs)). left.
  - intros tk Htk. apply Hall. by right.
  - done.
  - apply (Hall (t, rs)). left.
Qed.
End PsRun.

(** The digest counters are never counted twice: while the server's counters
    only grow, any number of hourly collections from a fresh cursor adds samples
    whose query counts sum to at most the growth of the counters since the first
    collection (digests missing from some snapshot are skipped, not guessed), and
    to exactly that growth when every digest is in every snapshot. *)
Theorem ps_counts_conserved up to_json from_json conn_id db_kind K (C : nat → string → Z) tk0 ticks st :
  (∀ s, ∃ j, to_json s = Ok j ∧ from_json j = Some s) → NoDup K →
  (∀ i k, (C i k ≤ C (S i) k)%Z) →
  (∀ i tk, (tk0 :: ticks) !! i = Some tk → shows K (C i) (ps_row <$> tk.2)) →
  (cursor_get conn_id PS_DIGEST_SOURCE st.(cursors) ≫= from_json) = None →
  ∃ added,
    (ps_run up to_json from_json conn_id db_kind (tk0 :: ticks) st).(samples) = st.(samples) ++ added ∧
    (sum (queries <$> added) ≤ growth K (C 0%nat) (C (length ticks)))%Z ∧
    ((∀ tk, tk ∈ tk0 :: ticks → complete K (ps_row <$> tk.2)) →
     sum (queries <$> added) = growth K (C 0%nat) (C (length ticks))).
Proof.
  intros Hjson HK Hmono Hshow Hcur. destruct tk0 as [t rs].
  change (ps_run up to_json from_json conn_id db_kind ((t, rs) :: ticks) st) with
    (ps_run up to_json from_json conn_id db_kind ticks (ps_run up to_json from_json conn_id db_kind [(t, rs)] st)).
  destruct (collect_ps_step up to_json from_json conn_id db_kind t rs st Hjson) as ((added1 & Hs & Hq) & Hc).
  rewrite Hcur in Hq. cbn in Hq. apply fmap_nil_inv in Hq as ->. rewrite app_nil_r in Hs.
  destruct (ps_run_from up to_json from_json conn_id db_kind K C ticks 0 t (ps_row <$> rs)
    (ps_run up to_json from_json conn_id db_kind [(t, rs)] st) Hjson HK Hmono) as (added & Hs2 & Hb & He).
  - exact (Hshow 0 (t, rs) eq_refl).
  - intros j tk Hj. exact (Hshow (S j) tk Hj).
  - exact Hc.
  - exists added. rewrite Hs2, Hs. split_and!; [done|done|]. intros Hall. apply He.
    + apply (Hall (t, rs)). left.
    + intros tk Htk. apply Hall. by right.
Qed.

(** A concrete text form of snapshots. *)
Definition snapshot_code (s : PsSnapshot) : result string string :=
  Ok (pos_bits (encode (s.(taken), s.(counters)))).
Definition snapshot_decode (s : string) : option PsSnapshot :=
  p ← bits_pos s; '(t, d) ← decode p; Some {| taken := t; counters := d |}.
Lemma snapshot_roundtrip s : ∃ j, snapshot_code s = Ok j ∧ snapshot_decode j = Some s.
Proof.
  eexists. split; [done|]. unfold snapshot_decode. rewrite bits_pos_pos_bits. cbn.
  rewrite decode_encode. by destruct s.
Qed.

Notation ex_ps_rows n m := [("aa", "SELECT ?", n, 5000000000, Some "shop"); ("bb", "DELETE", m, 9000000000, None)]%Z.

Example ps_counts_conserved_witness :
  ∃ added, (ps_run id snapshot_code snapshot_decode "c1" "mysql"
      [(0, ex_ps_rows 10 1); (1, ex_ps_rows 13 1); (2, ex_ps_rows 14 4)]%Z ex_state).(samples) = [] ++ added ∧
    sum (queries <$> added) = 7%Z.
Proof.
  pose (C := (λ i k, if decide (k = "aa|shop") then match i with O => 10 | S O => 13 | _ => 14 end
    else if decide (k = "bb|") then match i with O | S O => 1 | _ => 4 end else 0)%Z : nat → string → Z).
  destruct (ps_counts_conserved id snapshot_code snapshot_decode "c1" "mysql" ["aa|shop"; "bb|"] C
    (0, ex_ps_rows 10 1)%Z [(1, ex_ps_rows 13 1); (2, ex_ps_rows 14 4)]%Z ex_state) as (added & Hs & _ & He).
  - apply snapshot_roundtrip.
  - apply (bool_decide_unpack _). vm_compute. exact I.
  - intros i k. unfold C. repeat case_decide; [destruct i as [|[|i]]; done..|done].
  - assert (Hsh : ∀ i n m, C i "aa|shop" = n → C i "bb|" = m → (0 ≤ n ≤ 100)%Z → (0 ≤ m ≤ 100)%Z →
      shows ["aa|shop"; "bb|"] (C i) (ps_row <$> ex_ps_rows n m)).
    { intros i n m Hn Hm Hn' Hm'. split; [apply (bool_decide_unpack _); vm_compute; exact I|].
      apply Forall_cons. split; [split; [left|]|apply Forall_cons; split; [split; [right; left|]|constructor]].
      - change (saturate_i64 n = C i "aa|shop"). unfold saturate_i64, i64_max. lia.
      - change (saturate_i64 m = C i "bb|"). unfold saturate_i64, i64_max. lia. }
    intros [|[|[|i]]] tk Htk; cbn in Htk; simplify_eq; apply Hsh; done.
  - done.
  - exists added. split; [exact Hs|]. rewrite He; [done|].
    assert (Hall : Forall (λ tk, row_key <$> (ps_row <$> tk.2) = ["aa|shop"; "bb|"])
      [(0, ex_ps_rows 10 1); (1, ex_ps_rows 13 1); (2, ex_ps_rows 14 4)]%Z)
      by (repeat constructor; vm_compute; reflexivity).
    rewrite Forall_forall in Hall. intros tk Htk k Hk. by rewrite (Hall tk Htk).
Defined.

(** ** Switching between the two MySQL sources

    The digest counters keep growing while the slow_log table is the source, and
    their snapshot stays the one of before: when the slow log is turned off
    again, the queries it reported are reported a second time. *)

Notation ex_mysql on rows count := (Ok {| settings := Ok (on, "TABLE"); slow_log := λ _, Ok rows;
  performance_schema := Ok 1%Z;
  digest_rows := Ok [("aa", "SELECT ?", count, 5000000000%Z, Some "shop")] |}).
Notation ex_event t := (t, "00:00:02.5", Some "SELECT 1", Some "shop").
Notation ex_collect srv st :=
  (match collect_mysql id snapshot_code snapshot_decode to_ascii_lowercase ex_env 0 "2026-01-01 00:00:00" "c1" "mysql" srv st with
   | Some (_, st') => st' | None => st end).

(** Five executions after the baseline, eight queries in the samples. *)
Example source_switch_counts_twice :
  let st1 := ex_collect (ex_mysql 0%Z [] 10%Z) ex_state in
  let st2 := ex_collect (ex_mysql 1%Z [ex_event "2026-01-01 01:10"; ex_event "2026-01-01 01:20";
                                       ex_event "2026-01-01 01:30"] 13%Z) st1 in
  let st3 := ex_collect (ex_mysql 0%Z [] 15%Z) st2 in
  (sum (queries <$> st1.(samples)), sum (queries <$> st2.(samples)), sum (queries <$> st3.(samples)))
  = (0, 3, 8)%Z.
Proof. by vm_compute. Qed.

(** ** MySQL times *)

Definition dig (n : Z) : ascii := digit (Z.to_N n).
Definition two (n : Z) : string := String (dig (n / 10)) (String (dig (n mod 10)) "").
Definition three (n : Z) : string :=
  String (dig (n / 100)) (String (dig (n / 10 mod 10)) (String (dig (n mod 10)) "")).
(** The text of a TIME(6) value: hours of two digits or more. *)
Definition mysql_time (h m s us : Z) : string :=
  (if decide (h < 100)%Z then two h else decimal (Z.to_N h))
    +:+ ":" +:+ two m +:+ ":" +:+ two s +:+ "." +:+ three (us / 1000) +:+ three (us mod 1000).

Lemma dig_spec n : (0 ≤ n < 10)%Z → digit_value (dig n) = Z.to_N n ∧ is_ascii_digit (dig n) = true.
Proof. intros Hn. apply digit_value_digit. lia. Qed.

Lemma is_digit_not c : is_ascii_digit c = true →
  c ≠ "-"%char ∧ c ≠ "+"%char ∧ c ≠ ":"%char ∧ c ≠ "."%char ∧ is_continuation c = false.
Proof.
  intros Hc. split_and!; [by intros ->..|].
  unfold is_ascii_digit, in_range, code in Hc. unfold is_continuation.
  apply andb_true_iff in Hc as [_ Hc%N.leb_le]. apply andb_false_iff. left.
  apply Nat.leb_gt. unfold nat_of_ascii. lia.
Qed.

Lemma parse_i64_digits s n : all_chars is_ascii_digit s = true → parse_digits s = Some n →
  (Z.of_N n ≤ i64_max)%Z → parse_i64 s = Some (Z.of_N n).
Proof.
  intros Hd Hp Hn. unfold parse_i64. rewrite Hp. cbn [mbind option_bind]. rewrite decide_True by done.
  destruct s as [|c s]; [done|]. cbn in Hd. apply andb_true_iff in Hd as [Hd _].
  destruct c as [[] [] [] [] [] [] [] []]; done.
Qed.

Ltac digs :=
  repeat match goal with
  | |- context [is_ascii_digit (dig ?n)] => rewrite (proj2 (dig_spec n ltac:(lia)))
  | |- context [digit_value (dig ?n)] => rewrite (proj1 (dig_spec n ltac:(lia)))
  end.

Lemma two_spec n : (0 ≤ n < 100)%Z →
  all_chars is_ascii_digit (two n) = true ∧ parse_i64 (two n) = Some n.
Proof.
  intros Hn. assert (Hq : (0 ≤ n / 10 < 10)%Z) by (split; [apply Z.div_pos; lia|apply Z.div_lt_upper_bound; lia]).
  pose proof (Z.mod_pos_bound n 10 ltac:(lia)). pose proof (Z.div_mod n 10 ltac:(lia)).
  assert (Hd : all_chars is_ascii_digit (two n) = true) by (unfold two; cbn [all_chars]; by digs).
  split; [done|]. rewrite (parse_i64_digits _ (Z.to_N n) Hd).
  - f_equal. lia.
  - unfold two. cbn [parse_digits parse_digits_go]. digs. f_equal. lia.
  - unfold i64_max. lia.
Qed.

Lemma three_spec n : (0 ≤ n < 1000)%Z →
  all_chars is_ascii_digit (three n) = true ∧ parse_i64 (three n) = Some n.
Proof.
  intros Hn. assert (Hq : (0 ≤ n / 100 < 10)%Z) by (split; [apply Z.div_pos; lia|apply Z.div_lt_upper_bound; lia]).
  pose proof (Z.mod_pos_bound n 10 ltac:(lia)). pose proof (Z.div_mod n 10 ltac:(lia)).
  pose proof (Z.mod_pos_bound (n / 10) 10 ltac:(lia)). pose proof (Z.div_mod (n / 10) 10 ltac:(lia)).
  assert (n / 10 / 10 = n / 100)%Z by (rewrite Z.div_div by lia; done).
  assert (Hd : all_chars is_ascii_digit (three n) = true) by (unfold three; cbn [all_chars]; by digs).
  split; [done|]. rewrite (parse_i64_digits _ (Z.to_N n) Hd).
  - f_equal. lia.
  - unfold three. cbn [parse_digits parse_digits_go]. digs. f_equal. lia.
  - unfold i64_max. lia.
Qed.

Lemma digits_no_char c s : is_ascii_digit c = false → all_chars is_ascii_digit s = true → no_char c s = true.
Proof.
  intros Hc. apply all_chars_impl. intros x Hx. apply negb_true_iff, bool_decide_eq_false. intros ->. congruence.
Qed.

(** A MySQL TIME is read exactly: the text of any time of up to a million
    hours with microseconds is converted to its milliseconds, rounded down. *)
Theorem mysql_time_exact h m s us :
  (0 ≤ h < 10 ^ 6)%Z → (0 ≤ m < 60)%Z → (0 ≤ s < 60)%Z → (0 ≤ us < 10 ^ 6)%Z →
  parse_mysql_time_ms (mysql_time h m s us) = Some (h * 3600000 + m * 60000 + s * 1000 + us / 1000)%Z.
Proof.
  intros Hh Hm Hs Hus.
  destruct (two_spec m ltac:(lia)) as [Dm Pm]. destruct (two_spec s ltac:(lia)) as [Ds Ps].
  assert (Hus1 : (0 ≤ us / 1000 < 1000)%Z) by (split; [apply Z.div_pos; lia|apply Z.div_lt_upper_bound; lia]).
  destruct (three_spec (us / 1000) Hus1) as [D1 P1].
  destruct (three_spec (us mod 1000) (Z.mod_pos_bound us 1000 ltac:(lia))) as [D2 P2].
  assert (Hhh : ∃ hs, (if decide (h < 100)%Z then two h else decimal (Z.to_N h)) = hs ∧
    all_chars is_ascii_digit hs = true ∧ parse_i64 hs = Some h).
  { eexists. split; [done|]. case_decide; [apply two_spec; lia|]. split; [apply decimal_digits|].
    rewrite (parse_i64_digits _ (Z.to_N h) (decimal_digits _) (parse_decimal _));
      [f_equal; lia|unfold i64_max; lia]. }
  destruct Hhh as (hs & Eh & Dh & Ph). unfold mysql_time. rewrite Eh.
  unfold parse_mysql_time_ms, split3.
  set (fr := three (us / 1000) +:+ three (us mod 1000)).
  assert (Dfr : all_chars is_ascii_digit fr = true) by (unfold fr; by rewrite all_chars_app, D1, D2).
  rewrite (proj2 (split_once_spec ":"%char _ hs (two m +:+ ":" +:+ two s +:+ "." +:+ fr)));
    [|split; [done|by apply digits_no_char]].
  rewrite (proj2 (split_once_spec ":"%char _ (two m) (two s +:+ "." +:+ fr)));
    [|split; [done|by apply digits_no_char]].
  assert (split_first ":"%char (two s +:+ "." +:+ fr) = two s +:+ "." +:+ fr) as ->.
  { unfold split_first. destruct (split_once _ _) as [[a b]|] eqn:E; [|done]. exfalso.
    apply split_once_spec in E as [E _].
    assert (Hno : no_char ":"%char (two s +:+ "." +:+ fr) = true).
    { pose proof (digits_no_char ":"%char (two s) eq_refl Ds) as N1.
      pose proof (digits_no_char ":"%char fr eq_refl Dfr) as N2.
      unfold no_char in *. rewrite !all_chars_app, N1, N2. reflexivity. }
    rewrite E in Hno. unfold no_char in Hno. rewrite all_chars_app in Hno. cbn in Hno.
    by rewrite andb_false_r in Hno. }
  cbn [mbind option_bind default from_option].
  rewrite (proj2 (split_once_spec "."%char _ (two s) fr)); [|split; [done|by apply digits_no_char]].
  assert (E3 : String.substring 0 3 (pad_right6 fr) = three (us / 1000)) by reflexivity.
  assert (Eg : ∃ c, String.get 3 (pad_right6 fr) = Some c ∧ is_ascii_digit c = true).
  { eexists. split; [reflexivity|]. cbn in D2. by apply andb_true_iff in D2 as [D2 _]. }
  destruct Eg as (c & -> & Dc). destruct (is_digit_not c Dc) as (_ & _ & _ & _ & ->).
  change (is_empty fr) with false. cbn iota. rewrite E3, Ph, Pm, Ps, P1. cbn. f_equal.
  rewrite as_i64_id; [done|]. unfold i64_max. lia.
Qed.

Example mysql_time_exact_witness :
  parse_mysql_time_ms (mysql_time 26 7 5 123456) = Some 94025123%Z ∧
  mysql_time 26 7 5 123456 = "26:07:05.123456".
Proof.
  split; [|vm_compute; reflexivity].
  rewrite (mysql_time_exact 26 7 5 123456) by lia. reflexivity.
Defined.
