(* ===== verification/Reports.v ===== *)
(** * Slow-query reports (crates/automation/src/report_writer.rs, and the
    query-stats and report handlers of handler.rs)

    The weekly report aggregates the samples of a rolling window of seven days
    into one row of [reports]; a window that already has one reuses it.  The
    ticker asks every hour whether one is due.  The handlers read samples,
    summaries and reports, page by page.

    A JSON value is stored as the text [print] gives; SQLite's REAL and the
    week-over-week percentage are IEEE bits computed by parameters; chrono's
    ISO week is a parameter.  [Answers] says which statements of one generation
    SQLite executes. *)

From Stdlib Require Import Ascii String.
From stdpp Require Import strings sorting.
From S2P Require Import Prelude RustStr Clock Json BTree QueryStats.

Definition SLOW_QUERY_WEEKLY : string := "slow_query_weekly".
Definition WINDOW_DAYS : Z := 7.
Definition TOP_N : Z := 10.

(** A row of [reports]. *)
Record Report := {
  rep_id : string; rep_type : string; rep_title : string; rep_content : string;
  generated_at : string }.
Notation Reports := (list Report).

Record GeneratedReport := { gen_id : string; created : bool }.

(** [latest_report]: the newest of a type. *)
Definition newest_report (rs : Reports) : option Report :=
  foldr (λ r acc, match acc with
                  | Some b => if text_le b.(generated_at) r.(generated_at) then Some r else Some b
                  | None => Some r
                  end) None rs.
Definition latest_report (ty : string) (rs : Reports) : option (string * string) :=
  (λ r, (r.(rep_id), r.(generated_at))) <$> newest_report (filter (λ r, r.(rep_type) = ty) rs).

(** Which statements succeed. *)
Record Answers := {
  latest_ok : bool; oldest_ok : bool; summary_ok : bool; previous_ok : bool; top_ok : bool;
  connections_ok : bool; days_ok : bool; insert_ok : bool }.

Definition sql {A} (ok : bool) (a : option A) : result string A :=
  if ok then ok_or a "integer overflow" else Err "database error".

(** SUM over a column of a group, and the statement's row for every group. *)
Definition sums (rows : list InsertRow) : option (Z * Z) :=
  n ← sum_i64 (queries <$> rows); t ← sum_i64 (r_elapsed_ms <$> rows); Some (n, t).
Definition grouped {K} `{EqDecision K} (key : InsertRow → K) (rows : list InsertRow)
    : option (list (K * (Z * Z))) :=
  mapM (λ k, pair k <$> sums (group_by key k rows)) (remove_dups (key <$> rows)).

(** ORDER BY an integer or a text column. *)
Definition desc_by {A} (f : A → Z) (x y : A) : Prop := (f y ≤ f x)%Z.
Definition text_asc {A} (f : A → string) (x y : A) : Prop := text_le (f x) (f y) = true.
Definition text_desc {A} (f : A → string) (x y : A) : Prop := text_le (f y) (f x) = true.
#[global] Instance desc_by_dec {A} (f : A → Z) x y : Decision (desc_by f x y).
Proof. unfold desc_by. apply _. Defined.
#[global] Instance text_asc_dec {A} (f : A → string) x y : Decision (text_asc f x y).
Proof. unfold text_asc. apply _. Defined.
#[global] Instance text_desc_dec {A} (f : A → string) x y : Decision (text_desc f x y).
Proof. unfold text_desc. apply _. Defined.

(** What a report says, before it is JSON. *)
Record Weekly := {
  w_from : string; w_to : string; w_truncated : bool;
  total_samples : Z; distinct_digests : nat; w_total_ms : Z; error_count : nat; cancelled_count : nat;
  week_over_week : option Z;
  w_top : list (DigestAggRow Z * option string);
  by_connection : list (string * string * (Z * Z));
  by_day : list (string * (Z * Z)) }.

Section Writer.
Context `{TimestampCodec} (real_div : Z → Z → Z) (real_le : Z → Z → bool) (pct : Z → Z → Z)
  (print : json → string) (iso_week : Z → Z * Z).

Definition since (from : string) (t : list InsertRow) : list InsertRow :=
  filter (λ r, text_le from r.(r_captured_at) = true) t.

(** MIN(captured_at): absent on an empty table or when the statement fails. *)
Definition oldest (ok : bool) (t : list InsertRow) : option string :=
  if ok then match r_captured_at <$> t with [] => None | x :: xs => Some (foldr text_min x xs) end
  else None.

(** The total of the seven days before, when its statement succeeds. *)
Definition previous_total (ok : bool) (from : string) (t : list InsertRow) : option Z :=
  prev_to ← parse_rfc3339 from;
  let prev_from := to_rfc3339 (prev_to - WINDOW_DAYS * DAY)%Z in
  let rows := filter (λ r, text_le prev_from r.(r_captured_at) = true ∧
                           text_lt r.(r_captured_at) from = true) t in
  if ok then match rows with [] => None | _ => sum_i64 (r_elapsed_ms <$> rows) end else None.

Definition status_count (s : string) (rows : list InsertRow) : nat :=
  length (filter (λ r, r.(r_status) = s) rows).

Definition weekly (a : Answers) (now : Z) (t : list InsertRow) : result string Weekly :=
  let window_to := to_rfc3339 now in
  let window_from := to_rfc3339 (now - WINDOW_DAYS * DAY)%Z in
  let '(from, truncated) :=
    match oldest a.(oldest_ok) t with
    | Some o => if text_lt window_from o then (o, true) else (window_from, false)
    | None => (window_from, false)
    end in
  let rows := since from t in
  s ← sql a.(summary_ok) (sums rows);
  let '(total_samples, total_ms) := s in
  let wow := match previous_total a.(previous_ok) from t with
             | Some p => if bool_decide (0 < p ∧ 0 < total_ms)%Z then Some (pct total_ms p) else None
             | None => None
             end in
  top ← (if a.(top_ok) then aggregate real_div real_le from None SumElapsed TOP_N t
         else Err "database error");
  let top := (λ g, (g, latest_sample g.(digest) g.(conn_id) t)) <$> top in
  conns ← sql a.(connections_ok) (grouped (λ r, (r.(r_conn_id), r.(r_db_kind))) rows);
  days ← sql a.(days_ok) (grouped (λ r, take_chars 10 r.(r_captured_at)) rows);
  Ok {| w_from := from; w_to := window_to; w_truncated := truncated;
        total_samples := total_samples; distinct_digests := length (remove_dups (r_digest <$> rows));
        w_total_ms := total_ms; error_count := status_count "error" rows;
        cancelled_count := status_count "cancelled" rows; week_over_week := wow; w_top := top;
        by_connection := merge_sort (desc_by (λ x, x.2.2)) conns;
        by_day := merge_sort (text_asc fst) days |}.

(** The stored document. *)
Definition top_json (e : DigestAggRow Z * option string) : json :=
  let '(g, sample) := e in
  JObj [("digest", JStr g.(digest)); ("db_kind", JStr g.(db_kind)); ("conn_id", JStr g.(conn_id));
        ("count", JInt g.(count)); ("total_ms", JInt g.(total_ms)); ("avg_ms", JFloat g.(avg_ms));
        ("max_ms", JInt g.(max_ms)); ("sample_sql_text", jopt JStr sample)].
Definition content (w : Weekly) : json :=
  JObj [("content_version", JInt 1); ("report_type", JStr SLOW_QUERY_WEEKLY);
        ("window_from", JStr w.(w_from)); ("window_to", JStr w.(w_to));
        ("window_truncated", JBool w.(w_truncated));
        ("summary", JObj [
          ("total_samples", JInt w.(total_samples));
          ("distinct_digests", JInt (Z.of_nat w.(distinct_digests)));
          ("total_ms", JInt w.(w_total_ms));
          ("error_count", JInt (Z.of_nat w.(error_count)));
          ("cancelled_count", JInt (Z.of_nat w.(cancelled_count)));
          ("week_over_week_pct", jopt JFloat w.(week_over_week))]);
        ("top", JArr (top_json <$> w.(w_top)));
        ("by_connection", JArr ((λ '(c, k, (n, t)),
          JObj [("conn_id", JStr c); ("db_kind", JStr k); ("count", JInt n); ("total_ms", JInt t)])
          <$> w.(by_connection)));
        ("by_day", JArr ((λ '(d, (n, t)),
          JObj [("date", JStr d); ("count", JInt n); ("total_ms", JInt t)]) <$> w.(by_day)))].

(** ["{}-W{:02}"] of a year and a week. *)
Definition pad2 (n : Z) : string :=
  if (n <? 10)%Z then "0" +:+ decimal (Z.to_N n) else decimal (Z.to_N n).
Definition weekly_title (now : Z) : string :=
  "Slow query weekly · " +:+ decimal (Z.to_N (iso_week now).1) +:+ "-W" +:+ pad2 (iso_week now).2.

(** [generate_slow_query_report]. *)
Definition generate (a : Answers) (now : Z) (id : string) (t : list InsertRow) (rs : Reports)
    : result string GeneratedReport * Reports :=
  let window_from := to_rfc3339 (now - WINDOW_DAYS * DAY)%Z in
  if negb a.(latest_ok) then (Err "database error", rs) else
  let fresh := match latest_report SLOW_QUERY_WEEKLY rs with
               | Some (rid, at_) => if text_lt window_from at_ then Some rid else None
               | None => None
               end in
  match fresh with
  | Some rid => (Ok {| gen_id := rid; created := false |}, rs)
  | None =>
      match weekly a now t with
      | Err e => (Err e, rs)
      | Ok w =>
          if a.(insert_ok)
          then (Ok {| gen_id := id; created := true |},
                rs ++ [{| rep_id := id; rep_type := SLOW_QUERY_WEEKLY; rep_title := weekly_title now;
                          rep_content := print (content w); generated_at := to_rfc3339 now |}])
          else (Err "database error", rs)
      end
  end.

(** One turn of [spawn_weekly]: [count_ok] says whether the count succeeds; the
    generation reads the clock again, at [now']. *)
Definition weekly_tick (a a' : Answers) (count_ok : bool) (now now' : Z) (id : string)
    (t : list InsertRow) (rs : Reports) : Reports :=
  let horizon := to_rfc3339 (now - WINDOW_DAYS * DAY)%Z in
  if negb a.(latest_ok) then rs else
  let due := match latest_report SLOW_QUERY_WEEKLY rs with
             | Some (_, at_) => text_le at_ horizon
             | None => count_ok && (0 <? length (since horizon t))
             end in
  if due then (generate a' now' id t rs).2 else rs.
End Writer.

(** ** Handlers *)

(** A response: the status and the data, or the code of the error. *)
Definition Response : Type := result (Z * string) json.

(** [generate_report]; [blocked] is the answer of the entitlement gate. *)
Definition generate_report (blocked : option (Z * string)) (report_type : option string)
    (gen : Reports → result string GeneratedReport * Reports) (rs : Reports) : Response * Reports :=
  match blocked with
  | Some e => (Err e, rs)
  | None =>
      if bool_decide (report_type = None ∨ report_type = Some SLOW_QUERY_WEEKLY)
      then match gen rs with
           | (Ok g, rs') => (Ok (JObj [("id", JStr g.(gen_id)); ("created", JBool g.(created));
                                       ("report_type", JStr SLOW_QUERY_WEEKLY)]), rs')
           | (Err _, rs') => (Err (500%Z, "REPORT_GENERATION_FAILED"), rs')
           end
      else (Err (400%Z, "UNKNOWN_REPORT_TYPE"), rs)
  end.

Definition HOUR : Z := 3600 * SECOND.
(** [query_stats_window], [query_stats_sort_expr]: whitelists with a default. *)
Definition query_stats_window (raw : option string) : Z :=
  if decide (raw = Some "1h") then HOUR
  else if decide (raw = Some "7d") then 7 * DAY else 24 * HOUR.
Definition query_stats_sort_expr (raw : option string) : SortExpr :=
  if decide (raw = Some "count") then CountRows
  else if decide (raw = Some "avg_ms") then AvgElapsed
  else if decide (raw = Some "max_ms") then MaxElapsed else SumElapsed.

(** [i64::clamp], and the page of a list handler. *)
Definition clamp (lo hi n : Z) : Z := if (n <? lo)%Z then lo else if (hi <? n)%Z then hi else n.
Definition page {A} (limit offset : Z) (l : list A) : list A :=
  take (Z.to_nat limit) (drop (Z.to_nat offset) l).

Definition QUERY_STATS_SUMMARY_DEFAULT_LIMIT : Z := 20.
Definition QUERY_STATS_SUMMARY_MAX_LIMIT : Z := 100.
Definition QUERY_STATS_DEFAULT_LIMIT : Z := 50.
Definition QUERY_STATS_MAX_LIMIT : Z := 200.

(** [query_stats_summary]: the lines with a sample each, and the window's start. *)
Definition query_stats_summary `{TimestampCodec} (real_div : Z → Z → Z) (real_le : Z → Z → bool)
    (ok : bool) (now : Z) (window conn sort : option string) (limit : option Z) (t : list InsertRow)
    : result string (list (DigestAggRow Z * option string) * string) :=
  let from := to_rfc3339 (now - query_stats_window window)%Z in
  let limit := clamp 1 QUERY_STATS_SUMMARY_MAX_LIMIT (default QUERY_STATS_SUMMARY_DEFAULT_LIMIT limit) in
  if ok then
    match aggregate real_div real_le from conn (query_stats_sort_expr sort) limit t with
    | Ok groups => Ok ((λ g, (g, latest_sample g.(digest) g.(conn_id) t)) <$> groups, from)
    | Err _ => Err "DB_ERROR"
    end
  else Err "DB_ERROR".

Definition opt_eq {A} `{EqDecision A} (o : option A) (a : A) : bool :=
  match o with None => true | Some x => bool_decide (a = x) end.

(** [query_stats_list]: items, total, limit, offset. *)
Definition query_stats_list `{TimestampCodec} (rows_ok total_ok : bool) (now : Z)
    (window conn dig status : option string) (limit offset : option Z) (t : list InsertRow)
    : result string (list InsertRow * nat * Z * Z) :=
  let from := to_rfc3339 (now - query_stats_window window)%Z in
  let limit := clamp 1 QUERY_STATS_MAX_LIMIT (default QUERY_STATS_DEFAULT_LIMIT limit) in
  let offset := Z.max (default 0%Z offset) 0 in
  let rows := filter (λ r, text_le from r.(r_captured_at) && opt_eq conn r.(r_conn_id)
                           && opt_eq dig r.(r_digest) && opt_eq status r.(r_status) = true) t in
  if rows_ok && total_ok
  then Ok (page limit offset (merge_sort (text_desc r_captured_at) rows),
           length rows, limit, offset)
  else Err "DB_ERROR".

Definition REPORTS_DEFAULT_LIMIT : Z := 50.
Definition REPORTS_MAX_LIMIT : Z := 200.
Definition list_reports (rows_ok total_ok : bool) (ty : option string) (limit offset : option Z)
    (rs : Reports) : result string (list Report * nat * Z * Z) :=
  let limit := clamp 1 REPORTS_MAX_LIMIT (default REPORTS_DEFAULT_LIMIT limit) in
  let offset := Z.max (default 0%Z offset) 0 in
  let rows := filter (λ r, opt_eq ty r.(rep_type) = true) rs in
  if rows_ok && total_ok
  then Ok (page limit offset (merge_sort (text_desc generated_at) rows),
           length rows, limit, offset)
  else Err "DB_ERROR".

Definition get_report (ok : bool) (id : string) (rs : Reports) : result string Report :=
  if ok then match filter (λ r, r.(rep_id) = id) rs with r :: _ => Ok r | [] => Err "NOT_FOUND" end
  else Err "DB_ERROR".

(** ** The numbers of a report *)

Lemma grouped_spec {K} `{EqDecision K} (key : InsertRow → K) rows gs :
  grouped key rows = Some gs →
  gs.*1 = remove_dups (key <$> rows) ∧
  sum ((λ g, g.2.1) <$> gs) = sum (queries <$> rows) ∧
  sum ((λ g, g.2.2) <$> gs) = sum (r_elapsed_ms <$> rows).
Proof.
  unfold grouped. intros H%mapM_Some_1.
  cut (gs.*1 = remove_dups (key <$> rows) ∧
    (λ g, g.2.1) <$> gs = (λ k, sum (queries <$> group_by key k rows)) <$> remove_dups (key <$> rows) ∧
    (λ g, g.2.2) <$> gs = (λ k, sum (r_elapsed_ms <$> group_by key k rows)) <$> remove_dups (key <$> rows)).
  { intros (H1 & -> & ->). split; [done|].
    split; apply sum_groups; first [apply NoDup_remove_dups|
      intros r Hr; by apply elem_of_remove_dups, list_elem_of_fmap_2]. }
  induction H as [|k p ks gs Hp _ (IH1 & IH2 & IH3)]; [done|].
  apply fmap_Some in Hp as ([n t] & Hs & ->). unfold sums in Hs.
  apply bind_Some in Hs as (n' & Hn & Hs). apply bind_Some in Hs as (t' & Ht & [= <- <-]).
  apply sum_i64_spec in Hn, Ht. rewrite !fmap_cons, IH1, IH2, IH3, Hn, Ht. done.
Qed.

Lemma foldr_text_min_le x xs y : y ∈ x :: xs → text_le (foldr text_min x xs) y = true.
Proof.
  assert (Hm : ∀ a b, text_le (text_min a b) a = true ∧ text_le (text_min a b) b = true).
  { intros a b. unfold text_min, text_le, text_lt.
    destruct (key_compare_spec b a); split; key_cases. }
  induction xs as [|z xs IH]; cbn.
  - intros ->%list_elem_of_singleton. unfold text_le, text_lt. by rewrite key_compare_refl.
  - intros Hy. destruct (Hm z (foldr text_min x xs)) as [H1 H2].
    apply elem_of_cons in Hy as [->|Hy].
    + eapply text_le_trans; [exact H2|]. apply IH. left.
    + apply elem_of_cons in Hy as [->|Hy]; [exact H1|].
      eapply text_le_trans; [exact H2|]. apply IH. by right.
Qed.

Lemma sql_ok {A} ok (o : option A) a : sql ok o = Ok a → o = Some a.
Proof. unfold sql. destruct ok; [|done]. destruct o; cbn; congruence. Qed.

(** A weekly report adds up: its breakdowns by connection and by day each
    sum to its total time and its number of queries, which are those of the
    samples since its window's start; it lists at most ten digests; and when it
    says its window is cut short, no sample is older than the start it names. *)
Theorem weekly_adds_up `{TimestampCodec} real_div real_le pct a now t w :
  weekly real_div real_le pct a now t = Ok w →
  let rows := since w.(w_from) t in
  w.(total_samples) = sum (queries <$> rows) ∧ w.(w_total_ms) = sum (r_elapsed_ms <$> rows) ∧
  sum ((λ c, c.2.1) <$> w.(by_connection)) = w.(total_samples) ∧
  sum ((λ c, c.2.2) <$> w.(by_connection)) = w.(w_total_ms) ∧
  sum ((λ d, d.2.1) <$> w.(by_day)) = w.(total_samples) ∧
  sum ((λ d, d.2.2) <$> w.(by_day)) = w.(w_total_ms) ∧
  NoDup w.(by_day).*1 ∧ NoDup w.(by_connection).*1 ∧
  length w.(w_top) ≤ 10 ∧
  (w.(w_truncated) = true → ∀ r, r ∈ t → text_le w.(w_from) r.(r_captured_at) = true).
Proof.
  unfold weekly. set (wf := to_rfc3339 _).
  destruct (match oldest (oldest_ok a) t with Some o => _ | None => _ end) as [from truncated] eqn:Ef.
  intros Hw. apply bind_ok_inv in Hw as ([n tot] & Hs%sql_ok & Hw).
  apply bind_ok_inv in Hw as (top & Htop & Hw).
  apply bind_ok_inv in Hw as (conns & Hc%sql_ok & Hw).
  apply bind_ok_inv in Hw as (days & Hd%sql_ok & [= <-]). cbn.
  unfold sums in Hs. apply bind_Some in Hs as (n' & Hn & Hs).
  apply bind_Some in Hs as (t' & Ht & [= <- <-]). apply sum_i64_spec in Hn, Ht.
  apply grouped_spec in Hc as (Hc1 & Hc2 & Hc3). apply grouped_spec in Hd as (Hd1 & Hd2 & Hd3).
  assert (Hperm : ∀ {A} R `{∀ x y, Decision (R x y)} (f : A → Z) l, sum (f <$> merge_sort R l) = sum (f <$> l))
    by (intros; apply sum_perm; by rewrite merge_sort_Permutation).
  rewrite !Hperm, !merge_sort_Permutation, Hc1, Hc2, Hc3, Hd1, Hd2, Hd3, Hn, Ht.
  split_and!; [done..|apply NoDup_remove_dups|apply NoDup_remove_dups| |].
  - rewrite length_fmap. destruct (top_ok a); [|done].
    unfold aggregate in Htop. destruct (group_rows _ _ _ _); [|done]. simplify_eq.
    unfold sql_limit, TOP_N. rewrite length_fmap, decide_False by lia. rewrite length_take. lia.
  - intros ->. unfold oldest in Ef. destruct (oldest_ok a); [|simplify_eq].
    destruct (r_captured_at <$> t) as [|x xs] eqn:Ex; [simplify_eq|].
    destruct (text_lt wf _); simplify_eq. intros r Hr. apply foldr_text_min_le.
    rewrite <- Ex. by apply list_elem_of_fmap_2.
Qed.

(** ** Reports are a week apart *)

(** RFC 3339 instants in UTC, with a four-digit year, compare as text the way
    they compare in time (chrono prints fractions after the seconds, and the
    offset's sign sorts before the dot and the digits). *)
Class TimestampOrder (C : TimestampCodec) : Prop :=
  order_text : ∀ a b, (ts_min ≤ a ≤ ts_max)%Z → (ts_min ≤ b ≤ ts_max)%Z →
    text_lt (to_rfc3339 a) (to_rfc3339 b) = (a <? b)%Z.

(** A generation asked for by hand, or one turn of the ticker (which reads the
    clock again when it generates). *)
Record Event := {
  e_tick : bool; e_now : Z; e_now' : Z; e_id : string; e_answers : Answers; e_answers' : Answers;
  e_count_ok : bool; e_table : list InsertRow }.

Section Run.
Context `{Codec : TimestampCodec} (real_div : Z → Z → Z) (real_le : Z → Z → bool) (pct : Z → Z → Z)
  (print : json → string) (iso_week : Z → Z * Z).

Definition report_step (e : Event) (rs : Reports) : Reports :=
  if e.(e_tick)
  then weekly_tick real_div real_le pct print iso_week e.(e_answers) e.(e_answers') e.(e_count_ok)
         e.(e_now) e.(e_now') e.(e_id) e.(e_table) rs
  else (generate real_div real_le pct print iso_week e.(e_answers') e.(e_now') e.(e_id) e.(e_table) rs).2.
Definition report_run (es : list Event) (rs : Reports) : Reports := foldl (λ rs e, report_step e rs) rs es.

(** Events in the order of their clock readings, far enough from the ends of
    the calendar. *)
Fixpoint in_order (last : Z) (es : list Event) : Prop :=
  match es with
  | [] => True
  | e :: es' => (last ≤ e.(e_now) ≤ e.(e_now'))%Z ∧ (ts_min + WINDOW_DAYS * DAY ≤ e.(e_now))%Z ∧
                (e.(e_now') ≤ ts_max)%Z ∧ in_order e.(e_now') es'
  end.

Definition week_apart (times : list Z) : Prop := StronglySorted (λ a b, a + WINDOW_DAYS * DAY ≤ b)%Z times.

(** The reports of the weekly type were generated at [times], up to [last]. *)
Definition spaced (last : Z) (rs : Reports) : Prop :=
  ∃ times, generated_at <$> filter (λ r, r.(rep_type) = SLOW_QUERY_WEEKLY) rs = to_rfc3339 <$> times ∧
    week_apart times ∧ Forall (λ t, ts_min ≤ t ≤ last)%Z times.

Lemma newest_report_spec rs :
  match newest_report rs with
  | Some b => b ∈ rs ∧ ∀ r, r ∈ rs → text_le r.(generated_at) b.(generated_at) = true
  | None => rs = []
  end.
Proof.
  induction rs as [|r rs IH]; [done|]. cbn. fold (newest_report rs).
  assert (Hrefl : ∀ a, text_le a a = true) by (intros; unfold text_le, text_lt; by rewrite key_compare_refl).
  destruct (newest_report rs) as [b|].
  - destruct IH as [Hb IH]. destruct (text_le (generated_at b) (generated_at r)) eqn:E.
    + split; [left|]. intros x [->|Hx]%elem_of_cons; [done|]. eapply text_le_trans; [by apply IH|done].
    + split; [by right|]. intros x [->|Hx]%elem_of_cons; [|by apply IH].
      destruct (text_le_total r.(generated_at) b.(generated_at)); congruence.
  - subst rs. split; [left|]. intros x ->%list_elem_of_singleton. done.
Qed.

Lemma generate_spaced `{!TimestampOrder Codec} last a now id t rs :
  (last ≤ now)%Z → (ts_min + WINDOW_DAYS * DAY ≤ now ≤ ts_max)%Z → spaced last rs →
  spaced now (generate real_div real_le pct print iso_week a now id t rs).2.
Proof.
  intros Hlast Hnow (times & Hg & Hs & Hr).
  assert (Hkeep : spaced now rs).
  { exists times. split_and!; [done..|]. eapply Forall_impl; [exact Hr|]. cbn. lia. }
  unfold generate. destruct (negb _); [done|]. cbn zeta.
  destruct (match latest_report _ _ with Some _ => _ | None => _ end) as [rid|] eqn:E; [done|].
  destruct (weekly _ _ _ _ _ _) as [w|e]; [|done]. destruct (insert_ok a); [|done]. cbn [snd].
  exists (times ++ [now]). rewrite filter_app, !fmap_app, Hg.
  split; [by rewrite filter_cons_True|]. split.
  - apply StronglySorted_app_2; [|done|repeat constructor]. intros x y Hx ->%list_elem_of_singleton.
    unfold latest_report in E.
    pose proof (newest_report_spec (filter (λ r, r.(rep_type) = SLOW_QUERY_WEEKLY) rs)) as Hn.
    destruct (newest_report _) as [b|].
    + destruct Hn as [Hb Hn]. cbn in E. destruct (text_lt _ _) eqn:Elt; [done|].
      assert (Hbt : generated_at b ∈ to_rfc3339 <$> times) by (rewrite <- Hg; by apply list_elem_of_fmap_2).
      apply list_elem_of_fmap in Hbt as (tb & Eb & Htb). rewrite Eb in Elt.
      rewrite Forall_forall in Hr. pose proof (Hr x Hx) as Hxr. pose proof (Hr tb Htb) as Htbr. cbn in Hxr, Htbr.
      assert (0 < DAY)%Z by (unfold DAY, SECOND; lia).
      rewrite order_text in Elt by (unfold WINDOW_DAYS in *; lia). apply Z.ltb_ge in Elt.
      assert (Hxle : text_le (to_rfc3339 x) (to_rfc3339 tb) = true).
      { assert (Hxin : to_rfc3339 x ∈ to_rfc3339 <$> times) by (by apply list_elem_of_fmap_2).
        rewrite <- Hg in Hxin. apply list_elem_of_fmap in Hxin as (r & -> & Hrin). rewrite <- Eb. by apply Hn. }
      unfold text_le in Hxle. rewrite order_text in Hxle by lia.
      apply negb_true_iff, Z.ltb_ge in Hxle. lia.
    + rewrite Hn in Hg. destruct times; [by apply elem_of_nil in Hx|done].
  - apply Forall_app. split; [eapply Forall_impl; [exact Hr|]; cbn; lia|].
    constructor; [|done]. unfold WINDOW_DAYS, DAY, SECOND in *. lia.
Qed.

(** The weekly report is weekly: whatever mixture of requests and ticker
    turns, over whatever samples and with whatever statements failing, run one
    after the other from an empty table, any two slow-query reports are at least
    seven days apart. *)
Theorem reports_week_apart `{!TimestampOrder Codec} start es :
  in_order start es →
  ∃ times, generated_at <$> filter (λ r, r.(rep_type) = SLOW_QUERY_WEEKLY) (report_run es [])
             = to_rfc3339 <$> times ∧ week_apart times.
Proof.
  intros Hord.
  assert (H : ∀ es last rs, in_order last es → spaced last rs → ∃ l', spaced l' (report_run es rs)).
  { clear start es Hord. induction es as [|e es IH]; intros last rs Hord Hs; [by exists last|].
    destruct Hord as ((H1 & H2) & H3 & H4 & Hord). cbn.
    apply (IH e.(e_now')); [done|]. unfold report_step.
    assert (Hg : ∀ a, spaced (e_now' e) (generate real_div real_le pct print iso_week a (e_now' e) (e_id e) (e_table e) rs).2)
      by (intros a; apply (generate_spaced last); [lia|lia|done]).
    destruct (e_tick e); [|apply Hg].
    assert (Hkeep : spaced (e_now' e) rs).
    { destruct Hs as (times & Hg' & Hs & Hr). exists times. split_and!; [done..|].
      eapply Forall_impl; [exact Hr|]. cbn. lia. }
    unfold weekly_tick. destruct (negb _); [done|]. cbn zeta.
    destruct (match latest_report _ _ with Some _ => _ | None => _ end); [apply Hg|done]. }
  destruct (H es start [] Hord) as (l' & times & Ht & Hw & _).
  - exists []. split_and!; [done|constructor..].
  - by exists times.
Qed.
End Run.

(** ** A concrete clock text: fixed-width binary digits *)

Fixpoint be_bits (n : nat) (z : Z) : string :=
  match n with
  | O => ""
  | S k => String (if (2 ^ Z.of_nat k <=? z)%Z then "1" else "0")%char
                  (be_bits k (if (2 ^ Z.of_nat k <=? z)%Z then z - 2 ^ Z.of_nat k else z)%Z)
  end.
Definition fixed_codec : TimestampCodec :=
  {| parse_rfc3339 := λ _, None; to_rfc3339 := λ z, be_bits 70 (z - ts_min)%Z |}.

Lemma be_bits_compare n a b : (0 ≤ a < 2 ^ Z.of_nat n)%Z → (0 ≤ b < 2 ^ Z.of_nat n)%Z →
  key_compare (be_bits n a) (be_bits n b) = (a ?= b)%Z.
Proof.
  revert a b. induction n as [|n IH]; intros a b Ha Hb.
  - cbn in *. assert (a = 0 ∧ b = 0)%Z as [-> ->] by lia. done.
  - rewrite Nat2Z.inj_succ, Z.pow_succ_r in Ha, Hb by lia. cbn [be_bits].
    unfold key_compare in *. cbn [OrdersEx.String_as_OT.compare].
    destruct (Z.leb_spec (2 ^ Z.of_nat n) a), (Z.leb_spec (2 ^ Z.of_nat n) b); cbn.
    + rewrite IH by lia. destruct (Z.compare_spec (a - 2 ^ Z.of_nat n) (b - 2 ^ Z.of_nat n)),
        (Z.compare_spec a b); done || lia.
    + symmetry. apply Z.compare_gt_iff. lia.
    + symmetry. apply Z.compare_lt_iff. lia.
    + apply IH; lia.
Qed.

#[global] Instance fixed_codec_order : TimestampOrder fixed_codec.
Proof.
  intros a b Ha Hb. unfold text_lt. cbn [to_rfc3339 fixed_codec].
  assert (ts_max - ts_min < 2 ^ Z.of_nat 70)%Z by (vm_compute; reflexivity).
  rewrite be_bits_compare by lia. unfold Z.ltb.
  unfold Z.sub. by rewrite (Z.add_comm a), (Z.add_comm b), Z.add_compare_mono_l.
Qed.

(** ** Witnesses *)

Notation all_ok := {| latest_ok := true; oldest_ok := true; summary_ok := true; previous_ok := true;
  top_ok := true; connections_ok := true; days_ok := true; insert_ok := true |}.
Notation ex_sample id conn d ms at_ := {| r_id := id; r_source := "gateway"; r_conn_id := conn;
  r_db_kind := "mysql"; r_database := None; r_digest := d; r_sql_text := None; r_elapsed_ms := ms;
  r_row_count := None; r_affected_rows := None; r_query_count := None; r_status := "ok";
  r_error_code := None; r_user_id := None; r_entry := "sync_query"; r_captured_at := at_ |}.
Notation ex_day n := (1700000000 * SECOND + n * DAY)%Z.
Notation ex_samples := [ex_sample "1" "c1" "A" 600%Z (@to_rfc3339 fixed_codec (ex_day 29));
  ex_sample "2" "c2" "A" 700%Z (@to_rfc3339 fixed_codec (ex_day 30))].
Notation ex_event tick n := {| e_tick := tick; e_now := ex_day n; e_now' := ex_day n + 1; e_id := "r";
  e_answers := all_ok; e_answers' := all_ok; e_count_ok := true; e_table := ex_samples |}%Z.
Notation ex_events := [ex_event true 30%Z; ex_event false 31%Z; ex_event true 38%Z].
Notation ex_weekly := (@weekly fixed_codec (λ a b, a / b)%Z Z.leb (λ a b, a - b)%Z all_ok (ex_day 30%Z) ex_samples).

Example weekly_adds_up_witness :
  ∃ w, ex_weekly = Ok w ∧ sum ((λ c, c.2.2) <$> w.(by_connection)) = 1300%Z ∧ length w.(by_connection) = 2.
Proof.
  destruct ex_weekly as [w|] eqn:E; [|vm_compute in E; discriminate].
  exists w. split; [done|].
  destruct (@weekly_adds_up fixed_codec _ _ _ _ _ _ _ E) as (_ & _ & _ & -> & _).
  vm_compute in E. injection E as <-. split; vm_compute; reflexivity.
Defined.

Example reports_week_apart_witness :
  ∃ times, generated_at <$> filter (λ r, r.(rep_type) = SLOW_QUERY_WEEKLY)
      (@report_run fixed_codec (λ a b, a / b)%Z Z.leb (λ a b, a - b)%Z (λ _, "") (λ _, (2026, 1)%Z) ex_events [])
    = @to_rfc3339 fixed_codec <$> times ∧ week_apart times.
Proof.
  apply (@reports_week_apart fixed_codec (λ a b, a / b)%Z Z.leb (λ a b, a - b)%Z (λ _, "") (λ _, (2026, 1)%Z)
    fixed_codec_order 0 ex_events).
  cbn -[Z.mul Z.pow]. unfold ts_min, ts_max, WINDOW_DAYS, DAY, SECOND. lia.
Defined.

Example two_of_three_reports :
  length (@report_run fixed_codec (λ a b, a / b)%Z Z.leb (λ a b, a - b)%Z (λ _, "") (λ _, (2026, 1)%Z) ex_events []) = 2.
Proof. by vm_compute. Qed.

(** ** Pages *)

Lemma pages_concat {A} (L n : nat) (l : list A) :
  length l ≤ n * L → concat ((λ i, take L (drop (i * L) l)) <$> seq 0 n) = l.
Proof.
  revert l. induction n as [|n IH]; intros l Hl; [destruct l; [done|cbn in Hl; lia]|].
  cbn [seq]. rewrite fmap_cons. cbn [concat]. rewrite drop_0, <- fmap_S_seq, <- list_fmap_compose.
  transitivity (take L l ++ drop L l); [|apply take_drop]. f_equal.
  rewrite <- (IH (drop L l)) by (rewrite length_drop; lia).
  f_equal. apply list_fmap_ext. intros i x _. cbn. by rewrite drop_drop.
Qed.

(** Paging through the samples misses and repeats nothing: with a page size
    in range and the same filters, the pages at successive offsets, up to the
    total the handler reports, put together are the selected samples, newest
    first. *)
Theorem pages_cover_samples `{TimestampCodec} now window conn dig status L n t :
  (1 ≤ L ≤ QUERY_STATS_MAX_LIMIT)%Z →
  ∃ all total,
    (∀ i, query_stats_list true true now window conn dig status (Some L) (Some (Z.of_nat i * L)%Z) t
       = Ok (page L (Z.of_nat i * L) all, total, L, (Z.of_nat i * L)%Z)) ∧
    total = length all ∧ StronglySorted (text_desc r_captured_at) all ∧
    all ≡ₚ filter (λ r, text_le (to_rfc3339 (now - query_stats_window window)%Z) r.(r_captured_at)
             && opt_eq conn r.(r_conn_id) && opt_eq dig r.(r_digest) && opt_eq status r.(r_status) = true) t ∧
    ((Z.of_nat total ≤ Z.of_nat n * L)%Z → concat ((λ i, page L (Z.of_nat i * L) all) <$> seq 0 n) = all).
Proof.
  intros HL. unfold query_stats_list. cbn [default from_option andb].
  set (rows := filter _ t). exists (merge_sort (text_desc r_captured_at) rows), (length rows).
  assert (Total (text_desc r_captured_at)) by (intros x y; unfold text_desc; apply text_le_total).
  assert (Transitive (text_desc r_captured_at))
    by (intros x y z; unfold text_desc; intros; by eapply text_le_trans).
  assert (Hlen : length rows = length (merge_sort (text_desc r_captured_at) rows))
    by (by rewrite merge_sort_Permutation).
  split_and!.
  - intros i. unfold id, clamp, QUERY_STATS_MAX_LIMIT in *.
    destruct (Z.ltb_spec L 1); [lia|]. destruct (Z.ltb_spec 200 L); [lia|].
    by rewrite Z.max_l by lia.
  - done.
  - apply StronglySorted_merge_sort; apply _.
  - apply merge_sort_Permutation.
  - intros Hn.
    transitivity (concat ((λ i, take (Z.to_nat L) (drop (i * Z.to_nat L) (merge_sort (text_desc r_captured_at) rows)))
      <$> seq 0 n)); [|apply pages_concat; lia].
    f_equal. apply list_fmap_ext. intros i x _. unfold page. do 2 f_equal. lia.
Qed.

Example pages_cover_samples_witness :
  ∃ (all : list InsertRow) (total : nat), length all = total ∧
    ((2 ≤ 2)%Z → concat ((λ i, page 1 (Z.of_nat i * 1) all) <$> seq 0 2) = all) ∧ total = 2.
Proof.
  destruct (@pages_cover_samples fixed_codec (ex_day 30%Z) (Some "7d") None (Some "A") None 1 2 ex_samples)
    as (all & total & _ & Ht & _ & Hp & Hc).
  { unfold QUERY_STATS_MAX_LIMIT. lia. }
  assert (total = 2) as ->.
  { rewrite Ht, Hp. vm_compute. reflexivity. }
  exists all, 2. split_and!; [done|exact Hc|done].
Defined.
