(* ===== verification/Workspace.v ===== *)
(** * Workspaces and invitations (crates/core/src/workspace)

    Workspaces, their members and their invite codes.  Every handler is a
    process in the sense of [Interleave]: one step per SQL statement, so any
    two requests interleave, and a request may be lost half-way.

    The tables [workspaces] and [workspace_members] are finite maps on their
    primary keys, with their constraints: a unique invite code, and foreign keys
    with cascade ([db/pool.rs] turns them on).  The user table does not change
    here.  An [Answer] says whether a statement succeeds, and gives the UUID,
    the clock's text and the random code drawn in that step. *)

From S2P Require Import Prelude RustStr AppError Interleave.
From stdpp Require Import strings gmap.

(** ** Tables *)

Record Workspace := {
  w_name : string; owner_id : string; invite_code : string; w_created_at : string }.
Record Member := { m_role : string; joined_at : string }.

Record Db := {
  users : gset string;
  workspaces : gmap string Workspace;
  members : gmap (string * string) Member }.

Definition with_workspaces (f : gmap string Workspace → gmap string Workspace) (d : Db) : Db :=
  {| users := d.(users); workspaces := f d.(workspaces); members := d.(members) |}.
Definition with_members (f : gmap (string * string) Member → gmap (string * string) Member) (d : Db) : Db :=
  {| users := d.(users); workspaces := d.(workspaces); members := f d.(members) |}.

(** ** Statements *)

Definition code_taken (code : string) (d : Db) : bool :=
  bool_decide (map_Exists (λ _ w, w.(invite_code) = code) d.(workspaces)).

(** INSERT INTO workspaces: primary key, unique code, owner's foreign key. *)
Definition insert_workspace (id : string) (w : Workspace) (d : Db) : result string Db :=
  if bool_decide (is_Some (d.(workspaces) !! id)) then Err "UNIQUE constraint failed"
  else if code_taken w.(invite_code) d then Err "UNIQUE constraint failed"
  else if bool_decide (w.(owner_id) ∈ d.(users))
  then Ok (with_workspaces (<[id := w]>) d) else Err "FOREIGN KEY constraint failed".

(** INSERT INTO workspace_members: primary key and both foreign keys. *)
Definition insert_member (ws user : string) (m : Member) (d : Db) : result string Db :=
  if bool_decide (is_Some (d.(members) !! (ws, user))) then Err "UNIQUE constraint failed"
  else if bool_decide (is_Some (d.(workspaces) !! ws)) && bool_decide (user ∈ d.(users))
  then Ok (with_members (<[(ws, user) := m]>) d) else Err "FOREIGN KEY constraint failed".

(** DELETE FROM workspaces, with the cascade to its members. *)
Definition delete_ws (ws : string) (d : Db) : Db :=
  with_members (filter (λ kv, kv.1.1 ≠ ws)) (with_workspaces (delete ws) d).
Definition delete_member (ws user : string) (d : Db) : Db :=
  with_members (delete (ws, user)) d.

Definition role_of (ws user : string) (d : Db) : option string := m_role <$> d.(members) !! (ws, user).
Definition members_of (ws : string) (d : Db) : list (string * Member) :=
  (λ kv, (kv.1.2, kv.2)) <$> filter (λ kv, kv.1.1 = ws) (map_to_list d.(members)).
Definition admin_count (ws : string) (d : Db) : nat :=
  size (filter (λ kv, kv.1.1 = ws ∧ kv.2.(m_role) = "admin") d.(members)).

(** ** Invite codes *)

Definition CHARSET : string := "ABCDEFGHJKMNPQRSTUVWXYZ23456789".
Definition CODE_LENGTH : nat := 6.
(** [generate_code], from the indices the generator draws. *)
Definition generate_code (draws : list nat) : string :=
  foldr (λ i s, match String.get i CHARSET with Some c => String c s | None => s end) ""
    (take CODE_LENGTH draws).

(** ** Handlers *)

(** A process: the handler and where it stands. *)
Inductive Proc : Type :=
| List_ (user : string)
| Create (user name : string)
| CreateCode (user name ws now : string) (attempts : nat)
| CreateInsert (user name ws now code : string)
| CreateAdmin (user name ws now code : string)
| Get (user ws : string)
| GetWorkspace (user ws : string)
| GetMembers (user ws : string) (w : Workspace)
| Delete (user ws : string)
| DeleteRow (user ws : string)
| Join (user ws code : string)
| JoinVerify (user ws code : string)
| JoinMember (user ws code : string)
| JoinInsert (user ws code : string)
| Leave (user ws : string)
| LeaveCount (user ws : string)
| LeaveDelete (user ws : string)
| Remove (user ws target : string)
| RemoveTarget (user ws target : string)
| RemoveCount (user ws target : string)
| RemoveDelete (user ws target : string).

Inductive Body : Type :=
| BList (items : list (string * Workspace * nat * string))
| BCreated (ws : string) (w : Workspace)
| BDetail (ws : string) (w : Workspace) (ms : list (string * Member))
| BNoContent
| BJoined (ws user joined_at : string).
Notation Reply := (result AppError Body).
Notation Outcome := (Db * (Proc + Reply))%type.

Record Answer := { a_ok : bool; a_uuid : string; a_now : string; a_draws : list nat }.

Section Handlers.
(** [str::to_uppercase]. *)
Context (to_uppercase : string → string).

(** [CreateWorkspaceRequest::normalized] and [validate]. *)
Definition normalized (name : string) : string := trim name.
Definition validate (name : string) : result string unit :=
  let name := trim name in
  if is_empty name || (100 <? String.length name)
  then Err "Workspace name must be between 1 and 100 characters." else Ok tt.

(** [verify_invite_code]. *)
Definition verify_invite_code (ws code : string) (d : Db) : bool :=
  match d.(workspaces) !! ws with
  | Some w => bool_decide (to_uppercase w.(invite_code) = to_uppercase (trim code))
  | None => false
  end.

Definition next (d : Db) (p : Proc) : Db * (Proc + Reply) := (d, inl p).
Definition reply (d : Db) (r : Reply) : Db * (Proc + Reply) := (d, inr r).
Definition fail (d : Db) (e : AppError) : Db * (Proc + Reply) := (d, inr (Err e)).

(** A statement that SQLite refuses or cannot run is [AppError::Internal]. *)
Definition stmt (a : Answer) (d : Db) (k : Outcome) : Outcome :=
  if a.(a_ok) then k else fail d (of_sqlx "database error").

Definition list_workspaces (a : Answer) (user : string) (d : Db) : Outcome :=
  stmt a d (reply d (Ok (BList ((λ kv, (kv.1, kv.2, length (members_of kv.1 d), default "" (role_of kv.1 user d)))
    <$> filter (λ kv, is_Some (d.(members) !! (kv.1, user))) (map_to_list d.(workspaces)))))).

Definition create_workspace (a : Answer) (user name : string) (d : Db) : Outcome :=
  let name := normalized name in
  match validate name with
  | Err e => fail d (Validation e)
  | Ok _ => next d (CreateCode user name a.(a_uuid) a.(a_now) 10)
  end.

Definition generate_unique_invite_code (a : Answer) (user name : string) (ws now : string) (attempts : nat) (d : Db) : Outcome :=
  match attempts with
  | O => fail d (Internal "Failed to generate unique invite code after 10 attempts")
  | S k => let code := generate_code a.(a_draws) in
           stmt a d (if code_taken code d then next d (CreateCode user name ws now k)
                 else next d (CreateInsert user name ws now code))
  end.

Definition create_insert (a : Answer) (user name : string) (ws now code : string) (d : Db) : Outcome :=
  stmt a d (match insert_workspace ws {| w_name := name; owner_id := user; invite_code := code; w_created_at := now |} d with
        | Ok d' => next d' (CreateAdmin user name ws now code)
        | Err e => fail d (of_sqlx e)
        end).

Definition create_admin (a : Answer) (user name : string) (ws now code : string) (d : Db) : Outcome :=
  stmt a d (match insert_member ws user {| m_role := "admin"; joined_at := now |} d with
        | Ok d' => reply d' (Ok (BCreated ws {| w_name := name; owner_id := user; invite_code := code; w_created_at := now |}))
        | Err e => fail d (of_sqlx e)
        end).

Definition get_workspace (a : Answer) (user ws : string) (d : Db) : Outcome :=
  stmt a d (match role_of ws user d with
        | None => fail d (Forbidden "You are not a member of this workspace.")
        | Some _ => next d (GetWorkspace user ws)
        end).

Definition get_row (a : Answer) (user ws : string) (d : Db) : Outcome :=
  stmt a d (match d.(workspaces) !! ws with
        | None => fail d (NotFound "Workspace not found.")
        | Some w => next d (GetMembers user ws w)
        end).

Definition get_members (a : Answer) (user ws : string) (w : Workspace) (d : Db) : Outcome :=
  stmt a d (reply d (Ok (BDetail ws w (members_of ws d)))).

Definition delete_workspace (a : Answer) (user ws : string) (d : Db) : Outcome :=
  stmt a d (match role_of ws user d with
        | Some role => if decide (role = "admin") then next d (DeleteRow user ws)
                       else fail d (Forbidden "Only workspace admins can delete the workspace.")
        | None => fail d (NotFound "Workspace not found.")
        end).

Definition delete_row (a : Answer) (user ws : string) (d : Db) : Outcome :=
  stmt a d (reply (delete_ws ws d) (Ok BNoContent)).

Definition join_workspace (a : Answer) (user ws code : string) (d : Db) : Outcome :=
  stmt a d (match d.(workspaces) !! ws with
        | None => fail d (NotFound "Workspace not found.")
        | Some _ => next d (JoinVerify user ws code)
        end).

Definition join_verify (a : Answer) (user ws code : string) (d : Db) : Outcome :=
  stmt a d (if verify_invite_code ws code d then next d (JoinMember user ws code)
        else fail d (Conflict "Invalid invite code.")).

Definition join_check (a : Answer) (user ws code : string) (d : Db) : Outcome :=
  stmt a d (match d.(members) !! (ws, user) with
        | Some _ => fail d (Conflict "You are already a member of this workspace.")
        | None => next d (JoinInsert user ws code)
        end).

Definition join_insert (a : Answer) (user ws code : string) (d : Db) : Outcome :=
  stmt a d (match insert_member ws user {| m_role := "member"; joined_at := a.(a_now) |} d with
        | Ok d' => reply d' (Ok (BJoined ws user a.(a_now)))
        | Err e => fail d (of_sqlx e)
        end).

Definition leave_workspace (a : Answer) (user ws : string) (d : Db) : Outcome :=
  stmt a d (match role_of ws user d with
        | None => fail d (NotFound "You are not a member of this workspace.")
        | Some role => if decide (role = "admin") then next d (LeaveCount user ws)
                       else next d (LeaveDelete user ws)
        end).

Definition leave_count (a : Answer) (user ws : string) (d : Db) : Outcome :=
  stmt a d (if admin_count ws d <=? 1
        then fail d (BusinessRuleViolation "You are the last admin of this workspace. Delete the workspace or promote another member to admin first.")
        else next d (LeaveDelete user ws)).

Definition leave_delete (a : Answer) (user ws : string) (d : Db) : Outcome :=
  stmt a d (reply (delete_member ws user d) (Ok BNoContent)).

Definition remove_member (a : Answer) (user ws target : string) (d : Db) : Outcome :=
  stmt a d (match role_of ws user d with
        | Some role => if decide (role = "admin") then next d (RemoveTarget user ws target)
                       else fail d (Forbidden "Only workspace admins can remove members.")
        | None => fail d (NotFound "Workspace not found.")
        end).

Definition remove_target (a : Answer) (user ws target : string) (d : Db) : Outcome :=
  stmt a d (match role_of ws target d with
        | None => fail d (NotFound "Member not found in this workspace.")
        | Some role => if decide (role = "admin") then next d (RemoveCount user ws target)
                       else next d (RemoveDelete user ws target)
        end).

Definition remove_count (a : Answer) (user ws target : string) (d : Db) : Outcome :=
  stmt a d (if admin_count ws d <=? 1
        then fail d (BusinessRuleViolation "Cannot remove the last admin of the workspace.")
        else next d (RemoveDelete user ws target)).

Definition remove_delete (a : Answer) (user ws target : string) (d : Db) : Outcome :=
  stmt a d (reply (delete_member ws target d) (Ok BNoContent)).

Definition exec (a : Answer) (p : Proc) (d : Db) : Outcome :=
  match p with
  | List_ user => list_workspaces a user d
  | Create user name => create_workspace a user name d
  | CreateCode user name ws now attempts => generate_unique_invite_code a user name ws now attempts d
  | CreateInsert user name ws now code => create_insert a user name ws now code d
  | CreateAdmin user name ws now code => create_admin a user name ws now code d
  | Get user ws => get_workspace a user ws d
  | GetWorkspace user ws => get_row a user ws d
  | GetMembers user ws w => get_members a user ws w d
  | Delete user ws => delete_workspace a user ws d
  | DeleteRow user ws => delete_row a user ws d
  | Join user ws code => join_workspace a user ws code d
  | JoinVerify user ws code => join_verify a user ws code d
  | JoinMember user ws code => join_check a user ws code d
  | JoinInsert user ws code => join_insert a user ws code d
  | Leave user ws => leave_workspace a user ws d
  | LeaveCount user ws => leave_count a user ws d
  | LeaveDelete user ws => leave_delete a user ws d
  | Remove user ws target => remove_member a user ws target d
  | RemoveTarget user ws target => remove_target a user ws target d
  | RemoveCount user ws target => remove_count a user ws target d
  | RemoveDelete user ws target => remove_delete a user ws target d
  end.
End Handlers.

(** ** The system

    Beside the tables, the UUIDs drawn so far, the workspaces whose creation was
    answered, and a log of what was done to whose membership; no handler reads
    these. *)

Inductive Event : Type :=
| Deleted (ws by_ : string)
| Removed (ws target by_ : string)
| Left (ws user : string)
| Joined (ws user code : string).

Record World := {
  tables : Db; drawn : gset string; announced : gmap string Workspace; log : list Event }.

Definition event (p : Proc) : option Event :=
  match p with
  | DeleteRow user ws => Some (Deleted ws user)
  | RemoveDelete user ws target => Some (Removed ws target user)
  | LeaveDelete user ws => Some (Left ws user)
  | JoinInsert user ws code => Some (Joined ws user code)
  | _ => None
  end.

Section System.
Context (to_uppercase : string → string).

Definition world_exec (a : Answer) (p : Proc) (w : World) : World * (Proc + Reply) :=
  let '(d', r) := exec to_uppercase a p w.(tables) in
  ({| tables := d';
      drawn := match p with Create _ _ => {[ a.(a_uuid) ]} ∪ w.(drawn) | _ => w.(drawn) end;
      announced := match r with
                   | inr (Ok (BCreated ws x)) => <[ws := x]> w.(announced)
                   | _ => w.(announced)
                   end;
      log := match r with
             | inr (Ok _) => match event p with Some e => e :: w.(log) | None => w.(log) end
             | _ => w.(log)
             end |}, r).

(** A client names workspaces it was told of: a UUID is not guessed. *)
Definition disclosed (w : World) (ws : string) : Prop := is_Some (w.(announced) !! ws).
Definition may_request (w : World) (_ : list Reply) (p : Proc) : Prop :=
  match p with
  | List_ _ | Create _ _ => True
  | Get _ ws | Delete _ ws | Join _ ws _ | Leave _ ws | Remove _ ws _ => disclosed w ws
  | _ => False
  end.
(** A UUID is new. *)
Definition admissible (w : World) (a : Answer) : Prop := a.(a_uuid) ∉ w.(drawn).

(** ** The invariant *)

(** The right invite code of a workspace, as the handler compares it; its
    creator; and a user who is not. *)
Definition right_code (w : World) (ws code : string) : Prop :=
  ∃ x, w.(announced) !! ws = Some x ∧ to_uppercase x.(invite_code) = to_uppercase (trim code).
Definition creator (w : World) (ws user : string) : Prop :=
  ∃ x, w.(announced) !! ws = Some x ∧ x.(owner_id) = user.
Definition not_creator (w : World) (ws user : string) : Prop :=
  ∃ x, w.(announced) !! ws = Some x ∧ x.(owner_id) ≠ user.

Definition authorised (w : World) (e : Event) : Prop :=
  match e with
  | Deleted ws by_ => creator w ws by_
  | Removed ws target by_ => creator w ws by_ ∧ not_creator w ws target
  | Left ws user => not_creator w ws user
  | Joined ws _ code => right_code w ws code
  end.

Record Inv (w : World) : Prop := {
  inv_drawn : ∀ ws, is_Some (w.(tables).(workspaces) !! ws) → ws ∈ w.(drawn);
  inv_disclosed : ∀ ws, disclosed w ws → ws ∈ w.(drawn);
  inv_row : ∀ ws x y, w.(announced) !! ws = Some x → w.(tables).(workspaces) !! ws = Some y → y = x;
  inv_member : ∀ ws u m, w.(tables).(members) !! (ws, u) = Some m →
    is_Some (w.(tables).(workspaces) !! ws) ∧ disclosed w ws ∧ (m.(m_role) = "admin" → creator w ws u);
  inv_admin : ∀ ws x, w.(tables).(workspaces) !! ws = Some x → disclosed w ws →
    ∃ m, w.(tables).(members) !! (ws, x.(owner_id)) = Some m ∧ m.(m_role) = "admin";
  inv_log : Forall (authorised w) w.(log) }.

Definition creating (p : Proc) : option string :=
  match p with
  | CreateCode _ _ ws _ _ | CreateInsert _ _ ws _ _ | CreateAdmin _ _ ws _ _ => Some ws
  | _ => None
  end.
Definition apart (p q : Proc) : Prop := ∀ ws, creating p = Some ws → creating q ≠ Some ws.

Definition Local (p : Proc) (w : World) : Prop :=
  match p with
  | List_ _ | Create _ _ => True
  | CreateCode _ _ ws _ _ | CreateInsert _ _ ws _ _ =>
      ws ∈ w.(drawn) ∧ w.(announced) !! ws = None ∧ w.(tables).(workspaces) !! ws = None
  | CreateAdmin user name ws now code =>
      ws ∈ w.(drawn) ∧ w.(announced) !! ws = None ∧
      w.(tables).(workspaces) !! ws =
        Some {| w_name := name; owner_id := user; invite_code := code; w_created_at := now |}
  | Get _ ws | GetWorkspace _ ws | GetMembers _ ws _ | Delete _ ws | Join _ ws _
  | JoinVerify _ ws _ | Leave _ ws | LeaveCount _ ws | Remove _ ws _ => disclosed w ws
  | DeleteRow user ws => creator w ws user
  | JoinMember _ ws code | JoinInsert _ ws code => right_code w ws code
  | LeaveDelete user ws => not_creator w ws user
  | RemoveTarget user ws _ | RemoveCount user ws _ => creator w ws user
  | RemoveDelete user ws target => creator w ws user ∧ not_creator w ws target
  end.

Lemma Inv_disclosed_member w ws u m : Inv w → w.(tables).(members) !! (ws, u) = Some m →
  ∃ x, w.(announced) !! ws = Some x ∧ w.(tables).(workspaces) !! ws = Some x ∧
    (m.(m_role) = "admin" ↔ x.(owner_id) = u).
Proof.
  intros HI Hm. destruct (inv_member _ HI _ _ _ Hm) as ([y Hy] & [x Hx] & Hc).
  assert (y = x) as -> by by eapply inv_row.
  exists x. split_and!; [done..|]. split.
  - intros Ha. destruct (Hc Ha) as (x' & Hx' & <-). by simplify_eq.
  - intros <-. destruct (inv_admin _ HI _ _ Hy) as (m' & Hm' & Ha); [by exists x|]. by simplify_eq.
Qed.

(** Only one member can be an admin. *)
Lemma admin_count_le w ws : Inv w → admin_count ws w.(tables) ≤ 1.
Proof.
  intros HI. unfold admin_count.
  set (f := filter _ _). destruct (decide (f = ∅)) as [->|Hne]; [rewrite map_size_empty; lia|].
  apply map_choose in Hne as ([ws0 u] & m & Hm).
  assert (Hsub : f ⊆ {[ (ws0, u) := m ]}).
  { apply map_subseteq_spec. intros [ws1 u1] m1 H1. unfold f in H1, Hm.
    apply map_lookup_filter_Some in H1 as [H1 [E1 A1]], Hm as [H2 [E2 A2]].
    cbn in E1, A1, E2, A2. subst ws0 ws1.
    destruct (Inv_disclosed_member _ _ _ _ HI H1) as (x1 & X1 & _ & C1).
    destruct (Inv_disclosed_member _ _ _ _ HI H2) as (x2 & X2 & _ & C2).
    simplify_eq. rewrite <- (proj1 C1 A1), <- (proj1 C2 A2) in *. simplify_eq.
    by rewrite lookup_singleton_eq. }
  apply map_subseteq_size in Hsub. by rewrite map_size_singleton in Hsub.
Qed.

Lemma role_admin_iff w ws u role : Inv w → role_of ws u w.(tables) = Some role →
  ∃ x, w.(announced) !! ws = Some x ∧ (role = "admin" ↔ x.(owner_id) = u).
Proof.
  intros HI Hr. unfold role_of in Hr. apply fmap_Some in Hr as (m & Hm & ->).
  destruct (Inv_disclosed_member _ _ _ _ HI Hm) as (x & Hx & _ & Hc). by exists x.
Qed.

Lemma is_creator w ws u : Inv w → role_of ws u w.(tables) = Some "admin" → creator w ws u.
Proof. intros HI Hr. destruct (role_admin_iff _ _ _ _ HI Hr) as (x & Hx & Hc). exists x. split; [done|]. by apply Hc. Qed.
Lemma isnt_creator w ws u role : Inv w → role_of ws u w.(tables) = Some role → role ≠ "admin" →
  not_creator w ws u.
Proof.
  intros HI Hr Hne. destruct (role_admin_iff _ _ _ _ HI Hr) as (x & Hx & Hc). exists x. split; [done|].
  intros E. by apply Hne, Hc.
Qed.

(** What later worlds keep. *)
Definition grows (w w' : World) : Prop := w.(drawn) ⊆ w'.(drawn) ∧ w.(announced) ⊆ w'.(announced).

Lemma grows_refl w : grows w w.
Proof. done. Qed.

Lemma grows_lookup w w' ws x : grows w w' → w.(announced) !! ws = Some x → w'.(announced) !! ws = Some x.
Proof. intros [_ H] Hx. exact (lookup_weaken _ _ _ _ Hx H). Qed.

Lemma authorised_grows w w' e : grows w w' → authorised w e → authorised w' e.
Proof.
  intros Hg. destruct e; cbn; unfold creator, not_creator, right_code; naive_solver eauto using grows_lookup.
Qed.

Lemma Local_grows p w w' : grows w w' →
  (∀ ws, creating p = Some ws → w'.(announced) !! ws = w.(announced) !! ws ∧
     w'.(tables).(workspaces) !! ws = w.(tables).(workspaces) !! ws) →
  Local p w → Local p w'.
Proof.
  intros Hg Hc. pose proof Hg as [Hd _].
  assert (Hdis : ∀ ws, disclosed w ws → disclosed w' ws)
    by (intros ws [x Hx]; exists x; by eapply grows_lookup).
  destruct p; cbn in *; unfold creator, not_creator, right_code; try done; try apply Hdis;
    try (naive_solver eauto using grows_lookup);
    destruct (Hc _ eq_refl) as [-> ->]; set_solver.
Qed.

(** ** The statements that change a table *)

Definition set_tables (f : Db → Db) (w : World) : World :=
  {| tables := f w.(tables); drawn := w.(drawn); announced := w.(announced); log := w.(log) |}.
Definition add_log (e : Event) (w : World) : World :=
  {| tables := w.(tables); drawn := w.(drawn); announced := w.(announced); log := e :: w.(log) |}.

Lemma Inv_add_log e w : Inv w → authorised w e → Inv (add_log e w).
Proof. intros [] He. split; cbn; try done. by constructor. Qed.

Lemma Inv_draw id w : Inv w →
  Inv {| tables := w.(tables); drawn := {[ id ]} ∪ w.(drawn); announced := w.(announced); log := w.(log) |}.
Proof. intros []. split; cbn; try done; set_solver. Qed.

Lemma Inv_insert_ws ws x w : Inv w → ws ∈ w.(drawn) → w.(announced) !! ws = None →
  Inv (set_tables (with_workspaces (<[ws := x]>)) w).
Proof.
  intros HI Hd Ha. split; cbn.
  - intros ws' Hws'. destruct (decide (ws' = ws)) as [->|Hne]; [done|].
    rewrite lookup_insert_ne in Hws' by done. by eapply inv_drawn.
  - apply HI.
  - intros ws' y z Hy Hz. destruct (decide (ws' = ws)) as [->|Hne]; [congruence|].
    rewrite lookup_insert_ne in Hz by done. by eapply inv_row.
  - intros ws' u m Hm. destruct (inv_member _ HI _ _ _ Hm) as (H1 & [y Hy] & H3).
    destruct (decide (ws' = ws)) as [->|Hne]; [congruence|].
    rewrite lookup_insert_ne by done. split_and!; [done|by exists y|done].
  - intros ws' y Hy [z Hz]. cbn in Hz. destruct (decide (ws' = ws)) as [->|Hne]; [congruence|].
    rewrite lookup_insert_ne in Hy by done. eapply inv_admin; [done..|by exists z].
  - apply HI.
Qed.

Lemma Inv_insert_admin ws x m w : Inv w → w.(announced) !! ws = None →
  w.(tables).(workspaces) !! ws = Some x → m.(m_role) = "admin" →
  Inv {| tables := with_members (<[(ws, x.(owner_id)) := m]>) w.(tables); drawn := w.(drawn);
         announced := <[ws := x]> w.(announced); log := w.(log) |}.
Proof.
  intros HI Ha Hx Hm.
  assert (Hg : ∀ l, grows w {| tables := with_members (<[(ws, x.(owner_id)) := m]>) w.(tables); drawn := w.(drawn);
         announced := <[ws := x]> w.(announced); log := l |}).
  { intros l. split; [done|]. cbn. by apply insert_subseteq. }
  split; cbn.
  - apply HI.
  - intros ws' [y Hy]. cbn in Hy. destruct (decide (ws' = ws)) as [->|Hne]; [apply (inv_drawn _ HI); by exists x|].
    rewrite lookup_insert_ne in Hy by done. apply (inv_disclosed _ HI). by exists y.
  - intros ws' y z Hy Hz. destruct (decide (ws' = ws)) as [->|Hne].
    + rewrite lookup_insert_eq in Hy. congruence.
    + rewrite lookup_insert_ne in Hy by done. by eapply inv_row.
  - intros ws' u m' Hm'. unfold disclosed, creator. cbn.
    destruct (decide ((ws', u) = (ws, owner_id x))) as [[= -> ->]|Hne].
    + rewrite lookup_insert_eq in Hm'. simplify_eq. rewrite lookup_insert_eq.
      split_and!; [by eexists|by eexists|]. intros _. by exists x.
    + rewrite lookup_insert_ne in Hm' by done. destruct (inv_member _ HI _ _ _ Hm') as (H1 & [y Hy] & H3).
      destruct (decide (ws' = ws)) as [->|Hws]; [congruence|]. rewrite lookup_insert_ne by done.
      split_and!; [done|by exists y|done].
  - intros ws' y Hy [z Hz]. cbn in Hz. destruct (decide (ws' = ws)) as [->|Hws].
    + simplify_eq. exists m. by rewrite lookup_insert_eq.
    + rewrite lookup_insert_ne in Hz by done. destruct (inv_admin _ HI _ _ Hy) as (m' & H1 & H2); [by exists z|].
      exists m'. rewrite lookup_insert_ne by congruence. done.
  - eapply Forall_impl; [apply HI|]. intros e. by apply authorised_grows.
Qed.

Lemma Inv_delete_ws ws w : Inv w → Inv (set_tables (delete_ws ws) w).
Proof.
  intros HI. split; cbn.
  - intros ws' [x Hx]. apply lookup_delete_Some in Hx as [_ Hx]. apply (inv_drawn _ HI). by exists x.
  - apply HI.
  - intros ws' y z Hy Hz. apply lookup_delete_Some in Hz as [_ Hz]. by eapply inv_row.
  - intros ws' u m Hm. apply map_lookup_filter_Some in Hm as [Hm Hne]. cbn in Hne.
    rewrite lookup_delete_ne by done. by apply (inv_member _ HI).
  - intros ws' x Hx Hd. apply lookup_delete_Some in Hx as [Hne Hx].
    destruct (inv_admin _ HI _ _ Hx Hd) as (m & H1 & H2). exists m. split; [|done].
    apply map_lookup_filter_Some. split; [done|]. cbn. done.
  - apply HI.
Qed.

Lemma Inv_join ws u m w : Inv w → disclosed w ws → is_Some (w.(tables).(workspaces) !! ws) →
  w.(tables).(members) !! (ws, u) = None → m.(m_role) ≠ "admin" →
  Inv (set_tables (with_members (<[(ws, u) := m]>)) w).
Proof.
  intros HI Hd Hws Hnone Hr. split; cbn; try apply HI.
  - intros ws' u' m' Hm'. destruct (decide ((ws', u') = (ws, u))) as [[= -> ->]|Hne].
    + rewrite lookup_insert_eq in Hm'. by simplify_eq.
    + rewrite lookup_insert_ne in Hm' by done. by apply (inv_member _ HI).
  - intros ws' x Hx Hd'. destruct (inv_admin _ HI _ _ Hx Hd') as (m' & H1 & H2). exists m'. split; [|done].
    rewrite lookup_insert_ne; [done|]. intros [= -> ->]. congruence.
Qed.

Lemma Inv_delete_member ws u w : Inv w → not_creator w ws u →
  Inv (set_tables (delete_member ws u) w).
Proof.
  intros HI (x & Hx & Hu). split; cbn; try apply HI.
  - intros ws' u' m' Hm'. apply lookup_delete_Some in Hm' as [_ Hm']. by apply (inv_member _ HI).
  - intros ws' y Hy Hd'. destruct (inv_admin _ HI _ _ Hy Hd') as (m' & H1 & H2). exists m'. split; [|done].
    rewrite lookup_delete_ne; [done|]. intros [= -> ->]. assert (y = x) as -> by by eapply inv_row. done.
Qed.

(** ** Every step keeps the invariant *)

(** What a step of [p] may touch: the workspace it is creating, or one whose
    creation was answered. *)
Definition touches (p : Proc) (w w' : World) : Prop :=
  ∀ ws, creating p ≠ Some ws →
    w'.(announced) !! ws = w.(announced) !! ws ∧
    (disclosed w ws ∨ w'.(tables).(workspaces) !! ws = w.(tables).(workspaces) !! ws).

Definition good_step (p : Proc) (w : World) (w' : World) (r : Proc + Reply) : Prop :=
  Inv w' ∧ grows w w' ∧ touches p w w' ∧
  match r with
  | inl p' => Local p' w' ∧ (creating p' = creating p ∨ ∃ ws, creating p' = Some ws ∧ ws ∉ w.(drawn))
  | inr _ => True
  end.

Lemma touches_refl p w : touches p w w.
Proof. intros ws _. split; [done|by right]. Qed.
Lemma good_reply p w o : Inv w → good_step p w w (inr o).
Proof. intros HI. split; [done|]. split; [done|]. by split; [apply touches_refl|]. Qed.
Lemma good_next p w p' : Inv w → Local p' w → creating p' = creating p → good_step p w w (inl p').
Proof.
  intros HI HL Hc. split; [done|]. split; [done|]. split; [apply touches_refl|]. by split; [|left].
Qed.

Lemma touches_same p w w' : w'.(announced) = w.(announced) →
  w'.(tables).(workspaces) = w.(tables).(workspaces) → touches p w w'.
Proof. intros E1 E2 ws _. rewrite E1, E2. split; [done|by right]. Qed.

Lemma good_draw user name w a r : Inv w → admissible w a →
  (∃ e, r = inr (Err e)) ∨ (∃ name' now n, r = inl (CreateCode user name' a.(a_uuid) now n)) →
  good_step (Create user name) w
    {| tables := w.(tables); drawn := {[ a.(a_uuid) ]} ∪ w.(drawn); announced := w.(announced); log := w.(log) |} r.
Proof.
  intros HI Ha Hr. split; [by apply Inv_draw|]. split; [split; [set_solver|done]|]. split; [by apply touches_same|].
  destruct Hr as [[e ->]|(name' & now & n & ->)]; [done|]. split; [|right; by exists a.(a_uuid)]. cbn.
  split_and!; [set_solver|..]; apply eq_None_not_Some; intros H; apply Ha.
  - by apply (inv_disclosed _ HI).
  - by apply (inv_drawn _ HI).
Qed.

Lemma code_right w ws code : Inv w → disclosed w ws →
  verify_invite_code to_uppercase ws code w.(tables) = true → right_code w ws code.
Proof.
  intros HI [x Hx]. unfold verify_invite_code.
  destruct (workspaces (tables w) !! ws) as [y|] eqn:Hy; [|done].
  assert (y = x) as -> by by eapply inv_row. intros H%bool_decide_eq_true. by exists x.
Qed.

Lemma insert_workspace_ok id x d d' : insert_workspace id x d = Ok d' →
  d' = with_workspaces (<[id := x]>) d ∧ d.(workspaces) !! id = None.
Proof.
  unfold insert_workspace. case_bool_decide as H1; [done|]. destruct (code_taken _ _); [done|].
  case_bool_decide; [|done]. intros [= <-]. split; [done|]. by apply eq_None_not_Some.
Qed.
Lemma insert_member_ok ws u m d d' : insert_member ws u m d = Ok d' →
  d' = with_members (<[(ws, u) := m]>) d ∧ d.(members) !! (ws, u) = None ∧ is_Some (d.(workspaces) !! ws).
Proof.
  unfold insert_member. case_bool_decide as H1; [done|].
  destruct (bool_decide (is_Some _) && _) eqn:E; [|done]. apply andb_true_iff in E as [E%bool_decide_eq_true _].
  intros [= <-]. split_and!; [done|by apply eq_None_not_Some|done].
Qed.

Lemma step_good a p w : Inv w → Local p w → admissible w a →
  good_step p w (world_exec a p w).1 (world_exec a p w).2.
Proof.
  intros HI HL Ha. unfold world_exec. pose proof (admin_count_le w) as Hcnt.
  assert (Heta : {| tables := w.(tables); drawn := w.(drawn); announced := w.(announced); log := w.(log) |} = w)
    by (by destruct w).
  pose proof is_creator as Hic. pose proof isnt_creator as Hinc.
  destruct p as [user|user name|user name ws now n|user name ws now code|user name ws now code|user ws|user ws
    |user ws x|user ws|user ws|user ws code|user ws code|user ws code|user ws code|user ws|user ws|user ws
    |user ws tgt|user ws tgt|user ws tgt|user ws tgt]; cbn [exec Local] in *; unfold
      list_workspaces, create_workspace, generate_unique_invite_code, create_insert, create_admin,
      get_workspace, get_row, get_members, delete_workspace, delete_row, join_workspace, join_verify,
      join_check, join_insert, leave_workspace, leave_count, leave_delete, remove_member, remove_target,
      remove_count, remove_delete, stmt in *;
    try (destruct n as [|n]); unfold fail, next, reply; try (destruct (a_ok a); cbn [fst snd event]);
    repeat case_match; simplify_eq/=; rewrite ?Heta; try (by apply good_reply);
    try (apply good_next; [exact HI| |reflexivity]; cbn [Local];
         eauto using is_creator, isnt_creator, code_right; fail).
  - apply good_draw; [done..|]. first [left; eexists; reflexivity|right; do 3 eexists; reflexivity].
  - apply good_draw; [done..|]. first [left; eexists; reflexivity|right; do 3 eexists; reflexivity].
  - apply good_draw; [done..|]. first [left; eexists; reflexivity|right; do 3 eexists; reflexivity].
  - apply good_draw; [done..|]. first [left; eexists; reflexivity|right; do 3 eexists; reflexivity].
  - match goal with H : insert_workspace _ _ _ = Ok _ |- _ => apply insert_workspace_ok in H as [-> Hnone] end.
    destruct HL as (Hd & Han & _).
    split; [by apply Inv_insert_ws|]. split; [done|]. split; [|split; [|by left]].
    + intros ws' Hne. cbn in Hne. split; [done|]. right. apply lookup_insert_ne. congruence.
    + split_and!; [done|done|]. cbn. apply lookup_insert_eq.
  - match goal with H : insert_member _ _ _ _ = Ok _ |- _ => apply insert_member_ok in H as (-> & Hnone & _) end.
    destruct HL as (Hd & Han & Hx).
    split; [by apply (Inv_insert_admin ws0 {| w_name := name; owner_id := user; invite_code := code; w_created_at := now |})|].
    split; [split; [done|]; cbn; by apply insert_subseteq|]. split; [|done].
    intros ws' Hne. cbn in Hne |- *. rewrite lookup_insert_ne by congruence. split; [done|by right].
  - split; [by apply (Inv_add_log (Deleted ws user) (set_tables (delete_ws ws) w)); [apply Inv_delete_ws|]|].
    split; [done|]. split; [|done]. intros ws' _. split; [done|]. cbn.
    destruct (decide (ws' = ws)) as [->|Hne]; [left|right; by apply lookup_delete_ne].
    destruct HL as (x & Hx & _). by exists x.
  - match goal with H : insert_member _ _ _ _ = Ok _ |- _ => apply insert_member_ok in H as (-> & Hnone & Hws) end.
    pose proof HL as (x & Hx & _).
    split; [|split; [done|split; [apply touches_same|]]; done].
    apply (Inv_add_log (Joined ws0 user0 code) (set_tables (with_members _) w)); [|done].
    apply Inv_join; [done|by exists x|done..].
  - exfalso. match goal with H : (_ <=? 1) = false |- _ => apply Nat.leb_gt in H end.
    specialize (Hcnt ws HI). lia.
  - split; [|split; [done|split; [apply touches_same|]]; done].
    apply (Inv_add_log (Left ws user) (set_tables (delete_member ws user) w)); [|done]. by apply Inv_delete_member.
  - exfalso. match goal with H : (_ <=? 1) = false |- _ => apply Nat.leb_gt in H end.
    specialize (Hcnt ws HI). lia.
  - split; [|split; [done|split; [apply touches_same|]]; done].
    apply (Inv_add_log (Removed ws tgt user) (set_tables (delete_member ws tgt) w)); [|done].
    apply Inv_delete_member; [done|apply HL].
Qed.

(** ** Reachable states *)

(** A server over some users and no workspace yet. *)
Definition fresh_world (us : gset string) : World :=
  {| tables := {| users := us; workspaces := ∅; members := ∅ |}; drawn := ∅; announced := ∅; log := [] |}.
Definition Reachable (us : gset string) (s : System World Proc Reply) : Prop :=
  reachable world_exec may_request admissible (fresh_world us) s.

Definition Answered (w : World) (rs : list Reply) : Prop :=
  ∀ ws x, Ok (BCreated ws x) ∈ rs → w.(announced) !! ws = Some x.

Lemma step_announces a p w ws x : (world_exec a p w).2 = inr (Ok (BCreated ws x)) →
  (world_exec a p w).1.(announced) !! ws = Some x.
Proof.
  unfold world_exec. destruct (exec _ _ _ _) as [d' [p'|[[| | | | ]|]]]; try done.
  cbn. intros [= -> ->]. apply lookup_insert_eq.
Qed.

Lemma apart_sym p q : apart p q → apart q p.
Proof. intros H ws Hq Hp. by apply (H ws). Qed.

Lemma Reachable_holds us s : Reachable us s →
  Inv s.(db) ∧ Answered s.(db) s.(replies).
Proof.
  intros Hr. enough (H : holds (λ w rs, Inv w ∧ Answered w rs) (λ p w _, Local p w) apart s) by apply H.
  eapply (invariant world_exec may_request admissible _ _ _ apart_sym); [| |..|exact Hr].
  - intros w rs p _ Hp. split.
    + by destruct p.
    + intros q _ ws Hc. by destruct p.
  - intros w rs a p [HI HA] HL Ha.
    pose proof (step_good a p w HI HL Ha) as (HI' & Hg & Ht & Hn).
    pose proof (step_announces a p w) as Hann.
    destruct (world_exec a p w) as [w' [p'|o]]; cbn in *.
    + split; [split; [done|]; intros ws x Hx; eapply grows_lookup; [done|by apply HA]|]. destruct Hn as [Hp' Hc].
      split; [done|]. intros q Hq Hap. split.
      * apply (Local_grows _ w); [done| |done]. intros ws Hws.
        assert (Hne : creating p ≠ Some ws) by (intros E; by apply (Hap ws)).
        destruct (Ht ws Hne) as [E1 [Hd|E2]]; [|done]. exfalso.
        destruct Hd as [x Hx]. destruct q; cbn in Hws, Hq; simplify_eq; naive_solver.
      * destruct Hc as [Hc|(ws & Hc & Hnew)]; intros ws' E1 E2; [apply (Hap ws'); congruence|].
        assert (ws' = ws) as -> by congruence. apply Hnew. destruct q; cbn in E2, Hq; simplify_eq; naive_solver.
    + split.
      * split; [done|]. intros ws x [Hx|Hx]%elem_of_cons.
        -- subst o. by apply Hann.
        -- eapply grows_lookup; [done|by apply HA].
      * intros q Hq Hap. apply (Local_grows _ w); [done| |done]. intros ws Hws.
        assert (Hne : creating p ≠ Some ws) by (intros E; by apply (Hap ws)).
        destruct (Ht ws Hne) as [E1 [Hd|E2]]; [|done]. exfalso.
        destruct Hd as [x Hx]. destruct q; cbn in Hws, Hq; simplify_eq; naive_solver.
  - split; [|by intros ws x ?%elem_of_nil]. split; cbn.
    + intros ws. rewrite lookup_empty. by intros [].
    + intros ws [x Hx]. cbn in Hx. by rewrite lookup_empty in Hx.
    + intros ws x y Hx. by rewrite lookup_empty in Hx.
    + intros ws u m Hm. by rewrite lookup_empty in Hm.
    + intros ws x Hx. by rewrite lookup_empty in Hx.
    + constructor.
Qed.

(** A workspace never lacks its administrator, and has no other: under any
    interleaving of requests on workspaces, with any statements failing and any
    requests lost half-way, once the creation of a workspace has been answered
    and until it is deleted, the members with the role admin are exactly its
    creator; and every membership is of a workspace that exists. *)
Theorem admin_is_creator us s ws x y :
  Reachable us s → Ok (BCreated ws x) ∈ s.(replies) →
  s.(db).(tables).(workspaces) !! ws = Some y →
  y = x ∧ (∀ u, (∃ m, s.(db).(tables).(members) !! (ws, u) = Some m ∧ m.(m_role) = "admin") ↔ u = x.(owner_id)) ∧
  (∀ ws' u, is_Some (s.(db).(tables).(members) !! (ws', u)) → is_Some (s.(db).(tables).(workspaces) !! ws')).
Proof.
  intros [HI HA]%Reachable_holds Hc Hy. apply HA in Hc.
  assert (y = x) as -> by by eapply inv_row. split; [done|]. split.
  - intros u. split.
    + intros (m & Hm & Ha). destruct (Inv_disclosed_member _ _ _ _ HI Hm) as (x' & Hx' & _ & Hiff).
      simplify_eq. symmetry. by apply Hiff.
    + intros ->. eapply inv_admin; [done..|by exists x].
  - intros ws' u [m Hm]. by apply (inv_member _ HI _ _ _ Hm).
Qed.

(** Memberships change only as they may: in every reachable state, every
    workspace that was deleted was deleted by its creator, every member that was
    removed was removed by the creator and was not the creator, nobody who left
    was the creator, and everybody who joined gave the workspace's invite code
    (up to case and surrounding white space). *)
Theorem membership_changes_authorised us s :
  Reachable us s → Forall (authorised s.(db)) s.(db).(log).
Proof. intros [HI _]%Reachable_holds. apply HI. Qed.
End System.

(** ** Witnesses and scenarios *)

Notation ex_users := ({[ "ann"; "bob" ]} : gset string).
Notation ex_ans u := {| a_ok := true; a_uuid := u; a_now := "2026-01-01"; a_draws := [0; 1; 2; 3; 4; 5] |}.
Notation ex_exec := (world_exec (map_string (λ c, if is_ascii_lowercase c then ascii_of_N (code c - 32) else c))).

(** Ann creates a workspace; Bob joins it while Ann tries to leave. *)
Notation ex_start := ({| db := fresh_world ex_users; procs := [Create "ann" " Team "]; replies := [] |}).
Notation ex_created := (default (boot (fresh_world ex_users)) (
  run_schedule ex_exec [(0, ex_ans "w1"); (0, ex_ans "u2"); (0, ex_ans "u2"); (0, ex_ans "u2")] ex_start)).
Notation ex_later := (default (boot (fresh_world ex_users)) (run_schedule ex_exec
  [(0, ex_ans "u2"); (1, ex_ans "u2"); (0, ex_ans "u2"); (0, ex_ans "u2"); (0, ex_ans "u2"); (0, ex_ans "u2")]
  {| db := ex_created.(db); procs := [Join "bob" "w1" " abcdef "; Leave "ann" "w1"];
     replies := ex_created.(replies) |})).

Notation ex_upper := (map_string (λ c, if is_ascii_lowercase c then ascii_of_N (code c - 32) else c)).

Lemma ex_reachable : Reachable ex_upper ex_users ex_later.
Proof.
  unfold Reachable, reachable.
  etransitivity; [apply (request_steps _ _ _ (boot (fresh_world ex_users)) (Create "ann" " Team ")); exact I|].
  etransitivity.
  { apply (run_schedule_steps _ _ _ [(0, ex_ans "w1"); (0, ex_ans "u2"); (0, ex_ans "u2"); (0, ex_ans "u2")] _ ex_created).
    - vm_compute. reflexivity.
    - vm_compute. repeat split; discriminate. }
  etransitivity; [apply (request_steps _ _ _ ex_created (Join "bob" "w1" " abcdef ")); vm_compute; by eexists|].
  etransitivity; [apply (request_steps _ _ _ _ (Leave "ann" "w1")); vm_compute; by eexists|].
  apply (run_schedule_steps _ _ _ [(0, ex_ans "u2"); (1, ex_ans "u2"); (0, ex_ans "u2"); (0, ex_ans "u2");
    (0, ex_ans "u2"); (0, ex_ans "u2")]).
  - vm_compute. reflexivity.
  - vm_compute. repeat split; discriminate.
Qed.

Example admin_is_creator_witness :
  (∃ x, Ok (BCreated "w1" x) ∈ ex_later.(replies) ∧
    ∀ u, (∃ m, ex_later.(db).(tables).(members) !! ("w1", u) = Some m ∧ m.(m_role) = "admin") ↔ u = x.(owner_id)) ∧
  role_of "w1" "bob" ex_later.(db).(tables) = Some "member" ∧ length ex_later.(replies) = 3.
Proof.
  split; [|vm_compute; done].
  exists {| w_name := "Team"; owner_id := "ann"; invite_code := "ABCDEF"; w_created_at := "2026-01-01" |}.
  assert (Hin : Ok (BCreated "w1" {| w_name := "Team"; owner_id := "ann"; invite_code := "ABCDEF"; w_created_at := "2026-01-01" |})
    ∈ ex_later.(replies)).
  { vm_compute. right. right. left. }
  split; [exact Hin|].
  destruct (admin_is_creator ex_upper ex_users ex_later "w1" _ _ ex_reachable Hin eq_refl) as (_ & H & _). exact H.
Defined.

Example membership_changes_authorised_witness :
  Forall (authorised ex_upper ex_later.(db)) ex_later.(db).(log) ∧ length ex_later.(db).(log) = 1.
Proof.
  split; [exact (membership_changes_authorised ex_upper ex_users ex_later ex_reachable)|vm_compute; reflexivity].
Defined.

(** A creation that fails after its first insert leaves a workspace without any
    member, which nobody can see, join or delete, and its invite code taken. *)
Example creation_can_orphan :
  let bad := {| a_ok := false; a_uuid := "u2"; a_now := ""; a_draws := [] |} in
  let '(d, r) := run_alone ex_exec [ex_ans "w1"; ex_ans "u2"; ex_ans "u2"; bad] (Create "ann" "Team") (fresh_world ex_users) in
  (is_ok (match r with inr o => o | inl _ => Ok BNoContent end), code_taken "ABCDEF" d.(tables),
   length (members_of "w1" d.(tables))) = (false, true, 0).
Proof. by vm_compute. Qed.

(** Two joins of one user at once: the second runs into the primary key and is
    answered with an internal error, not with the conflict it checked for. *)
Example concurrent_joins_internal_error :
  match run_schedule ex_exec ((λ i, (i, ex_ans "u2")) <$> [0; 1; 0; 1; 0; 1; 0; 0])
    {| db := ex_created.(db); procs := [Join "bob" "w1" "ABCDEF"; Join "bob" "w1" "ABCDEF"]; replies := [] |} with
  | Some s => (λ r, match r with Err e => (status_and_code e).1 | Ok _ => 200%Z end) <$> s.(replies)
  | None => []
  end = [500; 200]%Z.
Proof. by vm_compute. Qed.
