(* ===== verification/Accounts.v ===== *)
(** * Accounts, sessions and tokens (crates/core/src/user, auth/jwt.rs,
    auth/middleware.rs)

    Registration, login, profile changes, refresh-token rotation and the
    embedded user, over the tables [users] and [refresh_tokens] with their
    constraints.  Handlers are processes in the sense of [Interleave].

    JWT signing and verification, Argon2 and Unicode lower-casing are
    parameters.  An [Answer] says whether a statement succeeds, and gives the
    UUIDs, clock and salt drawn in that step. *)

From S2P Require Import Prelude RustStr AppError Interleave.
From stdpp Require Import strings gmap pretty.

(** ** Tokens *)

Record Claims := { sub : string; iat : Z; exp : Z; jti : string }.

Definition ACCESS_TOKEN_TTL_SECS : Z := 900.
Definition REFRESH_TOKEN_TTL_SECS : Z := 604800.
Definition EMBEDDED_ACCESS_TOKEN_TTL_SECS : Z := 30 * 24 * 3600.
Definition EMBEDDED_REFRESH_TOKEN_TTL_SECS : Z := 31 * 24 * 3600.

(** jsonwebtoken: [encode] under a secret, [decode] under a secret at an instant
    (in seconds). *)
Class Jwt := {
  encode : string → Claims → result string string;
  decode : string → Z → string → result JwtError Claims }.

Record Config := { registration_enabled : bool; jwt_secret : string; jwt_refresh_secret : string }.

Record Answer := {
  a_ok : bool; a_id : string; a_jti : string; a_access_jti : string;
  a_now : string; a_secs : Z; a_salt : string }.

(** ** Tables *)

Record User := {
  email : string; password_hash : string; display_name : string;
  created_at : string; updated_at : string }.
Record RefreshToken := {
  rt_user : string; rt_jti : string; rt_expires_at : string; rt_created_at : string;
  revoked_at : option string }.
Record Db := { users : gmap string User; refresh_tokens : gmap string RefreshToken }.

Definition with_users (f : gmap string User → gmap string User) (d : Db) : Db :=
  {| users := f d.(users); refresh_tokens := d.(refresh_tokens) |}.
Definition with_tokens (f : gmap string RefreshToken → gmap string RefreshToken) (d : Db) : Db :=
  {| users := d.(users); refresh_tokens := f d.(refresh_tokens) |}.

(** SQLite's LOWER folds ASCII. *)
Definition by_email (e : string) (d : Db) : option (string * User) :=
  head (filter (λ kv, to_ascii_lowercase kv.2.(email) = to_ascii_lowercase e) (map_to_list d.(users))).

Definition email_taken (e : string) (d : Db) : bool :=
  bool_decide (map_Exists (λ _ u, u.(email) = e) d.(users)).
Definition insert_user (id : string) (u : User) (d : Db) : result string Db :=
  if bool_decide (is_Some (d.(users) !! id)) || email_taken u.(email) d
  then Err "UNIQUE constraint failed" else Ok (with_users (<[id := u]>) d).
Definition insert_refresh (id : string) (t : RefreshToken) (d : Db) : result string Db :=
  if bool_decide (is_Some (d.(refresh_tokens) !! id))
     || bool_decide (map_Exists (λ _ t', t'.(rt_jti) = t.(rt_jti)) d.(refresh_tokens))
  then Err "UNIQUE constraint failed"
  else if bool_decide (is_Some (d.(users) !! t.(rt_user)))
  then Ok (with_tokens (<[id := t]>) d) else Err "FOREIGN KEY constraint failed".
Definition by_jti (j : string) (d : Db) : option (string * RefreshToken) :=
  head (filter (λ kv, kv.2.(rt_jti) = j) (map_to_list d.(refresh_tokens))).

Definition revoke (now : string) (t : RefreshToken) : RefreshToken :=
  {| rt_user := t.(rt_user); rt_jti := t.(rt_jti); rt_expires_at := t.(rt_expires_at);
     rt_created_at := t.(rt_created_at); revoked_at := Some now |}.
Definition revoke_all (user now : string) (d : Db) : Db :=
  with_tokens (fmap (λ t, if bool_decide (t.(rt_user) = user ∧ t.(revoked_at) = None) then revoke now t else t)) d.

(** ** Requests *)

Definition contains_char (c : ascii) (s : string) : bool := negb (no_char c s).

(** [CreateUserRequest::validate], in bytes. *)
Definition validate_new (e pw name : string) : result string unit :=
  let e := trim e in
  if is_empty e then Err "Email is required."
  else if negb (contains_char "@"%char e) || negb (contains_char "."%char e) then Err "Invalid email format."
  else if String.length pw <? 8 then Err "Password must be at least 8 characters."
  else let name := trim name in
       if is_empty name || (100 <? String.length name)
       then Err "Display name must be between 1 and 100 characters." else Ok tt.
(** [UpdateProfileRequest::validate]. *)
Definition validate_update (name pw : option string) : result string unit :=
  match name with
  | Some n => if is_empty (trim n) || (100 <? String.length (trim n))
              then Err "Display name must be between 1 and 100 characters."
              else match pw with
                   | Some p => if String.length p <? 8 then Err "Password must be at least 8 characters." else Ok tt
                   | None => Ok tt
                   end
  | None => match pw with
            | Some p => if String.length p <? 8 then Err "Password must be at least 8 characters." else Ok tt
            | None => Ok tt
            end
  end.

Definition EMBEDDED_USER_EMAIL : string := "embedded@local".

Inductive Proc : Type :=
| Register (e pw name : string)
| RegisterInsert (id now e hash name : string)
| RegisterStore (id now e name : string)
| Login (e pw : string)
| LoginStore (id : string) (u : User)
| GetMe (user : string)
| UpdateMe (user : string) (name pw : option string)
| UpdatePassword (user now : string) (pw : string)
| UpdateRevoke (user now : string)
| UpdateFetch (user : string)
| Refresh (token : string)
| RefreshRevoke (row : string) (c : Claims)
| RefreshStore (now : string) (c : Claims)
| Embedded (throwaway : string)
| EmbeddedSelect
| EmbeddedStore (id : string).

Inductive Body : Type :=
| BUser (id e name : string)
| BSession (id access refresh : string) (c : Claims)
| BRotated (old : string) (access refresh : string) (c : Claims).
Notation Reply := (result AppError Body).
Notation Outcome := (Db * (Proc + Reply))%type.

(** ** Handlers *)

Section Handlers.
Context `{Jwt} (to_lowercase : string → string) (stamp : Z → string).
(** Argon2, with a salt: hashing, and checking against a stored hash. *)
Context (hash_password : string → string → result string string)
  (verify_password : string → string → result string bool).
Context (cfg : Config).

(** [issue_access_token_with_ttl], [issue_refresh_token_with_ttl]: the clock
    before 1970 is an error. *)
Definition claims_for (user : string) (secs ttl : Z) (j : string) : Claims :=
  {| sub := user; iat := secs; exp := secs + ttl; jti := j |}.
Definition issue_access (a : Answer) (ttl : Z) (user : string) : result AppError string :=
  if (a.(a_secs) <? 0)%Z then Err (Internal "second time provided was later than self")
  else match encode cfg.(jwt_secret) (claims_for user a.(a_secs) ttl a.(a_access_jti)) with
       | Ok t => Ok t | Err e => Err (Internal e) end.
Definition issue_refresh (a : Answer) (ttl : Z) (user : string) : result AppError (string * Claims) :=
  if (a.(a_secs) <? 0)%Z then Err (Internal "second time provided was later than self")
  else let c := claims_for user a.(a_secs) ttl a.(a_jti) in
       match encode cfg.(jwt_refresh_secret) c with Ok t => Ok (t, c) | Err e => Err (Internal e) end.

Definition verify_access_token (secs : Z) (token : string) : result AppError Claims :=
  match decode cfg.(jwt_secret) secs token with Ok c => Ok c | Err e => Err (of_jwt e) end.
Definition verify_refresh_token (secs : Z) (token : string) : result AppError Claims :=
  match decode cfg.(jwt_refresh_secret) secs token with Ok c => Ok c | Err e => Err (of_jwt e) end.

(** [from_request_parts]: the Authorization header, as text when it is ASCII. *)
Definition authenticate (secs : Z) (header : option string) : result AppError Claims :=
  match header with
  | None => Err (Unauthorized "Missing Authorization header.")
  | Some h =>
      if starts_with "Bearer " h
      then verify_access_token secs (String.substring 7 (String.length h - 7) h)
      else Err (Unauthorized "Invalid Authorization format. Expected: Bearer <token>")
  end.

Definition next (d : Db) (p : Proc) : Db * (Proc + Reply) := (d, inl p).
Definition reply (d : Db) (r : Reply) : Db * (Proc + Reply) := (d, inr r).
Definition fail (d : Db) (e : AppError) : Db * (Proc + Reply) := (d, inr (Err e)).

(** Issuing a pair and storing its refresh token. *)
Definition session (a : Answer) (access_ttl refresh_ttl : Z) (created : string) (user : string) (d : Db)
    (answer : string → string → Claims → Body) : Db * (Proc + Reply) :=
  match issue_access a access_ttl user with
  | Err e => fail d e
  | Ok access =>
      match issue_refresh a refresh_ttl user with
      | Err e => fail d e
      | Ok (token, c) =>
          if a.(a_ok) then
            match insert_refresh a.(a_id)
              {| rt_user := user; rt_jti := c.(jti); rt_expires_at := stamp c.(exp);
                 rt_created_at := created; revoked_at := None |} d with
            | Ok d' => reply d' (Ok (answer access token c))
            | Err e => fail d (of_sqlx e)
            end
          else fail d (of_sqlx "database error")
      end
  end.

(** A statement that SQLite refuses or cannot run is [AppError::Internal]. *)
Definition stmt (a : Answer) (d : Db) (k : Outcome) : Outcome :=
  if a.(a_ok) then k else fail d (of_sqlx "database error").

Definition register (a : Answer) (e pw name : string) (d : Db) : Outcome :=
  if negb cfg.(registration_enabled) then fail d RegistrationDisabled else
  let e := to_lowercase (trim e) in let name := trim name in
  match validate_new e pw name with
  | Err msg => fail d (Validation msg)
  | Ok _ =>
      stmt a d (match by_email e d with
            | Some _ => fail d (Conflict "Email already registered.")
            | None =>
                match hash_password a.(a_salt) pw with
                | Err msg => fail d (Internal ("Password hashing failed: " +:+ msg))
                | Ok hash => next d (RegisterInsert a.(a_id) a.(a_now) e hash name)
                end
            end)
  end.

Definition register_insert (a : Answer) (id now : string) (e hash name : string) (d : Db) : Outcome :=
  stmt a d (match insert_user id {| email := e; password_hash := hash; display_name := name;
                                created_at := now; updated_at := now |} d with
        | Ok d' => next d' (RegisterStore id now e name)
        | Err msg => fail d (of_sqlx msg)
        end).

Definition register_store (a : Answer) (id now : string) (e name : string) (d : Db) : Outcome :=
  session a ACCESS_TOKEN_TTL_SECS REFRESH_TOKEN_TTL_SECS now id d (BSession id).

Definition login (a : Answer) (e pw : string) (d : Db) : Outcome :=
  let e := to_lowercase (trim e) in
  stmt a d (match by_email e d with
        | None => fail d InvalidCredentials
        | Some (id, u) =>
            match verify_password pw u.(password_hash) with
            | Err msg => fail d (Internal ("Password verification failed: " +:+ msg))
            | Ok false => fail d InvalidCredentials
            | Ok true => next d (LoginStore id u)
            end
        end).

Definition login_store (a : Answer) (id : string) (u : User) (d : Db) : Outcome :=
  session a ACCESS_TOKEN_TTL_SECS REFRESH_TOKEN_TTL_SECS a.(a_now) id d (BSession id).

Definition get_me (a : Answer) (user : string) (d : Db) : Outcome :=
  stmt a d (match d.(users) !! user with
        | Some u => reply d (Ok (BUser user u.(email) u.(display_name)))
        | None => fail d (NotFound "User not found.")
        end).

Definition update_me (a : Answer) (user : string) (name pw : option string) (d : Db) : Outcome :=
  match validate_update name pw with
  | Err msg => fail d (Validation msg)
  | Ok _ =>
      let after (d : Db) := match pw with
                            | Some p => next d (UpdatePassword user a.(a_now) p)
                            | None => next d (UpdateFetch user)
                            end in
      match name with
      | Some n =>
          stmt a d (after (with_users (alter (λ u, {| email := u.(email); password_hash := u.(password_hash);
            display_name := trim n; created_at := u.(created_at); updated_at := a.(a_now) |}) user) d))
      | None => after d
      end
  end.

Definition update_password (a : Answer) (user now pw : string) (d : Db) : Outcome :=
  match hash_password a.(a_salt) pw with
  | Err msg => fail d (Internal ("Password hashing failed: " +:+ msg))
  | Ok hash =>
      stmt a d (next (with_users (alter (λ u, {| email := u.(email); password_hash := hash;
        display_name := u.(display_name); created_at := u.(created_at); updated_at := now |}) user) d)
        (UpdateRevoke user now))
  end.

Definition update_revoke (a : Answer) (user now : string) (d : Db) : Outcome :=
  stmt a d (next (revoke_all user now d) (UpdateFetch user)).

Definition update_fetch (a : Answer) (user : string) (d : Db) : Outcome :=
  stmt a d (match d.(users) !! user with
        | Some u => reply d (Ok (BUser user u.(email) u.(display_name)))
        | None => fail d (of_sqlx "no rows returned")
        end).

Definition refresh_token (a : Answer) (token : string) (d : Db) : Outcome :=
  match verify_refresh_token a.(a_secs) token with
  | Err e => fail d e
  | Ok c =>
      stmt a d (match by_jti c.(jti) d with
            | None => fail d (Unauthorized "Invalid refresh token.")
            | Some (row, t) =>
                match t.(revoked_at) with
                | Some _ => fail d (Unauthorized "Refresh token has been revoked.")
                | None => next d (RefreshRevoke row c)
                end
            end)
  end.

Definition refresh_revoke (a : Answer) (row : string) (c : Claims) (d : Db) : Outcome :=
  stmt a d (next (with_tokens (alter (revoke a.(a_now)) row) d) (RefreshStore a.(a_now) c)).

Definition refresh_store (a : Answer) (now : string) (c : Claims) (d : Db) : Outcome :=
  session a ACCESS_TOKEN_TTL_SECS REFRESH_TOKEN_TTL_SECS now c.(sub) d (BRotated c.(jti)).

Definition ensure_embedded_user (a : Answer) (throwaway : string) (d : Db) : Outcome :=
  match hash_password a.(a_salt) throwaway with
  | Err msg => fail d (Internal ("Password hashing failed: " +:+ msg))
  | Ok hash =>
      stmt a d (next (match insert_user a.(a_id) {| email := EMBEDDED_USER_EMAIL; password_hash := hash;
                    display_name := "Embedded User"; created_at := a.(a_now); updated_at := a.(a_now) |} d with
                  | Ok d' => d' | Err _ => d end) EmbeddedSelect)
  end.

Definition embedded_select (a : Answer) (d : Db) : Outcome :=
  stmt a d (match by_email EMBEDDED_USER_EMAIL d with
        | Some (id, _) => next d (EmbeddedStore id)
        | None => fail d (of_sqlx "no rows returned")
        end).

Definition embedded_store (a : Answer) (id : string) (d : Db) : Outcome :=
  session a EMBEDDED_ACCESS_TOKEN_TTL_SECS EMBEDDED_REFRESH_TOKEN_TTL_SECS a.(a_now) id d (BSession id).

Definition exec (a : Answer) (p : Proc) (d : Db) : Outcome :=
  match p with
  | Register e pw name => register a e pw name d
  | RegisterInsert id now e hash name => register_insert a id now e hash name d
  | RegisterStore id now e name => register_store a id now e name d
  | Login e pw => login a e pw d
  | LoginStore id u => login_store a id u d
  | GetMe user => get_me a user d
  | UpdateMe user name pw => update_me a user name pw d
  | UpdatePassword user now pw => update_password a user now pw d
  | UpdateRevoke user now => update_revoke a user now d
  | UpdateFetch user => update_fetch a user d
  | Refresh token => refresh_token a token d
  | RefreshRevoke row c => refresh_revoke a row c d
  | RefreshStore now c => refresh_store a now c d
  | Embedded throwaway => ensure_embedded_user a throwaway d
  | EmbeddedSelect => embedded_select a d
  | EmbeddedStore id => embedded_store a id d
  end.
End Handlers.

(** Running a handler one statement further. *)
Ltac run_step :=
  cbn [run_alone Accounts.exec]; unfold
    register, register_insert, register_store, login, login_store, get_me,
    update_me, update_password, update_revoke, update_fetch, refresh_token, refresh_revoke, refresh_store,
    ensure_embedded_user, embedded_select, embedded_store, stmt, fail, next, reply.
Ltac run_step_in H :=
  cbn [run_alone Accounts.exec] in H; unfold
    register, register_insert, register_store, login, login_store, get_me,
    update_me, update_password, update_revoke, update_fetch, refresh_token, refresh_revoke, refresh_store,
    ensure_embedded_user, embedded_select, embedded_store, stmt, fail, next, reply in H.

(** ** Looking rows up *)

Lemma head_filter_map {V} (P : string * V → Prop) `{∀ x, Decision (P x)} (m : gmap string V) :
  match head (filter P (map_to_list m)) with
  | Some (k, v) => m !! k = Some v ∧ P (k, v)
  | None => ∀ k v, m !! k = Some v → ¬ P (k, v)
  end.
Proof.
  destruct (filter P (map_to_list m)) as [|[k v] l] eqn:E; cbn.
  - intros k v Hk HP. assert (Hin : (k, v) ∈ filter P (map_to_list m)).
    { apply list_elem_of_filter. split; [done|]. by apply elem_of_map_to_list. }
    rewrite E in Hin. by apply elem_of_nil in Hin.
  - assert (Hin : (k, v) ∈ filter P (map_to_list m)) by (rewrite E; left).
    apply list_elem_of_filter in Hin as [HP Hin]. by apply elem_of_map_to_list in Hin.
Qed.

Lemma by_email_Some e d id u : by_email e d = Some (id, u) →
  d.(users) !! id = Some u ∧ to_ascii_lowercase u.(email) = to_ascii_lowercase e.
Proof.
  unfold by_email. intros H. pose proof (head_filter_map
    (λ kv : string * User, to_ascii_lowercase kv.2.(email) = to_ascii_lowercase e) d.(users)) as Hs.
  by rewrite H in Hs.
Qed.
Lemma by_jti_Some j d row t : by_jti j d = Some (row, t) →
  d.(refresh_tokens) !! row = Some t ∧ t.(rt_jti) = j.
Proof.
  unfold by_jti. intros H. pose proof (head_filter_map
    (λ kv : string * RefreshToken, kv.2.(rt_jti) = j) d.(refresh_tokens)) as Hs. by rewrite H in Hs.
Qed.

Lemma insert_user_ok id u d d' : insert_user id u d = Ok d' →
  d' = with_users (<[id := u]>) d ∧ d.(users) !! id = None ∧
  ∀ id' u', d.(users) !! id' = Some u' → u'.(email) ≠ u.(email).
Proof.
  unfold insert_user. destruct (_ || _) eqn:E; [done|]. apply orb_false_iff in E as [E1 E2].
  intros [= <-]. split; [done|]. apply bool_decide_eq_false in E1, E2.
  split; [by apply eq_None_not_Some|]. intros id' u' Hu' Heq. apply E2. by exists id', u'.
Qed.
Lemma insert_refresh_ok id t d d' : insert_refresh id t d = Ok d' →
  d' = with_tokens (<[id := t]>) d ∧ d.(refresh_tokens) !! id = None ∧
  (∀ row t', d.(refresh_tokens) !! row = Some t' → t'.(rt_jti) ≠ t.(rt_jti)) ∧ is_Some (d.(users) !! t.(rt_user)).
Proof.
  unfold insert_refresh. destruct (_ || _) eqn:E; [done|]. apply orb_false_iff in E as [E1 E2].
  destruct (bool_decide (is_Some (d.(users) !! _))) eqn:E3; [|done]. apply bool_decide_eq_true in E3.
  intros [= <-]. apply bool_decide_eq_false in E1, E2.
  split; [done|]. split; [by apply eq_None_not_Some|]. split; [|done].
  intros row t' Ht' Heq. apply E2. by exists row, t'.
Qed.

(** ** Emails *)

Definition lowered (e : string) : Prop := to_ascii_lowercase e = e.
Definition emails_ok (d : Db) : Prop :=
  (∀ id u, d.(users) !! id = Some u → lowered u.(email)) ∧
  (∀ id id' u u', d.(users) !! id = Some u → d.(users) !! id' = Some u' →
     u.(email) = u'.(email) → id = id').

Lemma emails_ok_insert id u d : emails_ok d → lowered u.(email) →
  (∀ id' u', d.(users) !! id' = Some u' → u'.(email) ≠ u.(email)) →
  emails_ok (with_users (<[id := u]>) d).
Proof.
  intros [H1 H2] Hl Hf. split; cbn.
  - intros id' u' H. destruct (decide (id' = id)) as [->|Hne];
      [rewrite lookup_insert_eq in H; by simplify_eq|rewrite lookup_insert_ne in H by done; eauto].
  - intros i j ui uj Hi Hj He.
    destruct (decide (i = id)) as [->|Hi'], (decide (j = id)) as [->|Hj']; [done|..];
      repeat first [rewrite lookup_insert_eq in *|rewrite lookup_insert_ne in * by done]; simplify_eq.
    + exfalso. by eapply Hf.
    + exfalso. by eapply Hf.
    + by eapply H2.
Qed.

Lemma emails_ok_alter f id d : emails_ok d → (∀ u, (f u).(email) = u.(email)) →
  emails_ok (with_users (alter f id) d).
Proof.
  intros [H1 H2] Hf.
  assert (Hlook : ∀ i u, alter f id d.(users) !! i = Some u → ∃ u0, d.(users) !! i = Some u0 ∧ u.(email) = u0.(email)).
  { intros i u H. destruct (decide (i = id)) as [->|Hne].
    - rewrite lookup_alter_eq in H. apply fmap_Some in H as (u0 & Hu & ->). eauto.
    - rewrite lookup_alter_ne in H by done. eauto. }
  split; cbn.
  - intros i u (u0 & Hu & ->)%Hlook. eauto.
  - intros i j ui uj (u0 & Hu & ->)%Hlook (u1 & Hu1 & ->)%Hlook He. by eapply H2.
Qed.

Section Facts.
Context `{Jwt} (to_lowercase : string → string) (stamp : Z → string)
  (hash_password : string → string → result string string)
  (verify_password : string → string → result string bool) (cfg : Config).
Notation exec := (exec to_lowercase stamp hash_password verify_password cfg).

(** [session] either replies without touching the tables, or stores one token. *)
Lemma session_spec a at_ rt created user d (answer : string → string → Claims → Body) :
  match session stamp cfg a at_ rt created user d answer with
  | (d', inr (Ok b)) => ∃ access token c t, b = answer access token c ∧
      d' = with_tokens (<[a.(a_id) := t]>) d ∧ d.(refresh_tokens) !! a.(a_id) = None ∧
      t.(rt_jti) = c.(jti) ∧ t.(rt_user) = user ∧ t.(revoked_at) = None ∧
      ∀ row t', d.(refresh_tokens) !! row = Some t' → t'.(rt_jti) ≠ t.(rt_jti)
  | (d', inr (Err _)) => d' = d
  | (_, inl _) => False
  end.
Proof.
  unfold session. destruct (issue_access _ _ _ _) as [access|e]; [|done].
  destruct (issue_refresh _ _ _ _) as [[token c]|e]; [|done]. destruct (a_ok a); [|done].
  destruct (insert_refresh _ _ _) as [d'|e] eqn:E; [|done].
  apply insert_refresh_ok in E as (-> & Hn & Hj & _). cbn. do 4 eexists. split_and!; try done.
Qed.

Definition is_request (p : Proc) : Prop :=
  match p with
  | Register _ _ _ | Login _ _ | GetMe _ | UpdateMe _ _ _ | Refresh _ | Embedded _ => True
  | _ => False
  end.
Definition good_email (p : Proc) : Prop :=
  match p with RegisterInsert _ _ e _ _ => lowered e | _ => True end.

Lemma exec_emails a p d : (∀ s, lowered (to_lowercase s)) → emails_ok d → good_email p →
  emails_ok (exec a p d).1 ∧ match (exec a p d).2 with inl p' => good_email p' | inr _ => True end.
Proof.
  intros Hlow Hd Hp.
  assert (Hses : ∀ at_ rt created user answer,
    emails_ok (session stamp cfg a at_ rt created user d answer).1 ∧
    match (session stamp cfg a at_ rt created user d answer).2 with inl p' => good_email p' | inr _ => True end).
  { intros at_ rt created user answer. pose proof (session_spec a at_ rt created user d answer) as Hs.
    destruct (session _ _ _ _ _ _ _ _ _) as [d' [p'|[b|e]]]; [done| |by subst].
    destruct Hs as (? & ? & ? & ? & -> & -> & _). done. }
  destruct p; cbn [good_email] in *; run_step; try apply Hses;
    repeat case_match; simplify_eq/=; try (by split); try (split; [done|apply Hlow]);
    try (match goal with H : insert_user _ _ _ = Ok _ |- _ => apply insert_user_ok in H as (-> & _ & Hf) end;
         split; [|done]; apply emails_ok_insert; done);
    try (split; [|done]; by apply emails_ok_alter).
Qed.

Definition may_request (_ : Db) (_ : list Reply) (p : Proc) : Prop := is_request p.
Definition admissible (_ : Db) (_ : Answer) : Prop := True.

(** No two accounts share an email, whatever requests interleave: in every
    reachable state of the server (registrations, logins, profile changes,
    refreshes, the embedded bootstrap, statements failing, requests lost), stored
    emails are in lower case and two users whose emails agree up to ASCII case
    are the same user, so the email a login looks up determines the account. *)
Theorem accounts_unique d s :
  (∀ e, lowered (to_lowercase e)) → emails_ok d →
  reachable exec may_request admissible d s →
  ∀ id id' u u', s.(db).(users) !! id = Some u → s.(db).(users) !! id' = Some u' →
    to_ascii_lowercase u.(email) = to_ascii_lowercase u'.(email) → id = id' ∧ lowered u.(email).
Proof.
  intros Hlow Hd Hr.
  enough (Hs : holds (λ d _, emails_ok d) (λ p _ _, good_email p) (λ _ _, True) s).
  { destruct Hs as [[H1 H2] _]. intros id id' u u' Hu Hu' He. split; [|by eapply H1].
    apply (H2 id id' u u' Hu Hu'). rewrite <- (H1 _ _ Hu), <- (H1 _ _ Hu'). exact He. }
  eapply (invariant exec may_request admissible (λ d _, emails_ok d) (λ p _ _, good_email p) (λ _ _, True));
    [done|..|exact Hr].
  - intros d0 rs p _ Hp. split; [by destruct p|done].
  - intros d0 rs a p HI HL _. pose proof (exec_emails a p d0 Hlow HI HL) as [H1 H2].
    destruct (exec a p d0) as [d' [p'|o]]; by split_and!.
  - done.
Qed.

(** ** Refresh tokens, one request after the other *)

Definition tokens_ok (d : Db) : Prop := ∀ r r' t t',
  d.(refresh_tokens) !! r = Some t → d.(refresh_tokens) !! r' = Some t' → t.(rt_jti) = t'.(rt_jti) → r = r'.
(** Rows stay, keep their token and owner, and stay revoked. *)
Definition tokens_le (d d' : Db) : Prop := ∀ r t, d.(refresh_tokens) !! r = Some t →
  ∃ t', d'.(refresh_tokens) !! r = Some t' ∧ t'.(rt_jti) = t.(rt_jti) ∧ t'.(rt_user) = t.(rt_user) ∧
    (is_Some t.(revoked_at) → is_Some t'.(revoked_at)).

#[local] Instance tokens_le_preorder : PreOrder tokens_le.
Proof.
  split; [intros d r t Ht; eauto|]. intros d1 d2 d3 H1 H2 r t Ht.
  destruct (H1 r t Ht) as (t2 & Ht2 & E1 & E2 & E3). destruct (H2 r t2 Ht2) as (t3 & Ht3 & F1 & F2 & F3).
  exists t3. split_and!; [done|congruence|congruence|auto].
Qed.

Lemma tokens_same d d' : d'.(refresh_tokens) = d.(refresh_tokens) → tokens_ok d → tokens_ok d' ∧ tokens_le d d'.
Proof. unfold tokens_ok, tokens_le. intros ->. split; [done|]. eauto. Qed.

Lemma tokens_insert r t d : tokens_ok d → d.(refresh_tokens) !! r = None →
  (∀ r' t', d.(refresh_tokens) !! r' = Some t' → t'.(rt_jti) ≠ t.(rt_jti)) →
  tokens_ok (with_tokens (<[r := t]>) d) ∧ tokens_le d (with_tokens (<[r := t]>) d).
Proof.
  intros Hok Hn Hj. split.
  - intros r1 r2 t1 t2 H1 H2 He. cbn in H1, H2.
    destruct (decide (r1 = r)) as [->|N1], (decide (r2 = r)) as [->|N2]; [done|..];
      repeat first [rewrite lookup_insert_eq in *|rewrite lookup_insert_ne in * by done]; simplify_eq.
    + exfalso. by eapply Hj.
    + exfalso. by eapply Hj.
    + by eapply Hok.
  - intros r1 t1 H1. exists t1. cbn. rewrite lookup_insert_ne by congruence. eauto.
Qed.

Lemma tokens_alter r now d : tokens_ok d →
  tokens_ok (with_tokens (alter (revoke now) r) d) ∧ tokens_le d (with_tokens (alter (revoke now) r) d).
Proof.
  intros Hok.
  assert (Hlook : ∀ i t, alter (revoke now) r d.(refresh_tokens) !! i = Some t →
    ∃ t0, d.(refresh_tokens) !! i = Some t0 ∧ t.(rt_jti) = t0.(rt_jti)).
  { intros i t Hi. destruct (decide (i = r)) as [->|Hne].
    - rewrite lookup_alter_eq in Hi. apply fmap_Some in Hi as (t0 & Ht0 & ->). eauto.
    - rewrite lookup_alter_ne in Hi by done. eauto. }
  split.
  - intros r1 r2 t1 t2 (t3 & H3 & E3)%Hlook (t4 & H4 & E4)%Hlook He. eapply Hok; [done..|congruence].
  - intros i t Hi. cbn. destruct (decide (i = r)) as [->|Hne].
    + exists (revoke now t). rewrite lookup_alter_eq, Hi. eauto.
    + exists t. rewrite lookup_alter_ne by done. eauto.
Qed.

Lemma tokens_revoke_all user now d : tokens_ok d →
  tokens_ok (revoke_all user now d) ∧ tokens_le d (revoke_all user now d) ∧
  ∀ r t, (revoke_all user now d).(refresh_tokens) !! r = Some t → t.(rt_user) = user → is_Some t.(revoked_at).
Proof.
  intros Hok. set (f := λ t, if bool_decide (t.(rt_user) = user ∧ t.(revoked_at) = None) then revoke now t else t).
  assert (Hf : ∀ t, (f t).(rt_jti) = t.(rt_jti) ∧ (f t).(rt_user) = t.(rt_user) ∧
    (is_Some t.(revoked_at) → is_Some (f t).(revoked_at)) ∧ (t.(rt_user) = user → is_Some (f t).(revoked_at))).
  { intros t. unfold f. case_bool_decide as Hb; cbn; [eauto|]. split_and!; [done..|].
    intros Hu. destruct (revoked_at t); [by eexists|]. by destruct Hb. }
  unfold revoke_all. cbn. split_and!.
  - intros r1 r2 t1 t2 H1 H2 He. cbn in H1, H2. rewrite lookup_fmap in H1, H2.
    apply fmap_Some in H1 as (t3 & H3 & ->), H2 as (t4 & H4 & ->). eapply Hok; [done..|].
    by rewrite <- (proj1 (Hf t3)), <- (proj1 (Hf t4)).
  - intros r t Ht. exists (f t). cbn. rewrite lookup_fmap, Ht. destruct (Hf t) as (?&?&?&?). eauto.
  - intros r t Ht Hu. rewrite lookup_fmap in Ht. apply fmap_Some in Ht as (t0 & _ & ->).
    destruct (Hf t0) as (_ & E & _ & H4). apply H4. by rewrite <- E.
Qed.

Lemma session_tokens a at_ rt created user d answer : tokens_ok d →
  tokens_ok (session stamp cfg a at_ rt created user d answer).1 ∧
  tokens_le d (session stamp cfg a at_ rt created user d answer).1.
Proof.
  intros Hd. pose proof (session_spec a at_ rt created user d answer) as Hs.
  destruct (session _ _ _ _ _ _ _ _ _) as [d' [p'|[b|e]]]; [done| |by subst].
  destruct Hs as (? & ? & ? & t & _ & -> & Hn & _ & _ & _ & Hj). by apply tokens_insert.
Qed.

Lemma exec_tokens a p d : tokens_ok d →
  tokens_ok (exec a p d).1 ∧ tokens_le d (exec a p d).1.
Proof.
  intros Hd. destruct p; run_step; try (by apply session_tokens);
    repeat case_match; simplify_eq/=; try done;
    try (match goal with H : insert_user _ _ _ = Ok _ |- _ => apply insert_user_ok in H as (-> & _) end);
    try (by apply tokens_same); try (by apply tokens_alter).
  split; by apply tokens_revoke_all.
Qed.

Lemma run_alone_tokens answers p d : tokens_ok d →
  tokens_ok (run_alone exec answers p d).1 ∧ tokens_le d (run_alone exec answers p d).1.
Proof.
  revert p d. induction answers as [|a answers IH]; intros p d Hd; [done|]. cbn.
  pose proof (exec_tokens a p d Hd) as [H1 H2]. destruct (exec a p d) as [d1 [p1|o]]; [|done].
  destruct (IH p1 d1 H1) as [H3 H4]. split; [done|]. by etransitivity.
Qed.

(** The refresh token a reply answers for. *)
Definition rotated (o : Reply) : option string :=
  match o with Ok (BRotated j _ _ _) => Some j | _ => None end.
Definition live (j : string) (d : Db) : Prop :=
  ∃ r t, d.(refresh_tokens) !! r = Some t ∧ t.(rt_jti) = j ∧ t.(revoked_at) = None.
Definition dead (j : string) (d : Db) : Prop :=
  ∃ r t, d.(refresh_tokens) !! r = Some t ∧ t.(rt_jti) = j ∧ is_Some t.(revoked_at).

Lemma dead_le j d d' : tokens_le d d' → dead j d → dead j d'.
Proof.
  intros Hle (r & t & Hr & Hj & Hd). destruct (Hle r t Hr) as (t' & Hr' & Hj' & _ & Hd').
  exists r, t'. split_and!; [done|congruence|auto].
Qed.
Lemma live_dead j d : tokens_ok d → live j d → dead j d → False.
Proof.
  intros Hok (r & t & Hr & Hj & Hd) (r' & t' & Hr' & Hj' & [x Hx]).
  assert (r = r') as <- by (eapply Hok; [done..|congruence]). simplify_eq.
Qed.

(** Handlers other than a refresh never answer with a rotation. *)
Definition refreshing (p : Proc) : bool :=
  match p with Refresh _ | RefreshRevoke _ _ | RefreshStore _ _ => true | _ => false end.
Lemma session_not_rotated a at_ rt created user d answer :
  (∀ x y c, rotated (Ok (answer x y c)) = None) →
  match (session stamp cfg a at_ rt created user d answer).2 with
  | inl p' => refreshing p' = false | inr o => rotated o = None end.
Proof.
  intros Ha. pose proof (session_spec a at_ rt created user d answer) as Hs.
  destruct (session _ _ _ _ _ _ _ _ _) as [d' [p'|[b|e]]]; [done| |done].
  destruct Hs as (? & ? & ? & ? & -> & _). apply Ha.
Qed.
Lemma exec_not_rotated a p d : refreshing p = false →
  match (exec a p d).2 with inl p' => refreshing p' = false | inr o => rotated o = None end.
Proof.
  intros Hp. destruct p; try done; run_step;
    try (by apply session_not_rotated);
    repeat case_match; simplify_eq/=; done.
Qed.
Lemma run_not_rotated answers p d d' o : refreshing p = false →
  run_alone exec answers p d = (d', inr o) → rotated o = None.
Proof.
  revert p d. induction answers as [|a answers IH]; intros p d Hp; [done|]. cbn.
  pose proof (exec_not_rotated a p d Hp) as H1. destruct (exec a p d) as [d1 [p1|o1]]; cbn in H1.
  - by apply IH.
  - by intros [= _ <-].
Qed.

(** A refresh alone answers only for a token that was live, and kills it. *)
Lemma run_rotated answers p d d' o j : is_request p → tokens_ok d →
  run_alone exec answers p d = (d', inr o) → rotated o = Some j → live j d ∧ dead j d'.
Proof.
  intros Hp Hd Hrun Hj. destruct (refreshing p) eqn:Er;
    [|by rewrite (run_not_rotated answers p d d' o Er Hrun) in Hj].
  destruct p; try done. destruct answers as [|a1 answers]; [done|].
  run_step_in Hrun.
  destruct (verify_refresh_token _ _ _) as [c|e]; [|by simplify_eq].
  destruct (a_ok a1); [|by simplify_eq].
  destruct (by_jti (jti c) d) as [[r t]|] eqn:Eb; [|by simplify_eq].
  destruct (revoked_at t) eqn:Erev; [by simplify_eq|].
  apply by_jti_Some in Eb as [Hr Ht]. destruct answers as [|a2 answers]; [done|].
  run_step_in Hrun.
  destruct (a_ok a2); [|by simplify_eq]. destruct answers as [|a3 answers]; [done|].
  run_step_in Hrun.
  set (d1 := with_tokens (alter (revoke (a_now a2)) r) d) in *.
  destruct (tokens_alter r (a_now a2) d Hd) as [Hok1 Hle1]. fold d1 in Hok1, Hle1.
  pose proof (session_spec a3 ACCESS_TOKEN_TTL_SECS REFRESH_TOKEN_TTL_SECS (a_now a2) (sub c) d1 (BRotated (jti c))) as Hs.
  destruct (session_tokens a3 ACCESS_TOKEN_TTL_SECS REFRESH_TOKEN_TTL_SECS (a_now a2) (sub c) d1 (BRotated (jti c)) Hok1) as [_ Hle2].
  destruct (session _ _ _ _ _ _ _ _ _) as [d3 [p3|o3]]; [done|]. simplify_eq.
  destruct o as [b|e]; [|done]. destruct Hs as (x & y & c' & t' & -> & _). cbn in Hj. simplify_eq.
  split; [by exists r, t|]. cbn in Hle2. eapply dead_le; [exact Hle2|].
  exists r, (revoke (a_now a2) t). unfold d1. cbn. rewrite lookup_alter_eq, Hr. split_and!; [done..|by eexists].
Qed.

(** Requests one after the other, each to its reply or lost on the way. *)
Fixpoint history (rs : list (Proc * list Answer)) (d : Db) : list Reply * Db :=
  match rs with
  | [] => ([], d)
  | (p, answers) :: rs' =>
      let '(d', r) := run_alone exec answers p d in
      let '(os, d'') := history rs' d' in
      (match r with inr o => o :: os | inl _ => os end, d'')
  end.

Lemma history_rotated rs d : tokens_ok d → Forall (λ r, is_request r.1) rs →
  NoDup (omap rotated (history rs d).1) ∧ Forall (λ j, ¬ dead j d) (omap rotated (history rs d).1).
Proof.
  intros Hd Hrs. revert d Hd. induction Hrs as [|[p answers] rs Hp _ IH]; intros d Hd; [by split; constructor|].
  cbn [history]. destruct (run_alone_tokens answers p d Hd) as [Hok Hle].
  pose proof (λ o j, run_rotated answers p d (run_alone exec answers p d).1 o j Hp Hd) as Hrot.
  destruct (run_alone exec answers p d) as [d' r]. cbn [fst] in *. destruct (IH d' Hok) as [IH1 IH2].
  destruct (history rs d') as [os d'']. cbn [fst] in *.
  assert (Hrest : Forall (λ j, ¬ dead j d) (omap rotated os)).
  { eapply Forall_impl; [exact IH2|]. intros j Hj Hdead. apply Hj. by eapply dead_le. }
  destruct r as [p'|o]; [done|]. cbn. destruct (rotated o) as [j|] eqn:Ej; [|done].
  destruct (Hrot o j eq_refl Ej) as [Hlive Hdead]. split.
  - constructor; [|done]. intros Hin. rewrite Forall_forall in IH2. by apply (IH2 j Hin).
  - constructor; [|done]. intros Hdd. exact (live_dead j d Hd Hlive Hdd).
Qed.

(** C15. A refresh token is good for one refresh: over any sequence of requests
    handled one after the other (each answered, refused or lost half-way), no
    refresh token is exchanged twice, and none that was revoked at the start is
    exchanged at all. *)
Theorem refresh_single_use rs d :
  tokens_ok d → Forall (λ r, is_request r.1) rs →
  NoDup (omap rotated (history rs d).1) ∧
  ∀ j, j ∈ omap rotated (history rs d).1 → ¬ dead j d.
Proof.
  intros Hd Hrs. destruct (history_rotated rs d Hd Hrs) as [H1 H2]. split; [done|]. by rewrite <- Forall_forall.
Qed.

Lemma run_update_password answers user name pw d d' b : tokens_ok d →
  run_alone exec answers (UpdateMe user name (Some pw)) d = (d', inr (Ok b)) →
  tokens_le d d' ∧ ∀ r t, d'.(refresh_tokens) !! r = Some t → t.(rt_user) = user → is_Some t.(revoked_at).
Proof.
  intros Hd Hrun. pose proof (run_alone_tokens answers (UpdateMe user name (Some pw)) d Hd) as [_ Hle].
  rewrite Hrun in Hle. split; [exact Hle|]. clear Hle.
  destruct answers as [|a1 answers]; [done|]. run_step_in Hrun.
  unfold fail, next, reply in Hrun. destruct (validate_update _ _); [|done].
  assert (∃ d1, tokens_ok d1 ∧ run_alone exec answers (UpdatePassword user (a_now a1) pw) d1 = (d', inr (Ok b)))
    as (d1 & Hd1 & Hrun1).
  { destruct name as [n|]; [destruct (a_ok a1); [|done]|]; eexists; (split; [|exact Hrun]); done. }
  clear Hrun. destruct answers as [|a2 answers]; [done|]. run_step_in Hrun1.
  unfold fail, next in Hrun1. destruct (hash_password _ _) as [h|e]; [|done]. destruct (a_ok a2); [|done].
  set (d2 := with_users _ d1) in *.
  assert (Hd2 : tokens_ok d2) by done.
  destruct answers as [|a3 answers]; [done|]. run_step_in Hrun1.
  destruct (a_ok a3); [|done]. destruct (tokens_revoke_all user (a_now a1) d2 Hd2) as (_ & _ & Hall).
  destruct answers as [|a4 answers]; [done|]. run_step_in Hrun1.
  destruct (a_ok a4); [|done]. destruct (users (revoke_all user (a_now a1) d2) !! user); [|done].
  simplify_eq. exact Hall.
Qed.

(** A password change ends the other sessions: once it has been answered,
    and as long as requests are handled one after the other, no refresh token
    the user held before it is ever exchanged again. *)
Theorem password_change_ends_sessions answers user name pw d d' b rs :
  tokens_ok d → run_alone exec answers (UpdateMe user name (Some pw)) d = (d', inr (Ok b)) →
  Forall (λ r, is_request r.1) rs →
  ∀ r t, d.(refresh_tokens) !! r = Some t → t.(rt_user) = user →
    t.(rt_jti) ∉ omap rotated (history rs d').1.
Proof.
  intros Hd Hrun Hrs r t Hr Hu Hin.
  pose proof (run_alone_tokens answers (UpdateMe user name (Some pw)) d Hd) as [Hd' _]. rewrite Hrun in Hd'.
  destruct (run_update_password _ _ _ _ _ _ _ Hd Hrun) as [Hle Hall].
  destruct (history_rotated rs d' Hd' Hrs) as [_ H2]. rewrite Forall_forall in H2. apply (H2 _ Hin).
  destruct (Hle r t Hr) as (t' & Hr' & Hj & Hu' & _). exists r, t'. split_and!; [done..|].
  apply (Hall r t' Hr'). congruence.
Qed.
End Facts.

(** ** Registering and logging in *)

(** jsonwebtoken signs any claims. *)
Class JwtSigns `{Jwt} : Prop := signs : ∀ k c, ∃ t, encode k c = Ok t.

Section RegisterLogin.
Context `{Hjwt : Jwt} `{!JwtSigns} (to_lowercase : string → string) (stamp : Z → string)
  (hash_password : string → string → result string string)
  (verify_password : string → string → result string bool) (cfg : Config).
Notation exec := (exec to_lowercase stamp hash_password verify_password cfg).

Lemma session_ok a at_ rt created user d (answer : string → string → Claims → Body) :
  a.(a_ok) = true → (0 ≤ a.(a_secs))%Z → is_Some (d.(users) !! user) →
  d.(refresh_tokens) !! a.(a_id) = None →
  (∀ row t, d.(refresh_tokens) !! row = Some t → t.(rt_jti) ≠ a.(a_jti)) →
  ∃ d' access token c, session stamp cfg a at_ rt created user d answer = (d', inr (Ok (answer access token c))) ∧
    d'.(users) = d.(users).
Proof.
  intros Hok Hs Hu Hn Hj. unfold session, issue_access, issue_refresh.
  rewrite (proj2 (Z.ltb_ge _ _)) by done.
  destruct (signs cfg.(jwt_secret) (claims_for user a.(a_secs) at_ a.(a_access_jti))) as [access ->].
  destruct (signs cfg.(jwt_refresh_secret) (claims_for user a.(a_secs) rt a.(a_jti))) as [token ->].
  rewrite Hok. unfold insert_refresh. cbn [rt_jti rt_user claims_for jti].
  rewrite (bool_decide_false (is_Some (refresh_tokens d !! _))) by (rewrite Hn; by intros []).
  rewrite (bool_decide_false (map_Exists _ _)) by (intros (row & t & Ht & E); by eapply Hj).
  rewrite bool_decide_true by done. do 4 eexists. split; reflexivity.
Qed.

(** Who registers can log in: after a registration that was answered with a
    session, logging in with the same password, and the same email up to the
    white space and case that registration ignores, is answered with a session
    of the same account (when the login's own statements succeed and its random
    ids are new). *)
Theorem register_then_login d answers e e' pw name d1 id access token c b1 b2 rest :
  (∀ salt p h, hash_password salt p = Ok h → verify_password p h = Ok true) →
  (∀ s, lowered (to_lowercase s)) → emails_ok d →
  run_alone exec answers (Register e pw name) d = (d1, inr (Ok (BSession id access token c))) →
  to_lowercase (trim e') = to_lowercase (trim e) →
  b1.(a_ok) = true → b2.(a_ok) = true → (0 ≤ b2.(a_secs))%Z →
  d1.(refresh_tokens) !! b2.(a_id) = None →
  (∀ row t, d1.(refresh_tokens) !! row = Some t → t.(rt_jti) ≠ b2.(a_jti)) →
  ∃ d2 access' token' c',
    run_alone exec (b1 :: b2 :: rest) (Login e' pw) d1 = (d2, inr (Ok (BSession id access' token' c'))).
Proof.
  intros Hpw Hlow Hd Hrun He Hb1 Hb2 Hs Hid Hj.
  destruct answers as [|a1 answers]; [done|]. run_step_in Hrun.
  destruct (negb _); [done|]. destruct (validate_new _ _ _); [|done]. destruct (a_ok a1); [|done].
  destruct (by_email _ _); [done|]. destruct (hash_password _ _) as [h|] eqn:Eh; [|done].
  destruct answers as [|a2 answers]; [done|]. run_step_in Hrun.
  destruct (a_ok a2); [|done]. set (u := {| email := _ |}) in *.
  destruct (insert_user _ _ _) as [d0|] eqn:Ei; [|done]. apply insert_user_ok in Ei as (-> & Hnew & Hmail).
  destruct answers as [|a3 answers]; [done|]. run_step_in Hrun.
  match type of Hrun with context [session ?st ?cf ?a ?x ?y ?z ?us ?dd ?an] =>
    pose proof (session_spec st cf a x y z us dd an) as Hsp end.
  destruct (session _ _ _ _ _ _ _ _ _) as [d3 [p3|o3]]; [done|]. simplify_eq.
  destruct Hsp as (x & y & c0 & t & Hbody & -> & _). injection Hbody as Eid _ _ _.
  set (d0 := with_users _ d) in *.
  assert (Hd0 : emails_ok d0) by (apply emails_ok_insert; [done|apply Hlow|exact Hmail]).
  assert (Hu : d0.(users) !! a1.(a_id) = Some u) by (cbn; by rewrite lookup_insert_eq).
  run_step. rewrite Hb1, He. unfold fail, next.
  destruct (by_email _ _) as [[id' u']|] eqn:Eb.
  - apply by_email_Some in Eb as [Hu' Hl]. cbn [users with_tokens] in Hu'.
    destruct Hd0 as [Hd1 Hd2]. rewrite (Hlow (trim e)), (Hd1 _ _ Hu') in Hl.
    assert (id' = a_id a1) as -> by (by eapply Hd2). rewrite Hu in Hu'. injection Hu' as <-.
    change (password_hash u) with h. rewrite (Hpw _ _ _ Eh). run_step.
    destruct (session_ok b2 ACCESS_TOKEN_TTL_SECS REFRESH_TOKEN_TTL_SECS (a_now b2) (a_id a1)
      (with_tokens (<[a_id a3 := t]>) d0) (BSession (a_id a1)) Hb2 Hs) as (d2 & ac & to & cc & -> & _); [|done..|].
    + cbn [users with_tokens]. rewrite Hu. by eexists.
    + rewrite Eid. do 4 eexists. reflexivity.
  - exfalso. unfold by_email in Eb.
    pose proof (head_filter_map (λ kv : string * User, to_ascii_lowercase kv.2.(email) = to_ascii_lowercase (to_lowercase (trim e)))
      (users (with_tokens (<[a_id a3 := t]>) d0))) as Hh. rewrite Eb in Hh. by apply (Hh _ _ Hu).
Qed.
End RegisterLogin.

(** ** A run *)

(** Tokens in clear: the secret, the fields of the claims, separated by bars. *)
Definition ex_encode (k : string) (c : Claims) : result string string :=
  Ok (k +:+ "|" +:+ c.(sub) +:+ "|" +:+ pretty c.(iat) +:+ "|" +:+ pretty c.(exp) +:+ "|" +:+ c.(jti)).
Definition ex_field (t : string) : option (string * string) := split_once "|"%char t.
Definition ex_parts (t : string) : option (string * string * Z * Z * string) :=
  '(k, t) ← ex_field t; '(u, t) ← ex_field t; '(i, t) ← ex_field t; '(e, j) ← ex_field t;
  i ← parse_i64 i; e ← parse_i64 e; Some (k, u, i, e, j).
Definition ex_decode (k : string) (now : Z) (t : string) : result JwtError Claims :=
  match ex_parts t with
  | Some (k', u, i, e, j) =>
      if negb (String.eqb k k') then Err (OtherJwt "InvalidSignature")
      else if (e <? now - 60)%Z then Err ExpiredSignature
      else Ok {| sub := u; iat := i; exp := e; jti := j |}
  | None => Err (OtherJwt "InvalidToken")
  end.
#[local] Instance ex_jwt : Jwt := {| encode := ex_encode; decode := ex_decode |}.
#[local] Instance ex_signs : JwtSigns.
Proof. intros k c. eexists. reflexivity. Qed.

Definition ex_hash (salt pw : string) : result string string := Ok (pw +:+ "#" +:+ salt).
Definition ex_verify (pw h : string) : result string bool := Ok (starts_with (pw +:+ "#") h).
Definition ex_cfg : Config := {| registration_enabled := true; jwt_secret := "access"; jwt_refresh_secret := "refresh" |}.
Notation ex_exec := (exec to_ascii_lowercase pretty ex_hash ex_verify ex_cfg).
Definition ex_ans (id : string) (secs : Z) : Answer :=
  {| a_ok := true; a_id := id; a_jti := "j" +:+ id; a_access_jti := "x" +:+ id; a_now := pretty secs;
     a_secs := secs; a_salt := id |}.
Definition ex_empty : Db := {| users := ∅; refresh_tokens := ∅ |}.
Definition ex_register (e : string) : Proc := Register e "secret-pw" "Ann".

Notation run a p d := (run_alone ex_exec a p d).
Definition ex_registered : Db := Eval vm_compute in (run [ex_ans "1" 0; ex_ans "2" 0; ex_ans "3" 0] (ex_register "Ann@x.org") ex_empty).1.
Definition ex_token : string := "refresh|1|0|604800|j3".

Definition ex_requests : list (Proc * list Answer) :=
  [(Refresh ex_token, [ex_ans "4" 10; ex_ans "5" 10; ex_ans "6" 10]);
   (Refresh ex_token, [ex_ans "7" 20; ex_ans "8" 20; ex_ans "9" 20])].

Lemma ex_only_token : map_Forall (λ r t, r = "3" ∧ t.(rt_jti) = "j3") ex_registered.(refresh_tokens).
Proof.
  replace (ex_registered.(refresh_tokens)) with ({[ "3" := {| rt_user := "1"; rt_jti := "j3"; rt_expires_at := "604800";
    rt_created_at := "0"; revoked_at := None |} ]} : gmap string RefreshToken) by by vm_compute.
  by apply map_Forall_singleton.
Qed.
Lemma ex_tokens_ok : tokens_ok ex_registered.
Proof.
  pose proof ex_only_token as H.
  intros r r' t t' Hr Hr' _. destruct (H r t Hr) as [-> _], (H r' t' Hr') as [-> _]. done.
Qed.
Lemma ex_empty_emails : emails_ok ex_empty.
Proof. by split; cbn. Qed.
Lemma ex_lowered e : lowered (to_ascii_lowercase e).
Proof.
  unfold lowered, to_ascii_lowercase. induction e as [|c e IH]; cbn; [done|]. f_equal; [|done].
  by destruct c as [[] [] [] [] [] [] [] []].
Qed.

Lemma ex_reachable_registered : reachable ex_exec may_request admissible ex_empty
  {| db := ex_registered; procs := []; replies :=
     [Ok (BSession "1" "access|1|0|900|x3" ex_token {| sub := "1"; iat := 0; exp := 604800; jti := "j3" |})] |}.
Proof.
  unfold reachable.
  etransitivity; [apply (request_steps _ _ _ (boot ex_empty) (ex_register "Ann@x.org")); exact I|].
  apply (run_schedule_steps _ _ _ [(0, ex_ans "1" 0); (0, ex_ans "2" 0); (0, ex_ans "3" 0)]).
  - vm_compute. reflexivity.
  - vm_compute. repeat split.
Qed.

Example accounts_unique_witness : ∃ u, ex_registered.(users) !! "1" = Some u ∧ u.(email) = "ann@x.org" ∧
  (∀ id u', ex_registered.(users) !! id = Some u' → to_ascii_lowercase u'.(email) = "ann@x.org" → "1" = id).
Proof.
  destruct (ex_registered.(users) !! "1") as [u|] eqn:Hu; [|vm_compute in Hu; discriminate].
  exists u. assert (He : u.(email) = "ann@x.org") by (vm_compute in Hu; by injection Hu as <-).
  split_and!; [done..|]. intros id u' Hu' E.
  eapply (accounts_unique to_ascii_lowercase pretty ex_hash ex_verify ex_cfg ex_empty _ ex_lowered ex_empty_emails
    ex_reachable_registered "1" id u u' Hu Hu'). by rewrite He, E.
Defined.

Example refresh_single_use_witness : omap rotated (history to_ascii_lowercase pretty ex_hash ex_verify ex_cfg ex_requests ex_registered).1 = ["j3"] ∧
  NoDup (omap rotated (history to_ascii_lowercase pretty ex_hash ex_verify ex_cfg ex_requests ex_registered).1).
Proof.
  split; [by vm_compute|].
  apply (refresh_single_use to_ascii_lowercase pretty ex_hash ex_verify ex_cfg ex_requests ex_registered ex_tokens_ok).
  by repeat constructor.
Defined.

Example password_change_witness : ∃ d' b,
  run [ex_ans "a" 5; ex_ans "b" 5; ex_ans "c" 5; ex_ans "d" 5] (UpdateMe "1" None (Some "new-secret")) ex_registered = (d', inr (Ok b)) ∧
  "j3" ∉ omap rotated (history to_ascii_lowercase pretty ex_hash ex_verify ex_cfg ex_requests d').1.
Proof.
  destruct (run [ex_ans "a" 5; ex_ans "b" 5; ex_ans "c" 5; ex_ans "d" 5] (UpdateMe "1" None (Some "new-secret")) ex_registered)
    as [d' [p|[b|e]]] eqn:Hrun; [vm_compute in Hrun; discriminate| |vm_compute in Hrun; discriminate].
  exists d', b. split; [done|].
  destruct (ex_registered.(refresh_tokens) !! "3") as [t|] eqn:Ht; [|vm_compute in Ht; discriminate].
  assert (Hj : t.(rt_jti) = "j3" ∧ t.(rt_user) = "1") by (vm_compute in Ht; by injection Ht as <-).
  destruct Hj as [<- Hu].
  apply (password_change_ends_sessions to_ascii_lowercase pretty ex_hash ex_verify ex_cfg _ "1" None "new-secret" ex_registered d' b
    ex_requests ex_tokens_ok Hrun) with (r := "3"); [by repeat constructor|done..].
Defined.

Notation ex_claims := {| sub := "1"; iat := 0; exp := 604800; jti := "j3" |}.
Lemma ex_registers : run [ex_ans "1" 0; ex_ans "2" 0; ex_ans "3" 0] (ex_register "Ann@x.org") ex_empty =
  (ex_registered, inr (Ok (BSession "1" "access|1|0|900|x3" ex_token ex_claims))).
Proof. by vm_compute. Qed.

Example register_then_login_witness : ∃ d2 access' token' c',
  run [ex_ans "4" 9; ex_ans "5" 9] (Login " ANN@X.ORG " "secret-pw") ex_registered =
    (d2, inr (Ok (BSession "1" access' token' c'))).
Proof.
  apply (register_then_login to_ascii_lowercase pretty ex_hash ex_verify ex_cfg ex_empty _ "Ann@x.org" " ANN@X.ORG "
    "secret-pw" "Ann" ex_registered "1" _ _ _ (ex_ans "4" 9) (ex_ans "5" 9) []) with (6 := eq_refl) (7 := eq_refl)
    (5 := eq_refl) (4 := ex_registers).
  - intros salt p h [= <-]. unfold ex_verify. f_equal. rewrite str_app_assoc. apply prefix_refl_app.
  - apply ex_lowered.
  - apply ex_empty_emails.
  - done.
  - by vm_compute.
  - intros row t Ht E. destruct (ex_only_token row t Ht) as [_ E']. rewrite E' in E. by vm_compute in E.
Defined.

(** Two refreshes with the same token at once both succeed: each finds the token
    live before either revokes it. *)
Example concurrent_refreshes_both_succeed :
  match run_schedule ex_exec [(0, ex_ans "4" 10); (1, ex_ans "5" 10); (0, ex_ans "6" 10); (1, ex_ans "7" 10);
      (0, ex_ans "8" 10); (0, ex_ans "9" 10)]
    {| db := ex_registered; procs := [Refresh ex_token; Refresh ex_token]; replies := [] |} with
  | Some s => omap rotated s.(replies)
  | None => []
  end = ["j3"; "j3"].
Proof. by vm_compute. Qed.

(** A refresh that has revoked its token and not yet stored the new one outlives
    a password change: the token it stores is not revoked. *)
Example password_change_misses_refresh :
  match run_schedule ex_exec [(0, ex_ans "4" 10); (0, ex_ans "5" 10);
      (1, ex_ans "6" 10); (1, ex_ans "7" 10); (1, ex_ans "8" 10); (1, ex_ans "9" 10); (0, ex_ans "a" 10)]
    {| db := ex_registered; procs := [Refresh ex_token; UpdateMe "1" None (Some "new-secret")]; replies := [] |} with
  | Some s => (λ t, t.(revoked_at)) <$> s.(db).(refresh_tokens) !! "a"
  | None => None
  end = Some None.
Proof. by vm_compute. Qed.
