(* ===== verification/ServerConfig.v ===== *)
(** * Configuration (crates/core/src/config.rs, src/main.rs)

    [Config::from_env] and its parsers, the configuration of the embedded
    server, and the loading of the credential key.  An environment maps names to
    [EnvVar]s: [std::env::var] fails on a variable that is not Unicode as it does
    on an absent one.  Unicode lower-casing and the hex crate are parameters. *)

From S2P Require Import Prelude RustStr Accounts.
From stdpp Require Import strings.

Inductive EnvVar : Type := Unset | NotUnicode | Value (s : string).
Definition Env : Type := string → EnvVar.
(** [std::env::var(..).ok()]. *)
Definition var (env : Env) (key : string) : option string :=
  match env key with Value s => Some s | Unset | NotUnicode => None end.

Record Config := {
  host : string; port : Z; jwt_secret : string; jwt_refresh_secret : string;
  database_url : string; registration_enabled : bool; funnel_lite_enabled : bool;
  drift_default_interval_mins : Z; drift_webhook_timeout_secs : Z;
  data_sync_default_batch_size : Z; data_sync_max_concurrency : Z;
  mcp_rate_limit_per_minute : Z; mcp_read_query_max_rows : Z; mcp_read_query_timeout_secs : Z;
  mcp_allowed_hosts : list string; mcp_allowed_connections : list string;
  gw_rate_limit_per_minute : Z; gw_query_default_rows : Z; gw_query_max_rows : Z;
  gw_query_timeout_secs : Z;
  slow_query_enabled : bool; slow_query_threshold_ms : Z; slow_query_store_sql : bool;
  slow_query_retention_days : Z; slow_query_cap_per_digest_per_hour : Z }.

Definition DEV_MODE_ENV : string := "DBMASTER_DEV".
Definition dev_mode (env : Env) : bool := bool_decide (var env DEV_MODE_ENV = Some "1").

Definition secret_error (key : string) : string :=
  key +:+ " not set and " +:+ DEV_MODE_ENV +:+ " != 1; refusing to start with an insecure fallback (this repo is public — a hardcoded secret would let anyone forge auth tokens). Set "
  +:+ key +:+ " to a strong random value (e.g. `openssl rand -base64 64`) or set "
  +:+ DEV_MODE_ENV +:+ "=1 for local development.".
Definition resolve_secret_env (env : Env) (key dev_default : string) : result string string :=
  let fallback := if dev_mode env then Ok dev_default else Err (secret_error key) in
  match var env key with
  | Some v => if is_empty (trim v) then fallback else Ok v
  | None => fallback
  end.

Definition parse_interval_env (env : Env) (key : string) (default_ min max : Z) : Z :=
  match var env key with
  | Some raw => match parse_u32 (trim raw) with
                | Some v => if (min <=? v)%Z && (v <=? max)%Z then v else default_
                | None => default_
                end
  | None => default_
  end.
Definition parse_u64_env (env : Env) (key : string) (default_ : Z) : Z :=
  match var env key with
  | Some raw => default default_ (parse_u64 (trim raw))
  | None => default_
  end.
Definition parse_list_env (env : Env) (key : string) : list string :=
  match var env key with
  | Some raw => List.filter (λ s, negb (is_empty s)) (trim <$> split_on ","%char raw)
  | None => []
  end.

Section FromEnv.
(** [str::to_lowercase]. *)
Context (to_lowercase : string → string).

Definition truthy : list string := ["1"; "true"; "yes"; "on"].
Definition parse_bool_env (env : Env) (key : string) (default_ : bool) : bool :=
  match var env key with
  | Some s => bool_decide (to_lowercase s ∈ truthy)
  | None => default_
  end.

Definition from_env (env : Env) : result string Config :=
  secret ← resolve_secret_env env "SERVER_JWT_SECRET" "dev-jwt-secret-change-in-production";
  refresh ← resolve_secret_env env "SERVER_JWT_REFRESH_SECRET" "dev-refresh-secret-change-in-production";
  Ok {| host := default "0.0.0.0" (var env "SERVER_HOST");
        port := default 3000%Z (parse_u16 (default "3000" (var env "SERVER_PORT")));
        jwt_secret := secret; jwt_refresh_secret := refresh;
        database_url := default "sqlite:dbmaster.db?mode=rwc" (var env "DATABASE_URL");
        registration_enabled := parse_bool_env env "DBMASTER_REGISTRATION_ENABLED" true;
        funnel_lite_enabled := parse_bool_env env "DBMASTER_FUNNEL_LITE_ENABLED" true;
        drift_default_interval_mins := parse_interval_env env "DBMASTER_DRIFT_DEFAULT_INTERVAL_MINS" 30 1 1440;
        drift_webhook_timeout_secs := parse_u64_env env "DBMASTER_DRIFT_WEBHOOK_TIMEOUT_SECS" 10;
        data_sync_default_batch_size := parse_u64_env env "DBMASTER_DATASYNC_BATCH_SIZE" 10000;
        data_sync_max_concurrency := parse_interval_env env "DBMASTER_DATASYNC_MAX_CONCURRENCY" 1 1 32;
        mcp_rate_limit_per_minute := parse_interval_env env "DBMASTER_MCP_RATE_LIMIT_PER_MIN" 120 1 10000;
        mcp_read_query_max_rows := parse_interval_env env "DBMASTER_MCP_READ_QUERY_MAX_ROWS" 10000 1 100000;
        mcp_read_query_timeout_secs := parse_interval_env env "DBMASTER_MCP_READ_QUERY_TIMEOUT_SECS" 30 1 600;
        mcp_allowed_hosts := parse_list_env env "DBMASTER_MCP_ALLOWED_HOSTS";
        mcp_allowed_connections := parse_list_env env "DBMASTER_MCP_ALLOWED_CONNECTIONS";
        gw_rate_limit_per_minute := parse_interval_env env "DBMASTER_GW_RATE_LIMIT_PER_MIN" 600 1 100000;
        gw_query_default_rows := parse_interval_env env "DBMASTER_GW_QUERY_DEFAULT_ROWS" 500 1 100000;
        gw_query_max_rows := parse_interval_env env "DBMASTER_GW_QUERY_MAX_ROWS" 10000 1 100000;
        gw_query_timeout_secs := parse_interval_env env "DBMASTER_GW_QUERY_TIMEOUT_SECS" 30 1 600;
        slow_query_enabled := parse_bool_env env "DBMASTER_SLOW_QUERY_ENABLED" true;
        slow_query_threshold_ms := parse_interval_env env "DBMASTER_SLOW_QUERY_THRESHOLD_MS" 1000 100 600000;
        slow_query_store_sql := parse_bool_env env "DBMASTER_SLOW_QUERY_STORE_SQL" true;
        slow_query_retention_days := parse_interval_env env "DBMASTER_SLOW_QUERY_RETENTION_DAYS" 14 1 365;
        slow_query_cap_per_digest_per_hour :=
          parse_interval_env env "DBMASTER_SLOW_QUERY_CAP_PER_DIGEST_PER_HOUR" 20 1 10000 |}.
End FromEnv.

(** [run_embedded]: random secrets, the loopback address, no registration. *)
Definition embedded_config (secret refresh db_path : string) : Config :=
  {| host := "127.0.0.1"; port := 0; jwt_secret := secret; jwt_refresh_secret := refresh;
     database_url := "sqlite:" +:+ db_path +:+ "?mode=rwc"; registration_enabled := false;
     funnel_lite_enabled := true; drift_default_interval_mins := 30; drift_webhook_timeout_secs := 10;
     data_sync_default_batch_size := 10000; data_sync_max_concurrency := 1;
     mcp_rate_limit_per_minute := 120; mcp_read_query_max_rows := 10000; mcp_read_query_timeout_secs := 30;
     mcp_allowed_hosts := []; mcp_allowed_connections := [];
     gw_rate_limit_per_minute := 600; gw_query_default_rows := 500; gw_query_max_rows := 10000;
     gw_query_timeout_secs := 30; slow_query_enabled := true; slow_query_threshold_ms := 1000;
     slow_query_store_sql := true; slow_query_retention_days := 14;
     slow_query_cap_per_digest_per_hour := 20 |}.

Definition LOOPBACK : list string := ["127.0.0.1"; "localhost"; "::1"].
Definition registration_exposure_warn (enabled : bool) (host_ : string) (dev : bool) : bool :=
  enabled && negb (bool_decide (host_ ∈ LOOPBACK)) && negb dev.

Definition CREDENTIAL_KEY_ENV : string := "DBMASTER_CREDENTIAL_KEY".
(** [load_credential_key]; [random] is what the generator draws. *)
Definition load_credential_key (hex_decode : string → result string (list Z)) (random : list Z) (env : Env)
    : result string (list Z) :=
  match var env CREDENTIAL_KEY_ENV with
  | Some raw =>
      match hex_decode (trim raw) with
      | Err e => Err (CREDENTIAL_KEY_ENV +:+ ": invalid hex (" +:+ e +:+ ")")
      | Ok bytes => if decide (length bytes = 32) then Ok bytes
                    else Err (CREDENTIAL_KEY_ENV +:+ ": must be 32 bytes (64 hex chars)")
      end
  | None =>
      if dev_mode env then Ok random
      else Err (CREDENTIAL_KEY_ENV +:+ " not set and " +:+ DEV_MODE_ENV +:+ " != 1; refusing to start. Set "
        +:+ CREDENTIAL_KEY_ENV +:+ " to a 32-byte hex value (e.g. `openssl rand -hex 32`) or set "
        +:+ DEV_MODE_ENV +:+ "=1 for local development.")
  end.

(** What the account handlers read of it. *)
Definition accounts_config (c : Config) : Accounts.Config :=
  {| Accounts.registration_enabled := c.(registration_enabled);
     Accounts.jwt_secret := c.(jwt_secret); Accounts.jwt_refresh_secret := c.(jwt_refresh_secret) |}.

(** ** Bounds *)

Definition within (lo hi x : Z) : Prop := (lo ≤ x ≤ hi)%Z.

(** The ranges the rest of the server relies on. *)
Definition in_bounds (c : Config) : Prop :=
  within 0 (2 ^ 16 - 1) c.(port) ∧ within 1 1440 c.(drift_default_interval_mins) ∧
  within 0 u64_max c.(drift_webhook_timeout_secs) ∧ within 0 u64_max c.(data_sync_default_batch_size) ∧
  within 1 32 c.(data_sync_max_concurrency) ∧ within 1 10000 c.(mcp_rate_limit_per_minute) ∧
  within 1 100000 c.(mcp_read_query_max_rows) ∧ within 1 600 c.(mcp_read_query_timeout_secs) ∧
  within 1 100000 c.(gw_rate_limit_per_minute) ∧ within 1 100000 c.(gw_query_default_rows) ∧
  within 1 100000 c.(gw_query_max_rows) ∧ within 1 600 c.(gw_query_timeout_secs) ∧
  within 100 600000 c.(slow_query_threshold_ms) ∧ within 1 365 c.(slow_query_retention_days) ∧
  within 1 10000 c.(slow_query_cap_per_digest_per_hour).
Definition clean_list (l : list string) : Prop := Forall (λ s, is_empty s = false) l.

Lemma parse_below_range limit s n : parse_below limit s = Some n → within 0 limit n.
Proof.
  unfold parse_below, parse_u64, within. destruct (parse_digits _) as [m|]; [|done]. cbn.
  destruct (decide _) as [_|]; [|done]. cbn. case_decide; [|done]. intros [= <-]. lia.
Qed.
Lemma parse_u64_range s n : parse_u64 s = Some n → within 0 u64_max n.
Proof.
  unfold parse_u64, within. destruct (parse_digits _) as [m|]; [|done]. cbn.
  destruct (decide _) as [Hm|]; [|done]. intros [= <-]. lia.
Qed.

Lemma parse_interval_range env key d lo hi : within lo hi d → within lo hi (parse_interval_env env key d lo hi).
Proof.
  intros Hd. unfold parse_interval_env. destruct (var env key) as [raw|]; [|done].
  destruct (parse_u32 _) as [v|]; [|done]. destruct (_ && _) eqn:E; [|done].
  apply andb_true_iff in E as [E1 E2]. apply Z.leb_le in E1, E2. done.
Qed.
Lemma parse_u64_env_range env key d : within 0 u64_max d → within 0 u64_max (parse_u64_env env key d).
Proof.
  intros Hd. unfold parse_u64_env. destruct (var env key) as [raw|]; [|done].
  destruct (parse_u64 _) as [v|] eqn:E; [|done]. by apply parse_u64_range in E.
Qed.
Lemma parse_list_clean env key : clean_list (parse_list_env env key).
Proof.
  unfold clean_list, parse_list_env. destruct (var env key) as [raw|]; [|constructor].
  apply Forall_forall. intros s Hs. apply list_elem_of_In, List.filter_In in Hs as [_ Hs].
  by apply negb_true_iff in Hs.
Qed.

Lemma from_env_in_bounds to_lowercase env c : from_env to_lowercase env = Ok c → in_bounds c.
Proof.
  unfold from_env. intros (secret & _ & H)%bind_ok_inv. apply bind_ok_inv in H as (refresh & _ & [= <-]).
  assert (Hport : within 0 (2 ^ 16 - 1) (default 3000%Z (parse_u16 (default "3000" (var env "SERVER_PORT"))))).
  { unfold parse_u16. destruct (parse_below _ _) as [n|] eqn:E; [|done]. by apply parse_below_range in E. }
  unfold in_bounds. cbn -[Z.pow u64_max]. split_and!; [exact Hport|..];
    first [apply parse_interval_range|apply parse_u64_env_range]; done.
Qed.

(** Whatever the environment holds, a configuration the server starts with
    is in the ranges the rest of the program relies on: a limit, window or
    interval is never zero, a port fits its type, and no entry of the two lists
    is blank. *)
Theorem config_in_bounds to_lowercase env c :
  from_env to_lowercase env = Ok c →
  in_bounds c ∧ clean_list c.(mcp_allowed_hosts) ∧ clean_list c.(mcp_allowed_connections).
Proof.
  intros Hc. split; [by eapply from_env_in_bounds|]. revert Hc.
  unfold from_env. intros (secret & _ & H)%bind_ok_inv. apply bind_ok_inv in H as (refresh & _ & [= <-]).
  split; apply parse_list_clean.
Qed.

(** The variable of a secret is usable. *)
Definition set_secret (env : Env) (key v : string) : Prop := var env key = Some v ∧ is_empty (trim v) = false.

Lemma resolve_secret_ok env key d v : resolve_secret_env env key d = Ok v ↔
  set_secret env key v ∨ (dev_mode env = true ∧ v = d ∧ ¬ ∃ v', set_secret env key v').
Proof.
  unfold resolve_secret_env, set_secret. destruct (var env key) as [x|] eqn:E.
  - destruct (is_empty (trim x)) eqn:Ex; destruct (dev_mode env) eqn:Ed; naive_solver congruence.
  - destruct (dev_mode env); naive_solver.
Qed.
Lemma resolve_secret_err env key d e : resolve_secret_env env key d = Err e ↔
  dev_mode env = false ∧ (¬ ∃ v, set_secret env key v) ∧ e = secret_error key.
Proof.
  unfold resolve_secret_env, set_secret. destruct (var env key) as [x|] eqn:E.
  - destruct (is_empty (trim x)) eqn:Ex; destruct (dev_mode env) eqn:Ed; naive_solver congruence.
  - destruct (dev_mode env); naive_solver.
Qed.

(**  Outside development mode the server signs only with secrets it was given:
    it starts exactly when both variables hold something, then uses them
    unchanged, and otherwise fails with an error that names the first missing
    variable and quotes no value. *)
Theorem starts_only_with_secrets to_lowercase env :
  dev_mode env = false →
  (∀ c, from_env to_lowercase env = Ok c →
     set_secret env "SERVER_JWT_SECRET" c.(jwt_secret) ∧
     set_secret env "SERVER_JWT_REFRESH_SECRET" c.(jwt_refresh_secret)) ∧
  (∀ e, from_env to_lowercase env = Err e ↔
     ((¬ ∃ v, set_secret env "SERVER_JWT_SECRET" v) ∧ e = secret_error "SERVER_JWT_SECRET") ∨
     ((∃ v, set_secret env "SERVER_JWT_SECRET" v) ∧
      (¬ ∃ v, set_secret env "SERVER_JWT_REFRESH_SECRET" v) ∧ e = secret_error "SERVER_JWT_REFRESH_SECRET")).
Proof.
  intros Hdev. unfold from_env.
  destruct (resolve_secret_env env "SERVER_JWT_SECRET" _) as [s|e1] eqn:E1.
  - apply resolve_secret_ok in E1 as [Hs|(? & _)]; [|congruence].
    destruct (resolve_secret_env env "SERVER_JWT_REFRESH_SECRET" _) as [r|e2] eqn:E2.
    + apply resolve_secret_ok in E2 as [Hr|(? & _)]; [|congruence].
      split; [by intros c [= <-]|]. intros e. split; [done|]. naive_solver.
    + apply resolve_secret_err in E2 as (_ & Hn & ->). split; [done|]. cbn. naive_solver.
  - apply resolve_secret_err in E1 as (_ & Hn & ->). split; [done|]. cbn. naive_solver.
Qed.

(** ** Examples *)

Definition ex_env (l : list (string * string)) : Env := λ k,
  match list_find (λ p, p.1 = k) l with Some (_, p) => Value p.2 | None => Unset end.
Definition ex_good : Env := ex_env
  [("SERVER_JWT_SECRET", "s1"); ("SERVER_JWT_REFRESH_SECRET", "s2"); ("SERVER_PORT", "70000");
   ("DBMASTER_MCP_READ_QUERY_MAX_ROWS", "0"); ("DBMASTER_MCP_RATE_LIMIT_PER_MIN", " 7 ");
   ("DBMASTER_MCP_ALLOWED_CONNECTIONS", "a, ,b")].
Definition ex_config : Config := Eval vm_compute in
  match from_env to_ascii_lowercase ex_good with Ok c => c | Err _ => embedded_config "" "" "" end.

Lemma ex_from_env : from_env to_ascii_lowercase ex_good = Ok ex_config.
Proof. by vm_compute. Qed.

Example config_in_bounds_witness :
  in_bounds ex_config ∧ ex_config.(mcp_rate_limit_per_minute) = 7%Z ∧
  ex_config.(mcp_read_query_max_rows) = 10000%Z ∧ ex_config.(mcp_allowed_connections) = ["a"; "b"].
Proof. split; [apply (config_in_bounds _ _ _ ex_from_env)|done]. Defined.

Example starts_only_with_secrets_witness :
  set_secret ex_good "SERVER_JWT_SECRET" "s1" ∧
  from_env to_ascii_lowercase (ex_env [("SERVER_JWT_SECRET", "s1")]) = Err (secret_error "SERVER_JWT_REFRESH_SECRET").
Proof.
  split.
  - destruct (starts_only_with_secrets to_ascii_lowercase ex_good eq_refl) as [H _].
    apply (H _ ex_from_env).
  - destruct (starts_only_with_secrets to_ascii_lowercase (ex_env [("SERVER_JWT_SECRET", "s1")]) eq_refl) as [_ H].
    apply H. right. split; [by exists "s1"|]. split; [|done]. intros (v & Hv & _). vm_compute in Hv. discriminate.
Defined.

(** Equal secrets are accepted, and then a refresh token passes for an access
    token. *)
Example equal_secrets_confuse_tokens :
  match from_env to_ascii_lowercase (ex_env [("SERVER_JWT_SECRET", "k"); ("SERVER_JWT_REFRESH_SECRET", "k")]) with
  | Ok c => authenticate (H := ex_jwt) (accounts_config c) 5000 (Some "Bearer k|u1|0|604800|j1")
  | Err e => Err (AppError.Internal e)
  end = Ok {| sub := "u1"; iat := 0; exp := 604800; jti := "j1" |}.
Proof. by vm_compute. Qed.

(** A value that is not Unicode counts as absent: registration stays open. *)
Example not_unicode_fails_open :
  parse_bool_env to_ascii_lowercase (λ _, NotUnicode) "DBMASTER_REGISTRATION_ENABLED" true = true.
Proof. done. Qed.
