(* ===== verification/Credential.v ===== *)
(** * Stored credentials (crates/automation/src/credential.rs)

    The two storage formats, encryption, decryption and the one-shot migration
    of legacy rows.  AES-256-GCM and base64 are third-party and enter as the
    class [Cipher], with what their documentation promises as [CipherLaws]; a
    nonce is the twelve bytes drawn for it. *)

From S2P Require Import Prelude RustStr.
From stdpp Require Import strings gmap.

Definition V1_PREFIX : string := "v1:".
Definition LEGACY_ENC_PREFIX : string := "enc:".
Definition NONCE_LEN : nat := 12.

Inductive CredentialError : Type := UnknownFormat | Malformed | DecryptFailed.
#[global] Instance CredentialError_eq_dec : EqDecision CredentialError.
Proof. solve_decision. Defined.

Definition display (e : CredentialError) : string :=
  match e with
  | UnknownFormat => "unknown credential format"
  | Malformed => "malformed v1 credential"
  | DecryptFailed => "credential decryption failed"
  end.

(** AES-256-GCM under a key and a nonce, with this module's associated data;
    base64. *)
Class Cipher := {
  seal : string → string → string → result string string;
  open_ : string → string → string → option string;
  b64_encode : string → string;
  b64_decode : string → option string }.
Class CipherLaws `{Cipher} : Prop := {
  open_seal k n m ct : seal k n m = Ok ct → open_ k n ct = Some m;
  decode_encode x : b64_decode (b64_encode x) = Some x;
  encode_no_colon x : no_char ":"%char (b64_encode x) = true }.

Section Credentials.
Context `{Cipher}.

Definition encrypt_v1 (nonce plaintext key : string) : result string string :=
  match seal key nonce plaintext with
  | Err e => Err ("aes-gcm encrypt: " +:+ e)
  | Ok ct => Ok (V1_PREFIX +:+ b64_encode nonce +:+ ":" +:+ b64_encode ct)
  end.

Definition decrypt_v1 (stored key : string) : result CredentialError string :=
  rest ← ok_or (str_strip_prefix V1_PREFIX stored) UnknownFormat;
  '(nonce_b64, ct_b64) ← ok_or (split_once ":"%char rest) Malformed;
  nonce_bytes ← ok_or (b64_decode nonce_b64) Malformed;
  ct ← ok_or (b64_decode ct_b64) Malformed;
  if negb (String.length nonce_bytes =? NONCE_LEN) then Err Malformed
  else pt ← ok_or (open_ key nonce_bytes ct) DecryptFailed;
       if from_utf8 pt then Ok pt else Err DecryptFailed.

Definition decrypt_password (stored key : string) : result CredentialError string :=
  match str_strip_prefix LEGACY_ENC_PREFIX stored with
  | Some plain => Ok plain
  | None => decrypt_v1 stored key
  end.

Definition redact_id (id : string) : string :=
  let len := char_count id in
  if len <=? 4 then "***" else take_chars 4 id +:+ "***(" +:+ decimal (N.of_nat len) +:+ ")".

(** The column [password_encrypted] of [database_connections]. *)
Notation Column := (gmap string string).

(** The loop of [migrate_legacy_credentials] over the rows read; [nonces] and
    [updates] are what the [i]-th encryption draws and the [i]-th UPDATE
    answers. *)
Fixpoint migrate_rows (key : string) (nonces : nat → string) (updates : nat → bool) (i migrated : nat)
    (rows : list (string * string)) (t : Column) : result string nat * Column :=
  match rows with
  | [] => (Ok migrated, t)
  | (id, stored) :: rows' =>
      match str_strip_prefix LEGACY_ENC_PREFIX stored with
      | None => migrate_rows key nonces updates i migrated rows' t
      | Some plaintext =>
          match encrypt_v1 (nonces i) plaintext key with
          | Err e => (Err e, t)
          | Ok new_ct =>
              if updates i
              then migrate_rows key nonces updates (S i) (S migrated) rows' (alter (λ _, new_ct) id t)
              else (Err ("update row " +:+ redact_id id), t)
          end
      end
  end.
Definition migrate_legacy_credentials (key : string) (nonces : nat → string) (updates : nat → bool)
    (scan : result string (list (string * string))) (t : Column) : result string nat * Column :=
  match scan with
  | Err e => (Err e, t)
  | Ok rows => migrate_rows key nonces updates 0 0 rows t
  end.
End Credentials.

(** ** Encryption *)

Definition legacy (stored : string) : bool := starts_with LEGACY_ENC_PREFIX stored.

Lemma strip_legacy s : str_strip_prefix LEGACY_ENC_PREFIX s = None ↔ legacy s = false.
Proof.
  unfold legacy, starts_with. generalize LEGACY_ENC_PREFIX as p. intros p. revert s.
  induction p as [|a p IH]; intros s; [by destruct s|]. destruct s as [|b s]; [done|]. cbn.
  destruct (ascii_dec a b) as [E|Hne]; [rewrite decide_True by done; apply IH|by rewrite decide_False].
Qed.

Lemma strip_legacy_Some s p : str_strip_prefix LEGACY_ENC_PREFIX s = Some p → legacy s = true.
Proof. intros H. destruct (legacy s) eqn:E; [done|]. apply strip_legacy in E. congruence. Qed.

Lemma utf8_legacy p : from_utf8 (LEGACY_ENC_PREFIX +:+ p) = from_utf8 p.
Proof. reflexivity. Qed.

Section Laws.
Context `{CipherLaws}.

(** What was encrypted is read back under the key, by both decoders. *)
Lemma encrypt_decrypt nonce p key s : String.length nonce = NONCE_LEN → from_utf8 p = true →
  encrypt_v1 nonce p key = Ok s → legacy s = false ∧ decrypt_password s key = Ok p.
Proof.
  intros Hn Hp. unfold encrypt_v1. destruct (seal key nonce p) as [ct|e] eqn:Es; [|done]. intros [= <-].
  assert (Hl : str_strip_prefix LEGACY_ENC_PREFIX (V1_PREFIX +:+ b64_encode nonce +:+ ":" +:+ b64_encode ct) = None)
    by reflexivity.
  split; [by apply strip_legacy|]. unfold decrypt_password. rewrite Hl. unfold decrypt_v1.
  rewrite strip_prefix_app. cbn [ok_or mbind result_mbind].
  rewrite (proj2 (split_once_spec ":"%char _ (b64_encode nonce) (b64_encode ct)))
    by (split; [reflexivity|apply encode_no_colon]).
  cbn [ok_or mbind result_mbind]. rewrite !decode_encode. cbn [ok_or mbind result_mbind].
  rewrite Hn, (open_seal _ _ _ _ Es). cbn. by rewrite Hp.
Qed.

(** ** Migration *)

Notation Column := (gmap string string).

(** A row afterwards: it reads as it did, and is itself or re-encrypted. *)
Definition kept (key v v' : string) : Prop :=
  decrypt_password v' key = decrypt_password v key ∧ (v' = v ∨ legacy v = true ∧ legacy v' = false).
Definition same_rows (key : string) (t t' : Column) : Prop := ∀ id,
  match t !! id, t' !! id with Some v, Some v' => kept key v v' | None, None => True | _, _ => False end.

Lemma kept_refl key v : kept key v v.
Proof. split; [done|by left]. Qed.
Lemma same_rows_refl key t : same_rows key t t.
Proof. intros id. destruct (t !! id); [apply kept_refl|done]. Qed.
Lemma same_rows_trans key t1 t2 t3 : same_rows key t1 t2 → same_rows key t2 t3 → same_rows key t1 t3.
Proof.
  intros H1 H2 id. specialize (H1 id). specialize (H2 id).
  destruct (t1 !! id), (t2 !! id), (t3 !! id); try done. unfold kept in *. destruct H1 as [E1 O1], H2 as [E2 O2].
  split; [congruence|]. destruct O1 as [->|[? ?]], O2 as [->|[? ?]]; auto.
Qed.

Lemma same_rows_update key t id v v' : t !! id = Some v → kept key v v' →
  same_rows key t (alter (λ _, v') id t).
Proof.
  intros Hid Hk j. destruct (decide (j = id)) as [->|Hne].
  - by rewrite lookup_alter_eq, Hid.
  - rewrite lookup_alter_ne by done. destruct (t !! j); [apply kept_refl|done].
Qed.

Definition legacy_rows (rows : list (string * string)) : nat := length (filter (λ r, legacy r.2 = true) rows).

Lemma migrate_rows_spec key nonces updates rows : ∀ i n t,
  (∀ j, String.length (nonces j) = NONCE_LEN) → NoDup rows.*1 →
  Forall (λ r, t !! r.1 = Some r.2 ∧ from_utf8 r.2 = true) rows →
  let '(r, t') := migrate_rows key nonces updates i n rows t in
  same_rows key t t' ∧ (∀ id, id ∉ rows.*1 → t' !! id = t !! id) ∧
  match r with
  | Ok m => m = n + legacy_rows rows ∧ ∀ id v, id ∈ rows.*1 → t' !! id = Some v → legacy v = false
  | Err _ => True
  end.
Proof.
  induction rows as [|[id v] rows IH]; intros i n t Hn Hnd Hrows; cbn [migrate_rows].
  { split; [apply same_rows_refl|]. split; [done|]. split; [by rewrite Nat.add_0_r|]. by intros ? ? ?%elem_of_nil. }
  apply Forall_cons in Hrows as [[Hid Hu] Hrows]. apply NoDup_cons in Hnd as [Hnin Hnd]. cbn [fst snd] in *.
  destruct (str_strip_prefix LEGACY_ENC_PREFIX v) as [p|] eqn:Es.
  - pose proof (strip_prefix_Some _ _ _ Es) as ->. rewrite utf8_legacy in Hu.
    destruct (encrypt_v1 (nonces i) p key) as [ct|e] eqn:Ee; [|by split; [apply same_rows_refl|]].
    destruct (updates i); [|by split; [apply same_rows_refl|]].
    destruct (encrypt_decrypt _ _ _ _ (Hn i) Hu Ee) as [Hl Hd].
    assert (Hk : same_rows key t (alter (λ _, ct) id t)).
    { apply (same_rows_update _ _ _ _ _ Hid). split; [|right; split; [by eapply strip_legacy_Some|done]].
      rewrite Hd. unfold decrypt_password. by rewrite Es. }
    specialize (IH (S i) (S n) (alter (λ _, ct) id t) Hn Hnd).
    destruct (migrate_rows _ _ _ _ _ _ _) as [r t']. destruct IH as (H1 & H2 & H3).
    { rewrite Forall_forall in *. intros [j w] Hj. cbn.
      rewrite lookup_alter_ne; [by apply (Hrows _ Hj)|]. intros ->. apply Hnin. by apply (list_elem_of_fmap_2 fst) in Hj. }
    split; [by eapply same_rows_trans|]. split.
    + intros j [Hj1 Hj2]%not_elem_of_cons.
      by rewrite H2, lookup_alter_ne by done.
    + destruct r as [m|]; [|done]. destruct H3 as [-> H3]. split.
      * unfold legacy_rows. rewrite filter_cons_True by (by eapply strip_legacy_Some). cbn. lia.
      * intros j w [->|Hj]%elem_of_cons Hw; [|by eapply H3].
        cbn [fst] in Hw. rewrite H2, lookup_alter_eq, Hid in Hw by done. by injection Hw as <-.
  - apply strip_legacy in Es. specialize (IH i n t Hn Hnd Hrows).
    destruct (migrate_rows _ _ _ _ _ _ _) as [r t']. destruct IH as (H1 & H2 & H3). split; [done|]. split.
    + intros j [_ Hj]%not_elem_of_cons. by apply H2.
    + destruct r as [m|]; [|done]. destruct H3 as [-> H3]. split.
      * unfold legacy_rows. by rewrite filter_cons_False by (cbn [snd]; congruence).
      * intros j w [->|Hj]%elem_of_cons Hw; [|by eapply H3].
        cbn [fst] in Hw. rewrite H2, Hid in Hw by done. by injection Hw as <-.
Qed.

Lemma migrate_rows_none key nonces updates rows i n t : Forall (λ r, legacy r.2 = false) rows →
  migrate_rows key nonces updates i n rows t = (Ok n, t).
Proof.
  induction 1 as [|[id v] rows Hv _ IH]; [done|]. cbn [migrate_rows]. cbn in Hv.
  apply strip_legacy in Hv. by rewrite Hv.
Qed.

(** A whole table: what every outcome keeps, and what completing means. *)
Lemma migrate_table key nonces updates rows t :
  (∀ j, String.length (nonces j) = NONCE_LEN) → rows ≡ₚ map_to_list t → map_Forall (λ _ v, from_utf8 v = true) t →
  let '(r, t') := migrate_legacy_credentials key nonces updates (Ok rows) t in
  same_rows key t t' ∧ ∀ m, r = Ok m → m = legacy_rows rows ∧ map_Forall (λ _ v, legacy v = false) t'.
Proof.
  intros Hn Hrows Hu. unfold migrate_legacy_credentials.
  assert (Hin : ∀ id v, (id, v) ∈ rows ↔ t !! id = Some v) by (intros id v; rewrite Hrows; apply elem_of_map_to_list).
  pose proof (migrate_rows_spec key nonces updates rows 0 0 t Hn) as H1.
  destruct (migrate_rows _ _ _ _ _ rows t) as [r t']. destruct H1 as (H1 & _ & H3).
  { rewrite Hrows. apply NoDup_fst_map_to_list. }
  { apply Forall_forall. intros [id v] Hv. apply Hin in Hv. split; [done|]. by apply (Hu id). }
  split; [done|]. intros m ->. destruct H3 as [-> H3]. split; [done|].
  intros id v Hv. apply (H3 id v); [|done]. specialize (H1 id). rewrite Hv in H1.
  destruct (t !! id) as [w|] eqn:Et; [|done]. apply Hin in Et. by apply (list_elem_of_fmap_2 fst) in Et.
Qed.

(** C31. The migration loses no password: whether it completes, or stops at a
    failed encryption or update anywhere in the table, every row still decrypts
    to what it did, and a row that was not legacy is untouched.  When it
    completes it has counted and rewritten every legacy row, none is left, and
    running it again changes nothing. *)
Theorem migration_preserves key nonces updates rows t :
  (∀ j, String.length (nonces j) = NONCE_LEN) → rows ≡ₚ map_to_list t →
  map_Forall (λ _ v, from_utf8 v = true) t →
  let '(r, t') := migrate_legacy_credentials key nonces updates (Ok rows) t in
  same_rows key t t' ∧
  ∀ m, r = Ok m → m = legacy_rows rows ∧ map_Forall (λ _ v, legacy v = false) t' ∧
    ∀ nonces' updates' rows', rows' ≡ₚ map_to_list t' →
      migrate_legacy_credentials key nonces' updates' (Ok rows') t' = (Ok 0, t').
Proof.
  intros Hn Hrows Hu. pose proof (migrate_table key nonces updates rows t Hn Hrows Hu) as H1.
  destruct (migrate_legacy_credentials _ _ _ _ _) as [r t']. destruct H1 as [Hs Hall]. split; [done|].
  intros m Hm. destruct (Hall m Hm) as [-> Hno]. split_and!; [done..|]. intros nonces' updates' rows' Hrows'.
  apply migrate_rows_none, Forall_forall. intros [id v] Hv. rewrite Hrows' in Hv.
  apply elem_of_map_to_list in Hv. by apply (Hno id).
Qed.
End Laws.

(** ** A cipher and a run *)

(** Bytes written as their bits; the sealed text is the key, the nonce and the
    message. *)
Fixpoint bits (s : string) : string :=
  match s with
  | "" => ""
  | String (Ascii a b c d e f g h) r =>
      let bit (x : bool) (k : string) := String (if x then "1"%char else "0"%char) k in
      bit a (bit b (bit c (bit d (bit e (bit f (bit g (bit h (bits r))))))))
  end.
Fixpoint unbits (s : string) : option string :=
  match s with
  | "" => Some ""
  | String a (String b (String c (String d (String e (String f (String g (String h r))))))) =>
      let bit x := bool_decide (x = "1"%char) in
      r' ← unbits r; Some (String (Ascii (bit a) (bit b) (bit c) (bit d) (bit e) (bit f) (bit g) (bit h)) r')
  | _ => None
  end.
#[local] Instance ex_cipher : Cipher := {
  seal k n m := Ok (k +:+ n +:+ m);
  open_ k n ct := str_strip_prefix (k +:+ n) ct;
  b64_encode := bits; b64_decode := unbits }.
#[local] Instance ex_cipher_laws : CipherLaws.
Proof.
  split.
  - intros k n m ct [= <-]. cbn. rewrite str_app_assoc. apply strip_prefix_app.
  - assert (Hbit : ∀ x : bool, bool_decide ((if x then "1" else "0")%char = "1"%char) = x) by (by intros []).
    induction x as [|[a b c d e f g h] x IH]; [done|]. cbn in *. rewrite IH. cbn. by rewrite !Hbit.
  - assert (Hbit : ∀ (x : bool) r, no_char ":"%char r = true →
      no_char ":"%char (String (if x then "1"%char else "0"%char) r) = true) by (intros [] r Hr; exact Hr).
    induction x as [|[a b c d e f g h] x IH]; [done|].
    cbn [b64_encode ex_cipher bits] in *. by do 8 apply Hbit.
Qed.

Definition ex_rows : list (string * string) := [("c1", "enc:hunter2"); ("c2", "v1:x:y"); ("c3", "enc:p")].
Definition ex_table : gmap string string := list_to_map ex_rows.
Definition ex_nonces (_ : nat) : string := "0123456789ab".

Example migration_preserves_witness :
  let '(r, t') := migrate_legacy_credentials "K" ex_nonces (λ i, i =? 0) (Ok ex_rows) ex_table in
  same_rows "K" ex_table t' ∧ is_ok r = false ∧
  (λ v, decrypt_password v "K") <$> t' !! "c1" = Some (Ok "hunter2") ∧ t' !! "c3" = Some "enc:p".
Proof.
  pose proof (migration_preserves "K" ex_nonces (λ i, i =? 0) ex_rows ex_table) as H.
  assert (Hp : ex_rows ≡ₚ map_to_list ex_table).
  { symmetry. apply map_to_list_to_map. apply (bool_decide_unpack _). by vm_compute. }
  assert (Hu : map_Forall (λ _ v, from_utf8 v = true) ex_table).
  { intros id v Hv. apply elem_of_map_to_list in Hv. rewrite <- Hp in Hv.
    repeat (apply elem_of_cons in Hv as [[= _ ->]|Hv]; [reflexivity|]). by apply elem_of_nil in Hv. }
  assert (Hrun : let '(r, t') := migrate_legacy_credentials "K" ex_nonces (λ i, i =? 0) (Ok ex_rows) ex_table in
    (is_ok r, (λ v, decrypt_password v "K") <$> t' !! "c1", t' !! "c3") = (false, Some (Ok "hunter2"), Some "enc:p"))
    by by vm_compute.
  destruct (migrate_legacy_credentials _ _ _ _ _) as [r t'].
  specialize (H (λ _, eq_refl) Hp Hu). destruct H as [H _]. split; [exact H|].
  injection Hrun as -> -> ->. done.
Defined.
