(* ===== verification/McpTokens.v ===== *)
(** * Personal tokens and the guard of the MCP endpoint
    (crates/mcp/src/tokens.rs, auth.rs, audit.rs)

    The table [mcp_tokens], its management handlers, and the middleware that
    authenticates and rate-limits every request to the endpoint before rmcp sees
    it.  Each handler reads or writes what the others use in a single statement,
    so a run is a sequence of operations; an [Answer] gives the outcomes of the
    statements, the identifiers drawn and the clocks.  SHA-256 and JWT are
    parameters. *)

From S2P Require Import Prelude RustStr RateLimiter AppError Accounts.
From stdpp Require Import strings gmap.

(** ** The audit trail *)

Inductive McpAuditAction : Type :=
  AuthRejected | Limited | SessionClose | TokenCreated | TokenRevoked | ToolCall.

Definition as_db_str (a : McpAuditAction) : string :=
  match a with
  | AuthRejected => "auth_rejected" | Limited => "rate_limited" | SessionClose => "session_close"
  | TokenCreated => "token_created" | TokenRevoked => "token_revoked" | ToolCall => "tool_call"
  end.
(** [default_status] is [McpAuditStatus::Ok]. *)
Definition default_ok (a : McpAuditAction) : bool :=
  match a with AuthRejected | Limited => false | _ => true end.

Definition AUDIT_MAX : nat := 500.
Definition truncate_redacted (s : string) : string :=
  if char_count s <=? AUDIT_MAX then s else take_chars AUDIT_MAX s +:+ "…[truncated]".

Record AuditRow := {
  au_user : option string; au_action : string; au_status : string; au_error : option string;
  au_tool : option string }.
(** The row [log_mcp_event] writes. *)
Definition audit_row (user : option string) (action : McpAuditAction) (tool error : option string) : AuditRow :=
  let err := truncate_redacted <$> error in
  {| au_user := user; au_action := as_db_str action;
     au_status := match default_ok action, err with true, None => "ok" | _, _ => "error" end;
     au_error := err; au_tool := tool |}.

(** ** Tables *)

Record Token := {
  t_user : string; t_name : string; token_hash : string; token_prefix : string;
  t_created_at : string; last_used_at : option string; t_revoked_at : option string }.

Record State := {
  users : gset string; mcp_tokens : gmap string Token; limiter : SlidingWindowLimiter;
  audit : list AuditRow }.

Definition with_tokens (f : gmap string Token → gmap string Token) (s : State) : State :=
  {| users := s.(users); mcp_tokens := f s.(mcp_tokens); limiter := s.(limiter); audit := s.(audit) |}.
Definition with_limiter (l : SlidingWindowLimiter) (s : State) : State :=
  {| users := s.(users); mcp_tokens := s.(mcp_tokens); limiter := l; audit := s.(audit) |}.
(** [log_mcp_event]: best effort. *)
Definition log_mcp_event (ok : bool) (user : option string) (action : McpAuditAction) (tool error : option string)
    (s : State) : State :=
  if ok then {| users := s.(users); mcp_tokens := s.(mcp_tokens); limiter := s.(limiter);
                audit := s.(audit) ++ [audit_row user action tool error] |}
  else s.

Record Answer := {
  a_db : result string unit; a_stamp_ok : bool; a_audit_ok : bool; a_uuid : string; a_hex : string;
  a_now : string; a_secs : Z; a_instant : Z }.

Definition TOKEN_PREFIX : string := "dbm_mcp_".
Definition PREFIX_DISPLAY_LEN : nat := 12.
Definition NAME_MAX_CHARS : nat := 100.
Definition WINDOW_SECS : Z := 60.

Section Mcp.
Context `{Jwt} (sha256_hex : string → string) (cfg : Accounts.Config) (mcp_rate_limit_per_minute : Z).

(** ** Tokens *)

Definition hash_token (plaintext : string) : string := sha256_hex plaintext.
Definition mint_token (a : Answer) : string * string :=
  let plaintext := TOKEN_PREFIX +:+ a.(a_hex) in (plaintext, hash_token plaintext).

Definition stamp_used (now : string) (t : Token) : Token :=
  {| t_user := t.(t_user); t_name := t.(t_name); token_hash := t.(token_hash);
     token_prefix := t.(token_prefix); t_created_at := t.(t_created_at);
     last_used_at := Some now; t_revoked_at := t.(t_revoked_at) |}.
Definition mark_revoked (now : string) (t : Token) : Token :=
  {| t_user := t.(t_user); t_name := t.(t_name); token_hash := t.(token_hash);
     token_prefix := t.(token_prefix); t_created_at := t.(t_created_at);
     last_used_at := t.(last_used_at); t_revoked_at := Some now |}.

(** A row [WHERE token_hash = ?1 AND revoked_at IS NULL]. *)
Definition matches (hash : string) (t : Token) : Prop := t.(token_hash) = hash ∧ t.(t_revoked_at) = None.
#[global] Instance matches_dec hash t : Decision (matches hash t).
Proof. unfold matches. apply _. Defined.

Definition authenticate_token (a : Answer) (plaintext : string) (s : State) : option string * State :=
  let hash := hash_token plaintext in
  if negb (is_ok a.(a_db)) then (None, s) else
  match head (filter (λ kv, matches hash kv.2) (map_to_list s.(mcp_tokens))) with
  | None => (None, s)
  | Some (_, t) =>
      (Some t.(t_user),
       if a.(a_stamp_ok)
       then with_tokens (fmap (λ t, if decide (t.(token_hash) = hash) then stamp_used a.(a_now) t else t)) s
       else s)
  end.

Definition insert_token (id : string) (t : Token) (s : State) : result string State :=
  if bool_decide (is_Some (s.(mcp_tokens) !! id)) then Err "UNIQUE constraint failed: mcp_tokens.id"
  else if bool_decide (map_Exists (λ _ t', t'.(token_hash) = t.(token_hash)) s.(mcp_tokens))
  then Err "UNIQUE constraint failed: mcp_tokens.token_hash"
  else if bool_decide (t.(t_user) ∈ s.(users)) then Ok (with_tokens (<[id := t]>) s)
  else Err "FOREIGN KEY constraint failed".

Record TokenSummary := {
  s_id : string; s_name : string; s_token_prefix : string; s_created_at : string;
  s_last_used_at : option string }.
Definition summary (kv : string * Token) : TokenSummary :=
  {| s_id := kv.1; s_name := kv.2.(t_name); s_token_prefix := kv.2.(token_prefix);
     s_created_at := kv.2.(t_created_at); s_last_used_at := kv.2.(last_used_at) |}.

Inductive Out : Type :=
| Created (id user name plaintext created_at : string)
| Listed (rows : list TokenSummary)
| Revoked (id user : string)
| Refused (e : AppError)
| Rejected (status : Z) (msg : string)
| Forwarded (c : Claims).

Definition token_name (name : option string) : string :=
  match name with
  | Some n => let n := take_chars NAME_MAX_CHARS (trim n) in if is_empty n then "MCP token" else n
  | None => "MCP token"
  end.

Definition create (a : Answer) (user : string) (name : option string) (s : State) : Out * State :=
  let name := token_name name in
  let '(plaintext, hash) := mint_token a in
  let row := {| t_user := user; t_name := name; token_hash := hash;
                token_prefix := take_chars PREFIX_DISPLAY_LEN plaintext; t_created_at := a.(a_now);
                last_used_at := None; t_revoked_at := None |} in
  match (_ ← a.(a_db); insert_token a.(a_uuid) row s) with
  | Ok s' => (Created a.(a_uuid) user name plaintext a.(a_now),
              log_mcp_event a.(a_audit_ok) (Some user) TokenCreated None None s')
  | Err e => (Refused (Internal ("insert mcp_token: " +:+ e)), s)
  end.

(** [list]: the caller's live tokens; their order is not kept. *)
Definition list_tokens (a : Answer) (user : string) (s : State) : Out * State :=
  match a.(a_db) with
  | Ok _ => (Listed (summary <$> filter (λ kv, kv.2.(t_user) = user ∧ kv.2.(t_revoked_at) = None)
                                   (map_to_list s.(mcp_tokens))), s)
  | Err e => (Refused (Internal ("list mcp_tokens: " +:+ e)), s)
  end.

Definition revoke (a : Answer) (user id : string) (s : State) : Out * State :=
  match a.(a_db) with
  | Err e => (Refused (Internal ("revoke mcp_token: " +:+ e)), s)
  | Ok _ =>
      match s.(mcp_tokens) !! id with
      | Some t =>
          if decide (t.(t_user) = user ∧ t.(t_revoked_at) = None)
          then (Revoked id user,
                log_mcp_event a.(a_audit_ok) (Some user) TokenRevoked None None
                  (with_tokens (alter (mark_revoked a.(a_now)) id) s))
          else (Refused (NotFound "MCP token not found"), s)
      | None => (Refused (NotFound "MCP token not found"), s)
      end
  end.

(** ** The guard *)

Definition DQ : string := String "034" "".
(** The Debug form of the two errors [verify_access_token] returns. *)
Definition debug_error (e : AppError) : string :=
  match e with
  | TokenExpired => "TokenExpired"
  | Unauthorized m => "Unauthorized(" +:+ DQ +:+ m +:+ DQ +:+ ")"
  | _ => ""
  end.

Definition token_claims (user : string) : Claims :=
  {| sub := user; iat := 0; exp := u64_max; jti := "mcp_token" |}.

(** The credential of a request: the claims, or the audited reason of a 401. *)
Definition credential (a : Answer) (token : string) (s : State) : result string Claims * State :=
  if starts_with TOKEN_PREFIX token then
    match authenticate_token a token s with
    | (Some user, s') => (Ok (token_claims user), s')
    | (None, s') => (Err "unknown or revoked MCP token", s')
    end
  else match verify_access_token cfg a.(a_secs) token with
       | Ok c => (Ok c, s)
       | Err e => (Err ("invalid token: " +:+ debug_error e), s)
       end.

Definition guard (a : Answer) (header : option string) (is_delete : bool) (s : State) : Out * State :=
  match header ≫= str_strip_prefix "Bearer " with
  | None =>
      (Rejected 401 "Missing Authorization header. Expected: Bearer <token>",
       log_mcp_event a.(a_audit_ok) None AuthRejected None (Some "missing or malformed Authorization header") s)
  | Some token =>
      match credential a token s with
      | (Err reason, s) =>
          (Rejected 401 "Invalid or expired token",
           log_mcp_event a.(a_audit_ok) None AuthRejected None (Some reason) s)
      | (Ok c, s) =>
          let max := Z.to_nat mcp_rate_limit_per_minute in
          let '(ok, l) := check_and_record a.(a_instant) c.(sub) max WINDOW_SECS s.(limiter) in
          let s := with_limiter l s in
          if negb ok then
            (Rejected 429 "MCP request rate limit exceeded; retry after the window",
             log_mcp_event a.(a_audit_ok) (Some c.(sub)) Limited None
               (Some ("exceeded " +:+ decimal (N.of_nat max) +:+ " req/min sliding window")) s)
          else (Forwarded c,
                if is_delete then log_mcp_event a.(a_audit_ok) (Some c.(sub)) SessionClose None None s else s)
      end
  end.

(** ** Requests; those to manage tokens pass the [Claims] extractor *)

Inductive Op : Type :=
| Create (header : option string) (name : option string)
| ListTokens (header : option string)
| Revoke (header : option string) (id : string)
| Endpoint (header : option string) (is_delete : bool).

Definition managed (a : Answer) (header : option string) (k : string → Out * State) (s : State) : Out * State :=
  match authenticate cfg a.(a_secs) header with
  | Ok c => k c.(sub)
  | Err e => (Refused e, s)
  end.
Definition serve (a : Answer) (o : Op) (s : State) : Out * State :=
  match o with
  | Create h name => managed a h (λ user, create a user name s) s
  | ListTokens h => managed a h (λ user, list_tokens a user s) s
  | Revoke h id => managed a h (λ user, revoke a user id s) s
  | Endpoint h del => guard a h del s
  end.

Fixpoint run (ops : list (Answer * Op)) (s : State) : list Out * State :=
  match ops with
  | [] => ([], s)
  | (a, o) :: ops' =>
      let '(out, s1) := serve a o s in
      let '(outs, s2) := run ops' s1 in (out :: outs, s2)
  end.
End Mcp.

Definition initial (us : gset string) : State :=
  {| users := us; mcp_tokens := ∅; limiter := RateLimiter.new; audit := [] |}.

(** ** The live credentials, as the answers given tell them *)

Section Facts.
Context `{Jwt} (sha256_hex : string → string) (cfg : Accounts.Config) (limit : Z).
Notation serve := (serve sha256_hex cfg limit).
Notation run := (run sha256_hex cfg limit).
Notation guard := (guard sha256_hex cfg limit).

(** A creation answered adds a credential, a revocation answered ends one. *)
Definition live_after (m : gmap string (string * string)) (o : Out) : gmap string (string * string) :=
  match o with
  | Created id user _ plaintext _ => <[id := (user, sha256_hex plaintext)]> m
  | Revoked id _ => delete id m
  | _ => m
  end.
Definition live (outs : list Out) : gmap string (string * string) := foldl live_after ∅ outs.

Definition live_row (t : Token) : option (string * string) :=
  match t.(t_revoked_at) with None => Some (t.(t_user), t.(token_hash)) | Some _ => None end.
Definition hashes_unique (s : State) : Prop := ∀ i j t u,
  s.(mcp_tokens) !! i = Some t → s.(mcp_tokens) !! j = Some u → t.(token_hash) = u.(token_hash) → i = j.

Lemma log_tokens ok user act tool err s :
  (log_mcp_event ok user act tool err s).(mcp_tokens) = s.(mcp_tokens) ∧
  (log_mcp_event ok user act tool err s).(limiter) = s.(limiter).
Proof. by destruct ok. Qed.

(** An update that keeps owner, hash and revocation of every row. *)
Lemma same_rows f s : (∀ t, live_row (f t) = live_row t ∧ (f t).(token_hash) = t.(token_hash)) →
  hashes_unique s →
  omap live_row (f <$> s.(mcp_tokens)) = omap live_row s.(mcp_tokens) ∧
  hashes_unique (with_tokens (fmap f) s).
Proof.
  intros Hf Hu. split.
  - apply map_eq. intros i. rewrite !lookup_omap, lookup_fmap. destruct (_ !! i) as [t|]; [apply Hf|done].
  - intros i j t u Hi Hj. cbn in Hi, Hj. rewrite lookup_fmap in Hi, Hj.
    apply fmap_Some in Hi as (t0 & Hi & ->), Hj as (u0 & Hj & ->).
    rewrite (proj2 (Hf t0)), (proj2 (Hf u0)). by apply Hu.
Qed.

Lemma authenticate_tokens a p s : hashes_unique s →
  omap live_row (authenticate_token sha256_hex a p s).2.(mcp_tokens) = omap live_row s.(mcp_tokens) ∧
  hashes_unique (authenticate_token sha256_hex a p s).2 ∧
  (authenticate_token sha256_hex a p s).2.(limiter) = s.(limiter).
Proof.
  intros Hu. unfold authenticate_token. destruct (negb _); [done|].
  destruct (head _) as [[? ?]|]; [|done]. cbn [fst snd]. destruct (a_stamp_ok a); [|done].
  destruct (same_rows (λ t, if decide (t.(token_hash) = hash_token sha256_hex p) then stamp_used a.(a_now) t else t) s)
    as [H1 H2]; [|done|done].
  intros t'. by case_decide.
Qed.

(** The lookup of a credential, on a table without two equal hashes. *)
Lemma authenticate_iff a p s u : hashes_unique s → is_ok a.(a_db) = true →
  (authenticate_token sha256_hex a p s).1 = Some u ↔
  ∃ id, omap live_row s.(mcp_tokens) !! id = Some (u, sha256_hex p).
Proof.
  intros Hu Hok. unfold authenticate_token, hash_token. rewrite Hok. cbn [negb].
  pose proof (head_filter_map (λ kv : string * Token, matches (sha256_hex p) kv.2) s.(mcp_tokens)) as Hh.
  assert (Hrow : ∀ id, omap live_row s.(mcp_tokens) !! id = Some (u, sha256_hex p) ↔
    ∃ t, s.(mcp_tokens) !! id = Some t ∧ t.(t_user) = u ∧ matches (sha256_hex p) t).
  { intros id. rewrite lookup_omap. destruct (mcp_tokens s !! id) as [t|]; cbn;
      [|split; [done|intros (? & ? & _); done]].
    unfold live_row, matches. destruct (t_revoked_at t) eqn:Er; split.
    - done.
    - intros (t' & [= <-] & _ & _ & E). congruence.
    - intros [= <- <-]. by exists t.
    - intros (t' & [= <-] & <- & <- & _). done. }
  destruct (head _) as [[id t]|]; cbn [fst].
  - destruct Hh as [Hid Hm]. split.
    + intros [= <-]. exists id. apply Hrow. eauto.
    + intros (id' & (t' & Ht' & <- & Hm')%Hrow). unfold matches in *. cbn in Hm.
      assert (id = id') as <- by (eapply (Hu id id'); [done..|destruct Hm, Hm'; congruence]). congruence.
  - split; [done|]. intros (id & (t & Ht & _ & Hm)%Hrow). by destruct (Hh id t Ht).
Qed.

Lemma credential_tokens a p s : hashes_unique s →
  omap live_row (credential sha256_hex cfg a p s).2.(mcp_tokens) = omap live_row s.(mcp_tokens) ∧
  hashes_unique (credential sha256_hex cfg a p s).2 ∧
  (credential sha256_hex cfg a p s).2.(limiter) = s.(limiter).
Proof.
  intros Hu. pose proof (authenticate_tokens a p s Hu) as Ha. unfold credential.
  destruct (starts_with _ _); [|by destruct (verify_access_token _ _ _)].
  by destruct (authenticate_token _ _ _ _) as [[u|] s'].
Qed.

Lemma guard_tokens a h del s : hashes_unique s →
  omap live_row (guard a h del s).2.(mcp_tokens) = omap live_row s.(mcp_tokens) ∧
  hashes_unique (guard a h del s).2 ∧ ∀ m, live_after m (guard a h del s).1 = m.
Proof.
  intros Hu. unfold McpTokens.guard, log_mcp_event.
  destruct (h ≫= _) as [p|]; [|by destruct (a_audit_ok a)].
  pose proof (credential_tokens a p s Hu) as Hc.
  destruct (credential _ _ _ _ _) as [[c|e] s']; cbn [fst snd] in Hc; destruct Hc as (Hc1 & Hc2 & _);
    [|by destruct (a_audit_ok a)].
  destruct (check_and_record _ _ _ _ _) as [[] l]; cbn; [by destruct del, (a_audit_ok a)|by destruct (a_audit_ok a)].
Qed.

Lemma serve_live a o s : hashes_unique s →
  omap live_row (serve a o s).2.(mcp_tokens) = live_after (omap live_row s.(mcp_tokens)) (serve a o s).1 ∧
  hashes_unique (serve a o s).2.
Proof.
  intros Hu. destruct o as [h name|h|h id|h del]; cbn [McpTokens.serve]; unfold managed;
    try (destruct (authenticate _ _ _) as [c|e]; [|done]).
  - unfold create. destruct (mint_token sha256_hex a) as [p hsh] eqn:Em.
    destruct (a_db a) as [[]|e]; [|done]. cbn [mbind result_mbind]. unfold insert_token.
    destruct (bool_decide (is_Some _)) eqn:E1; [done|]. destruct (bool_decide (map_Exists _ _)) eqn:E2; [done|].
    destruct (bool_decide (_ ∈ _)) eqn:E3; [|done]. cbn [fst snd].
    rewrite (proj1 (log_tokens _ _ _ _ _ _)). apply bool_decide_eq_false in E1, E2. cbn [mcp_tokens with_tokens].
    assert (Hs : hsh = sha256_hex p) by (by unfold mint_token, hash_token in Em; simplify_eq). split.
    + cbn. rewrite <- Hs. by apply omap_insert_Some.
    + intros i j t u. rewrite !(proj1 (log_tokens _ _ _ _ _ _)). cbn.
      intros Hi Hj He. destruct (decide (i = a_uuid a)) as [->|Ni], (decide (j = a_uuid a)) as [->|Nj]; [done|..];
        repeat first [rewrite lookup_insert_eq in *|rewrite lookup_insert_ne in * by done]; simplify_eq.
      * exfalso. apply E2. exists j, u. split; [done|]. cbn. done.
      * exfalso. apply E2. by exists i, t.
      * by eapply Hu.
  - unfold list_tokens. by destruct (a_db a).
  - unfold revoke. destruct (a_db a) as [[]|e]; [|done]. destruct (mcp_tokens s !! id) as [t|] eqn:Ht; [|done].
    case_decide as Hd; [|done]. cbn [fst snd live_after]. rewrite (proj1 (log_tokens _ _ _ _ _ _)). cbn [mcp_tokens with_tokens].
    split.
    + apply map_eq. intros i. rewrite lookup_omap. destruct (decide (i = id)) as [->|Hne].
      * by rewrite lookup_alter_eq, Ht, lookup_delete_eq.
      * by rewrite lookup_alter_ne, lookup_delete_ne, lookup_omap.
    + intros i j x y. rewrite !(proj1 (log_tokens _ _ _ _ _ _)). cbn.
      assert (Hl : ∀ k z, alter (mark_revoked (a_now a)) id s.(mcp_tokens) !! k = Some z →
        ∃ z0, s.(mcp_tokens) !! k = Some z0 ∧ z.(token_hash) = z0.(token_hash)).
      { intros k z Hk. destruct (decide (k = id)) as [->|Hne].
        - rewrite lookup_alter_eq in Hk. apply fmap_Some in Hk as (z0 & Hz & ->). eauto.
        - rewrite lookup_alter_ne in Hk by done. eauto. }
      intros (x0 & Hx & E1)%Hl (y0 & Hy & E2)%Hl He. eapply Hu; [done..|congruence].
  - destruct (guard_tokens a h del s Hu) as (H1 & H2 & H3). by rewrite H3.
Qed.

Lemma run_live ops s m : hashes_unique s → omap live_row s.(mcp_tokens) = m →
  omap live_row (run ops s).2.(mcp_tokens) = foldl live_after m (run ops s).1 ∧ hashes_unique (run ops s).2.
Proof.
  revert s m. induction ops as [|[a o] ops IH]; intros s m Hu Hm; [done|]. cbn.
  destruct (serve_live a o s Hu) as [H1 H2]. destruct (serve a o s) as [out s1]. cbn [fst snd] in *.
  specialize (IH s1 _ H2 H1). destruct (run ops s1) as [outs s2]. cbn [fst snd] in *. cbn. by rewrite <- Hm.
Qed.

(** What a request must carry to be let in as [c]. *)
Definition entitled (outs : list Out) (a : Answer) (header : option string) (c : Claims) : Prop :=
  ∃ p, header = Some ("Bearer " +:+ p) ∧
    if starts_with TOKEN_PREFIX p
    then ∃ id u, live outs !! id = Some (u, sha256_hex p) ∧ c = token_claims u
    else verify_access_token cfg a.(a_secs) p = Ok c.

Lemma guard_entitled us ops a header del c : let '(outs, s) := run ops (initial us) in
  (guard a header del s).1 = Forwarded c → entitled outs a header c.
Proof.
  assert (Hu0 : hashes_unique (initial us)) by (intros i j t u Hi; cbn in Hi; by rewrite lookup_empty in Hi).
  destruct (run_live ops (initial us) ∅ Hu0 (omap_empty _)) as [Hl Hu].
  destruct (run ops (initial us)) as [outs s]. cbn [fst snd] in *. unfold entitled, McpTokens.guard, live.
  destruct header as [h|]; cbn [mbind option_bind]; [|done].
  destruct (str_strip_prefix "Bearer " h) as [p|] eqn:Ep; [|done].
  apply strip_prefix_Some in Ep as ->.
  pose proof (authenticate_iff a p s) as Hau.
  assert (Hdb : ∀ u s', authenticate_token sha256_hex a p s = (Some u, s') → is_ok (a_db a) = true).
  { intros u s'. unfold authenticate_token. by destruct (is_ok (a_db a)). }
  unfold credential. destruct (starts_with TOKEN_PREFIX p) eqn:Es.
  - destruct (authenticate_token _ _ _ _) as [[u|] s'] eqn:Ea; [|done].
    destruct (check_and_record _ _ _ _ _) as [[] l]; [|done]. intros [= <-]. exists p. rewrite Es. split; [done|].
    destruct (proj1 (Hau u Hu (Hdb _ _ eq_refl)) eq_refl) as (id & Hid). exists id, u. by rewrite <- Hl.
  - destruct (verify_access_token _ _ _) as [c'|e] eqn:Ev; [|done].
    destruct (check_and_record _ _ _ _ _) as [[] l]; [|done]. intros [= <-]. exists p. by rewrite Es.
Qed.

(** The endpoint lets in exactly the holders of live credentials: after any
    history of requests, a request is forwarded only with a valid access token,
    or with a text whose hash is that of a personal token whose creation was
    answered to that user and whose revocation was not; and such a request is
    forwarded, unless the lookup fails or the user is over the rate limit. *)
Theorem endpoint_authenticated us ops a header del c :
  let '(outs, s) := run ops (initial us) in
  ((guard a header del s).1 = Forwarded c → entitled outs a header c) ∧
  (is_ok a.(a_db) = true → entitled outs a header c →
   (guard a header del s).1 = Forwarded c ∨
   (guard a header del s).1 = Rejected 429 "MCP request rate limit exceeded; retry after the window").
Proof.
  assert (Hu0 : hashes_unique (initial us)) by (intros i j t u Hi; cbn in Hi; by rewrite lookup_empty in Hi).
  destruct (run_live ops (initial us) ∅ Hu0 (omap_empty _)) as [Hl Hu].
  pose proof (guard_entitled us ops a header del c) as He.
  destruct (run ops (initial us)) as [outs s]. cbn [fst snd] in *. split; [exact He|]. unfold entitled, McpTokens.guard, live.
  intros Hdb (p & -> & Hp). cbn [mbind option_bind]. rewrite strip_prefix_app. unfold credential.
    destruct (starts_with TOKEN_PREFIX p).
    + destruct Hp as (id & u & Hid & ->). rewrite <- Hl in Hid.
      pose proof (proj2 (authenticate_iff a p s u Hu Hdb) (ex_intro _ id Hid)) as Ha.
      destruct (authenticate_token _ _ _ _) as [o s']. cbn in Ha. subst o.
      destruct (check_and_record _ _ _ _ _) as [[] l]; auto.
    + rewrite Hp. destruct (check_and_record _ _ _ _ _) as [[] l]; auto.
Qed.
(** ** The rate *)

(** The requests let in, with their instants. *)
Fixpoint forwards (ops : list (Answer * Op)) (outs : list Out) : list (Z * string) :=
  match ops, outs with
  | (a, _) :: ops', out :: outs' =>
      match out with
      | Forwarded c => (a.(a_instant), c.(sub)) :: forwards ops' outs'
      | _ => forwards ops' outs'
      end
  | _, _ => []
  end.
Definition accepted_log (calls : list (Z * string)) (oks : list bool) : list (Z * string) :=
  (λ p, p.1) <$> List.filter (λ p, p.2) (zip calls oks).

Lemma guard_limiter a h del s : hashes_unique s →
  (∃ key, let '(ok, l) := check_and_record a.(a_instant) key (Z.to_nat limit) WINDOW_SECS s.(limiter) in
     (guard a h del s).2.(limiter) = l ∧
     if ok then ∃ c, (guard a h del s).1 = Forwarded c ∧ c.(sub) = key
     else ∀ c, (guard a h del s).1 ≠ Forwarded c) ∨
  ((guard a h del s).2.(limiter) = s.(limiter) ∧ ∀ c, (guard a h del s).1 ≠ Forwarded c).
Proof.
  intros Hu. unfold McpTokens.guard, log_mcp_event. destruct (h ≫= _) as [p|]; [|right; by destruct (a_audit_ok a)].
  pose proof (credential_tokens a p s Hu) as (_ & _ & Hl).
  destruct (credential _ _ _ _ _) as [[c|e] s']; cbn [fst snd] in Hl; [|right; by destruct (a_audit_ok a)].
  left. exists c.(sub). rewrite <- Hl. destruct (check_and_record _ _ _ _ _) as [[] l]; cbn [negb fst snd].
  - destruct del, (a_audit_ok a); eauto.
  - by destruct (a_audit_ok a).
Qed.

Lemma serve_limiter a o s : (∀ h del, o ≠ Endpoint h del) →
  (serve a o s).2.(limiter) = s.(limiter) ∧ ∀ c, (serve a o s).1 ≠ Forwarded c.
Proof.
  intros Ho. destruct o as [h name|h|h id|h del]; [..|by destruct (Ho h del)];
    cbn [McpTokens.serve]; unfold managed; destruct (authenticate _ _ _) as [c|e]; try done.
  - unfold create. destruct (mint_token _ _) as [p hsh]. destruct (a_db a) as [[]|e]; [|done].
    cbn [mbind result_mbind]. unfold insert_token. repeat case_match; simplify_eq; try done.
    cbn [fst snd]. by rewrite (proj2 (log_tokens _ _ _ _ _ _)).
  - unfold list_tokens. by destruct (a_db a).
  - unfold revoke. destruct (a_db a) as [[]|e]; [|done]. destruct (_ !! id) as [t|]; [|done].
    case_decide; [|done]. cbn [fst snd]. by rewrite (proj2 (log_tokens _ _ _ _ _ _)).
Qed.

Lemma ordered_weaken start start' calls : (start ≤ start')%Z → ordered start' calls → ordered start calls.
Proof. destruct calls as [|[t k] calls]; [done|]. cbn. intros ? []. split; [lia|done]. Qed.

(** The limiter sees the authenticated requests, in their order. *)
Lemma run_limiter ops : ∀ start s, hashes_unique s → ordered start ((λ p, (a_instant p.1, "")) <$> ops) →
  ∃ calls, ordered start calls ∧ (∀ e, e ∈ calls → ∃ p, p ∈ ops ∧ e.1 = a_instant p.1) ∧
    forwards ops (run ops s).1 =
      accepted_log calls (RateLimiter.run (Z.to_nat limit) WINDOW_SECS s.(limiter) calls).1.
Proof.
  induction ops as [|[a o] ops IH]; intros start s Hu Hord.
  { exists []. split; [done|]. split; [by intros e ?%elem_of_nil|done]. }
  cbn in Hord. destruct Hord as [Hle Hord]. cbn [McpTokens.run].
  pose proof (proj2 (serve_live a o s Hu)) as Hu1.
  assert (Hcase : (∃ key, let '(ok, l) := check_and_record a.(a_instant) key (Z.to_nat limit) WINDOW_SECS s.(limiter) in
     (serve a o s).2.(limiter) = l ∧
     if ok then ∃ c, (serve a o s).1 = Forwarded c ∧ c.(sub) = key else ∀ c, (serve a o s).1 ≠ Forwarded c) ∨
    ((serve a o s).2.(limiter) = s.(limiter) ∧ ∀ c, (serve a o s).1 ≠ Forwarded c)).
  { destruct o as [h name|h|h id|h del]; [right; by apply serve_limiter..|by apply guard_limiter]. }
  destruct (serve a o s) as [out s1]. cbn [fst snd] in *.
  destruct (IH _ s1 Hu1 Hord) as (calls & Ho & Hin & Hf). destruct (run ops s1) as [outs s2]. cbn [fst] in *.
  assert (Hin' : ∀ e, e ∈ calls → ∃ p, p ∈ (a, o) :: ops ∧ e.1 = a_instant p.1).
  { intros e He. destruct (Hin e He) as (p & Hp & E). exists p. split; [by right|done]. }
  destruct Hcase as [(key & Hc)|[Hl Hno]].
  - destruct (check_and_record _ _ _ _ _) as [ok l] eqn:Ec. destruct Hc as [Hl Hout].
    exists ((a.(a_instant), key) :: calls). split; [by split|]. split.
    + intros e [->|He]%elem_of_cons; [exists (a, o); split; [by left|done]|by apply Hin'].
    + cbn [RateLimiter.run]. rewrite Ec, <- Hl. revert Hf. unfold accepted_log.
      destruct (RateLimiter.run _ _ (limiter s1) calls) as [oks l2]. cbn [fst]. intros Hf. cbn [zip zip_with].
      destruct ok.
      * destruct Hout as (c & -> & <-). cbn. by rewrite Hf.
      * cbn. destruct out; try exact Hf. by destruct (Hout c).
  - exists calls. split; [by eapply ordered_weaken|]. split; [done|]. rewrite <- Hl, <- Hf.
    cbn. destruct out; try done. by destruct (Hno c).
Qed.

(** No user gets more requests through the endpoint than the configured
    number per minute, whichever of their tokens they use: over any history, at
    any instant not before its last request, the requests forwarded for a user
    within the last sixty seconds number at most the limit. *)
Theorem endpoint_rate_bounded us ops user start now :
  ordered start ((λ p, (a_instant p.1, "")) <$> ops) → (start ≤ now)%Z →
  (∀ p, p ∈ ops → (a_instant p.1 ≤ now)%Z) →
  in_window WINDOW_SECS now user (forwards ops (run ops (initial us)).1) ≤ Z.to_nat limit.
Proof.
  intros Hord Hstart Hnow.
  destruct (run_limiter ops start (initial us)) as (calls & Ho & Hin & ->);
    [intros i j t u Hi; cbn in Hi; by rewrite lookup_empty in Hi|done|].
  apply (accepted_in_window_bounded _ _ start); [done|done|].
  intros e (p & Hp & ->)%Hin. by apply Hnow.
Qed.
End Facts.

(** ** A run *)

Definition ex_hash (s : string) : string := "#" +:+ s.
Notation ex_run := (run (H := ex_jwt) ex_hash ex_cfg 1).
Notation ex_access := (Some "Bearer access|u1|0|900|x").
Definition ex_a (id hex : string) (t : Z) : Answer :=
  {| a_db := Ok tt; a_stamp_ok := true; a_audit_ok := true; a_uuid := id; a_hex := hex; a_now := "now";
     a_secs := 10; a_instant := t |}.
Definition ex_ops : list (Answer * Op) :=
  [(ex_a "t1" "aa" 0, Create ex_access (Some " laptop "));
   (ex_a "" "" 1, Endpoint (Some "Bearer dbm_mcp_aa") false);
   (ex_a "" "" 2, Endpoint (Some "Bearer dbm_mcp_aa") true);
   (ex_a "" "" 3, Revoke (Some "Bearer access|u2|0|900|x") "t1");
   (ex_a "t2" "bb" 4, Create ex_access None);
   (ex_a "" "" 5, Revoke ex_access "t1")].

Example endpoint_authenticated_witness :
  (guard (H := ex_jwt) ex_hash ex_cfg 1 (ex_a "" "" (70 * 10 ^ 9)) (Some "Bearer dbm_mcp_aa") false (ex_run ex_ops (initial {["u1"]})).2).1
    ≠ Forwarded (token_claims "u1") ∧
  entitled (H := ex_jwt) ex_hash ex_cfg (ex_run ex_ops (initial {["u1"]})).1 (ex_a "" "" (70 * 10 ^ 9)) (Some "Bearer dbm_mcp_bb")
    (token_claims "u1").
Proof.
  pose proof (endpoint_authenticated (H := ex_jwt) ex_hash ex_cfg 1 {["u1"]} ex_ops) as H.
  assert (Hlive : live ex_hash (ex_run ex_ops (initial {["u1"]})).1 = {[ "t2" := ("u1", "#dbm_mcp_bb") ]}) by by vm_compute.
  assert (Hbb : (guard (H := ex_jwt) ex_hash ex_cfg 1 (ex_a "" "" (70 * 10 ^ 9)) (Some "Bearer dbm_mcp_bb") false
    (ex_run ex_ops (initial {["u1"]})).2).1 = Forwarded (token_claims "u1")) by by vm_compute.
  destruct (ex_run ex_ops (initial {["u1"]})) as [outs s]. cbn [fst snd] in *. split.
  - intros (p & Hp & He)%H. assert (p = "dbm_mcp_aa") as -> by (cbn in Hp; by injection Hp).
    cbn in He. destruct He as (id & u & Hid & _).
    rewrite Hlive in Hid. apply lookup_singleton_Some in Hid as [_ E]. vm_compute in E. discriminate.
  - by eapply H.
Defined.

Example endpoint_rate_bounded_witness :
  in_window WINDOW_SECS 9 "u1" (forwards ex_ops (ex_run ex_ops (initial {["u1"]})).1) ≤ 1 ∧
  forwards ex_ops (ex_run ex_ops (initial {["u1"]})).1 = [(1%Z, "u1")].
Proof.
  split; [|by vm_compute].
  apply (endpoint_rate_bounded (H := ex_jwt) ex_hash ex_cfg 1 {["u1"]} ex_ops "u1" 0 9); [cbn; lia|lia|].
  intros p Hp. repeat (apply elem_of_cons in Hp as [->|Hp]; [cbn; lia|]). by apply elem_of_nil in Hp.
Defined.
