(* ===== verification/McpTools.v ===== *)
(** * The MCP tools (crates/mcp/src/tools.rs) and their read path
    (crates/automation/src/read_query.rs)

    Arguments, the connection whitelist's output filter, the gates of
    [read_query] and the dispatch of a call to its end: the state a call works on is the
    whole [Store] (the tables, the token endpoint with the audit of its calls, the
    recorder of slow queries), the write tools are the processes of [Approvals], run
    turn by turn among what others do to the store, and every call that ends leaves its
    row in the audit.  The metadata calls and the drivers are parameters; the classifier
    is [Risk]'s. *)

From S2P Require Import Prelude RustStr Clock Json Risk DdlExec Approvals QueryStats McpTokens ServerConfig Entitlement.
From stdpp Require Import strings gmap.

Definition READ_QUERY_DEFAULT_ROWS : Z := 500.
Record ToolLimits := { max_rows_limit : Z; timeout_secs : Z }.
(** [router]: the limits come from the configuration. *)
Definition tool_limits (c : ServerConfig.Config) : ToolLimits :=
  {| max_rows_limit := c.(ServerConfig.mcp_read_query_max_rows);
     timeout_secs := c.(ServerConfig.mcp_read_query_timeout_secs) |}.

(** What reaches a target database. *)
Inductive TargetCall : Type :=
| ListDatabases (conn : string)
| ListTables (conn : string) (db : option string)
| DescribeTable (conn : string) (db : option string) (table : string)
| ReadQuery (conn : string) (db : option string) (sql : string) (row_limit timeout : Z).
Definition target_conn (c : TargetCall) : string :=
  match c with
  | ListDatabases conn | ListTables conn _ | DescribeTable conn _ _ | ReadQuery conn _ _ _ _ => conn
  end.

Record ConnectionSummary := {
  cs_id : string; cs_name : string; cs_db_type : string; cs_read_only : bool;
  cs_default_database : option string }.
Definition summary_json (c : ConnectionSummary) : json :=
  JObj [("id", JStr c.(cs_id)); ("name", JStr c.(cs_name)); ("dbType", JStr c.(cs_db_type));
        ("readOnly", JBool c.(cs_read_only)); ("defaultDatabase", jopt JStr c.(cs_default_database))].

(** ** The read path (crates/automation/src/read_query.rs) *)

Section ReadPath.
Context (to_uppercase : string → string) (print : json → string).

(** The connection row as loaded: its kind and default database. *)
Record Loaded := { l_db_type : string; l_default_database : option string }.

(** [ReadQueryError::from_http]. *)
Definition from_http (body : json) : string * string :=
  (default "QUERY_FAILED" ((jget "error" body ≫= jget "code") ≫= Json.as_str),
   default "query execution failed" ((jget "error" body ≫= jget "message") ≫= Json.as_str)).

(** The body of a reply; [copied] are the fields taken over from the driver's. *)
Definition copied (result : json) : list (string * json) :=
  omap (λ f, match result with JObj kvs => (λ v, (f, v)) <$> assoc_get f kvs | _ => None end)
    ["columns"; "columnTypes"; "rows"].
Definition row_count (result : json) : nat :=
  match jget "rows" result ≫= Json.as_array with Some l => length l | None => 0 end.
Definition read_reply (result : json) (row_limit elapsed_ms : Z) : json :=
  JObj ([("rowCount", JInt (Z.of_nat (row_count result)));
         ("truncated", JBool (row_limit <=? Z.of_nat (row_count result))%Z);
         ("executionTimeMs", JInt elapsed_ms)] ++ copied result).

(** [run_read_query].  [loaded] answers [load_connection], [dispatched]
    [backend_for], and [executed] the driver: none when the timeout comes first.
    The third component is what [query_stats::record] is called with. *)
Definition read_capture (conn : string) (l : Loaded) (db : option string) (o : CaptureOutcome) : CaptureContext :=
  {| ctx_conn_id := conn; ctx_db_kind := Some l.(l_db_type); ctx_database := db; ctx_user_id := None;
     ctx_entry := McpRead; ctx_outcome := o |}.
Definition read_query (loaded : result (string * string) Loaded) (dispatched : result json unit)
    (executed : Z → option (result json json)) (elapsed_ms : Z)
    (conn : string) (db : option string) (sql : string) (row_limit timeout : Z)
    (now : Z) (rec : QueryStatsRecorder) : result (string * string) json * option Capture * QueryStatsRecorder :=
  match loaded with
  | Err e => (Err e, None, rec)
  | Ok l =>
      match dispatched with
      | Err body => (Err (from_http body), None, rec)
      | Ok _ =>
          let db_name := match db with Some d => Some d | None => l.(l_default_database) end in
          let row_limit := Z.max row_limit 1 in
          match executed row_limit with
          | None =>
              let '(c, rec) := record to_uppercase print now (timeout * 1000) (read_capture conn l db_name (CError "TIMEOUT"))
                                 (PSql sql) None None rec in
              (Err ("TIMEOUT", "statement exceeded the " +:+ decimal (Z.to_N timeout)
                               +:+ "s server-side timeout and was cancelled"), c, rec)
          | Some (Err body) => (Err (from_http body), None, rec)
          | Some (Ok result) =>
              let '(c, rec) := record to_uppercase print now elapsed_ms (read_capture conn l db_name COk)
                                 (PSql sql) (Some (Z.of_nat (row_count result))) None rec in
              (Ok (read_reply result row_limit elapsed_ms), c, rec)
          end
      end
  end.
End ReadPath.

(** A successful read says how many rows it carries, carries exactly the
    driver's, and is not marked truncated only below the limit. *)
Lemma read_query_spec_ok up print loaded dispatched executed el conn db sql n t now rec j c rec' :
  read_query up print loaded dispatched executed el conn db sql n t now rec = (Ok j, c, rec') →
  ∃ result, executed (Z.max n 1) = Some (Ok result) ∧ jget "rowCount" j = Some (JInt (Z.of_nat (row_count result))) ∧
    jget "truncated" j = Some (JBool (bool_decide (Z.max n 1 ≤ Z.of_nat (row_count result))%Z)) ∧
    jget "rows" j = jget "rows" result.
Proof.
  unfold read_query. destruct loaded as [l|e]; [|done]. destruct dispatched as [u|e]; [|done].
  destruct (executed _) as [[result|e]|]; [|done|by destruct (record _ _ _ _ _ _ _ _ _)].
  destruct (record _ _ _ _ _ _ _ _ _) as [c' r']. intros [= <- <- <-]. exists result. split; [done|].
  split; [done|]. split.
  - cbn. do 2 f_equal. case_bool_decide; [by apply Z.leb_le|by apply Z.leb_gt, Z.nle_gt].
  - destruct result as [| | | | | |kvs]; [done..|]. cbn.
    destruct (assoc_get "columns" kvs), (assoc_get "columnTypes" kvs), (assoc_get "rows" kvs); done.
Qed.

(** ** The state a call works on *)

(** The tables with the license, the token endpoint with the audit of the calls, and
    the recorder of slow queries with the samples it has handed on. *)
Record Store := {
  st_world : World; st_mcp : McpTokens.State; st_recorder : QueryStatsRecorder; st_captures : list Capture }.
Definition with_world (w : World) (s : Store) : Store :=
  {| st_world := w; st_mcp := s.(st_mcp); st_recorder := s.(st_recorder); st_captures := s.(st_captures) |}.
Definition with_mcp (m : McpTokens.State) (s : Store) : Store :=
  {| st_world := s.(st_world); st_mcp := m; st_recorder := s.(st_recorder); st_captures := s.(st_captures) |}.
Definition sampled (c : option Capture) (r : QueryStatsRecorder) (s : Store) : Store :=
  {| st_world := s.(st_world); st_mcp := s.(st_mcp); st_recorder := r;
     st_captures := s.(st_captures) ++ match c with Some c => [c] | None => [] end |}.

(** What a read query finds: the loaded row, its backend, the driver's answer (none when
    the timeout comes first) and the clock. *)
Record Reads := {
  rd_loaded : string → result (string * string) Loaded; rd_dispatched : string → result json unit;
  rd_executed : TargetCall → option (result json json); rd_elapsed_ms : Z; rd_now : Z }.

(** A reply, the start of a write tool, or a panic. *)
Inductive ToolOutcome : Type :=
| ToolReply (r : result string json)
| ToolStart (p : Approvals.proc)
| ToolPanic.

Section Tools.
Context {Pr : Printer} (unicode_alphanumeric : SqlSplit.char → bool) (unicode_upper : SqlSplit.char → list SqlSplit.char).
Context (to_lowercase to_uppercase : string → string).
Context (parse_mysql parse_pg parse_generic : string → option (list Statement)).
Context (whitelist : list string) (limits : ToolLimits).
Local Notation classify := (Risk.classify to_lowercase parse_mysql parse_pg parse_generic).
Local Notation statement_count := (Risk.statement_count parse_mysql parse_pg parse_generic).
(** The metadata calls, the read path, and the default database of a connection. *)
Context (backend : TargetCall → result (string * string) json) (reads : Reads) (default_database : string → option string).
Local Notation step := (Approvals.step unicode_alphanumeric unicode_upper to_lowercase parse_mysql parse_pg parse_generic whitelist).

Definition bad_request (msg : string) : string := "INVALID_ARGUMENT: " +:+ msg.
Definition arg {A} (r : result string A) : result string A :=
  match r with Ok a => Ok a | Err e => Err (bad_request e) end.
Definition flat {A} (r : result (string * string) A) : result string A :=
  match r with Ok a => Ok a | Err (code, message) => Err (code +:+ ": " +:+ message) end.

(** [arg_u64]: [Number::as_u64] is none for negatives and floats. *)
Definition arg_u64 (args : list (string * json)) (name : string) : result string (option Z) :=
  match assoc_get name args with
  | None | Some JNull => Ok None
  | Some (JInt z) => if decide (0 ≤ z ≤ u64_max)%Z then Ok (Some z)
                     else Err ("argument '" +:+ name +:+ "' must be a non-negative integer")
  | Some (JFloat _) => Err ("argument '" +:+ name +:+ "' must be a non-negative integer")
  | Some other => Err ("argument '" +:+ name +:+ "' must be an integer, got " +:+ to_vec other)
  end.

Definition list_connection_summaries (a : Approvals.Answer) (w : World) : result (string * string) (list ConnectionSummary) :=
  match a.(ans_db) with
  | Err e => Err ("DB_ERROR", "server database read failed: " +:+ take_chars 120 e)
  | Ok _ => Ok ((λ kv : string * Connection,
      {| cs_id := kv.1; cs_name := kv.2.(conn_name); cs_db_type := kv.2.(conn_db_type);
         cs_read_only := negb (Z.eqb kv.2.(conn_read_only) 0); cs_default_database := default_database kv.1 |})
      <$> map_to_list w.(database_connections))
  end.
Definition visible_summaries (cs : list ConnectionSummary) : list ConnectionSummary :=
  List.filter (λ c, allows whitelist c.(cs_id) c.(cs_name)) cs.

(** [usize::clamp] panics when its bounds are crossed. *)
Definition read_limit (max_rows : option Z) : option Z :=
  n ← match max_rows with
      | Some v => if (limits.(max_rows_limit) <? 1)%Z then None
                  else Some (Z.max 1 (Z.min v limits.(max_rows_limit)))
      | None => Some READ_QUERY_DEFAULT_ROWS
      end;
  Some (Z.min n limits.(max_rows_limit)).

Definition run_read_query (a : Approvals.Answer) (s : Store) (args : list (string * json)) : ToolOutcome * list TargetCall * Store :=
  match (conn ← arg (require_str args "connection_id"); sql ← arg (require_str args "sql");
         db ← arg (arg_str args "database"); max_rows ← arg (arg_u64 args "max_rows");
         _ ← ensure_connection_allowed whitelist a s.(st_world) conn; Ok (conn, sql, db, max_rows)) with
  | Err e => (ToolReply (Err e), [], s)
  | Ok (conn, sql, db, max_rows) =>
      let verdict := classify sql in
      if negb (is_read_only verdict) then
        (ToolReply (Err ("NOT_READ_ONLY: read_query executes read-only SQL only (risk class: "
          +:+ as_str verdict.(class) +:+ "); reasons: " +:+ RustStr.join "; " verdict.(reasons))), [], s)
      else if negb (statement_count sql =? 1) then
        (ToolReply (Err "MULTI_STATEMENT: send exactly one SQL statement per read_query call"), [], s)
      else match read_limit max_rows with
           | None => (ToolPanic, [], s)
           | Some limit =>
               let '(r, c, rec) := read_query to_uppercase to_vec (reads.(rd_loaded) conn) (reads.(rd_dispatched) conn)
                   (λ n, reads.(rd_executed) (ReadQuery conn db sql n limits.(timeout_secs))) reads.(rd_elapsed_ms)
                   conn db sql limit limits.(timeout_secs) reads.(rd_now) s.(st_recorder) in
               (ToolReply (flat r), [ReadQuery conn db sql limit limits.(timeout_secs)], sampled c rec s)
           end
  end.

(** A metadata tool: the gate, then the call. *)
Definition with_target (a : Approvals.Answer) (s : Store) (conn : result string string)
    (call : string → result string TargetCall) (reply : string → json → json) : ToolOutcome * list TargetCall * Store :=
  match (c ← conn; _ ← ensure_connection_allowed whitelist a s.(st_world) c; t ← call c; Ok (c, t)) with
  | Err e => (ToolReply (Err e), [], s)
  | Ok (c, t) => (ToolReply (match flat (backend t) with Ok j => Ok (reply c j) | Err e => Err e end), [t], s)
  end.

Definition execute (a : Approvals.Answer) (s : Store) (tool : string) (args : option (list (string * json)))
    (user : option string) : ToolOutcome * list TargetCall * Store :=
  match user with
  | None => (ToolReply (Err "unauthenticated tool call (no caller identity on request)"), [], s)
  | Some user =>
      let args := default [] args in
      let conn := arg (require_str args "connection_id") in
      if decide (tool = "list_connections") then
        (ToolReply (match flat (list_connection_summaries a s.(st_world)) with
                    | Ok cs => Ok (JObj [("connections", JArr (summary_json <$> visible_summaries cs))])
                    | Err e => Err e end), [], s)
      else if decide (tool = "list_databases") then
        with_target a s conn (λ c, Ok (ListDatabases c))
          (λ c j, JObj [("connection_id", JStr c); ("databases", j)])
      else if decide (tool = "list_tables") then
        with_target a s conn (λ c, db ← arg (arg_str args "database"); Ok (ListTables c db))
          (λ c j, JObj [("connection_id", JStr c); ("tables", j)])
      else if decide (tool = "describe_table") then
        with_target a s conn (λ c, t ← arg (require_str args "table"); db ← arg (arg_str args "database");
                                   Ok (DescribeTable c db t)) (λ _ j, j)
      else if decide (tool = "read_query") then run_read_query a s args
      else if decide (tool = "submit_write") then (ToolStart (SubmitWrite user args), [], s)
      else if decide (tool = "get_approval") then (ToolStart (GetApproval user args), [], s)
      else if decide (tool = "execute_write") then (ToolStart (ExecuteWrite user args), [], s)
      else (ToolReply (Err ("unknown tool '" +:+ tool +:+ "'")), [], s)
  end.

(** A turn of a write tool: what others have done to the store since the last one, and
    what the tool's next statement finds. *)
Record Turn := { t_others : Store → Store; t_ans : Approvals.Answer }.
Definition reply_result (r : reply) : result string json :=
  match r with RestOk d | ToolOk d => Ok d | RestErr _ _ e | ToolErr e => Err e end.
(** What a step of the tool's own did to the tables, whose executions carry the statements
    sent to a target. *)
Record OwnStep := { os_proc : proc; os_before : World; os_after : World }.
(** A write tool to its reply; the turns run out when the call is dropped. *)
Fixpoint finish (turns : list Turn) (s : Store) (p : proc) : option (result string json) * list OwnStep * Store :=
  match turns with
  | [] => (None, [], s)
  | t :: turns =>
      let s := t.(t_others) s in
      let '(w', qs, r) := step t.(t_ans) s.(st_world) p in
      let own := {| os_proc := p; os_before := s.(st_world); os_after := w' |} in
      match r, qs with
      | None, [q] => let '(r, did, s') := finish turns (with_world w' s) q in (r, own :: did, s')
      | None, _ => (None, [own], with_world w' s)
      | Some r, _ => (Some (reply_result r), [own], with_world w' s)
      end
  end.

(** [dispatch]: the call to its end, and one audit row for it ([logged] is whether the
    row could be written). *)
Definition short_reason (r : result string json) : option string :=
  match r with Ok _ => None | Err msg => Some (take_chars 200 msg) end.
Definition log_call (logged : bool) (user : option string) (tool : string) (r : result string json) (s : Store) : Store :=
  with_mcp (log_mcp_event logged user ToolCall (Some tool) (short_reason r) s.(st_mcp)) s.
Definition dispatch (a : Approvals.Answer) (turns : list Turn) (logged : bool) (s : Store) (tool : string)
    (args : option (list (string * json))) (user : option string)
    : option (result string json) * list TargetCall * list OwnStep * Store :=
  let '(out, calls, s) := execute a s tool args user in
  let '(r, did, s) := match out with
                      | ToolReply r => (Some r, [], s)
                      | ToolStart p => finish turns s p
                      | ToolPanic => (None, [], s)
                      end in
  (r, calls, did, match r with Some r => log_call logged user tool r s | None => s end).

(** ** The gates *)

(** What a call may be. *)
Definition permitted (w : World) (call : TargetCall) : Prop :=
  (whitelist = [] ∨ ∀ c, w.(database_connections) !! target_conn call = Some c →
     target_conn call ∈ whitelist ∨ c.(conn_name) ∈ whitelist) ∧
  match call with
  | ReadQuery conn db sql limit timeout =>
      is_read_only (classify sql) = true ∧ statement_count sql = 1 ∧
      (1 ≤ limit ≤ limits.(max_rows_limit))%Z ∧ timeout = limits.(timeout_secs)
  | _ => True
  end.

Lemma allowed_conn a w conn r : ensure_connection_allowed whitelist a w conn = Ok r →
  whitelist = [] ∨ ∀ c, w.(database_connections) !! conn = Some c → conn ∈ whitelist ∨ c.(conn_name) ∈ whitelist.
Proof.
  unfold ensure_connection_allowed. destruct (bool_decide (whitelist = [])) eqn:Ew.
  { left. by apply bool_decide_eq_true in Ew. }
  destruct (ans_db a); [|done]. intros Hr. right. intros c Hc. rewrite Hc in Hr.
  unfold allows in Hr. rewrite Ew in Hr. cbn in Hr.
  destruct (bool_decide (conn ∈ whitelist)) eqn:E1; [left; by apply bool_decide_eq_true in E1|].
  destruct (bool_decide (conn_name c ∈ whitelist)) eqn:E2; [right; by apply bool_decide_eq_true in E2|done].
Qed.

Lemma with_target_permitted a s conn call reply out t s' : (∀ c t, call c = Ok t → target_conn t = c ∧
    match t with ReadQuery _ _ _ _ _ => False | _ => True end) →
  with_target a s conn call reply = (out, [t], s') → permitted s.(st_world) t.
Proof.
  intros Hcall. unfold with_target. destruct conn as [c|e]; [|done]. cbn.
  destruct (ensure_connection_allowed _ _ _ _) as [[]|e] eqn:Ea; [|done]. cbn.
  destruct (call c) as [t'|e] eqn:Ec; [|done]. intros [= _ <- _].
  destruct (Hcall _ _ Ec) as [<- Ht]. split; [by eapply allowed_conn|]. by destruct t'.
Qed.

Lemma read_limit_ok max_rows : (1 ≤ limits.(max_rows_limit))%Z →
  ∃ n, read_limit max_rows = Some n ∧ (1 ≤ n ≤ limits.(max_rows_limit))%Z.
Proof.
  intros Hm. unfold read_limit, READ_QUERY_DEFAULT_ROWS. rewrite (proj2 (Z.ltb_ge _ _)) by done.
  destruct max_rows as [v|]; cbn; eexists; (split; [reflexivity|]); lia.
Qed.

(** What a call that runs here does: at most one call, permitted, and no change but a sample. *)
Definition reads_only (s : Store) (o : ToolOutcome * list TargetCall * Store) : Prop :=
  match o with
  | (ToolReply r, calls, s') => s'.(st_world) = s.(st_world) ∧ s'.(st_mcp) = s.(st_mcp) ∧
      match calls with [] => True | [t] => permitted s.(st_world) t | _ => False end
  | _ => False
  end.
Lemma read_query_reads a s args : (1 ≤ limits.(max_rows_limit))%Z → reads_only s (run_read_query a s args).
Proof.
  intros Hm. unfold run_read_query.
  destruct (arg (require_str args "connection_id")) as [conn|e]; cbn; [|done].
  destruct (arg (require_str args "sql")) as [sql|e]; cbn; [|done].
  destruct (arg (arg_str args "database")) as [db|e]; cbn; [|done].
  destruct (arg (arg_u64 args "max_rows")) as [max_rows|e]; cbn; [|done].
  destruct (ensure_connection_allowed _ _ _ _) as [[]|e] eqn:Ea; cbn; [|done].
  destruct (is_read_only (classify sql)) eqn:Er; cbn [negb]; [|done].
  destruct (statement_count sql =? 1) eqn:Ec; cbn [negb]; [|done].
  destruct (read_limit_ok max_rows Hm) as (n & -> & Hn).
  destruct (read_query _ _ _ _ _ _ _ _ _ _ _ _ _) as [[r c] rec]. cbn. split_and!; [done..|]. split; [by eapply allowed_conn|].
  split_and!; [done|by apply Nat.eqb_eq|lia|lia|done].
Qed.

Definition write_tool (p : Approvals.proc) (user : string) : Prop :=
  ∃ args, p = SubmitWrite user args ∨ p = GetApproval user args ∨ p = ExecuteWrite user args.

Lemma with_target_reads a s conn call reply : (∀ c t, call c = Ok t → target_conn t = c ∧
    match t with ReadQuery _ _ _ _ _ => False | _ => True end) → reads_only s (with_target a s conn call reply).
Proof.
  intros Hcall. pose proof (λ out t s', with_target_permitted a s conn call reply out t s' Hcall) as Hp. revert Hp.
  unfold with_target. destruct conn as [c|e]; [|done]. cbn.
  destruct (ensure_connection_allowed _ _ _ _) as [[]|e]; [|done]. cbn.
  destruct (call c) as [t|e]; [|done]. cbn. intros Hp. split_and!; [done..|]. by eapply Hp.
Qed.

Lemma execute_gated a s tool args user : (1 ≤ limits.(max_rows_limit))%Z →
  match execute a s tool args user with
  | (ToolReply r, calls, s') => reads_only s (ToolReply r, calls, s') ∧ (calls ≠ [] → is_Some user)
  | (ToolStart p, calls, s') => calls = [] ∧ s' = s ∧ ∃ u, user = Some u ∧ write_tool p u
  | (ToolPanic, _, _) => False
  end.
Proof.
  intros Hm. unfold execute. destruct user as [u|]; [|done].
  assert (Hone : ∀ o, reads_only s o → match o with
    | (ToolReply r, calls, s') => reads_only s (ToolReply r, calls, s') ∧ (calls ≠ [] → is_Some (Some u))
    | (ToolStart p, calls, s') => calls = [] ∧ s' = s ∧ ∃ u', Some u = Some u' ∧ write_tool p u'
    | (ToolPanic, _, _) => False
    end).
  { intros [[[r|p|] calls] s'] H; done. }
  destruct (decide (tool = "list_connections")); [by apply (Hone (ToolReply _, _, _))|].
  destruct (decide (tool = "list_databases")).
  { apply Hone, with_target_reads. by intros c t [= <-]. }
  destruct (decide (tool = "list_tables")).
  { apply Hone, with_target_reads. by intros c t (db & _ & [= <-])%bind_ok_inv. }
  destruct (decide (tool = "describe_table")).
  { apply Hone, with_target_reads. by intros c t (x & _ & (db & _ & [= <-])%bind_ok_inv)%bind_ok_inv. }
  destruct (decide (tool = "read_query")); [by apply Hone, read_query_reads|].
  unfold write_tool. repeat case_decide; subst; try (split_and!; [done..|]; exists u; split; [done|]; eexists; eauto).
  all: by split_and!.
Qed.

(** ** A write tool run to its end *)

(** How many turns a process still takes. *)
Definition turns_left (p : Approvals.proc) : nat :=
  match p with
  | ExecuteWrite _ _ => 5 | ExecuteWriteAllowed _ _ _ => 4 | ExecuteWriteClaim _ _ _ => 3 | ExecuteWriteRun _ _ _ => 2
  | SubmitWrite _ _ => 3 | SubmitWriteCheck _ _ _ => 2 | _ => 1
  end.
(** The approval a call goes on is one it saw approved, submitted by its caller, and the
    target of it one that the whitelist exposed. *)
Definition seen_approved (seen : list World) (u id : string) (row : Approval) : Prop :=
  ∃ w, w ∈ seen ∧ w.(approvals) !! id = Some row ∧ row.(status) = "approved" ∧ row.(submitter_id) = u.
Definition exposes (w : World) (conn : string) : Prop :=
  whitelist = [] ∨ ∀ c, w.(database_connections) !! conn = Some c → conn ∈ whitelist ∨ c.(conn_name) ∈ whitelist.
Definition seen_exposed (seen : list World) (conn : string) : Prop := ∃ w, w ∈ seen ∧ exposes w conn.
Definition in_name_of (seen : list World) (u : string) (p : Approvals.proc) : Prop :=
  match p with
  | SubmitWrite u' _ | GetApproval u' _ | ExecuteWrite u' _ => u' = u
  | SubmitWriteCheck u' conn _ | SubmitWriteInsert u' conn _ => u' = u ∧ seen_exposed seen conn
  | ExecuteWriteAllowed u' id row => u' = u ∧ seen_approved seen u id row
  | ExecuteWriteClaim u' id row | ExecuteWriteRun u' id row =>
      u' = u ∧ seen_approved seen u id row ∧ seen_exposed seen row.(target_db_id)
  | ExecuteWritePersist id _ => ∃ row, seen_approved seen u id row
  | CurrentExecState _ => True
  | _ => False
  end.
(** What a step may do to the tables: a new row is a pending one of the caller's on an
    exposed connection, another row changes only if it was seen approved, and what is
    executed is what such a row holds, on the target it names. *)
Definition step_allowed (seen : list World) (u : string) (w w' : World) : Prop :=
  (∀ id b, w'.(approvals) !! id = Some b → w.(approvals) !! id = Some b ∨
     (w.(approvals) !! id = None ∧ b.(status) = "pending" ∧ b.(submitter_id) = u ∧ seen_exposed seen b.(target_db_id)) ∨
     ∃ row, seen_approved seen u id row) ∧
  (w'.(executions) = w.(executions) ∨ ∃ e row, w'.(executions) = w.(executions) ++ [e] ∧ e.(e_via) = ViaMcp ∧ e.(e_by) = u ∧
     seen_approved seen u e.(e_id) row ∧ e.(e_sql) = row.(ddl_sql) ∧ e.(e_target) = row.(target_db_id) ∧ seen_exposed seen e.(e_target)) ∧
  w'.(database_connections) = w.(database_connections) ∧ w'.(Approvals.entitlement) = w.(Approvals.entitlement) ∧ w'.(Approvals.audit) = w.(Approvals.audit).
Lemma step_allowed_refl seen u w : step_allowed seen u w w.
Proof. split; [by left|]. by split; [left|]. Qed.
#[local] Hint Resolve step_allowed_refl : core.

Lemma seen_more w seen u id row : seen_approved seen u id row → seen_approved (w :: seen) u id row.
Proof. intros (w0 & Hin & H). exists w0. split; [by right|done]. Qed.
Lemma exposed_more w seen conn : seen_exposed seen conn → seen_exposed (w :: seen) conn.
Proof. intros (w0 & Hin & H). exists w0. split; [by right|done]. Qed.
Lemma allowed_exposed a w seen conn r : ensure_connection_allowed whitelist a w conn = Ok r → seen_exposed (w :: seen) conn.
Proof. intros Hr. exists w. split; [by left|]. by eapply allowed_conn. Qed.

(** A step leads on in the same name, does only what is allowed, and either replies or
    goes on with one process that has fewer turns left. *)
Definition step_ok (seen : list World) (u : string) (w : World) (p : Approvals.proc) (o : Approvals.outcome) : Prop :=
  let '(w', qs, r) := o in
  step_allowed (w :: seen) u w w' ∧
  match r with Some _ => True | None => ∃ q, qs = [q] ∧ in_name_of (w :: seen) u q ∧ turns_left q < turns_left p end.
Lemma answer_ok seen u w p r : step_ok seen u w p (answer w r).
Proof. by split. Qed.
Lemma goto_ok seen u w p q : in_name_of (w :: seen) u q → turns_left q < turns_left p → step_ok seen u w p (goto w q).
Proof. intros Hq Hl. split; [done|]. by exists q. Qed.

Lemma insert_ok seen u w p a sql conn r e : seen_exposed (w :: seen) conn →
  step_ok seen u w p (match insert_approval a w (new_approval u sql conn a.(ans_now)) with
                      | Ok w' => answer w' r | Err _ => answer w e end).
Proof.
  intros Hx. unfold insert_approval. destruct (ans_db a) as [x|x]; cbn; [|by apply answer_ok].
  destruct (approvals w !! ans_uuid a) eqn:Ei; [by apply answer_ok|]. split; [|done]. split; [|by split; [left|]].
  intros id b. cbn. destruct (decide (id = ans_uuid a)) as [->|Hne].
  - rewrite lookup_insert_eq. intros [= <-]. right; left. by split_and!.
  - rewrite lookup_insert_ne by done. by left.
Qed.
Lemma persist_allowed seen u w a id r row : seen_approved seen u id row → step_allowed seen u w (persist a id r w).
Proof.
  intros Hs. unfold persist. destruct (ans_db a); [|done]. split; [|by split; [left|]].
  intros i b Hb. destruct (decide (i = id)) as [->|Hne]; [right; right; by exists row|]. left. revert Hb. cbn. by rewrite lookup_alter_ne.
Qed.
Lemma execute_write_step_ok seen u w a args : step_ok seen u w (ExecuteWrite u args) (execute_write a w u args).
Proof.
  unfold execute_write. destruct (write_gate_blocked w); [apply answer_ok|]. destruct (require_str _ _) as [id|]; [|apply answer_ok].
  destruct (load_own_approval a w u id) as [row|] eqn:El; [|apply answer_ok]. case_decide as Hs; [|apply answer_ok].
  unfold load_own_approval in El. destruct (ans_db a); [|done]. destruct (approvals w !! id) as [x|] eqn:Hr; [|done]. case_decide; simplify_eq.
  apply goto_ok; [|cbn; lia]. split; [done|]. exists w. split_and!; [by left|done..].
Qed.
Lemma execute_write_claim_ok seen u w a id row : seen_approved seen u id row → seen_exposed seen row.(target_db_id) →
  step_ok seen u w (ExecuteWriteClaim u id row) (execute_write_claim a w u id row).
Proof.
  intros Hs Hx. unfold execute_write_claim. destruct (ans_db a); [|apply answer_ok].
  destruct (approvals w !! id) as [cur|] eqn:Ec; [|apply goto_ok; [done|cbn; lia]]. case_decide; [|apply goto_ok; [done|cbn; lia]]. split.
  - split; [|by split; [left|]]. intros i b. cbn. destruct (decide (i = id)) as [->|Hne]; [|rewrite lookup_insert_ne by done; by left].
    intros _. right; right. exists row. by apply seen_more.
  - eexists. split; [done|]. split; [|cbn; lia]. split_and!; [done|by apply seen_more|by apply exposed_more].
Qed.
Lemma execute_write_run_ok seen u w a id row : seen_approved seen u id row → seen_exposed seen row.(target_db_id) →
  step_ok seen u w (ExecuteWriteRun u id row) (execute_write_run unicode_alphanumeric unicode_upper a w u id row).
Proof.
  intros Hs Hx. unfold execute_write_run. destruct (execute_ddl_on_target _ _ _ _ _ _) as [r sent]. split.
  - split; [by left|]. split; [right|done]. do 2 eexists. split_and!; [done..|by apply seen_more|done|done|by apply exposed_more].
  - eexists. split; [done|]. split; [|cbn; lia]. exists row. by apply seen_more.
Qed.
Lemma tool_step_ok a seen u w p : in_name_of seen u p → step_ok seen u w p (step a w p).
Proof.
  destruct p; cbn [in_name_of Approvals.step]; try done.
  - intros ->. unfold submit_write. destruct (write_gate_blocked w); [apply answer_ok|]. destruct (_ ≫= _) as [[conn sql]|]; [|apply answer_ok].
    destruct (ensure_connection_allowed _ _ _ _) eqn:Ea; [|apply answer_ok]. apply goto_ok; [|cbn; lia]. split; [done|]. by eapply allowed_exposed.
  - intros [-> Hx]. unfold submit_write_check. destruct (is_read_only _); [apply answer_ok|]. case_decide; [apply answer_ok|].
    destruct (ans_db a); [|apply answer_ok]. destruct (_ !! _); [|apply answer_ok]. apply goto_ok; [|cbn; lia]. split; [done|by apply exposed_more].
  - intros [-> Hx]. unfold submit_write_insert. apply insert_ok. by apply exposed_more.
  - intros ->. apply execute_write_step_ok.
  - intros [-> Hs]. unfold execute_write_allowed. destruct (ensure_connection_allowed _ _ _ _) eqn:Ea; [|apply answer_ok].
    apply goto_ok; [|cbn; lia]. split_and!; [done|by apply seen_more|by eapply allowed_exposed].
  - intros (-> & Hs & Hx). by apply execute_write_claim_ok.
  - intros (-> & Hs & Hx). by apply execute_write_run_ok.
  - intros (row & Hs). unfold execute_write_persist. split; [|done]. eapply persist_allowed. by apply seen_more.
  - intros _. unfold current_exec_state. destruct (ans_db a); [|apply answer_ok]. destruct (_ !! _); apply answer_ok.
Qed.

(** Every step of the call is allowed by what the call had seen until then. *)
Fixpoint accounted (seen : list World) (u : string) (did : list OwnStep) : Prop :=
  match did with
  | [] => True
  | o :: did => step_allowed (o.(os_before) :: seen) u o.(os_before) o.(os_after) ∧ accounted (o.(os_before) :: seen) u did
  end.
Lemma finish_accounted turns seen u s p : in_name_of seen u p →
  let '(r, did, _) := finish turns s p in accounted seen u did ∧ (turns_left p ≤ length turns → is_Some r).
Proof.
  revert seen s p. induction turns as [|t turns IH]; intros seen s p Hp; cbn [finish].
  { split; [done|]. intros H. exfalso. destruct p; cbn in H; lia. }
  pose proof (tool_step_ok (t_ans t) seen u (st_world (t_others t s)) p Hp) as Hs.
  destruct (step _ _ _) as [[w' qs] r]. destruct Hs as [Ha Hr]. destruct r as [r|]; [cbn; split; [done|by eexists]|].
  destruct Hr as (q & -> & Hq & Hl). specialize (IH _ (with_world w' (t_others t s)) q Hq).
  destruct (finish turns _ q) as [[r did] s']. destruct IH as [H1 H2]. split; [done|]. intros H. apply H2. cbn in H. lia.
Qed.
Lemma write_tool_named p u : write_tool p u → in_name_of [] u p ∧ turns_left p ≤ 5.
Proof. intros (args & [->|[->| ->]]); cbn; (split; [done|lia]). Qed.
End Tools.

(** ** A concrete call *)

#[local] Existing Instance tlv_printer.
Definition ex_parse_select (sql : string) : option (list Statement) :=
  if decide (sql = "SELECT 1") then Some [SQuery (MkQuery None 0 (SESelect (MkSelect false [] None None)))] else None.
Definition ex_backend (c : TargetCall) : result (string * string) json := Ok (JObj [("rows", JArr [])]).
Definition ex_reads : World := Build_World ∅ {["a" := ex_target]} (Entitlement.Trial 0) [] [].
Definition ex_rec : QueryStatsRecorder := recorder_new
  {| QueryStats.slow_query_enabled := true; QueryStats.slow_query_threshold_ms := 3; QueryStats.slow_query_store_sql := false;
     QueryStats.slow_query_cap_per_digest_per_hour := 10 |}.
Definition ex_result : json := JObj [("columns", JArr [JStr "1"]); ("rows", JArr [JArr [JInt 1]])].
Definition ex_engine : Reads := {| rd_loaded := λ _, Ok {| l_db_type := "mysql"; l_default_database := None |};
  rd_dispatched := λ _, Ok tt; rd_executed := λ _, Some (Ok ex_result); rd_elapsed_ms := 5; rd_now := 0 |}.
