(* ===== verification/DbFamily.v ===== *)
(** * Database kinds, their dialect profiles and catalog statements
    (crates/automation/src/mysql_family.rs; the dispatch and the literals of
    db_handler.rs and metadata.rs)

    Which engines the server speaks to, how the MySQL family's members differ,
    and the catalog statements built for each: bound parameters where the
    engine prepares statements, quoted literals where it does not. *)

From S2P Require Import Prelude RustStr.
From stdpp Require Import strings.

(** ** The MySQL family *)

Inductive CatalogQueryMode : Type := Prepare | RawSql.
#[global] Instance mode_dec : EqDecision CatalogQueryMode.
Proof. solve_decision. Defined.

(** [MysqlFamilyHooks]: the trait as a record of its hooks; [handshake] is the
    pair of capability flags it turns off. *)
Record Handshake := { pipes_as_concat : bool; no_engine_substitution : bool }.
Record Profile := {
  name : string; handshake : Handshake → Handshake;
  session_statements : option string → option string → list string;
  catalog_mode : CatalogQueryMode; row_estimate_expr : string;
  system_databases : list string; supports_transactions : bool; supports_kill_query : bool }.

Definition not_blank (o : option string) : option string := o ≫= λ s, if is_empty s then None else Some s.
Definition escape_quote (s : string) : string := replace_char "'"%char "\'" s.
Definition set_names (charset : option string) : list string :=
  match not_blank charset with Some cs => ["SET NAMES '" +:+ escape_quote cs +:+ "'"] | None => [] end.
Definition set_time_zone (timezone : option string) : list string :=
  match not_blank timezone with Some tz => ["SET time_zone = '" +:+ escape_quote tz +:+ "'"] | None => [] end.

(** The trait's default methods. *)
Definition default_session (charset timezone : option string) : list string :=
  set_names charset ++ set_time_zone timezone.
Definition default_system_databases : list string := ["information_schema"; "performance_schema"].
Definition plain_handshake (h : Handshake) : Handshake :=
  {| pipes_as_concat := false; no_engine_substitution := false |}.

Definition MysqlProfile : Profile :=
  {| name := "mysql"; handshake := id; session_statements := default_session; catalog_mode := Prepare;
     row_estimate_expr := "table_rows"; system_databases := default_system_databases;
     supports_transactions := true; supports_kill_query := true |}.
Definition DorisProfile : Profile :=
  {| name := "doris"; handshake := plain_handshake; session_statements := λ charset _, set_names charset;
     catalog_mode := RawSql; row_estimate_expr := "table_rows"; system_databases := default_system_databases;
     supports_transactions := true; supports_kill_query := true |}.
Definition OceanbaseProfile : Profile :=
  {| name := "oceanbase"; handshake := id; session_statements := default_session; catalog_mode := Prepare;
     row_estimate_expr := "table_rows";
     system_databases := ["information_schema"; "performance_schema"; "oceanbase"; "SYS"; "LBACSYS";
                          "ORAAUDITOR"; "ocs"; "sys_external_tbs"];
     supports_transactions := true; supports_kill_query := true |}.
Definition TidbProfile : Profile :=
  {| name := "tidb"; handshake := id; session_statements := default_session; catalog_mode := Prepare;
     row_estimate_expr := "table_rows";
     system_databases := ["information_schema"; "performance_schema"; "INFORMATION_SCHEMA";
                          "PERFORMANCE_SCHEMA"; "METRICS_SCHEMA"];
     supports_transactions := true; supports_kill_query := true |}.
Definition StarrocksProfile : Profile :=
  {| name := "starrocks"; handshake := plain_handshake; session_statements := default_session;
     catalog_mode := RawSql; row_estimate_expr := "table_rows";
     system_databases := ["information_schema"; "performance_schema"; "sys"; "_statistics_"];
     supports_transactions := false; supports_kill_query := true |}.
Definition MariadbProfile : Profile :=
  {| name := "mariadb"; handshake := id; session_statements := default_session; catalog_mode := Prepare;
     row_estimate_expr := "table_rows"; system_databases := default_system_databases;
     supports_transactions := true; supports_kill_query := true |}.

(** The registry. *)
Definition mysql_family_for (db_type : string) : option Profile :=
  let t := to_ascii_lowercase db_type in
  if decide (t = "mysql") then Some MysqlProfile
  else if decide (t = "doris") then Some DorisProfile
  else if decide (t = "oceanbase") then Some OceanbaseProfile
  else if decide (t = "tidb") then Some TidbProfile
  else if decide (t = "starrocks") then Some StarrocksProfile
  else if decide (t = "mariadb") then Some MariadbProfile
  else None.
Definition mysql_profile_for (db_type : string) : Profile := default MysqlProfile (mysql_family_for db_type).

(** ** Dispatch *)

(** [metadata::Family] and [backend_for]'s boxed backends. *)
Inductive Family : Type :=
| MySql (profile : Profile) | Postgres | Sqlite | Clickhouse | SqlServer | Mongo | Redis | Tdengine.
Inductive Backend : Type :=
| MysqlFamilyBackend (profile : Profile) | PostgresBackend | SqliteBackend | ClickhouseBackend | SqlServerBackend.

(** [MetadataError]. *)
Definition MetadataError : Type := string * string.
Definition unsupported (db_type : string) : MetadataError :=
  ("UNSUPPORTED_DB_TYPE", "unsupported db_type: " +:+ db_type).

Definition family_for (db_type : string) : result MetadataError Family :=
  match mysql_family_for db_type with
  | Some profile => Ok (MySql profile)
  | None =>
      let t := to_ascii_lowercase db_type in
      if decide (t = "postgres" ∨ t = "postgresql" ∨ t = "pg") then Ok Postgres
      else if decide (t = "sqlite") then Ok Sqlite
      else if decide (t = "clickhouse") then Ok Clickhouse
      else if decide (t = "sqlserver" ∨ t = "mssql") then Ok SqlServer
      else if decide (t = "mongodb" ∨ t = "mongo") then Ok Mongo
      else if decide (t = "redis") then Ok Redis
      else if decide (t = "tdengine") then Ok Tdengine
      else Err (unsupported t)
  end.
Definition backend_for (db_type : string) : result MetadataError Backend :=
  match mysql_family_for db_type with
  | Some profile => Ok (MysqlFamilyBackend profile)
  | None =>
      let t := to_ascii_lowercase db_type in
      if decide (t = "postgres" ∨ t = "postgresql" ∨ t = "pg") then Ok PostgresBackend
      else if decide (t = "sqlite") then Ok SqliteBackend
      else if decide (t = "clickhouse") then Ok ClickhouseBackend
      else if decide (t = "sqlserver" ∨ t = "mssql") then Ok SqlServerBackend
      else Err (unsupported t)
  end.

(** What a backend is in the metadata's terms; the three families it has none for. *)
Definition family_of (b : Backend) : Family :=
  match b with
  | MysqlFamilyBackend p => MySql p | PostgresBackend => Postgres | SqliteBackend => Sqlite
  | ClickhouseBackend => Clickhouse | SqlServerBackend => SqlServer
  end.
Definition own_channel (f : Family) : Prop := f = Mongo ∨ f = Redis ∨ f = Tdengine.

(** The two dispatchers agree on every [db_type]: a kind with a SQL backend
    has the family of that backend, a kind without one is either one of the three
    families with a channel of their own, or refused by both with the same error. *)
Theorem dispatch_agrees db_type :
  match backend_for db_type, family_for db_type with
  | Ok b, Ok f => f = family_of b
  | Err e, Ok f => own_channel f ∧ e = unsupported (to_ascii_lowercase db_type)
  | Err e, Err e' => e = e'
  | Ok _, Err _ => False
  end.
Proof.
  unfold backend_for, family_for, own_channel. destruct (mysql_family_for db_type); [done|].
  cbv zeta. repeat case_decide; naive_solver.
Qed.

(** ** Literals *)

Definition mysql_str_literal (s : string) : string :=
  "'" +:+ replace_char "'"%char "''" (replace_char "\"%char "\\" s) +:+ "'".
Definition ch_str_literal (s : string) : string := "'" +:+ replace_char "'"%char "''" s +:+ "'".
Definition quote_ident_td (ident : string) : string := "`" +:+ replace_char "`"%char "``" ident +:+ "`".
Definition DQS : string := String "034"%char "".
Definition quote_ident_sqlite (name : string) : string :=
  if all_chars (λ c, is_ascii_alphanumeric c || bool_decide (c = "_"%char)) name then name
  else DQS +:+ replace_char "034"%char (DQS +:+ DQS) name +:+ DQS.

(** ** Catalog statements *)

(** The hooks [schema_condition] and [table_condition], which no member overrides. *)
Definition schema_condition (p : Profile) (db : string) : string :=
  match p.(catalog_mode) with
  | Prepare => "table_schema = DATABASE()"
  | RawSql => "table_schema = " +:+ mysql_str_literal db
  end.
Definition table_condition (p : Profile) (table : string) : string :=
  match p.(catalog_mode) with
  | Prepare => "table_name = ?"
  | RawSql => "table_name = " +:+ mysql_str_literal table
  end.
Definition bind_table (p : Profile) (table : string) : option string :=
  match p.(catalog_mode) with Prepare => Some table | RawSql => None end.

(** A statement around the two conditions, and what is bound to it. *)
Definition where_both (p : Profile) (pre post db table : string) : string * option string :=
  (pre +:+ schema_condition p db +:+ " AND " +:+ table_condition p table +:+ post, bind_table p table).

(** metadata.rs: [list_tables] and the four statements of [describe_mysql]. *)
Definition tables_sql (p : Profile) (db : string) : string * option string :=
  ("SELECT table_name, table_type, table_comment, " +:+ p.(row_estimate_expr) +:+ "
                 FROM information_schema.tables
                 WHERE " +:+ schema_condition p db +:+ "
                 ORDER BY table_name", None).
Definition meta_sql (p : Profile) : string → string → string * option string :=
  where_both p "SELECT table_comment FROM information_schema.tables
         WHERE " "".
Definition col_sql (p : Profile) : string → string → string * option string :=
  where_both p "SELECT column_name, column_type, is_nullable, column_default, column_comment,
                CASE WHEN column_key = 'PRI' THEN 1 ELSE 0 END
         FROM information_schema.columns
         WHERE " "
         ORDER BY ordinal_position".
Definition idx_sql (p : Profile) : string → string → string * option string :=
  where_both p "SELECT index_name, non_unique, column_name
         FROM information_schema.statistics
         WHERE " "
         ORDER BY index_name, seq_in_index".
Definition fk_sql (p : Profile) : string → string → string * option string :=
  where_both p "SELECT constraint_name, column_name, referenced_table_name, referenced_column_name
         FROM information_schema.key_column_usage
         WHERE " "
           AND referenced_table_name IS NOT NULL
         ORDER BY constraint_name, ordinal_position".
(** db_handler.rs: the MySQL family's [list_columns], [list_indexes] and
    [list_foreign_keys]. *)
Definition list_columns_sql (p : Profile) : string → string → string * option string :=
  where_both p "SELECT column_name, data_type,
                    CASE WHEN column_key = 'PRI' THEN 1 ELSE 0 END,
                    CASE WHEN is_nullable = 'YES' THEN 1 ELSE 0 END,
                    column_default
             FROM information_schema.columns
             WHERE " "
             ORDER BY ordinal_position".
Definition list_indexes_sql (p : Profile) : string → string → string * option string :=
  where_both p "SELECT index_name FROM information_schema.statistics WHERE "
    " GROUP BY index_name ORDER BY index_name".
Definition list_foreign_keys_sql (p : Profile) : string → string → string * option string :=
  where_both p "SELECT constraint_name FROM information_schema.key_column_usage WHERE "
    " AND constraint_name <> 'PRIMARY' ORDER BY constraint_name".
(** The ClickHouse statements of metadata.rs. *)
Definition ch_tables_sql (db : string) : string :=
  "SELECT name, engine, comment, total_rows FROM system.tables WHERE database = " +:+ ch_str_literal db
  +:+ " ORDER BY name".
Definition ch_columns_sql (db table : string) : string :=
  "SELECT name, type, default_kind, default_expression, comment FROM system.columns WHERE database = "
  +:+ ch_str_literal db +:+ " AND table = " +:+ ch_str_literal table +:+ " ORDER BY position".

(** ** How an engine reads string literals *)

(** The escape sequences of a MySQL or ClickHouse literal: a backslash takes the
    next character with it, a doubled quote stands for one. *)
Definition escaped (c : ascii) : ascii :=
  if decide (c = "n"%char) then "010"%char else if decide (c = "r"%char) then "013"%char
  else if decide (c = "t"%char) then "009"%char else if decide (c = "0"%char) then "000"%char else c.

(** The text of a statement with every literal replaced by one mark, and the
    literals' values; none when a literal is not closed. *)
Definition BSL : ascii := "\"%char.
Definition QUO : ascii := "'"%char.
Definition emit (c : ascii) (o : option (string * list string)) : option (string * list string) :=
  (λ tv : string * list string, (String c tv.1, tv.2)) <$> o.
Definition close (v : string) (o : option (string * list string)) : option (string * list string) :=
  (λ tv : string * list string, (String QUO tv.1, v :: tv.2)) <$> o.
Definition push (v : string) (c : ascii) : string := v +:+ String c "".
Fixpoint literals (inside : option string) (s : string) : option (string * list string) :=
  match inside with
  | None =>
      match s with
      | EmptyString => Some ("", [])
      | String c r => if decide (c = QUO) then literals (Some "") r else emit c (literals None r)
      end
  | Some v =>
      match s with
      | EmptyString => None
      | String c r =>
          if decide (c = BSL) then
            match r with String c' r' => literals (Some (push v (escaped c'))) r' | EmptyString => None end
          else if decide (c = QUO) then
            match r with
            | String c' r' => if decide (c' = QUO) then literals (Some (push v QUO)) r' else close v (literals None r)
            | EmptyString => close v (Some ("", []))
            end
          else literals (Some (push v c)) r
      end
  end.

Definition no_quote_ahead (k : string) : Prop := starts_with "'" k = false.
Lemma no_quote_ahead_head k : no_quote_ahead k → k = "" ∨ ∃ c r, k = String c r ∧ c ≠ QUO.
Proof.
  destruct k as [|c r]; [by left|]. intros H. right. exists c, r. split; [done|]. intros ->.
  unfold no_quote_ahead, starts_with in H. cbn in H. by destruct r.
Qed.

(** A closed text is read by itself, whatever follows it. *)
Lemma literals_app k s : no_quote_ahead k → ∀ st t vs, literals st s = Some (t, vs) →
  literals st (s +:+ k) = (λ tv, (t +:+ tv.1, vs ++ tv.2)) <$> literals None k.
Proof.
  intros Hk. induction s as [s IH] using string_lt_ind. intros st t vs.
  destruct s as [|c r].
  { destruct st; [done|]. intros [= <- <-]. rewrite str_app_nil_l.
    by destruct (literals None k) as [[]|]. }
  rewrite str_app_cons. destruct st as [v|]; cbn [literals].
  - destruct (decide (c = BSL)).
    { destruct r as [|c' r]; [done|]. rewrite str_app_cons. apply IH. cbn. lia. }
    destruct (decide (c = QUO)); [|apply IH; cbn; lia].
    destruct r as [|c' r].
    { intros [= <- <-]. rewrite str_app_nil_l.
      destruct (no_quote_ahead_head k Hk) as [->|(c' & r & -> & Hc)]; [done|].
      rewrite decide_False by done. unfold close. by destruct (literals None _) as [[]|]. }
    rewrite str_app_cons. destruct (decide (c' = QUO)); [apply IH; cbn; lia|].
    unfold close at 1. destruct (literals None (String c' r)) as [[t' vs']|] eqn:E; [|done].
    intros [= <- <-]. rewrite <- str_app_cons, (IH (String c' r) ltac:(cbn; lia) None t' vs') by done.
    unfold close. by destruct (literals None k) as [[]|].
  - destruct (decide (c = QUO)); [apply IH; cbn; lia|].
    unfold emit at 1. destruct (literals None r) as [[t' vs']|] eqn:E; [|done]. intros [= <- <-].
    rewrite (IH r ltac:(cbn; lia) None t' vs') by done. unfold emit. by destruct (literals None k) as [[]|].
Qed.

Lemma literals_plain s k : no_char QUO s = true →
  literals None (s +:+ k) = (λ tv, (s +:+ tv.1, tv.2)) <$> literals None k.
Proof.
  induction s as [|c s IH]; [intros _; rewrite str_app_nil_l; by destruct (literals None k) as [[]|]|].
  unfold no_char. cbn [all_chars]. intros [Hc Hs]%andb_true_iff. rewrite str_app_cons. cbn [literals].
  rewrite decide_False by (by intros ->). unfold emit. rewrite IH by done. by destruct (literals None k) as [[]|].
Qed.

(** A quoted value is one literal with exactly that value. *)
Definition quoted_body (s : string) : string := replace_char QUO "''" (replace_char BSL "\\" s).
Lemma quoted_body_cons c s : quoted_body (String c s) =
  if decide (c = BSL) then String BSL (String BSL (quoted_body s))
  else if decide (c = QUO) then String QUO (String QUO (quoted_body s)) else String c (quoted_body s).
Proof.
  unfold quoted_body. cbn [replace_char]. destruct (decide (c = BSL)); [done|]. cbn [replace_char].
  by destruct (decide (c = QUO)).
Qed.
Lemma literals_quoted v s k : no_quote_ahead k →
  literals (Some v) (quoted_body s +:+ String QUO k) = close (v +:+ s) (literals None k).
Proof.
  intros Hk. revert v. induction s as [|c s IH]; intros v.
  - change (quoted_body "") with "". rewrite str_app_nil_l, str_app_nil_r.
    destruct (no_quote_ahead_head k Hk) as [->|(c & r & -> & Hc)]; [done|].
    cbn [literals]. by rewrite decide_False, decide_True, decide_False by done.
  - assert (Hv : ∀ x, push v x +:+ s = v +:+ String x s).
    { intros x. unfold push. by rewrite <- str_app_assoc. }
    rewrite quoted_body_cons, <- Hv, <- IH.
    destruct (decide (c = BSL)) as [->|Hb]; [done|].
    destruct (decide (c = QUO)) as [->|Hq]; [done|].
    rewrite str_app_cons. cbn [literals]. by rewrite !decide_False by done.
Qed.
Lemma literals_literal s k : no_quote_ahead k →
  literals None (mysql_str_literal s +:+ k) = close s (literals None k).
Proof.
  intros Hk. change (mysql_str_literal s) with ("'" +:+ (quoted_body s +:+ "'")).
  rewrite <- !str_app_assoc. exact (literals_quoted "" s k Hk).
Qed.

(** ** No catalog statement lets a name out of its literal *)

(** The literals of a statement around two conditions, in order. *)
Definition condition_mark (p : Profile) (column : string) : string :=
  match p.(catalog_mode) with
  | Prepare => if decide (column = "table_schema") then "table_schema = DATABASE()" else column +:+ " = ?"
  | RawSql => column +:+ " = '"
  end.
Definition raw_value (p : Profile) (v : string) : list string :=
  match p.(catalog_mode) with Prepare => [] | RawSql => [v] end.

Lemma where_both_reads p pre post db table tpre vpre tpost vpost :
  literals None pre = Some (tpre, vpre) → literals None post = Some (tpost, vpost) → no_quote_ahead post →
  literals None (where_both p pre post db table).1 =
    Some (tpre +:+ condition_mark p "table_schema" +:+ " AND " +:+ condition_mark p "table_name" +:+ tpost,
          vpre ++ raw_value p db ++ raw_value p table ++ vpost).
Proof.
  intros Hpre Hpost Hq. unfold where_both, schema_condition, table_condition, condition_mark, raw_value. cbn [fst].
  destruct (catalog_mode p).
  - rewrite (literals_app _ pre) with (t := tpre) (vs := vpre) by done.
    rewrite (literals_app _ "table_schema = DATABASE()") with (t := "table_schema = DATABASE()") (vs := []) by done.
    rewrite (literals_app _ " AND ") with (t := " AND ") (vs := []) by done.
    rewrite (literals_app post "table_name = ?") with (t := "table_name = ?") (vs := []) by done.
    by rewrite Hpost.
  - rewrite (literals_app _ pre) with (t := tpre) (vs := vpre) by done. rewrite <- !str_app_assoc.
    rewrite (literals_plain "table_schema = ") by done.
    rewrite literals_literal by done.
    rewrite (literals_app _ " AND ") with (t := " AND ") (vs := []) by done. rewrite <- ?str_app_assoc.
    rewrite (literals_plain "table_name = ") by done.
    rewrite literals_literal, Hpost by done. cbn. done.
Qed.

(** The statements sent for a connection of the family, and whether they ask
    about one table. *)
Definition catalog (p : Profile) : list (bool * (string → string → string * option string)) :=
  [(false, λ db _, tables_sql p db); (true, meta_sql p); (true, col_sql p); (true, idx_sql p); (true, fk_sql p);
   (true, list_columns_sql p); (true, list_indexes_sql p); (true, list_foreign_keys_sql p)].
Definition inlined (p : Profile) (about_table : bool) (db table : string) : list string :=
  match p.(catalog_mode) with Prepare => [] | RawSql => if about_table then [db; table] else [db] end.
Definition bound (p : Profile) (about_table : bool) (table : string) : option string :=
  match p.(catalog_mode) with Prepare => if about_table then Some table else None | RawSql => None end.

Lemma profile_estimate db_type : (mysql_profile_for db_type).(row_estimate_expr) = "table_rows".
Proof. unfold mysql_profile_for, mysql_family_for. cbv zeta. by repeat case_decide. Qed.

Lemma where_both_template p pre post t v t' v' :
  literals None pre = Some (t, v) → literals None post = Some (t', v') → no_quote_ahead post →
  ∃ template before after, ∀ db table,
    literals None (where_both p pre post db table).1 = Some (template, before ++ inlined p true db table ++ after) ∧
    (where_both p pre post db table).2 = bound p true table.
Proof.
  intros H1 H2 H3. eexists _, _, _. intros db table. split.
  - rewrite (where_both_reads p pre post db table _ _ _ _ H1 H2 H3). f_equal. f_equal.
    unfold inlined, raw_value. by destruct (catalog_mode p).
  - unfold where_both, bind_table, bound. by destruct (catalog_mode p).
Qed.

(** C30. Whatever the database and the table are called, a catalog statement of the
    MySQL family is one fixed text: read with the engine's own rules for string
    literals, it has the same words outside its literals for all names, the names
    are exactly the values of the literals that carry them, and where the engine
    prepares statements they are not in the text at all but bound. *)
Theorem catalog_names_stay_literals db_type about_table stmt :
  (about_table, stmt) ∈ catalog (mysql_profile_for db_type) →
  ∃ template before after, ∀ db table,
    literals None (stmt db table).1 =
      Some (template, before ++ inlined (mysql_profile_for db_type) about_table db table ++ after) ∧
    (stmt db table).2 = bound (mysql_profile_for db_type) about_table table.
Proof.
  unfold catalog. intros H. rewrite !elem_of_cons in H.
  destruct H as [[= -> ->]|H].
  - unfold tables_sql. rewrite profile_estimate. unfold schema_condition, inlined, bound. cbn [fst snd].
    destruct (catalog_mode _).
    + eexists _, [], []. intros db table. split; [by vm_compute|done].
    + eexists _, [], []. intros db table. split; [|done].
      rewrite <- !str_app_assoc. rewrite literals_plain by done. rewrite (literals_plain "table_rows") by done.
      rewrite literals_plain by done. rewrite (literals_plain "table_schema = ") by done.
      rewrite literals_literal by done. by vm_compute.
  - destruct H as [H|[H|[H|[H|[H|[H|[H|H]]]]]]]; [injection H as -> ->; (eapply where_both_template; [by vm_compute..|done])..|].
    by apply not_elem_of_nil in H.
Qed.

Lemma catalog_names_stay_literals_witness :
  ∃ template before after, ∀ db table,
    literals None (col_sql DorisProfile db table).1 = Some (template, before ++ [db; table] ++ after).
Proof.
  destruct (catalog_names_stay_literals "Doris" true (col_sql DorisProfile)) as (t & b & a & H).
  - vm_compute mysql_profile_for. do 2 right. left.
  - exists t, b, a. intros db table. apply (H db table).
Defined.

(** ClickHouse reads a backslash as an escape as well, but its literals only
    double the quote: a name ending the literal early changes the statement. *)
(** ClickHouse reads a backslash as an escape as well, but [ch_str_literal] only
    doubles the quote: a name with a backslash ends its literal early. *)
Example ch_literal_escapes : ∃ before after,
  ch_tables_sql "\' OR 1=1 -- " = before +:+ after ∧
  literals None before =
    Some ("SELECT name, engine, comment, total_rows FROM system.tables WHERE database = ' OR 1=1 -- ", ["'"]).
Proof.
  exists "SELECT name, engine, comment, total_rows FROM system.tables WHERE database = '\'' OR 1=1 -- ", "' ORDER BY name".
  by vm_compute.
Qed.

(** The session statements escape the quote but not the backslash before it. *)
Example session_literal_escapes : ∃ before after,
  session_statements MysqlProfile (Some "\'; SET GLOBAL x=1 -- ") None = [before +:+ after] ∧
  literals None before = Some ("SET NAMES '; SET GLOBAL x=1 -- ", ["\"]).
Proof. exists "SET NAMES '\\'; SET GLOBAL x=1 -- ", "'". by vm_compute. Qed.
