(* ===== verification/StreamRows.v ===== *)
(** * The streaming loop of the query gateway
    (crates/automation/src/stream_query.rs, stream_rows and guard_execute)

    One turn of the loop is one [select!]: the poll of the turn says which of
    its four branches are ready, and the first one in the source order that is
    enabled and ready runs.  What the engine still yields is part of the state;
    what the channel has taken is the list of events sent. *)

From S2P Require Import Prelude RustStr Json.
From stdpp Require Import list.

Definition BATCH_SIZE : nat := 500.

Record StreamQueryError := { e_code : string; e_message : string; e_engine : option string }.
Definition cancelled : StreamQueryError :=
  {| e_code := "CANCELLED"; e_message := "execution cancelled by client"; e_engine := None |}.
Definition timed_out (timeout_secs : Z) : StreamQueryError :=
  {| e_code := "TIMEOUT";
     e_message := "statement exceeded the " +:+ decimal (Z.to_N timeout_secs) +:+ "s server-side timeout and was cancelled";
     e_engine := None |}.
Definition connect_failed : StreamQueryError :=
  {| e_code := "CONNECTION_FAILED"; e_message := "database connection failed"; e_engine := None |}.

Record CompleteInfo := { row_count : nat; truncated : bool; affected_rows : option Z }.

Inductive StreamQueryEvent : Type :=
| Meta (columns : list string) (column_types : option (list string))
| Rows (rows : list (list json))
| Complete (info : CompleteInfo) (elapsed_ms : Z)
| ErrorEvent (e : StreamQueryError).

(** A row as the engines are mapped to: names, values, type names. *)
Definition MappedRow : Type := list string * list json * option (list string).
Definition columns_of (r : MappedRow) : list string * option (list string) := (r.1.1, r.2).
Definition values_of (r : MappedRow) : list json := r.1.2.

(** ** The loop *)

(** What a turn finds: the token, the deadline, the channel ([Some false] when the
    receiver is gone, none when it is full), and whether the engine answers. *)
Record Poll := { p_cancelled : bool; p_expired : bool; p_permit : option bool; p_ready : bool }.

Record Loop := {
  source : list (result StreamQueryError MappedRow);
  count : nat; cut : bool; batch : list (list json);
  meta_pending : option (list string * option (list string));
  stream_done : bool; sent : list StreamQueryEvent }.

Definition start (source : list (result StreamQueryError MappedRow)) : Loop :=
  {| source := source; count := 0; cut := false; batch := []; meta_pending := None;
     stream_done := false; sent := [] |}.

(** The branch of [tx.reserve()]. *)
Definition on_permit (granted : bool) (s : Loop) : Loop :=
  if granted then
    match s.(meta_pending) with
    | Some (columns, types) =>
        {| source := s.(source); count := s.(count); cut := s.(cut); batch := s.(batch);
           meta_pending := None; stream_done := s.(stream_done); sent := s.(sent) ++ [Meta columns types] |}
    | None =>
        {| source := s.(source); count := s.(count); cut := s.(cut); batch := [];
           meta_pending := None; stream_done := s.(stream_done); sent := s.(sent) ++ [Rows s.(batch)] |}
    end
  else s.

(** The branch of [stream.next()]. *)
Definition on_item (limit : nat) (s : Loop) : StreamQueryError + Loop :=
  match s.(source) with
  | Ok row :: rest =>
      let full := bool_decide (limit ≤ S s.(count)) in
      inr {| source := rest; count := S s.(count); cut := s.(cut) || full;
             batch := s.(batch) ++ [values_of row];
             meta_pending := if bool_decide (s.(count) = 0) then Some (columns_of row) else s.(meta_pending);
             stream_done := s.(stream_done) || full; sent := s.(sent) |}
  | Err e :: _ => inl e
  | [] =>
      inr {| source := []; count := s.(count); cut := s.(cut); batch := s.(batch);
             meta_pending := s.(meta_pending); stream_done := true; sent := s.(sent) |}
  end.

Definition wants_permit (s : Loop) : bool := bool_decide (is_Some s.(meta_pending)) || (BATCH_SIZE <=? length s.(batch)).

(** One turn; a turn in which no enabled branch is ready changes nothing. *)
Definition turn (limit : nat) (timeout_secs : Z) (p : Poll) (s : Loop) : StreamQueryError + Loop :=
  if p.(p_cancelled) then inl cancelled
  else if p.(p_expired) then inl (timed_out timeout_secs)
  else match (if wants_permit s then p.(p_permit) else None) with
       | Some granted => inr (on_permit granted s)
       | None =>
           if (length s.(batch) <? BATCH_SIZE) && p.(p_ready) then on_item limit s else inr s
       end.

(** [while !stream_done]. *)
Inductive Phase : Type :=
| Running (s : Loop)
| Broken (e : StreamQueryError) (s : Loop)
| Flushing (s : Loop).
Definition phase_of (s : Loop) : Phase := if s.(stream_done) then Flushing s else Running s.
Fixpoint run_loop (limit : nat) (timeout_secs : Z) (ps : list Poll) (s : Loop) : Phase :=
  if s.(stream_done) then Flushing s
  else match ps with
       | [] => Running s
       | p :: ps =>
           match turn limit timeout_secs p s with
           | inl e => Broken e s
           | inr s' => run_loop limit timeout_secs ps s'
           end
       end.

(** How many rows the stream has been asked for, one that did not come included: it is
    asked in a turn in which no branch before its own is taken. *)
Definition polled (p : Poll) (s : Loop) : bool :=
  negb p.(p_cancelled) && negb p.(p_expired) && bool_decide ((if wants_permit s then p.(p_permit) else None) = None)
  && (length s.(batch) <? BATCH_SIZE).
Fixpoint asked (limit : nat) (timeout_secs : Z) (ps : list Poll) (s : Loop) : nat :=
  if s.(stream_done) then 0
  else match ps with
       | [] => 0
       | p :: ps =>
           Nat.max (if polled p s then S s.(count) else 0)
             (match turn limit timeout_secs p s with inl _ => 0 | inr s' => asked limit timeout_secs ps s' end)
       end.

(** The tail after the loop; [delivered] of its sends complete before the token or
    the deadline cuts it off. *)
Definition flush (s : Loop) : list StreamQueryEvent :=
  match s.(meta_pending) with Some (columns, types) => [Meta columns types] | None => [] end ++
  (if bool_decide (s.(batch) = []) then
     if bool_decide (s.(count) = 0) then [Meta [] None] else []
   else [Rows s.(batch)]).
Definition finish (delivered : nat) (s : Loop) : CompleteInfo * list StreamQueryEvent :=
  ({| row_count := s.(count); truncated := s.(cut); affected_rows := None |},
   s.(sent) ++ take delivered (flush s)).

(** [stream_rows]: the outcome and the events in the channel; none while it runs. *)
Definition stream_rows (limit : nat) (timeout_secs : Z) (ps : list Poll) (delivered : nat)
    (source : list (result StreamQueryError MappedRow)) : option (result StreamQueryError CompleteInfo * list StreamQueryEvent) :=
  match run_loop limit timeout_secs ps (start source) with
  | Running _ => None
  | Broken e s => Some (Err e, s.(sent))
  | Flushing s => let '(info, evs) := finish delivered s in Some (Ok info, evs)
  end.

(** [guard_execute]. *)
Definition guard_execute {E} (cancel expired : bool) (timeout_secs : Z) (map_err : E → StreamQueryError)
    (r : result E Z) : result StreamQueryError CompleteInfo :=
  if cancel then Err cancelled
  else if expired then Err (timed_out timeout_secs)
  else match r with
       | Ok affected => Ok {| row_count := 0; truncated := false; affected_rows := Some affected |}
       | Err e => Err (map_err e)
       end.

(** The caller: the terminal event goes last, if the receiver still takes it. *)
Definition terminal (o : result StreamQueryError CompleteInfo) (elapsed_ms : Z) : StreamQueryEvent :=
  match o with Ok info => Complete info elapsed_ms | Err e => ErrorEvent e end.
Definition with_terminal (o : result StreamQueryError CompleteInfo) (evs : list StreamQueryEvent) (elapsed_ms : Z)
    (receiver : bool) : list StreamQueryEvent :=
  evs ++ (if receiver then [terminal o elapsed_ms] else []).

(** ** The invariant *)

Definition rows_of (ev : StreamQueryEvent) : list (list json) := match ev with Rows r => r | _ => [] end.
Definition data (evs : list StreamQueryEvent) : list (list json) := evs ≫= rows_of.

(** A channel holds nothing, or one header and then batches: full ones, and last one that
    may be shorter, but not empty. *)
Definition full_batch (ev : StreamQueryEvent) : Prop := ∃ rows, ev = Rows rows ∧ length rows = BATCH_SIZE.
Definition batched (evs : list StreamQueryEvent) : Prop :=
  ∃ fulls last, evs = fulls ++ last ∧ Forall full_batch fulls ∧
    (last = [] ∨ ∃ rows, last = [Rows rows] ∧ rows ≠ [] ∧ length rows ≤ BATCH_SIZE).
Definition well_formed (seen : list MappedRow) (evs : list StreamQueryEvent) : Prop :=
  match evs with
  | [] => True
  | Meta columns types :: batches =>
      match seen with [] => columns = [] ∧ types = None | r :: _ => (columns, types) = columns_of r end ∧ batched batches
  | _ => False
  end.
Definition filled (evs : list StreamQueryEvent) : Prop := Forall full_batch (tail evs).

Record loop_inv (limit : nat) (all : list (result StreamQueryError MappedRow)) (seen : list MappedRow) (s : Loop) : Prop := {
  li_source : all = (Ok <$> seen) ++ s.(source);
  li_count : s.(count) = length seen;
  li_limit : length seen ≤ limit;
  li_cut : s.(cut) = bool_decide (limit ≤ length seen);
  li_done : s.(stream_done) = true → s.(cut) = true ∨ s.(source) = [];
  li_full : s.(cut) = true → s.(stream_done) = true;
  li_batch : length s.(batch) ≤ BATCH_SIZE;
  li_data : data s.(sent) ++ s.(batch) = values_of <$> seen;
  li_sent : match s.(meta_pending) with
            | Some m => s.(sent) = [] ∧ ∃ r rs, seen = r :: rs ∧ m = columns_of r
            | None => (s.(sent) = [] ↔ seen = []) ∧ well_formed seen s.(sent) ∧ filled s.(sent)
            end }.

Lemma data_app evs evs' : data (evs ++ evs') = data evs ++ data evs'.
Proof. unfold data. by rewrite bind_app. Qed.

Lemma batched_full evs : Forall full_batch evs → batched evs.
Proof. intros H. exists evs, []. rewrite app_nil_r. split; [done|]. split; [done|by left]. Qed.
Lemma well_formed_grow seen rows evs : evs ≠ [] → well_formed seen evs → filled evs → rows ≠ [] → length rows ≤ BATCH_SIZE →
  well_formed seen (evs ++ [Rows rows]).
Proof.
  intros Hne. destruct evs as [|[c t| | |] b]; try done. cbn. intros [Hc _] Hf Hr Hl. split; [done|].
  exists b, [Rows rows]. split; [done|]. split; [exact Hf|]. right. by exists rows.
Qed.
Lemma filled_grow rows evs : evs ≠ [] → filled evs → length rows = BATCH_SIZE → filled (evs ++ [Rows rows]).
Proof.
  destruct evs as [|e evs]; [done|]. intros _ Hf Hl. unfold filled in *. cbn [tail app] in *. apply Forall_app. split; [done|].
  apply Forall_singleton. by exists rows.
Qed.
Lemma batched_take evs n : batched evs → batched (take n evs).
Proof.
  intros (fulls & last & -> & Hf & Hl). destruct (decide (n ≤ length fulls)) as [Hn|Hn].
  - rewrite take_app_le by done. by apply batched_full, Forall_take.
  - rewrite take_app_ge by lia. exists fulls, (take (n - length fulls) last). split; [done|]. split; [done|].
    destruct Hl as [->|(rows & -> & H)]; [left; by rewrite take_nil|]. right. exists rows. split; [|done]. by rewrite take_ge by (cbn; lia).
Qed.
Lemma well_formed_seen seen r evs : seen ≠ [] → well_formed seen evs → well_formed (seen ++ [r]) evs.
Proof. intros Hs. by destruct evs as [|[] ?], seen. Qed.

Lemma start_inv limit all : 1 ≤ limit → loop_inv limit all [] (start all).
Proof.
  intros Hl. unfold start. constructor; cbn; try done; try lia.
  - symmetry. apply bool_decide_eq_false. lia.
  - split; [done|]. split; [done|constructor].
Qed.

Lemma permit_inv limit all seen s : wants_permit s = true → loop_inv limit all seen s →
  loop_inv limit all seen (on_permit true s).
Proof.
  unfold wants_permit. intros Hw I. destruct I. unfold on_permit. destruct (meta_pending s) as [[c t]|] eqn:Em.
  - destruct li_sent0 as (Hs & r & rs & -> & Hm). constructor; cbn; try done.
    + rewrite Hs in *. by rewrite data_app.
    + rewrite Hs. cbn. split; [done|]. split; [|constructor]. rewrite Hm. split; [done|]. by apply batched_full.
  - destruct li_sent0 as (Hs & Hw' & Hf). rewrite bool_decide_false in Hw by by intros [??].
    apply Nat.leb_le in Hw. unfold BATCH_SIZE in Hw.
    assert (Hb : batch s ≠ []) by (intros E; rewrite E in Hw; cbn in Hw; lia).
    assert (Hne : seen ≠ []).
    { intros ->. cbn in li_data0. by apply app_eq_nil in li_data0 as [_ ?]. }
    constructor; cbn; try done; try (unfold BATCH_SIZE; lia).
    + rewrite app_nil_r, data_app. change (data [Rows (batch s)]) with (batch s ++ []). by rewrite app_nil_r.
    + assert (Hsent : s.(sent) ≠ []) by (by intros ?%Hs).
      split; [split; [by intros [_ ?]%app_eq_nil|done]|]. split; [by apply well_formed_grow|].
      apply filled_grow; [done..|]. unfold BATCH_SIZE in *. lia.
Qed.

Lemma item_inv limit all seen s s' : stream_done s = false → length (batch s) < BATCH_SIZE →
  loop_inv limit all seen s → on_item limit s = inr s' → ∃ seen', loop_inv limit all seen' s'.
Proof.
  intros Hd Hb I. unfold on_item. destruct I. destruct (source s) as [|[r|e] rest] eqn:E; [| |done].
  - intros [= <-]. exists seen. constructor; cbn; try done; try lia; by right.
  - intros [= <-]. exists (seen ++ [r]).
    assert (Hcut : cut s = false) by (destruct (cut s) eqn:Ec; [by rewrite li_full0 in Hd|done]).
    assert (Hlt : ¬ limit ≤ length seen) by (rewrite li_cut0 in Hcut; by apply bool_decide_eq_false in Hcut).
    constructor; cbn -[data].
    + rewrite fmap_app, <- app_assoc. done.
    + rewrite length_app. cbn. lia.
    + rewrite length_app. cbn. lia.
    + rewrite Hcut, length_app, li_count0. cbn. by rewrite Nat.add_1_r.
    + rewrite Hd, Hcut. cbn. intros ->. by left.
    + rewrite Hd, Hcut. cbn. done.
    + rewrite length_app. cbn. lia.
    + by rewrite app_assoc, li_data0, fmap_app.
    + rewrite li_count0. destruct seen as [|r0 rs].
      * rewrite bool_decide_true by done. split; [|by eexists _, _].
        destruct (meta_pending s); [by destruct li_sent0 as (_ & ? & ? & ? & _)|by apply li_sent0].
      * rewrite bool_decide_false by done. destruct (meta_pending s) as [m|].
        { destruct li_sent0 as (Hs & r' & rs' & [= <- <-] & Hm). split; [done|]. by eexists _, _. }
        destruct li_sent0 as (Hs & Hw & Hf). split; [|split; [by apply well_formed_seen|done]].
        split; [by intros ?%Hs|by intros [? _]%app_eq_nil].
Qed.

Lemma turn_inv limit secs p all seen s s' : stream_done s = false → loop_inv limit all seen s →
  turn limit secs p s = inr s' → ∃ seen', loop_inv limit all seen' s'.
Proof.
  intros Hd I. unfold turn. destruct (p_cancelled p); [done|]. destruct (p_expired p); [done|].
  destruct (wants_permit s) eqn:Hw.
  - destruct (p_permit p) as [[]|].
    + intros [= <-]. exists seen. by apply permit_inv.
    + intros [= <-]. by exists seen.
    + destruct (_ <? _) eqn:Hb; cbn [andb]; [|intros [= <-]; by exists seen].
      destruct (p_ready p); [|intros [= <-]; by exists seen].
      apply Nat.ltb_lt in Hb. by eapply item_inv.
  - destruct (_ <? _) eqn:Hb; cbn [andb]; [|intros [= <-]; by exists seen].
    destruct (p_ready p); [|intros [= <-]; by exists seen].
    apply Nat.ltb_lt in Hb. by eapply item_inv.
Qed.

(** What a turn ends the loop with. *)
Definition ends_with (secs : Z) (s : Loop) (e : StreamQueryError) : Prop :=
  e = cancelled ∨ e = timed_out secs ∨ head s.(source) = Some (Err e).
Lemma turn_ends limit secs p s e : turn limit secs p s = inl e → ends_with secs s e.
Proof.
  unfold turn, ends_with. destruct (p_cancelled p); [intros [= <-]; by left|].
  destruct (p_expired p); [intros [= <-]; right; by left|].
  assert (Hi : on_item limit s = inl e → head s.(source) = Some (Err e)).
  { unfold on_item. destruct (source s) as [|[]]; [done|done|]. by intros [= <-]. }
  destruct (if wants_permit s then p_permit p else None); [done|].
  destruct (_ && _); [|done]. intros H%Hi. by do 2 right.
Qed.

Lemma run_loop_inv limit secs ps all : ∀ seen s, loop_inv limit all seen s →
  match run_loop limit secs ps s with
  | Running _ => True
  | Broken e s' => stream_done s' = false ∧ ends_with secs s' e ∧ ∃ seen', loop_inv limit all seen' s'
  | Flushing s' => stream_done s' = true ∧ ∃ seen', loop_inv limit all seen' s'
  end.
Proof.
  induction ps as [|p ps IH]; intros seen s I; cbn; destruct (stream_done s) eqn:Hd; [by eauto|done|by eauto|].
  destruct (turn limit secs p s) as [e|s'] eqn:Ht.
  - split; [done|]. split; [by eapply turn_ends|by eauto].
  - destruct (turn_inv limit secs p all seen s s' Hd I Ht) as [seen' I']. by eapply IH.
Qed.

(** ** Theorems *)

Lemma flush_data limit all seen s : loop_inv limit all seen s →
  data (s.(sent) ++ flush s) = values_of <$> seen ∧ well_formed seen (s.(sent) ++ flush s) ∧ s.(sent) ++ flush s ≠ [].
Proof.
  intros []. rewrite data_app. unfold flush.
  destruct (meta_pending s) as [[c t]|].
  - destruct li_sent0 as (Hs & r & rs & -> & Hm). rewrite Hs in *. cbn in li_data0.
    rewrite bool_decide_false by (intros E; by rewrite E in li_data0).
    cbn. rewrite app_nil_r. split; [done|]. split; [|done]. split; [done|].
    exists [], [Rows (batch s)]. split; [done|]. split; [constructor|]. right. eexists. split; [done|]. split; [by intros E; rewrite E in li_data0|done].
  - destruct li_sent0 as (Hs & Hw & Hf). cbn [app]. destruct (bool_decide (batch s = [])) eqn:Eb.
    + apply bool_decide_eq_true in Eb. rewrite Eb, app_nil_r in li_data0. rewrite li_count0.
      destruct seen as [|r rs].
      * rewrite bool_decide_true, (proj2 Hs eq_refl) by done. cbn. split; [done|]. split; [|done]. split; [done|]. by apply batched_full.
      * rewrite bool_decide_false by done. rewrite !app_nil_r. split; [done|]. split; [done|].
        by intros ?%Hs.
    + apply bool_decide_eq_false in Eb. cbn. rewrite app_nil_r. split; [done|].
      assert (Hne : seen ≠ []).
      { intros ->. cbn in li_data0. by apply app_eq_nil in li_data0 as [_ ?]. }
      split; [|by intros [_ ?]%app_eq_nil]. apply well_formed_grow; try done. by intros ?%Hs.
Qed.

Lemma well_formed_take seen evs n : well_formed seen evs → well_formed seen (take n evs).
Proof.
  destruct evs as [|[] b], n; try done. cbn. intros [? Hb]. split; [done|]. by apply batched_take.
Qed.
Lemma data_take evs n : data (take n evs) `prefix_of` data evs.
Proof.
  exists (data (drop n evs)). by rewrite <- data_app, take_drop.
Qed.
Lemma flush_short s : length (flush s) ≤ 2.
Proof.
  unfold flush. rewrite length_app. destruct (meta_pending s) as [[]|];
    repeat case_bool_decide; cbn; lia.
Qed.

(** What is in the channel: the beginning of what the loop had sent and its tail. *)
Lemma stream_rows_channel limit secs ps delivered source o evs :
  1 ≤ limit → stream_rows limit secs ps delivered source = Some (o, evs) →
  ∃ seen, length seen ≤ limit ∧ well_formed seen evs ∧ data evs `prefix_of` (values_of <$> seen).
Proof.
  intros Hl. unfold stream_rows.
  pose proof (run_loop_inv limit secs ps source [] (start source) (start_inv limit source Hl)) as H.
  assert (Hk : ∀ s seen k, loop_inv limit source seen s →
    length seen ≤ limit ∧ well_formed seen (take k (s.(sent) ++ flush s)) ∧
    data (take k (s.(sent) ++ flush s)) `prefix_of` (values_of <$> seen)).
  { intros s seen k I. pose proof (flush_data _ _ _ _ I) as (Hd & Hw & _). split; [by destruct I|].
    split; [by apply well_formed_take|]. rewrite <- Hd. apply data_take. }
  destruct (run_loop _ _ _ _) as [s|e s|s]; [done| |].
  - intros [= <- <-]. destruct H as (_ & _ & seen & I). exists seen.
    rewrite <- (take_app_length s.(sent) (flush s)). by apply Hk.
  - unfold finish. intros [= <- <-]. destruct H as (_ & seen & I). exists seen.
    rewrite <- take_app_add. by apply Hk.
Qed.

(** C16. What a streamed query delivers.  For every schedule of the four branches:
    the channel holds nothing, or one header, taken from the first row (empty when there
    is none), and then batches of 500 rows, of which only the last may be shorter, and
    none is empty; its rows are a prefix, in order, of what the engine yielded, never
    more than the limit.  If the query completes, the count is the number of rows read,
    it is marked truncated exactly when it reached the limit, a query not marked
    truncated was read to its end, and when the tail is delivered (two events at most)
    the client has its header and every row counted; if it fails, it is with the
    cancellation, the timeout, or the engine's own error. *)
Theorem stream_delivers_prefix limit secs ps delivered source o evs :
  1 ≤ limit → stream_rows limit secs ps delivered source = Some (o, evs) →
  ∃ seen rest, source = (Ok <$> seen) ++ rest ∧ length seen ≤ limit ∧
    well_formed seen evs ∧ data evs `prefix_of` (values_of <$> seen) ∧
    match o with
    | Ok info =>
        info.(row_count) = length seen ∧ info.(truncated) = bool_decide (limit ≤ length seen) ∧
        (info.(truncated) = false → rest = []) ∧
        (2 ≤ delivered → data evs = values_of <$> seen ∧ evs ≠ [])
    | Err e => e = cancelled ∨ e = timed_out secs ∨ head rest = Some (Err e)
    end.
Proof.
  intros Hl. unfold stream_rows.
  pose proof (run_loop_inv limit secs ps source [] (start source) (start_inv limit source Hl)) as H.
  destruct (run_loop _ _ _ _) as [s|e s|s]; [done| |].
  - intros [= <- <-]. destruct H as (_ & He & seen & I). exists seen, s.(StreamRows.source).
    pose proof (flush_data _ _ _ _ I) as (Hd & Hw & _). destruct I.
    split; [done|]. split; [done|]. split; [|split; [|by destruct He as [->|[->|?]]; eauto]].
    + rewrite <- (take_app_length s.(sent) (flush s)). by apply well_formed_take.
    + rewrite <- li_data0. by apply prefix_app_r.
  - destruct (finish delivered s) as [info evs'] eqn:Ef. intros [= <- <-]. destruct H as (Hs & seen & I).
    exists seen, s.(StreamRows.source). pose proof (flush_data _ _ _ _ I) as (Hd & Hw & Hne). destruct I.
    unfold finish in Ef. injection Ef as <- <-. cbn.
    assert (E : s.(sent) ++ take delivered (flush s) = take (length s.(sent) + delivered) (s.(sent) ++ flush s)).
    { by rewrite take_app_add. }
    split; [done|]. split; [done|]. split; [rewrite E; by apply well_formed_take|].
    split; [rewrite E, <- Hd; apply data_take|]. split; [done|]. split; [done|]. split.
    + intros Hc. destruct (li_done0 Hs); [congruence|done].
    + intros H2. rewrite take_ge by (pose proof (flush_short s); lia). done.
Qed.

(** A client that keeps reading and an engine that keeps answering. *)
Definition attentive (p : Poll) : Prop :=
  p.(p_cancelled) = false ∧ p.(p_expired) = false ∧ p.(p_permit) = Some true ∧ p.(p_ready) = true.
Definition measure (s : Loop) : nat :=
  if s.(stream_done) then 0
  else S (3 * length s.(source) + (if s.(meta_pending) then 1 else 0)
          + (if BATCH_SIZE <=? length s.(batch) then 1 else 0)).

Lemma turn_progress limit secs p s s' : stream_done s = false → attentive p →
  turn limit secs p s = inr s' → measure s' < measure s.
Proof.
  intros Hd (Hc & He & Hp & Hr). unfold turn. rewrite Hc, He, Hp, Hr.
  unfold measure at 2. rewrite Hd. unfold wants_permit. destruct (meta_pending s) as [[c t]|] eqn:Em.
  - rewrite bool_decide_true by by eexists. cbn [orb]. intros [= <-]. unfold on_permit, measure. rewrite Em. cbn -[Nat.mul BATCH_SIZE].
    rewrite Hd. lia.
  - rewrite bool_decide_false by by intros [??]. cbn [orb].
    destruct (BATCH_SIZE <=? length (batch s)) eqn:Eb.
    + intros [= <-]. unfold on_permit, measure. rewrite Em. cbn -[Nat.mul]. rewrite Hd. lia.
    + apply Nat.leb_gt in Eb. rewrite (proj2 (Nat.ltb_lt _ _) Eb). cbn [andb].
      unfold on_item, measure. destruct (source s) as [|[r|e] rest] eqn:Es; [| |done].
      * intros [= <-]. cbn. lia.
      * intros [= <-]. cbn -[Nat.mul BATCH_SIZE]. destruct (stream_done s || _); [lia|].
        destruct (if bool_decide (count s = 0) then _ else _), (BATCH_SIZE <=? length (batch s ++ _)); lia.
Qed.

Lemma run_loop_ends limit secs ps : ∀ s, Forall attentive ps → measure s ≤ length ps →
  ∀ s', run_loop limit secs ps s ≠ Running s'.
Proof.
  induction ps as [|p ps IH]; intros s Hps Hm s'; cbn; destruct (stream_done s) eqn:Hd; try done.
  - unfold measure in Hm. rewrite Hd in Hm. cbn in Hm. lia.
  - apply Forall_cons in Hps as [Hp Hps]. destruct (turn _ _ _ _) as [e|s1] eqn:Ht; [done|].
    apply IH; [done|]. pose proof (turn_progress _ _ _ _ _ Hd Hp Ht). cbn in Hm. lia.
Qed.

(** C36. A query whose client keeps reading ends: three turns per row and one more
    are enough, whatever the rows, the limit and the batches. *)
Theorem attended_query_ends limit secs ps delivered source :
  Forall attentive ps → 3 * length source + 1 ≤ length ps →
  is_Some (stream_rows limit secs ps delivered source).
Proof.
  intros Hps Hl. unfold stream_rows.
  pose proof (run_loop_ends limit secs ps (start source) Hps) as H.
  destruct (run_loop _ _ _ _) as [s|e s|s]; [|by eexists|by destruct (finish _ _); eexists].
  exfalso. apply (H ltac:(unfold measure, start; cbn -[Nat.mul]; lia) s). done.
Qed.

(** The client has gone: no permit is ever granted again. *)
Definition deserted (p : Poll) : Prop :=
  p.(p_cancelled) = false ∧ p.(p_expired) = false ∧ p.(p_permit) = Some false.

(** The loop does not end when its client goes away: with a header or a full
    batch waiting, the branch that would send it is ready at every turn, comes
    before the engine's, and changes nothing; only a cancellation or the
    deadline ends it. *)
Theorem deserted_stream_spins limit secs ps s :
  s.(stream_done) = false → wants_permit s = true → Forall deserted ps →
  run_loop limit secs ps s = Running s ∧
  ∀ p, p.(p_cancelled) = false → p.(p_expired) = true →
    run_loop limit secs (ps ++ [p]) s = Broken (timed_out secs) s.
Proof.
  intros Hd Hw. induction ps as [|p ps IH]; intros Hps; cbn; rewrite Hd.
  - split; [done|]. intros p Hc He. cbn. unfold turn. by rewrite Hc, He.
  - apply Forall_cons in Hps as [(Hc & He & Hp) Hps].
    assert (Ht : turn limit secs p s = inr s) by (unfold turn; by rewrite Hc, He, Hw, Hp).
    rewrite Ht. by apply IH.
Qed.

(** ** Examples *)

Definition ex_row (n : Z) : result StreamQueryError MappedRow := Ok (["id"], [JInt n], Some ["INT"]).
Definition ready : Poll := {| p_cancelled := false; p_expired := false; p_permit := Some true; p_ready := true |}.
Definition gone : Poll := {| p_cancelled := false; p_expired := false; p_permit := Some false; p_ready := true |}.

Lemma stream_delivers_prefix_witness :
  stream_rows 2 30 (replicate 20 ready) 2 (ex_row <$> [1; 2; 3]%Z) =
    Some (Ok {| row_count := 2; truncated := true; affected_rows := None |},
          [Meta ["id"] (Some ["INT"]); Rows [[JInt 1]; [JInt 2]]]) ∧
  ∃ seen rest, ex_row <$> [1; 2; 3]%Z = (Ok <$> seen) ++ rest ∧ length seen ≤ 2.
Proof.
  assert (E : stream_rows 2 30 (replicate 20 ready) 2 (ex_row <$> [1; 2; 3]%Z) =
    Some (Ok {| row_count := 2; truncated := true; affected_rows := None |},
          [Meta ["id"] (Some ["INT"]); Rows [[JInt 1]; [JInt 2]]])) by (by vm_compute).
  split; [done|]. destruct (stream_delivers_prefix 2 30 _ _ _ _ _ ltac:(lia) E) as (seen & rest & H1 & H2 & _).
  by exists seen, rest.
Defined.

Lemma attended_query_ends_witness : is_Some (stream_rows 10000 30 (replicate 10 ready) 0 (ex_row <$> [1; 2; 3]%Z)).
Proof. apply attended_query_ends; [by repeat constructor|cbn; lia]. Defined.

Lemma deserted_stream_spins_witness : ∃ s,
  run_loop 10 30 [ready] (start (ex_row <$> [1; 2]%Z)) = Running s ∧
  run_loop 10 30 (replicate 100 gone) s = Running s.
Proof.
  eexists. split; [vm_compute; reflexivity|].
  apply deserted_stream_spins; [done|by vm_compute|by repeat constructor].
Defined.
