(* ===== verification/TdengineLeg.v ===== *)
(** * The TDengine leg (crates/automation/src/tdengine_leg.rs)

    The classification that keeps writes off read-only connections, the URL, and
    the reading of a taosAdapter reply. *)

From S2P Require Import Prelude RustStr Json.
From stdpp Require Import strings list.

Inductive TdError : Type :=
| Transport | Auth | Http (status : Z) (body : string) | Engine (code : Z) (desc : string).

Record TdQueryOutcome := { columns : list (string * string); rows : list (list json) }.

Definition as_u64 (j : json) : option Z :=
  match j with JInt z => if decide (0 ≤ z ≤ u64_max)%Z then Some z else None | _ => None end.
Definition affected_rows (o : TdQueryOutcome) : option Z :=
  match o.(columns), o.(rows) with
  | [(name, _)], row :: _ =>
      if decide (name = "affected_rows") then Some (default 0%Z (head row ≫= as_u64)) else None
  | _, _ => None
  end.

(** ** Is it a write? *)

Fixpoint skip (n : nat) (s : string) : string :=
  match n, s with S n, String _ r => skip n r | _, _ => s end.
Definition after_line (r : string) : string := match split_once LF r with Some (_, r) => r | None => "" end.
Definition after_block (r : string) : string := match RustStr.find "*/" r with Some e => trim_start (skip (e + 2) r) | None => "" end.

(** One round of the loop: none when no comment is left. *)
Definition strip_comment (rest : string) : option string :=
  match str_strip_prefix "--" rest with
  | Some r => Some (trim_start (after_line r))
  | None =>
      match str_strip_prefix "//" rest with
      | Some r => Some (trim_start (after_line r))
      | None => match str_strip_prefix "/*" rest with Some r => Some (after_block r) | None => None end
      end
  end.
Fixpoint strip_comments (fuel : nat) (rest : string) : string :=
  match strip_comment rest, fuel with
  | Some rest', S fuel => strip_comments fuel rest'
  | _, _ => rest
  end.

(** The first nonempty piece between white space and, for [paren], parentheses. *)
Definition OPEN : ascii := "("%char.
Fixpoint skip_separators (fuel : nat) (s : string) : string :=
  match fuel with
  | O => s
  | S fuel =>
      match trim_start s with
      | String c r => if decide (c = OPEN) then skip_separators fuel r else String c r
      | EmptyString => ""
      end
  end.
Fixpoint take_word (paren : bool) (s : string) : string :=
  match s with
  | EmptyString => ""
  | String a r =>
      if ws1 a || (paren && bool_decide (a = OPEN)) then ""
      else match r with
           | EmptyString => String a ""
           | String b r' =>
               if ws2 a b then ""
               else match r' with
                    | EmptyString => String a (take_word paren r)
                    | String c _ => if ws3 a b c then "" else String a (take_word paren r)
                    end
           end
  end.
Definition first_word (s : string) : string := take_word true (skip_separators (S (String.length s)) s).

Definition to_ascii_upper (c : ascii) : ascii :=
  if is_ascii_lowercase c then ascii_of_N (code c - 32) else c.
Definition to_ascii_uppercase (s : string) : string := map_string to_ascii_upper s.

Definition WRITE_WORDS : list string :=
  ["INSERT"; "DELETE"; "UPDATE"; "CREATE"; "DROP"; "ALTER"; "TRUNCATE"; "GRANT"; "REVOKE"; "USE"; "MERGE";
   "COMPACT"; "KILL"].
Definition is_write_statement (sql : string) : bool :=
  let s := trim_start sql in
  bool_decide (to_ascii_uppercase (first_word (strip_comments (String.length s) s)) ∈ WRITE_WORDS).

(** ** The channel *)

(** [i64]'s display. *)
Definition z_string (z : Z) : string := if (z <? 0)%Z then "-" +:+ decimal (Z.to_N (- z)) else decimal (Z.to_N z).
Lemma decimal_inj n n' : decimal n = decimal n' → n = n'.
Proof. intros E. apply (f_equal parse_digits) in E. rewrite !parse_decimal in E. by injection E. Qed.
Lemma decimal_no_char c n : is_ascii_digit c = false → no_char c (decimal n) = true.
Proof.
  intros Hc. eapply all_chars_impl; [|apply decimal_digits]. intros x Hx. apply negb_true_iff, bool_decide_eq_false. intros ->.
  by rewrite Hc in Hx.
Qed.
Lemma z_string_no_char c z : is_ascii_digit c = false → c ≠ "-"%char → no_char c (z_string z) = true.
Proof.
  intros Hc Hm. unfold z_string. case_match; [|by apply decimal_no_char]. unfold no_char. rewrite all_chars_app.
  apply andb_true_intro. split; [|by apply decimal_no_char]. cbn. rewrite bool_decide_eq_false_2 by done. done.
Qed.
Lemma z_string_inj z z' : z_string z = z_string z' → z = z'.
Proof.
  intros E. pose proof (λ n, decimal_no_char "-" n eq_refl) as Hd. unfold z_string in E.
  destruct (Z.ltb_spec z 0), (Z.ltb_spec z' 0).
  - apply str_app_inv_head, decimal_inj in E. lia.
  - specialize (Hd (Z.to_N z')). by rewrite <- E in Hd.
  - specialize (Hd (Z.to_N z)). by rewrite E in Hd.
  - apply decimal_inj in E. lia.
Qed.
Definition rest_url (host : string) (port : Z) (db : option string) (use_tls : bool) : string :=
  (if use_tls then "https" else "http") +:+ "://" +:+ host +:+ ":" +:+ z_string port +:+ "/rest/sql" +:+
  match db with Some d => if is_empty d then "" else "/" +:+ d | None => "" end.

(** The reply of [exec_sql]: none when the transport fails, else the status, the
    body and what the body parses to. *)
Definition as_i64_value (j : json) : option Z :=
  match j with JInt z => if decide (- 2 ^ 63 ≤ z ≤ i64_max)%Z then Some z else None | _ => None end.
Definition column (c : json) : option (string * string) :=
  arr ← Json.as_array c; first ← head arr; name ← Json.as_str first;
  Some (name, default "" (arr !! 1 ≫= Json.as_str)).
Definition read_reply (reply : option (Z * string * option json)) : result TdError TdQueryOutcome :=
  match reply with
  | None => Err Transport
  | Some (status, body, parsed) =>
      if decide (status = 401 ∨ status = 403)%Z then Err Auth
      else if negb (status =? 200)%Z then Err (Http status (take_chars 200 body))
      else match parsed with
           | None => Err (Http status "malformed JSON response")
           | Some v =>
               let code := default (-1)%Z (jget "code" v ≫= as_i64_value) in
               if negb (code =? 0)%Z then
                 if (code =? 855)%Z then Err Auth
                 else Err (Engine code (take_chars 200 (default "unknown engine error" (jget "desc" v ≫= Json.as_str))))
               else Ok {| columns := omap column (default [] (jget "column_meta" v ≫= Json.as_array));
                          rows := (λ r, default [] (Json.as_array r)) <$> default [] (jget "data" v ≫= Json.as_array) |}
           end
  end.

(** ** Comments do not hide a statement *)

Lemma skip_app a r : skip (String.length a) (a +:+ r) = r.
Proof. by induction a. Qed.

Lemma split_once_length sep s a b : split_once sep s = Some (a, b) → String.length b < String.length s.
Proof. intros [-> _]%split_once_spec. rewrite str_length_app. cbn. lia. Qed.

Lemma skip_length n s : String.length (skip n s) ≤ String.length s.
Proof. revert s. induction n as [|n IH]; intros [|c s]; cbn; [done..|]. specialize (IH s). lia. Qed.

Lemma strip_comment_shorter s r : strip_comment s = Some r → String.length r < String.length s.
Proof.
  assert (Hline : ∀ q, String.length (trim_start (after_line q)) ≤ String.length q).
  { intros q. etrans; [apply trim_start_length|]. unfold after_line.
    destruct (split_once LF q) as [[a b]|] eqn:E; [apply split_once_length in E; lia|cbn; lia]. }
  unfold strip_comment.
  destruct (str_strip_prefix "--" s) as [q|] eqn:E1.
  { apply strip_prefix_Some in E1 as ->. intros [= <-]. rewrite str_length_app. specialize (Hline q). cbn in *. lia. }
  destruct (str_strip_prefix "//" s) as [q|] eqn:E2.
  { apply strip_prefix_Some in E2 as ->. intros [= <-]. rewrite str_length_app. specialize (Hline q). cbn in *. lia. }
  destruct (str_strip_prefix "/*" s) as [q|] eqn:E3; [|done].
  apply strip_prefix_Some in E3 as ->. intros [= <-]. rewrite str_length_app. unfold after_block.
  destruct (RustStr.find "*/" q); cbn; [|lia].
  pose proof (trim_start_length (skip (n + 2) q)). pose proof (skip_length (n + 2) q). lia.
Qed.

Lemma strip_comments_fuel n : ∀ m s, String.length s ≤ n → n ≤ m → strip_comments m s = strip_comments n s.
Proof.
  induction n as [|n IH]; intros m s Hs Hm.
  - destruct s; [|cbn in Hs; lia]. by destruct m.
  - destruct m as [|m]; [lia|]. cbn [strip_comments]. destruct (strip_comment s) as [r|] eqn:E; [|done].
    apply strip_comment_shorter in E. apply IH; lia.
Qed.

Lemma strip_once s r : trim_start s = s → strip_comment s = Some (trim_start r) →
  is_write_statement s = is_write_statement r.
Proof.
  intros Hs Hc. unfold is_write_statement. rewrite Hs.
  destruct (String.length s) as [|n] eqn:E; [by destruct s|]. cbn [strip_comments]. rewrite Hc.
  rewrite (strip_comments_fuel (String.length (trim_start r)) n); [done..|].
  apply strip_comment_shorter in Hc. lia.
Qed.

(** A leading comment of any of the three kinds does not change whether a
    statement counts as a write, so a write on a read-only connection is not
    let through by commenting it. *)
Theorem comment_does_not_hide_write sql :
  (∀ line, no_char LF line = true →
     is_write_statement ("--" +:+ (line +:+ String LF sql)) = is_write_statement sql ∧
     is_write_statement ("//" +:+ (line +:+ String LF sql)) = is_write_statement sql) ∧
  (∀ body, RustStr.find "*/" (body +:+ ("*/" +:+ sql)) = Some (String.length body) →
     is_write_statement ("/*" +:+ (body +:+ ("*/" +:+ sql))) = is_write_statement sql).
Proof.
  split.
  - intros line Hl. assert (Ha : after_line (line +:+ String LF sql) = sql).
    { unfold after_line. by rewrite (proj2 (split_once_spec LF _ line sql) (conj eq_refl Hl)). }
    split; (apply strip_once; [by destruct (line +:+ String LF sql)|]).
    + exact (f_equal (λ x, Some (trim_start x)) Ha).
    + exact (f_equal (λ x, Some (trim_start x)) Ha).
  - intros body Hb. apply strip_once; [by destruct (body +:+ _)|]. transitivity (Some (after_block (body +:+ ("*/" +:+ sql)))); [done|].
    unfold after_block. rewrite Hb. do 2 f_equal.
    assert (E : ∀ a b, skip (String.length a + 2) (a +:+ ("*/" +:+ b)) = b).
    { induction a as [|c a IH]; intros b; [done|]. rewrite str_app_cons. apply IH. }
    by rewrite E.
Qed.

(** Only leading comments are read as comments. *)
Example inner_comment_hides_write :
  is_write_statement "INSERT INTO t VALUES (1)" = true ∧ is_write_statement "INSERT/**/INTO t VALUES (1)" = false.
Proof. by vm_compute. Qed.
