(* ===== verification/RedisLeg.v ===== *)
(** * The Redis leg (crates/automation/src/redis_leg.rs)

    Which commands count as writes, the cache of the server's own command
    classes, and the shaping of replies into rows. *)

From S2P Require Import Prelude RustStr Json TdengineLeg.
From stdpp Require Import strings list gmap.

(** [db_index]: "3" or "db3", anything else is database 0. *)
Definition db_index (default_database db : option string) : Z :=
  let raw := default "0" (match db ≫= (λ d, if is_empty d then None else Some d) with
                          | Some d => Some d | None => default_database end) in
  default 0%Z (parse_i64 (default raw (str_strip_prefix "db" raw))).

(** ** Read or write *)

Definition WRITE_COMMANDS : list string :=
  ["SET"; "SETNX"; "SETEX"; "PSETEX"; "MSET"; "MSETNX"; "GETSET"; "GETDEL"; "SETRANGE"; "SETBIT"; "APPEND";
   "DEL"; "UNLINK"; "RENAME"; "RENAMENX"; "EXPIRE"; "PEXPIRE"; "EXPIREAT"; "PEXPIREAT"; "PERSIST"; "COPY";
   "MOVE"; "RESTORE"; "MIGRATE"; "INCR"; "INCRBY"; "INCRBYFLOAT"; "DECR"; "DECRBY"; "LPUSH"; "LPUSHX";
   "RPUSH"; "RPUSHX"; "LPOP"; "RPOP"; "LINSERT"; "LSET"; "LTRIM"; "RPOPLPUSH"; "LMOVE"; "LMPOP"; "BLPOP";
   "BRPOP"; "BLMOVE"; "BRPOPLPUSH"; "SADD"; "SPOP"; "SREM"; "SMOVE"; "SINTERSTORE"; "SUNIONSTORE";
   "SDIFFSTORE"; "ZADD"; "ZINCRBY"; "ZPOPMIN"; "ZPOPMAX"; "ZPOPCOUNT"; "ZREM"; "ZREMRANGEBYRANK";
   "ZREMRANGEBYSCORE"; "ZREMRANGEBYLEX"; "ZMPOP"; "BZPOPMIN"; "BZPOPMAX"; "HSET"; "HSETNX"; "HMSET"; "HDEL";
   "HINCRBY"; "HINCRBYFLOAT"; "BITOP"; "PFADD"; "PFMERGE"; "GEOADD"; "XADD"; "XDEL"; "XTRIM"; "XGROUP";
   "XSETID"; "XACK"; "EVAL"; "EVALSHA"; "FUNCTION"; "SCRIPT"; "CONFIG"; "ACL"; "FLUSHALL"; "FLUSHDB";
   "SWAPDB"; "SORT"].
Definition DANGEROUS_COMMANDS : list string :=
  ["KEYS"; "FLUSHALL"; "FLUSHDB"; "SHUTDOWN"; "DEBUG"; "MONITOR"; "SLAVEOF"; "REPLICAOF"; "FAILOVER"; "CLIENT";
   "CLUSTER"; "SYNC"; "PSYNC"; "RESET"; "LOLWUT"].

Inductive RedisCommandClass : Type := Write | Read.
#[global] Instance class_dec : EqDecision RedisCommandClass.
Proof. solve_decision. Defined.

Definition classify_static (name : string) : RedisCommandClass :=
  let upper := to_ascii_uppercase name in
  if decide (upper ∈ WRITE_COMMANDS ∨ upper ∈ DANGEROUS_COMMANDS) then Write else Read.

Record AclClasses := { write : list string; dangerous : list string }.
(** [fetch_acl_classes]: both lists or nothing. *)
Definition fetch_acl_classes (cat_write cat_dangerous : option (list string)) : option AclClasses :=
  w ← cat_write; d ← cat_dangerous;
  Some {| write := to_ascii_uppercase <$> w; dangerous := to_ascii_uppercase <$> d |}.
Definition by_acl (classes : option AclClasses) (upper : string) : RedisCommandClass :=
  match classes with
  | Some c => if decide (upper ∈ c.(write) ∨ upper ∈ c.(dangerous)) then Write else Read
  | None => Read
  end.

(** [ACL_CACHE]; [classify] fetches once per connection and keeps what it got. *)
Notation Cache := (gmap string (option AclClasses)).
Definition classify (conn_id : string) (fetched : option AclClasses) (name : string) (cache : Cache)
    : RedisCommandClass * Cache :=
  match classify_static name with
  | Write => (Write, cache)
  | Read =>
      let upper := to_ascii_uppercase name in
      match cache !! conn_id with
      | Some cached => (by_acl cached upper, cache)
      | None => (by_acl fetched upper, <[conn_id := fetched]> cache)
      end
  end.

(** The categories it asks the server for with ACL CAT; the second only when the first is
    answered. *)
Definition classify_sends (conn_id : string) (cat_write : option (list string)) (name : string) (cache : Cache) : list string :=
  match classify_static name, cache !! conn_id with
  | Read, None => "write" :: match cat_write with Some _ => ["dangerous"] | None => [] end
  | _, _ => []
  end.

(** [redis_guard_read_only] on the names in order, and the guard of one command. *)
Fixpoint guard_read_only (conn_id : string) (fetched : option AclClasses) (names : list string) (cache : Cache)
    : bool * Cache :=
  match names with
  | [] => (true, cache)
  | name :: names =>
      let '(class, cache) := classify conn_id fetched name cache in
      if decide (class = Read) then guard_read_only conn_id fetched names cache else (false, cache)
  end.

Fixpoint guard_sends (conn_id : string) (cats : option (list string) * option (list string)) (names : list string) (cache : Cache)
    : list string :=
  match names with
  | [] => []
  | name :: names =>
      classify_sends conn_id cats.1 name cache ++
      let '(class, cache) := classify conn_id (fetch_acl_classes cats.1 cats.2) name cache in
      if decide (class = Read) then guard_sends conn_id cats names cache else []
  end.

Lemma guard_sends_cats conn cats names : ∀ cache, Forall (λ c, c ∈ ["write"; "dangerous"]) (guard_sends conn cats names cache).
Proof.
  induction names as [|n names IH]; intros cache; [constructor|]. cbn [guard_sends]. apply Forall_app. split.
  - unfold classify_sends. destruct (classify_static n); [constructor|]. destruct (cache !! conn); [constructor|].
    constructor; [by left|]. destruct cats.1; [|constructor]. constructor; [by right; left|constructor].
  - destruct (classify _ _ _ _) as [[] c]; [rewrite decide_False by done; constructor|]. rewrite decide_True by done. apply IH.
Qed.

(** What a cached connection lets through. *)
Definition harmless (known : option AclClasses) (name : string) : Prop :=
  let upper := to_ascii_uppercase name in
  upper ∉ WRITE_COMMANDS ∧ upper ∉ DANGEROUS_COMMANDS ∧
  match known with Some c => upper ∉ c.(write) ∧ upper ∉ c.(dangerous) | None => True end.

Lemma by_acl_read known upper : by_acl known upper = Read ↔
  match known with Some c => upper ∉ c.(write) ∧ upper ∉ c.(dangerous) | None => True end.
Proof. destruct known as [c|]; cbn; [|done]. case_decide; naive_solver. Qed.

Lemma classify_read conn fetched name cache cache' : classify conn fetched name cache = (Read, cache') ↔
  (match cache !! conn with
   | Some known => harmless known name ∧ cache' = cache
   | None => harmless fetched name ∧ cache' = <[conn := fetched]> cache
   end).
Proof.
  unfold classify, classify_static, harmless. cbv zeta.
  destruct (decide (to_ascii_uppercase name ∈ WRITE_COMMANDS ∨ _)) as [Hw|Hw].
  - split; [done|]. destruct (cache !! conn); naive_solver.
  - assert (Hn : to_ascii_uppercase name ∉ WRITE_COMMANDS ∧ to_ascii_uppercase name ∉ DANGEROUS_COMMANDS) by tauto.
    destruct (cache !! conn) as [known|]; rewrite <- by_acl_read;
      (split; [intros [= -> <-]; tauto|intros [(_ & _ & ->) ->]; done]).
Qed.

Lemma read_only_guard_iff conn fetched names cache cache' :
  names ≠ [] → guard_read_only conn fetched names cache = (true, cache') ↔
  (match cache !! conn with
   | Some known => Forall (harmless known) names ∧ cache' = cache
   | None => Forall (harmless fetched) names ∧ cache' = <[conn := fetched]> cache
   end).
Proof.
  assert (Hc : ∀ ns c known, c !! conn = Some known →
    guard_read_only conn fetched ns c = (true, cache') ↔ Forall (harmless known) ns ∧ cache' = c).
  { induction ns as [|n ns IH]; intros c known Hk; cbn.
    - split; [by intros [= <-]|by intros [_ ->]].
    - destruct (classify conn fetched n c) as [[] c'] eqn:E.
      + rewrite decide_False by done. split; [done|]. intros [[Hn _]%Forall_cons _].
        assert (E' : classify conn fetched n c = (Read, c)) by (apply classify_read; by rewrite Hk).
        congruence.
      + rewrite decide_True by done. apply classify_read in E. rewrite Hk in E. destruct E as [Hn ->].
        rewrite (IH c known Hk), Forall_cons. tauto. }
  intros Hne. destruct (cache !! conn) as [known|] eqn:Hk; [by apply Hc|].
  destruct names as [|n names]; [done|]. cbn.
  destruct (classify conn fetched n cache) as [[] c'] eqn:E.
  - rewrite decide_False by done. split; [done|]. intros [[Hn _]%Forall_cons _].
    assert (E' : classify conn fetched n cache = (Read, <[conn := fetched]> cache)) by (apply classify_read; by rewrite Hk).
    congruence.
  - rewrite decide_True by done. apply classify_read in E. rewrite Hk in E. destruct E as [Hn ->].
    rewrite (Hc names _ fetched) by apply lookup_insert_eq. rewrite Forall_cons. tauto.
Qed.

Lemma read_only_guard_inv conn fetched names cache cache' :
  guard_read_only conn fetched names cache = (true, cache') → names ≠ [] →
  (match cache !! conn with
   | Some known => Forall (harmless known) names ∧ cache' = cache
   | None => Forall (harmless fetched) names ∧ cache' = <[conn := fetched]> cache
   end).
Proof. intros Hg Hn. by apply read_only_guard_iff. Qed.

(** A pipeline passes the guard of a read-only connection exactly when every
    command in it is harmless to the classes known for that connection: the two
    static lists and, if the server gave its own, those as well.  The guard is
    decided with one set of classes, the cached one or else the one fetched. *)
Theorem read_only_guard_spec conn fetched names cache cache' :
  names ≠ [] → guard_read_only conn fetched names cache = (true, cache') ↔
  (match cache !! conn with
   | Some known => Forall (harmless known) names ∧ cache' = cache
   | None => Forall (harmless fetched) names ∧ cache' = <[conn := fetched]> cache
   end).
Proof. apply read_only_guard_iff. Qed.

Lemma read_only_guard_spec_witness :
  (guard_read_only "c" (Some {| write := ["XCLAIM"]; dangerous := [] |}) ["get"; "xclaim"] ∅).1 = false ∧
  guard_read_only "c" (Some {| write := ["XCLAIM"]; dangerous := [] |}) ["get"; "hgetall"] ∅
    = (true, {["c" := Some {| write := ["XCLAIM"]; dangerous := [] |}]}).
Proof.
  split; [by vm_compute|]. apply read_only_guard_spec; [done|].
  change ((∅ : Cache) !! "c") with (@None (option AclClasses)). cbv iota.
  split; [|done]. repeat constructor; unfold harmless; apply (bool_decide_unpack _); by vm_compute.
Defined.

(** Without the server's classes a command outside the two lists passes, writes
    included; and one failed fetch decides for the connection from then on. *)
Example unknown_command_passes : (guard_read_only "c" None ["XCLAIM"; "ZRANGESTORE"; "GEOSEARCHSTORE"] ∅).1 = true.
Proof. by vm_compute. Qed.
Example failed_fetch_is_kept :
  let known := Some {| write := ["XCLAIM"]; dangerous := [] |} in
  let '(_, cache) := guard_read_only "c" None ["GET"] ∅ in
  (guard_read_only "c" known ["XCLAIM"] cache).1 = true ∧ (guard_read_only "c" known ["XCLAIM"] ∅).1 = false.
Proof. by vm_compute. Qed.

(** ** Replies as rows *)

(** [redis::Value], the forms named in the code; any other prints as [dbg]. *)
Inductive Resp : Type :=
| RNil | RInt (i : Z) | RBulk (bytes : string) | RSimple (s : string) | ROkay
| RArray (items : list Resp) | RSet (items : list Resp) | RMap (pairs : list (Resp * Resp))
| RAttribute (inner : Resp) | RPush (items : list Resp) | RDouble (bits : Z) | RBool (b : bool)
| RVerbatim (text : string) | ROther (dbg : string).

Section Rows.
(** [String::from_utf8_lossy], [str::parse::<f64>], [Number::from_f64] and
    [f64]'s display, which are the standard library's and serde_json's. *)
Context (lossy : string → string) (parse_f64 : string → option Z) (finite : Z → bool) (f64_string : Z → string).

Definition number (bits : Z) : json := if finite bits then JFloat bits else JNull.
Definition obj_key (j : json) : string := default "" (Json.as_str j).

Fixpoint resp_to_json (v : Resp) : json :=
  match v with
  | RNil => JNull
  | RInt i => JInt i
  | RBulk b => JStr (lossy b)
  | RSimple s => JStr s
  | ROkay => JStr "OK"
  | RArray items | RSet items | RPush items => JArr (map resp_to_json items)
  | RMap pairs =>
      JObj (foldl (λ o kv, assoc_insert kv.1 kv.2 o) []
              (map (λ kv : Resp * Resp, (obj_key (resp_to_json kv.1), resp_to_json kv.2)) pairs))
  | RAttribute inner => resp_to_json inner
  | RDouble f => number f
  | RBool b => JBool b
  | RVerbatim t => JStr t
  | ROther d => JStr d
  end.

Definition resp_string (v : Resp) : option string :=
  match v with
  | RBulk b => Some (lossy b) | RSimple s => Some s | ROkay => Some "OK"
  | RInt i => Some (z_string i) | RDouble f => Some (f64_string f) | _ => None
  end.
Definition cell (v : Resp) : json :=
  match v with
  | RInt i => JInt i
  | RBulk b =>
      let s := lossy b in
      match parse_i64 s with
      | Some n => JInt n
      | None => match (parse_f64 s ≫= λ f, if finite f then Some f else None) with
                | Some f => JFloat f | None => JStr s end
      end
  | other => resp_to_json other
  end.

Notation table := (list string * list (list json))%type.

(** The reply of the scanning commands: a cursor and a nonempty batch. *)
Definition scan_batch (result : Resp) : option (string * list Resp) :=
  match result with
  | RArray [c; RArray items] =>
      match resp_string c with
      | Some cursor => match items with [] => None | _ => Some (cursor, items) end
      | None => None
      end
  | _ => None
  end.
Definition one_each (cols : list string) (b : string * list Resp) : table :=
  (cols, (λ item, [JStr b.1; cell item]) <$> b.2).
(** [chunks(2)] with a missing second half read as nil. *)
Fixpoint chunks2 (l : list Resp) : list (Resp * option Resp) :=
  match l with
  | [] => []
  | [a] => [(a, None)]
  | a :: b :: r => (a, Some b) :: chunks2 r
  end.
Definition two_each (cols : list string) (b : string * list Resp) : table :=
  (cols, (λ p : Resp * option Resp, [JStr b.1; cell p.1; cell (default RNil p.2)]) <$> chunks2 b.2).
Definition whole_pairs (l : list Resp) : list (Resp * Resp) :=
  omap (λ p : Resp * option Resp, (λ v, (p.1, v)) <$> p.2) (chunks2 l).
Definition pair_rows (ps : list (Resp * Resp)) : list (list json) :=
  (λ p : Resp * Resp, [cell p.1; cell p.2]) <$> ps.
Definition items_of (result : Resp) : option (list Resp) := match result with RArray items => Some items | _ => None end.
Definition single (col : string) (result : Resp) : option table :=
  option_map (λ items, ([col], (λ i, [cell i]) <$> items)) (items_of result).
Definition keyed (cols : list string) (result : Resp) : option table :=
  match result with
  | RArray items => Some (cols, pair_rows (whole_pairs items))
  | RMap pairs => Some (cols, pair_rows pairs)
  | _ => None
  end.

Definition semantic_rows (name : string) (args : list string) (result : Resp) : option table :=
  let upper := to_ascii_uppercase name in
  if decide (upper = "SCAN") then option_map (one_each ["cursor"; "key"]) (scan_batch result)
  else if decide (upper = "HSCAN") then option_map (two_each ["cursor"; "field"; "value"]) (scan_batch result)
  else if decide (upper = "SSCAN") then option_map (one_each ["cursor"; "member"]) (scan_batch result)
  else if decide (upper = "ZSCAN") then option_map (two_each ["cursor"; "member"; "score"]) (scan_batch result)
  else if decide (upper = "KEYS") then single "key" result
  else if decide (upper ∈ ["SMEMBERS"; "SINTER"; "SUNION"; "SDIFF"]) then single "member" result
  else if decide (upper = "LRANGE") then single "element" result
  else if decide (upper = "HGETALL") then keyed ["field"; "value"] result
  else if decide (upper = "CONFIG") then keyed ["parameter"; "value"] result
  else if decide (upper ∈ ["ZRANGE"; "ZRANGESTORE"]) then
    if decide ("WITHSCORES" ∈ (to_ascii_uppercase <$> args))
    then option_map (λ items, (["member"; "score"], pair_rows (whole_pairs items))) (items_of result)
    else None
  else if decide (upper = "MGET") then single "value" result
  else None.
Definition fallback_row (result : Resp) : list json := [resp_to_json result].
(** What [run_redis_inner] sends of one command's reply. *)
Definition reply_table (name : string) (args : list string) (result : Resp) : table :=
  match semantic_rows name args result with Some t => t | None => (["result"], [fallback_row result]) end.

(** A reply is always a table: every row has exactly one cell per column,
    whichever command was sent and whatever shape the reply has. *)
Theorem reply_table_rectangular name args result cols rows :
  reply_table name args result = (cols, rows) → Forall (λ row, length row = length cols) rows.
Proof.
  assert (Hf : ∀ {A} (f : A → list json) n (l : list A), (∀ a, length (f a) = n) → Forall (λ row, length row = n) (f <$> l)).
  { intros A f n l Hn. apply Forall_fmap, Forall_forall. intros a _. apply Hn. }
  unfold reply_table. destruct (semantic_rows name args result) as [t|] eqn:E.
  - intros ->. revert E. unfold semantic_rows, one_each, two_each, single, keyed, pair_rows. cbv zeta.
    repeat match goal with
    | |- context [option_map _ (scan_batch result)] => destruct (scan_batch result)
    | |- context [option_map _ (items_of result)] => destruct (items_of result)
    | |- context [decide _] => case_decide
    end; cbn; try done; try (destruct result; try done); intros [= <- <-]; by apply Hf.
  - intros [= <- <-]. by repeat constructor.
Qed.
End Rows.

Lemma reply_table_rectangular_witness :
  let lossy := λ s : string, s in
  reply_table lossy (λ _, None) (λ _, true) (λ _, "") "hgetall" ["h"] (RArray [RBulk "a"; RBulk "1"; RBulk "b"; RBulk "x"; RBulk "odd"])
    = (["field"; "value"], [[JStr "a"; JInt 1]; [JStr "b"; JStr "x"]]) ∧
  Forall (λ row, length row = 2) [[JStr "a"; JInt 1]; [JStr "b"; JStr "x"]].
Proof.
  cbv zeta. split; [by vm_compute|].
  apply (reply_table_rectangular (λ s, s) (λ _, None) (λ _, true) (λ _, "") "hgetall" ["h"]
    (RArray [RBulk "a"; RBulk "1"; RBulk "b"; RBulk "x"; RBulk "odd"]) ["field"; "value"]).
  by vm_compute.
Defined.
