(* ===== verification/MongoLeg.v ===== *)
(** * The MongoDB leg (crates/automation/src/mongo.rs)

    Command documents from JSON and replies to JSON, which commands write, the
    connection string, and the flattening of cursors. *)

From S2P Require Import Prelude RustStr Json TdengineLeg.
From stdpp Require Import strings list.

(** ** BSON *)

(** [bson::Bson]; a decimal is its text, other forms their display. *)
Inductive bson : Type :=
| BDouble (bits : Z) | BString (s : string) | BBool (b : bool) | BNull
| BInt32 (z : Z) | BInt64 (z : Z) | BObjectId (bytes : string) | BDateTime (millis : Z)
| BTimestamp (time increment : Z) | BDecimal (text : string) | BBinary (subtype : Z) (bytes : string)
| BRegex (pattern options : string) | BCode (code : string) | BSymbol (s : string)
| BArray (items : list bson) | BDoc (kvs : list (string * bson)) | BOther (display : string).
Notation Document := (list (string * bson)).

Fixpoint doc_get (k : string) (d : Document) : option bson :=
  match d with [] => None | (k', v) :: r => if decide (k = k') then Some v else doc_get k r end.
Definition get_i64 (d : Document) (k : string) : option Z := match doc_get k d with Some (BInt64 z) => Some z | _ => None end.
Definition get_i32 (d : Document) (k : string) : option Z := match doc_get k d with Some (BInt32 z) => Some z | _ => None end.
Definition get_array (d : Document) (k : string) : option (list bson) := match doc_get k d with Some (BArray l) => Some l | _ => None end.
Definition get_document (d : Document) (k : string) : option Document := match doc_get k d with Some (BDoc l) => Some l | _ => None end.
Definition get_str (d : Document) (k : string) : option string := match doc_get k d with Some (BString s) => Some s | _ => None end.

(** The crates the conversion leans on: hex, base64, bson's dates and decimals,
    serde_json's floats. *)
Class Codecs := {
  hex_encode : string → string; hex_decode : string → option string;
  base64_encode : string → string; base64_decode : string → option string;
  rfc3339 : Z → option string; parse_rfc3339 : string → option Z; date_string : Z → string;
  parse_decimal128 : string → option string;
  f64_of_Z : Z → Z; f64_to_i64 : Z → Z; finite : Z → bool }.
Class CodecLaws `{Codecs} : Prop := {
  hex_round_trip b : hex_decode (hex_encode b) = Some b;
  base64_round_trip b : base64_decode (base64_encode b) = Some b;
  rfc3339_round_trip ms s : rfc3339 ms = Some s → parse_rfc3339 s = Some ms }.

Section Mongo.
Context `{Codecs}.

Definition doc_count (d : Document) (k : string) : option Z :=
  match get_i64 d k with
  | Some n => Some n
  | None => match get_i32 d k with
            | Some n => Some n
            | None => match doc_get k d with Some (BDouble f) => Some (f64_to_i64 f) | _ => None end
            end
  end.

(** ** Command classes *)

Definition WRITE_COMMANDS : list string :=
  ["insert"; "update"; "delete"; "findandmodify"; "findAndModify"; "create"; "createindexes"; "createIndexes";
   "drop"; "dropdatabase"; "dropDatabase"; "dropindexes"; "dropIndexes"; "renamecollection"; "renameCollection";
   "collmod"; "collMod"].
Definition command_name_of (d : Document) : option string := fst <$> head d.
Definition writes_out (stage : bson) : bool :=
  match stage with BDoc d => bool_decide (is_Some (doc_get "$out" d)) || bool_decide (is_Some (doc_get "$merge" d)) | _ => false end.
Definition is_write_command (name : string) (d : Document) : bool :=
  if decide (name = "aggregate") then match get_array d "pipeline" with Some l => existsb writes_out l | None => false end
  else if decide (name ∈ ["mapreduce"; "mapReduce"; "eval"]) then true
  else bool_decide (name ∈ WRITE_COMMANDS).

(** ** JSON to BSON *)

(** [u8::from_str_radix(_, 16)] and [{:02x}]. *)
Definition hex_value (c : ascii) : option Z :=
  if is_ascii_digit c then Some (Z.of_N (code c) - 48)%Z
  else if in_range 97 102 (code c) then Some (Z.of_N (code c) - 87)%Z
  else if in_range 65 70 (code c) then Some (Z.of_N (code c) - 55)%Z else None.
Fixpoint hex_go (acc : Z) (s : string) : option Z :=
  match s with
  | EmptyString => Some acc
  | String c r => d ← hex_value c; if (255 <? acc * 16 + d)%Z then None else hex_go (acc * 16 + d) r
  end.
Definition parse_u8_hex (s : string) : option Z :=
  match s with
  | EmptyString => None
  | String "+" EmptyString => None
  | String "+" r => hex_go 0 r
  | _ => hex_go 0 s
  end.
Definition hex_digit (d : Z) : ascii := ascii_of_N (Z.to_N (if (d <? 10)%Z then 48 + d else 87 + d)).
Definition hex2 (b : Z) : string := String (hex_digit (b / 16)) (String (hex_digit (b `mod` 16)) "").

Definition extended_json_to_bson (m : list (string * json)) : option bson :=
  match m with
  | [(k, v)] =>
      if decide (k = "$oid") then
        oid ← Json.as_str v; bytes ← hex_decode oid;
        if decide (String.length bytes = 12) then Some (BObjectId bytes) else None
      else if decide (k = "$date") then
        match v with
        | JStr d => ms ← parse_rfc3339 d; Some (BDateTime ms)
        | JInt z => ms ← as_i64_value (JInt z); Some (BDateTime ms)
        | _ => None
        end
      else if decide (k = "$numberDecimal") then
        t ← Json.as_str v; d ← parse_decimal128 t; Some (BDecimal d)
      else if decide (k = "$binary") then
        match v with
        | JObj inner =>
            b64 ← assoc_get "base64" inner ≫= Json.as_str; bytes ← base64_decode b64;
            st ← assoc_get "subType" inner ≫= Json.as_str; sub ← parse_u8_hex st; Some (BBinary sub bytes)
        | _ => None
        end
      else None
  | _ => None
  end.

(** [json_value_to_bson] with [json_map_to_doc]: the entries of an object try the
    extended forms first, the items of an array do not. *)
Fixpoint json_value_to_bson (v : json) : result string bson :=
  match v with
  | JNull => Ok BNull
  | JBool b => Ok (BBool b)
  | JInt z => match as_i64_value (JInt z) with Some n => Ok (BInt64 n) | None => Ok (BDouble (f64_of_Z z)) end
  | JFloat f => Ok (BDouble f)
  | JStr s => Ok (BString s)
  | JArr items =>
      l ← (fix go (l : list json) : result string (list bson) :=
             match l with
             | [] => Ok []
             | x :: l => b ← json_value_to_bson x; bs ← go l; Ok (b :: bs)
             end) items;
      Ok (BArray l)
  | JObj kvs =>
      d ← (fix go (l : list (string * json)) : result string Document :=
             match l with
             | [] => Ok []
             | (k, x) :: l =>
                 b ← match x with
                     | JObj inner => match extended_json_to_bson inner with Some b => Ok b | None => json_value_to_bson x end
                     | _ => json_value_to_bson x
                     end;
                 bs ← go l; Ok ((k, b) :: bs)
             end) kvs;
      Ok (BDoc d)
  end.
Definition json_to_command_doc (v : json) : result string Document :=
  match v with
  | JObj _ => match json_value_to_bson v with Ok (BDoc d) => Ok d | Ok _ => Err "" | Err e => Err e end
  | _ => Err "command must be a JSON object"
  end.

(** ** BSON to JSON *)

Fixpoint bson_to_json (b : bson) : json :=
  match b with
  | BDouble f => if finite f then JFloat f else JNull
  | BString s => JStr s
  | BBool v => JBool v
  | BNull => JNull
  | BInt32 i | BInt64 i => JInt i
  | BObjectId oid => JObj [("$oid", JStr (hex_encode oid))]
  | BDateTime ms => JObj [("$date", JStr (default (date_string ms) (rfc3339 ms)))]
  | BTimestamp t i => JObj [("$timestamp", JObj [("t", JInt t); ("i", JInt i)])]
  | BDecimal d => JObj [("$numberDecimal", JStr d)]
  | BBinary st bytes => JObj [("$binary", JObj [("base64", JStr (base64_encode bytes)); ("subType", JStr (hex2 st))])]
  | BRegex p o => JObj [("$regex", JStr p); ("$options", JStr o)]
  | BCode c => JObj [("$code", JStr c)]
  | BSymbol s => JStr s
  | BArray items => JArr (map bson_to_json items)
  | BDoc d => JObj (map (λ kv : string * bson, (kv.1, bson_to_json kv.2)) d)
  | BOther d => JStr d
  end.
Definition document_to_json (d : Document) : json := bson_to_json (BDoc d).

Definition bson_type_name (b : bson) : string :=
  match b with
  | BDouble _ => "double" | BString _ => "string" | BArray _ => "array" | BDoc _ => "object" | BBool _ => "bool"
  | BNull => "null" | BInt32 _ => "int32" | BInt64 _ => "int64" | BObjectId _ => "objectId" | BDateTime _ => "date"
  | BTimestamp _ _ => "timestamp" | BDecimal _ => "decimal128" | BBinary _ _ => "binData" | BRegex _ _ => "regex"
  | _ => "other"
  end.

(** ** The round trip *)

Section BsonInd.
Context (P : bson → Prop).
Context (HDouble : ∀ f, P (BDouble f)) (HString : ∀ s, P (BString s)) (HBool : ∀ b, P (BBool b)) (HNull : P BNull)
  (HInt32 : ∀ z, P (BInt32 z)) (HInt64 : ∀ z, P (BInt64 z)) (HOid : ∀ b, P (BObjectId b)) (HDate : ∀ z, P (BDateTime z))
  (HTs : ∀ t i, P (BTimestamp t i)) (HDec : ∀ d, P (BDecimal d)) (HBin : ∀ t b, P (BBinary t b))
  (HRe : ∀ p o, P (BRegex p o)) (HCode : ∀ c, P (BCode c)) (HSym : ∀ s, P (BSymbol s)) (HOther : ∀ d, P (BOther d))
  (HArray : ∀ l, Forall P l → P (BArray l)) (HDoc : ∀ d, Forall (λ kv, P kv.2) d → P (BDoc d)).
Fixpoint bson_nested_ind (b : bson) : P b :=
  match b with
  | BDouble f => HDouble f | BString s => HString s | BBool b => HBool b | BNull => HNull
  | BInt32 z => HInt32 z | BInt64 z => HInt64 z | BObjectId b => HOid b | BDateTime z => HDate z
  | BTimestamp t i => HTs t i | BDecimal d => HDec d | BBinary t b => HBin t b
  | BRegex p o => HRe p o | BCode c => HCode c | BSymbol s => HSym s | BOther d => HOther d
  | BArray l => HArray l ((fix go (l : list bson) : Forall P l :=
      match l with [] => Forall_nil_2 P | x :: l => Forall_cons_2 P x l (bson_nested_ind x) (go l) end) l)
  | BDoc d => HDoc d ((fix go (l : Document) : Forall (λ kv, P kv.2) l :=
      match l with [] => Forall_nil_2 _ | x :: l => Forall_cons_2 _ x l (bson_nested_ind x.2) (go l) end) d)
  end.
End BsonInd.

(** What comes back: 32-bit integers as 64-bit ones, everything else unchanged. *)
Fixpoint widen (b : bson) : bson :=
  match b with
  | BInt32 z => BInt64 z
  | BArray l => BArray (map widen l)
  | BDoc d => BDoc (map (λ kv : string * bson, (kv.1, widen kv.2)) d)
  | _ => b
  end.

(** What the conversions carry: the extended types only as the value of a field
    ([field]), and no plain subdocument that reads as one of them. *)
Definition fields_json (d : Document) : list (string * json) := map (λ kv : string * bson, (kv.1, bson_to_json kv.2)) d.
Fixpoint transportable (field : bool) (b : bson) : Prop :=
  match b with
  | BDouble f => finite f = true
  | BString _ | BBool _ | BNull => True
  | BInt32 z | BInt64 z => (- 2 ^ 63 ≤ z ≤ i64_max)%Z
  | BObjectId o => field = true ∧ String.length o = 12
  | BDateTime ms => field = true ∧ is_Some (rfc3339 ms)
  | BDecimal d => field = true ∧ parse_decimal128 d = Some d
  | BBinary st _ => field = true ∧ (0 ≤ st < 256)%Z
  | BArray l => (fix go (l : list bson) : Prop := match l with [] => True | x :: l => transportable false x ∧ go l end) l
  | BDoc d => (field = true → extended_json_to_bson (fields_json d) = None) ∧
      (fix go (l : Document) : Prop := match l with [] => True | x :: l => transportable true x.2 ∧ go l end) d
  | _ => False
  end.

(** The conversion of a field. *)
Definition field_to_bson (x : json) : result string bson :=
  match x with
  | JObj inner => match extended_json_to_bson inner with Some b => Ok b | None => json_value_to_bson x end
  | _ => json_value_to_bson x
  end.

Lemma hex2_reads st : (0 ≤ st < 256)%Z → parse_u8_hex (hex2 st) = Some st.
Proof.
  intros Hs. assert (Hall : forallb (λ n, bool_decide (parse_u8_hex (hex2 (Z.of_nat n)) = Some (Z.of_nat n))) (seq 0 256) = true)
    by (by vm_compute).
  rewrite forallb_forall in Hall. specialize (Hall (Z.to_nat st)). rewrite Z2Nat.id in Hall by lia.
  apply (bool_decide_eq_true_1 _). apply Hall, in_seq. lia.
Qed.

Lemma as_i64_in z : (- 2 ^ 63 ≤ z ≤ i64_max)%Z → as_i64_value (JInt z) = Some z.
Proof. intros Hz. unfold as_i64_value. by rewrite decide_True. Qed.

Lemma oid_reads `{!CodecLaws} o : String.length o = 12 →
  extended_json_to_bson [("$oid", JStr (hex_encode o))] = Some (BObjectId o).
Proof.
  intros Ho. unfold extended_json_to_bson. rewrite decide_True by done. cbn [mbind option_bind Json.as_str].
  rewrite hex_round_trip. cbn [mbind option_bind]. by rewrite decide_True.
Qed.

Lemma binary_reads `{!CodecLaws} st b : (0 ≤ st < 256)%Z →
  extended_json_to_bson [("$binary", JObj [("base64", JStr (base64_encode b)); ("subType", JStr (hex2 st))])]
  = Some (BBinary st b).
Proof.
  intros Hs. unfold extended_json_to_bson. do 3 rewrite decide_False by done. rewrite decide_True by done.
  change (assoc_get "base64" _ ≫= _) with (Some (base64_encode b)). cbn [mbind option_bind].
  rewrite base64_round_trip. cbn [mbind option_bind].
  change (assoc_get "subType" _ ≫= _) with (Some (hex2 st)). cbn [mbind option_bind].
  rewrite hex2_reads by done. done.
Qed.

Lemma round_trip_both `{!CodecLaws} b :
  (transportable false b → json_value_to_bson (bson_to_json b) = Ok (widen b)) ∧
  (transportable true b → field_to_bson (bson_to_json b) = Ok (widen b)).
Proof.
  induction b as [| | | | | | | | | | | | | | |l IH|d IH] using bson_nested_ind; cbn [transportable]; try done.
  - split; intros Hf; cbn; by rewrite Hf.
  - split; intros Hz; cbn [bson_to_json json_value_to_bson field_to_bson]; by rewrite as_i64_in.
  - split; intros Hz; cbn [bson_to_json json_value_to_bson field_to_bson]; by rewrite as_i64_in.
  - split; intros [? Hl]; [done|]. cbn [bson_to_json field_to_bson]. by rewrite oid_reads.
  - split; intros [? [s Hs]]; [done|]. cbn. rewrite Hs. cbn. by rewrite (rfc3339_round_trip _ _ Hs).
  - split; intros [? Hd]; [done|]. cbn. by rewrite Hd.
  - split; intros [? Hs]; [done|]. cbn [bson_to_json field_to_bson]. by rewrite binary_reads.
  - assert (H1 : ∀ f, transportable f (BArray l) → json_value_to_bson (bson_to_json (BArray l)) = Ok (widen (BArray l))).
    { intros f Hl. cbn in Hl |- *. match goal with |- (_ ← ?go _; _) = _ => assert (E : go (map bson_to_json l) = Ok (map widen l)) end.
      { induction IH as [|x l [Hx _] _ IHl]; cbn; [done|]. destruct Hl as [Hx' Hl]. by rewrite Hx, IHl. }
      by rewrite E. }
    split; intros Hl; [by apply (H1 false)|by apply (H1 true)].
  - assert (H1 : ∀ f, transportable f (BDoc d) → json_value_to_bson (bson_to_json (BDoc d)) = Ok (widen (BDoc d))).
    { intros f [_ Hl]. cbn in Hl |- *.
      match goal with |- (_ ← ?go _; _) = _ => assert (E : go (fields_json d) = Ok (map (λ kv : string * bson, (kv.1, widen kv.2)) d)) end.
      { induction IH as [|[k x] d [_ Hx] _ IHl]; [done|]. destruct Hl as [Hx' Hl]. cbn.
        specialize (Hx Hx'). cbn in Hx. unfold field_to_bson in Hx. rewrite Hx.
        exact (f_equal (λ r, bs ← r; Ok ((k, widen x) :: bs)) (IHl Hl)). }
      exact (f_equal (λ r, d' ← r; Ok (BDoc d')) E). }
    split; intros Hd; [by apply (H1 false)|]. pose proof Hd as [He _]. specialize (He eq_refl).
    specialize (H1 true Hd). cbn [bson_to_json field_to_bson]. unfold fields_json in He. by rewrite He.
Qed.
End Mongo.

(** C32. A document read from MongoDB and sent back as a command is the document
    that was read, 32-bit integers widened: object ids, dates, decimals and
    binary data come back as themselves wherever they are the value of a field,
    at any depth of documents and arrays. *)
Theorem document_round_trip `{CodecLaws} (d : Document) :
  Forall (λ kv, transportable true kv.2) d →
  json_to_command_doc (document_to_json d) = Ok (map (λ kv : string * bson, (kv.1, widen kv.2)) d).
Proof.
  intros Hd. assert (Ht : transportable false (BDoc d)).
  { split; [done|]. induction Hd as [|x d Hx _ IH]; [done|]. by split. }
  unfold json_to_command_doc, document_to_json.
  rewrite (proj1 (round_trip_both (BDoc d)) Ht). done.
Qed.

(** ** Examples *)

#[local] Instance ex_codecs : Codecs := {|
  hex_encode b := b; hex_decode s := Some s; base64_encode b := b; base64_decode s := Some s;
  rfc3339 ms := Some (tlv_Z ms); parse_rfc3339 s := fst <$> untlv_Z s; date_string := z_string;
  parse_decimal128 s := Some s; f64_of_Z z := z; f64_to_i64 z := z; finite _ := true |}.
#[local] Instance ex_codec_laws : CodecLaws.
Proof.
  split; [done..|]. intros ms s [= <-]. cbn. rewrite <- (str_app_nil_r (tlv_Z ms)). by rewrite untlv_Z_tlv.
Qed.
Definition ex_oid : bson := BObjectId "0123456789ab".

Lemma document_round_trip_witness :
  json_to_command_doc (document_to_json [("_id", ex_oid); ("n", BInt32 5); ("at", BArray [BDoc [("d", BDateTime 7)]])])
  = Ok [("_id", ex_oid); ("n", BInt64 5); ("at", BArray [BDoc [("d", BDateTime 7)]])].
Proof.
  apply (document_round_trip [("_id", ex_oid); ("n", BInt32 5); ("at", BArray [BDoc [("d", BDateTime 7)]])]).
  repeat constructor; cbn; try done; try lia.
Defined.

(** As an item of an array an extended value stays a document: an [$in] over
    object ids matches none of them. *)
Example extended_in_array_stays_a_document :
  json_to_command_doc (document_to_json [("_id", BDoc [("$in", BArray [ex_oid])])])
  = Ok [("_id", BDoc [("$in", BArray [BDoc [("$oid", BString "0123456789ab")]])])].
Proof. by vm_compute. Qed.

(** User management and bulk writes are not in the set of write commands. *)
Example unlisted_writes :
  is_write_command "createUser" [("createUser", BString "u")] = false ∧
  is_write_command "bulkWrite" [("bulkWrite", BInt32 1)] = false ∧
  is_write_command "dropUser" [("dropUser", BString "u")] = false.
Proof. by vm_compute. Qed.

(** ** The connection string *)

Record MongoCluster := {
  mode : string; hosts : list string; replica_set : option string; connection_string : option string }.
(** [parse_extra], on what the extra column parses to. *)
Definition parse_extra (extra : option json) : MongoCluster :=
  match extra with
  | Some (JObj m) =>
      {| mode := default "" (assoc_get "mongoConnectionMode" m ≫= Json.as_str);
         hosts := List.filter (λ h, negb (is_empty h))
                    (omap Json.as_str (default [] (assoc_get "mongoHosts" m ≫= Json.as_array)));
         replica_set := assoc_get "mongoReplicaSet" m ≫= Json.as_str;
         connection_string := assoc_get "mongoConnectionString" m ≫= Json.as_str |}
  | _ => {| mode := ""; hosts := []; replica_set := None; connection_string := None |}
  end.

Definition AT : string := "@".
Definition plain_host (h : string) : bool := negb (contains AT h) && negb (contains "://" h) && negb (contains "/" h).
Definition with_port (h : string) : string := if contains ":" h then h else h +:+ ":27017".
Definition hosts_uri (host : string) (port : Z) (c : MongoCluster) : string :=
  let hs := List.filter plain_host c.(hosts) in
  let hs := if bool_decide (hs = []) then [host +:+ ":" +:+ z_string port] else hs in
  "mongodb://" +:+ RustStr.join "," (with_port <$> hs) +:+
  (if decide (c.(mode) = "direct" ∨ c.(mode) = "") then "?directConnection=true"
   else if decide (c.(mode) = "replicaSet") then
     match c.(replica_set) with Some rs => if is_empty rs then "" else "?replicaSet=" +:+ rs | None => "" end
   else "").
(** [open_mongo]'s choice, and [resolve_db]. *)
Definition base_uri (host : string) (port : Z) (c : MongoCluster) : string :=
  match c.(connection_string) with
  | Some uri => if is_empty uri then hosts_uri host port c else uri
  | None => hosts_uri host port c
  end.
Definition nonempty (o : option string) : option string := o ≫= λ d, if is_empty d then None else Some d.
Definition resolve_db (default_database db : option string) : string :=
  match nonempty db with Some d => d | None => default "admin" (nonempty default_database) end.

(** ** Cursors *)

Definition docs_of (l : list bson) : list Document := omap (λ b, match b with BDoc d => Some d | _ => None end) l.
Definition cursor_first_batch (resp : Document) : option (list Document * Z * string) :=
  cursor ← get_document resp "cursor"; batch ← get_array cursor "firstBatch";
  Some (docs_of batch, default 0%Z (get_i64 cursor "id"), default "" (get_str cursor "ns")).
Definition ns_to_coll (ns : string) : string := match split_once "."%char ns with Some (_, coll) => coll | None => "" end.

(** [cursor_stream]: [replies] are the server's answers to the successive getMore
    commands; the stream waits when they run out. *)
Definition next_batch (resp : Document) : list Document * Z :=
  let cursor := default [] (get_document resp "cursor") in
  (docs_of (default [] (get_array cursor "nextBatch")), default 0%Z (get_i64 cursor "id")).
Fixpoint cursor_stream {E} (coll : string) (replies : list (result E Document)) (id : Z) (buf : list Document)
    : list (result E Document) :=
  (Ok <$> buf) ++
  if (id =? 0)%Z || is_empty coll then []
  else match replies with
       | [] => []
       | Err e :: _ => [Err e]
       | Ok resp :: replies => let '(buf, id) := next_batch resp in cursor_stream coll replies id buf
       end.
(** The getMore commands it has sent once [asked] documents have been asked for, with
    [buffered] of the batch at hand left. *)
Definition get_more (id : Z) (coll : string) : Document := [("getMore", BInt64 id); ("collection", BString coll)].
Fixpoint get_mores {E} (coll : string) (replies : list (result E Document)) (id : Z) (buffered asked : nat) : list Document :=
  if asked <=? buffered then []
  else if (id =? 0)%Z || is_empty coll then []
  else get_more id coll ::
       match replies with
       | Ok resp :: replies => let '(buf, id) := next_batch resp in get_mores coll replies id (length buf) (asked - buffered)
       | _ => []
       end.
Lemma get_mores_shape {E} coll (replies : list (result E Document)) : ∀ id buffered asked,
  Forall (λ d, ∃ id, d = get_more id coll) (get_mores coll replies id buffered asked).
Proof.
  assert (Hc : ∀ id (l : list Document), Forall (λ d, ∃ id, d = get_more id coll) l → Forall (λ d, ∃ id, d = get_more id coll) (get_more id coll :: l)).
  { intros id l Hl. constructor; [by exists id|done]. }
  induction replies as [|[resp|e] replies IH]; intros id buffered asked; cbn [get_mores];
    (destruct (asked <=? buffered); [constructor|]); (destruct (_ || _); [constructor|]); apply Hc; [constructor| |constructor].
  destruct (next_batch resp) as [buf id']. apply IH.
Qed.

(** The reply to a getMore with a batch and the id that goes on. *)
Definition reply_of (b : list Document * Z) : Document :=
  [("cursor", BDoc [("nextBatch", BArray (BDoc <$> b.1)); ("id", BInt64 b.2)])].
Lemma docs_of_docs l : docs_of (BDoc <$> l) = l.
Proof. unfold docs_of. induction l as [|d l IH]; cbn; [done|]. by rewrite IH. Qed.
Lemma next_batch_reply b : next_batch (reply_of b) = b.
Proof.
  destruct b as [l id]. transitivity (docs_of (BDoc <$> l), id); [done|]. by rewrite docs_of_docs.
Qed.

(** A cursor is drained: the first batch and every further one, in order, up to
    the reply that closes it. *)
Lemma cursor_drained {E} coll bs last id first : is_empty coll = false → (id ≠ 0)%Z → Forall (λ b, b.2 ≠ 0%Z) bs →
  cursor_stream (E := E) coll (Ok <$> (reply_of <$> bs ++ [(last, 0%Z)])) id first
  = Ok <$> (first ++ concat (bs.*1) ++ last).
Proof.
  intros Hc Hid Hbs. revert id first Hid. induction Hbs as [|[b id'] bs Hb _ IH]; intros id first Hid.
  - cbn [fmap list_fmap app cursor_stream]. rewrite (proj2 (Z.eqb_neq _ _) Hid), Hc. cbn [orb].
    rewrite next_batch_reply. cbn. rewrite app_nil_r, fmap_app. done.
  - cbn [fmap list_fmap app cursor_stream]. rewrite (proj2 (Z.eqb_neq _ _) Hid), Hc. cbn [orb].
    rewrite next_batch_reply. rewrite IH by done. cbn. by rewrite !fmap_app, !app_assoc.
Qed.

(** A collection's own dots stay in its name. *)
Lemma ns_to_coll_dotted db coll : no_char "."%char db = true → ns_to_coll (db +:+ String "."%char coll) = coll.
Proof.
  intros Hd. unfold ns_to_coll. by rewrite (proj2 (split_once_spec "."%char _ db coll) (conj eq_refl Hd)).
Qed.
