(* ===== verification/StreamQuery.v ===== *)
(** * Running a gateway query (crates/automation/src/stream_query.rs)

    What each of the four channels checks before it reaches an engine, which
    database it opens, what it sends, and how its answer becomes events.  The
    loop itself is [StreamRows]; the engines' answers are parameters. *)

From S2P Require Import Prelude RustStr Json SqlSplit DdlExec DbFamily StreamRows TdengineLeg RedisLeg MongoLeg.
From stdpp Require Import strings list gmap.

(** The columns of the connection row read here, and what [load_connection] gives. *)
Record ConnRow := { r_db_type : string; r_default_database : option string; r_read_only : Z }.
Notation Loaded := (result MetadataError (ConnRow * Family)).

Definition normalize_meta_code (code : string) : string :=
  if decide (code = "CONNECT_FAILED") then "CONNECTION_FAILED"
  else if decide (code = "QUERY_FAILED") then "DB_ERROR" else code.
Definition from_meta (e : MetadataError) : StreamQueryError :=
  {| e_code := normalize_meta_code e.1; e_message := e.2; e_engine := None |}.
Definition db_error (message : string) : StreamQueryError :=
  {| e_code := "DB_ERROR"; e_message := message; e_engine := None |}.
Definition unsupported_kind (message : string) : StreamQueryError :=
  {| e_code := "UNSUPPORTED_KIND"; e_message := message; e_engine := None |}.
Definition read_only_error (what : string) : StreamQueryError :=
  {| e_code := "DB_ERROR"; e_message := "connection is read-only: write " +:+ what +:+ " rejected"; e_engine := Some "READONLY" |}.

(** ** Statement shapes *)

Section Statements.
Context (unicode_upper : char → list char).

Definition select_keywords : list string := ["SELECT"; "WITH"; "SHOW"; "DESCRIBE"; "EXPLAIN"; "PRAGMA"].
Definition is_select_statement (sql : string) : bool :=
  let upper := DdlExec.to_uppercase unicode_upper (DdlExec.trim_start (utf8_chars sql)) in
  existsb (λ kw, matches_str upper (chars_of kw)) select_keywords.
(** [trimmed[..4]] panics off a character boundary. *)
Definition boundary (n : nat) (s : string) : bool :=
  match String.get n s with Some c => negb (is_continuation c) | None => n =? String.length s end.
Definition is_show_statement (sql : string) : option bool :=
  let trimmed := RustStr.trim_start sql in
  if 4 <=? String.length trimmed then
    if boundary 4 trimmed
    then Some (bool_decide (TdengineLeg.to_ascii_uppercase (String.substring 0 4 trimmed) = "SHOW"))
    else None
  else Some false.

(** [sqlserver::is_dml_statement]: [split_whitespace().next()]. *)
Definition is_dml_statement (sql : string) : bool :=
  bool_decide (to_ascii_lowercase (take_word false (RustStr.trim_start sql)) ∈ ["insert"; "update"; "delete"; "merge"]).

(** ** Opening, with the stale default database *)

Definition stale_default_retry_eligible (db default_database : option string) : bool :=
  bool_decide (nonempty db = None) && bool_decide (is_Some default_database).
Definition or_else (db default_database : option string) : option string :=
  match db with Some d => Some d | None => default_database end.
(** The databases tried, in order, and the one in use; [retry] is what the family
    falls back to. *)
Definition open_resolving (opens : option string → bool) (retry : option string) (db default_database : option string)
    : list (option string) * result StreamQueryError (option string) :=
  let db_name := or_else db default_database in
  if opens db_name then ([db_name], Ok db_name)
  else if stale_default_retry_eligible db default_database then
    ([db_name; retry], if opens retry then Ok retry else Err connect_failed)
  else ([db_name], Err connect_failed).

(** A query that names its database runs there or nowhere: only that database
    is tried.  One that does not may fall back once, and only after the
    registered default failed to open. *)
Theorem explicit_database_not_rerouted opens retry db default_database :
  let '(tried, got) := open_resolving opens retry db default_database in
  head tried = Some (or_else db default_database) ∧ length tried ≤ 2 ∧
  (∀ d, nonempty db = Some d → tried = [Some d] ∧ ∀ g, got = Ok g → g = Some d) ∧
  (∀ g, got = Ok g → g ≠ or_else db default_database →
     nonempty db = None ∧ is_Some default_database ∧ opens (or_else db default_database) = false ∧ g = retry).
Proof.
  assert (Hn : ∀ d, nonempty db = Some d → db = Some d).
  { intros d. destruct db as [x|]; [|done]. cbn. by destruct (is_empty x). }
  unfold open_resolving, stale_default_retry_eligible. cbv zeta.
  destruct (opens (or_else db default_database)) eqn:E1.
  { split_and!; [done|cbn; lia| |by intros g [= <-]].
    intros d ->%Hn. split; [done|]. by intros g [= <-]. }
  destruct (bool_decide (nonempty db = None)) eqn:E2; cbn [andb].
  - apply bool_decide_eq_true in E2. destruct (bool_decide (is_Some default_database)) eqn:E3.
    + apply bool_decide_eq_true in E3. split_and!; [done|cbn; lia|by intros d; rewrite E2|].
      destruct (opens retry); [|done]. by intros g [= <-].
    + split_and!; [done|cbn; lia|by intros d; rewrite E2|done].
  - apply bool_decide_eq_false in E2. split_and!; [done|cbn; lia| |done].
    intros d ->%Hn. done.
Qed.

(** ** The SQL channel *)

(** What is sent to an engine. *)
Inductive EngineCall : Type :=
| SqlCall (db : option string) (raw : bool) (sql : string)
| MongoCall (db : string) (command : MongoLeg.Document)
| RedisCall (db : Z) (commands : list (list string)) (atomic : bool)
| RedisAclCat (db : Z) (category : string)
| TdCall (db : option string) (sql : string).

(** The environment of one run: which databases open, whether opening takes longer than
    the deadline, the schedule, and the answers of the engine. *)
Record Env := {
  opens : option string → bool; open_late : bool;
  polls : list Poll; delivered : nat;
  cancel_now : bool; expired_now : bool;
  sql_rows : EngineCall → list (result StreamQueryError MappedRow);
  (** the error's second part: is it MySQL's 1295? *)
  sql_execute : EngineCall → result (StreamQueryError * bool) Z }.

(** The outcome, none while the query runs or when it panicked, the events in the
    channel, and the calls, which include one cut off by the token or the deadline. *)
Record Ran := { outcome : option (result StreamQueryError CompleteInfo); events : list StreamQueryEvent; calls : list EngineCall }.
Definition fails (e : StreamQueryError) : Ran := {| outcome := Some (Err e); events := []; calls := [] |}.

Definition run_rows (env : Env) (limit : nat) (secs : Z) (call : EngineCall) : Ran :=
  match stream_rows limit secs env.(polls) env.(delivered) (env.(sql_rows) call) with
  | Some (o, evs) => {| outcome := Some o; events := evs; calls := [call] |}
  | None => {| outcome := None; events := []; calls := [call] |}
  end.
(** [execute_by_mode]: a statement the prepared protocol refuses is sent again as
    text. *)
Definition execute_by_mode (env : Env) (mode : CatalogQueryMode) (target : option string) (sql : string)
    : result StreamQueryError Z * list EngineCall :=
  let plain r := match r with Ok n => Ok n | Err (e, _) => Err e end in
  match mode with
  | RawSql => (plain (env.(sql_execute) (SqlCall target true sql)), [SqlCall target true sql])
  | Prepare =>
      match env.(sql_execute) (SqlCall target false sql) with
      | Err (_, true) => (plain (env.(sql_execute) (SqlCall target true sql)), [SqlCall target false sql; SqlCall target true sql])
      | r => (plain r, [SqlCall target false sql])
      end
  end.
(** A plain [execute], and [sqlserver::execute_tds]: only DML reports its rows. *)
Definition execute_plain (env : Env) (target : option string) (sql : string) : result StreamQueryError Z * list EngineCall :=
  (match env.(sql_execute) (SqlCall target false sql) with Ok n => Ok n | Err (e, _) => Err e end, [SqlCall target false sql]).
Definition execute_tds (env : Env) (target : option string) (sql : string) : result StreamQueryError Z * list EngineCall :=
  let dml := is_dml_statement sql in
  (match env.(sql_execute) (SqlCall target (negb dml) sql) with
   | Ok n => Ok (if dml then n else 0%Z) | Err (e, _) => Err e end, [SqlCall target (negb dml) sql]).
Definition run_execute (env : Env) (secs : Z) (r : result StreamQueryError Z * list EngineCall) : Ran :=
  {| outcome := Some (guard_execute env.(cancel_now) env.(expired_now) secs id r.1); events := []; calls := r.2 |}.

(** A family whose pool may fall back to [retry]; [raw] is none when choosing the
    protocol panics. *)
Definition run_sql_in (env : Env) (limit : nat) (secs : Z) (retry : option string) (row : ConnRow) (db : option string)
    (raw : option bool) (execute : option string → result StreamQueryError Z * list EngineCall) (sql : string) : Ran :=
  match (open_resolving env.(opens) retry db row.(r_default_database)).2 with
  | Err e => fails e
  | Ok target =>
      if is_select_statement sql then
        match raw with
        | Some raw => run_rows env limit secs (SqlCall target raw sql)
        | None => {| outcome := None; events := []; calls := [] |}
        end
      else run_execute env secs (execute target)
  end.

(** [run_inner]. *)
Definition run_inner (env : Env) (loaded : Loaded) (db : option string) (sql : string) (row_limit : nat) (secs : Z) : Ran :=
  let limit := Nat.max row_limit 1 in
  match loaded with
  | Err e => fails (from_meta e)
  | Ok (row, family) =>
      match family with
      | MySql profile =>
          let raw := if decide (profile.(catalog_mode) = RawSql) then Some true else is_show_statement sql in
          run_sql_in env limit secs None row db raw (λ t, execute_by_mode env profile.(catalog_mode) t sql) sql
      | Postgres | Clickhouse => run_sql_in env limit secs None row db (Some false) (λ t, execute_plain env t sql) sql
      | SqlServer =>
          if env.(open_late) then fails (timed_out secs)
          else run_sql_in env limit secs (Some "master") row db (Some true) (λ t, execute_tds env t sql) sql
      | Sqlite =>
          if env.(opens) None then
            if is_select_statement sql then run_rows env limit secs (SqlCall None false sql)
            else run_execute env secs (execute_plain env None sql)
          else fails connect_failed
      | Mongo => fails (unsupported_kind ("mongodb connections require kind " +:+ DQS +:+ "mongo" +:+ DQS +:+ " with a command object"))
      | Redis => fails (unsupported_kind ("redis connections require kind " +:+ DQS +:+ "redis" +:+ DQS +:+ " with a command or pipeline"))
      | Tdengine => fails (unsupported_kind ("tdengine connections require kind " +:+ DQS +:+ "tdengine" +:+ DQS +:+ " statements"))
      end
  end.
End Statements.

(** ** Whole replies as events *)

Fixpoint chunks (fuel n : nat) (l : list (list json)) : list (list (list json)) :=
  match fuel, l with
  | S fuel, _ :: _ => take n l :: chunks fuel n (drop n l)
  | _, _ => []
  end.
Definition table_events (cols : list string) (types : option (list string)) (rows : list (list json)) : list StreamQueryEvent :=
  Meta cols types :: (Rows <$> chunks (length rows) BATCH_SIZE rows).
(** The select around the sends: cut off by the token or the deadline, the query
    fails with what was delivered in the channel. *)
Definition emit (env : Env) (secs : Z) (evs : list StreamQueryEvent) (info : CompleteInfo) (calls : list EngineCall) : Ran :=
  if env.(cancel_now) then {| outcome := Some (Err cancelled); events := take env.(delivered) evs; calls := calls |}
  else if env.(expired_now) then {| outcome := Some (Err (timed_out secs)); events := take env.(delivered) evs; calls := calls |}
  else {| outcome := Some (Ok info); events := evs; calls := calls |}.
Definition info (rows : nat) (truncated : bool) (affected : option Z) : CompleteInfo :=
  Build_CompleteInfo rows truncated affected.

(** An answer in time: none is the timeout. *)
Definition in_time {A} (secs : Z) (a : option (result StreamQueryError A)) : result StreamQueryError A :=
  match a with None => Err (timed_out secs) | Some r => r end.

(** ** MongoDB *)

Section MongoChannel.
Context `{Codecs}.
(** [run_mongo_inner]; [ready] answers opening and pinging, [reply] the command,
    [more] the getMores. *)
Definition run_mongo_inner (env : Env) (ready : option (result StreamQueryError unit))
    (reply : MongoLeg.Document → option (result StreamQueryError MongoLeg.Document)) (more : list (result StreamQueryError MongoLeg.Document))
    (loaded : Loaded) (db : option string) (command : json) (row_limit : nat) (secs : Z) : Ran :=
  let limit := Nat.max row_limit 1 in
  match loaded with
  | Err e => fails (from_meta e)
  | Ok (row, family) =>
      match family with
      | Mongo =>
          match json_to_command_doc command with
          | Err m => fails (db_error m)
          | Ok doc =>
              match command_name_of doc with
              | None => fails (db_error "command object must have at least one key")
              | Some name =>
                  if negb (row.(r_read_only) =? 0)%Z && is_write_command name doc then fails (read_only_error "command")
                  else
                  let target := resolve_db row.(r_default_database) db in
                  let ping := MongoCall target [("ping", BInt32 1)] in
                  match in_time secs ready with
                  | Err e => {| outcome := Some (Err e); events := []; calls := [ping] |}
                  | Ok _ =>
                      let sent := [ping; MongoCall target doc] in
                      if is_write_command name doc then
                        {| outcome := Some (guard_execute env.(cancel_now) env.(expired_now) secs id
                             (match in_time secs (reply doc) with
                              | Ok resp => Ok (Z.max 0 (default 0%Z (doc_count resp "n"))) | Err e => Err e end));
                           events := []; calls := sent |}
                      else match in_time secs (reply doc) with
                           | Err e => {| outcome := Some (Err e); events := []; calls := sent |}
                           | Ok resp =>
                               match cursor_first_batch resp with
                               | Some (batch, id, ns) =>
                                   let as_row (r : result StreamQueryError MongoLeg.Document) : result StreamQueryError MappedRow :=
                                     match r with Ok d => Ok (["doc"], [document_to_json d], None) | Err e => Err e end in
                                   let source := as_row <$> cursor_stream (ns_to_coll ns) more id batch in
                                   let sent := sent ++ (MongoCall target <$> get_mores (ns_to_coll ns) more id (length batch)
                                                          (asked limit secs env.(polls) (start source))) in
                                   match stream_rows limit secs env.(polls) env.(delivered) source with
                                   | Some (o, evs) => {| outcome := Some o; events := evs; calls := sent |}
                                   | None => {| outcome := None; events := []; calls := sent |}
                                   end
                               | None => emit env secs [Meta ["result"] None; Rows [[document_to_json resp]]] (info 1 false None) sent
                               end
                           end
                  end
              end
          end
      | _ => fails (unsupported_kind ("connection db_type '" +:+ row.(r_db_type) +:+ "' does not accept kind " +:+ DQS +:+ "mongo" +:+ DQS +:+ " commands"))
      end
  end.
End MongoChannel.

(** ** Redis *)

Section RedisChannel.
Context (lossy : string → string) (parse_f64 : string → option Z) (fin : Z → bool) (f64_string : Z → string).
(** The commands in one go, then the table of their replies up to the limit. *)
Definition redis_send (env : Env) (reply : list (list string) → option (result StreamQueryError (list Resp))) (limit : nat)
    (secs idx : Z) (commands : list (list string)) (atomic : bool) (table : list Resp → list string * list (list json)) : Ran :=
  let sent := [RedisCall idx commands atomic] in
  match in_time secs (reply commands) with
  | Err e => {| outcome := Some (Err e); events := []; calls := sent |}
  | Ok rs =>
      let '(cols, rows) := table rs in
      let kept := take limit rows in
      emit env secs (table_events cols None kept) (info (length kept) (limit <=? length rows) None) sent
  end.

(** [run_redis_inner]; [opened] answers the connection, [cats] the two ACL CAT of the
    classification, [reply] the commands. *)
Definition after (sent : list EngineCall) (r : Ran) : Ran :=
  {| outcome := r.(outcome); events := r.(events); calls := sent ++ r.(calls) |}.
Definition run_redis_inner (env : Env) (opened : option (result StreamQueryError unit))
    (cats : option (list string) * option (list string))
    (reply : list (list string) → option (result StreamQueryError (list Resp))) (conn_id : string)
    (loaded : Loaded) (db : option string) (command : option (list string)) (pipeline : option (list (list string)))
    (atomic : bool) (row_limit : nat) (secs : Z) (cache : Cache) : Ran * Cache :=
  let limit := Nat.max row_limit 1 in
  let guarded (row : ConnRow) (idx : Z) (names : list string) (k : Ran) : Ran * Cache :=
    if (row.(r_read_only) =? 0)%Z then (k, cache)
    else let '(ok, cache') := guard_read_only conn_id (fetch_acl_classes cats.1 cats.2) names cache in
         (after (RedisAclCat idx <$> guard_sends conn_id cats names cache) (if ok then k else fails (read_only_error "command")), cache') in
  match loaded with
  | Err e => (fails (from_meta e), cache)
  | Ok (row, family) =>
      match family with
      | Redis =>
          let idx := db_index row.(r_default_database) db in
          match in_time secs opened with
          | Err e => (fails e, cache)
          | Ok _ =>
              match command, pipeline with
              | Some [], _ => (fails (db_error "command array must be non-empty"), cache)
              | Some (name :: args), _ =>
                  guarded row idx [name]
                    (redis_send env reply limit secs idx [name :: args] false (λ rs, reply_table lossy parse_f64 fin f64_string name args (default RNil (head rs))))
              | None, Some entries =>
                  guarded row idx (omap head entries)
                    (if bool_decide ([] ∈ entries) then fails (db_error "pipeline entry must be a non-empty command array")
                     else redis_send env reply limit secs idx entries atomic
                            (λ rs, (["index"; "result"], imap (λ i v, [JInt (Z.of_nat i); resp_to_json lossy fin v]) rs)))
              | None, None => (fails (db_error ("kind " +:+ DQS +:+ "redis" +:+ DQS +:+ " requires a command or pipeline")), cache)
              end
          end
      | _ => (fails (unsupported_kind ("connection db_type '" +:+ row.(r_db_type) +:+ "' does not accept kind " +:+ DQS +:+ "redis" +:+ DQS +:+ " commands")), cache)
      end
  end.
End RedisChannel.

(** ** TDengine *)

Definition from_td (e : TdError) : StreamQueryError :=
  match e with
  | Transport | Auth => connect_failed
  | Http status body => db_error ("taosAdapter HTTP " +:+ z_string status +:+ ": " +:+ body)
  | Engine code desc => {| e_code := "DB_ERROR"; e_message := desc; e_engine := Some (z_string code) |}
  end.
Definition run_tdengine_inner (env : Env) (exec : option string → string → option (Z * string * option json))
    (loaded : Loaded) (db : option string) (sql : string) (row_limit : nat) (secs : Z) : Ran :=
  match loaded with
  | Err e => fails (from_meta e)
  | Ok (row, family) =>
      match family with
      | Tdengine =>
          let db_name := or_else db row.(r_default_database) in
          let limit := Nat.max row_limit 1 in
          let write := is_write_statement sql in
          if negb (row.(r_read_only) =? 0)%Z && write then fails (read_only_error "statement")
          else
          let sent := [TdCall db_name sql] in
          if env.(cancel_now) then {| outcome := Some (Err cancelled); events := []; calls := sent |}
          else if env.(expired_now) then {| outcome := Some (Err (timed_out secs)); events := []; calls := sent |}
          else match read_reply (exec db_name sql) with
               | Err e => {| outcome := Some (Err (from_td e)); events := []; calls := sent |}
               | Ok o =>
                   if write then {| outcome := Some (Ok (info 0 false (Some (default 0%Z (TdengineLeg.affected_rows o)))));
                                    events := []; calls := sent |}
                   else
                   let kept := take limit o.(rows) in
                   emit env secs (table_events (o.(columns).*1) (Some (o.(columns).*2)) kept)
                     (info (length kept) (limit <? length o.(rows)) None) sent
               end
      | _ => fails (unsupported_kind ("connection db_type '" +:+ row.(r_db_type) +:+ "' does not accept kind " +:+ DQS +:+ "tdengine" +:+ DQS +:+ " statements"))
      end
  end.

(** The caller of each channel: the terminal event goes last. *)
Definition run_stream (r : Ran) (elapsed_ms : Z) (receiver : bool) : list StreamQueryEvent :=
  match r.(outcome) with
  | Some o => with_terminal o r.(events) elapsed_ms receiver
  | None => r.(events)
  end.

(** ** Theorems *)

(** A call that changes nothing, given the command classes known for a server; of the
    subcommands of ACL, CAT lists the commands of a category. *)
Definition only_reads (known : option AclClasses) (c : EngineCall) : Prop :=
  match c with
  | MongoCall _ d => ∃ name, command_name_of d = Some name ∧ is_write_command name d = false
  | RedisCall _ commands _ => Forall (λ c, ∃ name args, c = name :: args ∧ harmless known name) commands
  | RedisAclCat _ category => category ∈ ["write"; "dangerous"]
  | TdCall _ sql => is_write_statement sql = false
  | SqlCall _ _ _ => False
  end.

Lemma emit_calls env secs evs i cs : (emit env secs evs i cs).(calls) = cs.
Proof. unfold emit. by repeat case_match. Qed.

Lemma mongo_only_reads `{Codecs} env ready reply more row fam db command n secs :
  row.(r_read_only) ≠ 0%Z →
  Forall (only_reads None) (run_mongo_inner env ready reply more (Ok (row, fam)) db command n secs).(calls).
Proof.
  intros Hr. unfold run_mongo_inner. destruct fam; try by constructor.
  destruct (json_to_command_doc command) as [doc|e]; [|by constructor].
  destruct (command_name_of doc) as [name|] eqn:En; [|by constructor].
  rewrite (proj2 (Z.eqb_neq _ _) Hr). cbn [negb andb].
  destruct (is_write_command name doc) eqn:Ew; [by constructor|].
  assert (Hp : only_reads None (MongoCall (resolve_db (r_default_database row) db) [("ping", BInt32 1)]))
    by (by exists "ping").
  assert (Hs : Forall (only_reads None) [MongoCall (resolve_db (r_default_database row) db) [("ping", BInt32 1)];
                                         MongoCall (resolve_db (r_default_database row) db) doc]).
  { constructor; [done|]. constructor; [by exists name|done]. }
  cbv zeta. destruct (in_time secs ready); [|by constructor].
  destruct (in_time secs (reply doc)) as [resp|]; [|done].
  destruct (cursor_first_batch resp) as [[[batch id] ns]|]; [|by rewrite emit_calls].
  assert (Hm : ∀ k, Forall (only_reads None) ([MongoCall (resolve_db (r_default_database row) db) [("ping", BInt32 1)];
      MongoCall (resolve_db (r_default_database row) db) doc] ++
      (MongoCall (resolve_db (r_default_database row) db) <$> get_mores (ns_to_coll ns) more id (length batch) k))).
  { intros k. apply Forall_app. split; [exact Hs|]. apply Forall_fmap. eapply Forall_impl; [apply get_mores_shape|].
    intros d [i ->]. by exists "getMore". }
  by destruct (stream_rows _ _ _ _ _) as [[]|]; apply Hm.
Qed.

Lemma omap_head_forall (P : string → Prop) (l : list (list string)) :
  [] ∉ l → Forall P (omap head l) → Forall (λ c, ∃ name args, c = name :: args ∧ P name) l.
Proof.
  induction l as [|[|n a] l IH]; [constructor| |].
  - intros Hn. destruct Hn. by left.
  - intros Hn. cbn. rewrite !Forall_cons. intros [Hp Hl]. split; [by exists n, a|].
    apply IH; [|done]. intros Hin. apply Hn. by right.
Qed.

Lemma guard_harmless conn acl names cache cache' : guard_read_only conn acl names cache = (true, cache') →
  Forall (harmless (default acl (cache !! conn))) names.
Proof.
  destruct names as [|n names]; [by constructor|]. intros Hg%read_only_guard_inv; [|done].
  destruct (cache !! conn); apply Hg.
Qed.

Lemma redis_send_reads known env reply limit secs idx cmds atomic table :
  Forall (λ c, ∃ name args, c = name :: args ∧ harmless known name) cmds →
  Forall (only_reads known) (redis_send env reply limit secs idx cmds atomic table).(calls).
Proof.
  intros Hc. unfold redis_send. destruct (in_time secs (reply cmds)) as [rs|]; [|by repeat constructor].
  destruct (table rs) as [cols rows]. rewrite emit_calls. by repeat constructor.
Qed.

Lemma acl_only_reads known idx conn cats names cache : Forall (only_reads known) (RedisAclCat idx <$> guard_sends conn cats names cache).
Proof. apply Forall_fmap, guard_sends_cats. Qed.
Lemma after_reads known sent r : Forall (only_reads known) sent → Forall (only_reads known) r.(calls) → Forall (only_reads known) (after sent r).(calls).
Proof. intros. cbn. by apply Forall_app. Qed.
Lemma redis_only_reads lossy pf fin fs env opened cats reply conn row fam db command pipeline atomic n secs cache :
  row.(r_read_only) ≠ 0%Z →
  Forall (only_reads (default (fetch_acl_classes cats.1 cats.2) (cache !! conn)))
    (run_redis_inner lossy pf fin fs env opened cats reply conn (Ok (row, fam)) db command pipeline atomic n secs cache).1.(calls).
Proof.
  intros Hr. unfold run_redis_inner. destruct fam; try by constructor. cbv zeta.
  destruct (in_time secs opened); [|by constructor]. rewrite (proj2 (Z.eqb_neq _ _) Hr).
  destruct command as [[|name args]|].
  - by constructor.
  - destruct (guard_read_only _ _ _ _) as [[] cache'] eqn:Eg; [|cbn [fst]; apply after_reads; [apply acl_only_reads|by constructor]].
    apply guard_harmless in Eg. apply Forall_cons in Eg as [Eg _]. cbn [fst]. apply after_reads; [apply acl_only_reads|]. apply redis_send_reads.
    constructor; [by exists name, args|constructor].
  - destruct pipeline as [entries|]; [|by constructor].
    destruct (guard_read_only _ _ _ _) as [[] cache'] eqn:Eg; [|cbn [fst]; apply after_reads; [apply acl_only_reads|by constructor]].
    apply guard_harmless in Eg. cbn [fst]. apply after_reads; [apply acl_only_reads|]. destruct (bool_decide ([] ∈ entries)) eqn:Ee; [by constructor|].
    apply bool_decide_eq_false in Ee. apply redis_send_reads, omap_head_forall; done.
Qed.

Lemma tdengine_only_reads env exec row fam db sql n secs :
  row.(r_read_only) ≠ 0%Z →
  Forall (only_reads None) (run_tdengine_inner env exec (Ok (row, fam)) db sql n secs).(calls).
Proof.
  intros Hr. unfold run_tdengine_inner. destruct fam; try by constructor. cbv zeta.
  rewrite (proj2 (Z.eqb_neq _ _) Hr). cbn [negb andb].
  destruct (is_write_statement sql) eqn:Ew; [by constructor|].
  destruct (cancel_now env); [by repeat constructor|]. destruct (expired_now env); [by repeat constructor|].
  destruct (read_reply _) as [o|e]; [|by repeat constructor]. rewrite emit_calls. by repeat constructor.
Qed.

(** C33. On a connection marked read-only, the three channels that enforce it on
    the server send nothing their classification calls a write: no MongoDB write
    command and no pipeline stage that writes out (what is sent for a cursor are
    getMores), no Redis command of the static lists or of the server's own write and
    dangerous classes, alone or in a pipeline, and no TDengine write statement; whatever
    the engine answers.  What is sent to Redis besides are the classification's own ACL
    CAT of the two categories, which it would not let a client send.  The classes are
    those known for the connection, or the ones fetched now. *)
Theorem read_only_never_writes `{Codecs} lossy pf fin fs env row fam db n secs :
  row.(r_read_only) ≠ 0%Z →
  (∀ ready reply more command,
     Forall (only_reads None) (run_mongo_inner env ready reply more (Ok (row, fam)) db command n secs).(calls)) ∧
  (∀ opened cats reply conn command pipeline atomic cache,
     Forall (only_reads (default (fetch_acl_classes cats.1 cats.2) (cache !! conn)))
       (run_redis_inner lossy pf fin fs env opened cats reply conn (Ok (row, fam)) db command pipeline atomic n secs cache).1.(calls)) ∧
  (∀ exec sql, Forall (only_reads None) (run_tdengine_inner env exec (Ok (row, fam)) db sql n secs).(calls)).
Proof.
  intros Hr. split_and!; intros.
  - by apply mongo_only_reads.
  - by apply redis_only_reads.
  - by apply tdengine_only_reads.
Qed.

Lemma chunks_spec fuel n l : 0 < n → length l ≤ fuel →
  concat (chunks fuel n l) = l ∧ Forall (λ c, c ≠ [] ∧ length c ≤ n) (chunks fuel n l).
Proof.
  intros Hn. revert l. induction fuel as [|fuel IH]; intros l Hl.
  - destruct l; [|cbn in Hl; lia]. split; [done|constructor].
  - destruct l as [|x l]; [split; [done|constructor]|]. cbn [chunks].
    destruct (IH (drop n (x :: l))) as [H1 H2].
    { rewrite length_drop. cbn [length] in *. lia. }
    split; [cbn [concat]; by rewrite H1, take_drop|]. constructor; [|done].
    split; [destruct n; [lia|done]|]. rewrite length_take. lia.
Qed.

Lemma table_events_data cols types rows : data (table_events cols types rows) = rows.
Proof.
  destruct (chunks_spec (length rows) BATCH_SIZE rows ltac:(unfold BATCH_SIZE; lia) ltac:(lia)) as [Hc Hf].
  transitivity (concat (chunks (length rows) BATCH_SIZE rows)); [|done]. unfold data, table_events. cbn -[chunks].
  clear Hc Hf. induction (chunks (length rows) BATCH_SIZE rows) as [|c l IH]; [done|]. cbn. by rewrite IH.
Qed.

(** A reply that comes whole is sent whole: a header, then batches of at most
    500 rows that together are the reply's rows up to the limit, in order; if the
    query completes they are all in the channel and counted, and if it is cut
    off, what is in the channel is the beginning of them. *)
Theorem whole_reply_delivered env secs cols types rows truncated calls r :
  emit env secs (table_events cols types rows) (info (length rows) truncated None) calls = r →
  match r.(outcome) with
  | Some (Ok i) => r.(events) = table_events cols types rows ∧ data r.(events) = rows ∧ i.(row_count) = length rows ∧
      Forall (λ ev, ∃ batch, ev = Rows batch ∧ batch ≠ [] ∧ length batch ≤ BATCH_SIZE) (tail r.(events))
  | Some (Err e) => (e = cancelled ∨ e = timed_out secs) ∧ data r.(events) `prefix_of` rows
  | None => False
  end.
Proof.
  intros <-. destruct (chunks_spec (length rows) BATCH_SIZE rows ltac:(unfold BATCH_SIZE; lia) ltac:(lia)) as [Hc Hf].
  pose proof (table_events_data cols types rows) as Hd.
  unfold emit. destruct (cancel_now env); [|destruct (expired_now env)]; cbn [outcome events].
  - split; [by left|]. etrans; [apply data_take|by rewrite Hd].
  - split; [by right|]. etrans; [apply data_take|by rewrite Hd].
  - split; [done|]. split; [done|]. split; [done|]. cbn [tail table_events]. apply Forall_fmap.
    eapply Forall_impl; [exact Hf|]. intros c [??]. by exists c.
Qed.

(** ** Examples *)

Definition ex_conn : ConnRow := {| r_db_type := "redis"; r_default_database := Some "3"; r_read_only := 1 |}.
Definition ex_quiet : Env :=
  {| opens := λ _, true; open_late := false; polls := []; delivered := 0; cancel_now := false; expired_now := false;
     sql_rows := λ _, []; sql_execute := λ _, Ok 7%Z |}.
Notation ex_redis commands :=
  (run_redis_inner (λ s, s) (λ _, None) (λ _, true) (λ _, "") ex_quiet (Some (Ok tt)) (None, None) (λ _, Some (Ok [RInt 1]))
    "c" (Ok (ex_conn, Redis)) None None (Some commands) false 10 30 ∅).1.

Lemma whole_reply_delivered_witness :
  data (emit ex_quiet 30 (table_events ["n"] None [[JInt 1]; [JInt 2]]) (info 2 false None) []).(events) = [[JInt 1]; [JInt 2]].
Proof. apply (whole_reply_delivered ex_quiet 30 ["n"] None [[JInt 1]; [JInt 2]] false [] _ eq_refl). Defined.

Lemma read_only_never_writes_witness :
  (ex_redis [["GET"; "k"]]).(calls) = [RedisAclCat 3 "write"; RedisCall 3 [["GET"; "k"]] false] ∧
  (ex_redis [["GET"; "k"]; ["SET"; "k"; "v"]]).(calls) = [RedisAclCat 3 "write"] ∧
  Forall (only_reads None) (ex_redis [["GET"; "k"]]).(calls).
Proof.
  split_and!; [by vm_compute..|].
  assert (Hr : r_read_only ex_conn ≠ 0%Z) by discriminate.
  pose proof (read_only_never_writes (H := ex_codecs) (λ s, s) (λ _, None) (λ _, true) (λ _, "") ex_quiet ex_conn Redis None 10 30 Hr)
    as (_ & H & _).
  exact (H (Some (Ok tt)) (None, None) (λ _, Some (Ok [RInt 1])) "c" None (Some [["GET"; "k"]]) false ∅).
Defined.

(** The SQL channel leaves the flag to its clients. *)
Example sql_channel_ignores_read_only :
  (run_inner (λ c, [c]) ex_quiet (Ok (ex_conn, Postgres)) None "DELETE FROM t" 10 30).(calls) = [SqlCall (Some "3") false "DELETE FROM t"].
Proof. by vm_compute. Qed.

(** [ẖ] is one character whose upper case begins with [H]: the statement counts as
    a [WITH], and cutting it at its fourth byte panics. *)
Example show_check_panics :
  let upper := λ c, if decide (c = 7830%N) then [72; 817]%N else [c] in
  let sql := "WIT" +:+ encode_char 7830 in
  is_select_statement upper sql = true ∧ is_show_statement sql = None.
Proof. by vm_compute. Qed.
