(* ===== verification/Connections.v ===== *)
(** * Stored connections and how they are loaded
    (crates/automation/src/ssh.rs, net_flags.rs, [load_connection] of metadata.rs,
    [load_and_decrypt_key] of db_handler.rs)

    A row of [database_connections], the SSH settings kept partly in its [extra]
    JSON and partly encrypted, the process-wide table of tunnels, and the two
    functions that turn a stored row into one a driver can dial.  The reading and
    printing of JSON, SHA-256, the cipher, and the outcome of opening a tunnel are
    parameters. *)

From S2P Require Import Prelude RustStr Json Credential DbFamily TdengineLeg.
From stdpp Require Import strings gmap.

(** ** SSH settings *)

Record SshWire := {
  w_host : string; w_port : Z; w_username : string; w_auth_mode : string;
  w_password : option string; w_private_key : option string; w_passphrase : option string }.
Record SshConfig := { ssh_host : string; ssh_port : Z; ssh_username : string; ssh_auth_mode : string }.
Record SshSecrets := { s_password : string; s_private_key : string; s_passphrase : string }.
Record SshTunnelParams := { params_config : SshConfig; params_secrets : SshSecrets }.

Definition secrets_empty (s : SshSecrets) : bool :=
  is_empty s.(s_password) && is_empty s.(s_private_key) && is_empty s.(s_passphrase).

Definition validate (w : SshWire) : result string SshTunnelParams :=
  if decide (w.(w_auth_mode) ∉ ["password"; "privateKey"]) then Err ("unsupported ssh authMode: " +:+ w.(w_auth_mode))
  else if is_empty (trim w.(w_host)) || is_empty (trim w.(w_username)) then Err "ssh host and username are required"
  else if bool_decide (w.(w_auth_mode) = "password") && is_empty (default "" w.(w_password))
  then Err "ssh authMode=password requires a password"
  else if bool_decide (w.(w_auth_mode) = "privateKey") && is_empty (default "" w.(w_private_key))
  then Err "ssh authMode=privateKey requires a private key"
  else Ok {| params_config := {| ssh_host := trim w.(w_host);
               ssh_port := if (0 <? w.(w_port))%Z then w.(w_port) else 22%Z;
               ssh_username := trim w.(w_username); ssh_auth_mode := w.(w_auth_mode) |};
             params_secrets := {| s_password := default "" w.(w_password);
               s_private_key := default "" w.(w_private_key); s_passphrase := default "" w.(w_passphrase) |} |}.

Definition extra_keys (c : SshConfig) : list (string * json) :=
  [("sshHost", JStr c.(ssh_host)); ("sshPort", JInt c.(ssh_port)); ("sshUsername", JStr c.(ssh_username));
   ("sshAuthMode", JStr c.(ssh_auth_mode))].

(** serde: empty fields are skipped, absent ones are empty, and a struct may come
    as a sequence. *)
Definition secrets_json (s : SshSecrets) : json :=
  JObj ((λ kv : string * string, (kv.1, JStr kv.2)) <$> filter (λ kv, kv.2 ≠ "")
    [("password", s.(s_password)); ("privateKey", s.(s_private_key)); ("passphrase", s.(s_passphrase))]).
Definition secret_field (k : string) (m : list (string * json)) : option string :=
  match assoc_get k m with None => Some "" | Some v => Json.as_str v end.
Definition secrets_of_json (j : json) : option SshSecrets :=
  match j with
  | JObj m => p ← secret_field "password" m; k ← secret_field "privateKey" m; pp ← secret_field "passphrase" m;
              Some {| s_password := p; s_private_key := k; s_passphrase := pp |}
  | JArr l => strs ← mapM Json.as_str l;
              if 3 <? length strs then None
              else Some {| s_password := default "" (strs !! 0); s_private_key := default "" (strs !! 1);
                           s_passphrase := default "" (strs !! 2) |}
  | _ => None
  end.

(** ** The columns of a connection *)

Record Connection := {
  name : string; db_type : string; host : string; port : Z; username : string; password_encrypted : string;
  default_database : option string; created_by : string; created_at : string; kind : string;
  file_path : option string; charset : option string; timezone : option string; read_only : bool;
  extra : option string; ssh_secret_encrypted : option string }.
Notation Table := (gmap string Connection).

(** [conn.host = host; conn.port = port; conn.extra = extra]. *)
Definition reroute (h : string) (p : Z) (e : option string) (c : Connection) : Connection :=
  {| name := c.(name); db_type := c.(db_type); host := h; port := p; username := c.(username);
     password_encrypted := c.(password_encrypted); default_database := c.(default_database);
     created_by := c.(created_by); created_at := c.(created_at); kind := c.(kind); file_path := c.(file_path);
     charset := c.(charset); timezone := c.(timezone); read_only := c.(read_only); extra := e;
     ssh_secret_encrypted := c.(ssh_secret_encrypted) |}.

Section Extra.
Context `{Reader}.

(** The object in an [extra] column. *)
Definition extra_object (extra : option string) : option (list (string * json)) :=
  raw ← extra; match from_str raw with Some (JObj m) => Some m | _ => None end.

Definition config_from_extra (extra : option string) : option SshConfig :=
  map ← extra_object extra;
  h ← assoc_get "sshHost" map ≫= Json.as_str;
  let p := default 22%Z (assoc_get "sshPort" map ≫= as_i64_value) in
  u ← assoc_get "sshUsername" map ≫= Json.as_str;
  m ← assoc_get "sshAuthMode" map ≫= Json.as_str;
  let c := {| ssh_host := trim h; ssh_port := p; ssh_username := trim u; ssh_auth_mode := m |} in
  if negb (is_empty c.(ssh_host)) && negb (is_empty c.(ssh_username)) then Some c else None.

Definition flag (extra : option string) (key : string) (default_ : bool) : bool :=
  match extra_object extra with
  | Some map => default default_ (assoc_get key map ≫= Json.as_bool)
  | None => default_
  end.
Definition tls_flags (extra : option string) : bool * bool :=
  let use_tls := flag extra "useTls" false in (use_tls, use_tls && flag extra "tlsInsecure" false).
Definition tunneled (extra : option string) : bool := flag extra "tunneled" false.
Definition inject_flag `{Printer} (extra : option string) (key : string) (value : bool) : option string :=
  Some (to_vec (JObj (assoc_insert key (JBool value) (default [] (extra_object extra))))).
End Extra.

(** ** Tunnels *)

(** The key of a tunnel and its local port. *)
Notation Tunnels := (gmap string Z).
(** Whether the cached port answers, and what opening a tunnel gives. *)
Record TunnelAnswer := { probe : Z → bool; spawn_tunnel : result string Z }.

Section Tunnels.
Context `{Printer, Reader, Cipher} (sha256_hex : string → string).

Definition tunnel_canonical (target_host : string) (target_port : Z) (c : SshConfig) (s : SshSecrets) : string :=
  RustStr.join "|" [c.(ssh_host); z_string c.(ssh_port); c.(ssh_username); c.(ssh_auth_mode);
    s.(s_password); s.(s_private_key); s.(s_passphrase); target_host; z_string target_port].
Definition tunnel_key (target_host : string) (target_port : Z) (c : SshConfig) (s : SshSecrets) : string :=
  sha256_hex (tunnel_canonical target_host target_port c s).

Definition resolve (a : TunnelAnswer) (target_host : string) (target_port : Z) (c : SshConfig) (s : SshSecrets)
    (t : Tunnels) : result string (string * Z) * Tunnels :=
  let key := tunnel_key target_host target_port c s in
  let open_new (t : Tunnels) : result string (string * Z) * Tunnels :=
    match a.(spawn_tunnel) with
    | Ok p => (Ok ("127.0.0.1", p), <[key := p]> t)
    | Err e => (Err e, t)
    end in
  match t !! key with
  | Some p => if a.(probe) p then (Ok ("127.0.0.1", p), t) else open_new (delete key t)
  | None => open_new (delete key t)
  end.

Definition apply_tunnel (a : TunnelAnswer) (row_host : string) (row_port : Z) (extra : option string)
    (c : SshConfig) (s : SshSecrets) (t : Tunnels) : result string (string * Z * option string) * Tunnels :=
  match resolve a row_host row_port c s t with
  | (Ok (h, p), t') => (Ok (h, p, inject_flag extra "tunneled" true), t')
  | (Err e, t') => (Err e, t')
  end.

(** ** [load_connection] *)

Definition is_sqlite (f : Family) : bool := match f with Sqlite => true | _ => false end.

(** The secrets of a tunnel. *)
Definition tunnel_secrets (key : string) (c : Connection) : result MetadataError SshSecrets :=
  let ct := default "" c.(ssh_secret_encrypted) in
  if is_empty ct then Err ("CONNECTION_FAILED", "ssh tunnel enabled but secret is missing")
  else match decrypt_password ct key with
       | Ok plain => ok_or (from_str plain ≫= secrets_of_json) ("DECRYPT_FAILED", "stored ssh secret could not be decrypted")
       | Err _ => Err ("DECRYPT_FAILED", "stored ssh secret could not be decrypted")
       end.

Definition load_connection (read : result string unit) (a : TunnelAnswer) (key conn_id : string) (rows : Table)
    (t : Tunnels) : result MetadataError (Connection * Family * string) * Tunnels :=
  match (_ ← match read with Ok u => Ok u | Err e => Err ("DB_ERROR", "server database read failed: " +:+ take_chars 120 e) end;
         c ← ok_or (rows !! conn_id) ("NOT_FOUND", "connection '" +:+ conn_id +:+ "' not found");
         f ← family_for c.(db_type);
         pw ← if is_sqlite f then Ok ""
              else match decrypt_password c.(password_encrypted) key with
                   | Ok p => Ok p
                   | Err _ => Err ("DECRYPT_FAILED", "stored credential could not be decrypted")
                   end;
         Ok (c, f, pw)) with
  | Err e => (Err e, t)
  | Ok (c, f, pw) =>
      match (if is_sqlite f then None else config_from_extra c.(extra)) with
      | None => (Ok (c, f, pw), t)
      | Some cfg =>
          match tunnel_secrets key c with
          | Err e => (Err e, t)
          | Ok secrets =>
              match apply_tunnel a c.(host) c.(port) c.(extra) cfg secrets t with
              | (Ok (h, p, e), t') => (Ok (reroute h p e c, f, pw), t')
              | (Err _, t') => (Err ("CONNECTION_FAILED", "ssh tunnel setup failed"), t')
              end
          end
      end
  end.

(** [load_and_decrypt_key], the loader of the REST and of the DDL paths. *)
Definition load_and_decrypt_key (read : result string unit) (key conn_id : string) (rows : Table)
    : result (string * string * Z) (Connection * string) :=
  _ ← match read with Ok u => Ok u | Err e => Err ("DB_ERROR", e, 500%Z) end;
  c ← ok_or (rows !! conn_id) ("CONNECTION_NOT_FOUND", "connection " +:+ conn_id +:+ " not found", 404%Z);
  match decrypt_password c.(password_encrypted) key with
  | Ok p => Ok (c, p)
  | Err e => Err ("DECRYPT_FAILED", display e, 500%Z)
  end.
End Tunnels.

(** ** What a load gives *)

Definition obj_float_free (m : list (string * json)) : bool := forallb (λ e, float_free e.2) m.

Lemma insert_float_free k v m : float_free v = true → obj_float_free m = true → obj_float_free (assoc_insert k v m) = true.
Proof.
  intros Hv. induction m as [|[k' v'] r IH]; cbn; [by rewrite Hv|].
  intros [H1 H2]%andb_prop. case_decide; cbn; [by rewrite Hv, H2|]. rewrite H1. by apply IH.
Qed.

Section Laws.
Context `{RoundTrip, CipherLaws} (sha256_hex : string → string).

Lemma extra_object_printed m : obj_float_free m = true → extra_object (Some (to_vec (JObj m))) = Some m.
Proof. intros Hm. unfold extra_object. cbn [mbind option_bind]. by rewrite (from_to (JObj m)). Qed.

(** The mark [apply_tunnel] leaves is read back by every channel. *)
Lemma inject_tunneled e : obj_float_free (default [] (extra_object e)) = true →
  tunneled (inject_flag e "tunneled" true) = true.
Proof.
  intros Hm. unfold tunneled, flag, inject_flag.
  rewrite extra_object_printed by (by apply insert_float_free). by rewrite assoc_get_insert.
Qed.

(** A tunnel is the one in the table, if its port answers, or a new one. *)
Lemma resolve_spec a th tp c s t h p t' :
  resolve sha256_hex a th tp c s t = (Ok (h, p), t') →
  h = "127.0.0.1" ∧ t' !! tunnel_key sha256_hex th tp c s = Some p ∧
  (t !! tunnel_key sha256_hex th tp c s = Some p ∧ a.(probe) p = true ∧ t' = t ∨ a.(spawn_tunnel) = Ok p).
Proof.
  unfold resolve. cbv zeta. generalize (tunnel_key sha256_hex th tp c s) as k. intros k.
  destruct (t !! k) as [p0|] eqn:Ek; [destruct (a.(probe) p0) eqn:Ep|];
    [intros [= <- <- <-]; split_and!; [done..|by left]| |];
    (destruct (a.(spawn_tunnel)) as [q|e] eqn:Es; [|done]); intros [= <- <- <-];
    (split_and!; [done|apply lookup_insert_eq|by right]).
Qed.

(** Whoever loads a connection through the metadata layer gets the row that is stored, its
    family and its password; if the row has SSH settings, and is not an SQLite file, then
    its address is replaced by the local end of a tunnel opened for this target, with these
    settings and the secrets decrypted from the row, and it is marked for the TLS code. *)
Lemma load_connection_spec read a key id rows t c' f pw t' :
  load_connection sha256_hex read a key id rows t = (Ok (c', f, pw), t') →
  ∃ c, rows !! id = Some c ∧ family_for c.(db_type) = Ok f ∧
    (if is_sqlite f then pw = "" else decrypt_password c.(password_encrypted) key = Ok pw) ∧
    match (if is_sqlite f then None else config_from_extra c.(extra)) with
    | None => c' = c ∧ t' = t
    | Some cfg => ∃ secrets p, let k := tunnel_key sha256_hex c.(host) c.(port) cfg secrets in
        tunnel_secrets key c = Ok secrets ∧
        c' = reroute "127.0.0.1" p (inject_flag c.(extra) "tunneled" true) c ∧ t' !! k = Some p ∧
        (t !! k = Some p ∧ a.(probe) p = true ∨ a.(spawn_tunnel) = Ok p) ∧
        (obj_float_free (default [] (extra_object c.(extra))) = true → tunneled c'.(extra) = true)
    end.
Proof.
  unfold load_connection. destruct read as [[]|e]; [|done]. cbn [mbind result_mbind].
  destruct (rows !! id) as [c|] eqn:Ec; [|done]. cbn [ok_or mbind result_mbind].
  destruct (family_for c.(db_type)) as [f0|e] eqn:Ef; [|done]. cbn [mbind result_mbind].
  assert (Hpw : ∀ r, (if is_sqlite f0 then Ok "" else match decrypt_password c.(password_encrypted) key with
      | Ok p => Ok p | Err _ => Err ("DECRYPT_FAILED", "stored credential could not be decrypted") end) = Ok (E := MetadataError) r →
      if is_sqlite f0 then r = "" else decrypt_password c.(password_encrypted) key = Ok r).
  { intros r. destruct (is_sqlite f0); [by intros [= <-]|]. destruct (decrypt_password _ key); [by intros [= <-]|done]. }
  destruct (if is_sqlite f0 then _ else _) as [pw0|e] eqn:Epw; [|done]. cbn [mbind result_mbind].
  specialize (Hpw _ eq_refl).
  destruct (if is_sqlite f0 then None else config_from_extra c.(extra)) as [cfg|] eqn:Ecfg.
  2:{ intros [= <- <- <- <-]. exists c. by rewrite Ecfg. }
  destruct (tunnel_secrets key c) as [secrets|e] eqn:Es; [|done]. unfold apply_tunnel.
  destruct (resolve sha256_hex a c.(host) c.(port) cfg secrets t) as [[[h p]|e] t1] eqn:Er; [|done].
  intros [= <- <- <- <-]. apply resolve_spec in Er as (-> & Hk & Hor). exists c. rewrite Ecfg.
  split_and!; [done..|]. exists secrets, p. split_and!; [done..| |].
  - destruct Hor as [(? & ? & _)|?]; [by left|by right].
  - intros Hm. by apply inject_tunneled.
Qed.

(** ** Registration's half of the SSH settings *)

Lemma validate_inv w p : validate w = Ok p →
  let c := p.(params_config) in
  is_empty c.(ssh_host) = false ∧ is_empty c.(ssh_username) = false ∧ trim c.(ssh_host) = c.(ssh_host) ∧
  trim c.(ssh_username) = c.(ssh_username) ∧ (0 < c.(ssh_port))%Z.
Proof.
  unfold validate. case_decide; [done|]. destruct (is_empty (trim w.(w_host)) || _) eqn:E; [done|].
  apply orb_false_iff in E as [E1 E2]. repeat (destruct (_ && _); [done|]). intros [= <-]. cbn.
  split_and!; [done|done|apply trim_idem|apply trim_idem|]. destruct (0 <? w.(w_port))%Z eqn:Ep; lia.
Qed.

(** The settings of a valid tunnel, wherever they stand among the other keys, are
    read back. *)
Lemma config_read_back w p m : validate w = Ok p → (w.(w_port) ≤ i64_max)%Z → obj_float_free m = true →
  Forall (λ kv, assoc_get kv.1 m = Some kv.2) (extra_keys p.(params_config)) →
  config_from_extra (Some (to_vec (JObj m))) = Some p.(params_config).
Proof.
  intros Hv Hport Hm Hk. assert (Hle : (p.(params_config).(ssh_port) ≤ i64_max)%Z).
  { revert Hv. unfold validate. case_decide; [done|]. repeat (destruct (_ || _); [done|]).
    repeat (destruct (_ && _); [done|]). intros [= <-]. cbn. destruct (0 <? _)%Z; [done|]. by vm_compute. }
  apply validate_inv in Hv as (Hh & Hu & Th & Tu & Hp). revert Hh Hu Th Tu Hp Hle Hk.
  destruct p as [[h pt u am] s]. cbn [params_config ssh_host ssh_port ssh_username ssh_auth_mode].
  intros Hh Hu Th Tu Hp Hle Hk. unfold extra_keys in Hk. rewrite !Forall_cons in Hk.
  cbn [fst snd ssh_host ssh_port ssh_username ssh_auth_mode] in Hk. destruct Hk as (G1 & G2 & G3 & G4 & _).
  unfold config_from_extra. rewrite extra_object_printed by done. cbn [mbind option_bind].
  rewrite G1, G2, G3, G4. cbn [mbind option_bind Json.as_str as_i64_value].
  rewrite decide_True by lia. cbn [default ssh_host ssh_username]. by rewrite Th, Tu, Hh, Hu.
Qed.

(** The secrets survive their serialisation. *)
Lemma secrets_read_back s : secrets_of_json (secrets_json s) = Some s.
Proof.
  destruct s as [p k pp]. unfold secrets_json. cbn [s_password s_private_key s_passphrase].
  rewrite !filter_cons, filter_nil. cbn [snd].
  destruct (decide (p ≠ "")) as [Hp|Hp]; [|apply dec_stable in Hp as ->];
    (destruct (decide (k ≠ "")) as [Hk|Hk]; [|apply dec_stable in Hk as ->]);
    (destruct (decide (pp ≠ "")) as [Hpp|Hpp]; [|apply dec_stable in Hpp as ->]); reflexivity.
Qed.

Lemma secrets_json_float_free s : float_free (secrets_json s) = true.
Proof.
  unfold secrets_json. cbn [float_free]. apply forallb_forall. intros e He.
  apply in_map_iff in He as (x & <- & _). reflexivity.
Qed.
End Laws.

(** ** A row behind a tunnel *)

#[local] Existing Instances tlv_printer tlv_reader tlv_round_trip ex_cipher ex_cipher_laws.

Definition ex_wire : SshWire :=
  {| w_host := " jump "; w_port := 2222; w_username := "deploy"; w_auth_mode := "password";
     w_password := Some "s3"; w_private_key := None; w_passphrase := None |}.
Definition ex_params : SshTunnelParams := Eval vm_compute in
  match validate ex_wire with Ok p => p | Err _ =>
    {| params_config := {| ssh_host := ""; ssh_port := 0; ssh_username := ""; ssh_auth_mode := "" |};
       params_secrets := {| s_password := ""; s_private_key := ""; s_passphrase := "" |} |} end.
Definition ex_row : Connection :=
  {| name := "db"; db_type := "mysql"; host := "10.0.0.5"; port := 3306; username := "root";
     password_encrypted := "enc:hunter2"; default_database := None; created_by := "u1"; created_at := "t";
     kind := "collab"; file_path := None; charset := None; timezone := None; read_only := false;
     extra := Some (tlv (JObj (extra_keys ex_params.(params_config))));
     ssh_secret_encrypted := Some ("enc:" +:+ tlv (secrets_json ex_params.(params_secrets))) |}.
Definition ex_tunnel : TunnelAnswer := {| probe := λ _, true; spawn_tunnel := Ok 40001%Z |}.
Notation ex_load := (load_connection (λ s, s) (Ok tt) ex_tunnel "K" "c1" {["c1" := ex_row]} ∅).

Example loaded_through_tunnel :
  match ex_load with
  | (Ok (c, _, pw), t) => c.(host) = "127.0.0.1" ∧ c.(port) = 40001%Z ∧ pw = "hunter2" ∧ tunneled c.(extra) = true
  | _ => False
  end.
Proof. by vm_compute. Qed.

(** The loader of the REST and DDL paths has no such step: it dials the host of
    the row. *)
Example rest_path_skips_tunnel :
  match load_and_decrypt_key (Ok tt) "K" "c1" {["c1" := ex_row]} with
  | Ok (c, _) => c.(host) = "10.0.0.5" ∧ is_Some (config_from_extra c.(extra))
  | Err _ => False
  end.
Proof. vm_compute. split; [done|by eexists]. Qed.

(** The fields of a tunnel key are joined without quoting: other secrets, the same
    key. *)
Example tunnel_keys_collide :
  let c := ex_params.(params_config) in
  tunnel_canonical "h" 1 c {| s_password := "a|b"; s_private_key := "c"; s_passphrase := "" |}
  = tunnel_canonical "h" 1 c {| s_password := "a"; s_private_key := "b|c"; s_passphrase := "" |}.
Proof. reflexivity. Qed.
