(* ===== verification/SshTunnel.v ===== *)
(** * SSH tunnels (crates/automation/src/ssh.rs)

    How a tunnel is opened, used again and lost: the steps of [resolve] and
    [spawn_tunnel] between their awaits, the loop that accepts on the local port, and
    the process-wide table, shared by all requests.  [Connections.resolve] is one request
    alone ([resolve_alone]).  The SSH library's answers are arguments. *)

From S2P Require Import Prelude RustStr TdengineLeg Connections Interleave.
From stdpp Require Import strings gmap.

(** ** Errors, ports and keys *)

Definition redact_ssh (msg : string) : string := first_line_chars 120 "ssh error" msg.
(** No passphrase is not the empty passphrase. *)
Definition secrets_passphrase (s : SshSecrets) : option string := if is_empty s.(s_passphrase) then None else Some s.(s_passphrase).
Definition as_u16 (z : Z) : Z := (z mod 2 ^ 16)%Z.
Definition as_u32 (z : Z) : Z := (z mod 2 ^ 32)%Z.
(** The key a server shows. *)
Inductive PublicKeyOrCertificate := PublicKey (bytes : string) | Certificate.

(** ** The state *)

Section Tunnel.
Context (Key : Type) (decode_secret_key : string → option string → result string Key).
Context (sha256_hex sha256 base64 : string → string).

(** What is asked of [resolve]. *)
Record Request := { target_host : string; target_port : Z; config : SshConfig; secrets : SshSecrets }.
Definition request_key (r : Request) : string := tunnel_key sha256_hex r.(target_host) r.(target_port) r.(config) r.(secrets).
(** A session that forwards: the server it was opened to, who it was opened as, and where
    its channels lead. *)
Inductive Credential := Password (p : string) | PrivateKey (k : Key) (hash : option string).
Record Forward := { server : string * Z; user : string; credential : Credential; pump : string * Z }.
(** Who listens on a local port: an accept loop with its session, alive or not, or another
    program. *)
Inductive Listener := Accepting (f : Forward) (alive : bool) | Foreign.
Record World := {
  table : Tunnels; listening : gmap Z Listener; fingerprints : list string;
  (** for the statements: the tunnels that were bound, and the ports whose loop has ended *)
  bound : list (Z * Forward); ended : list Z }.
Definition initial : World := {| table := ∅; listening := ∅; fingerprints := []; bound := []; ended := [] |}.
Definition with_table (f : Tunnels → Tunnels) (w : World) : World :=
  {| table := f w.(table); listening := w.(listening); fingerprints := w.(fingerprints); bound := w.(bound); ended := w.(ended) |}.
Definition with_listening (f : gmap Z Listener → gmap Z Listener) (w : World) : World :=
  {| table := w.(table); listening := f w.(listening); fingerprints := w.(fingerprints); bound := w.(bound); ended := w.(ended) |}.
Definition bind_port (p : Z) (f : Forward) (w : World) : World :=
  {| table := w.(table); listening := <[p := Accepting f true]> w.(listening); fingerprints := w.(fingerprints);
     bound := (p, f) :: w.(bound); ended := w.(ended) |}.
Definition log_fingerprint (s : string) (w : World) : World :=
  {| table := w.(table); listening := w.(listening); fingerprints := s :: w.(fingerprints); bound := w.(bound); ended := w.(ended) |}.

(** What the library, the server and the operating system answer; [connects] is given the
    verdict on the server's key. *)
Record Answer := {
  in_time : bool; server_key : PublicKeyOrCertificate; connects : bool → result string unit; rsa_hash : option string;
  authenticates : result string bool; opens : result string unit; binds : result string Z }.

(** The handler of host keys: the fingerprint for the log, and the verdict. *)
Definition check_server_key (k : PublicKeyOrCertificate) : string * bool :=
  (match k with PublicKey bytes => base64 (sha256 bytes) | Certificate => "certificate" end, true).

(** ** The steps *)

(** Where a call of [resolve] waits. *)
Inductive Phase :=
| Start
| Probing (p : Z)
| Connecting
| AskingHash (k : Key)
| Authenticating (c : Credential)
| OpeningProbe (c : Credential)
| Listening (c : Credential).
(** A call of [resolve], a client that dials the port it was given, and what else happens:
    a session dies, an accept loop ends (when accepting fails), another program takes a
    port or leaves it. *)
Inductive Proc :=
| Resolving (r : Request) (ph : Phase)
| Dialling (r : Request) (p : Z)
| SessionDies (p : Z)
| LoopEnds (p : Z)
| ForeignBinds
| ForeignLeaves (p : Z).
Inductive Where := Reached (target : string * Z) (f : Forward) | Closed | Refused | Elsewhere.
Inductive Reply := Answered (r : Request) (out : result string (string * Z)) | Dialled (r : Request) (p : Z) (out : Where) | Happened.

Definition probe (a : Answer) (p : Z) (w : World) : bool := a.(in_time) && bool_decide (is_Some (w.(listening) !! p)).
(** What follows the connection: by the mode of the configuration. *)
Definition authenticate (r : Request) : result string Phase :=
  if decide (r.(config).(ssh_auth_mode) = "password") then Ok (Authenticating (Password r.(secrets).(s_password)))
  else if decide (r.(config).(ssh_auth_mode) = "privateKey")
  then match decode_secret_key r.(secrets).(s_private_key) (secrets_passphrase r.(secrets)) with
       | Ok k => Ok (AskingHash k)
       | Err _ => Err "ssh tunnel private key decode failed"
       end
  else Err ("unsupported ssh authMode: " +:+ r.(config).(ssh_auth_mode)).
Definition forward_of (r : Request) (c : Credential) : Forward :=
  {| server := (r.(config).(ssh_host), as_u16 r.(config).(ssh_port)); user := r.(config).(ssh_username); credential := c;
     pump := (r.(target_host), as_u32 r.(target_port)) |}.
(** From one await to the next: the rest of the call, or its result. *)
Definition resolve_step (a : Answer) (r : Request) (ph : Phase) (w : World) : World * (Phase + result string (string * Z)) :=
  match ph with
  | Start => match w.(table) !! request_key r with
             | Some p => (w, inl (Probing p))
             | None => (with_table (delete (request_key r)) w, inl Connecting)
             end
  | Probing p => if probe a p w then (w, inr (Ok ("127.0.0.1", p))) else (with_table (delete (request_key r)) w, inl Connecting)
  | Connecting =>
      let '(fingerprint, accepted) := check_server_key a.(server_key) in
      let w := log_fingerprint fingerprint w in
      match a.(connects) accepted with
      | Err e => (w, inr (Err ("ssh tunnel connect failed: " +:+ redact_ssh e)))
      | Ok _ => match authenticate r with Ok ph => (w, inl ph) | Err e => (w, inr (Err e)) end
      end
  | AskingHash k => (w, inl (Authenticating (PrivateKey k a.(rsa_hash))))
  | Authenticating c =>
      match a.(authenticates) with
      | Err e => (w, inr (Err ("ssh tunnel auth error: " +:+ redact_ssh e)))
      | Ok false => (w, inr (Err "ssh tunnel authentication failed"))
      | Ok true => (w, inl (OpeningProbe c))
      end
  | OpeningProbe c => match a.(opens) with Err _ => (w, inr (Err "ssh tunnel target unreachable")) | Ok _ => (w, inl (Listening c)) end
  | Listening c =>
      match a.(binds) with
      | Err e => (w, inr (Err e))
      | Ok p => (with_table <[request_key r := p]> (bind_port p (forward_of r c) w), inr (Ok ("127.0.0.1", p)))
      end
  end.
(** One turn of the accept loop on a port. *)
Definition accept_one (a : Answer) (p : Z) (w : World) : Where :=
  match w.(listening) !! p with
  | None => Refused
  | Some Foreign => Elsewhere
  | Some (Accepting f alive) => if alive && is_ok a.(opens) then Reached f.(pump) f else Closed
  end.
Definition session_dies (l : Listener) : Listener := match l with Accepting f _ => Accepting f false | Foreign => Foreign end.
Definition end_loop (p : Z) (w : World) : World :=
  match w.(listening) !! p with
  | Some (Accepting _ _) => {| table := w.(table); listening := delete p w.(listening); fingerprints := w.(fingerprints);
                               bound := w.(bound); ended := p :: w.(ended) |}
  | _ => w
  end.
Definition leave (p : Z) (m : gmap Z Listener) : gmap Z Listener := match m !! p with Some Foreign => delete p m | _ => m end.
Definition exec (a : Answer) (q : Proc) (w : World) : World * (Proc + Reply) :=
  match q with
  | Resolving r ph => match resolve_step a r ph w with
                      | (w', inl ph') => (w', inl (Resolving r ph'))
                      | (w', inr out) => (w', inr (Answered r out))
                      end
  | Dialling r p => (w, inr (Dialled r p (accept_one a p w)))
  | SessionDies p => (with_listening (alter session_dies p) w, inr Happened)
  | LoopEnds p => (end_loop p w, inr Happened)
  | ForeignBinds => (match a.(binds) with Ok p => with_listening <[p := Foreign]> w | Err _ => w end, inr Happened)
  | ForeignLeaves p => (with_listening (leave p) w, inr Happened)
  end.

(** ** Opening a tunnel, from its first step to its last *)

Definition spawn_tunnel (a : Answer) (r : Request) : result string Z :=
  _ ← err_as (λ e, "ssh tunnel connect failed: " +:+ redact_ssh e) (a.(connects) (check_server_key a.(server_key)).2);
  _ ← authenticate r;
  ok ← err_as (λ e, "ssh tunnel auth error: " +:+ redact_ssh e) a.(authenticates);
  if negb ok then Err "ssh tunnel authentication failed"
  else match a.(opens) with Err _ => Err "ssh tunnel target unreachable" | Ok _ => a.(binds) end.

(** ** One request alone *)

Lemma one_turn a n r ph w : run_alone exec (replicate (S n) a) (Resolving r ph) w =
  match resolve_step a r ph w with
  | (w', inl ph') => run_alone exec (replicate n a) (Resolving r ph') w'
  | (w', inr out) => (w', inr (Answered r out))
  end.
Proof. cbn. destruct (resolve_step a r ph w) as [w' [ph'|out]]; reflexivity. Qed.

(** What a call that opens a tunnel comes to, from a world like [w]. *)
Definition opened (r : Request) (w w0 : World) (res : result string Z) (o : World * (Proc + Reply)) : Prop :=
  ∃ w', o = (w', inr (Answered r (match res with Ok p => Ok ("127.0.0.1", p) | Err e => Err e end))) ∧
    w'.(table) = match res with Ok p => <[request_key r := p]> w0.(table) | Err _ => w0.(table) end ∧
    (w'.(bound) = w.(bound) ∧ w'.(listening) = w.(listening) ∨
     ∃ p c, res = Ok p ∧ w'.(listening) = <[p := Accepting (forward_of r c) true]> w.(listening)).
Lemma authenticated_turns a n r c w w0 : w0.(listening) = w.(listening) → w0.(bound) = w.(bound) →
  opened r w w0 (ok ← err_as (λ e, "ssh tunnel auth error: " +:+ redact_ssh e) a.(authenticates);
                 if negb ok then Err "ssh tunnel authentication failed"
                 else match a.(opens) with Err _ => Err "ssh tunnel target unreachable" | Ok _ => a.(binds) end)
    (run_alone exec (replicate (3 + n) a) (Resolving r (Authenticating c)) w0).
Proof.
  intros El Eb. cbn [Nat.add]. rewrite one_turn. cbn [resolve_step].
  destruct a.(authenticates) as [[|]|e]; cbn; [|by eexists; split_and!; [reflexivity|done|left]..].
  destruct a.(opens) as [[]|e]; cbn; [|by eexists; split_and!; [reflexivity|done|left]].
  destruct a.(binds) as [p|e]; cbn; [|by eexists; split_and!; [reflexivity|done|left]].
  eexists. split_and!; [reflexivity|done|right]. exists p, c. cbn. by rewrite El.
Qed.
Lemma connecting_turns a n r w w0 : w0.(listening) = w.(listening) → w0.(bound) = w.(bound) →
  opened r w w0 (spawn_tunnel a r) (run_alone exec (replicate (5 + n) a) (Resolving r Connecting) w0).
Proof.
  intros El Eb. cbn [Nat.add]. rewrite one_turn. unfold spawn_tunnel. cbn [resolve_step check_server_key snd].
  destruct (a.(connects) true) as [[]|e]; cbn [err_as mbind result_mbind]; [|by eexists; split_and!; [reflexivity|done|left]].
  unfold authenticate. repeat case_decide; [| |by eexists; split_and!; [reflexivity|done|left]].
  - exact (authenticated_turns a (S n) r _ w (log_fingerprint _ w0) El Eb).
  - destruct (decode_secret_key _ _) as [k|e]; [|by eexists; split_and!; [reflexivity|done|left]].
    rewrite one_turn. exact (authenticated_turns a n r _ w (log_fingerprint _ w0) El Eb).
Qed.

(**  A request that nothing interleaves with does what [Connections.resolve] says, with
    the listener found on the cached port as its probe and the whole of [spawn_tunnel] as
    the opening of a new one: the same answer, the same table, and a listener on the port
    of a tunnel it opened, after seven turns at most. *)
Theorem resolve_alone a r w :
  let '(out, t) := Connections.resolve sha256_hex {| Connections.probe := λ p, probe a p w; Connections.spawn_tunnel := spawn_tunnel a r |}
      r.(target_host) r.(target_port) r.(config) r.(secrets) w.(table) in
  ∃ w', run_alone exec (replicate 7 a) (Resolving r Start) w = (w', inr (Answered r out)) ∧ w'.(table) = t ∧
    (w'.(bound) = w.(bound) ∧ w'.(listening) = w.(listening) ∨
     ∃ p c, out = Ok ("127.0.0.1", p) ∧ spawn_tunnel a r = Ok p ∧ w'.(listening) = <[p := Accepting (forward_of r c) true]> w.(listening)).
Proof.
  assert (Hnew : ∀ n o, o = run_alone exec (replicate (5 + n) a) (Resolving r Connecting) (with_table (delete (request_key r)) w) →
    let '(out, t) := match spawn_tunnel a r with
                     | Ok p => (Ok ("127.0.0.1", p), <[request_key r := p]> (delete (request_key r) w.(table)))
                     | Err e => (Err e, delete (request_key r) w.(table)) end in
    ∃ w', o = (w', inr (Answered r out)) ∧ w'.(table) = t ∧
      (w'.(bound) = w.(bound) ∧ w'.(listening) = w.(listening) ∨
       ∃ p c, out = Ok ("127.0.0.1", p) ∧ spawn_tunnel a r = Ok p ∧ w'.(listening) = <[p := Accepting (forward_of r c) true]> w.(listening))).
  { intros n o ->. destruct (connecting_turns a n r w (with_table (delete (request_key r)) w) eq_refl eq_refl) as (w' & Hr & Ht & Hb).
    destruct (spawn_tunnel a r) as [q|e]; (exists w'; split_and!; [exact Hr|exact Ht|]); destruct Hb as [|(q' & c & Hq & ?)]; auto; [|done].
    right. injection Hq as ->. by exists q', c. }
  unfold Connections.resolve. fold (request_key r). cbn [Connections.probe Connections.spawn_tunnel].
  destruct (table w !! request_key r) as [p|] eqn:Et.
  - destruct (probe a p w) eqn:Ep.
    + exists w. rewrite one_turn. cbn [resolve_step]. rewrite Et, one_turn. cbn [resolve_step]. rewrite Ep. split_and!; [done|done|by left].
    + apply (Hnew 0). rewrite one_turn. cbn [resolve_step]. rewrite Et, one_turn. cbn [resolve_step]. by rewrite Ep.
  - apply (Hnew 1). rewrite one_turn. cbn [resolve_step]. by rewrite Et.
Qed.

(** ** Where tunnels lead *)

(** The tunnel a request asks for: to the server and the target it names (their ports cut
    to 16 and 32 bits), as its user, with its secret. *)
Definition asked_for (r : Request) (f : Forward) : Prop :=
  f.(server) = (r.(config).(ssh_host), r.(config).(ssh_port) mod 2 ^ 16)%Z ∧ f.(user) = r.(config).(ssh_username) ∧
  f.(pump) = (r.(target_host), r.(target_port) mod 2 ^ 32)%Z ∧
  match f.(credential) with
  | Password p => r.(config).(ssh_auth_mode) = "password" ∧ p = r.(secrets).(s_password)
  | PrivateKey k _ => r.(config).(ssh_auth_mode) = "privateKey" ∧
      decode_secret_key r.(secrets).(s_private_key) (secrets_passphrase r.(secrets)) = Ok k
  end.
(** The texts of a request have no bar. *)
Definition plain (r : Request) : Prop :=
  Forall (λ x, no_char "|" x = true) [r.(config).(ssh_host); r.(config).(ssh_username); r.(config).(ssh_auth_mode);
    r.(secrets).(s_password); r.(secrets).(s_private_key); r.(secrets).(s_passphrase); r.(target_host)].
Lemma no_bar_z z : no_char "|" (z_string z) = true.
Proof. by apply z_string_no_char. Qed.
Lemma plain_canonical r r' : plain r → plain r' →
  tunnel_canonical r.(target_host) r.(target_port) r.(config) r.(secrets) =
  tunnel_canonical r'.(target_host) r'.(target_port) r'.(config) r'.(secrets) → r = r'.
Proof.
  intros Hr Hr' E. unfold plain in *. rewrite !Forall_cons in Hr, Hr'.
  assert (E2 : split_on "|" (tunnel_canonical r.(target_host) r.(target_port) r.(config) r.(secrets)) =
    split_on "|" (tunnel_canonical r'.(target_host) r'.(target_port) r'.(config) r'.(secrets))) by (by rewrite E).
  unfold tunnel_canonical in E2. rewrite !split_on_join in E2; [|done|repeat constructor; auto using no_bar_z; tauto..|done|repeat constructor; auto using no_bar_z; tauto].
  destruct r as [h p [ch cp cu cm] [sp sk sh]], r' as [h' p' [ch' cp' cu' cm'] [sp' sk' sh']]. cbn in *.
  injection E2 as -> Ecp%z_string_inj -> -> -> -> -> -> Ep%z_string_inj. by subst.
Qed.

(** What is asked: requests whose texts have no bar and whose keys do not collide. *)
Context (known : Request → Prop) (known_plain : ∀ r, known r → plain r).
Context (no_collision : ∀ r r', known r → known r' → request_key r = request_key r' →
  tunnel_canonical r.(target_host) r.(target_port) r.(config) r.(secrets) = tunnel_canonical r'.(target_host) r'.(target_port) r'.(config) r'.(secrets)).
(** Only what is known is asked, and a client dials the port it was given. *)
Definition may_request (w : World) (rs : list Reply) (q : Proc) : Prop :=
  match q with
  | Resolving r ph => known r ∧ ph = Start
  | Dialling r p => Answered r (Ok ("127.0.0.1", p)) ∈ rs
  | _ => True
  end.
(** The operating system gives out only a local port that nobody listens on. *)
Definition free_port (w : World) (a : Answer) : Prop := match a.(binds) with Ok p => w.(listening) !! p = None | Err _ => True end.

Definition leads (w : World) (r : Request) (p : Z) : Prop := ∃ f, (p, f) ∈ w.(bound) ∧ asked_for r f.
Definition led (r : Request) (out : Where) : Prop :=
  match out with Reached target f => target = f.(pump) ∧ asked_for r f | Elsewhere | Refused => False | Closed => True end.
Definition reply_ok (w : World) (o : Reply) : Prop :=
  match o with
  | Answered r (Ok (h, p)) => h = "127.0.0.1" ∧ leads w r p
  | Dialled r p out => p ∈ w.(ended) ∨ led r out
  | _ => True
  end.
(** Who accepts on a port was bound there, and is there until its loop ends. *)
Definition ports_ok (w : World) : Prop := ∀ p f, (p, f) ∈ w.(bound) → p ∈ w.(ended) ∨ ∃ alive, w.(listening) !! p = Some (Accepting f alive).
Definition sound (w : World) (rs : list Reply) : Prop :=
  ports_ok w ∧ (∀ r p, known r → w.(table) !! request_key r = Some p → leads w r p) ∧ Forall (reply_ok w) rs.
Definition credential_of (r : Request) (c : Credential) : Prop :=
  match c with
  | Password p => r.(config).(ssh_auth_mode) = "password" ∧ p = r.(secrets).(s_password)
  | PrivateKey k _ => r.(config).(ssh_auth_mode) = "privateKey" ∧
      decode_secret_key r.(secrets).(s_private_key) (secrets_passphrase r.(secrets)) = Ok k
  end.
Definition at_work (q : Proc) (w : World) (rs : list Reply) : Prop :=
  match q with
  | Resolving r ph => known r ∧
      match ph with
      | Start | Connecting => True
      | Probing p => leads w r p
      | AskingHash k => credential_of r (PrivateKey k None)
      | Authenticating c | OpeningProbe c | Listening c => credential_of r c
      end
  | Dialling r p => leads w r p
  | _ => True
  end.
Definition grows (w w' : World) : Prop := (∀ e, e ∈ w.(bound) → e ∈ w'.(bound)) ∧ ∀ p, p ∈ w.(ended) → p ∈ w'.(ended).
Lemma tunnels_grow_refl w : grows w w.
Proof. by split. Qed.
Lemma leads_grow w w' r p : grows w w' → leads w r p → leads w' r p.
Proof. intros [Hg _] (f & Hf & Ha). exists f. auto. Qed.
Lemma replies_grow w w' rs : grows w w' → Forall (reply_ok w) rs → Forall (reply_ok w') rs.
Proof.
  intros Hg Hrs. eapply Forall_impl; [exact Hrs|]. intros [r [[h p]|e]|r p x|]; cbn; try done.
  - intros [-> Hl]. split; [done|]. by eapply leads_grow.
  - intros [He|Hl]; [left; by apply Hg|by right].
Qed.
Lemma work_grows w w' rs rs' q : grows w w' → at_work q w rs → at_work q w' rs'.
Proof. intros Hg. destruct q as [r []| | | | |]; cbn; try done; [intros [? ?]; split; [done|]|]; by eapply leads_grow. Qed.
(** A change that keeps who listens where it was bound. *)
Lemma grown_sound w w' rs : grows w w' → ports_ok w' → w'.(table) = w.(table) → sound w rs → sound w' rs.
Proof.
  intros Hg Hp Et (_ & Ht & Hr). split_and!; [done| |by eapply replies_grow].
  intros r p Hk. rewrite Et. intros H. eapply leads_grow; [done|by apply Ht].
Qed.
Lemma bind_sound p f w rs : w.(listening) !! p = None → sound w rs → sound (bind_port p f w) rs ∧ grows w (bind_port p f w).
Proof.
  intros Hp Hs. assert (Hg : grows w (bind_port p f w)) by (split; [intros e; by right|done]). split; [|done].
  apply (grown_sound w); [done| |done|done]. destruct Hs as (Hl & _). intros q g [[= -> ->]|Hq]%elem_of_cons; cbn.
  - right. exists true. apply lookup_insert_eq.
  - destruct (Hl q g Hq) as [He|(alive & Ha)]; [by left|]. right. exists alive. rewrite lookup_insert_ne; [done|]. intros ->. congruence.
Qed.
Lemma listening_sound f w rs : sound w rs →
  (∀ p g alive, w.(listening) !! p = Some (Accepting g alive) → ∃ alive, f w.(listening) !! p = Some (Accepting g alive)) →
  sound (with_listening f w) rs.
Proof.
  intros Hs Hf. apply (grown_sound w); [done| |done|done]. destruct Hs as (Hl & _). intros p g Hq.
  destruct (Hl p g Hq) as [He|(alive & Ha)]; [by left|right]. by eapply Hf.
Qed.
Lemma end_loop_sound p w rs : sound w rs → sound (end_loop p w) rs ∧ grows w (end_loop p w).
Proof.
  intros Hs. unfold end_loop. destruct (w.(listening) !! p) as [[g alive|]|] eqn:Ep; [|by split; [|apply tunnels_grow_refl]..].
  set (w' := {| table := _ |}). assert (Hg : grows w w') by (split; [done|intros q; by right]). split; [|done].
  apply (grown_sound w); [done| |done|done]. destruct Hs as (Hl & _). intros q h Hq. cbn in Hq |- *.
  destruct (decide (q = p)) as [->|Hne]; [left; by left|]. destruct (Hl q h Hq) as [He|(b & Ha)]; [left; by right|right; exists b; by rewrite lookup_delete_ne].
Qed.
Lemma table_sound f w rs : (∀ r p, known r → f w.(table) !! request_key r = Some p → leads w r p) → sound w rs → sound (with_table f w) rs.
Proof. intros Hf (Hl & Ht & Hr). by split_and!. Qed.
Lemma forget_sound r w rs : sound w rs → sound (with_table (delete (request_key r)) w) rs.
Proof.
  intros Hs. pose proof Hs as (_ & Ht & _). apply table_sound; [|done]. intros r' p Hk [_ Hp]%lookup_delete_Some. by apply Ht.
Qed.
Lemma reply_sound o w rs : sound w rs → reply_ok w o → sound w (o :: rs).
Proof. intros (Hl & Ht & Hr) Ho. split_and!; [done..|]. by constructor. Qed.
Lemma asked_forward r c : credential_of r c → asked_for r (forward_of r c).
Proof. intros Hc. split_and!; [done..|]. by destruct c. Qed.

(** A turn of a call keeps what holds. *)
Lemma resolve_sound a r ph w rs : sound w rs → at_work (Resolving r ph) w rs → free_port w a →
  match resolve_step a r ph w with
  | (w', inl ph') => sound w' rs ∧ at_work (Resolving r ph') w' rs ∧ grows w w'
  | (w', inr out) => sound w' (Answered r out :: rs) ∧ grows w w'
  end.
Proof.
  intros Hs [Hk Hw] Hf. pose proof Hs as (_ & Ht & _).
  assert (Hid : grows w w) by apply tunnels_grow_refl. assert (Herr : ∀ w' e, sound w' rs → sound w' (Answered r (Err e) :: rs)) by (intros; by apply reply_sound).
  destruct ph as [|p| |k|c|c|c]; cbn [resolve_step]; cbn in Hw.
  - destruct (table w !! request_key r) as [p|] eqn:Et; split_and!; try done; [cbn; auto|by apply forget_sound].
  - destruct (probe a p w); [split; [by apply reply_sound|done]|]. split_and!; [by apply forget_sound|done|done].
  - cbn [check_server_key]. set (w1 := log_fingerprint _ w). assert (Hs1 : sound w1 rs) by exact Hs.
    destruct (a.(connects) true) as [[]|e]; [|split; [by apply Herr|done]].
    unfold authenticate. repeat case_decide; [by split_and!| |split; [by apply Herr|done]].
    destruct (decode_secret_key _ _) as [k|e] eqn:Ed; [|split; [by apply Herr|done]]. by split_and!.
  - by split_and!.
  - destruct a.(authenticates) as [[|]|e]; [by split_and!|by split; [apply Herr|]..].
  - destruct a.(opens) as [[]|e]; [by split_and!|by split; [apply Herr|]].
  - unfold free_port in Hf. destruct a.(binds) as [p|e]; [|by split; [apply Herr|]].
    destruct (bind_sound p (forward_of r c) w rs Hf Hs) as [Hb Hg].
    assert (Hl : leads (bind_port p (forward_of r c) w) r p) by (exists (forward_of r c); split; [left|by apply asked_forward]).
    split; [|exact Hg]. apply reply_sound; [|done]. apply table_sound; [|done].
    intros r' q Hk' [[Ekey ->]|[_ Hq]]%lookup_insert_Some.
    + rewrite <- (plain_canonical r r') by auto. exact Hl.
    + eapply leads_grow; [done|by apply Ht].
Qed.
Lemma dial_ok a r p w rs : sound w rs → leads w r p → reply_ok w (Dialled r p (accept_one a p w)).
Proof.
  intros (Hl & _) (f & Hf & Ha). cbn. destruct (Hl p f Hf) as [He|(alive & El)]; [by left|right].
  unfold accept_one. rewrite El. by case_match.
Qed.

(** C13.  However requests interleave and whatever sessions die, loops end and other
    programs take ports or leave them, as long as the operating system gives out only
    ports that nobody listens on: a client that dials the port it was given reaches the
    target its request named, through a session to the server it named, opened as its user
    with its secret; or it is closed at once, when that session has died or the target
    cannot be reached; unless an accept loop on that port has ended.  Then the port may
    have been given out again (Example port_of_another_tunnel).  For requests without bars
    in their texts, whose keys, hashes of these texts, do not collide. *)
Theorem tunnels_lead_where_asked s : reachable exec may_request free_port initial s →
  ∀ r p out, Dialled r p out ∈ s.(replies) → p ∉ s.(db).(ended) →
  match out with
  | Reached target f => target = (r.(target_host), r.(target_port) mod 2 ^ 32)%Z ∧ asked_for r f
  | Closed => True
  | Elsewhere | Refused => False
  end.
Proof.
  intros Hs r p out Hd Hp.
  assert (Hh : holds sound at_work (λ _ _, True) s).
  { eapply (invariant exec may_request free_port sound at_work (λ _ _, True)); [done| | |  |exact Hs].
    - intros w rs q (_ & _ & Hr) Hq. split; [|done]. destruct q as [r' ph|r' p'| | | |]; try done; cbn in Hq.
      + by destruct Hq as [? ->].
      + rewrite Forall_forall in Hr. by destruct (Hr _ Hq) as [_ ?].
    - intros w rs a q HI HL Ha. assert (Hk : ∀ w', sound w' rs ∧ grows w w' → sound w' (Happened :: rs) ∧
        (∀ q', at_work q' w rs → True → at_work q' w' (Happened :: rs) ∧ True)).
      { intros w' [H1 Hg]. split; [by apply reply_sound|]. intros q' Hq' _. split; [by eapply work_grows|done]. }
      destruct q as [r' ph|r' p'|p'|p'| |p']; cbn [exec].
      + pose proof (resolve_sound a r' ph w rs HI HL Ha) as H. destruct (resolve_step a r' ph w) as [w' [ph'|out']].
        * destruct H as (H1 & H2 & Hg). split_and!; [done|done|]. intros q Hq _. split; [by eapply work_grows|done].
        * destruct H as (H1 & Hg). split; [done|]. intros q Hq _. by eapply work_grows.
      + split; [apply reply_sound; [done|by apply (dial_ok a r' p' w rs)]|]. intros q Hq _. eapply work_grows; [apply tunnels_grow_refl|exact Hq].
      + edestruct Hk as [H1 H2]; [split; [|]|split; [exact H1|intros q Hq _; by apply H2]]; [|done].
        apply listening_sound; [done|]. intros q g alive Hq.
        destruct (decide (q = p')) as [->|Hne]; [exists false; by rewrite lookup_alter_eq, Hq|exists alive; by rewrite lookup_alter_ne].
      + edestruct Hk as [H1 H2]; [by apply (end_loop_sound p')|split; [exact H1|intros q Hq _; by apply H2]].
      + unfold free_port in Ha. destruct a.(binds) as [p'|e].
        * edestruct Hk as [H1 H2]; [split; [|]|split; [exact H1|intros q Hq _; by apply H2]]; [|done].
          apply listening_sound; [done|]. intros q g alive Hq. exists alive. rewrite lookup_insert_ne; [done|]. intros ->. congruence.
        * edestruct Hk as [H1 H2]; [split; [exact HI|apply tunnels_grow_refl]|split; [exact H1|intros q Hq _; by apply H2]].
      + edestruct Hk as [H1 H2]; [split; [|]|split; [exact H1|intros q Hq _; by apply H2]]; [|done].
        apply listening_sound; [done|]. intros q g alive Hq. exists alive. unfold leave.
        destruct (w.(listening) !! p') as [[]|] eqn:Ep; [done| |done]. rewrite lookup_delete_ne; [done|]. intros ->. congruence.
    - split_and!; [|done|constructor]. intros q g Hq. by apply elem_of_nil in Hq. }
  destruct Hh as ((_ & _ & Hr) & _). rewrite Forall_forall in Hr. destruct (Hr _ Hd) as [He|Hl]; [done|]. destruct out; try done.
  destruct Hl as [-> Ha]. split; [by destruct Ha as (_ & _ & -> & _)|done].
Qed.
End Tunnel.

(** ** Tunnels that lose their session, and ports that come back *)

Notation ex_exec := (exec string (λ k _, Ok k) (λ s, s) (λ s, s) (λ s, s)).
Definition ex_answer (p : Z) : Answer :=
  {| in_time := true; server_key := PublicKey "K"; connects := λ ok, if ok then Ok tt else Err "Unknown server key"; rsa_hash := None;
     authenticates := Ok true; opens := Ok tt; binds := Ok p |}.
Definition ex_request (h : string) : Request :=
  {| target_host := h; target_port := 3306; config := Connections.ex_params.(params_config); secrets := Connections.ex_params.(params_secrets) |}.
Definition ex_forward (h : string) : Forward string :=
  {| server := ("jump", 2222%Z); user := "deploy"; credential := Password string "s3"; pump := (h, 3306%Z) |}.
Definition ex_opened : System (World string) (Proc string) (Reply string) := Eval vm_compute in
  default (boot (initial string)) (run_schedule ex_exec (replicate 5 (0, ex_answer 40001))
    {| db := initial string; procs := [Resolving string (ex_request "db") (Start string)]; replies := [] |}).
Definition ex_dialled : System (World string) (Proc string) (Reply string) := Eval vm_compute in
  default (boot (initial string)) (run_schedule ex_exec [(0, ex_answer 40002)]
    {| db := ex_opened.(db); procs := [Dialling string (ex_request "db") 40001]; replies := ex_opened.(replies) |}).
Lemma ex_dials may : may (initial string) [] (Resolving string (ex_request "db") (Start string)) →
  may ex_opened.(db) ex_opened.(replies) (Dialling string (ex_request "db") 40001) →
  reachable ex_exec may (free_port string) (initial string) ex_dialled.
Proof.
  intros H1 H2. unfold reachable. etransitivity; [apply (request_steps _ _ _ (boot (initial string)) _ H1)|].
  etransitivity. { apply (run_schedule_steps _ _ _ (replicate 5 (0, ex_answer 40001)) _ ex_opened); [by vm_compute|].
    by repeat split. }
  etransitivity; [apply (request_steps _ _ _ ex_opened _ H2)|].
  apply (run_schedule_steps _ _ _ [(0, ex_answer 40002)]); [by vm_compute|]. by repeat split.
Qed.
Lemma tunnels_lead_where_asked_witness :
  Dialled string (ex_request "db") 40001 (Reached string ("db", 3306%Z) (ex_forward "db")) ∈ ex_dialled.(replies) ∧
  asked_for string (λ k _, Ok k) (ex_request "db") (ex_forward "db").
Proof.
  assert (Hd : Dialled string (ex_request "db") 40001 (Reached string ("db", 3306%Z) (ex_forward "db")) ∈ ex_dialled.(replies)) by left.
  split; [exact Hd|].
  refine (proj2 (tunnels_lead_where_asked string (λ k _, Ok k) (λ s, s) (λ s, s) (λ s, s) (λ r, r = ex_request "db") _ _ ex_dialled _ (ex_request "db") 40001%Z
    (Reached string ("db", 3306%Z) (ex_forward "db")) Hd _)).
  - intros r ->. by repeat constructor.
  - by intros r r' -> ->.
  - apply ex_dials; [done|]. cbn. by left.
  - by apply not_elem_of_nil.
Defined.

(** One process after the other. *)
Fixpoint one_by_one (l : list (Proc string * Z)) (w : World string) : World string * list (Reply string) :=
  match l with
  | [] => (w, [])
  | (q, p) :: l => match run_alone ex_exec (replicate 7 (ex_answer p)) q w with
                   | (w', inr o) => let '(w'', os) := one_by_one l w' in (w'', o :: os)
                   | (w', inl _) => (w', [])
                   end
  end.
Notation asks h := (Resolving string (ex_request h) (Start string)).
Notation dials h p := (Dialling string (ex_request h) p).
(** The session of a tunnel dies: its accept loop goes on, so the probe of the port
    succeeds, every later request is given the dead tunnel, and every client is closed. *)
Example dead_session_is_kept :
  (one_by_one [(asks "db", 40001%Z); (SessionDies string 40001, 0%Z); (asks "db", 40002%Z); (dials "db" 40001, 0%Z); (asks "db", 40003%Z); (dials "db" 40001, 0%Z)]
     (initial string)).2 =
  [Answered string (ex_request "db") (Ok ("127.0.0.1", 40001%Z)); Happened string; Answered string (ex_request "db") (Ok ("127.0.0.1", 40001%Z));
   Dialled string (ex_request "db") 40001 (Closed string); Answered string (ex_request "db") (Ok ("127.0.0.1", 40001%Z));
   Dialled string (ex_request "db") 40001 (Closed string)].
Proof. by vm_compute. Qed.
(** A port given out again, to the tunnel of another target: the probe is content with
    whoever listens, and the client reaches the other database. *)
Example port_of_another_tunnel :
  last (one_by_one [(asks "db", 40001%Z); (LoopEnds string 40001, 0%Z); (asks "other", 40001%Z); (asks "db", 40002%Z); (dials "db" 40001, 0%Z)]
     (initial string)).2 =
  Some (Dialled string (ex_request "db") 40001 (Reached string ("other", 3306%Z) (ex_forward "other"))).
Proof. by vm_compute. Qed.
(** A port beyond 16 bits is accepted with the settings and another port is dialled. *)
Example ssh_port_cut : as_u16 65558 = 22%Z ∧
  is_ok (validate {| w_host := "jump"; w_port := 65558; w_username := "u"; w_auth_mode := "password"; w_password := Some "s"; w_private_key := None; w_passphrase := None |}) = true.
Proof. by vm_compute. Qed.
(** Any key of a server is accepted, each time. *)
Lemma any_server_key sha b k : (check_server_key sha b k).2 = true.
Proof. by destruct k. Qed.
