(* ===== verification/DraftTest.v ===== *)
(** * Testing a connection before it is saved
    (crates/automation/src/connect_error.rs, [test_draft_connection] of
    db_handler.rs)

    What kinds of driver failure the classifier tells apart, the stable code each
    gets, the redaction of messages, and the test of a draft: its tunnel, the
    channel that tries it, and the answer.  The drivers' outcomes are parameters. *)

From S2P Require Import Prelude RustStr Json Credential DbFamily TdengineLeg Connections.
From stdpp Require Import strings gmap.

(** ** Codes *)

Definition AUTH_DENIED : string := "AUTH_DENIED".
Definition UNREACHABLE : string := "UNREACHABLE".
Definition TIMEOUT : string := "TIMEOUT".
Definition DB_ERROR : string := "DB_ERROR".
Definition SSL_HANDSHAKE : string := "SSL_HANDSHAKE".
Record DraftTestError := { code : string; message : string }.

(** The kinds of [std::io::Error] the classifier names. *)
Inductive IoKind : Type :=
| ConnectionRefused | ConnectionReset | ConnectionAborted | NetworkUnreachable | NetworkDown
| HostUnreachable | KindNotFound | TimedOut | OtherKind.

(** What it looks at in an error of each driver. *)
Inductive DriverError : Type :=
| SqlxDatabase (code : option string) | SqlxIo (k : IoKind) (msg : string) | SqlxPoolTimedOut | SqlxOther
| TdsIo (k : IoKind) (msg : string) | TdsServer (code : Z) | TdsOther
| MongoAuthentication | MongoCommand (code : Z) | MongoIo | MongoDnsResolve | MongoServerSelection | MongoOther
| RedisFailure (timeout auth_failed : bool) (code : option string) (refused io : bool)
| StdIo (k : IoKind) (msg : string) | Unknown.

Definition classify_io_parts (kind : IoKind) (msg : string) : string :=
  match kind with
  | ConnectionRefused | ConnectionReset | ConnectionAborted | NetworkUnreachable | NetworkDown
  | HostUnreachable | KindNotFound => UNREACHABLE
  | TimedOut => TIMEOUT
  | OtherKind =>
      if contains "failed to lookup address information" msg then UNREACHABLE
      else if contains "invalid peer certificate" msg then SSL_HANDSHAKE else DB_ERROR
  end.
Definition classify_db_code (c : option string) : string :=
  match c with
  | Some c => if decide (c = "1045") then AUTH_DENIED
              else if (String.length c =? 5) && starts_with "28" c then AUTH_DENIED else DB_ERROR
  | None => DB_ERROR
  end.
Definition classify_driver_error (e : DriverError) : string :=
  match e with
  | SqlxDatabase c => classify_db_code c
  | SqlxIo k m | TdsIo k m | StdIo k m => classify_io_parts k m
  | SqlxPoolTimedOut => TIMEOUT
  | TdsServer c => if decide (c = 18456 ∨ c = 18452)%Z then AUTH_DENIED else DB_ERROR
  | MongoAuthentication => AUTH_DENIED
  | MongoCommand c => if decide (c = 18)%Z then AUTH_DENIED else DB_ERROR
  | MongoIo | MongoDnsResolve | MongoServerSelection => UNREACHABLE
  | RedisFailure timeout auth_failed c refused io =>
      if timeout then TIMEOUT
      else if auth_failed || bool_decide (c = Some "WRONGPASS" ∨ c = Some "NOAUTH") then AUTH_DENIED
      else if refused || io then UNREACHABLE else DB_ERROR
  | SqlxOther | TdsOther | MongoOther | Unknown => DB_ERROR
  end.

(** ** Messages *)

Definition redact (s : string) : string :=
  if contains "connect" s || contains "Connection" s then "database connection failed"
  else if contains "file_path" s || contains "config" s then take_chars 200 s
  else "query execution failed".

(** A failure and its display. *)
Record Failure := { cause : DriverError; shown : string }.
Definition draft_failure (e : Failure) : DraftTestError :=
  {| code := classify_driver_error e.(cause); message := redact e.(shown) |}.
Definition tdengine_failure (e : TdError) : DraftTestError :=
  {| code := match e with Auth => AUTH_DENIED | Transport => UNREACHABLE | Http _ _ | Engine _ _ => DB_ERROR end;
     message := redact match e with
       | Auth => "authentication failed" | Transport => "connection failed"
       | Http status body => "HTTP " +:+ z_string status +:+ ": " +:+ body
       | Engine c desc => "engine error " +:+ z_string c +:+ ": " +:+ desc
       end |}.
Definition non_empty_version (v : string) : option string := if is_empty v then None else Some v.

(** ** The test *)

Record DraftConnection := {
  d_db_type : string; d_host : string; d_port : Z; d_username : string; d_password : string;
  d_default_database : option string; d_file_path : option string; d_extra : option string;
  d_ssh : option SshTunnelParams }.
(** Its projection; the columns a draft does not have are blank. *)
Definition draft_row (d : DraftConnection) : Connection :=
  {| name := ""; db_type := d.(d_db_type); host := d.(d_host); port := d.(d_port); username := d.(d_username);
     password_encrypted := ""; default_database := d.(d_default_database); created_by := ""; created_at := "";
     kind := ""; file_path := d.(d_file_path); charset := None; timezone := None; read_only := false;
     extra := d.(d_extra); ssh_secret_encrypted := None |}.

(** The functions [test_mysql] … [test_tdengine], each on a row and a password. *)
Inductive Tester : Type := TestMysql | TestPg | TestSqlite | TestSqlserver | TestMongo | TestRedis | TestTdengine.
Definition tester_for (db_type : string) : result DraftTestError Tester :=
  let t := to_ascii_lowercase db_type in
  if bool_decide (is_Some (mysql_family_for t)) then Ok TestMysql
  else if decide (t = "postgres" ∨ t = "postgresql" ∨ t = "pg") then Ok TestPg
  else if decide (t = "sqlite") then Ok TestSqlite
  else if decide (t = "sqlserver" ∨ t = "mssql") then Ok TestSqlserver
  else if decide (t = "clickhouse") then Ok TestMysql
  else if decide (t = "mongodb" ∨ t = "mongo") then Ok TestMongo
  else if decide (t = "redis") then Ok TestRedis
  else if decide (t = "tdengine") then Ok TestTdengine
  else Err {| code := DB_ERROR; message := "unsupported db_type: " +:+ t |}.

Section DraftTest.
Context `{Printer, Reader} (sha256_hex : string → string).
Context (attempt : Tester → Connection → string → result (TdError + Failure) unit).
Context (version_string : Connection → string → string).

(** The row to dial: the draft's own, or the local end of its tunnel. *)
Definition draft_target (a : TunnelAnswer) (d : DraftConnection) (t : Tunnels) : result DraftTestError Connection * Tunnels :=
  let row := draft_row d in
  match d.(d_ssh) with
  | Some p =>
      if decide (to_ascii_lowercase d.(d_db_type) = "sqlite") then (Ok row, t)
      else match apply_tunnel sha256_hex a row.(host) row.(port) row.(extra) p.(params_config) p.(params_secrets) t with
           | (Ok (h, p, e), t) => (Ok (reroute h p e row), t)
           | (Err _, t) => (Err {| code := UNREACHABLE; message := "ssh tunnel setup failed" |}, t)
           end
  | None => (Ok row, t)
  end.
Definition test_draft_connection (a : TunnelAnswer) (d : DraftConnection) (t : Tunnels)
    : result DraftTestError (option string) * Tunnels :=
  let '(target, t) := draft_target a d t in
  (row ← target; tester ← tester_for d.(d_db_type);
   match attempt tester row d.(d_password) with
   | Ok _ => Ok (non_empty_version (version_string row d.(d_password)))
   | Err (inl e) => Err (tdengine_failure e)
   | Err (inr e) => Err (draft_failure e)
   end, t).
End DraftTest.

(** ** What a failed test says *)

Definition CODES : list string := [AUTH_DENIED; UNREACHABLE; TIMEOUT; DB_ERROR; SSL_HANDSHAKE].

Lemma classify_in_codes e : classify_driver_error e ∈ CODES.
Proof.
  assert (Hio : ∀ k m, classify_io_parts k m ∈ CODES).
  { intros k m. unfold classify_io_parts. destruct k; try (by apply (bool_decide_unpack _)).
    destruct (contains _ m); [by apply (bool_decide_unpack _)|].
    destruct (contains _ m); by apply (bool_decide_unpack _). }
  destruct e as [[c|]|k m| | |k m|c| | |c| | | | |timeout af c refused io|k m|]; cbn [classify_driver_error classify_db_code];
    try apply Hio; repeat case_decide; repeat (match goal with |- context [if ?b then _ else _] => destruct b end);
    by apply (bool_decide_unpack _).
Qed.

(** A refused credential is told apart from an unreachable host, whichever driver
    reports it. *)
Definition credential_refused (e : DriverError) : Prop :=
  match e with
  | SqlxDatabase (Some c) => c = "1045" ∨ String.length c = 5 ∧ starts_with "28" c = true
  | TdsServer c => c = 18456%Z ∨ c = 18452%Z
  | MongoAuthentication => True
  | MongoCommand c => c = 18%Z
  | RedisFailure timeout auth_failed c _ _ => timeout = false ∧ (auth_failed = true ∨ c = Some "WRONGPASS" ∨ c = Some "NOAUTH")
  | _ => False
  end.

Lemma auth_denied_iff e : classify_driver_error e = AUTH_DENIED ↔ credential_refused e.
Proof.
  assert (Hio : ∀ k m, classify_io_parts k m ≠ AUTH_DENIED).
  { intros k m. unfold classify_io_parts. destruct k; try done. by repeat (destruct (contains _ m)). }
  destruct e as [[c|]|k m| | |k m|c| | |c| | | | |timeout af c refused io|k m|];
    cbn [classify_driver_error classify_db_code credential_refused]; try done;
    try (split; [intros E; by apply Hio in E|done]).
  - case_decide; [naive_solver|]. destruct (String.length c =? 5) eqn:E1, (starts_with "28" c) eqn:E2; cbn [andb];
      rewrite ?Nat.eqb_eq, ?Nat.eqb_neq in E1; naive_solver.
  - case_decide; naive_solver.
  - case_decide; naive_solver.
  - destruct timeout, af; cbn [orb]; [naive_solver..|]. case_bool_decide; [naive_solver|].
    destruct (refused || io); naive_solver.
Qed.

(** ** The answer of a failed test *)

(** What may leave the server in a message. *)
Definition fixed_message (m : string) : Prop :=
  m ∈ ["database connection failed"; "query execution failed"; "ssh tunnel setup failed"] ∨
  (∃ t, m = "unsupported db_type: " +:+ t) ∨
  (∃ s, m = take_chars 200 s ∧ (contains "file_path" s || contains "config" s) = true).

Lemma redact_fixed s : fixed_message (redact s).
Proof.
  unfold redact. destruct (_ || _); [left; by apply (bool_decide_unpack _)|].
  destruct (contains "file_path" s || _) eqn:E; [right; right; by exists s|left; by apply (bool_decide_unpack _)].
Qed.

(** A draft's failed test carries one of the five stable codes; it says the
    credentials were refused exactly when the driver that was tried, on the row to
    dial, reported a refusal; and its message is one of the fixed texts, unless
    the failure itself speaks of a file path or a configuration. *)
Theorem draft_failure_told `{Printer, Reader} sha attempt version a d t e :
  fst (test_draft_connection sha attempt version a d t) = Err e →
  e.(code) ∈ CODES ∧ fixed_message e.(message) ∧
  (e.(code) = AUTH_DENIED ↔ ∃ row tester f, fst (draft_target sha a d t) = Ok row ∧ tester_for d.(d_db_type) = Ok tester ∧
     attempt tester row d.(d_password) = Err f ∧
     match f with inl e => e = Auth | inr f => credential_refused f.(cause) end).
Proof.
  unfold test_draft_connection. destruct (draft_target sha a d t) as [[row|e0] t1] eqn:Et; cbn [fst mbind result_mbind].
  2:{ intros [= ->]. assert (e = {| code := UNREACHABLE; message := "ssh tunnel setup failed" |}) as ->.
      { revert Et. unfold draft_target. destruct d.(d_ssh) as [p|]; [|done]. case_decide; [done|].
        destruct (apply_tunnel _ _ _ _ _ _ _ _) as [[[[h q] x]|x] t2]; [done|]. by intros [= <-]. }
      split_and!; [by apply (bool_decide_unpack _)|left; by apply (bool_decide_unpack _)|]. split; [discriminate|by intros (? & ? & ? & ? & _)]. }
  destruct (tester_for d.(d_db_type)) as [tester|e0] eqn:Er; cbn [mbind result_mbind].
  2:{ intros [= ->]. revert Er. unfold tester_for. destruct (bool_decide _); [done|]. repeat (case_decide; [done|]).
      intros [= <-]. split_and!; [by apply (bool_decide_unpack _)|right; left; by eexists|]. split; [discriminate|by intros (? & ? & ? & _ & ? & _)]. }
  destruct (attempt tester row d.(d_password)) as [[]|[f|f]] eqn:Ea; [done| |]; intros [= <-].
  - split_and!; [destruct f; by apply (bool_decide_unpack _)|apply redact_fixed|].
    split; [intros Hc; exists row, tester, (inl f); split_and!; [done..|by destruct f]|].
    intros (row' & tester' & f' & [= <-] & [= <-] & Hf & Hr). rewrite Ea in Hf. injection Hf as <-. by subst f.
  - split_and!; [apply classify_in_codes|apply redact_fixed|]. cbn [code draft_failure]. rewrite auth_denied_iff.
    split; [intros Hc; by exists row, tester, (inr f)|].
    intros (row' & tester' & f' & [= <-] & [= <-] & Hf & Hr). rewrite Ea in Hf. by injection Hf as <-.
Qed.

(** The family a draft is tested as is the one it will be used as. *)
Definition tester_of (f : Family) : Tester :=
  match f with
  | MySql _ | Clickhouse => TestMysql | Postgres => TestPg | Sqlite => TestSqlite | SqlServer => TestSqlserver
  | Mongo => TestMongo | Redis => TestRedis | Tdengine => TestTdengine
  end.

Lemma tester_agrees db_type :
  match tester_for db_type, family_for db_type with
  | Ok x, Ok f => x = tester_of f
  | Err _, Err _ => True
  | _, _ => False
  end.
Proof.
  assert (Hm : mysql_family_for (to_ascii_lowercase db_type) = mysql_family_for db_type).
  { unfold mysql_family_for. by rewrite to_ascii_lowercase_idem. }
  unfold tester_for, family_for. cbv zeta. rewrite Hm. destruct (mysql_family_for db_type) as [p|]; [done|].
  rewrite bool_decide_eq_false_2 by (intros [? [=]]). repeat case_decide; first [done|exfalso; destruct_or?; congruence].
Qed.

(** ** Runs *)

Definition ex_draft : DraftConnection :=
  {| d_db_type := "postgres"; d_host := "h"; d_port := 5432; d_username := "u"; d_password := "p";
     d_default_database := None; d_file_path := None; d_extra := None; d_ssh := None |}.
Definition ex_attempt (_ : Tester) (_ : Connection) (_ : string) : result (TdError + Failure) unit :=
  Err (inr {| cause := SqlxDatabase (Some "28P01"); shown := "password authentication failed" |}).

#[local] Existing Instances tlv_printer tlv_reader.
Example draft_failure_told_witness :
  ∃ e, fst (test_draft_connection (λ s, s) ex_attempt (λ _ _, "") ex_tunnel ex_draft ∅) = Err e ∧
    e.(code) = AUTH_DENIED ∧ e.(message) = "query execution failed" ∧ e.(code) ∈ CODES.
Proof.
  eexists. split; [reflexivity|]. split; [reflexivity|]. split; [reflexivity|].
  exact (proj1 (draft_failure_told (λ s, s) ex_attempt (λ _ _, "") ex_tunnel ex_draft ∅ _ eq_refl)).
Defined.

(** The redaction lets a text through as soon as it says "config". *)
Example redact_lets_host_through :
  redact "pg_hba.conf: no entry for host 10.0.0.5, user root; check config"
  = "pg_hba.conf: no entry for host 10.0.0.5, user root; check config".
Proof. reflexivity. Qed.
