(* ===== verification/GatewayConn.v ===== *)
(** * Registering connections at the gateway (crates/gateway/src/handlers.rs,
    lines 481-868)

    The checks on a draft, the cleaning of its [extra] object, and the handlers
    that test, register and remove a connection.  The statements of a handler are
    run one after the other: an answer says which of them the database refuses and
    what was drawn. *)

From S2P Require Import Prelude RustStr Json Credential DbFamily TdengineLeg Connections DraftTest.
From stdpp Require Import strings gmap.

Record Response := { status : Z; body : json }.
Definition err_response (st : Z) (code msg : string) : Response :=
  {| status := st; body := JObj [("error", JObj [("code", JStr code); ("message", JStr msg)])] |}.

(** ** Drafts *)

Record ConnectionDraftBody := {
  b_db_type : string; b_host : option string; b_port : option Z; b_username : option string;
  b_password : option string; b_default_database : option string; b_file_path : option string;
  b_extra : option (list (string * json)); b_ssh : option SshWire }.

Definition SUPPORTED_DB_TYPES : list string :=
  ["mysql"; "doris"; "postgres"; "postgresql"; "pg"; "sqlite"; "clickhouse"; "sqlserver"; "mssql";
   "oceanbase"; "tidb"; "starrocks"; "mariadb"; "mongodb"; "redis"; "tdengine"].

(** [as_deref().map(str::trim).filter(non-empty).is_none()]. *)
Definition missing (o : option string) : bool := match o with Some s => is_empty (trim s) | None => true end.
Definition absent {A} (o : option A) : bool := match o with Some _ => false | None => true end.

Definition validate_draft (b : ConnectionDraftBody) : result Response string :=
  let db_type := to_ascii_lowercase (trim b.(b_db_type)) in
  if negb (bool_decide (db_type ∈ SUPPORTED_DB_TYPES))
  then Err (err_response 400 "UNSUPPORTED_DB_TYPE" ("unsupported db_type: " +:+ b.(b_db_type)))
  else
  let credentials_optional := bool_decide (db_type = "mongodb" ∨ db_type = "redis") in
  let required_missing :=
    if bool_decide (db_type = "sqlite") then missing b.(b_file_path)
    else if credentials_optional then missing b.(b_host) || absent b.(b_port)
    else missing b.(b_host) || absent b.(b_port) || missing b.(b_username) || absent b.(b_password) in
  if required_missing then
    Err (err_response 400 "CONFIG"
      (if bool_decide (db_type = "sqlite") then "sqlite connection requires filePath"
       else if credentials_optional then "host and port are required for this db_type"
       else "host, port, username and password are required for this db_type"))
  else Ok db_type.

(** ** The [extra] object *)

(** The SSH keys replace the draft's own. *)
Definition merged_extra (extra : option (list (string * json))) (ssh : option SshWire) : option (list (string * json)) :=
  let map := default [] extra in
  let map := match ssh with
    | Some w => match validate w with
                | Ok p => foldl (λ m kv, assoc_insert kv.1 kv.2 m) map (extra_keys p.(params_config))
                | Err _ => map
                end
    | None => map
    end in
  match map with [] => None | _ => Some map end.

Definition strip_uri_credentials (s : string) : string :=
  match RustStr.find "://" s with
  | None => s
  | Some scheme_end =>
      let rest := skip (scheme_end + 3) s in
      match RustStr.find "@" rest with
      | None => s
      | Some at_ =>
          let userinfo := String.substring 0 at_ rest in
          if is_empty userinfo || contains "/" userinfo then s
          else String.substring 0 (scheme_end + 3) s +:+ skip (at_ + 1) rest
      end
  end.

Definition credential_key (lowered : string) : bool :=
  contains "password" lowered || contains "secret" lowered || contains "token" lowered.
Definition uri_key (lowered : string) : bool :=
  contains "connectionstring" lowered || contains "uri" lowered || contains "url" lowered.
(** The entry that is kept for an entry; the keys of a [Map] are distinct, so the
    kept ones are appended. *)
Definition sanitize_entry (kv : string * json) : option (string * json) :=
  let lowered := to_ascii_lowercase kv.1 in
  if credential_key lowered then None
  else if decide (lowered = "ssh") then None
  else if uri_key lowered then
    match Json.as_str kv.2 with Some s => Some (kv.1, JStr (strip_uri_credentials s)) | None => Some kv end
  else Some kv.
Definition sanitize_extra `{Printer} (extra : option (list (string * json))) : option string :=
  extra ← extra;
  match omap sanitize_entry extra with [] => None | out => Some (to_vec (JObj out)) end.

(** ** Handlers *)

Record RegisterBody := {
  r_name : string; r_draft : ConnectionDraftBody; r_read_only : option bool; r_charset : option string;
  r_timezone : option string }.
(** The nonces of the two encryptions, the outcomes of SELECT, UPDATE and INSERT,
    the identifier and the clock. *)
Record RegAnswer := {
  nonce1 : string; nonce2 : string; select_ok : bool; update_ok : bool; insert_ok : bool; uuid : string; now : string }.

(** The columns a registration is recognised by. *)
Definition Fingerprint : Type := string * string * string * string * Z * string * string * string.
Definition fingerprint (c : Connection) : Fingerprint :=
  (c.(created_by), c.(name), c.(db_type), c.(host), c.(port), c.(username),
   default "" c.(default_database), default "" c.(file_path)).
Definition registered_as (fp : Fingerprint) (c : Connection) : Prop := c.(kind) = "collab" ∧ fingerprint c = fp.
#[global] Instance registered_as_dec fp c : Decision (registered_as fp c).
Proof. unfold registered_as. apply _. Defined.

(** [UPDATE … SET password_encrypted, charset, timezone, read_only, extra,
    ssh_secret_encrypted]. *)
Definition refresh (new c : Connection) : Connection :=
  {| name := c.(name); db_type := c.(db_type); host := c.(host); port := c.(port); username := c.(username);
     password_encrypted := new.(password_encrypted); default_database := c.(default_database);
     created_by := c.(created_by); created_at := c.(created_at); kind := c.(kind); file_path := c.(file_path);
     charset := new.(charset); timezone := new.(timezone); read_only := new.(read_only); extra := new.(extra);
     ssh_secret_encrypted := new.(ssh_secret_encrypted) |}.

Definition registered (id : string) (reused : bool) : Response :=
  {| status := 200; body := JObj (("serverConnId", JStr id) :: if reused then [("reused", JBool true)] else []) |}.

Section Handlers.
Context `{Printer, Reader, Cipher} (sha256_hex : string → string) (vault_key : string).

Definition encryption_failed : Response := err_response 500 "DB_ERROR" "credential encryption failed".
Definition encrypt (nonce plain : string) : result Response string :=
  match encrypt_v1 nonce plain vault_key with Ok ct => Ok ct | Err _ => Err encryption_failed end.

(** The column [ssh_secret_encrypted]. *)
Definition ssh_secret (nonce : string) (ssh : option SshWire) : result Response (option string) :=
  match ssh with
  | None => Ok None
  | Some w =>
      match validate w with
      | Err msg => Err (err_response 400 "CONFIG" msg)
      | Ok p => if secrets_empty p.(params_secrets) then Ok None
                else ct ← encrypt nonce (to_vec (secrets_json p.(params_secrets))); Ok (Some ct)
      end
  end.

(** The row a registration would insert. *)
Definition new_row (a : RegAnswer) (user : string) (b : RegisterBody) : result Response Connection :=
  let d := b.(r_draft) in
  db_type ← validate_draft d;
  let name := trim b.(r_name) in
  if is_empty name then Err (err_response 400 "CONFIG" "name must be non-empty") else
  let sqlite := bool_decide (db_type = "sqlite") in
  encrypted ← encrypt a.(nonce1) (default "" d.(b_password));
  secret ← ssh_secret a.(nonce2) d.(b_ssh);
  Ok {| name := name; db_type := db_type;
        host := if sqlite then "unused" else default "" d.(b_host); port := default 0%Z d.(b_port);
        username := if sqlite then "unused" else default "" d.(b_username); password_encrypted := encrypted;
        default_database := d.(b_default_database); created_by := user; created_at := a.(now); kind := "collab";
        file_path := d.(b_file_path); charset := b.(r_charset); timezone := b.(r_timezone);
        read_only := default false b.(r_read_only); extra := sanitize_extra (merged_extra d.(b_extra) d.(b_ssh));
        ssh_secret_encrypted := secret |}.

(** The response, the table, and whether a [connection_registered] row is audited. *)
Definition register_connection (a : RegAnswer) (user : string) (b : RegisterBody) (rows : Table) : Response * Table * bool :=
  match new_row a user b with
  | Err r => (r, rows, false)
  | Ok row =>
      let existing := if a.(select_ok) then fst <$> head (filter (λ kv, registered_as (fingerprint row) kv.2) (map_to_list rows))
                      else None in
      let insert :=
        if a.(insert_ok) && negb (bool_decide (is_Some (rows !! a.(uuid))))
        then (registered a.(uuid) false, <[a.(uuid) := row]> rows, true)
        else (err_response 500 "DB_ERROR" "failed to register connection", rows, false) in
      match existing with
      | Some id => if a.(update_ok) then (registered id true, alter (refresh row) id rows, true) else insert
      | None => insert
      end
  end.

(** [remove_connection]: the rows that approvals refer to cannot be deleted, and
    nobody looks at the outcome. *)
Definition remove_connection (delete_ok : bool) (referenced : gset string) (conn_id : string) (rows : Table) : Response * Table :=
  ({| status := 204; body := JNull |},
   if delete_ok && negb (bool_decide (conn_id ∈ referenced)) then delete conn_id rows else rows).

(** [test_connection]. *)
Definition draft_test_failure_body (code message : string) (elapsed_ms : Z) : json :=
  JObj [("ok", JBool false); ("error", JStr message); ("error_code", JStr code); ("elapsedMs", JInt elapsed_ms)].
Definition test_connection (attempt : Tester → Connection → string → result (TdError + Failure) unit)
    (version_string : Connection → string → string) (a : TunnelAnswer) (elapsed_ms : Z) (b : ConnectionDraftBody)
    (t : Tunnels) : Response * Tunnels :=
  match (_ ← validate_draft b;
         match b.(b_ssh) with
         | Some w => match validate w with Ok p => Ok (Some p) | Err msg => Err (err_response 400 "CONFIG" msg) end
         | None => Ok None
         end) with
  | Err r => (r, t)
  | Ok ssh =>
      let draft := {| d_db_type := to_ascii_lowercase (trim b.(b_db_type)); d_host := default "" b.(b_host);
        d_port := default 0%Z b.(b_port); d_username := default "" b.(b_username); d_password := default "" b.(b_password);
        d_default_database := b.(b_default_database); d_file_path := b.(b_file_path);
        d_extra := sanitize_extra (merged_extra b.(b_extra) b.(b_ssh)); d_ssh := ssh |} in
      match test_draft_connection sha256_hex attempt version_string a draft t with
      | (Ok version, t) => ({| status := 200; body := JObj ([("ok", JBool true); ("elapsedMs", JInt elapsed_ms)]
                               ++ match version with Some v => [("serverVersion", JStr v)] | None => [] end) |}, t)
      | (Err e, t) => ({| status := 200; body := draft_test_failure_body e.(code) e.(message) elapsed_ms |}, t)
      end
  end.
End Handlers.

(** ** What is stored of [extra] *)

Lemma sanitize_key kv kv' : sanitize_entry kv = Some kv' → kv'.1 = kv.1.
Proof.
  unfold sanitize_entry. destruct (credential_key _); [done|]. case_decide; [done|].
  destruct (uri_key _); [|by intros [= <-]]. destruct (Json.as_str kv.2); by intros [= <-].
Qed.

Lemma sanitize_float_free m : obj_float_free m = true → obj_float_free (omap sanitize_entry m) = true.
Proof.
  unfold obj_float_free. rewrite !forallb_forall. intros Hm kv' (kv & Hin & Hs)%list_elem_of_In%list_elem_of_omap.
  specialize (Hm kv ltac:(by apply list_elem_of_In)). revert Hs. unfold sanitize_entry.
  destruct (credential_key _); [done|]. case_decide; [done|]. destruct (uri_key _); [|by intros [= <-]].
  destruct (Json.as_str kv.2); by intros [= <-].
Qed.

(** A key that cleaning leaves alone keeps its value. *)
Lemma sanitize_get k m : (∀ v, sanitize_entry (k, v) = Some (k, v)) →
  assoc_get k (omap sanitize_entry m) = assoc_get k m.
Proof.
  intros Hk. induction m as [|[k' v] m IH]; [done|]. cbn [omap list_omap assoc_get].
  destruct (sanitize_entry (k', v)) as [[k'' v']|] eqn:E.
  - pose proof (sanitize_key _ _ E) as Hkk. cbn [fst] in Hkk. subst k''. cbn [assoc_get]. case_decide as Hd; [|done].
    subst k'. rewrite Hk in E. by injection E as <-.
  - case_decide as Hd; [subst k'; by rewrite Hk in E|done].
Qed.

Lemma sanitize_ssh_key k v : k ∈ ["sshHost"; "sshPort"; "sshUsername"; "sshAuthMode"] →
  sanitize_entry (k, v) = Some (k, v).
Proof. intros Hk. repeat (apply elem_of_cons in Hk as [->|Hk]; [reflexivity|]). by apply elem_of_nil in Hk. Qed.

Lemma merged_ssh_keys extra w p : validate w = Ok p → ∃ m, merged_extra extra (Some w) = Some m ∧
  Forall (λ kv, assoc_get kv.1 m = Some kv.2) (extra_keys p.(params_config)) ∧
  (obj_float_free (default [] extra) = true → obj_float_free m = true).
Proof.
  intros Hv. unfold merged_extra. rewrite Hv. cbn [extra_keys foldl fst snd].
  set (m := assoc_insert "sshAuthMode" _ _).
  assert (Hget : Forall (λ kv, assoc_get kv.1 m = Some kv.2) (extra_keys p.(params_config))).
  { unfold m, extra_keys. repeat constructor; cbn [fst snd];
      repeat first [apply assoc_get_insert | rewrite assoc_get_insert_ne by done]. }
  destruct m as [|e m'] eqn:Em; [by inversion Hget|]. rewrite <- Em in Hget |- *. exists m. split_and!; [done|done|].
  intros Hf. unfold m. by repeat (apply insert_float_free; [done|]).
Qed.

(** A URI whose user information has no [@] and no [/] loses it whole. *)
Lemma find_none_char c s : no_char c s = true → RustStr.find (String c "") s = None.
Proof.
  unfold RustStr.find. induction s as [|x s IH]; [done|]. cbn. intros [Hx Hs]%andb_prop.
  destruct (ascii_dec c x) as [->|]; [by rewrite bool_decide_eq_true_2 in Hx|]. by rewrite (IH Hs).
Qed.

Lemma find_after c p s r : no_char c s = true → RustStr.find (String c p) (s +:+ (String c p +:+ r)) = Some (String.length s).
Proof.
  intros Hs. induction s as [|x s IH]; [apply (find_here (String c p))|]. cbn in Hs. apply andb_prop in Hs as [Hx Hs].
  specialize (IH Hs). unfold RustStr.find in *. rewrite str_app_cons. cbn [String.index String.prefix].
  destruct (ascii_dec c x) as [->|]; [by rewrite bool_decide_eq_true_2 in Hx|]. by rewrite IH.
Qed.

Lemma strip_clean scheme ui rest : no_char ":"%char scheme = true → no_char "@"%char ui = true → no_char "/"%char ui = true →
  is_empty ui = false → strip_uri_credentials (scheme +:+ "://" +:+ ui +:+ "@" +:+ rest) = scheme +:+ "://" +:+ rest.
Proof.
  intros Hsch Hat Hsl Hne. unfold strip_uri_credentials.
  rewrite (find_after ":"%char "//" scheme (ui +:+ "@" +:+ rest) Hsch).
  assert (Hlen : String.length scheme + 3 = String.length (scheme +:+ "://")) by (rewrite str_length_app; reflexivity).
  rewrite Hlen. rewrite !(str_app_assoc scheme "://"). rewrite skip_app.
  rewrite (find_after "@"%char "" ui rest Hat). rewrite substring_app_l.
  rewrite Hne. unfold contains. rewrite (find_none_char _ _ Hsl). cbn [orb].
  rewrite substring_app_l.
  assert (Hlen2 : String.length ui + 1 = String.length (ui +:+ "@")) by (rewrite str_length_app; reflexivity).
  by rewrite Hlen2, (str_app_assoc ui "@" rest), skip_app.
Qed.

(** Of the [extra] object of a draft, what is written to the database has no
    key that names a password, a secret or a token, and no [ssh] block; every
    entry comes from an entry of the draft with the same key, unchanged, but for
    the strings under keys that name a URI; and a URI whose user information has
    neither an [@] nor a slash loses all of it. *)
Theorem stored_extra_clean `{Printer} extra text : sanitize_extra extra = Some text →
  ∃ m, text = to_vec (JObj m) ∧ Forall (λ kv,
    let k := to_ascii_lowercase kv.1 in
    credential_key k = false ∧ k ≠ "ssh" ∧
    ∃ v0, (kv.1, v0) ∈ default [] extra ∧
      kv.2 = match (if uri_key k then Json.as_str v0 else None) with Some s => JStr (strip_uri_credentials s) | None => v0 end ∧
      ∀ scheme ui rest, uri_key k = true → v0 = JStr (scheme +:+ "://" +:+ ui +:+ "@" +:+ rest) → is_empty ui = false →
        no_char ":"%char scheme = true → no_char "@"%char ui = true → no_char "/"%char ui = true →
        kv.2 = JStr (scheme +:+ "://" +:+ rest)) m.
Proof.
  unfold sanitize_extra. destruct extra as [l|]; [|done]. cbn [mbind option_bind default].
  destruct (omap sanitize_entry l) as [|e m] eqn:Em; [done|]. intros [= <-]. exists (e :: m). split; [done|].
  rewrite <- Em. apply Forall_forall. intros kv' ([k v] & Hin & Hs)%list_elem_of_omap. cbv zeta.
  rewrite (sanitize_key _ _ Hs). cbn [fst]. revert Hs. unfold sanitize_entry. cbn [fst snd].
  destruct (credential_key _); [done|]. case_decide; [done|]. intros Hs. split_and!; [done..|]. exists v. split; [done|].
  assert (Hv : kv'.2 = match (if uri_key (to_ascii_lowercase k) then Json.as_str v else None) with
                       | Some s => JStr (strip_uri_credentials s) | None => v end).
  { destruct (uri_key _); [|by injection Hs as <-]. destruct (Json.as_str v); by injection Hs as <-. }
  split; [exact Hv|]. intros scheme ui rest Hu -> Hne Hc Hat Hsl. rewrite Hv, Hu. cbn [Json.as_str].
  by rewrite strip_clean.
Qed.

(** The tail of a password that holds an [@] stays; one that holds a slash stays
    whole; and a credential inside an object is not looked for. *)
Example password_tail_is_kept : strip_uri_credentials "mongodb://u:p@ss@h1" = "mongodb://ss@h1".
Proof. reflexivity. Qed.
Example password_with_slash_is_kept : strip_uri_credentials "mongodb://u:p/w@h1" = "mongodb://u:p/w@h1".
Proof. reflexivity. Qed.
Example nested_password_is_kept :
  omap sanitize_entry [("auth", JObj [("password", JStr "x")])] = [("auth", JObj [("password", JStr "x")])].
Proof. reflexivity. Qed.
(** The mark of a tunnel, which the TLS code trusts, may come from the client. *)
Example tunneled_from_the_client : omap sanitize_entry [("tunneled", JBool true)] = [("tunneled", JBool true)].
Proof. reflexivity. Qed.

(** ** Registering *)

Definition registrations_unique (rows : Table) : Prop := ∀ i j c d,
  rows !! i = Some c → rows !! j = Some d → c.(kind) = "collab" → d.(kind) = "collab" →
  fingerprint c = fingerprint d → i = j.

Lemma refresh_fingerprint new c : fingerprint (refresh new c) = fingerprint c ∧ (refresh new c).(kind) = c.(kind).
Proof. done. Qed.

Section Registering.
Context `{Printer, Reader, Cipher} (vault_key : string).
Notation register := (register_connection vault_key).

(** Where a registration finds the row it is about. *)
Definition existing_row (fp : Fingerprint) (rows : Table) : option string :=
  fst <$> head (filter (λ kv, registered_as fp kv.2) (map_to_list rows)).

Lemma existing_Some fp rows id : existing_row fp rows = Some id → ∃ c, rows !! id = Some c ∧ registered_as fp c.
Proof.
  unfold existing_row. destruct (filter _ _) as [|[i c] l] eqn:E; [done|]. cbn. intros [= ->].
  assert (Hin : (id, c) ∈ filter (λ kv, registered_as fp kv.2) (map_to_list rows)) by (rewrite E; by left).
  apply list_elem_of_filter in Hin as [Hr Hin]. exists c. by apply elem_of_map_to_list in Hin.
Qed.

Lemma existing_None fp rows : existing_row fp rows = None → ∀ id c, rows !! id = Some c → ¬ registered_as fp c.
Proof.
  unfold existing_row. destruct (filter _ _) as [|e l] eqn:E; [|done]. intros _ id c Hc Hr.
  assert (Hin : (id, c) ∈ filter (λ kv, registered_as fp kv.2) (map_to_list rows)).
  { apply list_elem_of_filter. split; [done|]. by apply elem_of_map_to_list. }
  rewrite E in Hin. by apply elem_of_nil in Hin.
Qed.

Lemma new_row_refuses a user b e : new_row vault_key a user b = Err e → e.(status) ≠ 200%Z.
Proof.
  unfold new_row, validate_draft, ssh_secret, encrypt. cbv zeta. destruct (negb _); [by intros [= <-]|].
  destruct (if bool_decide _ then _ else _); [by intros [= <-]|]. cbn [mbind result_mbind].
  destruct (is_empty _); [by intros [= <-]|].
  destruct (encrypt_v1 a.(nonce1) _ _); cbn [mbind result_mbind]; [|by intros [= <-]].
  destruct b.(r_draft).(b_ssh) as [w|]; [|done]. destruct (validate w); [|by intros [= <-]].
  destruct (secrets_empty _); [done|]. by destruct (encrypt_v1 a.(nonce2) _ _); [|intros [= <-]].
Qed.

(** The outcomes of a registration. *)
Lemma register_cases a user b rows : ∃ r rows' audited, register a user b rows = (r, rows', audited) ∧
  ((audited = false ∧ rows' = rows ∧ r.(status) ≠ 200%Z) ∨
   ∃ row, new_row vault_key a user b = Ok row ∧ audited = true ∧
     ((∃ id, a.(select_ok) = true ∧ existing_row (fingerprint row) rows = Some id ∧ a.(update_ok) = true ∧
        r = registered id true ∧ rows' = alter (refresh row) id rows) ∨
      (rows !! a.(uuid) = None ∧ r = registered a.(uuid) false ∧ rows' = <[a.(uuid) := row]> rows ∧
       (a.(select_ok) = true → a.(update_ok) = true → existing_row (fingerprint row) rows = None)))).
Proof.
  unfold register_connection. destruct (new_row vault_key a user b) as [row|e] eqn:En.
  2:{ eexists _, _, _. split; [reflexivity|]. left. split_and!; [done..|by eapply new_row_refuses]. }
  fold (existing_row (fingerprint row) rows).
  destruct (a.(insert_ok) && negb (bool_decide (is_Some (rows !! a.(uuid))))) eqn:Ei.
  - apply andb_prop in Ei as [_ Hf]. apply negb_true_iff, bool_decide_eq_false in Hf. apply eq_None_not_Some in Hf.
    destruct a.(select_ok) eqn:Es; [destruct (existing_row _ rows) as [id|] eqn:Ex; [destruct a.(update_ok) eqn:Eu|]|];
      eexists _, _, _; (split; [reflexivity|]); right; exists row; (split_and!; [done..|]).
    + left. by exists id.
    + right. split_and!; [done..|by intros].
    + right. split_and!; done.
    + right. split_and!; [done..|by intros].
  - destruct a.(select_ok) eqn:Es; [destruct (existing_row _ rows) as [id|] eqn:Ex; [destruct a.(update_ok) eqn:Eu|]|];
      eexists _, _, _; (split; [reflexivity|]); [|by left..].
    right. exists row. split_and!; [done..|]. left. by exists id.
Qed.

(** ** Histories *)

Inductive Op : Type := Register (a : RegAnswer) (user : string) (b : RegisterBody) | Remove (delete_ok : bool) (referenced : gset string) (id : string).
Definition serve (o : Op) (rows : Table) : Table :=
  match o with
  | Register a user b => (register a user b rows).1.2
  | Remove ok referenced id => (remove_connection ok referenced id rows).2
  end.
Definition run (ops : list Op) (rows : Table) : Table := foldl (λ t o, serve o t) rows ops.
(** The statements that look for a row and refresh it succeed. *)
Definition healthy (o : Op) : Prop :=
  match o with Register a _ _ => a.(select_ok) = true ∧ a.(update_ok) = true | Remove _ _ _ => True end.

Lemma serve_unique o rows : healthy o → registrations_unique rows → registrations_unique (serve o rows).
Proof.
  destruct o as [a user b|ok refd id]; cbn [serve healthy].
  - intros [Hs Hu] HI. destruct (register_cases a user b rows) as (r & rows' & au & -> & [(_ & -> & _)|(row & _ & _ & Hc)]); [done|].
    cbn [fst snd]. destruct Hc as [(id & _ & _ & _ & _ & ->)|(Hn & _ & -> & Hfree)].
    + assert (Halt : ∀ i c, alter (refresh row) id rows !! i = Some c →
        ∃ c0, rows !! i = Some c0 ∧ fingerprint c = fingerprint c0 ∧ c.(kind) = c0.(kind)).
      { intros i c. destruct (decide (i = id)) as [->|Hne].
        - rewrite lookup_alter_eq. destruct (rows !! id) as [c0|]; [|done]. cbn. intros [= <-]. by exists c0.
        - rewrite lookup_alter_ne by done. intros Hc. by exists c. }
      intros i j c d (c0 & Hc & Ec & Kc)%Halt (d0 & Hd & Ed & Kd)%Halt Hk1 Hk2 Hf.
      apply (HI i j c0 d0); congruence.
    + specialize (Hfree Hs Hu). pose proof (existing_None _ _ Hfree) as Hno.
      intros i j c d. rewrite !lookup_insert_Some. intros [[<- <-]|[Hi Hc]] [[<- <-]|[Hj Hd]] Hk1 Hk2 Hf; [done| | |by eapply HI].
      * by destruct (Hno j d Hd).
      * by destruct (Hno i c Hc).
  - intros _ HI. unfold remove_connection. cbn [snd]. destruct (_ && _); [|done].
    intros i j c d [_ Hc]%lookup_delete_Some [_ Hd]%lookup_delete_Some. by apply HI.
Qed.

(** However connections are registered and removed, one after the other and
    with a database that answers, no two rows of the gateway stand for the same
    connection of the same user; and registering one that is there reuses its row
    and its identifier, and refreshes that row only. *)
Theorem one_row_per_connection ops rows :
  registrations_unique rows → Forall healthy ops →
  registrations_unique (run ops rows) ∧
  ∀ a user b row id c, healthy (Register a user b) → new_row vault_key a user b = Ok row →
    run ops rows !! id = Some c → registered_as (fingerprint row) c →
    register a user b (run ops rows) = (registered id true, alter (refresh row) id (run ops rows), true).
Proof.
  intros HI Hops. assert (HR : registrations_unique (run ops rows)).
  { unfold run. revert rows HI. induction Hops as [|o ops Ho _ IH]; intros rows HI; [done|]. cbn. by apply IH, serve_unique. }
  split; [done|]. intros a user b row id c [Hs Hu] Hrow Hc Hreg. generalize dependent (run ops rows). clear rows HI ops Hops.
  intros rows HR Hc. unfold register_connection. rewrite Hrow, Hs. fold (existing_row (fingerprint row) rows).
  destruct (existing_row (fingerprint row) rows) as [id'|] eqn:Ex; [|by destruct (existing_None _ _ Ex id c Hc)].
  destruct (existing_Some _ _ _ Ex) as (c' & Hc' & [Hk' Hf']). destruct Hreg as [Hk Hf].
  rewrite Hu. by rewrite (HR id' id c' c Hc' Hc Hk' Hk (eq_trans Hf' (eq_sym Hf))).
Qed.
End Registering.

(** ** From registration to loading *)

Lemma supported_family t : t ∈ SUPPORTED_DB_TYPES → ∃ f, family_for t = Ok f ∧ is_sqlite f = bool_decide (t = "sqlite").
Proof.
  intros Ht. repeat (apply elem_of_cons in Ht as [->|Ht]; [eexists; split; reflexivity|]). by apply elem_of_nil in Ht.
Qed.

(** A valid SSH block has something to keep secret. *)
Lemma validate_secrets w p : validate w = Ok p → secrets_empty p.(params_secrets) = false.
Proof.
  unfold validate. case_decide as Hm; [done|]. destruct (is_empty (trim w.(w_host)) || _); [done|].
  destruct (bool_decide (w.(w_auth_mode) = "password") && _) eqn:E1; [done|].
  destruct (bool_decide (w.(w_auth_mode) = "privateKey") && _) eqn:E2; [done|]. intros [= <-].
  unfold secrets_empty. cbn [params_secrets s_password s_private_key s_passphrase].
  rewrite !elem_of_cons, elem_of_nil in Hm. destruct Hm as [Hm|[Hm|[]]]; rewrite Hm in E1, E2.
  - cbn [andb] in E1. change (bool_decide ("password" = "password")) with true in E1. cbn [andb] in E1. by rewrite E1.
  - change (bool_decide ("privateKey" = "privateKey")) with true in E2. cbn [andb] in E2.
    rewrite E2. by rewrite andb_false_r.
Qed.

Section RoundTrip.
Context `{RoundTrip, CipherLaws} (vault_key : string) (sha256_hex : string → string).
Notation register := (register_connection vault_key).

(** What a registration leaves in its row. *)
Lemma registered_row a user b rows id reused rows' au : register a user b rows = (registered id reused, rows', au) →
  ∃ row c, new_row vault_key a user b = Ok row ∧ rows' !! id = Some c ∧ fingerprint c = fingerprint row ∧
    c.(password_encrypted) = row.(password_encrypted) ∧ c.(extra) = row.(extra) ∧
    c.(ssh_secret_encrypted) = row.(ssh_secret_encrypted) ∧ c.(read_only) = row.(read_only).
Proof.
  destruct (register_cases vault_key a user b rows) as (r & rs & au' & E & Hc). rewrite E. intros [= -> -> <-].
  assert (Hr : ∀ i x j y, registered i x = registered j y → i = j) by (by intros i [] j [] [= ->]).
  destruct Hc as [(_ & _ & Hst)|(row & Hrow & -> & Hc)]; [by destruct reused|].
  destruct Hc as [(i & _ & Hex & _ & Hresp & ->)|(_ & Hresp & -> & _)].
  - apply Hr in Hresp as ->. destruct (existing_Some _ _ _ Hex) as (c & Hc & _ & Hf).
    exists row, (refresh row c). rewrite lookup_alter_eq, Hc. by split_and!.
  - apply Hr in Hresp as ->. exists row, row. rewrite lookup_insert_eq. by split_and!.
Qed.
Lemma new_row_inv a user b row : new_row vault_key a user b = Ok row →
  let d := b.(r_draft) in
  row.(db_type) ∈ SUPPORTED_DB_TYPES ∧ row.(created_by) = user ∧
  encrypt_v1 a.(nonce1) (default "" d.(b_password)) vault_key = Ok row.(password_encrypted) ∧
  row.(extra) = sanitize_extra (merged_extra d.(b_extra) d.(b_ssh)) ∧
  match d.(b_ssh) with
  | None => True
  | Some w => ∃ p ct, validate w = Ok p ∧ row.(ssh_secret_encrypted) = Some ct ∧
      encrypt_v1 a.(nonce2) (to_vec (secrets_json p.(params_secrets))) vault_key = Ok ct
  end.
Proof.
  unfold new_row, validate_draft, ssh_secret, encrypt. cbv zeta.
  destruct (negb _) eqn:Es; [done|]. apply negb_false_iff, bool_decide_eq_true in Es.
  destruct (if bool_decide _ then _ else _); [done|]. cbn [mbind result_mbind].
  destruct (is_empty _); [done|]. destruct (encrypt_v1 a.(nonce1) _ _) as [ct1|] eqn:E1; cbn [mbind result_mbind]; [|done].
  destruct b.(r_draft).(b_ssh) as [w|]; [|by intros [= <-]].
  destruct (validate w) as [p|] eqn:Ev; [|done]. rewrite (validate_secrets _ _ Ev).
  destruct (encrypt_v1 a.(nonce2) _ _) as [ct2|] eqn:E2; cbn [mbind result_mbind]; [|done]. intros [= <-]. cbn.
  split_and!; [done..|]. by exists p, ct2.
Qed.

Lemma resolve_opens ta h q c s t : is_ok ta.(spawn_tunnel) = true → ∃ p t',
  resolve sha256_hex ta h q c s t = (Ok ("127.0.0.1", p), t') ∧ t' !! tunnel_key sha256_hex h q c s = Some p.
Proof.
  intros Hok. unfold resolve. cbv zeta. destruct ta.(spawn_tunnel) as [n|e]; [clear Hok|done].
  destruct (t !! tunnel_key sha256_hex h q c s) as [p|] eqn:Et; [destruct (ta.(probe) p)|];
    eexists _, _; (split; [reflexivity|]); [done|apply lookup_insert_eq..].
Qed.

(** C9. What is registered is what is dialled.  The row a successful registration
    answers with, new or reused, loads as the family of its type with the
    password of the draft; through a tunnel with the settings and the secrets of
    the draft if it has an SSH block, and else as it stands, unless [extra] itself
    claims a tunnel. *)
Theorem registration_round_trip a user b rows id reused rows' au ta t :
  let d := b.(r_draft) in
  String.length a.(nonce1) = NONCE_LEN → String.length a.(nonce2) = NONCE_LEN →
  from_utf8 (default "" d.(b_password)) = true → obj_float_free (default [] d.(b_extra)) = true →
  (∀ w p, d.(b_ssh) = Some w → validate w = Ok p →
     (w.(w_port) ≤ i64_max)%Z ∧ from_utf8 (to_vec (secrets_json p.(params_secrets))) = true) →
  is_ok ta.(spawn_tunnel) = true →
  register a user b rows = (registered id reused, rows', au) →
  ∃ c f, rows' !! id = Some c ∧ c.(created_by) = user ∧ family_for c.(db_type) = Ok f ∧
    let pw := if is_sqlite f then "" else default "" d.(b_password) in
    match (if is_sqlite f then None else d.(b_ssh)) with
    | Some w => ∃ p q t', validate w = Ok p ∧
        load_connection sha256_hex (Ok tt) ta vault_key id rows' t
        = (Ok (reroute "127.0.0.1" q (inject_flag c.(extra) "tunneled" true) c, f, pw), t') ∧
        t' !! tunnel_key sha256_hex c.(host) c.(port) p.(params_config) p.(params_secrets) = Some q
    | None => is_sqlite f = true ∨ config_from_extra c.(extra) = None →
        load_connection sha256_hex (Ok tt) ta vault_key id rows' t = (Ok (c, f, pw), t)
    end.
Proof.
  cbv zeta. intros Hn1 Hn2 Hpw Hff Hssh Hspawn Hreg.
  destruct (registered_row _ _ _ _ _ _ _ _ Hreg) as (row & c & Hrow & Hc & Hf & Ep & Ex & Esec & _).
  destruct (new_row_inv _ _ _ _ Hrow) as (Hsup & Hu & Henc & Hext & Hsec).
  assert (Hdb : c.(db_type) = row.(db_type)) by (unfold fingerprint in Hf; congruence).
  assert (Hby : c.(created_by) = row.(created_by)) by (unfold fingerprint in Hf; congruence).
  destruct (supported_family _ Hsup) as (f & Hfam & Hsq). exists c, f.
  split_and!; [done|congruence|congruence|]. unfold load_connection. cbn [mbind result_mbind].
  rewrite Hc. cbn [ok_or mbind result_mbind]. rewrite Hdb, Hfam. cbn [mbind result_mbind]. rewrite Ep.
  pose proof (proj2 (encrypt_decrypt _ _ _ _ Hn1 Hpw Henc)) as Hdec. rewrite Hdec.
  destruct (is_sqlite f) eqn:Eq; cbn [mbind result_mbind]; rewrite ?Eq; [done|].
  destruct b.(r_draft).(b_ssh) as [w|] eqn:Ew; [|by intros [?| -> ]]. destruct Hsec as (p & ct & Hv & Hct & Henc2).
  destruct (Hssh w p eq_refl Hv) as [Hport Hutf]. destruct (merged_ssh_keys b.(r_draft).(b_extra) w p Hv) as (m & Hm & Hkeys & Hmf).
  specialize (Hmf Hff).
  assert (Hkeys' : Forall (λ kv, assoc_get kv.1 (omap sanitize_entry m) = Some kv.2) (extra_keys p.(params_config))).
  { unfold extra_keys in *. rewrite !Forall_cons in Hkeys |- *. cbn [fst snd] in *. destruct Hkeys as (G1 & G2 & G3 & G4 & _).
    split_and!; try (rewrite sanitize_get; [done|intros v; apply sanitize_ssh_key; by apply (bool_decide_unpack _)]). constructor. }
  assert (Hstored : c.(extra) = Some (to_vec (JObj (omap sanitize_entry m)))).
  { rewrite Ex, Hext, Hm. unfold sanitize_extra. cbn [mbind option_bind].
    destruct (omap sanitize_entry m); [by inversion Hkeys'|done]. }
  assert (Hcfg : config_from_extra c.(extra) = Some p.(params_config)).
  { rewrite Hstored. apply (config_read_back w); [done..|by apply sanitize_float_free|done]. }
  rewrite Hcfg. pose proof (encrypt_decrypt _ _ _ _ Hn2 Hutf Henc2) as [Hleg Hdec2].
  assert (Hts : tunnel_secrets vault_key c = Ok p.(params_secrets)).
  { unfold tunnel_secrets. cbv zeta. rewrite Esec, Hct. change (default "" (Some ct)) with ct. destruct ct as [|ch ct].
    - exfalso. revert Henc2. unfold encrypt_v1. by destruct (Credential.seal _ _ _).
    - cbn [is_empty]. rewrite Hdec2. rewrite (from_to _ (secrets_json_float_free _)). cbn [mbind option_bind].
      by rewrite secrets_read_back. }
  rewrite Hts. unfold apply_tunnel.
  destruct (resolve_opens ta c.(host) c.(port) p.(params_config) p.(params_secrets) t Hspawn) as (q & t' & Er & Ht).
  rewrite Er. by exists p, q, t'.
Qed.
End RoundTrip.

(** ** A connection behind a tunnel, registered *)

#[local] Existing Instances tlv_printer tlv_reader tlv_round_trip ex_cipher ex_cipher_laws.

Definition ex_draft : ConnectionDraftBody :=
  {| b_db_type := " MySQL "; b_host := Some "10.0.0.5"; b_port := Some 3306%Z; b_username := Some "root";
     b_password := Some "pw"; b_default_database := None; b_file_path := None;
     b_extra := Some [("Password", JStr "pw"); ("uri", JStr "mongodb://u:p@h")]; b_ssh := Some ex_wire |}.
Definition ex_body : RegisterBody :=
  {| r_name := " db "; r_draft := ex_draft; r_read_only := Some true; r_charset := None; r_timezone := None |}.
Definition ex_answer : RegAnswer :=
  {| nonce1 := "0123456789ab"; nonce2 := "ba9876543210"; select_ok := true; update_ok := true; insert_ok := true;
     uuid := "c1"; now := "t" |}.
Notation ex_reg := (register_connection "K" ex_answer "u1" ex_body ∅).

Example registration_round_trip_witness : ∃ rows' c q t',
  ex_reg = (registered "c1" false, rows', true) ∧ c.(created_by) = "u1" ∧
  load_connection (λ s, s) (Ok tt) ex_tunnel "K" "c1" rows' ∅
  = (Ok (reroute "127.0.0.1" q (inject_flag c.(extra) "tunneled" true) c, MySql MysqlProfile, "pw"), t').
Proof.
  assert (H1 : ex_reg.1.1 = registered "c1" false) by by vm_compute.
  assert (H2 : ex_reg.2 = true) by by vm_compute.
  assert (H3 : match ex_reg.1.2 !! "c1" with Some c => c.(db_type) | None => "" end = "mysql") by by vm_compute.
  destruct ex_reg as [[r rows'] au] eqn:E. cbn [fst snd] in H1, H2, H3. subst r au.
  destruct (registration_round_trip "K" (λ s, s) ex_answer "u1" ex_body ∅ "c1" false rows' true ex_tunnel ∅)
    as (c & f & Hc & Hu & Hf & Hm); [reflexivity..| | |exact E|].
  - intros w p Hw Hv. injection Hw as <-. assert (Hp : validate ex_wire = Ok ex_params) by by vm_compute.
    rewrite Hp in Hv. injection Hv as <-. split; by vm_compute.
  - reflexivity.
  - rewrite Hc in H3. rewrite H3 in Hf. injection Hf as <-. change (is_sqlite (MySql MysqlProfile)) with false in Hm.
    destruct Hm as (p & q & t' & _ & Hl & _). exists rows', c, q, t'. split_and!; [done|done|exact Hl].
Defined.

(** ** Registering twice *)

Definition plain_body (pw : string) : RegisterBody :=
  {| r_name := "db"; r_draft := {| b_db_type := "mysql"; b_host := Some "h"; b_port := Some 1%Z; b_username := Some "u";
       b_password := Some pw; b_default_database := None; b_file_path := None; b_extra := None; b_ssh := None |};
     r_read_only := None; r_charset := None; r_timezone := None |}.
Definition ex_ops : list Op := [Register ex_answer "u1" (plain_body "a")].

Example one_row_per_connection_witness : ∃ row,
  register_connection "K" ex_answer "u1" (plain_body "b") (run "K" ex_ops ∅)
  = (registered "c1" true, alter (refresh row) "c1" (run "K" ex_ops ∅), true).
Proof.
  destruct (one_row_per_connection "K" ex_ops ∅) as [_ Hre]; [by intros ? ? ? ? ?%lookup_empty_Some| |].
  - repeat constructor.
  - destruct (new_row "K" ex_answer "u1" (plain_body "b")) as [row|] eqn:Hrow; [|by vm_compute in Hrow].
    exists row. destruct (run "K" ex_ops ∅ !! "c1") as [c|] eqn:Hc; [|by vm_compute in Hc].
    apply (Hre ex_answer "u1" (plain_body "b") row "c1" c); [done..|].
    vm_compute in Hrow. injection Hrow as <-. vm_compute in Hc. injection Hc as <-. by vm_compute.
Defined.

(** ** What a draft's [extra] leaves *)

Example stored_extra_clean_witness : ∃ m,
  sanitize_extra ex_draft.(b_extra) = Some (to_vec (JObj m)) ∧ Forall (λ kv, kv.1 ≠ "Password") m.
Proof.
  destruct (stored_extra_clean ex_draft.(b_extra) (to_vec (JObj [("uri", JStr "mongodb://h")])) eq_refl) as (m & Ht & Hm).
  exists m. split; [by rewrite <- Ht|]. eapply Forall_impl; [exact Hm|]. intros [k v] (Hk & _). cbn [fst] in *. by intros ->.
Defined.

(** A row that an approval refers to stays, credential included; the answer is 204
    all the same. *)
Example removal_may_keep_the_row rows : remove_connection true {["c1"]} "c1" rows = ({| status := 204; body := JNull |}, rows).
Proof. reflexivity. Qed.
