(* ===== verification/GatewayQuery.v ===== *)
(** * A query through the gateway (crates/gateway/src/handlers.rs, lines 40-471
    and 870-1044)

    What a request must look like before anything runs, the bounds put on it, the
    channel it is given to, the server-sent events its answer becomes, and the
    targets of a Redis subscription.  Who may ask, and the registry of running
    executions, are in [Gateway]. *)

From S2P Require Import Prelude SqlSplit RustStr Json Risk DbFamily StreamRows TdengineLeg RedisLeg MongoLeg StreamQuery GatewayConn.
From stdpp Require Import strings list gmap.

(** ** Errors of the metadata layer *)

Definition meta_err (e : MetadataError) : Response :=
  let code := normalize_meta_code e.1 in
  let st := if decide (code = "NOT_FOUND") then 404%Z
            else if decide (code = "CONFIG_ERROR" ∨ code = "UNSUPPORTED_DB_TYPE") then 400%Z
            else if decide (code = "CONNECTION_FAILED") then 503%Z else 500%Z in
  err_response st code e.2.

(** ** The body of a query *)

Record QueryBody := {
  q_sql : option string; q_kind : option string; q_command : option json;
  q_pipeline : option (list (list string)); q_atomic : option bool; q_database : option string;
  q_schema : option string; q_row_limit : option Z; q_timeout_ms : option Z }.

(** What is handed to a channel. *)
Inductive Job : Type :=
| SqlJob (sql : string)
| MongoJob (command : json)
| RedisCommand (command : list string)
| RedisPipeline (pipeline : list (list string)) (atomic : bool)
| TdengineJob (sql : string).
Definition kind_of (j : Job) : string :=
  match j with
  | SqlJob _ => "sql" | MongoJob _ => "mongo" | RedisCommand _ | RedisPipeline _ _ => "redis" | TdengineJob _ => "tdengine"
  end.

Definition config_error (message : string) : Response := err_response 400 "CONFIG" message.

(** The redis command as an array of strings, if it is a nonempty one. *)
Definition command_array (command : option json) : option (list string) :=
  items ← command ≫= Json.as_array; parts ← mapM Json.as_str items;
  match parts with [] => None | _ => Some parts end.
Definition pipe_valid (pipe : list (list string)) : bool :=
  negb (bool_decide (pipe = [])) && forallb (λ entry, negb (bool_decide (entry = [])) && forallb (λ arg, negb (is_empty arg)) entry) pipe.
Definition redis_job (b : QueryBody) : result Response Job :=
  match command_array b.(q_command), b.(q_pipeline) with
  | Some cmd, None => Ok (RedisCommand cmd)
  | Some _, Some _ => Err (config_error ("kind " +:+ DQS +:+ "redis" +:+ DQS +:+ " accepts either command or pipeline, not both"))
  | None, pipe =>
      match pipe with
      | Some pipe => if pipe_valid pipe then Ok (RedisPipeline pipe (default false b.(q_atomic)))
                     else Err (config_error ("kind " +:+ DQS +:+ "redis" +:+ DQS +:+ " requires a non-empty command array or pipeline"))
      | None => Err (config_error ("kind " +:+ DQS +:+ "redis" +:+ DQS +:+ " requires a non-empty command array or pipeline"))
      end
  end.

Section Validation.
Context (parse_mysql parse_pg parse_generic : string → option (list Statement)).
Local Notation statement_count := (Risk.statement_count parse_mysql parse_pg parse_generic).

(** One statement: it is trimmed to be counted, and run as it came. *)
Definition one_statement (job : string → Job) (sql : option string) : result Response Job :=
  match sql with
  | None => Err (config_error "sql must be a non-empty statement")
  | Some sql =>
      if is_empty (trim sql) then Err (config_error "sql must be a non-empty statement")
      else if 1 <? statement_count (trim sql)
      then Err (err_response 400 "MULTI_STATEMENT" "gateway v1 executes exactly one statement per request")
      else Ok (job sql)
  end.
Definition validate_query (b : QueryBody) : result Response Job :=
  let kind := default "sql" b.(q_kind) in
  if decide (kind = "sql") then one_statement SqlJob b.(q_sql)
  else if decide (kind = "mongo") then
    match b.(q_command) with
    | Some (JObj ((k, v) :: m)) => Ok (MongoJob (JObj ((k, v) :: m)))
    | _ => Err (config_error ("kind " +:+ DQS +:+ "mongo" +:+ DQS +:+ " requires a non-empty command object"))
    end
  else if decide (kind = "redis") then redis_job b
  else if decide (kind = "tdengine") then one_statement TdengineJob b.(q_sql)
  else Err (err_response 400 "UNSUPPORTED_KIND"
    ("unsupported kind " +:+ DQS +:+ kind +:+ DQS +:+ ": only " +:+ DQS +:+ "sql" +:+ DQS +:+ ", " +:+ DQS +:+ "mongo" +:+ DQS
     +:+ ", " +:+ DQS +:+ "redis" +:+ DQS +:+ " and " +:+ DQS +:+ "tdengine" +:+ DQS +:+ " are implemented")).

(** ** Its bounds *)

(** [Ord::clamp] panics when its bounds are crossed. *)
Definition clamp (lo hi x : Z) : option Z :=
  if (hi <? lo)%Z then None else Some (Z.max lo (Z.min x hi)).

Record Limits := { default_rows : Z; max_rows : Z; query_timeout_secs : Z }.
(** A query about to run. *)
Record Plan := { p_job : Job; p_database : option string; p_limit : Z; p_timeout_ms : Z; p_execution : string }.
(** None is a panic of the handler. *)
Definition plan (l : Limits) (uuid_ok : string → bool) (fresh : string) (header : option string) (b : QueryBody)
    : option (result Response Plan) :=
  match validate_query b with
  | Err r => Some (Err r)
  | Ok job =>
      limit ← clamp 1 l.(max_rows) (default l.(default_rows) b.(q_row_limit));
      ms ← clamp 1000 600000 (default (l.(query_timeout_secs) * 1000)%Z b.(q_timeout_ms));
      let id := match header with Some h => if uuid_ok h then h else fresh | None => fresh end in
      Some (Ok {| p_job := job; p_database := b.(q_database); p_limit := limit; p_timeout_ms := ms; p_execution := id |})
  end.
End Validation.

(** ** Running it *)

(** What the channels find outside: the schedule and the SQL answers, the loaded
    row, and what each driver answers. *)
Record Outside := {
  o_env : Env; o_loaded : Loaded;
  o_mongo_ready : option (result StreamQueryError unit);
  o_mongo_reply : MongoLeg.Document → option (result StreamQueryError MongoLeg.Document);
  o_mongo_more : list (result StreamQueryError MongoLeg.Document);
  o_redis_opened : option (result StreamQueryError unit); o_redis_cats : option (list string) * option (list string);
  o_redis_reply : list (list string) → option (result StreamQueryError (list Resp));
  o_taos : option string → string → option (Z * string * option json) }.

Section Running.
Context `{Codecs} (unicode_upper : char → list char).
Context (parse_f64 : string → option Z) (fin : Z → bool) (f64_string : Z → string).

Definition run_job (o : Outside) (conn_id : string) (p : Plan) (cache : Cache) : Ran * Cache :=
  let limit := Z.to_nat p.(p_limit) in
  let secs := (p.(p_timeout_ms) / 1000)%Z in
  match p.(p_job) with
  | MongoJob command =>
      (run_mongo_inner o.(o_env) o.(o_mongo_ready) o.(o_mongo_reply) o.(o_mongo_more) o.(o_loaded) p.(p_database) command limit secs, cache)
  | RedisCommand command =>
      run_redis_inner from_utf8_lossy parse_f64 fin f64_string o.(o_env) o.(o_redis_opened) o.(o_redis_cats) o.(o_redis_reply)
        conn_id o.(o_loaded) p.(p_database) (Some command) None false limit secs cache
  | RedisPipeline pipe atomic =>
      run_redis_inner from_utf8_lossy parse_f64 fin f64_string o.(o_env) o.(o_redis_opened) o.(o_redis_cats) o.(o_redis_reply)
        conn_id o.(o_loaded) p.(p_database) None (Some pipe) atomic limit secs cache
  | TdengineJob sql => (run_tdengine_inner o.(o_env) o.(o_taos) o.(o_loaded) p.(p_database) sql limit secs, cache)
  | SqlJob sql => (run_inner unicode_upper o.(o_env) o.(o_loaded) p.(p_database) sql limit secs, cache)
  end.
End Running.

(** How the task around a channel ends: by the channel's outcome, or by its panic,
    which [catch_unwind] turns into an error. *)
Inductive Ending : Type := Ended (o : result StreamQueryError CompleteInfo) | Panicked (reason : string).
Definition panic_error (reason : string) : StreamQueryError :=
  {| e_code := "DB_ERROR";
     e_message := "execution panicked in the TDS decode path (" +:+ reason +:+ "); CAST the column (e.g. sql_variant via SERVERPROPERTY) and retry";
     e_engine := None |}.
Definition outcome_of (e : Ending) : result StreamQueryError CompleteInfo :=
  match e with Ended o => o | Panicked reason => Err (panic_error reason) end.
(** The events the channel is given; [room] is whether it has a free place when the
    task panics ([try_send]), [receiver] whether its reader is there. *)
Definition stream_events (e : Ending) (sent : list StreamQueryEvent) (elapsed_ms : Z) (receiver room : bool)
    : list StreamQueryEvent :=
  match e with
  | Ended o => with_terminal o sent elapsed_ms receiver
  | Panicked reason => sent ++ (if receiver && room then [ErrorEvent (panic_error reason)] else [])
  end.

(** ** Server-sent events *)

Record SseEvent := { ev_name : string; ev_id : nat; ev_data : json }.
Definition sse_event (kind : string) (ev : StreamQueryEvent) (seq : nat) : SseEvent :=
  match ev with
  | Meta columns types =>
      {| ev_name := "meta"; ev_id := seq;
         ev_data := JObj ([("kind", JStr kind); ("type", JStr "meta"); ("columns", jstrs columns)]
                          ++ match types with Some t => [("columnTypes", jstrs t)] | None => [] end) |}
  | Rows rows =>
      {| ev_name := "rows"; ev_id := seq;
         ev_data := JObj [("kind", JStr kind); ("type", JStr "rows"); ("rows", JArr (JArr <$> rows))] |}
  | Complete info ms =>
      {| ev_name := "complete"; ev_id := seq;
         ev_data := JObj ([("kind", JStr kind); ("type", JStr "complete"); ("rowCount", JInt (Z.of_nat info.(row_count)));
                           ("truncated", JBool info.(truncated)); ("elapsedMs", JInt ms)]
                          ++ match info.(StreamRows.affected_rows) with Some n => [("affectedRows", JInt n)] | None => [] end) |}
  | ErrorEvent e =>
      {| ev_name := "error"; ev_id := seq;
         ev_data := JObj ([("kind", JStr kind); ("type", JStr "error"); ("code", JStr e.(e_code)); ("message", JStr e.(e_message))]
                          ++ match e.(e_engine) with Some c => [("engineCode", JStr c)] | None => [] end) |}
  end.
Definition sse_body (kind : string) (evs : list StreamQueryEvent) : list SseEvent :=
  imap (λ seq ev, sse_event kind ev seq) evs.

(** ** The targets of a subscription *)

Section Subscriptions.
(** [u8::from_str_radix(_, 16)], which takes a plus sign. *)
Definition hex_digit (c : ascii) : option N :=
  if in_range 48 57 (code c) then Some (code c - 48)%N
  else if in_range 97 102 (code c) then Some (code c - 87)%N
  else if in_range 65 70 (code c) then Some (code c - 55)%N else None.
Definition hex_byte (a b : ascii) : option ascii :=
  if decide (a = "+"%char) then (λ y, ascii_of_N y) <$> hex_digit b
  else x ← hex_digit a; y ← hex_digit b; Some (ascii_of_N (16 * x + y)).

(** The bytes of [percent_decode]; none is the panic of a slice that ends inside a
    character: [p] is what follows the two bytes after a percent sign. *)
Definition cut_ok (a : ascii) (p : string) : bool :=
  negb (is_continuation a) && match p with String c _ => negb (is_continuation c) | "" => true end.
Fixpoint percent_bytes (s : string) : option string :=
  match s with
  | "" => Some ""
  | String c r =>
      let plain (r : option string) := String (if decide (c = "+"%char) then " "%char else c) <$> r in
      if decide (c = "%"%char) then
        match r with
        | String a (String b r') =>
            if cut_ok a r' then
              match hex_byte a b with
              | Some byte => String byte <$> percent_bytes r'
              | None => plain (percent_bytes r)
              end
            else None
        | _ => plain (percent_bytes r)
        end
      else plain (percent_bytes r)
  end.
Definition percent_decode (s : string) : option string := from_utf8_lossy <$> percent_bytes s.

Definition add_target (acc : list string * list string) (k v : string) : list string * list string :=
  if decide (k = "channels") then (acc.1 ++ [v], acc.2)
  else if decide (k = "patterns") then (acc.1, acc.2 ++ [v]) else acc.
Fixpoint sub_pairs (pairs : list string) (acc : list string * list string) : option (list string * list string) :=
  match pairs with
  | [] => Some acc
  | kv :: rest =>
      match split_once "="%char kv with
      | Some (k, v) => v ← percent_decode v; sub_pairs rest (add_target acc k v)
      | None => sub_pairs rest (add_target acc kv "")
      end
  end.
Definition parse_redis_sub_query (raw : option string) : option (list string * list string) :=
  match raw with
  | None => Some ([], [])
  | Some q => sub_pairs (filter (λ p, is_empty p = false) (split_on "&"%char q)) ([], [])
  end.

Definition REDIS_SUB_MAX_TARGETS : nat := 64.
(** The targets asked for, before anything is opened. *)
Definition sub_targets (raw : option string) : option (result Response (list string * list string)) :=
  t ← parse_redis_sub_query raw;
  let channels := filter (λ c, is_empty c = false) t.1 in
  let patterns := filter (λ c, is_empty c = false) t.2 in
  let total := length channels + length patterns in
  Some (if total =? 0 then Err (config_error "at least one channel or pattern is required")
        else if REDIS_SUB_MAX_TARGETS <? total
        then Err (config_error ("too many subscription targets: " +:+ decimal (N.of_nat total) +:+ " (max 64)"))
        else Ok (channels, patterns)).

Definition subscription_failed : Response := err_response 503 "CONNECTION_FAILED" "redis subscription setup failed".
(** The handler up to the registration of its token: the first refused target ends
    it.  The receipt is the first event of the stream. *)
Definition redis_subscribe (opened : result MetadataError unit) (accepts : string → bool) (raw : option string)
    : option (result Response json) :=
  t ← sub_targets raw;
  Some (match t with
        | Err r => Err r
        | Ok (channels, patterns) =>
            match opened with
            | Err e => Err (meta_err e)
            | Ok _ => if forallb accepts channels && forallb accepts patterns
                      then Ok (JObj [("type", JStr "subscribed"); ("channels", jstrs channels); ("patterns", jstrs patterns)])
                      else Err subscription_failed
            end
        end).
End Subscriptions.

(** ** Reading the events back *)

(** A client: the fields by their names, the event by its own. *)
Definition read_strs (j : json) : option (list string) := items ← Json.as_array j; mapM Json.as_str items.
Definition read_int (j : json) : option Z := match j with JInt z => Some z | _ => None end.
Definition read_event (e : SseEvent) : option StreamQueryEvent :=
  let field k := jget k e.(ev_data) in
  if decide (e.(ev_name) = "meta") then
    columns ← field "columns" ≫= read_strs;
    types ← match field "columnTypes" with None => Some None | Some t => Some <$> read_strs t end;
    Some (Meta columns types)
  else if decide (e.(ev_name) = "rows") then
    rows ← field "rows" ≫= Json.as_array; rows ← mapM Json.as_array rows; Some (Rows rows)
  else if decide (e.(ev_name) = "complete") then
    n ← field "rowCount" ≫= read_int; cut ← field "truncated" ≫= Json.as_bool; ms ← field "elapsedMs" ≫= read_int;
    affected ← match field "affectedRows" with None => Some None | Some j => Some <$> read_int j end;
    Some (Complete {| row_count := Z.to_nat n; truncated := cut; StreamRows.affected_rows := affected |} ms)
  else if decide (e.(ev_name) = "error") then
    c ← field "code" ≫= Json.as_str; m ← field "message" ≫= Json.as_str;
    engine ← match field "engineCode" with None => Some None | Some j => Some <$> Json.as_str j end;
    Some (ErrorEvent {| e_code := c; e_message := m; e_engine := engine |})
  else None.

Lemma mapM_as_str l : mapM Json.as_str (JStr <$> l) = Some l.
Proof. induction l as [|x l IH]; [done|]. cbn in *. by rewrite IH. Qed.
Lemma mapM_as_array l : mapM Json.as_array (JArr <$> l) = Some l.
Proof. induction l as [|x l IH]; [done|]. cbn in *. by rewrite IH. Qed.
Lemma read_strs_jstrs l : read_strs (jstrs l) = Some l.
Proof. apply mapM_as_str. Qed.

Ltac pick_branch := repeat first [rewrite decide_True by done | rewrite decide_False by done].
Lemma read_sse_event kind ev seq : read_event (sse_event kind ev seq) = Some ev.
Proof.
  unfold read_event. destruct ev as [columns [types|]|rows|[n cut [a|]] ms|[c m [engine|]]];
    cbn [sse_event ev_name ev_data jget app row_count truncated StreamRows.affected_rows e_code e_message e_engine];
    pick_branch; cbn [assoc_get]; pick_branch;
    cbn [mbind option_bind Json.as_array Json.as_str Json.as_bool read_int fmap option_fmap option_map];
    rewrite ?read_strs_jstrs, ?mapM_as_array, ?Nat2Z.id; reflexivity.
Qed.

(** The events of a query survive the wire: whatever the channel delivers, a
    client that goes by the names of events and fields reads back the same events
    in the same order, numbered from zero without a gap, and every one names the
    kind of the request. *)
Theorem sse_round_trip kind evs :
  mapM read_event (sse_body kind evs) = Some evs ∧
  ev_id <$> sse_body kind evs = seq 0 (length evs) ∧
  Forall (λ e, jget "kind" e.(ev_data) = Some (JStr kind)) (sse_body kind evs).
Proof.
  assert (Hgen : ∀ n, mapM read_event (imap (λ i ev, sse_event kind ev (n + i)) evs) = Some evs ∧
    ev_id <$> imap (λ i ev, sse_event kind ev (n + i)) evs = seq n (length evs)).
  { induction evs as [|ev evs IH]; intros n; [done|]. rewrite imap_cons. destruct (IH (S n)) as [H1 H2].
    assert (E : imap ((λ i ev, sse_event kind ev (n + i)) ∘ S) evs = imap (λ i ev, sse_event kind ev (S n + i)) evs).
    { apply imap_ext. intros i x _. cbn. f_equal. lia. }
    rewrite E. split.
    - cbn [mapM]. rewrite read_sse_event. cbn [mbind option_bind]. by rewrite H1.
    - rewrite fmap_cons, H2. cbn [length seq]. f_equal. destruct ev; cbn; lia. }
  destruct (Hgen 0) as [H1 H2]. split_and!; [exact H1|exact H2|].
  apply Forall_forall. intros e (i & ev & -> & _)%elem_of_lookup_imap_1. by destruct ev.
Qed.

(** ** What a client asks to subscribe to *)

(** A client's encoding: every byte in hexadecimal. *)
Definition hex_char (n : N) : ascii := ascii_of_N (if N.ltb n 10 then 48 + n else 55 + n)%N.
Fixpoint percent_encode (s : string) : string :=
  match s with
  | "" => ""
  | String c r => String "%" (String (hex_char (code c / 16)) (String (hex_char (code c mod 16)) (percent_encode r)))
  end.
Definition sub_query (channels patterns : list string) : string :=
  RustStr.join "&" (((λ c, "channels=" +:+ percent_encode c) <$> channels) ++ ((λ p, "patterns=" +:+ percent_encode p) <$> patterns)).

Lemma hex_pair c : let a := hex_char (code c / 16) in let b := hex_char (code c mod 16) in
  hex_byte a b = Some c ∧ is_continuation a = false ∧ is_continuation b = false ∧ a ≠ "&"%char ∧ b ≠ "&"%char.
Proof. destruct c as [[] [] [] [] [] [] [] []]; vm_compute; split_and!; done. Qed.

Lemma percent_bytes_encode s : percent_bytes (percent_encode s) = Some s.
Proof.
  induction s as [|c r IH]; [done|]. destruct (hex_pair c) as (Hb & Ha & _). cbn [percent_encode percent_bytes].
  rewrite decide_True by done.
  assert (Hcut : cut_ok (hex_char (code c / 16)) (percent_encode r) = true).
  { unfold cut_ok. rewrite Ha. by destruct r. }
  by rewrite Hcut, Hb, IH.
Qed.
Lemma percent_encode_no_amp s : no_char "&"%char (percent_encode s) = true.
Proof.
  induction s as [|c r IH]; [done|]. destruct (hex_pair c) as (_ & _ & _ & Ha & Hb). cbn [percent_encode].
  unfold no_char in *. cbn [all_chars]. rewrite !bool_decide_eq_false_2 by done. by rewrite IH.
Qed.

Lemma sub_pairs_channels cs ps acc rest : Forall (λ c, from_utf8 c = true) cs →
  sub_pairs (((λ c, "channels=" +:+ percent_encode c) <$> cs) ++ rest) (acc, ps) = sub_pairs rest (acc ++ cs, ps).
Proof.
  intros Hcs. revert acc. induction Hcs as [|c cs Hc _ IH]; intros acc; [by rewrite app_nil_r|].
  cbn [fmap list_fmap app sub_pairs]. change (split_once "="%char ("channels=" +:+ percent_encode c)) with (Some ("channels", percent_encode c)).
  cbv iota beta. unfold percent_decode at 1. rewrite percent_bytes_encode. cbn [fmap option_fmap option_map mbind option_bind].
  rewrite lossy_id by done. unfold add_target. rewrite decide_True by done. cbn [fst snd].
  by rewrite IH, <- app_assoc.
Qed.
Lemma sub_pairs_patterns cs ps acc : Forall (λ c, from_utf8 c = true) ps →
  sub_pairs ((λ c, "patterns=" +:+ percent_encode c) <$> ps) (cs, acc) = Some (cs, acc ++ ps).
Proof.
  intros Hcs. revert acc. induction Hcs as [|c ps Hc _ IH]; intros acc; [by rewrite app_nil_r|].
  cbn [fmap list_fmap app sub_pairs]. change (split_once "="%char ("patterns=" +:+ percent_encode c)) with (Some ("patterns", percent_encode c)).
  cbv iota beta. unfold percent_decode at 1. rewrite percent_bytes_encode. cbn [fmap option_fmap option_map mbind option_bind].
  rewrite lossy_id by done. unfold add_target. rewrite decide_False, decide_True by done. cbn [fst snd].
  by rewrite IH, <- app_assoc.
Qed.

Lemma parse_sub_query cs ps : Forall (λ c, from_utf8 c = true) (cs ++ ps) →
  parse_redis_sub_query (Some (sub_query cs ps)) = Some (cs, ps).
Proof.
  intros [Hcs Hps]%Forall_app. unfold parse_redis_sub_query, sub_query.
  set (xs := _ ++ _). assert (Hx : Forall (λ x, no_char "&"%char x = true ∧ is_empty x = false) xs).
  { apply Forall_app. split; apply Forall_forall; intros x (c & -> & _)%list_elem_of_fmap;
      (split; [|done]); rewrite no_char_app, percent_encode_no_amp; done. }
  destruct (decide (xs = [])) as [E|Hne].
  - rewrite E. subst xs. apply app_eq_nil in E as [E1%fmap_nil_inv E2%fmap_nil_inv]. by subst.
  - rewrite split_on_join by (try done; by eapply Forall_impl; [exact Hx|intros x []]).
    rewrite filter_all by (by eapply Forall_impl; [exact Hx|intros x []]).
    subst xs. rewrite sub_pairs_channels by done. by rewrite sub_pairs_patterns.
Qed.

(** A client that asks for channels and patterns is subscribed to exactly
    those: a query string that encodes every byte of their names, whatever
    characters they hold, is read back name for name, in order; it is accepted
    exactly when there are between one and 64 of them, and then the receipt names
    them all and the server was asked for every one. *)
Theorem subscription_round_trip opened accepts cs ps :
  Forall (λ c, from_utf8 c = true ∧ c ≠ "") (cs ++ ps) →
  parse_redis_sub_query (Some (sub_query cs ps)) = Some (cs, ps) ∧
  ∃ r, redis_subscribe opened accepts (Some (sub_query cs ps)) = Some r ∧
    (is_ok r = true ↔ 1 ≤ length (cs ++ ps) ≤ REDIS_SUB_MAX_TARGETS ∧ is_ok opened = true ∧ Forall (λ c, accepts c = true) (cs ++ ps)) ∧
    ∀ receipt, r = Ok receipt →
      receipt = JObj [("type", JStr "subscribed"); ("channels", jstrs cs); ("patterns", jstrs ps)].
Proof.
  intros Hall. assert (Hp : parse_redis_sub_query (Some (sub_query cs ps)) = Some (cs, ps)).
  { apply parse_sub_query. by eapply Forall_impl; [exact Hall|intros x []]. }
  split; [done|]. unfold redis_subscribe, sub_targets. rewrite Hp. cbn [mbind option_bind fst snd].
  assert (Hf : ∀ l : list string, (∀ c, c ∈ l → c ∈ cs ++ ps) → filter (λ c, is_empty c = false) l = l).
  { intros l Hl. apply filter_all, Forall_forall. intros c Hc%Hl. rewrite Forall_forall in Hall.
    destruct (Hall c Hc) as [_ Hne]. by destruct c. }
  rewrite !Hf by set_solver. rewrite length_app.
  destruct (length cs + length ps =? 0) eqn:E0.
  { apply Nat.eqb_eq in E0. eexists. split; [done|]. split; [|done]. split; [done|]. lia. }
  apply Nat.eqb_neq in E0. destruct (REDIS_SUB_MAX_TARGETS <? length cs + length ps) eqn:E1.
  { apply Nat.ltb_lt in E1. eexists. split; [done|]. split; [|done]. split; [done|]. lia. }
  apply Nat.ltb_ge in E1. destruct opened as [u|e].
  2:{ eexists. split; [done|]. split; [|done]. split; [done|]. by intros (_ & ? & _). }
  rewrite <- forallb_app. destruct (forallb accepts (cs ++ ps)) eqn:Ea.
  - eexists. split; [done|]. split; [|by intros ? [= <-]]. split; [|done]. intros _. split; [lia|]. split; [done|].
    apply Forall_forall. intros c Hc. by apply (proj1 (forallb_forall _ _) Ea), list_elem_of_In.
  - eexists. split; [done|]. split; [|done]. split; [done|]. intros (_ & _ & Hacc).
    assert (Ht : forallb accepts (cs ++ ps) = true); [|congruence]. apply forallb_forall. intros c Hc%list_elem_of_In.
    by apply (proj1 (Forall_forall _ _) Hacc).
Qed.

(** ** What a query may do *)

(** The call of a job to its engine carries the request, and nothing else. *)
Definition call_of (j : Job) (c : EngineCall) : Prop :=
  match j, c with
  | SqlJob sql, SqlCall _ _ sent => sent = sql
  | TdengineJob sql, TdCall _ sent => sent = sql
  | RedisCommand command, RedisCall _ commands atomic => commands = [command] ∧ atomic = false
  | RedisPipeline pipe atomic, RedisCall _ commands atomic' => commands = pipe ∧ atomic' = atomic
  | RedisCommand _, RedisAclCat _ category | RedisPipeline _ _, RedisAclCat _ category => category ∈ ["write"; "dangerous"]
  | _, _ => False
  end.
Definition mongo_call_of `{Codecs} (command : json) (c : EngineCall) : Prop :=
  match c with
  | MongoCall _ doc => doc = [("ping", BInt32 1)] ∨ json_to_command_doc command = Ok doc ∨ ∃ id coll, doc = get_more id coll
  | _ => False
  end.
Definition is_data (ev : StreamQueryEvent) : Prop := match ev with Meta _ _ | Rows _ => True | _ => False end.
(** A run inside its bounds. *)
Definition contained (P : EngineCall → Prop) (limit : nat) (r : Ran) : Prop :=
  Forall P r.(calls) ∧ Forall is_data r.(events) ∧ length (data r.(events)) ≤ limit.

Lemma contained_fails P limit e : contained P limit (fails e).
Proof. repeat split; [constructor|constructor|cbn; lia]. Qed.
Lemma contained_silent (P : EngineCall → Prop) limit o cs : Forall P cs → contained P limit {| outcome := o; events := []; calls := cs |}.
Proof. intros. repeat split; [done|constructor|cbn; lia]. Qed.
Lemma well_formed_data seen evs : well_formed seen evs → Forall is_data evs.
Proof.
  destruct evs as [|[] evs]; try done. cbn. intros [_ (fulls & last & -> & Hf & Hl)]. constructor; [done|]. apply Forall_app. split.
  - eapply Forall_impl; [exact Hf|]. by intros ev (rows & -> & _).
  - destruct Hl as [->|(rows & -> & _)]; by repeat constructor.
Qed.
Lemma contained_stream (P : EngineCall → Prop) limit secs env source o evs cs : 1 ≤ limit → Forall P cs →
  stream_rows limit secs env.(polls) env.(delivered) source = Some (o, evs) →
  contained P limit {| outcome := Some o; events := evs; calls := cs |}.
Proof.
  intros Hl Hcs Hs. destruct (stream_rows_channel _ _ _ _ _ _ _ Hl Hs) as (seen & Hlen & Hw & Hp).
  repeat split; [done|by eapply well_formed_data|]. cbn [events]. apply prefix_length in Hp. rewrite length_fmap in Hp. lia.
Qed.
Lemma contained_run_rows (P : EngineCall → Prop) limit secs env call : 1 ≤ limit → P call → contained P limit (run_rows env limit secs call).
Proof.
  intros Hl Hc. unfold run_rows. destruct (stream_rows _ _ _ _ _) as [[o evs]|] eqn:E.
  - eapply contained_stream; [done| |exact E]. by constructor.
  - apply contained_silent. by constructor.
Qed.
Lemma contained_emit (P : EngineCall → Prop) limit secs env evs i cs : Forall P cs → Forall is_data evs → length (data evs) ≤ limit →
  contained P limit (emit env secs evs i cs).
Proof.
  intros Hcs Hev Hlen. assert (Htake : length (data (take env.(delivered) evs)) ≤ limit).
  { pose proof (prefix_length _ _ (data_take evs env.(delivered))). lia. }
  unfold emit. repeat case_match; repeat split; try done; by apply Forall_take.
Qed.
Lemma table_events_are_data cols types rows : Forall is_data (table_events cols types rows).
Proof. constructor; [done|]. apply Forall_fmap, Forall_true. done. Qed.
Lemma contained_table (P : EngineCall → Prop) limit secs env cols types rows i cs : Forall P cs →
  contained P limit (emit env secs (table_events cols types (take limit rows)) i cs).
Proof.
  intros Hcs. apply contained_emit; [done|apply table_events_are_data|]. rewrite table_events_data, length_take. lia.
Qed.

Section Confined.
Context `{Codecs} (unicode_upper : char → list char) (parse_f64 : string → option Z) (fin : Z → bool) (f64_string : Z → string).

Lemma contained_sql_in env n secs retry row db raw execute sql :
  (∀ target, Forall (call_of (SqlJob sql)) (execute target).2) →
  contained (call_of (SqlJob sql)) (Nat.max n 1) (run_sql_in unicode_upper env (Nat.max n 1) secs retry row db raw execute sql).
Proof.
  intros He. unfold run_sql_in. destruct (open_resolving _ _ _ _).2 as [target|e]; [|apply contained_fails].
  destruct (is_select_statement _ _).
  - destruct raw; [apply contained_run_rows; [lia|done]|by apply contained_silent].
  - apply contained_silent, He.
Qed.
Lemma contained_inner env loaded db sql n secs :
  contained (call_of (SqlJob sql)) (Nat.max n 1) (run_inner unicode_upper env loaded db sql n secs).
Proof.
  assert (Hplain : ∀ target, Forall (call_of (SqlJob sql)) (execute_plain env target sql).2) by by repeat constructor.
  unfold run_inner. cbv zeta. destruct loaded as [[row []]|e]; try apply contained_fails;
    try (destruct (open_late env); [apply contained_fails|]);
    try (apply contained_sql_in; intros target; unfold execute_by_mode; repeat case_match; by repeat constructor).
  destruct (opens env None); [|apply contained_fails]. destruct (is_select_statement _ _).
  - apply contained_run_rows; [lia|done].
  - by apply contained_silent.
Qed.
Lemma contained_mongo env ready reply more loaded db command n secs :
  contained (mongo_call_of command) (Nat.max n 1) (run_mongo_inner env ready reply more loaded db command n secs).
Proof.
  unfold run_mongo_inner. cbv zeta. destruct loaded as [[row []]|e]; try apply contained_fails.
  destruct (json_to_command_doc command) as [doc|m] eqn:Ed; [|apply contained_fails].
  destruct (command_name_of doc) as [name|]; [|apply contained_fails].
  destruct (_ && _); [apply contained_fails|].
  assert (Hs : ∀ t, Forall (mongo_call_of command) [MongoCall t [("ping", BInt32 1)]; MongoCall t doc]).
  { intros t. constructor; [by left|]. constructor; [by right; left|constructor]. }
  destruct (in_time secs ready); [|apply contained_silent; constructor; [by left|constructor]].
  destruct (is_write_command _ _); [by apply contained_silent|].
  destruct (in_time secs (reply doc)) as [resp|e]; [|by apply contained_silent].
  destruct (cursor_first_batch resp) as [[[batch id] ns]|].
  - assert (Hm : ∀ t k, Forall (mongo_call_of command) ([MongoCall t [("ping", BInt32 1)]; MongoCall t doc] ++
        (MongoCall t <$> get_mores (ns_to_coll ns) more id (length batch) k))).
    { intros t k. apply Forall_app. split; [apply Hs|]. apply Forall_fmap. eapply Forall_impl; [apply get_mores_shape|].
      intros d [i ->]. right. right. by exists i, (ns_to_coll ns). }
    destruct (stream_rows _ _ _ _ _) as [[o evs]|] eqn:E; [|by apply contained_silent].
    by eapply contained_stream; [lia| |exact E].
  - apply contained_emit; [done|by repeat constructor|cbn; lia].
Qed.
Lemma contained_redis env opened cats reply conn loaded db command pipeline atomic n secs cache (P : EngineCall → Prop) :
  (∀ idx cmd, command = Some cmd → P (RedisCall idx [cmd] false)) →
  (∀ idx pipe, pipeline = Some pipe → P (RedisCall idx pipe atomic)) →
  (∀ idx category, category ∈ ["write"; "dangerous"] → P (RedisAclCat idx category)) →
  contained P (Nat.max n 1) (run_redis_inner from_utf8_lossy parse_f64 fin f64_string env opened cats reply conn loaded db
    command pipeline atomic n secs cache).1.
Proof.
  intros Hc Hp Ha. unfold run_redis_inner. cbv zeta. destruct loaded as [[row []]|e]; try apply contained_fails.
  destruct (in_time secs opened); [|apply contained_fails].
  assert (Hsend : ∀ idx commands at_ table, P (RedisCall idx commands at_) →
    contained P (Nat.max n 1) (redis_send env reply (Nat.max n 1) secs idx commands at_ table)).
  { intros idx commands at_ table Hcall. unfold redis_send. destruct (in_time secs _) as [rs|]; [|by apply contained_silent; repeat constructor].
    destruct (table rs) as [cols rows]. apply contained_table. by repeat constructor. }
  assert (Hg : ∀ idx names k, contained P (Nat.max n 1) k → contained P (Nat.max n 1)
    (if (StreamQuery.r_read_only row =? 0)%Z then (k, cache)
     else let '(ok, cache') := guard_read_only conn (fetch_acl_classes cats.1 cats.2) names cache in
          (after (RedisAclCat idx <$> guard_sends conn cats names cache) (if ok then k else fails (read_only_error "command")), cache')).1).
  { intros idx names k Hk. destruct (_ =? 0)%Z; [done|].
    assert (Hcat : Forall P (RedisAclCat idx <$> guard_sends conn cats names cache)).
    { apply Forall_fmap. eapply Forall_impl; [apply guard_sends_cats|]. intros cat. apply Ha. }
    destruct (guard_read_only _ _ _ _) as [[] c]; cbn [fst].
    - destruct Hk as (H1 & H2 & H3). split; [by apply Forall_app|done].
    - apply contained_silent. by rewrite app_nil_r. }
  destruct command as [[|name args]|]; [apply contained_fails|by apply Hg, Hsend, Hc|].
  destruct pipeline as [entries|]; [|apply contained_fails]. apply (Hg _ (omap head entries)).
  destruct (bool_decide ([] ∈ entries)); [apply contained_fails|]. by apply Hsend, Hp.
Qed.
Lemma contained_tdengine env exec loaded db sql n secs :
  contained (call_of (TdengineJob sql)) (Nat.max n 1) (run_tdengine_inner env exec loaded db sql n secs).
Proof.
  unfold run_tdengine_inner. cbv zeta. destruct loaded as [[row []]|e]; try apply contained_fails.
  destruct (_ && _); [apply contained_fails|].
  assert (Hs : ∀ d, Forall (call_of (TdengineJob sql)) [TdCall d sql]) by by repeat constructor.
  destruct (cancel_now env); [by apply contained_silent|]. destruct (expired_now env); [by apply contained_silent|].
  destruct (read_reply _) as [o|e]; [|by apply contained_silent]. destruct (is_write_statement sql); [by apply contained_silent|].
  by apply contained_table.
Qed.
End Confined.

(** A job's own calls. *)
Definition job_call `{Codecs} (j : Job) : EngineCall → Prop :=
  match j with MongoJob command => mongo_call_of command | j => call_of j end.
Lemma run_job_contained `{Codecs} up pf fin fs o conn p cache :
  contained (job_call p.(p_job)) (Nat.max (Z.to_nat p.(p_limit)) 1) (run_job up pf fin fs o conn p cache).1.
Proof.
  unfold run_job. destruct (p_job p) as [sql|command|command|pipe atomic|sql]; cbn [fst job_call].
  - apply contained_inner.
  - apply contained_mongo.
  - apply contained_redis; [by intros ?? [= ->]|done|done].
  - apply contained_redis; [done|by intros ?? [= ->]|done].
  - apply contained_tdengine.
Qed.

Lemma clamp_within lo hi x y : clamp lo hi x = Some y → (lo ≤ y ≤ hi)%Z.
Proof. unfold clamp. destruct (hi <? lo)%Z eqn:E; [done|]. apply Z.ltb_ge in E. intros [= <-]. lia. Qed.

Section Admission.
Context (parse_mysql parse_pg parse_generic : string → option (list Statement)).
Local Notation statement_count := (Risk.statement_count parse_mysql parse_pg parse_generic).

(** What a job was asked for in. *)
Definition asked_for (b : QueryBody) (j : Job) : Prop :=
  kind_of j = default "sql" b.(q_kind) ∧
  match j with
  | SqlJob sql | TdengineJob sql => b.(q_sql) = Some sql ∧ trim sql ≠ "" ∧ statement_count (trim sql) ≤ 1
  | MongoJob command => b.(q_command) = Some command
  | RedisCommand command => b.(q_command) = Some (jstrs command) ∧ command ≠ [] ∧ b.(q_pipeline) = None
  | RedisPipeline pipe atomic => b.(q_pipeline) = Some pipe ∧ pipe_valid pipe = true ∧ atomic = default false b.(q_atomic)
  end.

Lemma one_statement_inv job sql j : one_statement parse_mysql parse_pg parse_generic job sql = Ok j →
  ∃ s, sql = Some s ∧ j = job s ∧ trim s ≠ "" ∧ statement_count (trim s) ≤ 1.
Proof.
  destruct sql as [s|]; [|done]. cbn [one_statement]. destruct (is_empty (trim s)) eqn:Ee; [done|].
  destruct (1 <? statement_count (trim s)) eqn:Ec; [done|]. intros [= <-]. exists s. apply Nat.ltb_ge in Ec.
  split_and!; [done..| |done]. by destruct (trim s).
Qed.
Lemma command_array_inv command cmd : command_array command = Some cmd → command = Some (jstrs cmd) ∧ cmd ≠ [].
Proof.
  unfold command_array. destruct command as [[| | | | |items|]|]; try done. cbn [mbind option_bind Json.as_array].
  destruct (mapM Json.as_str items) as [parts|] eqn:E; [|done]. intros Hp.
  assert (parts = cmd ∧ cmd ≠ []) as [-> Hne] by (destruct parts; [done|]; by injection Hp as <-).
  split; [|done]. unfold jstrs. repeat f_equal. apply mapM_Some in E. clear Hp Hne.
  induction E as [|j s items parts Hj _ IH]; [done|]. rewrite fmap_cons, IH. f_equal. by destruct j; try done; injection Hj as ->.
Qed.

Lemma validate_query_inv b j : validate_query parse_mysql parse_pg parse_generic b = Ok j → asked_for b j.
Proof.
  unfold validate_query, asked_for. cbv zeta. case_decide as E1.
  { intros (s & -> & -> & H)%one_statement_inv. by rewrite E1. }
  case_decide as E2.
  { destruct (q_command b) as [[| | | | | |[|[k v] m]]|]; try done. intros [= <-]. by rewrite E2. }
  case_decide as E3.
  { unfold redis_job. destruct (command_array _) as [cmd|] eqn:Ec.
    - destruct (q_pipeline b); [done|]. intros [= <-]. rewrite E3. by apply command_array_inv in Ec as [-> ?].
    - destruct (q_pipeline b) as [pipe|]; [|done]. destruct (pipe_valid pipe) eqn:Ev; [|done]. intros [= <-]. by rewrite E3. }
  case_decide as E4; [|done]. intros (s & -> & -> & H)%one_statement_inv. by rewrite E4.
Qed.

End Admission.

(** A query that is started is answered exactly once.  If its reader stays and,
    should the task panic, the channel has room, the stream ends with one terminal
    event and holds no other: [complete] if the query succeeded, or [error] with
    the very code that is audited.  If the reader is gone there is none. *)
Lemma answered_once `{Codecs} up pf fin fs o conn p cache e ms receiver room :
  let r := (run_job up pf fin fs o conn p cache).1 in
  ∃ last, stream_events e r.(events) ms receiver room = r.(events) ++ last ∧ Forall is_data r.(events) ∧
    (receiver && (room || match e with Ended _ => true | Panicked _ => false end) = true →
       ∃ ev, last = [ev] ∧ match outcome_of e, ev with
                           | Ok i, Complete i' ms' => i' = i ∧ ms' = ms
                           | Err err, ErrorEvent err' => err' = err
                           | _, _ => False
                           end) ∧
    (receiver = false → last = []).
Proof.
  cbv zeta. pose proof (run_job_contained up pf fin fs o conn p cache) as (_ & Hd & _).
  destruct e as [[i|err]|reason]; unfold stream_events, with_terminal; eexists; (split; [reflexivity|]);
    (split; [exact Hd|]); destruct receiver, room; cbn [andb orb terminal outcome_of]; split; intros; try done; by eexists.
Qed.

(** ** Examples *)

(** A panicking task whose channel is full leaves the stream without an end. *)
Example full_channel_hides_a_panic : stream_events (Panicked "todo") [Meta ["a"] None] 1 true false = [Meta ["a"] None].
Proof. reflexivity. Qed.
(** A percent sign whose two bytes end inside a character panics the handler, and a
    plus sign counts as a digit. *)
Example percent_cut_panics : percent_decode (String "%" (String "a" "é")) = None.
Proof. reflexivity. Qed.
Example percent_plus_digit : percent_decode "%+1" = Some (String "001" "").
Proof. reflexivity. Qed.

Example subscription_round_trip_witness :
  parse_redis_sub_query (Some (sub_query ["a&b"; "é"] ["p*"])) = Some (["a&b"; "é"], ["p*"]).
Proof.
  apply (subscription_round_trip (Ok tt) (λ _, true) ["a&b"; "é"] ["p*"]). repeat constructor; by vm_compute.
Defined.

Definition ex_limits : Limits := {| default_rows := 500; max_rows := 10000; query_timeout_secs := 30 |}.
Definition ex_query : QueryBody :=
  {| q_sql := Some " SELECT 1 "; q_kind := None; q_command := None; q_pipeline := None; q_atomic := None; q_database := Some "d";
     q_schema := None; q_row_limit := Some 0%Z; q_timeout_ms := None |}.
