(* ===== verification/GatewayStats.v ===== *)
(** * Slow queries of the gateway (crates/automation/src/stream_query.rs, the four
    [run_stream_*], with query_stats.rs)

    Each channel of [StreamQuery] has a caller that times it, offers it to the statistics
    of [QueryStats], and sends the last event.  What the statistics keep is what the
    client was told. *)

From S2P Require Import Prelude RateLimiter SqlSplit RustStr Json QueryStats StreamRows TdengineLeg RedisLeg MongoLeg StreamQuery GatewayQuery.
From stdpp Require Import strings list.

(** ** The callers *)

(** What a stream reports to the statistics. *)
Definition reported (o : result StreamQueryError CompleteInfo) : result string (Z * option Z) :=
  match o with Ok i => Ok (Z.of_nat i.(StreamRows.row_count), i.(StreamRows.affected_rows)) | Err e => Err e.(e_code) end.

Section Streams.
Context `{Codecs} (unicode_upper : char → list char) (parse_f64 : string → option Z) (fin : Z → bool) (f64_string : Z → string).
Context (to_uppercase : string → string) (print : json → string).

(** A stream as its client and the statistics see it. *)
Record Seen := { sent_events : list StreamQueryEvent; sample : option Capture; recorder : option QueryStatsRecorder }.
(** The end of every caller; the clock, how long the channel took, whether the client is
    there.  A channel that panicked has no end. *)
Definition finish_stream (now elapsed_ms : Z) (receiver : bool) (conn_id : string) (db : option string) (payload : option CapturePayload)
    (r : Ran) (g : option QueryStatsRecorder) : Seen :=
  match r.(outcome) with
  | None => {| sent_events := r.(events); sample := None; recorder := g |}
  | Some o =>
      let '(c, g') := match payload with
                      | Some p => record_stream to_uppercase print now elapsed_ms conn_id db p (reported o) g
                      | None => (None, g)
                      end in
      {| sent_events := with_terminal o r.(events) elapsed_ms receiver; sample := c; recorder := g' |}
  end.
Definition run_stream_query (now elapsed_ms : Z) (receiver : bool) (o : Outside) (conn_id : string) (db : option string) (sql : string)
    (limit : nat) (secs : Z) : option QueryStatsRecorder → Seen :=
  finish_stream now elapsed_ms receiver conn_id db (Some (PSql sql)) (run_inner unicode_upper o.(o_env) o.(o_loaded) db sql limit secs).
Definition run_stream_mongo (now elapsed_ms : Z) (receiver : bool) (o : Outside) (conn_id : string) (db : option string) (command : json)
    (limit : nat) (secs : Z) : option QueryStatsRecorder → Seen :=
  finish_stream now elapsed_ms receiver conn_id db (Some (PMongo command))
    (run_mongo_inner o.(o_env) o.(o_mongo_ready) o.(o_mongo_reply) o.(o_mongo_more) o.(o_loaded) db command limit secs).
Definition run_stream_redis (now elapsed_ms : Z) (receiver : bool) (o : Outside) (conn_id : string) (db : option string)
    (command : option (list string)) (pipeline : option (list (list string))) (atomic : bool) (limit : nat) (secs : Z)
    (g : option QueryStatsRecorder) (cache : Cache) : Seen * Cache :=
  let '(r, cache') := run_redis_inner from_utf8_lossy parse_f64 fin f64_string o.(o_env) o.(o_redis_opened) o.(o_redis_cats) o.(o_redis_reply)
    conn_id o.(o_loaded) db command pipeline atomic limit secs cache in
  (finish_stream now elapsed_ms receiver conn_id db
     (match command with Some c => Some (PRedis c) | None => PRedisPipeline <$> pipeline end) r g, cache').
Definition run_stream_tdengine (now elapsed_ms : Z) (receiver : bool) (o : Outside) (conn_id : string) (db : option string) (sql : string)
    (limit : nat) (secs : Z) : option QueryStatsRecorder → Seen :=
  finish_stream now elapsed_ms receiver conn_id db (Some (PSql sql)) (run_tdengine_inner o.(o_env) o.(o_taos) o.(o_loaded) db sql limit secs).
(** The task of a query: the caller for its kind. *)
Definition execute_query (now elapsed_ms : Z) (receiver : bool) (o : Outside) (conn_id : string) (p : Plan) (g : option QueryStatsRecorder) (cache : Cache)
    : Seen * Cache :=
  let limit := Z.to_nat p.(p_limit) in
  let secs := (p.(p_timeout_ms) / 1000)%Z in
  match p.(p_job) with
  | MongoJob command => (run_stream_mongo now elapsed_ms receiver o conn_id p.(p_database) command limit secs g, cache)
  | RedisCommand command => run_stream_redis now elapsed_ms receiver o conn_id p.(p_database) (Some command) None false limit secs g cache
  | RedisPipeline pipe atomic => run_stream_redis now elapsed_ms receiver o conn_id p.(p_database) None (Some pipe) atomic limit secs g cache
  | TdengineJob sql => (run_stream_tdengine now elapsed_ms receiver o conn_id p.(p_database) sql limit secs g, cache)
  | SqlJob sql => (run_stream_query now elapsed_ms receiver o conn_id p.(p_database) sql limit secs g, cache)
  end.

(** ** What is sampled *)

Definition payload_of (j : Job) : CapturePayload :=
  match j with
  | SqlJob sql | TdengineJob sql => PSql sql
  | MongoJob command => PMongo command
  | RedisCommand command => PRedis command
  | RedisPipeline pipe _ => PRedisPipeline pipe
  end.
Lemma execute_query_runs now elapsed_ms receiver o conn_id p g cache :
  (execute_query now elapsed_ms receiver o conn_id p g cache).1 =
  finish_stream now elapsed_ms receiver conn_id p.(p_database) (Some (payload_of p.(p_job)))
    (run_job unicode_upper parse_f64 fin f64_string o conn_id p cache).1 g.
Proof.
  unfold execute_query, run_job, run_stream_redis. destruct p.(p_job); try reflexivity;
    by destruct (run_redis_inner _ _ _ _ _ _ _ _ _ _ _ _ _ _ _ _ _).
Qed.

(** A sample agrees with the last event of the stream. *)
Definition tells (ev : StreamQueryEvent) (c : Capture) : Prop :=
  match ev with
  | Complete i ms => c.(c_status) = "ok" ∧ c.(c_error_code) = None ∧ c.(c_row_count) = Some (Z.of_nat i.(StreamRows.row_count)) ∧
      c.(c_affected_rows) = i.(StreamRows.affected_rows) ∧ ms = c.(c_elapsed_ms)
  | ErrorEvent e => c.(c_row_count) = None ∧ c.(c_affected_rows) = None ∧
      (if decide (e.(e_code) = "CANCELLED") then c.(c_status) = "cancelled" ∧ c.(c_error_code) = None
       else c.(c_status) = "error" ∧ c.(c_error_code) = Some e.(e_code))
  | _ => False
  end.
Lemma record_terminal now elapsed_ms conn_id db payload o g c g' :
  record_stream to_uppercase print now elapsed_ms conn_id db payload (reported o) g = (Some c, g') →
  tells (terminal o elapsed_ms) c ∧ c.(c_conn_id) = conn_id ∧ c.(c_database) = db ∧ c.(c_entry) = "gw_sse" ∧ c.(c_elapsed_ms) = elapsed_ms ∧
  c.(c_digest) = normalize_digest to_uppercase payload ∧
  ∃ r, g = Some r ∧ r.(enabled) = true ∧ (r.(threshold_ms) ≤ elapsed_ms)%Z ∧ (r.(store_sql) = false → c.(c_sql_text) = None).
Proof.
  unfold record_stream, global_record, record, gate. destruct (stream_outcome _) as [[oc rows] affected] eqn:Eo.
  destruct g as [r|]; [|done]. destruct (negb r.(enabled) || _) eqn:Eg; [done|]. apply orb_false_iff in Eg as [He%negb_false_iff Hl%Z.ltb_ge].
  destruct (RateLimiter.check_and_record _ _ _ _ _) as [[] l]; [|done]. intros [= <- _]. cbn. split.
  - destruct o as [i|e]; cbn in Eo |- *; [|case_decide]; injection Eo as <- <- <-; by split_and!.
  - split_and!; [done..|]. exists r. split_and!; [done..|]. by intros ->.
Qed.

(** C37.  What the statistics keep of a query is what its client was told: a sample is
    taken only of a query that ended, took at least the threshold and while sampling is
    on; it names the connection, the database, the digest of the very statement that was
    run, and the status, error code and counts of the last event, which is sent after
    nothing but data; it has no text when texts are not to be kept.  Whether a sample is
    taken never changes the events. *)
Theorem sampled_as_answered now elapsed_ms receiver o conn_id p g cache :
  let '(seen, cache') := execute_query now elapsed_ms receiver o conn_id p g cache in
  (∀ g', ((execute_query now elapsed_ms receiver o conn_id p g' cache).1).(sent_events) = seen.(sent_events)) ∧
  match seen.(sample) with
  | None => True
  | Some c => ∃ data ev, seen.(sent_events) = data ++ (if receiver then [ev] else []) ∧ Forall is_data data ∧
      (Z.of_nat (length (StreamRows.data data)) ≤ Z.max 1 p.(p_limit))%Z ∧ tells ev c ∧
      c.(c_conn_id) = conn_id ∧ c.(c_database) = p.(p_database) ∧ c.(c_entry) = "gw_sse" ∧ c.(c_elapsed_ms) = elapsed_ms ∧
      c.(c_digest) = normalize_digest to_uppercase (payload_of p.(p_job)) ∧
      ∃ r, g = Some r ∧ r.(enabled) = true ∧ (r.(threshold_ms) ≤ elapsed_ms)%Z ∧ (r.(store_sql) = false → c.(c_sql_text) = None)
  end.
Proof.
  destruct (execute_query now elapsed_ms receiver o conn_id p g cache) as [seen cache'] eqn:E.
  assert (Es : seen = finish_stream now elapsed_ms receiver conn_id p.(p_database) (Some (payload_of p.(p_job)))
    (run_job unicode_upper parse_f64 fin f64_string o conn_id p cache).1 g) by (by rewrite <- execute_query_runs, E). subst seen.
  pose proof (run_job_contained unicode_upper parse_f64 fin f64_string o conn_id p cache) as (_ & Hd & Hl). clear E. split.
  - intros g'. rewrite execute_query_runs. unfold finish_stream. destruct (outcome _) as [out|]; [|done].
    destruct (record_stream _ _ _ _ _ _ _ _ g') as [c1 g1], (record_stream _ _ _ _ _ _ _ _ g) as [c2 g2]. done.
  - unfold finish_stream. destruct (outcome _) as [out|]; [|done].
    destruct (record_stream _ _ _ _ _ _ _ _ g) as [[c|] g'] eqn:Er; [|done]. cbn [sample sent_events].
    apply record_terminal in Er as (Ht & Hrest). eexists _, (terminal out elapsed_ms). split; [reflexivity|]. split; [exact Hd|].
    split; [lia|]. by split.
Qed.
End Streams.

(** ** A failed query, and how it is counted *)

#[local] Existing Instance ex_codecs.
Definition ex_outside : Outside :=
  {| o_env := ex_quiet; o_loaded := Err ("NOT_FOUND", "connection 'c1' not found"); o_mongo_ready := None; o_mongo_reply := λ _, None; o_mongo_more := [];
     o_redis_opened := None; o_redis_cats := (None, None); o_redis_reply := λ _, None; o_taos := λ _ _, None |}.
Definition ex_plan : Plan :=
  {| p_job := SqlJob "SELECT * FROM t WHERE id = 42"; p_database := Some "d"; p_limit := 10; p_timeout_ms := 30000; p_execution := "x" |}.
Definition ex_recorder (keep_text : bool) : QueryStatsRecorder :=
  recorder_new {| slow_query_enabled := true; slow_query_threshold_ms := 100; slow_query_store_sql := keep_text; slow_query_cap_per_digest_per_hour := 5 |}.
Notation ex_seen ms keep := (execute_query (λ c, [c]) (λ _, None) (λ _, true) (λ _, "") to_ascii_lowercase (λ _, "") 0 ms true ex_outside "c1" ex_plan
  (Some (ex_recorder keep)) ∅).1.
Lemma sampled_as_answered_witness :
  (ex_seen 99%Z true).(sample) = None ∧
  match (ex_seen 250%Z false).(sample) with
  | Some c => c.(c_digest) = "SELECT * FROM t WHERE id = ?" ∧ c.(c_sql_text) = None ∧ c.(c_elapsed_ms) = 250%Z ∧
      c.(c_status) = "error" ∧ c.(c_error_code) = Some "NOT_FOUND"
  | None => False
  end.
Proof.
  split; [by vm_compute|].
  assert (Hs : match (ex_seen 250%Z false).(sample) with
               | Some c => c.(c_digest) = "SELECT * FROM t WHERE id = ?" ∧ c.(c_status) = "error" ∧ c.(c_error_code) = Some "NOT_FOUND"
               | None => False end) by (by vm_compute).
  pose proof (sampled_as_answered (λ c, [c]) (λ _, None) (λ _, true) (λ _, "") to_ascii_lowercase (λ _, "") 0 250 true ex_outside "c1" ex_plan
    (Some (ex_recorder false)) ∅) as Ht. destruct (execute_query _ _ _ _ _ _ _ _ _ _ _ _ _ _) as [seen cache']. cbn [fst] in Hs |- *.
  destruct Ht as [_ Ht]. destruct (sample seen) as [c|]; [|done]. destruct Ht as (data & ev & _ & _ & _ & _ & _ & _ & _ & He & _ & r & [= <-] & _ & _ & Hk).
  destruct Hs as (Hd & Hst & Hc). split_and!; [done|by apply Hk|done|done|done].
Defined.
