(* ===== verification/Gateway.v ===== *)
(** * The query gateway (crates/gateway/src/auth.rs, audit.rs, lib.rs,
    handlers.rs)

    The guard in front of every endpoint, the audit trail, the registry that makes
    running executions cancellable, the registry of Redis subscriptions, and the
    life of an execution: registered, ended, unlisted, audited.  Every access to a
    registry, to the limiter and to the audit table is one atomic statement, and
    what lies between two of them is a step of its own where another request may
    come in between. *)

From S2P Require Import Prelude RustStr Json RateLimiter AppError Accounts McpTokens Credential.
From S2P Require Import SqlSplit Risk DbFamily Connections StreamRows StreamQuery GatewayConn GatewayQuery.
From stdpp Require Import strings list gmap.

(** ** The audit trail *)

Inductive GwAuditAction : Type := AuthRejected | RateLimited | QueryExec | ConnectionRegistered | ConnectionRemoved.
Definition as_db_str (a : GwAuditAction) : string :=
  match a with
  | AuthRejected => "auth_rejected" | RateLimited => "rate_limited" | QueryExec => "query_exec"
  | ConnectionRegistered => "connection_registered" | ConnectionRemoved => "connection_removed"
  end.
Definition default_status (a : GwAuditAction) : string :=
  match a with AuthRejected | RateLimited => "error" | _ => "ok" end.
Definition truncate_bounded (s : string) : string :=
  if char_count s <=? 500 then s else take_chars 500 s +:+ "…[truncated]".
Record AuditRow := { g_user : option string; g_action : string; g_status : string; g_error : option string }.
Definition audit_row (user : option string) (action : GwAuditAction) (error : option string) : AuditRow :=
  let err := truncate_bounded <$> error in
  {| g_user := user; g_action := as_db_str action;
     g_status := match err with None => default_status action | Some _ => "error" end; g_error := err |}.

(** ** State *)

(** A running task is listed until it has ended and unlisted itself; then it writes
    its audit row. *)
Inductive Phase : Type :=
| Running | Finished (code : option string) | Unlisted (code : option string) | Reported (code : option string) (written : bool).
Record Execution := {
  x_id : string; x_token : nat; x_user : string; x_conn : string; x_plan : Plan; x_phase : Phase }.
Definition listed (x : Execution) : bool := match x.(x_phase) with Running | Finished _ => true | _ => false end.
(** A subscription is attached once its token is registered. *)
Record Subscription := { s_conn : string; s_token : option nat }.

Record Gw := {
  limiter : SlidingWindowLimiter; rows : Table; audit : list AuditRow;
  executions : gmap string nat; redis_subs : gmap string (list nat);
  next_token : nat; cancelled_tokens : gset nat;
  jobs : list Execution; streams : list Subscription }.
Definition initial (rows : Table) : Gw :=
  {| limiter := RateLimiter.new; rows := rows; audit := []; executions := ∅; redis_subs := ∅; next_token := 0;
     cancelled_tokens := ∅; jobs := []; streams := [] |}.

Definition log_gw_event (ok : bool) (user : option string) (action : GwAuditAction) (error : option string) (s : Gw) : Gw :=
  if ok then {| limiter := s.(limiter); rows := s.(rows); audit := s.(audit) ++ [audit_row user action error];
                executions := s.(executions); redis_subs := s.(redis_subs); next_token := s.(next_token);
                cancelled_tokens := s.(cancelled_tokens); jobs := s.(jobs); streams := s.(streams) |}
  else s.
Definition with_limiter (l : SlidingWindowLimiter) (s : Gw) : Gw :=
  {| limiter := l; rows := s.(rows); audit := s.(audit); executions := s.(executions); redis_subs := s.(redis_subs);
     next_token := s.(next_token); cancelled_tokens := s.(cancelled_tokens); jobs := s.(jobs); streams := s.(streams) |}.
Definition with_rows (t : Table) (s : Gw) : Gw :=
  {| limiter := s.(limiter); rows := t; audit := s.(audit); executions := s.(executions); redis_subs := s.(redis_subs);
     next_token := s.(next_token); cancelled_tokens := s.(cancelled_tokens); jobs := s.(jobs); streams := s.(streams) |}.
Definition with_jobs (e : gmap string nat) (js : list Execution) (s : Gw) : Gw :=
  {| limiter := s.(limiter); rows := s.(rows); audit := s.(audit); executions := e; redis_subs := s.(redis_subs);
     next_token := s.(next_token); cancelled_tokens := s.(cancelled_tokens); jobs := js; streams := s.(streams) |}.

(** ** The registries *)

(** [ExecutionRegistry::register]: the token of the same identifier, if there is
    one, is replaced. *)
Definition register_execution (id user conn : string) (p : Plan) (s : Gw) : Gw :=
  {| limiter := s.(limiter); rows := s.(rows); audit := s.(audit);
     executions := <[id := s.(next_token)]> s.(executions); redis_subs := s.(redis_subs);
     next_token := S s.(next_token); cancelled_tokens := s.(cancelled_tokens);
     jobs := s.(jobs) ++ [{| x_id := id; x_token := s.(next_token); x_user := user; x_conn := conn; x_plan := p; x_phase := Running |}];
     streams := s.(streams) |}.
Definition cancel_tokens (ts : list nat) (s : Gw) : Gw :=
  {| limiter := s.(limiter); rows := s.(rows); audit := s.(audit); executions := s.(executions);
     redis_subs := s.(redis_subs); next_token := s.(next_token);
     cancelled_tokens := s.(cancelled_tokens) ∪ list_to_set ts; jobs := s.(jobs); streams := s.(streams) |}.
Definition cancel (id : string) (s : Gw) : Gw :=
  match s.(executions) !! id with Some t => cancel_tokens [t] s | None => s end.
(** [RedisSubRegistry::register] and [::revoke]. *)
Definition attach (i : nat) (s : Gw) : Gw :=
  match s.(streams) !! i with
  | Some {| s_conn := c; s_token := None |} =>
      {| limiter := s.(limiter); rows := s.(rows); audit := s.(audit); executions := s.(executions);
         redis_subs := <[c := default [] (s.(redis_subs) !! c) ++ [s.(next_token)]]> s.(redis_subs);
         next_token := S s.(next_token); cancelled_tokens := s.(cancelled_tokens); jobs := s.(jobs);
         streams := <[i := {| s_conn := c; s_token := Some s.(next_token) |}]> s.(streams) |}
  | _ => s
  end.
Definition revoke (c : string) (s : Gw) : Gw :=
  match s.(redis_subs) !! c with
  | Some ts =>
      let s := cancel_tokens ts s in
      {| limiter := s.(limiter); rows := s.(rows); audit := s.(audit); executions := s.(executions);
         redis_subs := delete c s.(redis_subs); next_token := s.(next_token);
         cancelled_tokens := s.(cancelled_tokens); jobs := s.(jobs); streams := s.(streams) |}
  | None => s
  end.

(** ** Requests *)

(** What a request finds: the clocks, whether its audit row is written, and a fresh
    UUID. *)
Record Answer := { g_secs : Z; g_instant : Z; g_audit_ok : bool; g_uuid : string }.
(** [Browse] stands for the listings and the test of a draft, which change nothing
    here; a body that is not JSON is none. *)
Inductive Req : Type :=
| Query (exec_header : option string) (conn : string) (body : option QueryBody)
| CancelExecution (id : string)
| Subscribe (conn : string) (raw : option string) (opened : result MetadataError unit) (accepts : string → bool)
| RegisterConn (reg : RegAnswer) (body : RegisterBody)
| RemoveConn (delete_ok : bool) (referenced : gset string) (conn : string)
| Browse.
Inductive Reply : Type :=
| Rejected (status : Z) (message : string) | Plain (r : Response) | Stream (execution : string)
| Subscribed (receipt : json) | Browsed | Panic.

Section Gateway.
Context `{Jwt, Printer, Reader, Cipher} (cfg : Accounts.Config) (gw_rate_limit_per_minute : Z) (limits : Limits).
Context (uuid_ok : string → bool) (vault_key : string).
Context (parse_mysql parse_pg parse_generic : string → option (list Statement)).

Definition guard (a : Answer) (header : option string) (s : Gw) : (Reply + Claims) * Gw :=
  match header ≫= str_strip_prefix "Bearer " with
  | None =>
      (inl (Rejected 401 "Missing Authorization header. Expected: Bearer <token>"),
       log_gw_event a.(g_audit_ok) None AuthRejected (Some "missing or malformed Authorization header") s)
  | Some token =>
      match verify_access_token cfg a.(g_secs) token with
      | Err e => (inl (Rejected 401 "Invalid or expired token"),
                  log_gw_event a.(g_audit_ok) None AuthRejected (Some ("invalid token: " +:+ debug_error e)) s)
      | Ok c =>
          let max := Z.to_nat gw_rate_limit_per_minute in
          let '(ok, l) := check_and_record a.(g_instant) c.(sub) max WINDOW_SECS s.(limiter) in
          let s := with_limiter l s in
          if ok then (inr c, s)
          else (inl (Rejected 429 ("gateway rate limit exceeded (" +:+ decimal (N.of_nat max) +:+ " req/min); retry after the window")),
                log_gw_event a.(g_audit_ok) (Some c.(sub)) RateLimited
                  (Some ("exceeded " +:+ decimal (N.of_nat max) +:+ " req/min sliding window")) s)
      end
  end.

Definition handle (a : Answer) (user : string) (r : Req) (s : Gw) : Reply * Gw :=
  match r with
  | Query header conn None => (Plain (config_error "invalid JSON body"), s)
  | Query header conn (Some b) =>
      match plan parse_mysql parse_pg parse_generic limits uuid_ok a.(g_uuid) header b with
      | None => (Panic, s)
      | Some (Err e) => (Plain e, s)
      | Some (Ok p) => (Stream p.(p_execution), register_execution p.(p_execution) user conn p s)
      end
  | CancelExecution id => (Plain {| status := 204; body := JNull |}, cancel id s)
  | Subscribe conn raw opened accepts =>
      match redis_subscribe opened accepts raw with
      | None => (Panic, s)
      | Some (Err e) => (Plain e, s)
      | Some (Ok receipt) =>
          (Subscribed receipt,
           {| limiter := s.(limiter); rows := s.(rows); audit := s.(audit); executions := s.(executions);
              redis_subs := s.(redis_subs); next_token := s.(next_token); cancelled_tokens := s.(cancelled_tokens);
              jobs := s.(jobs); streams := s.(streams) ++ [{| s_conn := conn; s_token := None |}] |})
      end
  | RegisterConn reg b =>
      let '(r, t, audited) := register_connection vault_key reg user b s.(rows) in
      (Plain r, log_gw_event (audited && a.(g_audit_ok)) (Some user) ConnectionRegistered None (with_rows t s))
  | RemoveConn delete_ok referenced conn =>
      let s := revoke conn s in
      let '(r, t) := remove_connection delete_ok referenced conn s.(rows) in
      (Plain r, log_gw_event a.(g_audit_ok) (Some user) ConnectionRemoved None (with_rows t s))
  | Browse => (Browsed, s)
  end.
Definition serve (a : Answer) (header : option string) (r : Req) (s : Gw) : Reply * Gw :=
  match guard a header s with
  | (inl reply, s) => (reply, s)
  | (inr c, s) => handle a c.(sub) r s
  end.

(** ** Steps *)

Inductive Act : Type :=
| Request (a : Answer) (header : option string) (r : Req)
| Attach (stream : nat)
| Finish (job : nat) (e : Ending)
| Unlist (job : nat)
| Report (job : nat) (audit_ok : bool).

Definition with_phase (ph : Phase) (x : Execution) : Execution :=
  {| x_id := x.(x_id); x_token := x.(x_token); x_user := x.(x_user); x_conn := x.(x_conn); x_plan := x.(x_plan); x_phase := ph |}.
Definition code_of (e : Ending) : option string :=
  match outcome_of e with Ok _ => None | Err e => Some e.(e_code) end.
(** A step that is not due changes nothing. *)
Definition step (act : Act) (s : Gw) : Gw :=
  match act with
  | Request a header r => (serve a header r s).2
  | Attach i => attach i s
  | Finish i e =>
      match s.(jobs) !! i with
      | Some x => match x.(x_phase) with
                  | Running => with_jobs s.(executions) (<[i := with_phase (Finished (code_of e)) x]> s.(jobs)) s
                  | _ => s
                  end
      | None => s
      end
  | Unlist i =>
      match s.(jobs) !! i with
      | Some x => match x.(x_phase) with
                  | Finished code => with_jobs (delete x.(x_id) s.(executions)) (<[i := with_phase (Unlisted code) x]> s.(jobs)) s
                  | _ => s
                  end
      | None => s
      end
  | Report i ok =>
      match s.(jobs) !! i with
      | Some x => match x.(x_phase) with
                  | Unlisted code =>
                      log_gw_event ok (Some x.(x_user)) QueryExec code
                        (with_jobs s.(executions) (<[i := with_phase (Reported code ok) x]> s.(jobs)) s)
                  | _ => s
                  end
      | None => s
      end
  end.
Definition run (acts : list Act) (s : Gw) : Gw := foldl (λ s a, step a s) s acts.
End Gateway.

(** ** Tokens and identifiers *)

Definition cancelled (s : Gw) (x : Execution) : Prop := x.(x_token) ∈ s.(cancelled_tokens).

(** Every token is drawn once, and what is registered is an execution that is not over,
    under its own identifier. *)
Record tokens_ok (s : Gw) : Prop := {
  tk_job : ∀ i x, s.(jobs) !! i = Some x → x.(x_token) < s.(next_token);
  tk_stream : ∀ i st t, s.(streams) !! i = Some st → st.(s_token) = Some t →
    t < s.(next_token) ∧ (∀ j x, s.(jobs) !! j = Some x → x.(x_token) ≠ t) ∧
    (∀ j st', s.(streams) !! j = Some st' → st'.(s_token) = Some t → j = i) ∧
    (t ∈ default [] (s.(redis_subs) !! st.(s_conn)) ∨ t ∈ s.(cancelled_tokens));
  tk_jobs : ∀ i j x y, s.(jobs) !! i = Some x → s.(jobs) !! j = Some y → x.(x_token) = y.(x_token) → i = j;
  tk_subs : ∀ c t, t ∈ default [] (s.(redis_subs) !! c) → ∃ i st, s.(streams) !! i = Some st ∧ st.(s_conn) = c ∧ st.(s_token) = Some t;
  tk_listed : ∀ id t, s.(executions) !! id = Some t →
    ∃ i x, s.(jobs) !! i = Some x ∧ x.(x_token) = t ∧ x.(x_id) = id ∧ listed x = true }.

(** The registry lists the executions that are not over, each under its own
    identifier. *)
Record registry_ok (s : Gw) : Prop := {
  rg_exact : ∀ id t, s.(executions) !! id = Some t ↔
    ∃ i x, s.(jobs) !! i = Some x ∧ listed x = true ∧ x.(x_id) = id ∧ x.(x_token) = t;
  rg_unique : ∀ i j x y, s.(jobs) !! i = Some x → s.(jobs) !! j = Some y → listed x = true → listed y = true →
    x.(x_id) = y.(x_id) → i = j }.

(** Two states that differ in the limiter, the audit trail and the rows only. *)
Definition same_registries (s s' : Gw) : Prop :=
  s'.(executions) = s.(executions) ∧ s'.(redis_subs) = s.(redis_subs) ∧ s'.(next_token) = s.(next_token) ∧
  s'.(cancelled_tokens) = s.(cancelled_tokens) ∧ s'.(jobs) = s.(jobs) ∧ s'.(streams) = s.(streams).
Lemma log_same ok u act e s : same_registries s (log_gw_event ok u act e s).
Proof. by destruct ok. Qed.
Lemma same_tokens s s' : same_registries s s' → tokens_ok s → tokens_ok s'.
Proof. intros (E1 & E2 & E3 & E4 & E5 & E6) []. split; rewrite ?E1, ?E2, ?E3, ?E4, ?E5, ?E6; assumption. Qed.
Lemma same_registry s s' : same_registries s s' → registry_ok s → registry_ok s'.
Proof. intros (E1 & E2 & E3 & E4 & E5 & E6) []. split; rewrite ?E1, ?E5; assumption. Qed.
Lemma same_trans s1 s2 s3 : same_registries s1 s2 → same_registries s2 s3 → same_registries s1 s3.
Proof. intros (?&?&?&?&?&?) (?&?&?&?&?&?). repeat split; congruence. Qed.

Lemma lookup_snoc {A} (l : list A) a i x : (l ++ [a]) !! i = Some x → l !! i = Some x ∨ i = length l ∧ x = a.
Proof.
  intros Hi. destruct (decide (i < length l)) as [Hl|Hl]; [left; by rewrite lookup_app_l in Hi|].
  rewrite lookup_app_r in Hi by lia. right. destruct (i - length l) as [|n] eqn:E; [|done]. cbn in Hi.
  injection Hi as <-. split; [lia|done].
Qed.

Lemma initial_ok rows : tokens_ok (initial rows) ∧ registry_ok (initial rows).
Proof.
  split; split; try done.
  - cbn. intros c t. rewrite lookup_empty. by intros ?%elem_of_nil.
  - cbn. intros id t. rewrite lookup_empty. split; [done|]. by intros (i & x & Hx & _).
Qed.

Lemma register_tokens id u c p s : tokens_ok s → tokens_ok (register_execution id u c p s).
Proof.
  intros []. split; cbn -[default].
  - intros i x [Hx|[_ ->]]%lookup_snoc; [specialize (tk_job0 _ _ Hx)|cbn]; lia.
  - intros i st t Hst Ht. destruct (tk_stream0 _ _ _ Hst Ht) as (Hl & Hj & Hu & Hm). split; [lia|]. split; [|done].
    intros j x [Hx|[_ ->]]%lookup_snoc; [by apply Hj in Hx|cbn; lia].
  - intros i j x y [Hx|[-> ->]]%lookup_snoc [Hy|[-> ->]]%lookup_snoc E; cbn in E; [by eapply tk_jobs0| | |done].
    + specialize (tk_job0 _ _ Hx). lia.
    + specialize (tk_job0 _ _ Hy). lia.
  - done.
  - intros id' t. destruct (decide (id' = id)) as [->|Hne].
    + rewrite lookup_insert_eq. intros [= <-]. eexists (length s.(jobs)), _. rewrite lookup_app_r, Nat.sub_diag by lia. done.
    + rewrite lookup_insert_ne by done. intros (i & x & Hx & Ht & Hid & Hl)%tk_listed0. exists i, x. split; [|done].
      by apply lookup_app_l_Some.
Qed.

Lemma register_registry id u c p s : s.(executions) !! id = None → registry_ok s → registry_ok (register_execution id u c p s).
Proof.
  intros Hfree []. assert (Hno : ∀ i x, s.(jobs) !! i = Some x → listed x = true → x.(x_id) ≠ id).
  { intros i x Hx Hl E. assert (He : s.(executions) !! id = Some x.(x_token)) by (apply rg_exact0; by exists i, x). congruence. }
  split; cbn.
  - intros id' t. rewrite lookup_insert_Some, rg_exact0. split.
    + intros [[-> <-]|[Hne (i & x & Hx & Hl & Hid & Ht)]].
      * eexists (length s.(jobs)), _. rewrite lookup_app_r, Nat.sub_diag by lia. done.
      * exists i, x. split; [by apply lookup_app_l_Some|done].
    + intros (i & x & [Hx|[-> ->]]%lookup_snoc & Hl & <- & <-); [right|by left].
      split; [intros E; by destruct (Hno i x Hx Hl)|by exists i, x].
  - intros i j x y [Hx|[-> ->]]%lookup_snoc [Hy|[-> ->]]%lookup_snoc Hlx Hly E; cbn in E; [by eapply rg_unique0| | |done].
    + by destruct (Hno i x Hx Hlx).
    + by destruct (Hno j y Hy Hly).
Qed.

Lemma cancel_tokens_ok ts s : tokens_ok s → tokens_ok (cancel_tokens ts s).
Proof.
  intros []. split; try done. cbn -[default]. intros i st t Hst Ht.
  destruct (tk_stream0 _ _ _ Hst Ht) as (Hl & Hj & Hu & Hm). split_and!; [done..|].
  rewrite elem_of_union. by destruct Hm; auto.
Qed.
Lemma cancel_ok id s : tokens_ok s → tokens_ok (cancel id s).
Proof. unfold cancel. destruct (_ !! id); [apply cancel_tokens_ok|done]. Qed.
Lemma cancel_registry id s : registry_ok s → registry_ok (cancel id s).
Proof. unfold cancel. destruct (_ !! id); [|done]. intros []. by split. Qed.

Lemma attach_tokens i s : tokens_ok s → tokens_ok (attach i s).
Proof.
  intros T. unfold attach. destruct (s.(streams) !! i) as [[c [t0|]]|] eqn:Ei; try done. destruct T.
  pose proof (lookup_lt_Some _ _ _ Ei) as Hlt.
  split; cbn -[default].
  - intros j x Hx. specialize (tk_job0 _ _ Hx). lia.
  - intros j st t Hst Ht. destruct (decide (j = i)) as [->|Hne].
    + rewrite list_lookup_insert_eq in Hst by done. injection Hst as <-. cbn in Ht. injection Ht as <-.
      split; [lia|]. split; [intros k x Hx; specialize (tk_job0 _ _ Hx); lia|]. split.
      * intros k st' Hk Ht'. destruct (decide (k = i)) as [->|Hki]; [done|]. rewrite list_lookup_insert_ne in Hk by done.
        destruct (tk_stream0 _ _ _ Hk Ht'). lia.
      * left. cbn [s_conn]. rewrite lookup_insert_eq. cbn [default from_option id]. apply elem_of_app. right. by left.
    + rewrite list_lookup_insert_ne in Hst by done. destruct (tk_stream0 _ _ _ Hst Ht) as (Hl & Hj & Hu & Hm).
      split; [lia|]. split; [done|]. split.
      * intros k st' Hk Ht'. destruct (decide (k = i)) as [->|Hki].
        -- rewrite list_lookup_insert_eq in Hk by done. injection Hk as <-. cbn in Ht'. injection Ht' as <-. lia.
        -- rewrite list_lookup_insert_ne in Hk by done. by eapply Hu.
      * destruct Hm as [Hm|Hm]; [left|by right]. destruct (decide (st.(s_conn) = c)) as [Hc|Hc].
        -- rewrite Hc, lookup_insert_eq. cbn [default from_option id]. apply elem_of_app. left. by rewrite <- Hc.
        -- by rewrite lookup_insert_ne.
  - done.
  - intros c' t. destruct (decide (c' = c)) as [->|Hc].
    + rewrite lookup_insert_eq. cbn [default from_option id]. rewrite elem_of_app, list_elem_of_singleton. intros [Ht| ->].
      * destruct (tk_subs0 _ _ Ht) as (k & st & Hk & Hcs & Hts). exists k, st. split; [|done].
        rewrite list_lookup_insert_ne; [done|]. intros <-. rewrite Ei in Hk. by injection Hk as <-.
      * exists i, {| s_conn := c; s_token := Some s.(next_token) |}. by rewrite list_lookup_insert_eq.
    + rewrite lookup_insert_ne by done. intros Ht. destruct (tk_subs0 _ _ Ht) as (k & st & Hk & Hcs & Hts).
      exists k, st. split; [|done]. rewrite list_lookup_insert_ne; [done|]. intros <-. rewrite Ei in Hk. by injection Hk as <-.
  - done.
Qed.
Lemma attach_registry i s : registry_ok s → registry_ok (attach i s).
Proof. unfold attach. destruct (s.(streams) !! i) as [[c [t0|]]|]; try done. intros []. by split. Qed.

Lemma revoke_tokens c s : tokens_ok s → tokens_ok (revoke c s).
Proof.
  intros T. unfold revoke. destruct (s.(redis_subs) !! c) as [ts|] eqn:Ec; [|done]. destruct T. split; cbn -[default]; try done.
  - intros i st t Hst Ht. destruct (tk_stream0 _ _ _ Hst Ht) as (Hl & Hj & Hu & Hm). split_and!; [done..|].
    rewrite elem_of_union, elem_of_list_to_set. destruct Hm as [Hm|Hm]; [|by right; left].
    destruct (decide (st.(s_conn) = c)) as [E|Hne]; [|left; by rewrite lookup_delete_ne].
    right. right. by rewrite E, Ec in Hm.
  - intros c' t. destruct (decide (c' = c)) as [->|Hne]; [rewrite lookup_delete_eq; by intros ?%elem_of_nil|].
    rewrite lookup_delete_ne by done. apply tk_subs0.
Qed.
Lemma revoke_registry c s : registry_ok s → registry_ok (revoke c s).
Proof. unfold revoke. destruct (_ !! c); [|done]. intros []. by split. Qed.

(** A phase replaced. *)
Lemma phase_tokens i x ph e s : s.(jobs) !! i = Some x → tokens_ok s →
  (∀ id t, e !! id = Some t → s.(executions) !! id = Some t) →
  (listed x = true → listed (with_phase ph x) = false → e !! x.(x_id) = None) →
  tokens_ok (with_jobs e (<[i := with_phase ph x]> s.(jobs)) s).
Proof.
  intros Hi [] He Hover. assert (Hback : ∀ j y, <[i := with_phase ph x]> s.(jobs) !! j = Some y →
    ∃ y0, s.(jobs) !! j = Some y0 ∧ y0.(x_token) = y.(x_token)).
  { intros j y Hj. destruct (decide (j = i)) as [->|Hne].
    - rewrite list_lookup_insert_eq in Hj by by eapply lookup_lt_Some. injection Hj as <-. by exists x.
    - rewrite list_lookup_insert_ne in Hj by done. by exists y. }
  split; cbn -[default].
  - intros j y (y0 & Hy0 & <-)%Hback. by eapply tk_job0.
  - intros j st t Hst Ht. destruct (tk_stream0 _ _ _ Hst Ht) as (Hl & Hj & Hu & Hm). split_and!; [done| |done..].
    intros k y (y0 & Hy0 & <-)%Hback. by apply Hj in Hy0.
  - intros j k y z (y0 & Hy0 & <-)%Hback (z0 & Hz0 & <-)%Hback. by eapply tk_jobs0.
  - done.
  - intros id t He'. destruct (tk_listed0 _ _ (He _ _ He')) as (j & y & Hj & Ht & Hid & Hl). destruct (decide (j = i)) as [->|Hne].
    + rewrite Hi in Hj. injection Hj as <-. exists i, (with_phase ph x). rewrite list_lookup_insert_eq by by eapply lookup_lt_Some.
      split_and!; [done..|]. destruct (listed (with_phase ph x)) eqn:El; [done|]. rewrite <- Hid, Hover in He' by done. done.
    + exists j, y. by rewrite list_lookup_insert_ne.
Qed.

Lemma finish_registry i x e s : s.(jobs) !! i = Some x → listed x = true → registry_ok s →
  registry_ok (with_jobs s.(executions) (<[i := with_phase (Finished e) x]> s.(jobs)) s).
Proof.
  intros Hi Hl []. assert (Hlt : i < length s.(jobs)) by by eapply lookup_lt_Some.
  assert (Hback : ∀ j y, <[i := with_phase (Finished e) x]> s.(jobs) !! j = Some y →
    ∃ y0, s.(jobs) !! j = Some y0 ∧ listed y0 = listed y ∧ y0.(x_id) = y.(x_id) ∧ y0.(x_token) = y.(x_token)).
  { intros j y Hj. destruct (decide (j = i)) as [->|Hne].
    - rewrite list_lookup_insert_eq in Hj by done. injection Hj as <-. by exists x.
    - rewrite list_lookup_insert_ne in Hj by done. by exists y. }
  split; cbn.
  - intros id t. rewrite rg_exact0. split.
    + intros (j & y & Hj & Hly & Hid & Ht). destruct (decide (j = i)) as [->|Hne].
      * exists i, (with_phase (Finished e) x). rewrite list_lookup_insert_eq by done. cbn.
        rewrite Hi in Hj. injection Hj as <-. done.
      * exists j, y. by rewrite list_lookup_insert_ne.
    + intros (j & y & (y0 & Hy0 & E1 & E2 & E3)%Hback & Hly & <- & <-). exists j, y0. by rewrite E1.
  - intros j k y z (y0 & Hy0 & E1 & E2 & _)%Hback (z0 & Hz0 & E3 & E4 & _)%Hback Hly Hlz E.
    apply (rg_unique0 j k y0 z0); congruence.
Qed.

Lemma unlist_registry i x e s : s.(jobs) !! i = Some x → listed x = true → registry_ok s →
  registry_ok (with_jobs (delete x.(x_id) s.(executions)) (<[i := with_phase (Unlisted e) x]> s.(jobs)) s).
Proof.
  intros Hi Hl []. assert (Hlt : i < length s.(jobs)) by by eapply lookup_lt_Some.
  assert (Hback : ∀ j y, <[i := with_phase (Unlisted e) x]> s.(jobs) !! j = Some y → listed y = true → j ≠ i ∧ s.(jobs) !! j = Some y).
  { intros j y Hj Hly. destruct (decide (j = i)) as [->|Hne].
    - rewrite list_lookup_insert_eq in Hj by done. by injection Hj as <-.
    - by rewrite list_lookup_insert_ne in Hj by done. }
  split; cbn.
  - intros id t. rewrite lookup_delete_Some, rg_exact0. split.
    + intros [Hne (j & y & Hj & Hly & Hid & Ht)]. exists j, y. rewrite list_lookup_insert_ne; [done|].
      intros ->. rewrite Hi in Hj. by injection Hj as <-.
    + intros (j & y & Hj & Hly & Hid & Ht). destruct (Hback j y Hj Hly) as [Hne Hy]. split; [|by exists j, y].
      intros E. apply Hne. eapply rg_unique0; [exact Hy|exact Hi|done|done|congruence].
  - intros j k y z Hj Hk Hly Hlz E. destruct (Hback _ _ Hj Hly) as [_ Hy], (Hback _ _ Hk Hlz) as [_ Hz]. by eapply rg_unique0.
Qed.
Lemma report_registry i x e ok s : s.(jobs) !! i = Some x → listed x = false → registry_ok s →
  registry_ok (with_jobs s.(executions) (<[i := with_phase (Reported e ok) x]> s.(jobs)) s).
Proof.
  intros Hi Hl []. assert (Hlt : i < length s.(jobs)) by by eapply lookup_lt_Some.
  assert (Hlook : ∀ j y, listed y = true → <[i := with_phase (Reported e ok) x]> s.(jobs) !! j = Some y ↔ s.(jobs) !! j = Some y).
  { intros j y Hly. destruct (decide (j = i)) as [->|Hne]; [|by rewrite list_lookup_insert_ne].
    rewrite list_lookup_insert_eq by done. split; intros Hj.
    - by injection Hj as <-.
    - rewrite Hi in Hj. injection Hj as <-. congruence. }
  split; cbn.
  - intros id t. rewrite rg_exact0. split; intros (j & y & Hj & Hly & H); exists j, y; (split; [by apply Hlook|done]).
  - intros j k y z Hj Hk Hly Hlz. apply Hlook in Hj, Hk; [|done..]. by eapply rg_unique0.
Qed.

(** ** Runs *)

Section Runs.
Context `{Jwt, Printer, Reader, Cipher} (cfg : Accounts.Config) (rate : Z) (limits : Limits).
Context (uuid_ok : string → bool) (vault_key : string).
Context (parse_mysql parse_pg parse_generic : string → option (list Statement)).
Notation guard := (guard cfg rate).
Notation handle := (handle limits uuid_ok vault_key parse_mysql parse_pg parse_generic).
Notation serve := (serve cfg rate limits uuid_ok vault_key parse_mysql parse_pg parse_generic).
Notation step := (step cfg rate limits uuid_ok vault_key parse_mysql parse_pg parse_generic).
Notation run := (run cfg rate limits uuid_ok vault_key parse_mysql parse_pg parse_generic).

(** No execution takes the identifier of one that is still listed. *)
Definition fresh_id (act : Act) (s : Gw) : Prop :=
  match act with
  | Request a h r => ∀ id, (serve a h r s).1 = Stream id → s.(executions) !! id = None
  | _ => True
  end.
Fixpoint fresh_ids (acts : list Act) (s : Gw) : Prop :=
  match acts with [] => True | act :: acts => fresh_id act s ∧ fresh_ids acts (step act s) end.

Lemma guard_same a h s : same_registries s (guard a h s).2.
Proof.
  unfold Gateway.guard. destruct (h ≫= _); [|apply log_same]. destruct (verify_access_token _ _ _); [|apply log_same].
  destruct (check_and_record _ _ _ _ _) as [[] l]; [done|]. cbn [snd]. eapply same_trans; [|apply log_same]. done.
Qed.

Lemma handle_ok a u r s : tokens_ok s →
  tokens_ok (handle a u r s).2 ∧
  (registry_ok s → (∀ id, (handle a u r s).1 = Stream id → s.(executions) !! id = None) → registry_ok (handle a u r s).2).
Proof.
  intros T. destruct r as [hd conn [b|]|id|conn raw opened accepts|reg b|ok refd conn|]; cbn [Gateway.handle]; try done.
  - destruct (plan _ _ _ _ _ _ _ _) as [[p|e]|]; [|done..]. cbn [fst snd]. split; [by apply register_tokens|].
    intros R Hf. apply register_registry; [by apply Hf|done].
  - split; [by apply cancel_ok|intros R _; by apply cancel_registry].
  - destruct (redis_subscribe _ _ _) as [[receipt|e]|]; [|done..]. cbn [fst snd].
    split; [|by intros []; split]. destruct T. split; cbn -[default]; try done.
    + intros i st t [Hst|[_ ->]]%lookup_snoc Ht; [|done]. destruct (tk_stream0 _ _ _ Hst Ht) as (Hl & Hj & Hu & Hm).
      split_and!; [done..| |done]. intros j st' [Hst'|[_ ->]]%lookup_snoc Ht'; [by eapply Hu|done].
    + intros c t (i & st & Hst & Hc)%tk_subs0. exists i, st. split; [by apply lookup_app_l_Some|done].
  - destruct (register_connection _ _ _ _ _) as [[resp t] au]. cbn [fst snd].
    split; [eapply same_tokens; [apply log_same|by apply (same_tokens s)]|].
    intros R _. eapply same_registry; [apply log_same|by apply (same_registry s)].
  - unfold remove_connection. cbn [fst snd]. split; [|intros R _].
    + eapply same_tokens; [apply log_same|]. apply (same_tokens (revoke conn s)); [done|by apply revoke_tokens].
    + eapply same_registry; [apply log_same|]. apply (same_registry (revoke conn s)); [done|by apply revoke_registry].
Qed.

Lemma gw_step_ok act s : tokens_ok s → tokens_ok (step act s) ∧ (registry_ok s → fresh_id act s → registry_ok (step act s)).
Proof.
  intros T. destruct act as [a h r|i|i e|i|i ok]; cbn [Gateway.step fresh_id].
  - unfold Gateway.serve. pose proof (guard_same a h s) as Hg. destruct (guard a h s) as [[reply|c] s1]; cbn [fst snd] in *.
    + split; [by eapply same_tokens|]. intros R _. by eapply same_registry.
    + destruct (handle_ok a c.(sub) r s1) as [T1 R1]; [by eapply same_tokens|]. split; [done|]. intros R Hf.
      apply R1; [by eapply same_registry|]. intros id Hid. by rewrite (proj1 Hg), (Hf id).
  - split; [by apply attach_tokens|intros R _; by apply attach_registry].
  - destruct (s.(jobs) !! i) as [x|] eqn:Ei; [|done]. destruct (x_phase x) eqn:Ep; try done.
    split; [by apply phase_tokens|]. intros R _. apply finish_registry; [done| |done]. unfold listed. by rewrite Ep.
  - destruct (s.(jobs) !! i) as [x|] eqn:Ei; [|done]. destruct (x_phase x) eqn:Ep; try done. split.
    + apply phase_tokens; [done|done| |intros _ _; apply lookup_delete_eq]. by intros id t [_ ?]%lookup_delete_Some.
    + intros R _. apply unlist_registry; [done| |done]. unfold listed. by rewrite Ep.
  - destruct (s.(jobs) !! i) as [x|] eqn:Ei; [|done]. destruct (x_phase x) eqn:Ep; try done. split.
    + eapply same_tokens; [apply log_same|]. apply phase_tokens; [done..|]. unfold listed. by rewrite Ep.
    + intros R _. eapply same_registry; [apply log_same|]. apply report_registry; [done| |done]. unfold listed. by rewrite Ep.
Qed.

Lemma gw_run_ok acts : ∀ s, tokens_ok s → tokens_ok (run acts s) ∧ (registry_ok s → fresh_ids acts s → registry_ok (run acts s)).
Proof.
  induction acts as [|act acts IH]; intros s T; [done|]. destruct (gw_step_ok act s T) as [T1 R1].
  destruct (IH _ T1) as [T2 R2]. split; [exact T2|]. intros R [Hf Hfs]. by apply R2, Hfs; apply R1.
Qed.

Lemma guard_inr a h s c : (guard a h s).1 = inr c →
  ∃ token, h = Some ("Bearer " +:+ token) ∧ verify_access_token cfg a.(g_secs) token = Ok c.
Proof.
  unfold Gateway.guard. destruct h as [h|]; cbn [mbind option_bind]; [|done].
  destruct (str_strip_prefix "Bearer " h) as [token|] eqn:Et; [|done]. apply strip_prefix_Some in Et as ->.
  destruct (verify_access_token _ _ _) as [c'|e] eqn:Ev; [|done].
  destruct (check_and_record _ _ _ _ _) as [[] l]; [|done]. intros [= <-]. by exists token.
Qed.

Lemma guard_rejects a h s reply : (guard a h s).1 = inl reply → ∃ st m, reply = Rejected st m.
Proof.
  unfold Gateway.guard. destruct (h ≫= _); [|intros [= <-]; by eexists _, _]. destruct (verify_access_token _ _ _); [|intros [= <-]; by eexists _, _].
  destruct (check_and_record _ _ _ _ _) as [[] l]; [done|intros [= <-]; by eexists _, _].
Qed.

(** What a step does to the tokens of the executions. *)
Lemma step_cancelled act s i x : tokens_ok s → (∀ a h id, act ≠ Request a h (CancelExecution id)) →
  s.(jobs) !! i = Some x →
  ∃ x', (step act s).(jobs) !! i = Some x' ∧ x'.(x_token) = x.(x_token) ∧ (cancelled (step act s) x' ↔ cancelled s x).
Proof.
  intros T Hact Hx. assert (Hsame : ∀ s', s'.(jobs) = s.(jobs) → s'.(cancelled_tokens) = s.(cancelled_tokens) →
    ∃ x', s'.(jobs) !! i = Some x' ∧ x'.(x_token) = x.(x_token) ∧ (cancelled s' x' ↔ cancelled s x)).
  { intros s' Ej Ec. exists x. unfold cancelled. by rewrite Ej, Ec. }
  assert (Hph : ∀ j y ph e s', s.(jobs) !! j = Some y →
    s'.(jobs) = (with_jobs e (<[j := with_phase ph y]> s.(jobs)) s).(jobs) → s'.(cancelled_tokens) = s.(cancelled_tokens) →
    ∃ x', s'.(jobs) !! i = Some x' ∧ x'.(x_token) = x.(x_token) ∧ (cancelled s' x' ↔ cancelled s x)).
  { intros j y ph e s' Hy Ej Ec. unfold cancelled. rewrite Ej, Ec. cbn. destruct (decide (i = j)) as [->|Hne].
    - exists (with_phase ph y). rewrite list_lookup_insert_eq by by eapply lookup_lt_Some. rewrite Hx in Hy. by injection Hy as ->.
    - exists x. by rewrite list_lookup_insert_ne. }
  destruct act as [a h r|j|j e|j|j ok]; cbn [Gateway.step].
  - unfold Gateway.serve. pose proof (guard_same a h s) as (_ & Es & _ & Ec & Ej & Est). destruct (guard a h s) as [[reply|c] s1]; cbn [snd] in *; [by apply Hsame|].
    destruct r as [hd conn [b|]|id|conn raw opened accepts|reg b|ok refd conn|]; cbn [Gateway.handle]; try by apply Hsame.
    + destruct (plan _ _ _ _ _ _ _ _) as [[p|e]|]; cbn [snd]; try by apply Hsame. exists x. cbn. unfold cancelled. cbn.
      rewrite Ej, Ec. split; [by apply lookup_app_l_Some|done].
    + by destruct (Hact a h id).
    + destruct (redis_subscribe _ _ _) as [[receipt|e]|]; by apply Hsame.
    + destruct (register_connection _ _ _ _ _) as [[resp t] au]. cbn [snd]. pose proof (log_same (au && g_audit_ok a) (Some (sub c)) ConnectionRegistered None (with_rows t s1)) as (_&_&_&Ec'&Ej'&_).
      apply Hsame; [by rewrite Ej'|by rewrite Ec'].
    + unfold remove_connection. cbn [snd]. match goal with |- context[log_gw_event ?o ?u ?ac ?er ?st] => pose proof (log_same o u ac er st) as (_&_&_&Ec'&Ej'&_) end.
      exists x. rewrite Ej'. unfold cancelled. rewrite Ec'. cbn. unfold revoke. destruct (redis_subs s1 !! conn) as [ts|] eqn:Ets; cbn.
      * rewrite Ej, Ec. split_and!; [done..|]. rewrite elem_of_union, elem_of_list_to_set. split; [|by left]. intros [?|Ht]; [done|].
        rewrite Es in Ets. destruct (tk_subs s T conn x.(x_token)) as (k & st & Hk & _ & Hst); [by rewrite Ets|].
        destruct (tk_stream s T k st _ Hk Hst) as (_ & Hno & _). by destruct (Hno i x Hx).
      * by rewrite Ej, Ec.
  - unfold attach. destruct (s.(streams) !! j) as [[c [t0|]]|]; by apply Hsame.
  - destruct (s.(jobs) !! j) as [y|] eqn:Ey; [|by apply Hsame]. destruct (x_phase y); try (by apply Hsame). by eapply Hph.
  - destruct (s.(jobs) !! j) as [y|] eqn:Ey; [|by apply Hsame]. destruct (x_phase y); try (by apply Hsame). by eapply Hph.
  - destruct (s.(jobs) !! j) as [y|] eqn:Ey; [|by apply Hsame]. destruct (x_phase y) as [| |code|]; try (by apply Hsame).
    eapply (Hph j y (Reported code ok)); [done| |]; [|by destruct ok]. by destruct ok.
Qed.

(** C5. A running query can be cancelled, and only by its own identifier.  Whatever
    the requests and however they interleave:
    - what the registry has under an identifier is the token of an execution with that
      identifier that is not over; nothing is left there when all are over;
    - a cancellation let through sets the token of the execution registered under its
      identifier and of no other; no other request and no other step, of whatever kind,
      cancels any execution;
    - as long as no query takes an identifier that is registered (the client may choose
      one: Example reuse_is_uncancellable), every execution that is not over is the one
      registered under its identifier, and so is reached by its cancellation. *)
Theorem cancel_reaches_execution rows acts :
  let s := run acts (initial rows) in
  (∀ id t, s.(executions) !! id = Some t →
     ∃ i x, s.(jobs) !! i = Some x ∧ listed x = true ∧ x.(x_id) = id ∧ x.(x_token) = t) ∧
  (Forall (λ x, listed x = false) s.(jobs) → s.(executions) = ∅) ∧
  (∀ a h id i x, s.(jobs) !! i = Some x →
     let '(reply, s') := serve a h (CancelExecution id) s in
     s'.(jobs) = s.(jobs) ∧
     (cancelled s' x ↔ cancelled s x ∨
        reply = Plain {| status := 204; body := JNull |} ∧ s.(executions) !! id = Some x.(x_token))) ∧
  (∀ act i x, (∀ a h id, act ≠ Request a h (CancelExecution id)) → s.(jobs) !! i = Some x →
     ∃ x', (step act s).(jobs) !! i = Some x' ∧ x'.(x_token) = x.(x_token) ∧ (cancelled (step act s) x' ↔ cancelled s x)) ∧
  (fresh_ids acts (initial rows) → ∀ i x, s.(jobs) !! i = Some x → listed x = true → s.(executions) !! x.(x_id) = Some x.(x_token)).
Proof.
  destruct (initial_ok rows) as [T0 R0]. destruct (gw_run_ok acts _ T0) as [T R]. specialize (R R0). cbv zeta. split_and!.
  - intros id t Ht. destruct (tk_listed _ T id t Ht) as (i & x & Hx & Htok & Hid & Hl). by exists i, x.
  - intros Hall. apply map_empty. intros id. apply eq_None_not_Some. intros [t (i & x & Hx & _ & _ & Hl)%(tk_listed _ T)].
    rewrite Forall_forall in Hall. specialize (Hall x (list_elem_of_lookup_2 _ _ _ Hx)). congruence.
  - revert T. generalize (run acts (initial rows)). clear. intros s T a h id i x Hx.
    unfold Gateway.serve. pose proof (guard_same a h s) as (Ee & _ & _ & Ec & Ej & _).
    pose proof (guard_rejects a h s) as Hrej.
    destruct (guard a h s) as [[reply|c] s1]; cbn [fst snd Gateway.handle] in *.
    + split; [done|]. unfold cancelled. rewrite Ec. destruct (Hrej reply eq_refl) as (? & ? & ->). by intuition.
    + unfold cancel. destruct (s1.(executions) !! id) as [t|] eqn:Et; rewrite Ee in Et; rewrite Et.
      * cbn. split; [done|]. unfold cancelled. cbn. rewrite Ec, elem_of_union, elem_of_union, elem_of_singleton. split.
        -- intros [?|[Ht|Ht]]; [by left| |by apply elem_of_empty in Ht]. right. by rewrite Ht.
        -- intros [?|(_ & Ht)]; [by left|]. right. left. congruence.
      * split; [done|]. unfold cancelled. rewrite Ec. split; [by left|]. by intros [?|(_ & ?)].
  - intros act i x Hact Hx. by apply step_cancelled.
  - intros Hf i x Hx Hl. apply (rg_exact _ (R Hf)). by exists i, x.
Qed.

(** Removing a connection ends its subscriptions: once the removal is let
    through, every stream that was attached to the connection is cancelled, and
    none of another connection is. *)
Theorem removal_ends_subscriptions rows acts a h ok refd conn :
  let s := run acts (initial rows) in
  let '(reply, s') := serve a h (RemoveConn ok refd conn) s in
  s'.(streams) = s.(streams) ∧
  ∀ i st t, s.(streams) !! i = Some st → st.(s_token) = Some t →
    (t ∈ s'.(cancelled_tokens) ↔ t ∈ s.(cancelled_tokens) ∨ reply = Plain {| status := 204; body := JNull |} ∧ st.(s_conn) = conn).
Proof.
  destruct (gw_run_ok acts _ (proj1 (initial_ok rows))) as [T _]. cbv zeta. revert T. generalize (run acts (initial rows)). intros s T.
  unfold Gateway.serve. pose proof (guard_same a h s) as (_ & Es & _ & Ec & _ & Est).
  pose proof (guard_rejects a h s) as Hrej.
  destruct (guard a h s) as [[reply|c] s1]; cbn [fst snd Gateway.handle] in *.
  { split; [done|]. intros i st t _ _. rewrite Ec. destruct (Hrej reply eq_refl) as (? & ? & ->). by intuition. }
  unfold remove_connection. match goal with |- context[log_gw_event ?o ?u ?ac ?er ?st] => pose proof (log_same o u ac er st) as (_&_&_&Ec'&_&Est') end.
  rewrite Est', Ec'. cbn. unfold revoke. destruct (redis_subs s1 !! conn) as [ts|] eqn:Ets; cbn.
  - split; [done|]. intros i st t Hst Ht. rewrite Ec, elem_of_union, elem_of_list_to_set. rewrite Es in Ets. split.
    + intros [?|Hin]; [by left|right]. split; [done|].
      destruct (tk_subs s T conn t) as (k & st' & Hk & Hcs & Hts); [by rewrite Ets|].
      destruct (tk_stream s T i st t Hst Ht) as (_ & _ & Hu & _). specialize (Hu k st' Hk Hts) as ->. congruence.
    + intros [?|[_ Hcs]]; [by left|]. destruct (tk_stream s T i st t Hst Ht) as (_ & _ & _ & [Hin|?]); [|by left].
      right. by rewrite Hcs, Ets in Hin.
  - split; [done|]. intros i st t Hst Ht. rewrite Ec. split; [by left|]. intros [?|[_ Hcs]]; [done|].
    destruct (tk_stream s T i st t Hst Ht) as (_ & _ & _ & [Hin|?]); [|done]. rewrite Es in Ets. rewrite Hcs, Ets in Hin. by apply elem_of_nil in Hin.
Qed.

(** ** The audit of executions *)

Definition execution_row (x : Execution) : option AuditRow :=
  match x.(x_phase) with
  | Reported code true => Some (audit_row (Some x.(x_user)) QueryExec code)
  | _ => None
  end.
Definition execution_rows (l : list AuditRow) : list AuditRow := filter (λ r, r.(g_action) = as_db_str QueryExec) l.
Definition audited_once (s : Gw) : Prop := execution_rows s.(audit) ≡ₚ omap execution_row s.(jobs).

Lemma log_execution_rows ok u act e s : as_db_str act ≠ as_db_str QueryExec →
  execution_rows (log_gw_event ok u act e s).(audit) = execution_rows s.(audit).
Proof.
  intros Ha. destruct ok; [|done]. cbn. unfold execution_rows. rewrite filter_app, filter_cons_False, filter_nil by done.
  by rewrite app_nil_r.
Qed.
Lemma guard_execution_rows a h s : execution_rows (guard a h s).2.(audit) = execution_rows s.(audit).
Proof.
  unfold Gateway.guard. destruct (h ≫= _); [|by apply log_execution_rows]. destruct (verify_access_token _ _ _); [|by apply log_execution_rows].
  destruct (check_and_record _ _ _ _ _) as [[] l]; [done|]. cbn [snd]. by rewrite log_execution_rows.
Qed.
Lemma omap_insert_same {A B} (f : A → option B) (l : list A) i x y : l !! i = Some x → f y = f x → omap f (<[i := y]> l) = omap f l.
Proof.
  revert i. induction l as [|z l IH]; intros [|i]; try done; cbn.
  - intros [= ->] E. by rewrite E.
  - intros Hi E. rewrite IH by done. done.
Qed.
Lemma omap_insert_new {A B} (f : A → option B) (l : list A) i x y b : l !! i = Some x → f x = None → f y = Some b →
  omap f (<[i := y]> l) ≡ₚ b :: omap f l.
Proof.
  revert i. induction l as [|z l IH]; intros [|i]; try done; cbn.
  - intros [= ->] E1 E2. by rewrite E1, E2.
  - intros Hi E1 E2. specialize (IH i Hi E1 E2). destruct (f z); rewrite IH; [apply Permutation_swap|done].
Qed.

Lemma handle_audited a u r s : audited_once s → audited_once (handle a u r s).2.
Proof.
  unfold audited_once. intros I. destruct r as [hd conn [b|]|id|conn raw opened accepts|reg b|ok refd conn|]; cbn [Gateway.handle]; try done.
  - destruct (plan _ _ _ _ _ _ _ _) as [[p|e]|]; [|done..]. cbn. by rewrite omap_app, app_nil_r.
  - unfold cancel. by destruct (_ !! id).
  - by destruct (redis_subscribe _ _ _) as [[receipt|e]|].
  - destruct (register_connection _ _ _ _ _) as [[resp t] au]. cbn [snd]. rewrite log_execution_rows by done. by destruct (_ && _).
  - unfold remove_connection. cbn [snd]. rewrite log_execution_rows by done.
    assert (E : ∀ st : Gw, (log_gw_event a.(g_audit_ok) (Some u) ConnectionRemoved None st).(jobs) = st.(jobs)) by (by destruct (g_audit_ok a)).
    rewrite E. cbn. unfold revoke. by destruct (redis_subs s !! conn).
Qed.
Lemma step_audited act s : audited_once s → audited_once (step act s).
Proof.
  intros I. assert (Hph : ∀ i x ph e, s.(jobs) !! i = Some x → execution_row (with_phase ph x) = execution_row x →
    audited_once (with_jobs e (<[i := with_phase ph x]> s.(jobs)) s)).
  { intros i x ph e Hi E. unfold audited_once. cbn. by rewrite (omap_insert_same _ _ _ x). }
  destruct act as [a h r|i|i e|i|i ok]; cbn [Gateway.step].
  - unfold Gateway.serve. pose proof (guard_same a h s) as (_&_&_&_&Ej&_). pose proof (guard_execution_rows a h s) as Er.
    destruct (guard a h s) as [[reply|c] s1]; cbn [snd] in *; [|apply handle_audited]; unfold audited_once; by rewrite Er, Ej.
  - unfold attach. by destruct (s.(streams) !! i) as [[c [t0|]]|].
  - destruct (s.(jobs) !! i) as [x|] eqn:Ei; [|done]. destruct (x_phase x) eqn:Ep; try done. apply Hph; [done|]. unfold execution_row. by rewrite Ep.
  - destruct (s.(jobs) !! i) as [x|] eqn:Ei; [|done]. destruct (x_phase x) eqn:Ep; try done. apply Hph; [done|]. unfold execution_row. by rewrite Ep.
  - destruct (s.(jobs) !! i) as [x|] eqn:Ei; [|done]. destruct (x_phase x) as [| |code|] eqn:Ep; try done. destruct ok.
    + unfold audited_once. cbn. unfold execution_rows. rewrite filter_app, filter_cons_True, filter_nil by done.
      rewrite (omap_insert_new _ _ _ x _ (audit_row (Some x.(x_user)) QueryExec code)); [|done|by unfold execution_row; rewrite Ep|done].
      rewrite Permutation_app_comm. cbn. by constructor.
    + apply Hph; [done|]. unfold execution_row. by rewrite Ep.
Qed.

(** Every execution leaves one row in the audit trail, and nothing else does:
    whatever is requested and however the steps interleave, the rows of kind
    [query_exec] are, up to order, one for each execution that has reported (and
    whose row could be written), with its user and the code it ended with; no
    text of a statement or of an engine's error is in them. *)
Theorem executions_audited_once rows acts :
  let s := run acts (initial rows) in
  execution_rows s.(audit) ≡ₚ omap execution_row s.(jobs) ∧
  ∀ r, r ∈ execution_rows s.(audit) → ∃ i x code, s.(jobs) !! i = Some x ∧ x.(x_phase) = Reported code true ∧
    r = {| g_user := Some x.(x_user); g_action := "query_exec"; g_status := match code with None => "ok" | Some _ => "error" end;
           g_error := truncate_bounded <$> code |}.
Proof.
  cbv zeta. assert (I : audited_once (run acts (initial rows))).
  { assert (I0 : audited_once (initial rows)) by constructor. revert I0. generalize (initial rows). intros s. revert s.
    induction acts as [|act acts IH]; intros s I; [done|]. by apply IH, step_audited. }
  split; [exact I|]. intros r Hr. unfold audited_once in I. rewrite I in Hr. apply list_elem_of_omap in Hr as (x & Hx & Hrow).
  apply list_elem_of_lookup in Hx as [i Hi]. revert Hrow. unfold execution_row. destruct (x_phase x) as [| | |code []] eqn:Ep; [done..| |done].
  intros [= <-]. exists i, x, code. split_and!; [done..|]. by destruct code.
Qed.

(** ** Who is let in *)

(** The requests let through the guard, with their instants and users. *)
Fixpoint admitted (acts : list Act) (s : Gw) : list (Z * string) :=
  match acts with
  | [] => []
  | act :: rest =>
      match act with
      | Request a h r => match (guard a h s).1 with inr c => [(a.(g_instant), c.(sub))] | inl _ => [] end
      | _ => []
      end ++ admitted rest (step act s)
  end.
Definition instants (acts : list Act) : list (Z * string) :=
  omap (λ act, match act with Request a _ _ => Some (a.(g_instant), "") | _ => None end) acts.

Lemma handle_limiter a u r s : (handle a u r s).2.(limiter) = s.(limiter).
Proof.
  assert (Hlog : ∀ ok v act e st, (log_gw_event ok v act e st).(limiter) = st.(limiter)) by (by intros []).
  destruct r as [hd conn [b|]|id|conn raw opened accepts|reg b|ok refd conn|]; cbn [Gateway.handle]; try done.
  - by destruct (plan _ _ _ _ _ _ _ _) as [[p|e]|].
  - unfold cancel. by destruct (_ !! id).
  - by destruct (redis_subscribe _ _ _) as [[receipt|e]|].
  - destruct (register_connection _ _ _ _ _) as [[resp t] au]. cbn [snd]. by rewrite Hlog.
  - unfold remove_connection. cbn [snd]. rewrite Hlog. cbn. unfold revoke. by destruct (redis_subs s !! conn).
Qed.
#[local] Instance is_request_dec act : Decision (∃ a h r, act = Request a h r).
Proof. destruct act as [a h r|i|i e|i|i ok]; [left; by exists a, h, r|right; by intros (?&?&?&?)..]. Defined.
(** A request that is let through, or refused, by the limiter has called it once;
    any other leaves it alone. *)
Lemma request_limiter a h r s :
  (∃ key, let '(ok, l) := check_and_record a.(g_instant) key (Z.to_nat rate) WINDOW_SECS s.(limiter) in
     (serve a h r s).2.(limiter) = l ∧
     match (guard a h s).1 with inr c => ok = true ∧ c.(sub) = key | inl _ => ok = false end) ∨
  ((serve a h r s).2.(limiter) = s.(limiter) ∧ ∃ reply, (guard a h s).1 = inl reply).
Proof.
  assert (Hlog : ∀ ok v act e st, (log_gw_event ok v act e st).(limiter) = st.(limiter)) by (by intros []).
  unfold Gateway.serve, Gateway.guard. destruct (h ≫= _); [|right; cbn; rewrite Hlog; by split; [|eexists]].
  destruct (verify_access_token _ _ _) as [c|e]; [|right; cbn; rewrite Hlog; by split; [|eexists]].
  left. exists c.(sub). destruct (check_and_record _ _ _ _ _) as [[] l]; cbn [fst snd].
  - by rewrite handle_limiter.
  - by rewrite Hlog.
Qed.
Lemma step_limiter act s : (∀ a h r, act ≠ Request a h r) → (step act s).(limiter) = s.(limiter).
Proof.
  intros Hact. destruct act as [a h r|i|i e|i|i ok]; cbn [Gateway.step]; [by destruct (Hact a h r)|unfold attach|..]; unfold log_gw_event; repeat case_match; done.
Qed.
Lemma gw_run_limiter acts : ∀ start s, ordered start (instants acts) →
  ∃ calls, ordered start calls ∧ (∀ e, e ∈ calls → ∃ p, p ∈ instants acts ∧ e.1 = p.1) ∧
    admitted acts s = accepted_log calls (RateLimiter.run (Z.to_nat rate) WINDOW_SECS s.(limiter) calls).1.
Proof.
  induction acts as [|act acts IH]; intros start s Hord; [exists []; split; [done|split; [by intros e ?%elem_of_nil|done]]|].
  assert (Hquiet : (∀ a h r, act ≠ Request a h r) →
    admitted (act :: acts) s = admitted acts (step act s) ∧ instants (act :: acts) = instants acts).
  { intros Hact. destruct act as [a h r|i|i e|i|i ok]; [by destruct (Hact a h r)|done..]. }
  destruct (decide (∃ a h r, act = Request a h r)) as [(a & h & r & ->)|Hno].
  2:{ assert (Hact : ∀ a h r, act ≠ Request a h r) by (intros a h r ->; apply Hno; by exists a, h, r).
      destruct (Hquiet Hact) as [-> Ei]. rewrite Ei in *. destruct (IH start (step act s) Hord) as (calls & G1 & G2 & G3).
      rewrite (step_limiter act s Hact) in G3. by exists calls. }
  clear Hquiet. cbn [admitted instants omap list_omap] in *.
  destruct Hord as [Hle Hord]. destruct (IH _ (step (Request a h r) s) Hord) as (calls & G1 & G2 & G3).
  assert (G2' : ∀ e, e ∈ calls → ∃ p, p ∈ (g_instant a, "") :: instants acts ∧ e.1 = p.1).
  { intros e (p & Hp & E)%G2. exists p. split; [by right|done]. }
  change (step (Request a h r) s) with (serve a h r s).2 in *.
  destruct (request_limiter a h r s) as [(key & Hk)|[Hl [reply Hg]]].
  - destruct (check_and_record _ _ _ _ _) as [ok l] eqn:Ec. destruct Hk as [Hl Hg].
    exists ((a.(g_instant), key) :: calls). split; [done|]. split.
    { intros e [->|He]%elem_of_cons; [exists (g_instant a, ""); split; [by left|done]|by apply G2']. }
    cbn [RateLimiter.run]. rewrite Ec, <- Hl, G3. unfold accepted_log.
    destruct (RateLimiter.run _ _ _ calls) as [oks l2]. cbn [fst zip zip_with].
    destruct ((guard a h s).1) as [reply|c]; [subst ok; done|]. destruct Hg as [-> <-]. done.
  - exists calls. split; [by eapply ordered_weaken|]. split; [done|]. rewrite Hg, G3, Hl. done.
Qed.

(** C7. The gateway serves the holders of valid access tokens only, at their rate:
    an answer that is not a refusal went to a request whose token verifies, one
    refused changed neither the connections nor the registries; and over any run,
    at any instant not before its last request, the requests let through for a user
    within the last minute number at most the configured limit. *)
Theorem gateway_guarded rows acts start now user :
  ordered start (instants acts) → (start ≤ now)%Z → (∀ p, p ∈ instants acts → (p.1 ≤ now)%Z) →
  in_window WINDOW_SECS now user (admitted acts (initial rows)) ≤ Z.to_nat rate ∧
  ∀ a h r, let s := run acts (initial rows) in
    match serve a h r s with
    | (Rejected _ _, s') => same_registries s s' ∧ s'.(Gateway.rows) = s.(Gateway.rows)
    | (reply, s') => ∃ token c, h = Some ("Bearer " +:+ token) ∧ verify_access_token cfg a.(g_secs) token = Ok c ∧
        (reply, s') = handle a c.(sub) r (guard a h s).2
    end.
Proof.
  intros Hord Hstart Hnow. split.
  - destruct (gw_run_limiter acts start (initial rows) Hord) as (calls & Ho & Hin & ->).
    apply (accepted_in_window_bounded _ _ start); [done|done|]. intros e (p & Hp & ->)%Hin. by apply Hnow.
  - intros a h r. cbv zeta. generalize (run acts (initial rows)). intros s. unfold Gateway.serve.
    pose proof (guard_same a h s) as Hs. pose proof (guard_rejects a h s) as Hrej. pose proof (guard_inr a h s) as Hin.
    assert (Hrows : (guard a h s).2.(Gateway.rows) = s.(Gateway.rows)).
    { unfold Gateway.guard. destruct (h ≫= _); [|by destruct (g_audit_ok a)]. destruct (verify_access_token _ _ _); [|by destruct (g_audit_ok a)].
      destruct (check_and_record _ _ _ _ _) as [[] l]; [done|by destruct (g_audit_ok a)]. }
    destruct (guard a h s) as [[reply|c] s1]; cbn [fst snd] in *.
    + destruct (Hrej reply eq_refl) as (st & m & ->). done.
    + destruct (Hin c eq_refl) as (token & -> & Hv). destruct (handle a c.(sub) r s1) as [reply s2] eqn:Eh.
      destruct reply; try (exists token, c; by split_and!).
      exfalso. revert Eh. destruct r as [hd conn [b|]|id|conn raw opened accepts|reg b|ok refd conn|]; cbn [Gateway.handle]; try done.
      * by destruct (plan _ _ _ _ _ _ _ _) as [[p|e]|].
      * by destruct (redis_subscribe _ _ _) as [[receipt|e]|].
      * by destruct (register_connection _ _ _ _ _) as [[resp t] au].
Qed.
End Runs.

(** ** Runs *)

#[local] Existing Instances ex_jwt tlv_printer tlv_reader ex_cipher.
Definition ex_one (_ : string) : option (list Statement) := Some [SShowTables].
Notation ex_gw_step := (step ex_cfg 2 ex_limits (λ _, true) "K" ex_one (λ _, None) (λ _, None)).
Notation ex_gw_serve := (serve ex_cfg 2 ex_limits (λ _, true) "K" ex_one (λ _, None) (λ _, None)).
Notation ex_gw_run acts := (run ex_cfg 2 ex_limits (λ _, true) "K" ex_one (λ _, None) (λ _, None) acts (initial ∅)).
Definition ex_at (t : Z) : Answer := {| g_secs := 5; g_instant := t * 10 ^ 9; g_audit_ok := true; g_uuid := "u0" |}.
Definition ex_user (u : string) : option string := Some ("Bearer access|" +:+ u +:+ "|0|900|x").
Definition ex_ask (u id : string) (t : Z) : Act := Request (ex_at t) (ex_user u) (Query (Some id) "c1" (Some ex_query)).
Definition ex_acts : list Act := [ex_ask "u1" "a" 0; ex_ask "u2" "b" 0; Finish 0 (Ended (Err (timed_out 30))); Unlist 0; Report 0 true].

Example cancel_reaches_execution_witness :
  let s := ex_gw_run ex_acts in
  fresh_ids ex_cfg 2 ex_limits (λ _, true) "K" ex_one (λ _, None) (λ _, None) ex_acts (initial ∅) ∧
  is_Some (s.(executions) !! "b") ∧ s.(executions) !! "a" = None ∧
  match s.(jobs) !! 1 with
  | Some x => cancelled (ex_gw_serve (ex_at 1) (ex_user "u1") (CancelExecution "b") s).2 x
  | None => False
  end.
Proof.
  assert (Hf : fresh_ids ex_cfg 2 ex_limits (λ _, true) "K" ex_one (λ _, None) (λ _, None) ex_acts (initial ∅)).
  { cbn [fresh_ids ex_acts fresh_id ex_ask]. repeat split; intros id; vm_compute; by intros [= <-]. }
  destruct (cancel_reaches_execution ex_cfg 2 ex_limits (λ _, true) "K" ex_one (λ _, None) (λ _, None) ∅ ex_acts)
    as (_ & _ & Hcancel & _ & Hreg). specialize (Hreg Hf).
  cbv zeta. split; [done|]. split; [|split].
  - assert (Hx : is_Some ((ex_gw_run ex_acts).(jobs) !! 1)) by (vm_compute; by eexists).
    destruct Hx as [x Hx]. assert (Hlx : listed x = true ∧ x.(x_id) = "b") by (vm_compute in Hx; by injection Hx as <-).
    destruct Hlx as [Hl Hid]. exists x.(x_token). rewrite <- Hid. by apply (Hreg 1).
  - by vm_compute.
  - destruct ((ex_gw_run ex_acts).(jobs) !! 1) as [x|] eqn:Hx; [|by vm_compute in Hx].
    specialize (Hcancel (ex_at 1) (ex_user "u1") "b" 1 x Hx). destruct (ex_gw_serve _ _ _ _) as [reply s'] eqn:Es.
    destruct Hcancel as [_ Hc]. apply Hc. right. assert (Hr : (reply, s').1 = Plain {| status := 204; body := JNull |}) by (rewrite <- Es; by vm_compute).
    split; [exact Hr|]. assert (Hlx : listed x = true ∧ x.(x_id) = "b") by (vm_compute in Hx; by injection Hx as <-).
    destruct Hlx as [Hl Hid]. rewrite <- Hid. by apply (Hreg 1).
Defined.

Example gateway_guarded_witness :
  in_window 60 (10 ^ 9) "u1" (admitted ex_cfg 2 ex_limits (λ _, true) "K" ex_one (λ _, None) (λ _, None) ex_acts (initial ∅)) ≤ 2.
Proof.
  apply (gateway_guarded ex_cfg 2 ex_limits (λ _, true) "K" ex_one (λ _, None) (λ _, None) ∅ ex_acts 0 (10 ^ 9) "u1").
  - vm_compute. split_and!; done.
  - done.
  - intros p Hp. vm_compute in Hp. repeat (apply elem_of_cons in Hp as [->|Hp]; [done|]). by apply elem_of_nil in Hp.
Defined.

(** A second query under the identifier of a first takes its place, and the end of
    the first takes the second out of the registry: neither can be cancelled. *)
Example reuse_is_uncancellable :
  let s := ex_gw_run [ex_ask "u1" "a" 0; ex_ask "u2" "a" 0; Finish 0 (Ended (Err (timed_out 30))); Unlist 0] in
  x_phase <$> s.(jobs) !! 1 = Some Running ∧
  cancelled_tokens (ex_gw_serve (ex_at 1) (ex_user "u2") (CancelExecution "a") s).2 = ∅.
Proof. by vm_compute. Qed.
(** Whoever knows the identifier may cancel. *)
Example anyone_may_cancel :
  (ex_gw_serve (ex_at 1) (ex_user "u2") (CancelExecution "a") (ex_gw_run [ex_ask "u1" "a" 0])).2.(cancelled_tokens) = {[0]}.
Proof. by vm_compute. Qed.
(** A subscription that is being set up while its connection is removed goes on. *)
Definition ex_subscribe : Act :=
  Request (ex_at 0) (ex_user "u1") (Subscribe "c1" (Some "channels=news") (Ok tt) (λ _, true)).
Definition ex_remove : Act := Request (ex_at 0) (ex_user "u2") (RemoveConn true ∅ "c1").
Example subscription_survives_removal :
  let s := ex_gw_run [ex_subscribe; ex_remove; Attach 0] in
  s_token <$> s.(streams) !! 0 = Some (Some 0) ∧ s.(cancelled_tokens) = ∅.
Proof. by vm_compute. Qed.
