(* ===== verification/Txn.v ===== *)
(** * Transaction sessions (crates/automation/src/txn.rs; the four handlers of
    db_handler.rs, lines 740-862)

    A session pins a pool of one connection, opened for it and begun on it; statements
    of later requests run on that pool, one at a time, until it is committed, rolled
    back, or swept for being idle.  A request that has found its session keeps it in
    the map until its statement is done, so that finishing and sweeping come between
    statements only.  What the engine answers is an argument; what it is told is
    recorded, pool by pool, with the physical connection it was told on: a pool that
    finds its connection closed, or too old, connects anew before it is used.  The
    future of a request may be dropped wherever it waits, when its client has gone. *)

From S2P Require Import Prelude RustStr Json DbFamily DraftTest.
From stdpp Require Import strings list gmap.

(** ** Families *)

Inductive PinnedPool : Type := PMySql (profile : Profile) | PPg | PSqlite.
Definition pinned_db_type (p : PinnedPool) : string :=
  match p with PMySql profile => profile.(name) | PPg => "postgres" | PSqlite => "sqlite" end.
Definition begin_sql_for (db_type : string) : string :=
  match mysql_family_for db_type with
  | Some _ => "START TRANSACTION"
  | None =>
      if decide (db_type = "postgres" ∨ db_type = "postgresql") then "BEGIN"
      else if decide (db_type = "sqlite") then "BEGIN TRANSACTION"
      else "/* unsupported: " +:+ db_type +:+ " */ START TRANSACTION"
  end.

(** What came of a call: done, refused, or not heard, when the request that made it was
    dropped.  And how it went: there was no connection to be had, or the request was
    dropped while it waited for one; or it was sent, [again] when the pool had to connect
    anew for it. *)
Inductive Reply : Type := Done | Refused | Unheard.
Inductive Asked : Type := Unsent (dropped : bool) | Sent (again : bool) (r : Reply).
Definition reply_of (a : Asked) : Reply :=
  match a with Unsent true => Unheard | Unsent false => Refused | Sent _ r => r end.
Definition of_bool (ok : bool) : Asked := Sent false (if ok then Done else Refused).

(** What a pool is told, each on the physical connection it had then, by its number. *)
Inductive Call : Type :=
| CSet (sql : string) (r : Reply) | CBegin (sql : string) (r : Reply) | CStatement (sql : string) (r : Reply)
| CThreadId (r : Reply) | CCommit (r : Reply) | CRollback (r : Reply).
Record Conn := { trace : list (nat * Call); life : nat; closed : bool }.
Definition fresh_conn : Conn := {| trace := []; life := 0; closed := false |}.
Definition ask (a : Asked) (c : Reply → Call) (k : Conn) : Conn :=
  match a with
  | Unsent _ => k
  | Sent again r => let l := if again then S k.(life) else k.(life) in
                    {| trace := k.(trace) ++ [(l, c r)]; life := l; closed := k.(closed) |}
  end.
Definition shut (k : Conn) : Conn := {| trace := k.(trace); life := k.(life); closed := true |}.
Record TxnSession := { pool : PinnedPool; conn : nat; last_used : Z }.

(** The store; [waiting] are the requests that have found their session. *)
Record Waiting := { w_id : string; w_session : TxnSession; w_sql : string; w_select : bool }.
Record Store := { sessions : gmap string TxnSession; conns : list Conn; waiting : list Waiting }.
Definition new : Store := {| sessions := ∅; conns := []; waiting := [] |}.

Definition tell (c : nat) (f : Conn → Conn) (s : Store) : Store :=
  {| sessions := s.(sessions); conns := alter f c s.(conns); waiting := s.(waiting) |}.
Definition with_sessions (m : gmap string TxnSession) (s : Store) : Store :=
  {| sessions := m; conns := s.(conns); waiting := s.(waiting) |}.

(** ** Beginning *)

(** [open_pinned_pool] up to the driver: the family, or the refusal. *)
Definition pinned_for (db_type : string) (file_path : option string) : result string PinnedPool :=
  let refused := Err ("transactions unsupported for db_type '" +:+ db_type +:+ "'") in
  match mysql_family_for db_type with
  | Some profile => if profile.(supports_transactions) then Ok (PMySql profile) else refused
  | None =>
      if decide (db_type = "postgres" ∨ db_type = "postgresql") then Ok PPg
      else if decide (db_type = "sqlite") then
        match file_path with Some _ => Ok PSqlite | None => Err "sqlite transaction missing file_path" end
      else refused
  end.

(** [apply_mysql_session]: a SET that fails is let pass; whether the request is still
    there. *)
Fixpoint apply_sets (asked : nat → Asked) (i : nat) (stmts : list string) (k : Conn) : bool * Conn :=
  match stmts with
  | [] => (true, k)
  | sql :: rest => let k := ask (asked i) (CSet sql) k in
                   match reply_of (asked i) with Unheard => (false, k) | _ => apply_sets asked (S i) rest k end
  end.
Definition sets_of (p : PinnedPool) (charset timezone : option string) : list string :=
  match p with PMySql profile => profile.(session_statements) charset timezone | _ => [] end.

(** What it is begun with. *)
Record ConnParams := { p_db_type : string; p_charset : option string; p_timezone : option string; p_file_path : option string }.
(** The outcome of connecting (none when the request was dropped; a refusal is
    redacted), of the SETs and of the BEGIN, a fresh UUID and the clock. *)
Record BeginAnswer := {
  connect : option (result string unit); set_asked : nat → Asked; begin_asked : Asked; begin_err : string; uuid : string; now : Z }.
Definition opened (k : Conn) (s : Store) : Store :=
  {| sessions := s.(sessions); conns := s.(conns) ++ [k]; waiting := s.(waiting) |}.
(** No answer when the request was dropped; the pool is dropped with it. *)
Definition begin (params : ConnParams) (a : BeginAnswer) (s : Store) : option (result string string) * Store :=
  match pinned_for params.(p_db_type) params.(p_file_path) with
  | Err e => (Some (Err e), s)
  | Ok p =>
      match a.(connect) with
      | None => (None, s)
      | Some (Err e) => (Some (Err (redact e)), s)
      | Some (Ok _) =>
          let '(there, k) := apply_sets a.(set_asked) 0 (sets_of p params.(p_charset) params.(p_timezone)) fresh_conn in
          if there then
            let k := ask a.(begin_asked) (CBegin (begin_sql_for (pinned_db_type p))) k in
            match reply_of a.(begin_asked) with
            | Unheard => (None, opened (shut k) s)
            | Refused => (Some (Err (redact ("begin failed: " +:+ a.(begin_err)))), opened (shut k) s)
            | Done => (Some (Ok a.(uuid)),
                       opened k (with_sessions (<[a.(uuid) := {| pool := p; conn := length s.(conns); last_used := a.(now) |}]> s.(sessions)) s))
            end
          else (None, opened (shut k) s)
      end
  end.

(** ** Statements *)

Definition no_session : string := "transaction session not found (expired or rolled back)".
(** The session is looked up, and kept. *)
Definition find_session (id sql : string) (is_select : bool) (s : Store) : option string * Store :=
  match s.(sessions) !! id with
  | None => (Some no_session, s)
  | Some t => (None, {| sessions := s.(sessions); conns := s.(conns);
                        waiting := s.(waiting) ++ [{| w_id := id; w_session := t; w_sql := sql; w_select := is_select |}] |})
  end.
Definition axum_err_to_string (body : json) : string :=
  redact (default "query execution failed" (e ← jget "error" body; m ← jget "message" e; Json.as_str m)).
(** How it went with a statement: its value or the body of its refusal, the thread
    MySQL tells when asked, and the clock then. *)
Record RunAnswer := { stmt_asked : Asked; value : json; thread_asked : Asked; thread : option Z; ran_at : Z }.
(** The lock is taken, the statement run, the thread asked for, the session touched
    and let go.  No answer when nobody waits there or the request was dropped (before
    the lock was its own, too). *)
Definition run_statement (i : nat) (a : RunAnswer) (s : Store) : option (result string json) * Store :=
  match s.(waiting) !! i with
  | None => (None, s)
  | Some w =>
      let t := w.(w_session) in
      let s := {| sessions := s.(sessions); conns := s.(conns); waiting := delete i s.(waiting) |} in
      let s := tell t.(conn) (ask a.(stmt_asked) (CStatement w.(w_sql))) s in
      let touch := alter (λ t, {| pool := t.(pool); conn := t.(conn); last_used := a.(ran_at) |}) w.(w_id) s.(sessions) in
      match reply_of a.(stmt_asked) with
      | Unheard => (None, s)
      | Refused => (Some (Err (axum_err_to_string a.(value))), s)
      | Done =>
          match t.(pool) with
          | PMySql _ =>
              let s := tell t.(conn) (ask a.(thread_asked) CThreadId) s in
              match reply_of a.(thread_asked) with
              | Unheard => (None, s)
              | r => let v := match r, a.(thread), a.(value) with
                              | Done, Some tid, JObj m => JObj (assoc_insert "threadId" (JInt tid) m)
                              | _, _, v => v
                              end in
                     (Some (Ok v), with_sessions touch s)
              end
          | _ => (Some (Ok a.(value)), with_sessions touch s)
          end
      end
  end.

(** ** Ending *)

Definition in_use (id : string) (s : Store) : Prop := Exists (λ w, w.(w_id) = id) s.(waiting).
#[global] Instance in_use_dec id s : Decision (in_use id s).
Proof. unfold in_use. apply _. Defined.
Definition ending (commit : bool) : Reply → Call := if commit then CCommit else CRollback.
Definition end_session (id : string) (t : TxnSession) (a : Asked) (c : Reply → Call) (s : Store) : Store :=
  tell t.(conn) shut (tell t.(conn) (ask a c) (with_sessions (delete id s.(sessions)) s)).
(** [finish]: removed, told, dropped; the engine's answer is not looked at.  It waits
    while a statement holds the session (none); no answer (none) when the request is
    dropped, and with it the session. *)
Definition finish (id : string) (commit : bool) (a : Asked) (s : Store) : option (result string unit) * Store :=
  match s.(sessions) !! id with
  | None => (Some (Err "transaction session not found"), s)
  | Some t =>
      if decide (in_use id s) then (None, s)
      else (match reply_of a with Unheard => None | _ => Some (Ok tt) end, end_session id t a (ending commit) s)
  end.

(** [Instant::duration_since], saturating. *)
Definition idle (now last : Z) : Z := Z.max 0 (now - last).
(** [cleanup_expired]: the scan, and one victim; [free] is whether the lock on
    [last_used] was free.  [remove_if] waits, too, while a statement holds the
    session (none). *)
Definition victims (now ttl : Z) (s : Store) : list string :=
  (filter (λ e, (ttl < idle now e.2.(last_used))%Z) (map_to_list s.(sessions))).*1.
Definition reclaim (now ttl : Z) (id : string) (free : bool) (a : Asked) (s : Store) : option bool * Store :=
  match s.(sessions) !! id with
  | None => (Some false, s)
  | Some t =>
      if decide (in_use id s) then (None, s)
      else if free && bool_decide (ttl < idle now t.(last_used))%Z
      then (Some true, end_session id t a CRollback s)
      else (Some false, s)
  end.
(** A sweep that nothing interrupts, and how many it reclaimed; none when it has to
    wait. *)
Fixpoint reclaim_all (now ttl : Z) (ids : list string) (s : Store) : option nat * Store :=
  match ids with
  | [] => (Some 0, s)
  | id :: ids =>
      match reclaim now ttl id true (of_bool true) s with
      | (None, s) => (None, s)
      | (Some hit, s) => let '(n, s) := reclaim_all now ttl ids s in ((if hit then S else λ n, n) <$> n, s)
      end
  end.
Definition cleanup_expired (now ttl : Z) (s : Store) : option nat * Store := reclaim_all now ttl (victims now ttl s) s.

(** ** Runs *)

Inductive Step : Type :=
| Begin (params : ConnParams) (a : BeginAnswer)
| Find (id sql : string) (is_select : bool)
| Run (i : nat) (a : RunAnswer)
| Finish (id : string) (commit : bool) (a : Asked)
| Reclaim (now ttl : Z) (id : string) (free : bool) (a : Asked).
Definition step (st : Step) (s : Store) : Store :=
  match st with
  | Begin params a => (begin params a s).2
  | Find id sql sel => (find_session id sql sel s).2
  | Run i a => (run_statement i a s).2
  | Finish id c a => (finish id c a s).2
  | Reclaim n ttl id free a => (reclaim n ttl id free a s).2
  end.
Definition run (sts : list Step) (s : Store) : Store := foldl (λ s st, step st s) s sts.

(** ** What a connection is told *)

Definition is_set (c : Call) : Prop := match c with CSet _ _ => True | _ => False end.
Definition is_statement (c : Call) : Prop := match c with CStatement _ _ | CThreadId _ => True | _ => False end.
Definition ends (c : Call) : Prop := match c with CCommit _ | CRollback _ => True | _ => False end.
Definition calls (k : Conn) : list Call := k.(trace).*2.
(** A transaction that is open, one that is over, and one that never began: with [lost],
    one may be over without having been told. *)
Definition begun (k : Conn) (rest : list Call) : Prop :=
  ∃ sets b, calls k = sets ++ CBegin b Done :: rest ∧ Forall is_set sets.
Definition open_trace (k : Conn) : Prop := k.(closed) = false ∧ ∃ body, begun k body ∧ Forall is_statement body.
Definition never_began (k : Conn) : Prop :=
  ∃ sets rest, calls k = sets ++ rest ∧ Forall is_set sets ∧ (rest = [] ∨ ∃ b r, rest = [CBegin b r] ∧ r ≠ Done).
Definition done_trace (lost : Prop) (k : Conn) : Prop := k.(closed) = true ∧
  (never_began k ∨ ∃ body e, begun k (body ++ e) ∧ Forall is_statement body ∧ ((∃ c, e = [c] ∧ ends c) ∨ (e = [] ∧ lost))).

(** Every session has its own open pool; those without a session are over; a waiting
    request waits on the pool of the session it names; and nothing was told on a
    physical connection later than the one there is. *)
Record store_ok (lost : Prop) (s : Store) : Prop := {
  st_open : ∀ id t, s.(sessions) !! id = Some t → ∃ k, s.(conns) !! t.(conn) = Some k ∧ open_trace k;
  st_own : ∀ id id' t t', s.(sessions) !! id = Some t → s.(sessions) !! id' = Some t' → t.(conn) = t'.(conn) → id = id';
  st_done : ∀ c k, s.(conns) !! c = Some k → (∃ id t, s.(sessions) !! id = Some t ∧ t.(conn) = c) ∨ done_trace lost k;
  st_waiting : ∀ w, w ∈ s.(waiting) → ∃ t, s.(sessions) !! w.(w_id) = Some t ∧ t.(conn) = w.(w_session).(conn) ∧ t.(pool) = w.(w_session).(pool);
  st_lives : ∀ c k, s.(conns) !! c = Some k → Forall (λ x, x.1 ≤ k.(life)) k.(trace) }.

Lemma new_ok lost : store_ok lost new.
Proof. split; cbn; [intros ? ?; by rewrite lookup_empty|intros ? ? ? ?; by rewrite lookup_empty|done|by intros ? ?%elem_of_nil|done]. Qed.
Lemma done_mono (lost lost' : Prop) k : (lost → lost') → done_trace lost k → done_trace lost' k.
Proof. intros H [Hc [Hn|(body & e & Hb & Hf & He)]]; split; [done|by left|done|]. right. exists body, e. naive_solver. Qed.
Lemma store_mono (lost lost' : Prop) s : (lost → lost') → store_ok lost s → store_ok lost' s.
Proof. intros H []. split; [done|done| |done|done]. intros c k Hk. destruct (st_done0 c k Hk); [by left|right; by eapply done_mono]. Qed.

(** ** Asking *)

Lemma calls_ask a c k : calls (ask a c k) = calls k ++ match a with Sent _ r => [c r] | Unsent _ => [] end.
Proof. destruct a as [d|again r]; cbn; [by rewrite app_nil_r|]. unfold calls. cbn. by rewrite fmap_app. Qed.
Lemma closed_ask a c k : closed (ask a c k) = closed k.
Proof. by destruct a. Qed.
Definition lives_ok (k : Conn) : Prop := Forall (λ x, x.1 ≤ k.(life)) k.(trace).
Lemma lives_ask a c k : lives_ok k → lives_ok (ask a c k).
Proof.
  unfold lives_ok. destruct a as [d|again r]; [done|]. intros H. cbn. apply Forall_app. split; [|by repeat constructor].
  eapply Forall_impl; [exact H|]. cbn. intros x Hx. destruct again; lia.
Qed.
Lemma apply_sets_spec asked : ∀ stmts i k there k', apply_sets asked i stmts k = (there, k') →
  lives_ok k → ∃ sets, calls k' = calls k ++ sets ∧ Forall is_set sets ∧ closed k' = closed k ∧ lives_ok k'.
Proof.
  induction stmts as [|sql stmts IH]; intros i k there k'; cbn [apply_sets].
  { intros [= <- <-]. exists []. by rewrite app_nil_r. }
  intros H Hl. set (k1 := ask (asked i) (CSet sql) k) in H.
  assert (H1 : ∃ sets, calls k1 = calls k ++ sets ∧ Forall is_set sets ∧ closed k1 = closed k ∧ lives_ok k1).
  { eexists. split; [apply calls_ask|]. split; [destruct (asked i); by repeat constructor|]. split; [apply closed_ask|by apply lives_ask]. }
  destruct H1 as (s1 & E1 & F1 & C1 & L1).
  destruct (reply_of (asked i)); [| |by simplify_eq; exists s1]; destruct (IH _ _ _ _ H L1) as (s2 & E2 & F2 & C2 & L2);
    (exists (s1 ++ s2); rewrite E2, E1, C2, C1, app_assoc; split_and!; [done|by apply Forall_app|done|done]).
Qed.

Lemma lookup_alter_list {A} (f : A → A) (l : list A) c k x : alter f c l !! k = Some x → 
  ∃ y, l !! k = Some y ∧ x = (if decide (k = c) then f y else y).
Proof.
  destruct (decide (k = c)) as [->|Hne].
  - rewrite list_lookup_alter_eq. destruct (l !! c) as [y|]; [|done]. intros [= <-]. by exists y.
  - rewrite list_lookup_alter_ne by done. intros Hx. by exists x.
Qed.

(** No session is overwritten: every UUID is new. *)
Definition fresh_uuid (st : Step) (s : Store) : Prop :=
  match st with Begin _ a => s.(sessions) !! a.(uuid) = None | _ => True end.

(** A pool is added: without a session when it is over, or with one. *)
Lemma opened_done lost k s : store_ok lost s → done_trace lost k → lives_ok k → store_ok lost (opened k s).
Proof.
  intros [] Hd Hl. split; cbn.
  - intros id t Ht. destruct (st_open0 _ _ Ht) as (k' & Hk & Ho). exists k'. split; [by apply lookup_app_l_Some|done].
  - done.
  - intros c k' [Hk|[_ Hk]]%lookup_app_Some; [by apply st_done0|]. apply list_lookup_singleton_Some in Hk as [_ <-]. by right.
  - done.
  - intros c k' [Hk|[_ Hk]]%lookup_app_Some; [by apply (st_lives0 c)|]. by apply list_lookup_singleton_Some in Hk as [_ <-].
Qed.
Lemma opened_session lost id t k s : store_ok lost s → s.(sessions) !! id = None → t.(conn) = length s.(conns) →
  open_trace k → lives_ok k → store_ok lost (opened k (with_sessions (<[id := t]> s.(sessions)) s)).
Proof.
  intros [] Hf Ht Hop Hl.
  assert (Hold : ∀ i u, s.(sessions) !! i = Some u → u.(conn) < length s.(conns)).
  { intros i u Hu. destruct (st_open0 _ _ Hu) as (k' & Hk & _). by eapply lookup_lt_Some. }
  split; cbn.
  - intros i u [[<- <-]|[Hne Hu]]%lookup_insert_Some.
    + exists k. rewrite Ht, lookup_app_r, Nat.sub_diag by lia. done.
    + destruct (st_open0 _ _ Hu) as (k' & Hk & Ho). exists k'. split; [by apply lookup_app_l_Some|done].
  - intros i j u v [[<- <-]|[Hne Hu]]%lookup_insert_Some [[<- <-]|[Hne' Hv]]%lookup_insert_Some E; [done| | |by eapply st_own0].
    + specialize (Hold _ _ Hv). lia.
    + specialize (Hold _ _ Hu). lia.
  - intros c k' [Hk|[Hc Hk]]%lookup_app_Some.
    + destruct (st_done0 _ _ Hk) as [(i & u & Hu & Hcn)|Hd]; [left|by right].
      exists i, u. rewrite lookup_insert_ne; [done|]. intros E0; congruence.
    + apply list_lookup_singleton_Some in Hk as [Hz _]. left. exists id, t. rewrite lookup_insert_eq. split; [done|lia].
  - intros w Hw. destruct (st_waiting0 _ Hw) as (u & Hu & H). exists u. split; [|done]. rewrite lookup_insert_ne; [done|]. intros E0; congruence.
  - intros c k' [Hk|[_ Hk]]%lookup_app_Some; [by apply (st_lives0 c)|]. by apply list_lookup_singleton_Some in Hk as [_ <-].
Qed.

Lemma begin_ok_inv lost params a s : store_ok lost s → s.(sessions) !! a.(uuid) = None → store_ok lost (begin params a s).2.
Proof.
  intros S Hf. unfold begin. destruct (pinned_for _ _) as [p|e]; [|done]. destruct a.(connect) as [[u|e]|]; [|done|done].
  destruct (apply_sets _ _ _ _) as [there k] eqn:Es. apply apply_sets_spec in Es as (sets & Ec & Fs & Hc & Hl); [|by unfold lives_ok].
  cbn in Ec, Hc. destruct there.
  - set (sql := begin_sql_for _). pose proof (lives_ask a.(begin_asked) (CBegin sql) k Hl) as Hl'.
    pose proof (calls_ask a.(begin_asked) (CBegin sql) k) as Ec'. rewrite Ec in Ec'.
    destruct (reply_of a.(begin_asked)) eqn:Er.
    + apply opened_session; [done|done|done| |done]. split; [by rewrite closed_ask|]. exists []. split; [|done].
      exists sets, sql. split; [|done]. destruct a.(begin_asked) as [[]|again r]; cbn in Er; try done. by subst r.
    + apply opened_done; [done| |done]. split; [done|]. left. exists sets. eexists. split; [exact Ec'|]. split; [done|].
      destruct a.(begin_asked) as [[]|again r]; cbn in Er; [done|by left|]. subst r. right. by eexists _, _.
    + apply opened_done; [done| |done]. split; [done|]. left. exists sets. eexists. split; [exact Ec'|]. split; [done|].
      destruct a.(begin_asked) as [[]|again r]; cbn in Er; [by left|done|]. subst r. right. by eexists _, _.
  - apply opened_done; [done| |done]. split; [done|]. left. exists sets, []. rewrite app_nil_r. split; [exact Ec|]. split; [done|by left].
Qed.

Lemma find_ok lost id sql sel s : store_ok lost s → store_ok lost (find_session id sql sel s).2.
Proof.
  intros []. unfold find_session. destruct (s.(sessions) !! id) as [t|] eqn:E; [|done]. split; cbn; try done.
  intros w [Hw| ->%list_elem_of_singleton]%elem_of_app; [by apply st_waiting0|]. by exists t.
Qed.

(** What a statement may do to a pool, to the requests that wait, to a session. *)
Definition extends (f : Conn → Conn) : Prop := ∀ k, ∃ more, calls (f k) = calls k ++ more ∧ Forall is_statement more ∧
  closed (f k) = closed k ∧ (lives_ok k → lives_ok (f k)).
Lemma ask_extends a c : (∀ r, is_statement (c r)) → extends (ask a c).
Proof.
  intros Hc k. eexists. split; [apply calls_ask|]. split; [destruct a; by repeat constructor|]. split; [apply closed_ask|apply lives_ask].
Qed.
Lemma extends_open f k : extends f → open_trace k → open_trace (f k).
Proof.
  intros Hf (Hc & body & (sets & b & E & Fs) & Fb). destruct (Hf k) as (more & E' & Fm & Hc' & _). split; [congruence|].
  exists (body ++ more). split; [|by apply Forall_app]. exists sets, b. rewrite E', E, <- app_assoc. done.
Qed.
Lemma tell_ok lost c f s : extends f → store_ok lost s → (∃ id t, s.(sessions) !! id = Some t ∧ t.(conn) = c) → store_ok lost (tell c f s).
Proof.
  intros Hf [] (idc & tc & Htc & Hcc). split; cbn; [|done| |done|].
  - intros id t Ht. destruct (st_open0 _ _ Ht) as (k & Hk & Ho). destruct (decide (t.(conn) = c)) as [Ec|Hne].
    + eexists. rewrite Ec in Hk |- *. rewrite list_lookup_alter_eq, Hk. split; [done|by apply extends_open].
    + exists k. by rewrite list_lookup_alter_ne.
  - intros d k (y & Hy & ->)%lookup_alter_list. case_decide as Hd; [subst d; left; by exists idc, tc|by apply st_done0].
  - intros d k (y & Hy & ->)%lookup_alter_list. case_decide; [|by eapply st_lives0]. destruct (Hf y) as (_ & _ & _ & _ & Hl). apply Hl. by eapply st_lives0.
Qed.
Lemma leave_ok lost i s : store_ok lost s →
  store_ok lost {| sessions := s.(sessions); conns := s.(conns); waiting := delete i s.(waiting) |}.
Proof.
  intros []. split; cbn; try done. intros w Hw. apply st_waiting0. eapply elem_of_submseteq; [exact Hw|apply submseteq_delete].
Qed.
Lemma touch_ok lost id now s : store_ok lost s →
  store_ok lost (with_sessions (alter (λ t, {| pool := t.(pool); conn := t.(conn); last_used := now |}) id s.(sessions)) s).
Proof.
  intros [].
  assert (Hb : ∀ i t', alter (λ t, {| pool := t.(pool); conn := t.(conn); last_used := now |}) id s.(sessions) !! i = Some t' →
    ∃ t, s.(sessions) !! i = Some t ∧ t.(conn) = t'.(conn) ∧ t.(pool) = t'.(pool)).
  { intros i t'. rewrite lookup_alter_Some. intros [(-> & t & Ht & ->)|[_ Ht]]; by eexists. }
  assert (Hforth : ∀ i t, s.(sessions) !! i = Some t → ∃ t', alter (λ t, {| pool := t.(pool); conn := t.(conn); last_used := now |}) id s.(sessions) !! i = Some t' ∧
    t.(conn) = t'.(conn) ∧ t.(pool) = t'.(pool)).
  { intros i t Ht. destruct (decide (id = i)) as [->|Hne]; [rewrite lookup_alter_eq, Ht; by eexists|rewrite lookup_alter_ne by done; by exists t]. }
  split; cbn.
  - intros i t' (t & Ht & <- & _)%Hb. by apply (st_open0 i).
  - intros i j t1 t2 (u1 & H1 & E1 & _)%Hb (u2 & H2 & E2 & _)%Hb E. eapply st_own0; [done..|congruence].
  - intros c k Hk. destruct (st_done0 c k Hk) as [(i & t & Ht & Hc)|Hd]; [left|by right].
    destruct (Hforth _ _ Ht) as (t' & Ht' & E & _). exists i, t'. split; [done|congruence].
  - intros w Hw. destruct (st_waiting0 w Hw) as (t & Ht & E & Ep). destruct (Hforth _ _ Ht) as (t' & Ht' & E' & Ep'). exists t'. split_and!; congruence.
  - done.
Qed.
Lemma run_statement_ok lost i a s : store_ok lost s → store_ok lost (run_statement i a s).2.
Proof.
  intros S. unfold run_statement. destruct (s.(waiting) !! i) as [w|] eqn:Ew; [|done].
  destruct (st_waiting _ _ S w) as (t & Ht & E & _); [by eapply list_elem_of_lookup_2|].
  set (s1 := {| sessions := _ |}). assert (S1 : store_ok lost s1) by (by apply leave_ok).
  set (s2 := tell _ _ s1). assert (S2 : store_ok lost s2) by (apply tell_ok; [by apply ask_extends|done|by exists w.(w_id), t]).
  destruct (reply_of a.(stmt_asked)); [|done|done].
  destruct (w.(w_session).(pool)); [|apply (touch_ok lost w.(w_id) _ s2 S2)..].
  set (s3 := tell _ _ s2). assert (S3 : store_ok lost s3) by (apply tell_ok; [by apply ask_extends|done|by exists w.(w_id), t]).
  destruct (reply_of a.(thread_asked)); [apply (touch_ok lost w.(w_id) _ s3 S3)..|done].
Qed.

(** A session that leaves the map is told its end, unless that does not reach the pool,
    and the pool is closed. *)
Lemma end_session_conns id t a c s d : (end_session id t a c s).(conns) !! d =
  if decide (d = t.(conn)) then (λ k, shut (ask a c k)) <$> s.(conns) !! d else s.(conns) !! d.
Proof.
  cbn. case_decide as Hd; [subst d|by rewrite !list_lookup_alter_ne]. rewrite !list_lookup_alter_eq. by destruct (_ !! _).
Qed.
Lemma end_session_ok (lost : Prop) id t a c s : store_ok lost s → s.(sessions) !! id = Some t → ¬ in_use id s → (∀ r, ends (c r)) →
  (∀ d, a = Unsent d → lost) → store_ok lost (end_session id t a c s).
Proof.
  intros [] Ht Hu He Hlost. destruct (st_open0 _ _ Ht) as (k0 & Hk0 & Hop & body & (sets & b & Htr & Fs) & Hb).
  assert (Hne : ∀ id' t', delete id s.(sessions) !! id' = Some t' → s.(sessions) !! id' = Some t' ∧ id' ≠ id ∧ t'.(conn) ≠ t.(conn)).
  { intros id' t' [Hne Ht']%lookup_delete_Some. split_and!; [done..|]. intros E. by apply Hne, (st_own0 id id' t t'). }
  split.
  - intros id' t' (Ht' & _ & Hc)%Hne. destruct (st_open0 _ _ Ht') as (k & Hk & Ho). exists k. rewrite end_session_conns. by rewrite decide_False.
  - intros i j t1 t2 (H1 & _)%Hne (H2 & _)%Hne. by eapply st_own0.
  - intros d k. rewrite end_session_conns. case_decide as Hd.
    + subst d. rewrite Hk0. intros [= <-]. right. split; [done|]. right. exists body. eexists. split; [|split; [exact Hb|]].
      { exists sets, b. split; [|exact Fs]. change (calls (shut (ask a c k0))) with (calls (ask a c k0)).
        rewrite calls_ask, Htr, <- app_assoc. reflexivity. }
      destruct a as [dr|again r]; [right; by split; [|by eapply Hlost]|left; by eexists].
    + intros Hk. destruct (st_done0 _ _ Hk) as [(id' & t' & Ht' & Hc)|Hdone]; [left|by right].
      exists id', t'. cbn. rewrite lookup_delete_ne; [done|]. intros <-. congruence.
  - intros w Hw. cbn in Hw. destruct (st_waiting0 _ Hw) as (t' & Ht' & H). exists t'. cbn. rewrite lookup_delete_ne; [done|].
    intros Ei. apply Hu, Exists_exists. by exists w.
  - intros d k. rewrite end_session_conns. case_decide as Hd; [|apply st_lives0]. subst d. rewrite Hk0. intros [= <-].
    apply (lives_ask a c k0). by apply (st_lives0 (conn t)).
Qed.

(** A step whose COMMIT or ROLLBACK does not get to the pool. *)
Definition end_unsent (st : Step) : Prop :=
  match st with Finish _ _ (Unsent _) | Reclaim _ _ _ _ (Unsent _) => True | _ => False end.
Lemma txn_step_ok lost st s : store_ok lost s → fresh_uuid st s → store_ok (lost ∨ end_unsent st) (step st s).
Proof.
  intros S Hf. destruct st as [p a|id sql sel|i a|id c a|n ttl id free a]; cbn [step fresh_uuid] in *.
  1-3: eapply store_mono; [left; eassumption|].
  - by apply begin_ok_inv.
  - by apply find_ok.
  - by apply run_statement_ok.
  - apply (store_mono _ (lost ∨ end_unsent (Finish id c a))) in S; [|by left]. unfold finish. destruct (s.(sessions) !! id) as [t|] eqn:E; [|done].
    case_decide; [done|]. apply end_session_ok; try done; [by destruct c|]. intros d ->. by right.
  - apply (store_mono _ (lost ∨ end_unsent (Reclaim n ttl id free a))) in S; [|by left]. unfold reclaim. destruct (s.(sessions) !! id) as [t|] eqn:E; [|done].
    case_decide; [done|]. destruct (_ && _); [|done]. apply end_session_ok; try done. intros d ->. by right.
Qed.
Fixpoint fresh_run (sts : list Step) (s : Store) : Prop :=
  match sts with [] => True | st :: sts => fresh_uuid st s ∧ fresh_run sts (step st s) end.
Lemma txn_run_ok sts : ∀ lost s, store_ok lost s → fresh_run sts s → store_ok (lost ∨ Exists end_unsent sts) (run sts s).
Proof.
  induction sts as [|st sts IH]; intros lost s S; cbn [fresh_run run foldl].
  { intros _. eapply store_mono; [|exact S]. by left. }
  intros [Hf Hr]. eapply store_mono; [|apply (IH _ _ (txn_step_ok lost st s S Hf) Hr)]. rewrite Exists_cons. tauto.
Qed.

(** ** Sweeping *)

(** What is left of a connection that was rolled back. *)
Definition rolled_back (k : Conn) : Conn := shut (ask (of_bool true) CRollback k).
Lemma reclaim_all_spec lost now ttl : ∀ ids s, store_ok lost s → s.(waiting) = [] → NoDup ids →
  (∀ id, id ∈ ids → ∃ t, s.(sessions) !! id = Some t ∧ (ttl < idle now t.(last_used))%Z) →
  ∃ s', reclaim_all now ttl ids s = (Some (length ids), s') ∧ store_ok lost s' ∧
    (∀ id, s'.(sessions) !! id = if decide (id ∈ ids) then None else s.(sessions) !! id) ∧
    (∀ id t, s.(sessions) !! id = Some t →
       s'.(conns) !! t.(conn) = if decide (id ∈ ids) then rolled_back <$> s.(conns) !! t.(conn) else s.(conns) !! t.(conn)) ∧
    (∀ c, (∀ id t, s.(sessions) !! id = Some t → t.(conn) ≠ c) → s'.(conns) !! c = s.(conns) !! c).
Proof.
  induction ids as [|id ids IH]; intros s S Hw Hnd Hin.
  { exists s. split; [done|]. split; [done|]. split_and!; intros; by rewrite ?decide_False by (by intros ?%elem_of_nil). }
  apply NoDup_cons in Hnd as [Hni Hnd]. destruct (Hin id) as (t & Ht & Hidle); [by left|].
  assert (Hu : ¬ in_use id s) by (unfold in_use; rewrite Hw; by intros ?%Exists_nil).
  cbn [reclaim_all]. unfold reclaim. rewrite Ht, decide_False, bool_decide_eq_true_2 by done. cbn [andb].
  set (s1 := end_session _ _ _ _ _). assert (S1 : store_ok lost s1) by (apply end_session_ok; done).
  assert (Hs1 : ∀ i, s1.(sessions) !! i = if decide (i = id) then None else s.(sessions) !! i).
  { intros i. subst s1. cbn. case_decide as Hd; [subst i; apply lookup_delete_eq|by apply lookup_delete_ne]. }
  assert (Hc1 : ∀ c, s1.(conns) !! c = if decide (c = t.(conn)) then rolled_back <$> s.(conns) !! c else s.(conns) !! c) by (apply end_session_conns).
  destruct (IH s1 S1 Hw Hnd) as (s' & -> & S' & Hs & Hown & Hc).
  { intros i Hi. destruct (Hin i) as (u & Hu1 & Hu2); [by right|]. exists u. split; [|done]. rewrite Hs1, decide_False; [done|].
    by intros ->. }
  exists s'. split; [done|]. split; [done|]. split_and!.
  - intros i. rewrite Hs, Hs1. repeat case_decide; try done; set_solver.
  - intros i u Hiu. destruct (decide (i = id)) as [E|Hne].
    + subst i. assert (u = t) as -> by congruence. rewrite Hc.
      { rewrite Hc1, decide_True by done. rewrite decide_True by (by left). done. }
      intros j v. rewrite Hs1. case_decide as Hd; [done|]. intros Hv E. by apply Hd, (st_own _ s S j id v t).
    + assert (Hdiff : u.(conn) ≠ t.(conn)) by (intros E; by apply Hne, (st_own _ s S i id u t)).
      rewrite (Hown i u) by (by rewrite Hs1, decide_False). rewrite Hc1, (decide_False (P := conn u = conn t)) by done.
      repeat case_decide; try done; set_solver.
  - intros c Hn. rewrite Hc, Hc1; [by rewrite decide_False by (intros ->; by eapply Hn)|].
    intros j v. rewrite Hs1. case_decide; [done|]. by apply Hn.
Qed.
Lemma victims_spec now ttl s id : id ∈ victims now ttl s ↔ ∃ t, s.(sessions) !! id = Some t ∧ (ttl < idle now t.(last_used))%Z.
Proof.
  unfold victims. rewrite list_elem_of_fmap. split.
  - intros ([i t] & -> & [Hi He]%list_elem_of_filter). exists t. split; [by apply elem_of_map_to_list|done].
  - intros (t & Ht & Hi). exists (id, t). split; [done|]. apply list_elem_of_filter. split; [done|by apply elem_of_map_to_list].
Qed.
Lemma victims_NoDup now ttl s : NoDup (victims now ttl s).
Proof.
  unfold victims. assert (H := NoDup_fst_map_to_list s.(sessions)). revert H.
  generalize (map_to_list s.(sessions)). intros l. induction l as [|[i t] l IH]; cbn; intros Hn; [constructor|].
  apply NoDup_cons in Hn as [Hi Hn]. case_decide as Hd; [|by apply IH]. cbn. constructor; [|by apply IH].
  intros ([j u] & E & [_ Hj]%list_elem_of_filter)%list_elem_of_fmap. cbn in E. subst j. apply Hi. apply list_elem_of_fmap. by exists (i, u).
Qed.

(** The sweeper ends the sessions that are idle, and no other.  On a store that
    requests have led to and none is using, a sweep reclaims every session that has
    been idle for longer than its time to live: it is gone from the map, its
    connection was told to roll back, last, and is closed; every other session, and
    every other connection, is as it was; and the count it returns is theirs.  A
    session that was touched after the scan, or is in use, is left alone. *)
Theorem sweep_ends_the_idle sts now ttl :
  fresh_run sts new → (run sts new).(waiting) = [] →
  let s := run sts new in
  (∃ s', cleanup_expired now ttl s = (Some (length (victims now ttl s)), s') ∧
     (∀ id t, s.(sessions) !! id = Some t →
        if decide (ttl < idle now t.(last_used))%Z
        then s'.(sessions) !! id = None ∧ s'.(conns) !! t.(conn) = rolled_back <$> s.(conns) !! t.(conn)
        else s'.(sessions) !! id = Some t ∧ s'.(conns) !! t.(conn) = s.(conns) !! t.(conn)) ∧
     (∀ c, (∀ id t, s.(sessions) !! id = Some t → t.(conn) ≠ c) → s'.(conns) !! c = s.(conns) !! c)) ∧
  (∀ id t free a s2, s2.(sessions) !! id = Some t → (idle now t.(last_used) ≤ ttl)%Z ∨ free = false ∨ in_use id s2 →
     (reclaim now ttl id free a s2).2 = s2).
Proof.
  intros Hf Hw. pose proof (txn_run_ok sts False new (new_ok _) Hf) as S. revert Hw S. generalize (run sts new). intros s Hw S. cbv zeta. split.
  - destruct (reclaim_all_spec _ now ttl (victims now ttl s) s S Hw (victims_NoDup _ _ _)) as (s' & E & _ & Hs & Ho & Hc).
    { intros id Hid. by apply victims_spec. }
    exists s'. split; [exact E|]. split; [|exact Hc]. intros id t Ht. rewrite Hs, (Ho id t Ht).
    case_decide as Hi; [rewrite !decide_True by (apply victims_spec; by exists t); done|].
    rewrite !decide_False; [done|..]; intros (t' & Ht' & Hi')%victims_spec; assert (t' = t) by congruence; by subst t'.
  - intros id t free a s2 Ht H. unfold reclaim. rewrite Ht. case_decide; [done|].
    destruct H as [H|[H|H]]; [|by subst free|done]. rewrite bool_decide_eq_false_2 by lia. by rewrite andb_false_r.
Qed.

(** ** One connection *)

(** A step in which the pool does not have to connect anew. *)
Definition kept (a : Asked) : Prop := match a with Sent again _ => again = false | Unsent _ => True end.
Definition steady (st : Step) : Prop :=
  match st with
  | Begin _ a => (∀ i, kept (a.(set_asked) i)) ∧ kept a.(begin_asked)
  | Find _ _ _ => True
  | Run _ a => kept a.(stmt_asked) ∧ kept a.(thread_asked)
  | Finish _ _ a | Reclaim _ _ _ _ a => kept a
  end.
Definition same_life (f : Conn → Conn) : Prop := ∀ k, (f k).(life) = k.(life).
Lemma same_life_ask a c : kept a → same_life (ask a c).
Proof. intros H k. destruct a as [d|again r]; [done|]. cbn in *. by subst again. Qed.
Lemma same_life_sets asked : (∀ i, kept (asked i)) → ∀ stmts i k, (apply_sets asked i stmts k).2.(life) = k.(life).
Proof.
  intros H stmts. induction stmts as [|sql stmts IH]; intros i k; [done|]. cbn [apply_sets].
  destruct (reply_of (asked i)); cbn [snd]; rewrite ?IH; by apply same_life_ask.
Qed.
Definition first_lives (s : Store) : Prop := Forall (λ k, k.(life) = 0) s.(conns).
Lemma first_tell f c s : same_life f → first_lives s → first_lives (tell c f s).
Proof. intros Hf H. unfold first_lives. cbn. apply Forall_alter; [exact H|]. intros k _ Hk. by rewrite Hf. Qed.
Lemma first_step st s : steady st → first_lives s → first_lives (step st s).
Proof.
  intros Hst H. destruct st as [p a|id sql sel|i a|id c a|n ttl id free a]; cbn [step steady] in *.
  - destruct Hst as [Hs Hb]. unfold begin. destruct (pinned_for _ _) as [p0|]; [|done]. destruct a.(connect) as [[|]|]; [|done|done].
    destruct (apply_sets _ _ _ _) as [there k] eqn:Es. pose proof (same_life_sets _ Hs (sets_of p0 p.(p_charset) p.(p_timezone)) 0 fresh_conn) as Hl.
    rewrite Es in Hl. cbn in Hl.
    destruct there; [destruct (reply_of a.(begin_asked))|]; (apply Forall_app; split; [exact H|]); repeat constructor; cbn;
      rewrite ?same_life_ask by done; done.
  - unfold find_session. by destruct (_ !! _).
  - destruct Hst as [H1 H2]. unfold run_statement. destruct (_ !! _) as [w|]; [|done].
    assert (Hl : first_lives (tell w.(w_session).(conn) (ask a.(stmt_asked) (CStatement w.(w_sql)))
      {| sessions := s.(sessions); conns := s.(conns); waiting := delete i s.(waiting) |})) by (apply first_tell; [by apply same_life_ask|done]).
    destruct (reply_of a.(stmt_asked)); [|done|done]. destruct (pool _); [|done|done].
    assert (Hl' := first_tell (ask a.(thread_asked) CThreadId) w.(w_session).(conn) _ (same_life_ask _ _ H2) Hl).
    by destruct (reply_of a.(thread_asked)).
  - unfold finish. destruct (_ !! _) as [t|]; [|done]. case_decide; [done|].
    apply first_tell; [done|]. apply first_tell; [by apply same_life_ask|done].
  - unfold reclaim. destruct (_ !! _) as [t|]; [|done]. case_decide; [done|]. destruct (_ && _); [|done].
    apply first_tell; [done|]. apply first_tell; [by apply same_life_ask|done].
Qed.
Lemma first_run sts : Forall steady sts → ∀ s, first_lives s → first_lives (run sts s).
Proof. induction 1 as [|st sts H _ IH]; [done|]. intros s Hs. by apply IH, first_step. Qed.

(** What a step may tell the pool [c]. *)
Definition concerns (st : Step) (s : Store) (c : nat) : Prop :=
  match st with
  | Begin _ _ | Find _ _ _ => False
  | Run i _ => ∃ w, s.(waiting) !! i = Some w ∧ ∃ t, s.(sessions) !! w.(w_id) = Some t ∧ t.(conn) = c
  | Finish id _ _ | Reclaim _ _ id _ _ => ∃ t, s.(sessions) !! id = Some t ∧ t.(conn) = c
  end.
Lemma tell_other c f s d k : d ≠ c → s.(conns) !! d = Some k → (tell c f s).(conns) !! d = Some k.
Proof. intros Hne Hk. cbn. by rewrite list_lookup_alter_ne. Qed.
Lemma step_local lost st s c k : store_ok lost s → s.(conns) !! c = Some k → ¬ concerns st s c → (step st s).(conns) !! c = Some k.
Proof.
  intros S Hk Hc. destruct st as [p a|id sql sel|i a|id cm a|n ttl id free a]; cbn [step concerns] in *.
  - unfold begin. destruct (pinned_for _ _); [|done]. destruct a.(connect) as [[|]|]; [|done|done].
    destruct (apply_sets _ _ _ _) as [[] k']; [destruct (reply_of _)|]; cbn; by apply lookup_app_l_Some.
  - unfold find_session. by destruct (s.(sessions) !! id).
  - unfold run_statement. destruct (s.(waiting) !! i) as [w|] eqn:Ew; [|done].
    destruct (st_waiting _ _ S w) as (t & Ht & E & _); [by eapply list_elem_of_lookup_2|].
    assert (Hne : c ≠ w.(w_session).(conn)) by (intros ->; apply Hc; exists w; split; [done|by exists t]).
    destruct (reply_of a.(stmt_asked)); [|by apply tell_other..]. destruct (pool _); [|by apply tell_other..].
    destruct (reply_of a.(thread_asked)); cbn; by rewrite !list_lookup_alter_ne.
  - unfold finish. destruct (s.(sessions) !! id) as [t|] eqn:E; [|done]. case_decide; [done|]. cbn [snd].
    rewrite end_session_conns, decide_False; [done|]. intros ->. apply Hc. by exists t.
  - unfold reclaim. destruct (s.(sessions) !! id) as [t|] eqn:E; [|done]. case_decide; [done|]. destruct (_ && _); [|done]. cbn [snd].
    rewrite end_session_conns, decide_False; [done|]. intros ->. apply Hc. by exists t.
Qed.


(** Two users' transactions: one commits, one is swept. *)
Definition ex_params (db_type : string) : ConnParams := {| p_db_type := db_type; p_charset := Some "utf8mb4"; p_timezone := None; p_file_path := None |}.
Definition ex_begin (uuid : string) (now : Z) : BeginAnswer :=
  {| connect := Some (Ok tt); set_asked := λ _, of_bool true; begin_asked := of_bool true; begin_err := ""; uuid := uuid; now := now |}.
Definition ex_run (again : bool) : RunAnswer :=
  {| stmt_asked := Sent again Done; value := JObj []; thread_asked := of_bool true; thread := Some 7%Z; ran_at := 90 |}.
Definition ex_steps : list Step :=
  [Begin (ex_params "mysql") (ex_begin "s1" 0);
   Begin (ex_params "postgres") (ex_begin "s2" 5);
   Find "s1" "UPDATE t SET a = 1" false;
   Run 0 (ex_run false);
   Finish "s1" true (of_bool true)].
Lemma ex_fresh : fresh_run ex_steps new.
Proof. cbn [fresh_run ex_steps fresh_uuid]. split_and!; vm_compute; reflexivity. Qed.
Lemma sweep_ends_the_idle_witness :
  (run ex_steps new).(waiting) = [] ∧ fst (cleanup_expired 1000 300 (run ex_steps new)) = Some 1 ∧
  ∃ s', cleanup_expired 1000 300 (run ex_steps new) = (Some (length (victims 1000 300 (run ex_steps new))), s').
Proof.
  assert (Hw : (run ex_steps new).(waiting) = []) by (vm_compute; reflexivity).
  split; [exact Hw|]. split; [vm_compute; reflexivity|].
  destruct (sweep_ends_the_idle ex_steps 1000 300 ex_fresh Hw) as [(s' & E & _) _]. by exists s'.
Defined.

(** A COMMIT that the engine refuses is answered as a success. *)
Example refused_commit_is_success :
  match finish "s2" true (of_bool false) (run ex_steps new) with
  | (answer, s) => answer = Some (Ok tt) ∧ (calls <$> s.(conns) !! 1) = Some [CBegin "BEGIN" Done; CCommit Refused]
  end.
Proof. vm_compute. split; reflexivity. Qed.
(** A pool that has to connect anew between two statements runs the second on its own,
    and the COMMIT, which ends no transaction, is answered as a success: the first
    statement is lost, the second is not in the transaction. *)
Example reconnect_leaves_transaction :
  let s := run [Begin (ex_params "postgres") (ex_begin "s1" 0); Find "s1" "DELETE FROM a" false; Run 0 (ex_run false);
                Find "s1" "INSERT INTO a VALUES (1)" false; Run 0 (ex_run true)] new in
  match finish "s1" true (of_bool true) s with
  | (answer, s) => answer = Some (Ok tt) ∧ (trace <$> s.(conns) !! 0) =
      Some [(0, CBegin "BEGIN" Done); (0, CStatement "DELETE FROM a" Done); (1, CStatement "INSERT INTO a VALUES (1)" Done); (1, CCommit Done)]
  end.
Proof. vm_compute. split; reflexivity. Qed.
(** A client that goes while its COMMIT waits for the connection leaves neither a session
    nor a COMMIT. *)
Example dropped_commit :
  match finish "s2" true (Unsent true) (run ex_steps new) with
  | (answer, s) => answer = None ∧ s.(sessions) !! "s2" = None ∧ (calls <$> s.(conns) !! 1) = Some [CBegin "BEGIN" Done]
  end.
Proof. vm_compute. split; [|split]; reflexivity. Qed.
(** The family of PostgreSQL is spelled in two ways here, in three for queries. *)
Example pg_alias_refused : pinned_for "pg" None = Err "transactions unsupported for db_type 'pg'".
Proof. vm_compute. reflexivity. Qed.
