(* ===== verification/Cells.v ===== *)
(** * Rows of the SQL engines as JSON (the decoders of db_handler.rs, lines 1057-1391
    and 2344-2390, and of sqlserver.rs)

    A column is read by trying types one after the other: the driver says which
    types read it.  Rows become objects keyed by column name, at most as many as the
    limit.  SQL Server's types and defaults are brought into their usual form. *)

From S2P Require Import Prelude RustStr Json TdengineLeg.
From stdpp Require Import strings list.

(** ** Cells *)

(** [try_get::<Option<T>>] of one cell for the types the decoders try: no reading
    (the type does not fit the column), NULL, or a value.  Floats are the bits of an
    [f64], an [f32] widened; decimals, dates, times and UUIDs are their text, in the
    form the decoder asks for. *)
Notation Read A := (option (option A)).
Record Cell := {
  c_string : Read string; c_bool : Read bool; c_u8 : Read Z; c_i16 : Read Z; c_i32 : Read Z; c_i64 : Read Z; c_u64 : Read Z;
  c_f32 : Read Z; c_f64 : Read Z; c_bytes : Read string; c_json : Read json; c_decimal : Read string;
  c_date : Read string; c_time : Read string; c_datetime : Read string; c_utc : Read string; c_offset : Read string;
  c_uuid : Read string }.

(** One attempt; the next one when it does not read. *)
Definition attempt {A} (f : A → json) (r : Read A) (next : json) : json :=
  match r with Some o => jopt f o | None => next end.
(** [json!] of a float: none for NaN and the infinities. *)
Definition finite_f64 (bits : Z) : bool := negb ((bits / 2 ^ 52) `mod` 2 ^ 11 =? 2047)%Z.
Definition jfloat (bits : Z) : json := if finite_f64 bits then JFloat bits else JNull.
(** Bytes: text, or how many they are. *)
Definition jbytes (b : string) : json :=
  JStr (if from_utf8 b then b else "<" +:+ z_string (Z.of_nat (String.length b)) +:+ " bytes>").

Definition decode_cell_mysql (c : Cell) : json :=
  attempt JStr c.(c_string) $ attempt JInt c.(c_i64) $ attempt JInt c.(c_u64) $ attempt jfloat c.(c_f64) $
  attempt JBool c.(c_bool) $ attempt jbytes c.(c_bytes) $ attempt id c.(c_json) $ attempt JStr c.(c_decimal) $
  attempt JStr c.(c_date) $ attempt JStr c.(c_time) $ attempt JStr c.(c_datetime) $ attempt JStr c.(c_utc) JNull.
Definition decode_cell_pg (c : Cell) : json :=
  attempt JStr c.(c_string) $ attempt JBool c.(c_bool) $ attempt JInt c.(c_i16) $ attempt JInt c.(c_i32) $
  attempt JInt c.(c_i64) $ attempt jfloat c.(c_f32) $ attempt jfloat c.(c_f64) $ attempt id c.(c_json) $
  attempt JStr c.(c_decimal) $ attempt JStr c.(c_date) $ attempt JStr c.(c_time) $ attempt JStr c.(c_datetime) $
  attempt JStr c.(c_utc) $ attempt JStr c.(c_uuid) JNull.
Definition decode_cell_sqlite (c : Cell) : json :=
  attempt JStr c.(c_string) $ attempt JInt c.(c_i64) $ attempt jfloat c.(c_f64) $ attempt JBool c.(c_bool) $
  attempt jbytes c.(c_bytes) JNull.
Definition decode_cell_tds (c : Cell) : json :=
  attempt JStr c.(c_string) $ attempt JBool c.(c_bool) $ attempt JInt c.(c_i64) $ attempt JInt c.(c_i32) $
  attempt JInt c.(c_i16) $ attempt JInt c.(c_u8) $ attempt jfloat c.(c_f64) $ attempt jfloat c.(c_f32) $
  attempt JStr c.(c_decimal) $ attempt JStr c.(c_datetime) $ attempt JStr c.(c_offset) $ attempt JStr c.(c_date) $
  attempt JStr c.(c_time) $ attempt JStr c.(c_uuid) $ attempt jbytes c.(c_bytes) JNull.
(** The projection of the name lists. *)
Definition decode_mysql_string (c : Cell) : string :=
  match c.(c_string), c.(c_bytes) with
  | Some (Some s), _ => s
  | _, Some (Some b) => from_utf8_lossy b
  | _, _ => ""
  end.
Definition ss_string (c : Cell) : string := default "" (Json.as_str (decode_cell_tds c)).
Definition ss_i64 (c : Cell) : Z := default 0%Z (as_i64_value (decode_cell_tds c)).

(** ** Rows *)

(** A row carries its columns' names and types. *)
Record Row := { r_columns : list (string * string); r_cells : list Cell }.
Definition no_cell : Cell :=
  {| c_string := None; c_bool := None; c_u8 := None; c_i16 := None; c_i32 := None; c_i64 := None; c_u64 := None;
     c_f32 := None; c_f64 := None; c_bytes := None; c_json := None; c_decimal := None; c_date := None; c_time := None;
     c_datetime := None; c_utc := None; c_offset := None; c_uuid := None |}.
(** A position that is not there reads as no type. *)
Definition cell (r : Row) (i : nat) : Cell := default no_cell (r.(r_cells) !! i).

Definition no_rows : json := JObj [("columns", JArr []); ("rows", JArr [])].
(** One row: an insertion for every column of the first row. *)
Fixpoint row_object (decode : Cell → json) (names : list string) (i : nat) (r : Row) (m : list (string * json)) : list (string * json) :=
  match names with
  | [] => m
  | n :: names => row_object decode names (S i) r (assoc_insert n (decode (cell r i)) m)
  end.
Definition table_json (decode : Cell → json) (columns : list (string * string)) (limit : nat) (rows : list Row) : json :=
  JObj [("columns", jstrs columns.*1);
        ("columnTypes", JArr ((λ c, JObj [("name", JStr c.1); ("type", JStr c.2)]) <$> columns));
        ("rows", JArr ((λ r, JObj (row_object decode columns.*1 0 r [])) <$> take limit rows))].
(** [rows_to_json_mysql], [_pg] and [_sqlite]. *)
Definition rows_to_json (decode : Cell → json) (rows : list Row) (limit : nat) : json :=
  match rows with [] => no_rows | r :: _ => table_json decode r.(r_columns) limit rows end.
(** SQL Server's: a type is what the first row's value looks like. *)
Definition type_of_value (v : json) : string :=
  match v with
  | JStr _ => "string" | JBool _ => "boolean" | JInt _ | JFloat _ => "number" | _ => "unknown"
  end.
Definition rows_to_json_sqlserver (rows : list Row) (limit : nat) : json :=
  match rows with
  | [] => no_rows
  | r :: _ => table_json decode_cell_tds
                (imap (λ i c, (c.1, type_of_value (decode_cell_tds (cell r i)))) r.(r_columns)) limit rows
  end.

(** ** The columns of a table *)

Record ColumnInfo := { name : string; data_type : string; is_primary_key : Z; is_nullable : Z; default_value : option string }.
Definition columns_json (cols : list ColumnInfo) : json :=
  JArr ((λ c, JObj [("name", JStr c.(name)); ("data_type", JStr c.(data_type));
                    ("is_primary_key", JBool (negb (c.(is_primary_key) =? 0)%Z)); ("is_nullable", JBool (negb (c.(is_nullable) =? 0)%Z));
                    ("default_value", jopt JStr c.(default_value))]) <$> cols).

(** [x as i16] and [x as u8]. *)
Definition as_i16 (x : Z) : Z := let r := (x `mod` 2 ^ 16)%Z in if decide (r < 2 ^ 15)%Z then r else (r - 2 ^ 16)%Z.
Definition as_u8 (x : Z) : Z := (x `mod` 2 ^ 8)%Z.
Definition sized (name : string) (max_length n : Z) : string :=
  if (max_length =? -1)%Z then name +:+ "(max)" else if (0 <? max_length)%Z then name +:+ "(" +:+ z_string n +:+ ")" else name.
Definition format_sqlserver_type (type_name : string) (max_length precision scale : Z) : string :=
  let name := to_ascii_lowercase type_name in
  if decide (name ∈ ["nvarchar"; "nchar"]) then sized name max_length (max_length `quot` 2)
  else if decide (name ∈ ["varchar"; "char"; "varbinary"; "binary"]) then sized name max_length max_length
  else if decide (name ∈ ["decimal"; "numeric"]) then name +:+ "(" +:+ z_string precision +:+ "," +:+ z_string scale +:+ ")"
  else if decide (name ∈ ["time"; "datetime2"; "datetimeoffset"]) then name +:+ "(" +:+ z_string scale +:+ ")"
  else name.

(** ** Defaults *)

(** The scan for the parenthesis that closes the first: is it the last character? *)
Fixpoint wraps_from (depth : Z) (s : string) : bool :=
  match s with
  | "" => false
  | String c s =>
      if decide (c = "("%char) then wraps_from (depth + 1) s
      else if decide (c = ")"%char) then
        if (depth - 1 =? 0)%Z then is_empty s else wraps_from (depth - 1) s
      else wraps_from depth s
  end.
Definition ends_with_paren (s : string) : bool :=
  match String.get (String.length s - 1) s with Some c => bool_decide (c = ")"%char) | None => false end.
Definition wrapped (s : string) : bool := starts_with "(" s && ends_with_paren s && wraps_from 0 s.
(** [s[1..len - 1].trim()]. *)
Definition unwrap (s : string) : string := RustStr.trim (String.substring 1 (String.length s - 2) s).
Fixpoint strip_loop (fuel : nat) (s : string) : string :=
  match fuel with
  | O => s
  | S fuel => if wrapped s then strip_loop fuel (unwrap s) else s
  end.
Definition strip_default_parens_opt (v : json) : option string :=
  s ← Json.as_str v;
  let s := RustStr.trim s in
  if is_empty s then None else
  let r := strip_loop (String.length s) s in
  if is_empty r then None else Some r.

(** ** What a row's object holds *)

(** The last column of a name. *)
Fixpoint last_column (n : string) (names : list string) (i : nat) : option nat :=
  match names with
  | [] => None
  | x :: names => match last_column n names (S i) with Some j => Some j | None => if decide (n = x) then Some i else None end
  end.
Lemma row_object_get decode n r : ∀ names i m, assoc_get n (row_object decode names i r m) =
  match last_column n names i with Some j => Some (decode (cell r j)) | None => assoc_get n m end.
Proof.
  induction names as [|x names IH]; intros i m; [done|]. cbn. rewrite IH. destruct (last_column n names (S i)); [done|].
  case_decide as E; [subst x; apply assoc_get_insert|by apply assoc_get_insert_ne].
Qed.
Lemma assoc_insert_new k v m : k ∉ m.*1 → assoc_insert k v m = m ++ [(k, v)].
Proof.
  induction m as [|[k' v'] m IH]; cbn; [done|]. intros [Hne Hn]%not_elem_of_cons. rewrite decide_False by done. by rewrite IH.
Qed.
Lemma row_object_distinct decode r : ∀ names i m, NoDup names → (∀ n, n ∈ names → n ∉ m.*1) →
  row_object decode names i r m = m ++ imap (λ j n, (n, decode (cell r (i + j)))) names.
Proof.
  induction names as [|x names IH]; intros i m Hnd Hm; cbn; [by rewrite app_nil_r|].
  apply NoDup_cons in Hnd as [Hx Hnd]. rewrite assoc_insert_new by (apply Hm; by left). rewrite IH; [|done|].
  - rewrite <- app_assoc. cbn. rewrite Nat.add_0_r. do 2 f_equal. apply imap_ext. intros j n _. cbn. by rewrite Nat.add_succ_r.
  - intros n Hn. rewrite fmap_app, elem_of_app. intros [H|H]; [by eapply Hm; [right|]|].
    apply list_elem_of_singleton in H. cbn in H. by subst n.
Qed.

(** A reply's rows are its columns.  Whatever the decoder, a result of at least
    one row gives, under the first row's column names, one object per row, in order
    and at most as many as the limit; an object holds, for every name, the value of
    the last column so named, and nothing else; with distinct names it is the row
    itself, column by column. *)
Theorem rows_are_columns decode rows limit r0 : head rows = Some r0 →
  let names := r0.(r_columns).*1 in
  jget "columns" (rows_to_json decode rows limit) = Some (jstrs names) ∧
  ∃ objects, jget "rows" (rows_to_json decode rows limit) = Some (JArr (JObj <$> objects)) ∧
    length objects = Nat.min limit (length rows) ∧
    ∀ i o, objects !! i = Some o → ∃ r, rows !! i = Some r ∧
      (∀ n, assoc_get n o = (λ j, decode (cell r j)) <$> last_column n names 0) ∧
      (NoDup names → o = imap (λ j n, (n, decode (cell r j))) names).
Proof.
  intros E. destruct rows as [|r1 rows]; [done|]. cbn in E. injection E as ->. cbv zeta.
  set (names := r0.(r_columns).*1). split; [done|].
  exists ((λ r, row_object decode names 0 r []) <$> take limit (r0 :: rows)). split_and!.
  - cbn -[take]. f_equal. f_equal. rewrite <- list_fmap_compose. done.
  - by rewrite length_fmap, length_take.
  - intros i o (r & -> & Hr)%list_lookup_fmap_Some. exists r. split_and!.
    + apply lookup_take_Some in Hr. by destruct Hr.
    + intros n. rewrite row_object_get. by destruct (last_column n names 0).
    + intros Hnd. rewrite row_object_distinct; [done|done|]. intros n _. by intros ?%elem_of_nil.
Qed.

(** ** What is left of a default *)

Lemma trim_length s : String.length (RustStr.trim s) ≤ String.length s.
Proof.
  destruct (trim_spec s) as (w1 & w2 & _ & _ & E). apply (f_equal String.length) in E. rewrite !str_length_app in E. lia.
Qed.
Lemma wrapped_length s : wrapped s = true → 2 ≤ String.length s.
Proof.
  unfold wrapped. destruct s as [|a [|b s]]; cbn; [done| |lia]. intros H. exfalso. revert H.
  destruct (decide (a = "("%char)) as [->|Ha]; [done|].
  rewrite !andb_true_iff. intros [[H _] _]. destruct a as [[] [] [] [] [] [] [] []]; done.
Qed.
Lemma unwrap_shorter s : wrapped s = true → String.length (unwrap s) < String.length s.
Proof.
  intros H%wrapped_length. unfold unwrap.
  pose proof (trim_length (String.substring 1 (String.length s - 2) s)) as Ht.
  assert (Hs : ∀ m n t, String.length (String.substring n m t) ≤ m).
  { clear. induction m as [|m IH]; intros n t.
    - destruct n, t; cbn; try lia. induction t as [|c t IHt] in n |- *; destruct n; cbn; try lia; apply IHt.
    - revert n. induction t as [|c t IHt]; intros [|n]; cbn; try lia; [specialize (IH 0 t); lia|apply IHt]. }
  specialize (Hs (String.length s - 2) 1 s). lia.
Qed.
(** [Peels s r]: parentheses around the whole are taken off until there are none. *)
Inductive Peels : string → string → Prop :=
| peel_done s : wrapped s = false → Peels s s
| peel_one s r : wrapped s = true → Peels (unwrap s) r → Peels s r.
Lemma strip_peels : ∀ fuel s, String.length s ≤ fuel → Peels s (strip_loop fuel s).
Proof.
  induction fuel as [|fuel IH]; intros s Hs; cbn.
  - apply peel_done. destruct (wrapped s) eqn:E; [|done]. apply wrapped_length in E. lia.
  - destruct (wrapped s) eqn:E; [|by apply peel_done]. apply peel_one; [done|]. apply IH.
    pose proof (unwrap_shorter s E). lia.
Qed.
Lemma peels_done s r : Peels s r → wrapped r = false.
Proof. by induction 1. Qed.
Lemma peels_trimmed s r : Peels s r → RustStr.trim s = s → RustStr.trim r = r.
Proof. induction 1 as [|s r E H IH]; [done|]. intros _. apply IH. apply trim_idem. Qed.
Lemma strip_done fuel s : wrapped s = false → strip_loop fuel s = s.
Proof. intros E. destruct fuel; [done|]. cbn. by rewrite E. Qed.

(** A default of SQL Server is its expression.  The loop ends: it takes
    parentheses off, a layer at a time, exactly as long as one pair encloses the whole
    text, within as many rounds as the text has characters; what is left is trimmed,
    not empty and not enclosed, so that stripping it again changes nothing; and there
    is no default exactly when there is no text, or none inside the parentheses. *)
Theorem default_is_unwrapped v :
  match strip_default_parens_opt v with
  | Some r => ∃ s, v = JStr s ∧ Peels (RustStr.trim s) r ∧ RustStr.trim r = r ∧ r ≠ "" ∧ wrapped r = false ∧
      strip_default_parens_opt (JStr r) = Some r
  | None => ∀ s, v = JStr s → Peels (RustStr.trim s) ""
  end.
Proof.
  unfold strip_default_parens_opt. destruct v as [| | | |s| |]; try done. cbn [Json.as_str mbind option_bind].
  destruct (is_empty (RustStr.trim s)) eqn:E0.
  { intros s' [= <-]. destruct (RustStr.trim s); [by apply peel_done|done]. }
  pose proof (strip_peels (String.length (RustStr.trim s)) (RustStr.trim s) (le_n _)) as HP.
  set (r := strip_loop _ _) in *. destruct (is_empty r) eqn:Er.
  { intros s' [= <-]. by destruct r. }
  assert (Ht : RustStr.trim r = r) by (eapply peels_trimmed; [exact HP|apply trim_idem]).
  exists s. split; [done|]. split; [done|]. split; [done|]. split; [by intros ->|]. split; [by eapply peels_done|].
  rewrite Ht, Er, strip_done by (by eapply peels_done). by rewrite Er.
Qed.

(** Duplicate column names: the header has both, the object the last. *)
Definition text_cell (s : string) : Cell :=
  {| c_string := Some (Some s); c_bool := None; c_u8 := None; c_i16 := None; c_i32 := None; c_i64 := None; c_u64 := None;
     c_f32 := None; c_f64 := None; c_bytes := None; c_json := None; c_decimal := None; c_date := None; c_time := None;
     c_datetime := None; c_utc := None; c_offset := None; c_uuid := None |}.
Definition ex_row : Row := {| r_columns := [("id", "INT"); ("id", "INT")]; r_cells := [text_cell "1"; text_cell "2"] |}.
Example duplicate_names_lose :
  jget "columns" (rows_to_json decode_cell_mysql [ex_row] 10) = Some (JArr [JStr "id"; JStr "id"]) ∧
  jget "rows" (rows_to_json decode_cell_mysql [ex_row] 10) = Some (JArr [JObj [("id", JStr "2")]]).
Proof. vm_compute. split; reflexivity. Qed.
Lemma rows_are_columns_witness :
  head [ex_row] = Some ex_row ∧
  jget "columns" (rows_to_json decode_cell_mysql [ex_row] 10) = Some (jstrs (ex_row.(r_columns).*1)).
Proof. split; [reflexivity|]. exact (proj1 (rows_are_columns decode_cell_mysql [ex_row] 10 ex_row eq_refl)). Defined.
(** Parentheses are counted inside literals, too. *)
Example default_with_parens_in_literals :
  strip_default_parens_opt (JStr "((0))") = Some "0" ∧
  strip_default_parens_opt (JStr "(1)+(2)") = Some "(1)+(2)" ∧
  strip_default_parens_opt (JStr "('(')+(')')") = Some "'(')+(')'".
Proof. vm_compute. split_and!; reflexivity. Qed.
