(* ===== verification/DbBackends.v ===== *)
(** * The SQL backends (crates/automation/src/db_handler.rs, lines 104-260, 1030-1060,
    1184-1200, 1312-1330, 1393-1500 and 1702-2340; sqlserver.rs, [tds_config])

    A backend opens a connection for one operation, sends its statements and drops
    it.  What is dialled and sent is recorded in order; what the engine answers may
    depend on all of it.  The trait [DbBackend] is a record of its operations. *)

From S2P Require Import Prelude StreamQuery.
From S2P Require Import RustStr Json TdengineLeg DbFamily Connections DraftTest Cells.
From stdpp Require Import strings list.

(** ** What an engine is told *)

(** Who is dialled, and as whom. *)
Inductive Login : Type :=
| MySqlLogin (caps : Handshake) | PgLogin (application : option string) | TdsLogin (application : string) (trust_cert : bool).
Inductive Target : Type :=
| Net (login : Login) (t_host : string) (t_port : Z) (t_user : string) (t_password : option string) (t_database : option string)
| File (path : string) (read_only : bool).
(** A statement: over the text protocol or not, what is bound to it, and whether its
    rows are asked for. *)
Record Statement := { text_protocol : bool; sql : string; binds : list string; wants_rows : bool }.
Inductive Event : Type := Dial (t : Target) | Send (s : Statement).
Notation Log := (list Event).
(** The answers, given everything so far; an execution's error says whether it is
    MySQL's 1295.  [column_decode] is the driver's complaint about a column that a
    row type does not fit. *)
Record Engine := {
  dials : Log → Target → result string unit;
  fetches : Log → Statement → result string (list Row);
  executes : Log → Statement → result (string * bool) Z;
  column_decode : string }.

(** Operations: an answer, and the longer log. *)
Definition M (E A : Type) : Type := Log → result E A * Log.
#[global] Instance m_ret {E} : MRet (M E) := λ A a l, (Ok a, l).
#[global] Instance m_bind {E} : MBind (M E) := λ A B f m l, match m l with (Ok a, l') => f a l' | (Err e, l') => (Err e, l') end.
Definition throw {E A} (e : E) : M E A := λ l, (Err e, l).
Definition map_err {E F A} (f : E → F) (m : M E A) : M F A :=
  λ l, match m l with (Ok a, l') => (Ok a, l') | (Err e, l') => (Err (f e), l') end.
(** [if let Err(e) = m { warn }]. *)
Definition ignore {E F A} (m : M E A) : M F unit := λ l, (Ok tt, (m l).2).

(** ** Error replies *)

Notation Fail := (Z * json)%type.
Definition envelope (code message : string) : json :=
  JObj [("ok", JBool false); ("data", JNull); ("error", JObj [("code", JStr code); ("message", JStr message)])].
Definition ok_response (data : json) : json := JObj [("ok", JBool true); ("data", data); ("error", JNull)].
Definition db_error (code message : string) (status : Z) : Fail :=
  (if decide (100 ≤ status ≤ 999)%Z then status else 500%Z, envelope code message).
Definition not_found (code message : string) : Fail := (404%Z, envelope code message).
Definition bad_request (code message : string) : Fail := (400%Z, envelope code message).
Definition connect_failed (e : string) : Fail := db_error "CONNECT_FAILED" (redact e) 503.
Definition query_failed (e : string) : Fail := db_error "QUERY_FAILED" (redact e) 500.

(** ** Connecting *)

(** [port as u16]. *)
Definition as_u16 (x : Z) : Z := (x `mod` 2 ^ 16)%Z.
(** The driver's own handshake sets both flags. *)
Definition default_handshake : Handshake := {| pipes_as_concat := true; no_engine_substitution := true |}.
Definition mysql_connect_options (conn : Connection) (password : string) (database : option string) : Target :=
  Net (MySqlLogin ((mysql_profile_for conn.(db_type)).(handshake) default_handshake)) conn.(host) (as_u16 conn.(port)) conn.(username)
      (if is_empty password then None else Some password) database.
Definition pg_options (conn : Connection) (password : string) (database : option string) : Target :=
  Net (PgLogin (Some "dbmaster-gw")) conn.(host) (as_u16 conn.(port)) conn.(username) (Some password) database.

Section Backends.
Context (engine : Engine) (trust_env : option string).

(** [trust_server_cert]; the variable, none when it is not set. *)
Definition trust_server_cert : bool :=
  match trust_env with
  | Some v => let v := to_ascii_lowercase (RustStr.trim v) in
              is_empty v || bool_decide (v ∈ ["1"; "true"; "yes"; "on"])
  | None => true
  end.
Definition tds_config (conn : Connection) (password : string) (db : option string) : Target :=
  Net (TdsLogin "dbmaster-server" trust_server_cert) conn.(host) (as_u16 conn.(port)) conn.(username) (Some password)
      (Some (default "master" (not_blank (StreamQuery.or_else db conn.(default_database))))).

(** Errors as the driver displays them. *)
Definition dial (t : Target) : M string unit := λ l, (engine.(dials) l t, l ++ [Dial t]).
Definition fetch (raw : bool) (q : string) (bs : list string) : M string (list Row) :=
  λ l, let s := {| text_protocol := raw; sql := q; binds := bs; wants_rows := true |} in (engine.(fetches) l s, l ++ [Send s]).
Definition execute (raw : bool) (q : string) : M (string * bool) Z :=
  λ l, let s := {| text_protocol := raw; sql := q; binds := []; wants_rows := false |} in (engine.(executes) l s, l ++ [Send s]).

Definition fetch_all_by_mode (mode : CatalogQueryMode) (q : string) (bind : option string) : M string (list Row) :=
  match mode, bind with
  | RawSql, _ => fetch true q []
  | Prepare, Some t => fetch false q [t]
  | Prepare, None => fetch false q []
  end.
Definition execute_by_mode (mode : CatalogQueryMode) (q : string) : M string Z :=
  match mode with
  | RawSql => map_err fst (execute true q)
  | Prepare => λ l, match execute false q l with
                    | (Err (_, true), l') => map_err fst (execute true q) l'
                    | (Err (e, false), l') => (Err e, l')
                    | (Ok n, l') => (Ok n, l')
                    end
  end.

Definition apply_mysql_session {E} (charset timezone : option string) (db_type : string) : M E unit :=
  let profile := mysql_profile_for db_type in
  foldr (λ q k, ignore (execute_by_mode profile.(catalog_mode) q) ≫= λ _ : unit, k) (mret tt)
        (profile.(session_statements) charset timezone).
Definition open_mysql_at (conn : Connection) (password : string) (database : option string) : M Fail unit :=
  _ ← map_err connect_failed (dial (mysql_connect_options conn password database));
  apply_mysql_session conn.(charset) conn.(timezone) conn.(db_type).
Definition open_mysql (conn : Connection) (password : string) : M Fail unit := open_mysql_at conn password None.
Definition open_mysql_db (conn : Connection) (password : string) (db : option string) : M Fail unit :=
  open_mysql_at conn password (not_blank db).
Definition open_pg (conn : Connection) (password : string) : M Fail unit :=
  map_err connect_failed (dial (pg_options conn password None)).
Definition open_pg_db (conn : Connection) (password : string) (db : option string) : M Fail unit :=
  map_err connect_failed (dial (pg_options conn password (Some (default "postgres" db)))).
Definition open_sqlite (conn : Connection) : M Fail unit :=
  match conn.(file_path) with
  | None => throw (db_error "CONFIG_ERROR" "sqlite connection missing file_path" 400)
  | Some path => map_err connect_failed (dial (File path false))
  end.

(** ** Executing *)

Definition affected_json (n : Z) : json := JObj [("columns", JArr []); ("rows", JArr []); ("affectedRows", JInt n)].
Definition execute_sql_mysql (q : string) (limit : nat) (is_select : bool) (mode : CatalogQueryMode) : M Fail json :=
  if is_select then rows ← map_err query_failed (fetch_all_by_mode mode q None); mret (rows_to_json decode_cell_mysql rows limit)
  else n ← map_err query_failed (execute_by_mode mode q); mret (affected_json n).
Definition rows_to_json_pg : list Row → nat → json := rows_to_json decode_cell_pg.
Definition rows_to_json_sqlite : list Row → nat → json := rows_to_json decode_cell_sqlite.
(** [execute_sql_pg] and [execute_sql_sqlite] differ in the table they make of the rows. *)
Definition execute_sql (table : list Row → nat → json) (q : string) (limit : nat) (is_select : bool) : M Fail json :=
  if is_select then rows ← map_err query_failed (fetch false q []); mret (table rows limit)
  else n ← map_err (λ e, query_failed e.1) (execute false q); mret (affected_json n).
Definition execute_sql_pg : string → nat → bool → M Fail json := execute_sql rows_to_json_pg.
Definition execute_sql_sqlite : string → nat → bool → M Fail json := execute_sql rows_to_json_sqlite.
(** [execute_tds]: only DML reports its rows. *)
Definition execute_tds (q : string) : M string Z :=
  map_err fst (if StreamQuery.is_dml_statement q then execute false q else _ ← execute true q; mret 0%Z).

(** ** Catalog lists *)

(** [query_as::<_, (String,)>]: every row has a text. *)
Definition text_of (c : Cell) : option string := match c.(c_string) with Some (Some s) => Some s | _ => None end.
Definition typed {A} (f : Row → option A) (rows : list Row) : M Fail (list A) :=
  match mapM f rows with Some xs => mret xs | None => throw (query_failed engine.(column_decode)) end.
Definition first_text (r : Row) : option string := text_of (cell r 0).
Definition pg_names (q : string) (bs : list string) : M Fail (list string) :=
  rows ← map_err query_failed (fetch false q bs); typed first_text rows.
(** A column by name. *)
Definition named (r : Row) (n : string) : Cell :=
  match last_column n r.(r_columns).*1 0 with Some i => cell r i | None => no_cell end.
Definition i64_of (c : Cell) : option Z := match c.(c_i64) with Some (Some z) => Some z | _ => None end.
(** [#[derive(FromRow)]]. *)
Definition from_row (r : Row) : option ColumnInfo :=
  n ← text_of (named r "name"); t ← text_of (named r "data_type"); pk ← i64_of (named r "is_primary_key");
  nu ← i64_of (named r "is_nullable"); d ← c_string (named r "default_value");
  Some {| name := n; data_type := t; is_primary_key := pk; is_nullable := nu; default_value := d |}.
Definition mysql_column (r : Row) : ColumnInfo :=
  {| name := decode_mysql_string (cell r 0); data_type := decode_mysql_string (cell r 1);
     is_primary_key := default 0%Z (i64_of (cell r 2)); is_nullable := default 0%Z (i64_of (cell r 3));
     default_value := match c_bytes (cell r 4) with Some (Some b) => Some (from_utf8_lossy b) | _ => None end |}.
Definition ch_column (r : Row) : ColumnInfo :=
  let t := decode_mysql_string (cell r 1) in
  {| name := decode_mysql_string (cell r 0); data_type := t; is_primary_key := 0;
     is_nullable := if starts_with "Nullable(" t then 1 else 0; default_value := None |}.
Definition sqlite_column (r : Row) : ColumnInfo :=
  {| name := default "" (text_of (named r "name")); data_type := default "" (text_of (named r "type"));
     is_primary_key := default 0%Z (i64_of (named r "pk"));
     is_nullable := if (default 0%Z (i64_of (named r "notnull")) =? 0)%Z then 1 else 0;
     default_value := text_of (named r "dflt_value") |}.
Definition ss_column (r : Row) : ColumnInfo :=
  {| name := ss_string (cell r 0);
     data_type := format_sqlserver_type (ss_string (cell r 1)) (as_i16 (ss_i64 (cell r 2))) (as_u8 (ss_i64 (cell r 3))) (as_u8 (ss_i64 (cell r 4)));
     is_primary_key := ss_i64 (cell r 6); is_nullable := ss_i64 (cell r 5);
     default_value := strip_default_parens_opt (decode_cell_tds (cell r 7)) |}.

Inductive SchemaObjectKind : Type := Views | Procedures | Functions | Triggers.
(** The trait. *)
Record DbBackend := {
  test : Connection → string → M string unit;
  list_databases : Connection → string → M Fail (list string);
  list_tables : Connection → string → option string → M Fail (list string);
  list_columns : Connection → string → option string → string → M Fail (list ColumnInfo);
  list_schema_objects : Connection → string → option string → SchemaObjectKind → M Fail (list string);
  list_indexes : Connection → string → option string → string → M Fail (list string);
  list_foreign_keys : Connection → string → option string → string → M Fail (list string);
  execute_query : Connection → string → option string → string → nat → bool → M Fail json }.

(** ** Connection tests *)

Definition test_mysql (conn : Connection) (password : string) : M string unit :=
  _ ← dial (mysql_connect_options conn password (not_blank conn.(default_database)));
  _ ← fetch_all_by_mode (mysql_profile_for conn.(db_type)).(catalog_mode) "SELECT 1" None; mret tt.
Definition test_pg (conn : Connection) (password : string) : M string unit :=
  _ ← dial (pg_options conn password (Some (default "" conn.(default_database))));
  _ ← map_err fst (execute false "SELECT 1"); mret tt.
Definition test_sqlite (conn : Connection) : M string unit :=
  match conn.(file_path) with
  | None => throw "sqlite connection missing file_path"
  | Some path => _ ← dial (File path true); _ ← map_err fst (execute false "SELECT 1"); mret tt
  end.
Definition test_sqlserver (conn : Connection) (password : string) : M string unit :=
  _ ← dial (tds_config conn password None); _ ← map_err fst (execute true "SELECT 1"); mret tt.

(** ** The backends *)

Definition mysql_names (rows : list Row) : list string := (λ r, decode_mysql_string (cell r 0)) <$> rows.
(** A list over [information_schema]: the statement, and what is bound. *)
Definition mysql_list {A} (p : Profile) (f : list Row → A) (opening : M Fail unit) (q : string * option string) : M Fail A :=
  _ ← opening; rows ← map_err query_failed (fetch_all_by_mode p.(catalog_mode) q.1 q.2); mret (f rows).
Definition db_name (conn : Connection) (db : option string) : string := default "" (StreamQuery.or_else db conn.(default_database)).
Definition mysql_objects_sql (kind : SchemaObjectKind) : string :=
  match kind with
  | Views => "SELECT table_name FROM information_schema.views WHERE table_schema = DATABASE() ORDER BY table_name"
  | Procedures => "SELECT routine_name FROM information_schema.routines WHERE routine_schema = DATABASE() AND routine_type = 'PROCEDURE' ORDER BY routine_name"
  | Functions => "SELECT routine_name FROM information_schema.routines WHERE routine_schema = DATABASE() AND routine_type = 'FUNCTION' ORDER BY routine_name"
  | Triggers => "SELECT trigger_name FROM information_schema.triggers WHERE trigger_schema = DATABASE() ORDER BY trigger_name"
  end.
Definition mysql_family_backend (p : Profile) : DbBackend := {|
  test c pw := map_err redact (test_mysql c pw);
  list_databases c pw := mysql_list p mysql_names (open_mysql c pw) ("SHOW DATABASES", None);
  list_tables c pw db := mysql_list p mysql_names (open_mysql_db c pw db) ("SHOW TABLES", None);
  list_columns c pw db t := mysql_list p (fmap mysql_column) (open_mysql_db c pw db) (list_columns_sql p (db_name c db) t);
  list_schema_objects c pw db k := mysql_list p mysql_names (open_mysql_db c pw db) (mysql_objects_sql k, None);
  list_indexes c pw db t := mysql_list p mysql_names (open_mysql_db c pw db) (list_indexes_sql p (db_name c db) t);
  list_foreign_keys c pw db t := mysql_list p mysql_names (open_mysql_db c pw db) (list_foreign_keys_sql p (db_name c db) t);
  execute_query c pw db q limit is_select := _ ← open_mysql_db c pw db; execute_sql_mysql q limit is_select p.(catalog_mode) |}.

Definition pg_columns_sql : string :=
  "SELECT c.column_name AS name, c.data_type AS data_type,
                    CASE WHEN pk.column_name IS NOT NULL THEN 1 ELSE 0 END AS is_primary_key,
                    CASE WHEN c.is_nullable = 'YES' THEN 1 ELSE 0 END AS is_nullable,
                    c.column_default AS default_value
             FROM information_schema.columns c
             LEFT JOIN (
                 SELECT kcu.column_name FROM information_schema.table_constraints tc
                 JOIN information_schema.key_column_usage kcu
                   ON tc.constraint_name = kcu.constraint_name
                 WHERE tc.constraint_type = 'PRIMARY KEY' AND kcu.table_name = $1
             ) pk ON c.column_name = pk.column_name
             WHERE c.table_name = $1 AND c.table_schema = 'public'
             ORDER BY c.ordinal_position".
Definition pg_objects_sql (kind : SchemaObjectKind) : string :=
  match kind with
  | Views => "SELECT viewname FROM pg_views WHERE schemaname = 'public' ORDER BY viewname"
  | Procedures => "SELECT routine_name FROM information_schema.routines WHERE routine_schema = 'public' AND routine_type = 'PROCEDURE' ORDER BY routine_name"
  | Functions => "SELECT routine_name FROM information_schema.routines WHERE routine_schema = 'public' AND routine_type = 'FUNCTION' ORDER BY routine_name"
  | Triggers => "SELECT trigger_name FROM information_schema.triggers WHERE trigger_schema = 'public' ORDER BY trigger_name"
  end.
Definition pg_list_columns (c : Connection) (pw : string) (db : option string) (t : string) : M Fail (list ColumnInfo) :=
  _ ← open_pg_db c pw db; rows ← map_err query_failed (fetch false pg_columns_sql [t]); typed from_row rows.
Definition postgres_backend : DbBackend := {|
  test c pw := map_err redact (test_pg c pw);
  list_databases c pw := _ ← open_pg c pw; pg_names "SELECT datname FROM pg_database WHERE datistemplate = false ORDER BY datname" [];
  list_tables c pw db := _ ← open_pg_db c pw db; pg_names "SELECT tablename FROM pg_tables WHERE schemaname = 'public' ORDER BY tablename" [];
  list_columns := pg_list_columns;
  list_schema_objects c pw db k := _ ← open_pg_db c pw db; pg_names (pg_objects_sql k) [];
  list_indexes c pw db t := _ ← open_pg_db c pw db;
    pg_names "SELECT indexname FROM pg_indexes WHERE schemaname = 'public' AND tablename = $1 ORDER BY indexname" [t];
  list_foreign_keys c pw db t := _ ← open_pg_db c pw db;
    pg_names "SELECT conname FROM pg_constraint WHERE contype = 'f' AND conrelid = $1::regclass ORDER BY conname" [t];
  execute_query c pw db q limit is_select := _ ← open_pg_db c pw db; execute_sql_pg q limit is_select |}.

Definition sqlite_pragma {A} (c : Connection) (f : list Row → A) (pragma t : string) : M Fail A :=
  _ ← open_sqlite c; rows ← map_err query_failed (fetch false ("PRAGMA " +:+ pragma +:+ "(" +:+ quote_ident_sqlite t +:+ ")") []); mret (f rows).
Definition sqlite_index (r : Row) : option string := not_blank (text_of (named r "name")).
Definition sqlite_fk (r : Row) : option string :=
  t ← not_blank (text_of (named r "table")); Some ("fk_" +:+ t +:+ "_" +:+ default "" (text_of (named r "to"))).
Definition sqlite_backend : DbBackend := {|
  test c _ := map_err redact (test_sqlite c);
  list_databases _ _ := mret ["main"];
  list_tables c _ _ := _ ← open_sqlite c; pg_names "SELECT name FROM sqlite_master WHERE type = 'table' AND name NOT LIKE 'sqlite_%' ORDER BY name" [];
  list_columns c _ _ t := sqlite_pragma c (fmap sqlite_column) "table_info" t;
  list_schema_objects c _ _ k :=
    match k with
    | Views => _ ← open_sqlite c; pg_names "SELECT name FROM sqlite_master WHERE type = 'view' ORDER BY name" []
    | _ => mret []
    end;
  list_indexes c _ _ t := sqlite_pragma c (omap sqlite_index) "index_list" t;
  list_foreign_keys c _ _ t := sqlite_pragma c (omap sqlite_fk) "foreign_key_list" t;
  execute_query c _ _ q limit is_select := _ ← open_sqlite c; execute_sql_sqlite q limit is_select |}.

Definition ch_list_columns_sql (c : Connection) (db : option string) (t : string) : string :=
  "SELECT name, type FROM system.columns WHERE database = " +:+ ch_str_literal (default "default" (StreamQuery.or_else db c.(default_database)))
  +:+ " AND table = " +:+ ch_str_literal t +:+ " ORDER BY position".
Definition ch_list {A} (f : list Row → A) (opening : M Fail unit) (q : string) : M Fail A :=
  _ ← opening; rows ← map_err query_failed (fetch false q []); mret (f rows).
Definition clickhouse_backend : DbBackend := {|
  test c pw := map_err redact (test_mysql c pw);
  list_databases c pw := ch_list mysql_names (open_mysql c pw) "SHOW DATABASES";
  list_tables c pw db := ch_list mysql_names (open_mysql_db c pw db) "SHOW TABLES";
  list_columns c pw db t := ch_list (fmap ch_column) (open_mysql_db c pw db) (ch_list_columns_sql c db t);
  list_schema_objects _ _ _ _ := mret [];
  list_indexes _ _ _ _ := mret [];
  list_foreign_keys _ _ _ _ := mret [];
  execute_query c pw db q limit is_select := _ ← open_mysql_db c pw db; execute_sql_mysql q limit is_select Prepare |}.

Definition ss_query_rows (c : Connection) (pw : string) (db : option string) (q : string) (bs : list string) : M Fail (list Row) :=
  _ ← map_err connect_failed (dial (tds_config c pw db)); map_err query_failed (fetch false q bs).
Definition ss_names (c : Connection) (pw : string) (db : option string) (q : string) (bs : list string) : M Fail (list string) :=
  rows ← ss_query_rows c pw db q bs; mret ((λ r, ss_string (cell r 0)) <$> rows).
Definition ss_columns_sql : string :=
  "SELECT c.name, tp.name AS type_name, c.max_length, c.precision, c.scale,
                    CASE WHEN c.is_nullable = 1 THEN 1 ELSE 0 END,
                    CASE WHEN c.is_identity = 1 OR EXISTS (
                        SELECT 1 FROM sys.index_columns ic
                        JOIN sys.indexes i
                          ON i.object_id = ic.object_id AND i.index_id = ic.index_id
                        WHERE ic.object_id = c.object_id AND ic.column_id = c.column_id
                          AND i.is_primary_key = 1
                    ) THEN 1 ELSE 0 END,
                    OBJECT_DEFINITION(c.default_object_id)
             FROM sys.columns c
             JOIN sys.types tp ON tp.user_type_id = c.user_type_id
             WHERE c.object_id = OBJECT_ID(@P1)
             ORDER BY c.column_id".
Definition ss_objects_sql (kind : SchemaObjectKind) : string :=
  match kind with
  | Views => "SELECT name FROM sys.views WHERE schema_id = SCHEMA_ID('dbo') ORDER BY name"
  | Procedures => "SELECT name FROM sys.procedures WHERE schema_id = SCHEMA_ID('dbo') ORDER BY name"
  | Functions => "SELECT name FROM sys.objects WHERE schema_id = SCHEMA_ID('dbo') AND type IN ('FN','AF','IF','TF') ORDER BY name"
  | Triggers => "SELECT name FROM sys.objects WHERE type = 'TR' AND schema_id = SCHEMA_ID('dbo') ORDER BY name"
  end.
Definition sqlserver_backend : DbBackend := {|
  test c pw := map_err redact (test_sqlserver c pw);
  list_databases c pw := ss_names c pw None "SELECT name FROM sys.databases ORDER BY name" [];
  list_tables c pw db := ss_names c pw db "SELECT t.name FROM sys.tables t
             WHERE t.schema_id = SCHEMA_ID('dbo') ORDER BY t.name" [];
  list_columns c pw db t := rows ← ss_query_rows c pw db ss_columns_sql [t]; mret (ss_column <$> rows);
  list_schema_objects c pw db k := ss_names c pw db (ss_objects_sql k) [];
  list_indexes c pw db t := ss_names c pw db "SELECT i.name FROM sys.indexes i
             WHERE i.object_id = OBJECT_ID(@P1) AND i.name IS NOT NULL
             ORDER BY i.name" [t];
  list_foreign_keys c pw db t := ss_names c pw db "SELECT fk.name FROM sys.foreign_keys fk
             WHERE fk.parent_object_id = OBJECT_ID(@P1)
             ORDER BY fk.name" [t];
  execute_query c pw db q limit is_select :=
    _ ← map_err connect_failed (dial (tds_config c pw db));
    if is_select then rows ← map_err query_failed (fetch false q []); mret (rows_to_json_sqlserver rows limit)
    else n ← map_err query_failed (execute_tds q); mret (affected_json n) |}.

(** [Box<dyn DbBackend>]. *)
Definition the_backend (b : Backend) : DbBackend :=
  match b with
  | MysqlFamilyBackend p => mysql_family_backend p | PostgresBackend => postgres_backend | SqliteBackend => sqlite_backend
  | ClickhouseBackend => clickhouse_backend | SqlServerBackend => sqlserver_backend
  end.
End Backends.

(** ** What an operation sends *)

(** The operation only sends statements of one kind; it opens one connection, and
    sends them on it. *)
Definition Sends {E A} (Q : Statement → Prop) (m : M E A) : Prop :=
  ∀ l, ∃ ss, (m l).2 = l ++ (Send <$> ss) ∧ Forall Q ss.
Definition Opens {E A} (P : Target → Prop) (Q : Statement → Prop) (m : M E A) : Prop :=
  ∀ l, (m l).2 = l ∨ ∃ t ss, (m l).2 = l ++ Dial t :: (Send <$> ss) ∧ P t ∧ Forall Q ss.

Lemma sends_weaken {E A} (Q Q' : Statement → Prop) (m : M E A) : Sends Q m → (∀ s, Q s → Q' s) → Sends Q' m.
Proof. intros H HQ l. destruct (H l) as (ss & -> & Hss). exists ss. split; [done|]. by eapply Forall_impl. Qed.
Lemma opens_weaken {E A} P (Q Q' : Statement → Prop) (m : M E A) : Opens P Q m → (∀ s, Q s → Q' s) → Opens P Q' m.
Proof.
  intros H HQ l. destruct (H l) as [->|(t & ss & -> & Ht & Hss)]; [by left|right]. exists t, ss. split_and!; [done..|].
  by eapply Forall_impl.
Qed.
Lemma sends_ret {E A} Q (a : A) : Sends Q (mret a : M E A).
Proof. intros l. exists []. split; [by rewrite app_nil_r|done]. Qed.
Lemma sends_throw {E A} Q (e : E) : Sends Q (throw e : M E A).
Proof. intros l. exists []. split; [by rewrite app_nil_r|done]. Qed.
Lemma opens_ret {E A} P Q (a : A) : Opens P Q (mret a : M E A).
Proof. intros l. by left. Qed.
Lemma opens_throw {E A} P Q (e : E) : Opens P Q (throw e : M E A).
Proof. intros l. by left. Qed.
Lemma sends_bind {E A B} Q (m : M E A) (f : A → M E B) : Sends Q m → (∀ a, Sends Q (f a)) → Sends Q (m ≫= f).
Proof.
  intros Hm Hf l. destruct (Hm l) as (ss & El & Hss). unfold mbind, m_bind. destruct (m l) as [[a|e] l']; cbn in El |- *; subst l'.
  - destruct (Hf a (l ++ (Send <$> ss))) as (ss' & E2 & Hss'). exists (ss ++ ss'). rewrite E2, fmap_app, app_assoc.
    split; [done|]. by apply Forall_app.
  - by exists ss.
Qed.
Lemma opens_bind {E A B} P Q (m : M E A) (f : A → M E B) : Opens P Q m → (∀ a, Sends Q (f a)) →
  (∀ l a, (m l).1 = Ok a → (m l).2 ≠ l) → Opens P Q (m ≫= f).
Proof.
  intros Hm Hf Hne l. unfold mbind, m_bind. specialize (Hne l). destruct (Hm l) as [El|(t & ss & El & Ht & Hss)];
    destruct (m l) as [[a|e] l']; cbn in El, Hne |- *; subst l'.
  - by destruct (Hne a eq_refl).
  - by left.
  - right. destruct (Hf a (l ++ Dial t :: (Send <$> ss))) as (ss' & E2 & Hss'). exists t, (ss ++ ss').
    rewrite E2, fmap_app, <- app_assoc. split_and!; [done..|]. by apply Forall_app.
  - right. by exists t, ss.
Qed.
Lemma sends_map_err {E F A} Q (f : E → F) (m : M E A) : Sends Q m → Sends Q (map_err f m).
Proof. intros H l. destruct (H l) as (ss & El & Hss). exists ss. unfold map_err. destruct (m l) as [[a|e] l']; done. Qed.
Lemma opens_map_err {E F A} P Q (f : E → F) (m : M E A) : Opens P Q m → Opens P Q (map_err f m).
Proof. intros H l. specialize (H l). unfold map_err. destruct (m l) as [[a|e] l']; done. Qed.
Lemma sends_ignore {E F A} Q (m : M E A) : Sends Q m → Sends Q (ignore m : M F unit).
Proof. intros H l. apply (H l). Qed.

Section Confined.
Context (engine : Engine) (trust_env : option string).

(** A connection of its own that dialled one of the row's targets. *)
Definition own_target (c : Connection) (pw : string) (t : Target) : Prop :=
  match t with
  | Net _ h p u pw' _ => h = c.(host) ∧ p = as_u16 c.(port) ∧ u = c.(username) ∧ default "" pw' = pw
  | File path _ => c.(file_path) = Some path
  end.
Definition session_statement (c : Connection) (s : Statement) : Prop :=
  s.(sql) ∈ (mysql_profile_for c.(db_type)).(session_statements) c.(charset) c.(timezone) ∧ s.(wants_rows) = false.
Definition reads (s : Statement) : Prop :=
  s.(wants_rows) = true ∧
  (starts_with "SELECT " s.(sql) || starts_with "SHOW " s.(sql) || starts_with "PRAGMA " s.(sql)) = true.
Definition browses (c : Connection) (s : Statement) : Prop := session_statement c s ∨ reads s.
Definition asks (c : Connection) (q : string) (s : Statement) : Prop := session_statement c s ∨ (s.(sql) = q ∧ s.(binds) = []).

Lemma sends_fetch (Q : Statement → Prop) raw q bs : (∀ r, Q {| text_protocol := r; sql := q; binds := bs; wants_rows := true |}) →
  Sends Q (fetch engine raw q bs).
Proof. intros H l. eexists [_]. split; [reflexivity|]. constructor; [apply H|constructor]. Qed.
Lemma sends_execute (Q : Statement → Prop) raw q : (∀ r, Q {| text_protocol := r; sql := q; binds := []; wants_rows := false |}) →
  Sends Q (execute engine raw q).
Proof. intros H l. eexists [_]. split; [reflexivity|]. constructor; [apply H|constructor]. Qed.
Lemma sends_execute_by_mode (Q : Statement → Prop) mode q :
  (∀ r, Q {| text_protocol := r; sql := q; binds := []; wants_rows := false |}) → Sends Q (execute_by_mode engine mode q).
Proof.
  intros H. destruct mode; [|by apply sends_map_err, sends_execute]. intros l. unfold execute_by_mode.
  destruct (sends_execute Q false q H l) as (ss & El & Hss). destruct (execute engine false q l) as [[n|[e []]] l']; cbn in El; subst l'.
  - by exists ss.
  - destruct (sends_map_err Q fst _ (sends_execute Q true q H) (l ++ (Send <$> ss))) as (ss' & E2 & Hss').
    exists (ss ++ ss'). rewrite E2, fmap_app, app_assoc. split; [done|]. by apply Forall_app.
  - by exists ss.
Qed.
Lemma sends_fetch_by_mode (Q : Statement → Prop) mode q b :
  (∀ r bs, (b = None → bs = []) → Q {| text_protocol := r; sql := q; binds := bs; wants_rows := true |}) → Sends Q (fetch_all_by_mode engine mode q b).
Proof. intros H. destruct mode, b; apply sends_fetch; intros r; apply H; done. Qed.
Lemma sends_session c (Q : Statement → Prop) : (∀ s, session_statement c s → Q s) →
  Sends Q (apply_mysql_session engine c.(charset) c.(timezone) c.(db_type) : M Fail unit).
Proof.
  intros H. unfold apply_mysql_session. set (l := session_statements _ _ _).
  assert (Hl : ∀ q, q ∈ l → q ∈ session_statements (mysql_profile_for (db_type c)) (charset c) (timezone c)) by done.
  clearbody l. induction l as [|q l IH]; cbn [foldr]; [apply sends_ret|]. apply sends_bind.
  - apply sends_ignore, sends_execute_by_mode. intros r. apply H. split; [|done]. apply Hl. by left.
  - intros _. apply IH. intros q' Hq. apply Hl. by right.
Qed.

(** Opening dials, and dials the row. *)
Definition Dials {E A} (c : Connection) (pw : string) (Q : Statement → Prop) (m : M E A) : Prop :=
  Opens (own_target c pw) Q m ∧ ∀ l a, (m l).1 = Ok a → (m l).2 ≠ l.
Lemma app_cons_ne {A} (l : list A) a k : l ++ a :: k ≠ l.
Proof. intros H. apply (f_equal length) in H. rewrite length_app in H. cbn in H. lia. Qed.
Lemma dials_dial c pw Q t : own_target c pw t → Dials c pw Q (dial engine t).
Proof. intros H. split; [intros l; right; by exists t, []|]. intros l a _. apply app_cons_ne. Qed.
Lemma dials_map_err {E F A} c pw Q (f : E → F) (m : M E A) : Dials c pw Q m → Dials c pw Q (map_err f m).
Proof.
  intros [H1 H2]. split; [by apply opens_map_err|]. intros l a. specialize (H2 l). unfold map_err.
  destruct (m l) as [[b|e] l']; cbn in *; [|done]. intros _. by apply (H2 b).
Qed.
Lemma dials_bind {E A B} c pw Q (m : M E A) (f : A → M E B) : Dials c pw Q m → (∀ a, Sends Q (f a)) → Dials c pw Q (m ≫= f).
Proof.
  intros [H1 H2] Hf. split; [by apply opens_bind|]. intros l b. specialize (H1 l). specialize (H2 l). unfold mbind, m_bind.
  destruct (m l) as [[a|e] l']; cbn in *; [|done]. intros _. destruct (Hf a l') as (ss & -> & _).
  destruct H1 as [->|(t & ss' & -> & _)]; [by destruct (H2 a)|]. rewrite <- app_assoc. apply app_cons_ne.
Qed.
Lemma dials_opens {E A} c pw Q (m : M E A) : Dials c pw Q m → Opens (own_target c pw) Q m.
Proof. by intros []. Qed.

Lemma own_mysql c pw db : own_target c pw (mysql_connect_options c pw db).
Proof. unfold mysql_connect_options. destruct pw; by split_and!. Qed.
Lemma dials_mysql_at c pw db (Q : Statement → Prop) : (∀ s, session_statement c s → Q s) → Dials c pw Q (open_mysql_at engine c pw db).
Proof. intros H. apply dials_bind; [apply dials_map_err, dials_dial, own_mysql|]. intros _. by apply sends_session. Qed.
Lemma dials_pg_db c pw db Q : Dials c pw Q (open_pg_db engine c pw db).
Proof. by apply dials_map_err, dials_dial. Qed.
Lemma dials_pg c pw Q : Dials c pw Q (open_pg engine c pw).
Proof. by apply dials_map_err, dials_dial. Qed.
Lemma dials_sqlite c pw Q : Dials c pw Q (open_sqlite engine c).
Proof. unfold open_sqlite. destruct c.(file_path) as [p|] eqn:E; [by apply dials_map_err, dials_dial|]. split; [apply opens_throw|done]. Qed.
Lemma dials_tds c pw db Q : Dials c pw Q (dial engine (tds_config trust_env c pw db)).
Proof. by apply dials_dial. Qed.
End Confined.

Create HintDb sends discriminated.
#[export] Hint Resolve sends_ret sends_throw opens_ret opens_throw sends_map_err dials_map_err dials_opens : sends.

Section Backend_theorems.
Context (engine : Engine) (trust_env : option string).
Local Notation backend := (the_backend engine trust_env).

Lemma sends_typed {A} Q (f : Row → option A) rows : Sends Q (typed engine f rows).
Proof. unfold typed. destruct (mapM f rows); eauto with sends. Qed.
Lemma sends_pg_names Q q bs : (∀ r, Q {| text_protocol := r; sql := q; binds := bs; wants_rows := true |}) → Sends Q (pg_names engine q bs).
Proof. intros H. apply sends_bind; [by apply sends_map_err, sends_fetch|]. intros rows. apply sends_typed. Qed.
Lemma opens_pg_names c pw (m : M Fail unit) q bs : Dials c pw (browses c) m → (starts_with "SELECT " q) = true →
  Opens (own_target c pw) (browses c) (_ ← m; pg_names engine q bs).
Proof. intros Hm Hq. apply dials_opens, dials_bind; [done|]. intros _. apply sends_pg_names. intros r. right. split; [done|]. cbn [sql]. by rewrite Hq. Qed.
Lemma opens_list {A B} c pw (m : M Fail B) q mode b (f : list Row → A) : Dials c pw (browses c) m →
  (starts_with "SELECT " q || starts_with "SHOW " q || starts_with "PRAGMA " q) = true →
  Opens (own_target c pw) (browses c) (_ ← m; rows ← map_err query_failed (fetch_all_by_mode engine mode q b); mret (f rows)).
Proof.
  intros Hm Hq. apply dials_opens, dials_bind; [done|]. intros _. apply sends_bind; [|eauto with sends].
  apply sends_map_err, sends_fetch_by_mode. intros r bs _. by right.
Qed.
Lemma opens_ss c pw db q bs : starts_with "SELECT " q = true → Dials c pw (browses c) (ss_query_rows engine trust_env c pw db q bs).
Proof.
  intros Hq. apply dials_bind; [apply dials_map_err, dials_tds|]. intros _. apply sends_map_err, sends_fetch.
  intros r. right. split; [done|]. cbn [sql]. by rewrite Hq.
Qed.
Lemma opens_ss_names c pw db q bs : starts_with "SELECT " q = true → Opens (own_target c pw) (browses c) (ss_names engine trust_env c pw db q bs).
Proof. intros Hq. apply dials_opens, dials_bind; [by apply opens_ss|]. eauto with sends. Qed.
Lemma browses_session c s : session_statement c s → browses c s.
Proof. by left. Qed.
#[local] Hint Resolve dials_pg dials_pg_db dials_sqlite opens_pg_names opens_list opens_ss_names : sends.
#[local] Hint Extern 1 (Dials _ _ _ (open_mysql _ _ _)) => apply dials_mysql_at, browses_session : sends.
#[local] Hint Extern 1 (Dials _ _ _ (open_mysql_db _ _ _ _)) => apply dials_mysql_at, browses_session : sends.

(** The statement lists of a backend. *)
Lemma starts_with_more p : ∀ a b, starts_with p a = true → starts_with p (a +:+ b) = true.
Proof.
  unfold starts_with. induction p as [|x p IH]; intros a b; [by destruct a, b|]. destruct a as [|y a]; [done|].
  rewrite str_app_cons. cbn. destruct (ascii_dec x y); [apply IH|done].
Qed.
Lemma where_both_selects p pre post db t : starts_with "SELECT " pre = true →
  let q := (where_both p pre post db t).1 in (starts_with "SELECT " q || starts_with "SHOW " q || starts_with "PRAGMA " q) = true.
Proof. intros H. cbv zeta. unfold where_both. cbn [fst]. by rewrite starts_with_more. Qed.
Lemma opens_mysql_list {A} c pw p (f : list Row → A) m q : Dials c pw (browses c) m →
  (starts_with "SELECT " q.1 || starts_with "SHOW " q.1 || starts_with "PRAGMA " q.1) = true →
  Opens (own_target c pw) (browses c) (mysql_list engine p f m q).
Proof. apply opens_list. Qed.
Lemma opens_plain_list {A} c pw (f : list Row → A) m q : Dials c pw (browses c) m →
  (starts_with "SELECT " q || starts_with "SHOW " q || starts_with "PRAGMA " q) = true →
  Opens (own_target c pw) (browses c) (ch_list engine f m q).
Proof. apply (opens_list c pw m q Prepare None f). Qed.
Lemma opens_pragma {A} c pw (f : list Row → A) pr t : Opens (own_target c pw) (browses c) (sqlite_pragma engine c f pr t).
Proof. apply (opens_list c pw (open_sqlite engine c) _ Prepare None f); [apply dials_sqlite|].
  rewrite !orb_true_iff. right. by apply starts_with_more. Qed.
#[local] Hint Resolve opens_mysql_list opens_plain_list opens_pragma : sends.

Lemma opens_pg_columns c pw db t : Opens (own_target c pw) (browses c) (pg_list_columns engine c pw db t).
Proof.
  apply dials_opens, dials_bind; [apply dials_pg_db|]. intros _. apply sends_bind; [|intros rows; apply sends_typed].
  apply sends_map_err, sends_fetch. intros r. by right.
Qed.
Lemma opens_ss_columns c pw db t : Opens (own_target c pw) (browses c) (list_columns (sqlserver_backend engine trust_env) c pw db t).
Proof. apply dials_opens, dials_bind; [by apply opens_ss|]. eauto with sends. Qed.

(** One statement of the client's. *)
Lemma sends_execute_sql c q limit sel : 
  (∀ d, Sends (asks c q) (execute_sql engine d q limit sel)) ∧ ∀ mode, Sends (asks c q) (execute_sql_mysql engine q limit sel mode).
Proof.
  unfold execute_sql, execute_sql_mysql. split; intros d; destruct sel; (apply sends_bind; [apply sends_map_err|eauto with sends]).
  - apply sends_fetch. intros r. by right.
  - apply sends_execute. intros r. by right.
  - apply sends_fetch_by_mode. intros r bs Hbs. right. by rewrite Hbs.
  - apply sends_execute_by_mode. intros r. by right.
Qed.
Lemma sends_execute_tds c q : Sends (asks c q) (execute_tds engine q).
Proof.
  unfold execute_tds. apply sends_map_err. destruct (StreamQuery.is_dml_statement q).
  - apply sends_execute. intros r. by right.
  - apply sends_bind; [|eauto with sends]. apply sends_execute. intros r. by right.
Qed.

Lemma opens_columns b c pw db t : Opens (own_target c pw) (browses c) (list_columns (backend b) c pw db t).
Proof.
  destruct b as [p| | | |]; [|apply opens_pg_columns|apply opens_pragma| |apply opens_ss_columns].
  - apply opens_mysql_list; [eauto with sends|by apply where_both_selects].
  - apply opens_plain_list; [eauto with sends|]. unfold ch_list_columns_sql. by rewrite starts_with_more.
Qed.
Lemma opens_objects b c pw db k : Opens (own_target c pw) (browses c) (list_schema_objects (backend b) c pw db k).
Proof.
  destruct b as [p| | | |]; cbn [the_backend list_schema_objects mysql_family_backend postgres_backend sqlite_backend clickhouse_backend sqlserver_backend].
  - apply opens_mysql_list; [eauto with sends|by destruct k].
  - apply opens_pg_names; [eauto with sends|by destruct k].
  - destruct k; eauto with sends.
  - eauto with sends.
  - apply opens_ss_names. by destruct k.
Qed.
Lemma opens_query b c pw db q limit sel : Opens (own_target c pw) (asks c q) (execute_query (backend b) c pw db q limit sel).
Proof.
  destruct b as [p| | | |]; apply dials_opens, dials_bind; try (intros _; apply sends_execute_sql).
  - apply dials_mysql_at. by left.
  - apply dials_pg_db.
  - apply dials_sqlite.
  - apply dials_mysql_at. by left.
  - apply dials_map_err, dials_tds.
  - intros _. destruct sel; (apply sends_bind; [apply sends_map_err|eauto with sends]).
    + apply sends_fetch. intros r. by right.
    + apply sends_execute_tds.
Qed.

(** A backend stays within its connection and its task.  Every operation of every
    backend opens at most one connection, to the host and port of the row, as its user
    and with its password, or to its file, before it sends anything, and sends
    everything on it.  Listing (databases, tables, columns, objects, indexes, foreign
    keys) sends, besides the session settings of the row, only statements that ask
    for rows and begin with SELECT, SHOW or PRAGMA; executing sends only the settings
    and the client's own text, with nothing bound. *)
Theorem backend_confined b c pw :
  let P := own_target c pw in let B := browses c in
  Opens P B (list_databases (backend b) c pw) ∧
  (∀ db, Opens P B (list_tables (backend b) c pw db)) ∧
  (∀ db t, Opens P B (list_columns (backend b) c pw db t)) ∧
  (∀ db k, Opens P B (list_schema_objects (backend b) c pw db k)) ∧
  (∀ db t, Opens P B (list_indexes (backend b) c pw db t)) ∧
  (∀ db t, Opens P B (list_foreign_keys (backend b) c pw db t)) ∧
  (∀ db q limit sel, Opens P (asks c q) (execute_query (backend b) c pw db q limit sel)).
Proof.
  cbv zeta. split_and!; try (intros; first [apply opens_columns|apply opens_objects|apply opens_query]);
    intros; destruct b as [p| | | |]; cbn [the_backend list_databases list_tables list_indexes list_foreign_keys
      mysql_family_backend postgres_backend sqlite_backend clickhouse_backend sqlserver_backend]; try by eauto with sends.
  all: apply opens_mysql_list; [eauto with sends|by apply where_both_selects].
Qed.

(** ** Bounds, and the columns of PostgreSQL *)

Definition rows_in (v : json) : option nat := length <$> (jget "rows" v ≫= Json.as_array).
Lemma rows_bounded decode rows limit : ∃ n, rows_in (rows_to_json decode rows limit) = Some n ∧ n ≤ limit.
Proof.
  destruct rows as [|r rows]; [exists 0; split; [done|lia]|]. eexists. split; [reflexivity|]. rewrite length_fmap, length_take. lia.
Qed.
Lemma rows_bounded_sqlserver rows limit : ∃ n, rows_in (rows_to_json_sqlserver rows limit) = Some n ∧ n ≤ limit.
Proof.
  destruct rows as [|r rows]; [exists 0; split; [done|lia]|]. eexists. split; [reflexivity|]. rewrite length_fmap, length_take. lia.
Qed.
(** Answers of a query, whatever the log. *)
Definition Gives {E A} (R : A → Prop) (m : M E A) : Prop := ∀ l a, (m l).1 = Ok a → R a.
Lemma gives_bind {E A B} (R : B → Prop) (m : M E A) (f : A → M E B) : (∀ a, Gives R (f a)) → Gives R (m ≫= f).
Proof. intros H l b. unfold mbind, m_bind. destruct (m l) as [[a|e] l']; [apply H|done]. Qed.
Lemma gives_ret {E A} (R : A → Prop) (a : A) : R a → Gives R (mret a : M E A).
Proof. intros H l b [= <-]. done. Qed.
Definition at_most (limit : nat) (v : json) : Prop := ∃ n, rows_in v = Some n ∧ n ≤ limit.
Lemma affected_at_most n limit : at_most limit (affected_json n).
Proof. exists 0. split; [done|lia]. Qed.
#[local] Hint Resolve rows_bounded rows_bounded_sqlserver affected_at_most gives_ret : sends.
Lemma query_at_most b c pw db q limit sel : Gives (at_most limit) (execute_query (backend b) c pw db q limit sel).
Proof.
  destruct b as [p| | | |]; cbn; apply gives_bind; intros _; try unfold execute_sql_mysql, execute_sql_pg, execute_sql_sqlite, execute_sql;
    destruct sel; apply gives_bind; intros x; apply gives_ret; first [apply affected_at_most|apply rows_bounded|apply rows_bounded_sqlserver].
Qed.

(** Where the driver reads an INT4 as an [i32] only (as [decode_cell_pg] has it), the
    columns of a table of PostgreSQL cannot be listed: the flags are INT4. *)
Lemma pg_columns_of_int4 c pw db t l :
  (∀ l s rows, engine.(fetches) l s = Ok rows → Forall (λ r, c_i64 (named r "is_primary_key") = None) rows) →
  match (list_columns (backend PostgresBackend) c pw db t l).1 with Ok cols => cols = [] | Err _ => True end.
Proof.
  intros H. cbn. unfold pg_list_columns, mbind, m_bind. destruct (open_pg_db engine c pw db l) as [[[]|e] l']; [|done].
  unfold map_err, fetch. destruct (fetches engine l' _) as [rows|e] eqn:E; [|done]. specialize (H _ _ _ E). cbn. unfold typed.
  destruct H as [|r rows Hr H]; [done|]. cbn [mapM]. unfold from_row, i64_of. rewrite Hr.
  by destruct (text_of (named r "name")), (text_of (named r "data_type")).
Qed.
End Backend_theorems.
