(* ===== verification/Dialling.v ===== *)
(** * Dialling a database (crates/automation/src: mongo.rs, redis_leg.rs, tdengine_leg.rs,
    [version_string] of db_handler.rs; the pools of the drift, health and sync runners)

    What each driver is told of a loaded row: where to connect, as whom, with or without
    TLS and with the certificate checked or not.  The SQL drivers' part is in
    [DbBackends]; here are the other three, and what becomes of a row with a tunnel when
    each of them dials it. *)

From S2P Require Import Prelude RustStr Json TdengineLeg RedisLeg MongoLeg DbFamily Credential Connections Cells StreamQuery DbBackends.
From stdpp Require Import strings gmap.

Section Legs.
Context `{Reader}.

(** ** MongoDB *)

(** What the driver makes of a URI, and what is put over it: TLS, with whether invalid
    certificates pass, and the credential. *)
Record MongoCredential := { m_username : option string; m_password : option string; m_source : option string }.
Record ClientOptions := { m_hosts : string; m_tls : option bool; m_credential : option MongoCredential; m_app_name : option string }.
Definition tls_option (extra : option string) : option bool :=
  let '(use_tls, insecure) := tls_flags extra in
  if use_tls then Some (insecure || tunneled extra) else None.
Definition filled (s : string) : option string := if is_empty s then None else Some s.
Definition mongo_uri (conn : Connection) : string :=
  base_uri conn.(host) conn.(port) (parse_extra (conn.(extra) ≫= from_str)).
Definition open_mongo {E} (parse : string → result E ClientOptions) (conn : Connection) (password : string) : result E ClientOptions :=
  opts ← parse (mongo_uri conn);
  let user := filled conn.(username) in
  let pw := filled password in
  Ok {| m_hosts := opts.(m_hosts); m_tls := tls_option conn.(extra);
        m_credential := if bool_decide (user = None ∧ pw = None) then opts.(m_credential)
                        else Some {| m_username := user; m_password := pw; m_source := not_blank conn.(default_database) |};
        m_app_name := Some "dbmaster-gw" |}.

(** ** Redis *)

Inductive ConnectionAddr := Tcp (h : string) (p : Z) | TcpTls (h : string) (p : Z) (insecure : bool).
Record ConnectionInfo := { addr : ConnectionAddr; redis_db : Z; redis_username : option string; redis_password : option string }.
Definition connection_info (conn : Connection) (password : string) (db : Z) : ConnectionInfo :=
  let '(use_tls, tls_insecure) := tls_flags conn.(extra) in
  {| addr := if use_tls then TcpTls conn.(host) (as_u16 conn.(port)) (tls_insecure || tunneled conn.(extra))
             else Tcp conn.(host) (as_u16 conn.(port));
     redis_db := db; redis_username := filled conn.(username); redis_password := filled password |}.

(** ** TDengine *)

Record RestCall := {
  rest_to : string; any_certificate : bool; basic_auth : string * string; statement : string; timeout_secs : Z }.
Definition rest_call (conn : Connection) (password : string) (db : option string) (q : string) (timeout : Z) : RestCall :=
  let '(use_tls, tls_insecure) := tls_flags conn.(extra) in
  {| rest_to := rest_url conn.(host) conn.(port) db use_tls;
     any_certificate := use_tls && (tls_insecure || tunneled conn.(extra));
     basic_auth := (conn.(username), password); statement := q; timeout_secs := timeout |}.
(** The answer: none when the transport fails, else the status, the body and what it parses to. *)
Definition exec_sql (send : RestCall → option (Z * string * option json)) (conn : Connection) (password : string) (db : option string)
    (q : string) (timeout : Z) : result TdError TdQueryOutcome := read_reply (send (rest_call conn password db q timeout)).
Definition test_tdengine (send : RestCall → option (Z * string * option json)) (conn : Connection) (password : string) : result TdError unit :=
  _ ← exec_sql send conn password None "SELECT SERVER_VERSION()" 10; Ok tt.

(** ** The runners' pools *)

(** The schedulers' runners have openers of their own, the same in all three: no profile of
    the MySQL family, no tunnel, and an empty password is sent as one. *)
Definition open_mysql_pool (conn : Connection) (password : string) : Target :=
  Net (MySqlLogin default_handshake) conn.(host) (as_u16 conn.(port)) conn.(username) (Some password) (Some (default "" conn.(default_database))).
Definition open_pg_pool (conn : Connection) (password : string) : Target :=
  Net (PgLogin None) conn.(host) (as_u16 conn.(port)) conn.(username) (Some password) (Some (default "" conn.(default_database))).

(** ** The version of a server *)

Section Version.
Context (engine : Engine) (trust_env : option string).
Context (mongo : Connection → string → string → Document → result string Document).
Context (redis : ConnectionInfo → list string → option Resp) (taos : RestCall → option (Z * string * option json)).
(** A version is for display: what fails is an empty one. *)
Definition or_empty (m : M string string) : M string string := λ l, match m l with (Err _, l') => (Ok "", l') | r => r end.
Definition first_of (f : Row → string) (rows : list Row) : string := match rows with r :: _ => f r | [] => "" end.
Definition version_pg (conn : Connection) (password : string) : M string string :=
  _ ← dial engine (pg_options conn password (Some (default "postgres" conn.(default_database))));
  rows ← fetch engine false "SELECT version()" []; mret (first_of (λ r, default "" (first_text r)) rows).
Definition version_sqlite (conn : Connection) : M string string :=
  match conn.(file_path) with
  | None => mret ""
  | Some path => _ ← dial engine (File path true);
                 rows ← fetch engine false "SELECT sqlite_version()" []; mret (first_of (λ r, default "" (first_text r)) rows)
  end.
Definition version_sqlserver (conn : Connection) (password : string) : M string string :=
  _ ← dial engine (tds_config trust_env conn password None);
  rows ← fetch engine true "SELECT CAST(SERVERPROPERTY('ProductVersion') AS NVARCHAR(128))" [];
  mret (first_of (λ r, ss_string (cell r 0)) rows).
Definition version_mysql (conn : Connection) (password : string) : M string string :=
  _ ← dial engine (mysql_connect_options conn password (not_blank conn.(default_database)));
  rows ← fetch_all_by_mode engine (mysql_profile_for conn.(db_type)).(catalog_mode) "SELECT VERSION()" None;
  mret (first_of (λ r, decode_mysql_string (cell r 0)) rows).
Definition version_mongo (conn : Connection) (password : string) : string :=
  match mongo conn password "admin" [("buildInfo", BInt32 1)] with Ok d => default "" (MongoLeg.get_str d "version") | Err _ => "" end.
Definition version_redis (conn : Connection) (password : string) : string :=
  match redis (connection_info conn password 0) ["INFO"; "server"] with
  | Some (RBulk b) => RustStr.trim (default "" (head (omap (str_strip_prefix "redis_version:") (lines (from_utf8_lossy b)))))
  | _ => ""
  end.
Definition version_tdengine (conn : Connection) (password : string) : string :=
  match exec_sql taos conn password None "SELECT SERVER_VERSION()" 10 with
  | Ok o => match o.(TdengineLeg.rows) with (v :: _) :: _ => default "" (Json.as_str v) | _ => "" end
  | Err _ => ""
  end.
Definition version_string (conn : Connection) (password : string) : M string string :=
  let t := to_ascii_lowercase conn.(db_type) in
  if bool_decide (t ∈ ["postgres"; "postgresql"; "pg"]) then or_empty (version_pg conn password)
  else if decide (t = "sqlite") then or_empty (version_sqlite conn)
  else if bool_decide (t ∈ ["sqlserver"; "mssql"]) then or_empty (version_sqlserver conn password)
  else if bool_decide (t ∈ ["mongodb"; "mongo"]) then mret (version_mongo conn password)
  else if decide (t = "tdengine") then mret (version_tdengine conn password)
  else if decide (t = "redis") then mret (version_redis conn password)
  else or_empty (version_mysql conn password).
End Version.
End Legs.

(** ** What comes back *)

(** A row of a stream: the names, the values, the types as the driver names them. *)
Definition mapped (decode : Cell → json) (r : Row) : list string * list json := (r.(r_columns).*1, decode <$> r.(r_cells)).
Definition map_mysql_row (r : Row) : StreamRows.MappedRow := (mapped decode_cell_mysql r, Some r.(r_columns).*2).
Definition map_pg_row (r : Row) : StreamRows.MappedRow := (mapped decode_cell_pg r, Some r.(r_columns).*2).
Definition map_sqlite_row (r : Row) : StreamRows.MappedRow := (mapped decode_cell_sqlite r, None).

(** The errors of the drivers, with the text each displays. *)
Inductive SqlxError := SqlxDatabase (code : option string) (shown : string) | SqlxOther (shown : string).
Inductive TdsError := TdsServer (code : Z) (shown : string) | TdsOther (shown : string).
Inductive MongoErrorKind := MongoIo | ConnectionPoolCleared | Authentication | ServerSelection | MongoCommand (code_name : string) | MongoOther.
Record MongoError := { mongo_kind : MongoErrorKind; mongo_shown : string }.
Record RedisError := { redis_code : option string; redis_shown : string }.
Definition engine_error (shown : string) (code : option string) : StreamRows.StreamQueryError :=
  {| StreamRows.e_code := "DB_ERROR"; StreamRows.e_message := take_chars 200 shown; StreamRows.e_engine := code |}.
Definition from_sqlx (e : SqlxError) : StreamRows.StreamQueryError :=
  match e with SqlxDatabase code shown => engine_error shown code | SqlxOther shown => engine_error shown None end.
Definition tiberius_engine_code (e : TdsError) : option string := match e with TdsServer code _ => Some (z_string code) | TdsOther _ => None end.
Definition from_tiberius (e : TdsError) : StreamRows.StreamQueryError :=
  match e with TdsServer _ shown | TdsOther shown => engine_error shown (tiberius_engine_code e) end.
Definition mongo_connection_level (e : MongoError) : bool :=
  match e.(mongo_kind) with MongoIo | ConnectionPoolCleared | Authentication | ServerSelection => true | _ => false end.
Definition mongo_engine_code (e : MongoError) : option string := match e.(mongo_kind) with MongoCommand name => Some name | _ => None end.
Definition from_mongo (e : MongoError) : StreamRows.StreamQueryError :=
  if mongo_connection_level e then StreamRows.connect_failed else engine_error e.(mongo_shown) (mongo_engine_code e).
Definition redis_connection_level (e : RedisError) : bool := bool_decide (e.(redis_code) = None).
Definition from_redis (e : RedisError) : StreamRows.StreamQueryError :=
  if redis_connection_level e then StreamRows.connect_failed else engine_error e.(redis_shown) e.(redis_code).

(** What the client is told of a failure is short; of a failed MongoDB or Redis connection
    it is told nothing of the driver's text. *)
Lemma told_of_failures (ms mo : MongoError) (r r' : RedisError) (e : SqlxError) (t : TdsError) :
  (mongo_connection_level ms = true → mongo_connection_level mo = true → from_mongo ms = from_mongo mo) ∧
  (redis_connection_level r = true → redis_connection_level r' = true → from_redis r = from_redis r') ∧
  Forall (λ x, char_count x.(StreamRows.e_message) ≤ 200) [from_mongo ms; from_redis r; from_sqlx e; from_tiberius t].
Proof.
  unfold from_mongo, from_redis. split_and!; [by intros -> ->|by intros -> ->|].
  assert (Hc : char_count (StreamRows.e_message StreamRows.connect_failed) ≤ 200) by by apply (bool_decide_unpack _).
  rewrite !Forall_cons. split_and!; [| | | |constructor].
  - destruct (mongo_connection_level ms); [exact Hc|apply take_chars_count].
  - destruct (redis_connection_level r); [exact Hc|apply take_chars_count].
  - destruct e; apply take_chars_count.
  - destruct t; apply take_chars_count.
Qed.

(** ** A loaded row, dialled *)

Definition net_address (t : Target) : option (string * Z) := match t with Net _ h p _ _ _ => Some (h, p) | File _ _ => None end.
Section Laws.
Context `{RoundTrip, CipherLaws} (sha256_hex : string → string).

Lemma injected_object e v : obj_float_free (default [] (extra_object e)) = true →
  inject_flag e "tunneled" v ≫= from_str = Some (JObj (assoc_insert "tunneled" (JBool v) (default [] (extra_object e)))).
Proof. intros Hm. unfold inject_flag. cbn [mbind option_bind]. apply from_to. by apply (insert_float_free "tunneled" (JBool v)). Qed.
Lemma injected_flag e v k : obj_float_free (default [] (extra_object e)) = true → k ≠ "tunneled" →
  flag (inject_flag e "tunneled" v) k false = flag e k false.
Proof.
  intros Hm Hk. unfold flag, inject_flag. rewrite extra_object_printed by (by apply insert_float_free).
  rewrite assoc_get_insert_ne by done. by destruct (extra_object e).
Qed.
Lemma injected_cluster e v : obj_float_free (default [] (extra_object e)) = true →
  parse_extra (inject_flag e "tunneled" v ≫= from_str) = parse_extra (e ≫= from_str).
Proof.
  intros Hm. rewrite injected_object by done. unfold parse_extra at 1. rewrite !assoc_get_insert_ne by done. unfold extra_object.
  destruct e as [raw|]; [|done]. cbn [mbind option_bind]. by destruct (from_str raw) as [[]|].
Qed.

(** C12.  A loaded row whose extra object holds no floating-point number is dialled where it
    was loaded for: at its own host and port, or, when it has a tunnel, at the local port
    registered under the key of the tunnel to this target with these settings and the
    secrets of the row (the key is a hash, of which nothing more is assumed), and there
    with no other address, by the drivers of the SQL engines, of Redis and of TDengine.
    For Redis and TDengine TLS is asked for exactly when the row says so, and a
    certificate goes unchecked exactly when the row says so, is marked, or has a tunnel;
    the SQL drivers take no setting of TLS from the row and nothing is said of theirs.
    MongoDB's driver does all of it when the row names no hosts of its own. *)
Theorem dialled_as_loaded read a key id rows t c' f pw t' :
  load_connection sha256_hex read a key id rows t = (Ok (c', f, pw), t') →
  ∃ c h p, rows !! id = Some c ∧ (obj_float_free (default [] (extra_object c.(extra))) = true →
    let tunnel := if is_sqlite f then None else config_from_extra c.(extra) in
    let '(use_tls, insecure) := tls_flags c.(extra) in
    let any := insecure || tunneled c.(extra) || bool_decide (is_Some tunnel) in
    match tunnel with
    | None => h = c.(host) ∧ p = c.(port)
    | Some cfg => h = "127.0.0.1" ∧ ∃ secrets, tunnel_secrets key c = Ok secrets ∧ let k := tunnel_key sha256_hex c.(host) c.(port) cfg secrets in
        t' !! k = Some p ∧ (t !! k = Some p ∧ a.(probe) p = true ∨ a.(spawn_tunnel) = Ok p)
    end ∧
    (∀ trust db, Forall (λ x, net_address x = Some (h, as_u16 p))
       [mysql_connect_options c' pw db; pg_options c' pw db; tds_config trust c' pw db]) ∧
    (∀ db, (connection_info c' pw db).(addr) = if use_tls then TcpTls h (as_u16 p) any else Tcp h (as_u16 p)) ∧
    (∀ db q n, (rest_call c' pw db q n).(rest_to) = rest_url h p db use_tls ∧
       (rest_call c' pw db q n).(any_certificate) = use_tls && any ∧ (rest_call c' pw db q n).(basic_auth) = (c.(username), pw)) ∧
    tls_option c'.(extra) = (if use_tls then Some any else None) ∧
    mongo_uri c' = base_uri h p (parse_extra (c.(extra) ≫= from_str))).
Proof.
  intros (c & Hc & Hf & Hpw & Hm)%load_connection_spec. destruct (if is_sqlite f then None else _) as [cfg|] eqn:Ecfg.
  - destruct Hm as (secrets & p & Hs & -> & Ht & Hor & Htu). exists c, "127.0.0.1", p. split; [done|]. intros Hff. specialize (Htu Hff). cbn [reroute Connections.extra Connections.host Connections.port Connections.username] in Htu.
    cbv zeta. rewrite Ecfg. assert (Efl : tls_flags (inject_flag c.(extra) "tunneled" true) = tls_flags c.(extra)).
    { unfold tls_flags. by rewrite !injected_flag. }
    destruct (tls_flags c.(extra)) as [use ins] eqn:Etls. rewrite bool_decide_eq_true_2, !orb_true_r by (by eexists).
    split_and!.
    + done.
    + exists secrets. by split_and!.
    + intros. by repeat constructor.
    + intros db. unfold connection_info. cbn [reroute Connections.extra Connections.host Connections.port Connections.username]. rewrite Efl, Htu, orb_true_r. done.
    + intros db q n. unfold rest_call. cbn [reroute Connections.extra Connections.host Connections.port Connections.username]. rewrite Efl, Htu, orb_true_r. done.
    + unfold tls_option. cbn [reroute Connections.extra Connections.host Connections.port Connections.username]. by rewrite Efl, Htu, orb_true_r.
    + unfold mongo_uri. cbn [reroute Connections.extra Connections.host Connections.port Connections.username]. by rewrite injected_cluster.
  - destruct Hm as [-> ->]. exists c, c.(host), c.(port). split; [done|]. intros _. cbv zeta. rewrite Ecfg.
    destruct (tls_flags c.(extra)) as [use ins] eqn:Etls. rewrite bool_decide_eq_false_2, !orb_false_r by (by inversion 1).
    split_and!; [done|done|by repeat constructor| | | |done].
    + intros db. unfold connection_info. by rewrite Etls.
    + intros db q n. unfold rest_call. by rewrite Etls.
    + unfold tls_option. by rewrite Etls.
Qed.
End Laws.

(** ** Rows behind a tunnel *)

#[local] Existing Instances tlv_printer tlv_reader tlv_round_trip ex_cipher ex_cipher_laws.
Definition ex_tls_row : Connection :=
  reroute Connections.ex_row.(host) Connections.ex_row.(port)
    (Some (tlv (JObj (("useTls", JBool true) :: extra_keys Connections.ex_params.(params_config))))) Connections.ex_row.
Notation ex_loaded := (load_connection (λ s, s) (Ok tt) ex_tunnel "K" "c1" {["c1" := ex_tls_row]} ∅).
Lemma dialled_as_loaded_witness :
  match ex_loaded with
  | (Ok (c, _, pw), _) => (connection_info c pw 0).(addr) = TcpTls "127.0.0.1" 40001 true ∧ (rest_call c pw None "SELECT 1" 10).(any_certificate) = true
  | _ => False
  end.
Proof.
  assert (Hok : match ex_loaded with (Ok (c, f, _), _) => (c.(host), c.(port), is_sqlite f) = ("127.0.0.1", 40001%Z, false) | _ => False end) by by vm_compute.
  destruct ex_loaded as [[[[c f] pw]|e] t'] eqn:E; [|done].
  destruct (dialled_as_loaded (λ s, s) _ _ _ _ _ _ _ _ _ _ E) as (c0 & h & p & Hc & Hm). rewrite lookup_singleton_eq in Hc. injection Hc as <-.
  assert (Hff : obj_float_free (default [] (extra_object ex_tls_row.(extra))) = true) by by vm_compute. specialize (Hm Hff). cbv zeta in Hm.
  injection Hok as _ _ Hsq. rewrite Hsq in Hm.
  assert (Hcfg : config_from_extra ex_tls_row.(extra) = Some ex_params.(params_config)) by by vm_compute. rewrite Hcfg in Hm.
  assert (Htls : tls_flags ex_tls_row.(extra) = (true, false)) by by vm_compute. rewrite Htls in Hm.
  destruct Hm as ((-> & secrets & _ & _ & Hor) & _ & Hr & Ht & _). destruct Hor as [[Hn _]|Hs]; [by rewrite lookup_empty in Hn|]. injection Hs as <-.
  split; [by rewrite Hr|]. by destruct (Ht None "SELECT 1" 10%Z) as (_ & -> & _).
Defined.

(** Hosts of the row's own: MongoDB's driver dials them past the tunnel, and does not check
    their certificates, since the row is marked. *)
Example mongo_hosts_skip_tunnel :
  let c := reroute "10.0.0.5" 27017 (Some (tlv (JObj [("tunneled", JBool true); ("useTls", JBool true); ("mongoHosts", JArr [JStr "db.example.com"])]))) Connections.ex_row in
  mongo_uri (reroute "127.0.0.1" 40001 c.(extra) c) = "mongodb://db.example.com:27017?directConnection=true" ∧ tls_option c.(extra) = Some true.
Proof. by vm_compute. Qed.
(** What a connection string says of TLS is dropped: without the flag of the row there is
    none. *)
Example uri_tls_dropped :
  let parse (uri : string) : result string ClientOptions := Ok {| m_hosts := "db"; m_tls := Some false; m_credential := None; m_app_name := None |} in
  let c := reroute "h" 1 (Some (tlv (JObj [("mongoConnectionString", JStr "mongodb+srv://db.example.com/?tls=true")]))) Connections.ex_row in
  mongo_uri c = "mongodb+srv://db.example.com/?tls=true" ∧
  match open_mongo parse c "" with Ok o => o.(m_tls) = None | Err _ => False end.
Proof. by vm_compute. Qed.
(** An account without a password: the gateway sends none, the runners send the empty one. *)
Example runner_sends_empty_password :
  (match open_mysql_pool Connections.ex_row "" with Net _ _ _ _ pw _ => pw | File _ _ => None end) = Some "" ∧
  (match mysql_connect_options Connections.ex_row "" None with Net _ _ _ _ pw _ => pw | File _ _ => None end) = None.
Proof. by vm_compute. Qed.
