(* ===== verification/DbRest.v ===== *)
(** * Databases over REST (crates/automation/src/db_handler.rs: the handlers of
    lines 184-199 and 559-1025; crates/automation/src/txn.rs, the opening of pinned
    pools, lines 317-411)

    Tests, listings, statements, scripts and kills, and the four requests of a
    transaction: the checks of each handler, the backend or the session it runs on,
    what is sampled and what is answered. *)

From S2P Require Import Prelude StreamQuery QueryStats Txn.
From S2P Require Import DdlExec SqlSplit RustStr Json TdengineLeg DbFamily Credential Entitlement Connections DraftTest.
From S2P Require Import Cells DbBackends.
From stdpp Require Import strings list gmap.

(** ** What a handler has *)

(** The instant and the milliseconds a statement took, by the log after it. *)
Record Server := {
  entitlement : EntitlementState; connections : gmap string Connection; credential_key : string;
  read : result string unit; clock : Log → Z * Z }.
(** A reply, the log, the samples taken and the recorder after. *)
Record Handled := { reply : result Fail json; log : Log; samples : list QueryStats.Capture; recorder : option QueryStats.QueryStatsRecorder }.

Section Rest.
Context `{Cipher} (engine : Engine) (trust_env : option string).
Context (unicode_upper : char → list char) (unicode_alphanumeric : char → bool).
Context (to_uppercase : string → string) (print : json → string).
Local Notation backend b := (the_backend engine trust_env b).
Local Notation is_select_statement := (StreamQuery.is_select_statement unicode_upper).

Definition gate_blocked (s : Server) : option Fail :=
  if is_gated s.(entitlement)
  then Some (403%Z, envelope "ENTITLEMENT_GATED" "License gated. Activate or renew your license to perform this action.") else None.
Definition load_and_decrypt (s : Server) (conn_id : string) : result Fail (Connection * string) :=
  match load_and_decrypt_key s.(read) s.(credential_key) conn_id s.(connections) with
  | Ok x => Ok x
  | Err (code, message, status) => Err (db_error code message status)
  end.
(** [backend_for], its error a bad request. *)
Definition backend_of (db_type : string) : result Fail Backend :=
  match backend_for db_type with Ok b => Ok b | Err (code, message) => Err (bad_request code message) end.
Definition resolve (s : Server) (conn_id : string) : result Fail (Connection * string * Backend) :=
  '(conn, password) ← load_and_decrypt s conn_id; b ← backend_of conn.(db_type); Ok (conn, password, b).

(** ** Tests and listings *)

Definition db_test (s : Server) (conn_id : string) (l : Log) : result Fail json * Log :=
  match resolve s conn_id with
  | Err e => (Err e, l)
  | Ok (conn, password, b) =>
      match test (backend b) conn password l with
      | (Ok _, l) => (Ok (ok_response (JObj [("connected", JBool true)])), l)
      | (Err msg, l) => (Ok (ok_response (JObj [("connected", JBool false); ("error", JStr msg)])), l)
      end
  end.
Definition browse {A} (s : Server) (conn_id : string) (op : DbBackend → Connection → string → M Fail A) (show : A → json) (l : Log)
    : result Fail json * Log :=
  match resolve s conn_id with
  | Err e => (Err e, l)
  | Ok (conn, password, b) =>
      match op (backend b) conn password l with
      | (Ok a, l) => (Ok (ok_response (show a)), l)
      | (Err e, l) => (Err e, l)
      end
  end.
Definition the_db (db : option string) (conn : Connection) : option string := StreamQuery.or_else db conn.(default_database).
Definition db_list_databases (s : Server) (conn_id : string) : Log → result Fail json * Log :=
  browse s conn_id (λ b c pw, list_databases b c pw) jstrs.
Definition db_list_tables (s : Server) (conn_id : string) (db : option string) : Log → result Fail json * Log :=
  browse s conn_id (λ b c pw, list_tables b c pw (the_db db c)) jstrs.
Definition db_list_columns (s : Server) (conn_id : string) (db : option string) (table : string) : Log → result Fail json * Log :=
  browse s conn_id (λ b c pw, list_columns b c pw (the_db db c) table) columns_json.
Definition db_list_schema_objects (kind : SchemaObjectKind) (s : Server) (conn_id : string) (db : option string) : Log → result Fail json * Log :=
  browse s conn_id (λ b c pw, list_schema_objects b c pw (the_db db c) kind) jstrs.
Definition db_list_indexes (s : Server) (conn_id : string) (db : option string) (table : string) : Log → result Fail json * Log :=
  browse s conn_id (λ b c pw, list_indexes b c pw (the_db db c) table) jstrs.
Definition db_list_foreign_keys (s : Server) (conn_id : string) (db : option string) (table : string) : Log → result Fail json * Log :=
  browse s conn_id (λ b c pw, list_foreign_keys b c pw (the_db db c) table) jstrs.

(** ** Statements *)

Record QueryBody := { q_db : option string; q_sql : string; q_limit : option Z }.
Definition limit_of (limit : option Z) : nat := Z.to_nat (Z.max (Z.min (default 10000 limit) 100000) 1)%Z.
Definition row_count (v : json) : option Z := Z.of_nat <$> rows_in v.
Definition affected_rows (v : json) : option Z := jget "affectedRows" v ≫= as_u64.
Definition with_time (elapsed : Z) (v : json) : json :=
  match v with JObj m => JObj (assoc_insert "executionTimeMs" (JInt elapsed) m) | v => v end.
(** [query_stats::record], at the log's instant. *)
Definition record_at (s : Server) (l : Log) (ctx : QueryStats.CaptureContext) (sql : string) (rows affected : option Z)
    (g : option QueryStats.QueryStatsRecorder) : list QueryStats.Capture * option QueryStats.QueryStatsRecorder :=
  let '(c, g) := QueryStats.global_record to_uppercase print (s.(clock) l).1 (s.(clock) l).2 ctx (QueryStats.PSql sql) rows affected g in
  (match c with Some c => [c] | None => [] end, g).

Definition db_query (s : Server) (user conn_id : string) (body : QueryBody) (g : option QueryStats.QueryStatsRecorder) (l : Log) : Handled :=
  let is_select := is_select_statement body.(q_sql) in
  let fails e l := {| reply := Err e; log := l; samples := []; recorder := g |} in
  match (if is_select then None else gate_blocked s) with
  | Some gated => fails gated l
  | None =>
      match resolve s conn_id with
      | Err e => fails e l
      | Ok (conn, password, b) =>
          let db := the_db body.(q_db) conn in
          match execute_query (backend b) conn password db body.(q_sql) (limit_of body.(q_limit)) is_select l with
          | (Err e, l) => fails e l
          | (Ok v, l) =>
              let '(cs, g) := record_at s l
                {| QueryStats.ctx_conn_id := conn_id; QueryStats.ctx_db_kind := Some conn.(db_type); QueryStats.ctx_database := db;
                   QueryStats.ctx_user_id := Some user; QueryStats.ctx_entry := QueryStats.SyncQuery; QueryStats.ctx_outcome := QueryStats.COk |}
                body.(q_sql) (row_count v) (affected_rows v) g in
              {| reply := Ok (ok_response (with_time (s.(clock) l).2 v)); log := l; samples := cs; recorder := g |}
          end
      end
  end.

(** ** Kills and scripts *)

Definition admin_kill (s : Server) (conn_id : string) (thread_id : Z) (l : Log) : result Fail json * Log :=
  match load_and_decrypt s conn_id with
  | Err e => (Err e, l)
  | Ok (conn, password) =>
      if match mysql_family_for conn.(db_type) with Some p => p.(supports_kill_query) | None => false end
      then (_ ← open_mysql_db engine conn password conn.(default_database);
            _ ← map_err (λ e, db_error "KILL_FAILED" (DraftTest.redact e) 500)
                  (execute_by_mode engine (mysql_profile_for conn.(db_type)).(catalog_mode) ("KILL QUERY " +:+ z_string thread_id));
            mret (ok_response (JObj [("killed", JBool true); ("threadId", JInt thread_id)])) : M Fail json) l
      else (Err (db_error "UNSUPPORTED" ("KILL not supported for db_type '" +:+ conn.(db_type) +:+ "'") 400), l)
  end.

Definition error_field (k : string) (body : json) : option string := e ← jget "error" body; v ← jget k e; Json.as_str v.
(** The entry of a statement. *)
Definition opt_entry (k : string) (v : option json) : list (string * json) := match v with Some v => [(k, v)] | None => [] end.
Definition script_entry (stmt : string) (exec : result Fail json) : json :=
  match exec with
  | Ok v => JObj ([("sql", JStr stmt); ("ok", JBool true)] ++ opt_entry "affectedRows" (jget "affectedRows" v)
                  ++ opt_entry "columns" (jget "columns" v) ++ opt_entry "rows" (jget "rows" v))
  | Err (_, body) => JObj [("sql", JStr stmt); ("ok", JBool false);
                           ("error", JStr (default "execution failed" (error_field "message" body)))]
  end.
Definition script_outcome (exec : result Fail json) : QueryStats.CaptureOutcome * option Z * option Z :=
  match exec with
  | Ok v => (QueryStats.COk, row_count v, affected_rows v)
  | Err (_, body) => (QueryStats.CError (default "DB_ERROR" (error_field "code" body)), None, None)
  end.
(** The loop: the entries, the log, the samples and the recorder. *)
Fixpoint run_script (s : Server) (user conn_id : string) (conn : Connection) (password : string) (b : Backend) (db : option string) (limit : nat)
    (stmts : list string) (g : option QueryStats.QueryStatsRecorder) (l : Log)
    : list json * Log * list QueryStats.Capture * option QueryStats.QueryStatsRecorder :=
  match stmts with
  | [] => ([], l, [], g)
  | stmt :: stmts =>
      let '(exec, l) := execute_query (backend b) conn password db stmt limit (is_select_statement stmt) l in
      let '(outcome, rows, affected) := script_outcome exec in
      let '(cs, g) := record_at s l
        {| QueryStats.ctx_conn_id := conn_id; QueryStats.ctx_db_kind := Some conn.(db_type); QueryStats.ctx_database := db;
           QueryStats.ctx_user_id := Some user; QueryStats.ctx_entry := QueryStats.AdminScript; QueryStats.ctx_outcome := outcome |}
        stmt rows affected g in
      let '(es, l, cs', g) := run_script s user conn_id conn password b db limit stmts g l in
      (script_entry stmt exec :: es, l, cs ++ cs', g)
  end.
Definition statements_of (script : string) : list string :=
  string_of_chars <$> split_sql_script unicode_alphanumeric (utf8_chars script).
Definition admin_script (s : Server) (user conn_id : string) (db : option string) (script : string) (limit : option Z)
    (g : option QueryStats.QueryStatsRecorder) (l : Log) : Handled :=
  match resolve s conn_id with
  | Err e => {| reply := Err e; log := l; samples := []; recorder := g |}
  | Ok (conn, password, b) =>
      let '(es, l, cs, g) := run_script s user conn_id conn password b (the_db db conn) (limit_of limit) (statements_of script) g l in
      {| reply := Ok (ok_response (JObj [("results", JArr es)])); log := l; samples := cs; recorder := g |}
  end.

(** ** Transactions *)

(** [open_pinned_pool] for a family that has been chosen: the password is given even
    when it is empty, and PostgreSQL is not told an application. *)
Definition pinned_target (p : Txn.PinnedPool) (conn : Connection) (password : string) (db : option string) : Target :=
  match p with
  | Txn.PMySql profile =>
      Net (MySqlLogin (profile.(handshake) default_handshake)) conn.(host) (as_u16 conn.(port)) conn.(username) (Some password) (not_blank db)
  | Txn.PPg => Net (PgLogin None) conn.(host) (as_u16 conn.(port)) conn.(username) (Some password) (Some (default "postgres" db))
  | Txn.PSqlite => File (default "" conn.(file_path)) false
  end.
Definition pinned_label (p : Txn.PinnedPool) : string :=
  match p with Txn.PMySql _ => "mysql" | Txn.PPg => "pg" | Txn.PSqlite => "sqlite" end.
Definition open_pinned (p : Txn.PinnedPool) (conn : Connection) (password : string) (db : option string) : M string unit :=
  _ ← map_err (λ e, pinned_label p +:+ " connect: " +:+ e) (dial engine (pinned_target p conn password db));
  match p with
  | Txn.PMySql _ => apply_mysql_session engine conn.(charset) conn.(timezone) conn.(db_type)
  | _ => mret tt
  end.
Definition execute_control (p : Txn.PinnedPool) (sql : string) : M string unit :=
  match p with
  | Txn.PMySql profile => _ ← execute_by_mode engine profile.(catalog_mode) sql; mret tt
  | _ => _ ← map_err fst (execute engine false sql); mret tt
  end.

(** [txn_begin]; a fresh UUID is drawn; [sets] is what came of the session settings,
    which is not looked at.  No reply when the request was dropped. *)
Definition txn_begin (s : Server) (conn_id : string) (db : option string) (sets : nat → Txn.Asked) (uuid : string) (store : Txn.Store) (l : Log)
    : option (result Fail json) * Txn.Store * Log :=
  match load_and_decrypt s conn_id with
  | Err e => (Some (Err e), store, l)
  | Ok (conn, password) =>
      if decide (conn.(db_type) = "clickhouse")
      then (Some (Err (db_error "UNSUPPORTED_TXN" "ClickHouse does not support transactions" 400)), store, l)
      else
        let '(connected, begun, l) :=
          match Txn.pinned_for conn.(db_type) conn.(file_path) with
          | Err _ => (Ok tt, Ok tt, l)
          | Ok p =>
              match open_pinned p conn password (the_db db conn) l with
              | (Err e, l) => (Err e, Ok tt, l)
              | (Ok _, l) => let '(r, l) := execute_control p (Txn.begin_sql_for (Txn.pinned_db_type p)) l in (Ok tt, r, l)
              end
          end in
        match Txn.begin {| Txn.p_db_type := conn.(db_type); Txn.p_charset := conn.(charset); Txn.p_timezone := conn.(timezone);
                           Txn.p_file_path := conn.(file_path) |}
                {| Txn.connect := Some connected; Txn.set_asked := sets; Txn.begin_asked := Txn.of_bool (bool_decide (begun = Ok tt));
                   Txn.begin_err := (match begun with Err e => e | Ok _ => "" end); Txn.uuid := uuid; Txn.now := (s.(clock) l).1 |} store with
        | (Some (Ok id), store) => (Some (Ok (ok_response (JObj [("sessionId", JStr id)]))), store, l)
        | (Some (Err e), store) => (Some (Err (db_error "TXN_BEGIN_FAILED" (DraftTest.redact e) 503)), store, l)
        | (None, store) => (None, store, l)
        end
  end.

(** [txn_query]: up to the session, and from the lock on; no reply while it waits. *)
Definition txn_failed (e : string) : Fail := db_error "TXN_QUERY_FAILED" (DraftTest.redact e) 500.
Definition txn_find (session_id : string) (body : QueryBody) (store : Txn.Store) : option Fail * Txn.Store :=
  match Txn.find_session session_id body.(q_sql) (is_select_statement body.(q_sql)) store with
  | (Some e, store) => (Some (txn_failed e), store)
  | (None, store) => (None, store)
  end.
(** The statement on the pinned connection, and the thread of MySQL. *)
Definition execute_pinned (p : Txn.PinnedPool) (sql : string) (limit : nat) (is_select : bool) : M Fail json :=
  match p with
  | Txn.PMySql profile => execute_sql_mysql engine sql limit is_select profile.(catalog_mode)
  | Txn.PPg => execute_sql_pg engine sql limit is_select
  | Txn.PSqlite => execute_sql_sqlite engine sql limit is_select
  end.
Definition thread_of (p : Txn.PinnedPool) : M Fail (option Z) :=
  match p with
  | Txn.PMySql profile => λ l,
      match fetch_all_by_mode engine profile.(catalog_mode) "SELECT CONNECTION_ID()" None l with
      | (Ok (r :: _), l) => (Ok (i64_of (cell r 0)), l)
      | (_, l) => (Ok None, l)
      end
  | _ => mret None
  end.
Definition txn_run (s : Server) (user conn_id : string) (i : nat) (body : QueryBody) (store : Txn.Store)
    (g : option QueryStats.QueryStatsRecorder) (l : Log) : option Handled * Txn.Store :=
  match store.(Txn.waiting) !! i with
  | None => (None, store)
  | Some w =>
      let p := w.(Txn.w_session).(Txn.pool) in
      let '(outcome, l) := execute_pinned p w.(Txn.w_sql) (limit_of body.(q_limit)) w.(Txn.w_select) l in
      let '(thread, l) := match outcome with Ok _ => thread_of p l | Err _ => (Ok None, l) end in
      let answer := {| Txn.stmt_asked := Txn.of_bool (match outcome with Ok _ => true | Err _ => false end);
                       Txn.value := (match outcome with Ok v => v | Err (_, body) => body end);
                       Txn.thread_asked := Txn.of_bool (match thread with Ok (Some _) => true | _ => false end);
                       Txn.thread := (match thread with Ok t => t | Err _ => None end); Txn.ran_at := (s.(clock) l).1 |} in
      match Txn.run_statement i answer store with
      | (Some (Ok v), store) =>
          let '(cs, g) := record_at s l
            {| QueryStats.ctx_conn_id := conn_id; QueryStats.ctx_db_kind := None; QueryStats.ctx_database := None;
               QueryStats.ctx_user_id := Some user; QueryStats.ctx_entry := QueryStats.TxnQuery; QueryStats.ctx_outcome := QueryStats.COk |}
            body.(q_sql) (row_count v) (affected_rows v) g in
          (Some {| reply := Ok (ok_response (with_time (s.(clock) l).2 v)); log := l; samples := cs; recorder := g |}, store)
      | (Some (Err e), store) => (Some {| reply := Err (txn_failed e); log := l; samples := []; recorder := g |}, store)
      | (None, store) => (None, store)
      end
  end.
(** [txn_commit] and [txn_rollback]; [asked] is how it went, which is not read. *)
Definition txn_end (session_id : string) (commit : bool) (asked : Txn.Asked) (store : Txn.Store) : option (result Fail json) * Txn.Store :=
  match Txn.finish session_id commit asked store with
  | (Some (Ok _), store) => (Some (Ok (ok_response (JObj [(if commit then "committed" else "rolledBack", JBool true)]))), store)
  | (Some (Err e), store) =>
      (Some (Err (db_error (if commit then "TXN_COMMIT_FAILED" else "TXN_ROLLBACK_FAILED") (DraftTest.redact e) 500)), store)
  | (None, store) => (None, store)
  end.
End Rest.

(** ** What the handlers promise *)

Section Promises.
Context `{Cipher} (engine : Engine) (trust_env : option string).
Context (unicode_upper : char → list char) (unicode_alphanumeric : char → bool).
Context (to_uppercase : string → string) (print : json → string).
Local Notation is_select_statement := (StreamQuery.is_select_statement unicode_upper).
Local Notation db_query := (db_query engine trust_env unicode_upper to_uppercase print).
Local Notation run_script := (run_script engine trust_env unicode_upper to_uppercase print).
Local Notation admin_script := (admin_script engine trust_env unicode_upper unicode_alphanumeric to_uppercase print).

(** One connection of its own to the engine of a row, and what is sent on it. *)
Definition one_connection (conn : Connection) (pw : string) (Q : Statement → Prop) (l l' : Log) : Prop :=
  l' = l ∨ ∃ t ss, l' = l ++ Dial t :: (Send <$> ss) ∧ own_target conn pw t ∧ Forall Q ss.
Lemma resolve_row s id conn pw b : resolve s id = Ok (conn, pw, b) → s.(connections) !! id = Some conn.
Proof.
  unfold resolve, load_and_decrypt, load_and_decrypt_key. destruct s.(read); [|done]. cbn.
  destruct (s.(connections) !! id) as [c|]; [|done]. cbn.
  destruct (decrypt_password _ _); [|done]. cbn. destruct (backend_of _); [|done]. cbn. congruence.
Qed.
Lemma limit_of_bounds limit : (1 ≤ Z.of_nat (limit_of limit) ≤ 100000)%Z.
Proof. unfold limit_of. destruct limit; cbn [default]; lia. Qed.
Lemma with_time_at_most n e v : at_most n v → at_most n (with_time e v).
Proof.
  intros (k & Hk & Hle). exists k. split; [|done]. revert Hk. destruct v as [| | | | | |m]; cbn; try done.
  unfold rows_in. cbn. by rewrite assoc_get_insert_ne.
Qed.
Lemma query_one_connection b conn pw db q limit sel l :
  one_connection conn pw (asks conn q) l (execute_query (the_backend engine trust_env b) conn pw db q limit sel l).2.
Proof. apply (opens_query engine trust_env b conn pw db q limit sel l). Qed.

(** A statement over REST stays within its bounds.  While the license is gated a
    text that does not read as a query is refused with 403: nothing is dialled and
    nothing sampled.  Otherwise the handler dials the engine of the row it names, at
    most once, and sends it the row's session settings and the body's own text, with
    nothing bound; it reaches an engine under a gated license with a query only; and
    what it answers holds at most as many rows as the limit, which is between 1 and
    100000.  A failure takes no sample. *)
Theorem db_query_confined s user id body g l :
  let h := db_query s user id body g l in
  (is_gated s.(entitlement) = true → is_select_statement body.(q_sql) = false →
     (∃ e, h.(reply) = Err (403%Z, e)) ∧ h.(log) = l ∧ h.(samples) = [] ∧ h.(recorder) = g) ∧
  (h.(log) = l ∨ (is_gated s.(entitlement) = true → is_select_statement body.(q_sql) = true) ∧
     ∃ conn pw, s.(connections) !! id = Some conn ∧ one_connection conn pw (asks conn body.(q_sql)) l h.(log)) ∧
  match h.(reply) with
  | Ok v => ∃ data, jget "data" v = Some data ∧ at_most (limit_of body.(q_limit)) data ∧ (1 ≤ Z.of_nat (limit_of body.(q_limit)) ≤ 100000)%Z
  | Err _ => h.(samples) = [] ∧ h.(recorder) = g
  end.
Proof.
  unfold DbRest.db_query, gate_blocked. cbv zeta. split.
  { intros -> ->. cbn. split_and!; [by eexists|done..]. }
  destruct (if is_select_statement (q_sql body) then _ else _) as [e|] eqn:Eg; [cbn; by split; [left|]|].
  assert (Hg : is_gated s.(entitlement) = true → is_select_statement body.(q_sql) = true).
  { intros Ei. rewrite Ei in Eg. by destruct (is_select_statement _). }
  destruct (resolve s id) as [[[conn pw] b]|e] eqn:Er; [|cbn; by split; [left|]].
  apply resolve_row in Er. set (db := the_db _ _). set (lim := limit_of _). set (sel := is_select_statement _).
  pose proof (query_one_connection b conn pw db (q_sql body) lim sel l) as Ho.
  pose proof (query_at_most engine trust_env b conn pw db (q_sql body) lim sel l) as Hb.
  destruct (execute_query _ conn pw db _ lim sel l) as [[v|e] l']; cbn [fst snd] in *.
  - destruct (record_at _ _ _ _ _ _ _ _ _) as [cs g']. cbn. split; [right; split; [done|]; by exists conn, pw|].
    eexists. split; [reflexivity|]. split; [by apply with_time_at_most, Hb|apply limit_of_bounds].
  - cbn. split; [right; split; [done|]; by exists conn, pw|done].
Qed.

(** A script that ran: one statement after the other, each on a connection of its own
    and with an entry of its own, whatever came of the ones before. *)
Inductive Ran (run : string → M Fail json) (conn : Connection) (pw : string) : list string → Log → list json → Log → Prop :=
| ran_nil l : Ran run conn pw [] l [] l
| ran_cons stmt stmts e es l l' :
    one_connection conn pw (asks conn stmt) l (run stmt l).2 →
    jget "sql" e = Some (JStr stmt) → jget "ok" e = Some (JBool (is_ok (run stmt l).1)) →
    (∀ v, (run stmt l).1 = Ok v → jget "rows" e = jget "rows" v ∧ jget "affectedRows" e = jget "affectedRows" v) →
    Ran run conn pw stmts (run stmt l).2 es l' →
    Ran run conn pw (stmt :: stmts) l (e :: es) l'.
Lemma script_entry_spec stmt (r : result Fail json) : let e := script_entry stmt r in
  jget "sql" e = Some (JStr stmt) ∧ jget "ok" e = Some (JBool (is_ok r)) ∧
  (∀ v, r = Ok v → jget "rows" e = jget "rows" v ∧ jget "affectedRows" e = jget "affectedRows" v).
Proof.
  destruct r as [v|[st body]]; cbn; split_and!; try done. intros v' [= <-].
  by destruct (jget "affectedRows" v), (jget "columns" v), (jget "rows" v).
Qed.
Lemma run_script_ran s user id conn pw b db limit stmts : ∀ g l,
  let r := run_script s user id conn pw b db limit stmts g l in
  Ran (λ q, execute_query (the_backend engine trust_env b) conn pw db q limit (is_select_statement q)) conn pw stmts l r.1.1.1 r.1.1.2.
Proof.
  induction stmts as [|q stmts IH]; intros g l; [constructor|]. cbn [DbRest.run_script]. cbv zeta.
  pose proof (query_one_connection b conn pw db q limit (is_select_statement q) l) as Ho.
  destruct (execute_query _ conn pw db q limit _ l) as [exec l1] eqn:E. cbn [snd] in Ho.
  destruct (script_outcome exec) as [[o rows] affected]. destruct (record_at _ _ _ _ _ _ _ _ _) as [cs g1].
  specialize (IH g1 l1). cbv zeta in IH. destruct (run_script s user id conn pw b db limit stmts g1 l1) as [[[es l2] cs'] g2].
  destruct (script_entry_spec q exec) as (H1 & H2 & H3). cbn [fst snd] in *.
  apply ran_cons; rewrite ?E; cbn [fst snd]; try done.
Qed.

(** A script runs to its end.  The text is split into its statements, and every
    one of them is executed, in order, on the engine of the row, with the row's session
    settings and nothing else; there is one entry for each, which says what it was, if
    it succeeded, and its rows; a failure stops nothing.  Every statement opens a
    connection of its own: nothing of a statement's session is left for the next. *)
Theorem script_runs_to_its_end s user id db script limit g l :
  let h := admin_script s user id db script limit g l in
  match h.(reply) with
  | Err _ => h.(log) = l ∧ h.(samples) = []
  | Ok v => ∃ conn pw b entries, s.(connections) !! id = Some conn ∧ backend_for conn.(db_type) = Ok b ∧
      v = ok_response (JObj [("results", JArr entries)]) ∧
      Ran (λ q, execute_query (the_backend engine trust_env b) conn pw (the_db db conn) q (limit_of limit) (is_select_statement q)) conn pw
          (statements_of unicode_alphanumeric script) l entries h.(log)
  end.
Proof.
  unfold DbRest.admin_script. cbv zeta. destruct (resolve s id) as [[[conn pw] b]|e] eqn:Er; [|done].
  pose proof (run_script_ran s user id conn pw b (the_db db conn) (limit_of limit) (statements_of unicode_alphanumeric script) g l) as HR.
  destruct (run_script s user id conn pw b _ _ _ g l) as [[[es l'] cs] g']. cbn in *.
  exists conn, pw, b, es. split; [by eapply resolve_row|]. split; [|done].
  revert Er. unfold resolve. destruct (load_and_decrypt s id) as [[c p]|]; [|done]. cbn. unfold backend_of.
  destruct (backend_for c.(db_type)) as [b'|[]] eqn:Eb; [|done]. cbn. congruence.
Qed.
Lemma ran_length run conn pw stmts l es l' : Ran run conn pw stmts l es l' → length es = length stmts.
Proof. induction 1; cbn; congruence. Qed.

(** A transaction is opened where a query would be; a MySQL account without a password
    is where they differ, and the application PostgreSQL is told of. *)
Lemma pinned_where_queried conn pw db p : Txn.pinned_for conn.(db_type) conn.(file_path) = Ok p →
  match p with
  | Txn.PMySql _ => pw ≠ "" → pinned_target p conn pw db = mysql_connect_options conn pw (not_blank db)
  | Txn.PPg => ∃ c h u, pinned_target p conn pw db = Net (PgLogin None) c h u (Some pw) (Some (default "postgres" db)) ∧
                 pg_options conn pw (Some (default "postgres" db)) = Net (PgLogin (Some "dbmaster-gw")) c h u (Some pw) (Some (default "postgres" db))
  | Txn.PSqlite => ∃ path, conn.(file_path) = Some path ∧ pinned_target p conn pw db = File path false
  end.
Proof.
  unfold Txn.pinned_for. destruct (mysql_family_for conn.(db_type)) as [profile|] eqn:E.
  { destruct (supports_transactions profile); [|done]. intros [= <-] Hpw. unfold mysql_connect_options, mysql_profile_for.
    rewrite E. cbn. by destruct pw. }
  case_decide; [intros [= <-]; by eexists _, _, _|]. case_decide; [|done]. destruct conn.(file_path) as [path|] eqn:Ef; [|done].
  intros [= <-]. exists path. cbn. by rewrite Ef.
Qed.

(** A kill is one statement made of a number, and for the family of MySQL only; the
    license gate is not asked. *)
Theorem kill_is_one_number s id tid l : let r := admin_kill engine s id tid l in
  r.2 = l ∨ ∃ conn pw p, s.(connections) !! id = Some conn ∧ mysql_family_for conn.(db_type) = Some p ∧ p.(supports_kill_query) = true ∧
    one_connection conn pw (asks conn ("KILL QUERY " +:+ z_string tid)) l r.2.
Proof.
  unfold admin_kill. cbv zeta. unfold load_and_decrypt, load_and_decrypt_key. destruct s.(read); [|by left]. cbn.
  destruct (s.(connections) !! id) as [c|]; [|by left]. cbn. destruct (decrypt_password _ _) as [pw|]; [|by left].
  destruct (mysql_family_for c.(db_type)) as [p|] eqn:E; [|by left]. destruct (supports_kill_query p) eqn:Ek; [|by left].
  right. exists c, pw, p. split_and!; [done..|].
  match goal with |- one_connection _ _ _ _ (?m l).2 => enough (Dials c pw (asks c ("KILL QUERY " +:+ z_string tid)) m) as [Hm _] by apply Hm end.
  apply dials_bind; [apply dials_mysql_at; by left|]. intros _. apply sends_bind; [|eauto with sends].
  apply sends_map_err, sends_execute_by_mode. intros r. by right.
Qed.
End Promises.

(** The reason a session is gone does not reach the client. *)
Example expired_session_unnamed : txn_failed Txn.no_session = (500%Z, envelope "TXN_QUERY_FAILED" "query execution failed").
Proof. vm_compute. reflexivity. Qed.
(** An account without a password is queried without one, and begun on with one. *)
Definition ex_conn : Connection :=
  {| Connections.name := "t"; db_type := "tidb"; host := "h"; port := 4000; username := "root"; password_encrypted := "";
     default_database := None; created_by := ""; created_at := ""; kind := ""; file_path := None; charset := None;
     timezone := None; read_only := false; extra := None; ssh_secret_encrypted := None |}.
Example empty_password_differs :
  (match mysql_connect_options ex_conn "" None with Net _ _ _ _ pw _ => pw | File _ _ => None end) = None ∧
  (match pinned_target (Txn.PMySql TidbProfile) ex_conn "" None with Net _ _ _ _ pw _ => pw | File _ _ => None end) = Some "".
Proof. vm_compute. split; reflexivity. Qed.
