(* ===== verification/Metadata.v ===== *)
(** * Catalog metadata (crates/automation/src/metadata.rs): projections and helpers

    What is told of a table, how it is written, how rows of a catalog become
    indexes and keys, how the relations of PostgreSQL are named and found again, the
    scan of Redis and the columns sampled from MongoDB.  The three operations over
    them are in [Describe]. *)

From S2P Require Import Prelude RustStr Json BTree TdengineLeg MongoLeg RedisLeg DbFamily Cells.
From stdpp Require Import strings list sorting.

(** ** Projections *)

Record TableSummary := {
  ts_name : string; ts_schema : option string; ts_kind : string; ts_comment : option string; ts_row_estimate : option Z }.
Record ColumnDetail := {
  cd_name : string; cd_data_type : string; cd_nullable : bool; cd_default_value : option string; cd_comment : option string }.
Record IndexDetail := { ix_name : string; ix_columns : list string; ix_unique : bool }.
Record ForeignKeyDetail := { fk_name : option string; fk_columns : list string; fk_ref_table : string; fk_ref_columns : list string }.
Record TableDescription := {
  td_table : string; td_comment : option string; td_columns : list ColumnDetail; td_primary_key : list string;
  td_indexes : list IndexDetail; td_foreign_keys : list ForeignKeyDetail }.

(** [#[derive(Serialize)]], camel case; what is absent, or empty, is left out. *)
Definition some_entry {A} (k : string) (f : A → json) (o : option A) : list (string * json) :=
  match o with Some a => [(k, f a)] | None => [] end.
Definition list_entry {A} (k : string) (f : A → json) (l : list A) : list (string * json) :=
  match l with [] => [] | _ => [(k, JArr (f <$> l))] end.
Definition summary_json (t : TableSummary) : json :=
  JObj ([("name", JStr t.(ts_name))] ++ some_entry "schema" JStr t.(ts_schema) ++ [("type", JStr t.(ts_kind))]
        ++ some_entry "comment" JStr t.(ts_comment) ++ some_entry "rowEstimate" JInt t.(ts_row_estimate)).
Definition column_json (c : ColumnDetail) : json :=
  JObj ([("name", JStr c.(cd_name)); ("type", JStr c.(cd_data_type)); ("nullable", JBool c.(cd_nullable))]
        ++ some_entry "defaultValue" JStr c.(cd_default_value) ++ some_entry "comment" JStr c.(cd_comment)).
Definition index_json (i : IndexDetail) : json :=
  JObj [("name", JStr i.(ix_name)); ("columns", jstrs i.(ix_columns)); ("unique", JBool i.(ix_unique))].
Definition fk_json (f : ForeignKeyDetail) : json :=
  JObj (some_entry "name" JStr f.(fk_name)
        ++ [("columns", jstrs f.(fk_columns)); ("refTable", JStr f.(fk_ref_table)); ("refColumns", jstrs f.(fk_ref_columns))]).
Definition description_json (d : TableDescription) : json :=
  JObj ([("table", JStr d.(td_table))] ++ some_entry "comment" JStr d.(td_comment) ++ [("columns", JArr (column_json <$> d.(td_columns)))]
        ++ list_entry "primaryKey" JStr d.(td_primary_key) ++ list_entry "indexes" index_json d.(td_indexes)
        ++ list_entry "foreignKeys" fk_json d.(td_foreign_keys)).

(** ** Errors *)

Definition meta_not_found (what : string) : MetadataError := ("NOT_FOUND", what +:+ " not found").
Definition meta_connect_failed : MetadataError := ("CONNECT_FAILED", "database connection failed").
Definition meta_query_failed (e : string) : MetadataError := ("QUERY_FAILED", take_chars 200 e).
Definition meta_config (msg : string) : MetadataError := ("CONFIG_ERROR", msg).
Definition meta_from_td (e : TdError) : MetadataError :=
  match e with
  | Transport | Auth => meta_connect_failed
  | Http status body => ("QUERY_FAILED", "taosAdapter HTTP " +:+ z_string status +:+ ": " +:+ take_chars 180 body)
  | TdengineLeg.Engine code desc => ("QUERY_FAILED", "TDengine error " +:+ z_string code +:+ ": " +:+ take_chars 180 desc)
  end.
Definition no_database : MetadataError := meta_config "no database specified and connection has no default_database".

(** ** Small helpers *)

Definition non_empty (s : string) : option string := if is_empty s then None else Some s.
Definition eq_ignore_ascii_case (a b : string) : bool := bool_decide (to_ascii_lowercase a = to_ascii_lowercase b).
Definition split_csv (s : option string) : list string :=
  match s with Some joined => if is_empty joined then [] else RustStr.trim <$> split_on "," joined | None => [] end.
(** [r.try_get::<Option<T>>(i).ok().flatten()] for three types; [f as i64] is the
    language's cast. *)
Definition flat {A} (r : Read A) : option A := match r with Some (Some a) => Some a | _ => None end.
Definition mysql_row_count (f64_to_i64 : Z → Z) (c : Cell) : option Z :=
  match flat c.(c_i64), flat c.(c_u64), flat c.(c_f64) with
  | Some n, _, _ => Some n
  | None, Some n, _ => Some (as_i64 n)
  | None, None, Some f => Some (f64_to_i64 f)
  | None, None, None => None
  end.
Definition ss_opt_string (c : Cell) : option string := non_empty (ss_string c).

(** ** Grouping *)

(** Rows of one name follow each other: a row joins the last group or opens one. *)
Section Grouping.
Context {G R : Type} (same : G → R → bool) (grow : G → R → G) (start : R → G).
Definition push_row (gs : list G) (r : R) : list G :=
  match last gs with
  | Some g => if same g r then alter (λ g, grow g r) (pred (length gs)) gs else gs ++ [start r]
  | None => [start r]
  end.
Definition group_rows (rows : list R) : list G := foldl push_row [] rows.
End Grouping.

(** An index's row: name, unique, column; a key's: name, column, table and column
    referred to. *)
Record IndexRow := { ir_name : string; ir_unique : bool; ir_column : string }.
Record FkRow := { fr_name : option string; fr_column : string; fr_ref_table : string; fr_ref_column : string }.
Definition same_index (g : IndexDetail) (r : IndexRow) : bool := bool_decide (g.(ix_name) = r.(ir_name)).
Definition grow_index (g : IndexDetail) (r : IndexRow) : IndexDetail :=
  {| ix_name := g.(ix_name); ix_columns := g.(ix_columns) ++ [r.(ir_column)]; ix_unique := g.(ix_unique) |}.
Definition start_index (r : IndexRow) : IndexDetail :=
  {| ix_name := r.(ir_name); ix_columns := [r.(ir_column)]; ix_unique := r.(ir_unique) |}.
Definition group_indexes : list IndexRow → list IndexDetail := group_rows same_index grow_index start_index.
Definition grow_fk (g : ForeignKeyDetail) (r : FkRow) : ForeignKeyDetail :=
  {| fk_name := g.(fk_name); fk_columns := g.(fk_columns) ++ [r.(fr_column)]; fk_ref_table := g.(fk_ref_table);
     fk_ref_columns := g.(fk_ref_columns) ++ [r.(fr_ref_column)] |}.
Definition start_fk (r : FkRow) : ForeignKeyDetail :=
  {| fk_name := r.(fr_name); fk_columns := [r.(fr_column)]; fk_ref_table := r.(fr_ref_table); fk_ref_columns := [r.(fr_ref_column)] |}.
Definition group_fks : list FkRow → list ForeignKeyDetail :=
  group_rows (λ g r, bool_decide (g.(fk_name) = r.(fr_name) ∧ g.(fk_ref_table) = r.(fr_ref_table))) grow_fk start_fk.
(** SQLite's: by the number of the constraint, after sorting by it and the place. *)
Record PragmaFk := { pf_id : Z; pf_seq : Z; pf_table : string; pf_from : string; pf_to : string }.
Definition pragma_le (a b : PragmaFk) : Prop := (a.(pf_id) < b.(pf_id) ∨ a.(pf_id) = b.(pf_id) ∧ a.(pf_seq) ≤ b.(pf_seq))%Z.
#[global] Instance pragma_le_dec a b : Decision (pragma_le a b).
Proof. unfold pragma_le. apply _. Defined.
Fixpoint insert_pragma (x : PragmaFk) (l : list PragmaFk) : list PragmaFk :=
  match l with [] => [x] | y :: l' => if decide (pragma_le x y) then x :: l else y :: insert_pragma x l' end.
Definition sort_pragma (l : list PragmaFk) : list PragmaFk := foldr insert_pragma [] l.
Definition fk_of_pragma (e : PragmaFk) : FkRow :=
  {| fr_name := None; fr_column := e.(pf_from); fr_ref_table := e.(pf_table); fr_ref_column := e.(pf_to) |}.
Definition group_pragma (l : list PragmaFk) : list ForeignKeyDetail :=
  (group_rows (λ g r, bool_decide (g.1 = r.(pf_id))) (λ g r, (g.1, grow_fk g.2 (fk_of_pragma r))) (λ r, (r.(pf_id), start_fk (fk_of_pragma r)))
     (sort_pragma l)).*2.

(** ** Relations of PostgreSQL *)

Definition pg_display_name (schema relname : string) : string * option string :=
  if decide (schema = "public") then (relname, None) else (schema +:+ "." +:+ relname, Some schema).
Definition PG_REGCLASS_BARE : string := "to_regclass(quote_ident($1))".
Definition PG_REGCLASS_QUALIFIED : string := "to_regclass(quote_ident($1) || '.' || quote_ident($2))".
Definition split_pg_qualified (table : string) : option (string * string) :=
  match split_on "." table with
  | [a; b] => if is_empty a || is_empty b then None else Some (a, b)
  | _ => None
  end.
Record PgRelation := { regclass : string; params : list string }.
Definition parse (table : string) : PgRelation :=
  match split_pg_qualified table with
  | Some (schema, name) => {| regclass := PG_REGCLASS_QUALIFIED; params := [schema; name] |}
  | None => {| regclass := PG_REGCLASS_BARE; params := [table] |}
  end.
Definition rel_schema (r : PgRelation) : option string := match r.(params) with [schema; _] => Some schema | _ => None end.
Definition object_name (r : PgRelation) : string := default "" (last r.(params)).

(** ** The scan of Redis *)

Definition SAMPLE_KEYS : nat := 20.
Definition MAX_KEYS : nat := Z.to_nat 10000.
Section Scan.
(** A command's answer. *)
Context (ask : list string → result string Resp).
Definition redis_cmd (words : list string) : result MetadataError Resp :=
  match ask words with Ok r => Ok r | Err e => Err (meta_query_failed e) end.
(** One page: the next cursor and its keys. *)
Definition bulk_text (r : Resp) : option string := match r with RBulk b => Some (from_utf8_lossy b) | _ => None end.
Definition scan_page (resp : Resp) : result MetadataError (string * list string) :=
  match resp with
  | RArray (next :: batch :: _) =>
      match next with
      | RBulk b => Ok (from_utf8_lossy b, match batch with RArray items => omap bulk_text items | _ => [] end)
      | _ => Err ("QUERY_FAILED", "malformed SCAN cursor")
      end
  | RArray _ => Err ("QUERY_FAILED", "malformed SCAN response")
  | _ => Err ("QUERY_FAILED", "unexpected SCAN response shape")
  end.
(** The loop; none when [fuel] pages were not enough. *)
Fixpoint scan_loop (fuel : nat) (pattern : string) (cap : nat) (cursor : string) (keys : list string) : option (result MetadataError (list string)) :=
  match fuel with
  | O => None
  | S fuel =>
      match (resp ← redis_cmd ["SCAN"; cursor; "MATCH"; pattern; "COUNT"; "500"]; scan_page resp) with
      | Err e => Some (Err e)
      | Ok (next, page) =>
          let keys := keys ++ page in
          if (cap <=? length keys) || bool_decide (next = "0") then Some (Ok keys) else scan_loop fuel pattern cap next keys
      end
  end.
Definition redis_scan_all (fuel : nat) (pattern : string) (cap : nat) : option (result MetadataError (list string)) :=
  scan_loop fuel pattern cap "0" [].

(** The databases: as many as are configured, else those that hold keys. *)
Definition count_up (n : Z) : list string := (λ i, z_string (Z.of_nat i)) <$> seq 0 (Z.to_nat n).
Definition configured_databases : option (list string) :=
  match redis_cmd ["CONFIG"; "GET"; "databases"] with
  | Ok (RArray items) =>
      b ← items !! 1 ≫= bulk_text; Some (count_up (Z.max 1 (Z.min (default 16 (parse_i64 b)) 256)))%Z
  | _ => None
  end.
Definition keyspace_databases : option (list string) :=
  match redis_cmd ["INFO"; "keyspace"] with
  | Ok (RBulk b) =>
      let dbs := omap (λ l, split_first ":" <$> str_strip_prefix "db" l) (RustStr.lines (from_utf8_lossy b)) in
      match sort_by_key (λ d, default 0%Z (parse_i64 d)) dbs with [] => None | dbs => Some dbs end
  | _ => None
  end.
Definition redis_databases : list string :=
  match configured_databases with Some dbs => dbs | None => default ["0"] keyspace_databases end.
End Scan.

(** [BTreeSet], then a sort that finds it sorted. *)
Definition ROOT : string := "(root)".
Definition namespace_of (k : string) : string :=
  let seg := split_first ":" k in
  if negb (is_empty seg) && (String.length seg <? String.length k) then seg else ROOT.
Definition namespaces (keys : list string) : list string := (BTree.from_entries ((λ k, (namespace_of k, tt)) <$> keys)).*1.
Definition sample_pattern (table : string) : string := if decide (table = ROOT) then "*" else table +:+ ":*".
Definition key_type (r : Resp) : string :=
  match r with RSimple s => to_ascii_lowercase s | RBulk b => to_ascii_lowercase (from_utf8_lossy b) | _ => "none" end.
Definition field_specs (key_type : string) : list (string * string) :=
  if decide (key_type = "hash") then [("field", "string"); ("value", "string")]
  else if decide (key_type = "list") then [("index", "int"); ("value", "string")]
  else if decide (key_type = "set") then [("member", "string")]
  else if decide (key_type = "zset") then [("member", "string"); ("score", "double")]
  else if decide (key_type = "stream") then [("id", "string"); ("fields", "object")]
  else [("value", "string")].

(** ** Columns sampled from documents *)

Definition is_null (b : bson) : bool := match b with BNull => true | _ => false end.
Fixpoint note_field (key : string) (value : bson) (seen : list (string * string)) : list (string * string) :=
  match seen with
  | [] => [(key, bson_type_name value)]
  | (n, t) :: seen =>
      if decide (n = key)
      then (n, if bool_decide (t = "null") && negb (is_null value) then bson_type_name value else t) :: seen
      else (n, t) :: note_field key value seen
  end.
Definition note_document (seen : list (string * string)) (d : Document) : list (string * string) :=
  foldl (λ seen kv, note_field kv.1 kv.2 seen) seen d.
Definition sampled_columns (docs : list Document) : list (string * string) := foldl note_document [] docs.
Definition plain_column (nt : string * string) : ColumnDetail :=
  {| cd_name := nt.1; cd_data_type := nt.2; cd_nullable := true; cd_default_value := None; cd_comment := None |}.
Definition mongo_batch (resp : Document) : list Document := default [] ((λ b, b.1.1) <$> cursor_first_batch resp).
Definition mongo_index (ix : Document) : option IndexDetail :=
  name ← get_str ix "name"; key ← get_document ix "key";
  Some {| ix_name := name; ix_columns := key.*1; ix_unique := match doc_get "unique" ix with Some (BBool b) => b | _ => false end |}.

(** ** Groups hold their rows *)

(** Equal keys follow each other, as an ORDER BY leaves them. *)
Definition contiguous {K} (l : list K) : Prop := ∀ i j k x, i ≤ j → j ≤ k → l !! i = Some x → l !! k = Some x → l !! j = Some x.
Lemma contiguous_snoc {K} (l : list K) x : contiguous (l ++ [x]) → contiguous l ∧ (x ∈ l → last l = Some x).
Proof.
  intros H. split.
  - intros i j k y Hij Hjk Hi Hk. apply lookup_lt_Some in Hk as Hlt.
    assert (E : (l ++ [x]) !! j = Some y) by (eapply H; [exact Hij|exact Hjk|by apply lookup_app_l_Some..]).
    rewrite lookup_app_l in E by lia. done.
  - intros (i & Hi)%list_elem_of_lookup. apply lookup_lt_Some in Hi as Hlt. rewrite last_lookup.
    assert (E : (l ++ [x]) !! pred (length l) = Some x).
    { eapply (H i _ (length l)); [lia|lia|by apply lookup_app_l_Some|]. by rewrite lookup_app_r, Nat.sub_diag. }
    rewrite lookup_app_l in E by lia. done.
Qed.

Section Groups.
Context {G R K C : Type} (same : G → R → bool) (grow : G → R → G) (start : R → G).
Context (gkey : G → K) (rkey : R → K) `{EqDecision K} (cols : G → list C) (col : R → C).
Context (same_key : ∀ g r, same g r = bool_decide (gkey g = rkey r)) (grow_key : ∀ g r, gkey (grow g r) = gkey g)
        (start_key : ∀ r, gkey (start r) = rkey r) (grow_cols : ∀ g r, cols (grow g r) = cols g ++ [col r])
        (start_cols : ∀ r, cols (start r) = [col r]).

(** One group for every key, with the columns of its rows in their order. *)
Lemma groups_hold_rows rows : contiguous (rkey <$> rows) →
  let gs := group_rows same grow start rows in
  NoDup (gkey <$> gs) ∧ last (gkey <$> gs) = last (rkey <$> rows) ∧
  (∀ g, g ∈ gs → cols g = col <$> filter (λ r, rkey r = gkey g) rows) ∧
  (∀ k, k ∈ gkey <$> gs ↔ k ∈ rkey <$> rows).
Proof.
  cbv zeta. unfold group_rows. induction rows as [|r rows IH] using rev_ind.
  { intros _. cbn. split_and!; [constructor|done|by intros ? ?%elem_of_nil|done]. }
  rewrite fmap_app. intros [Hc Hlast]%contiguous_snoc. destruct (IH Hc) as (Hnd & Hl & Hcols & Hin). clear IH Hc.
  rewrite foldl_app. cbn [foldl]. set (gs := foldl _ _ _) in *. unfold push_row.
  rewrite fmap_last in Hl. destruct (last gs) as [g|] eqn:Eg; cbn in Hl.
  - rewrite same_key. destruct (bool_decide_reflect (gkey g = rkey r)) as [Ek|Ek].
    + (* the last group grows *)
      apply last_Some in Eg as (gs' & Egs). assert (Ealt : alter (λ g, grow g r) (pred (length gs)) gs = gs' ++ [grow g r]).
      { rewrite Egs, length_app, alter_app_r_alt by (cbn; lia). cbn. by replace (pred (length gs' + 1) - length gs') with 0 by lia. }
      rewrite Ealt. rewrite Egs in Hnd, Hcols, Hin. rewrite fmap_app in Hnd, Hin |- *. cbn in *. rewrite grow_key. split_and!; [done| |..].
      * by rewrite !last_snoc, Ek.
      * apply NoDup_app in Hnd as (_ & Hdis & _). intros g0 [H0| ->%list_elem_of_singleton]%elem_of_app; rewrite filter_app, fmap_app.
        -- rewrite (Hcols g0) by (apply elem_of_app; by left). cbn. rewrite decide_False; [by rewrite app_nil_r|].
           intros E0. apply (Hdis (gkey g0)); [by apply list_elem_of_fmap_2|]. rewrite <- E0, Ek. by left.
        -- rewrite grow_key, grow_cols, (Hcols g) by (apply elem_of_app; right; by left). cbn. by rewrite decide_True by done.
      * intros k. rewrite !elem_of_app, <- Hin, elem_of_app, !list_elem_of_singleton. rewrite Ek. tauto.
    + (* a new group *)
      assert (Hnew : rkey r ∉ gkey <$> gs) by (intros H; apply Ek; apply Hin in H; apply Hlast in H; congruence).
      rewrite !fmap_app. cbn. rewrite start_key. split_and!.
      * apply NoDup_app. split_and!; [done|by intros k Hk ->%list_elem_of_singleton|apply NoDup_singleton].
      * by rewrite !last_snoc.
      * intros g0 [H0| ->%list_elem_of_singleton]%elem_of_app; rewrite filter_app, fmap_app.
        -- rewrite (Hcols g0) by done. cbn. rewrite decide_False; [by rewrite app_nil_r|]. intros E0. apply Hnew. rewrite E0. by apply list_elem_of_fmap_2.
        -- rewrite start_key, start_cols. cbn. rewrite decide_True by done. rewrite filter_none; [done|]. apply Forall_forall. intros r0 Hr0 E0.
           apply Hnew, Hin. rewrite <- E0. by apply list_elem_of_fmap_2.
      * intros k. by rewrite !elem_of_app, Hin.
  - apply last_None in Eg. rewrite Eg in Hin. assert (rows = []) as ->.
    { destruct rows as [|r0 rows]; [done|]. exfalso. eapply (elem_of_nil (rkey r0)). apply Hin. by left. }
    cbn. rewrite start_key. split_and!; [apply NoDup_singleton|done| |done].
    intros g ->%list_elem_of_singleton. by rewrite start_cols, decide_True by (by rewrite start_key).
Qed.
End Groups.

(** The indexes of a table are those of the catalog.  When the rows of an index
    follow each other, as the catalog statements order them, there is one entry for
    every index name and no other, and it lists the index's columns, all of them, in
    the order of the rows. *)
Theorem indexes_hold_their_columns rows : contiguous (ir_name <$> rows) →
  NoDup (ix_name <$> group_indexes rows) ∧
  (∀ n, n ∈ ix_name <$> group_indexes rows ↔ n ∈ ir_name <$> rows) ∧
  ∀ i, i ∈ group_indexes rows → i.(ix_columns) = ir_column <$> filter (λ r, r.(ir_name) = i.(ix_name)) rows.
Proof.
  intros Hc. unfold group_indexes.
  pose proof (groups_hold_rows same_index grow_index start_index ix_name ir_name ix_columns ir_column (λ _ _, eq_refl) (λ _ _, eq_refl) (λ _, eq_refl) (λ _ _, eq_refl)
    (λ _, eq_refl) rows Hc) as (H1 & _ & H3 & H4).
  by split_and!.
Qed.
Definition ex_index (n : string) (u : bool) (col : string) : IndexRow := {| ir_name := n; ir_unique := u; ir_column := col |}.
Definition ex_rows : list IndexRow := [ex_index "PRIMARY" true "id"; ex_index "by_day" false "day"; ex_index "by_day" false "shop"].
Lemma ex_rows_contiguous : contiguous (ir_name <$> ex_rows).
Proof. intros i j k x. destruct i as [|[|[|i]]], k as [|[|[|k]]]; cbn; try lia; intros ?? [=] [=]; subst; try congruence; by (destruct j as [|[|[|j]]]; try lia). Defined.
Lemma indexes_hold_their_columns_witness :
  contiguous (ir_name <$> ex_rows) ∧ NoDup (ix_name <$> group_indexes ex_rows) ∧
  group_indexes ex_rows = [{| ix_name := "PRIMARY"; ix_columns := ["id"]; ix_unique := true |};
                           {| ix_name := "by_day"; ix_columns := ["day"; "shop"]; ix_unique := false |}].
Proof.
  split; [exact ex_rows_contiguous|]. split; [exact (proj1 (indexes_hold_their_columns ex_rows ex_rows_contiguous))|]. reflexivity.
Defined.
(** And so are the foreign keys. *)
Lemma fks_hold_their_columns rows : contiguous ((λ r, (r.(fr_name), r.(fr_ref_table))) <$> rows) →
  NoDup ((λ f, (f.(fk_name), f.(fk_ref_table))) <$> group_fks rows) ∧
  ∀ f, f ∈ group_fks rows →
    f.(fk_columns) = fr_column <$> filter (λ r, (r.(fr_name), r.(fr_ref_table)) = (f.(fk_name), f.(fk_ref_table))) rows ∧
    f.(fk_ref_columns) = fr_ref_column <$> filter (λ r, (r.(fr_name), r.(fr_ref_table)) = (f.(fk_name), f.(fk_ref_table))) rows.
Proof.
  intros Hc. unfold group_fks.
  assert (Hs : ∀ (g : ForeignKeyDetail) (r : FkRow), bool_decide (fk_name g = fr_name r ∧ fk_ref_table g = fr_ref_table r)
    = bool_decide ((fk_name g, fk_ref_table g) = (fr_name r, fr_ref_table r))) by (intros g r; apply bool_decide_ext; split; [intros [E1 E2]; by rewrite E1, E2|by intros [= ? ?]]).
  pose proof (groups_hold_rows _ grow_fk start_fk (λ f, (fk_name f, fk_ref_table f)) (λ r, (fr_name r, fr_ref_table r)) fk_columns fr_column
    Hs (λ _ _, eq_refl) (λ _, eq_refl) (λ _ _, eq_refl) (λ _, eq_refl) rows Hc) as (H1 & _ & H3 & _).
  pose proof (groups_hold_rows _ grow_fk start_fk (λ f, (fk_name f, fk_ref_table f)) (λ r, (fr_name r, fr_ref_table r)) fk_ref_columns fr_ref_column
    Hs (λ _ _, eq_refl) (λ _, eq_refl) (λ _ _, eq_refl) (λ _, eq_refl) rows Hc) as (_ & _ & H4 & _).
  split; [exact H1|]. intros f Hf. split; [by apply H3|by apply H4].
Qed.

(** ** Names of PostgreSQL lead back *)

(** A name from the list of tables leads back to its table.  For a schema and a
    relation without dots in their names, what is listed is parsed back into the same
    schema and relation, bound as parameters of the matching form: a relation of
    [public] by its bare name, any other by both; and no part of a name is ever part
    of the statement. *)
Theorem pg_names_lead_back schema rel :
  no_char "." schema = true → no_char "." rel = true → schema ≠ "" → rel ≠ "" →
  let r := parse (pg_display_name schema rel).1 in
  object_name r = rel ∧ rel_schema r = (pg_display_name schema rel).2 ∧
  (schema = "public" → r = {| regclass := PG_REGCLASS_BARE; params := [rel] |}) ∧
  (schema ≠ "public" → r = {| regclass := PG_REGCLASS_QUALIFIED; params := [schema; rel] |}).
Proof.
  intros Hs Hr Ns Nr. cbv zeta. unfold pg_display_name. case_decide as Ep; cbn [fst snd].
  - assert (E : parse rel = {| regclass := PG_REGCLASS_BARE; params := [rel] |}).
    { unfold parse, split_pg_qualified. by rewrite split_on_one. }
    rewrite E. by split_and!.
  - assert (E : parse (schema +:+ "." +:+ rel) = {| regclass := PG_REGCLASS_QUALIFIED; params := [schema; rel] |}).
    { unfold parse, split_pg_qualified. rewrite str_app_cons, str_app_nil_l, split_on_app, split_on_one by done.
      assert (is_empty schema = false) as -> by (by destruct schema). assert (is_empty rel = false) as -> by (by destruct rel). done. }
    rewrite E. by split_and!.
Qed.
Lemma pg_names_lead_back_witness :
  no_char "." "ecommerce" = true ∧ no_char "." "orders" = true ∧
  parse (pg_display_name "ecommerce" "orders").1 = {| regclass := PG_REGCLASS_QUALIFIED; params := ["ecommerce"; "orders"] |}.
Proof.
  split; [reflexivity|]. split; [reflexivity|].
  exact (proj2 (proj2 (proj2 (pg_names_lead_back "ecommerce" "orders" eq_refl eq_refl ltac:(discriminate) ltac:(discriminate)))) ltac:(discriminate)).
Defined.
(** With a dot in its name it does not, and a comma splits a column. *)
Example dotted_table_misread :
  parse (pg_display_name "public" "log.2024").1 = {| regclass := PG_REGCLASS_QUALIFIED; params := ["log"; "2024"] |} ∧
  parse (pg_display_name "etl.v2" "orders").1 = {| regclass := PG_REGCLASS_BARE; params := ["etl.v2.orders"] |}.
Proof. vm_compute. split; reflexivity. Qed.
Example comma_splits_column : split_csv (Some "a,b,price, net") = ["a"; "b"; "price"; "net"].
Proof. vm_compute. reflexivity. Qed.

(** ** The scan ends when the server says so *)

(** A server's pages from a cursor on: the last one leads back to zero. *)
Inductive Pages (ask : list string → result string Resp) (pattern : string) : string → list (list string) → Prop :=
| last_page c keys resp : ask ["SCAN"; c; "MATCH"; pattern; "COUNT"; "500"] = Ok resp → scan_page resp = Ok ("0", keys) → Pages ask pattern c [keys]
| next_page c keys n resp ps : ask ["SCAN"; c; "MATCH"; pattern; "COUNT"; "500"] = Ok resp → scan_page resp = Ok (n, keys) →
    n ≠ "0" → Pages ask pattern n ps → Pages ask pattern c (keys :: ps).
(** Pages are taken until there are enough keys. *)
Fixpoint collect (cap : nat) (acc : list string) (ps : list (list string)) : list string :=
  match ps with
  | [] => acc
  | p :: ps => if cap <=? length (acc ++ p) then acc ++ p else collect cap (acc ++ p) ps
  end.
Lemma collect_all cap : ∀ ps acc, length (acc ++ concat ps) < cap → collect cap acc ps = acc ++ concat ps.
Proof.
  induction ps as [|p ps IH]; intros acc H; cbn in *; [by rewrite app_nil_r|]. rewrite !length_app in H.
  destruct (Nat.leb_spec cap (length (acc ++ p))) as [Hle|Hlt]; [rewrite length_app in Hle; lia|].
  rewrite IH, <- app_assoc; [done|]. rewrite !length_app. lia.
Qed.
Lemma collect_enough cap : ∀ ps acc, length (collect cap acc ps) < cap → collect cap acc ps = acc ++ concat ps.
Proof.
  induction ps as [|p ps IH]; intros acc; cbn; [by rewrite app_nil_r|].
  destruct (Nat.leb_spec cap (length (acc ++ p))); [lia|]. intros Hl. by rewrite (IH _ Hl), <- app_assoc.
Qed.

(** A scan that the server ends, ends.  If the server's cursors lead back to zero,
    the loop stops within as many commands as there are pages, with every key of the
    pages it took, in order; it leaves pages only when it has as many keys as it was
    allowed, so that fewer keys than that are all the keys. *)
Theorem scan_ends ask pattern cap ps fuel :
  Pages ask pattern "0" ps → length ps ≤ fuel →
  ∃ keys, redis_scan_all ask fuel pattern cap = Some (Ok keys) ∧ keys = collect cap [] ps ∧
    (∃ rest, concat ps = keys ++ rest) ∧ (length keys < cap → keys = concat ps).
Proof.
  intros HP Hf. exists (collect cap [] ps).
  assert (Hrun : ∀ c acc, Pages ask pattern c ps → scan_loop ask fuel pattern cap c acc = Some (Ok (collect cap acc ps))).
  { clear HP. intros c acc HP. revert fuel Hf acc. induction HP as [c keys resp Ha Hs|c keys n resp ps Ha Hs Hn HP IH]; intros fuel Hf acc;
      (destruct fuel as [|fuel]; [cbn in Hf; lia|]); cbn [scan_loop collect]; unfold redis_cmd; rewrite Ha; cbn [mbind result_mbind]; rewrite Hs.
    - rewrite bool_decide_eq_true_2, orb_true_r by done. by destruct (_ <=? _).
    - rewrite bool_decide_eq_false_2, orb_false_r by done. destruct (cap <=? _); [done|]. apply IH. cbn in Hf. lia. }
  split; [by apply Hrun|]. split; [done|]. split.
  - assert (Hpre : ∀ acc, ∃ rest, acc ++ concat ps = collect cap acc ps ++ rest).
    { clear. induction ps as [|p ps IH]; intros acc; cbn; [by exists []|].
      destruct (cap <=? _); [exists (concat ps); by rewrite app_assoc|]. destruct (IH (acc ++ p)) as (rest & E). exists rest.
      by rewrite <- E, app_assoc. }
    apply (Hpre []).
  - intros Hl. by apply collect_enough in Hl.
Qed.
Definition ex_page (next : string) (keys : list string) : Resp := RArray [RBulk next; RArray (RBulk <$> keys)].
Definition ex_ask (words : list string) : result string Resp :=
  match words with
  | _ :: c :: _ => Ok (if decide (c = "0") then ex_page "17" ["user:1"; "user:2"] else ex_page "0" ["order:7"; "counter"])
  | _ => Err "ERR"
  end.
Lemma scan_ends_witness :
  Pages ex_ask "*" "0" [["user:1"; "user:2"]; ["order:7"; "counter"]] ∧
  ∃ keys, redis_scan_all ex_ask 2 "*" 100 = Some (Ok keys) ∧ keys = collect 100 [] [["user:1"; "user:2"]; ["order:7"; "counter"]].
Proof.
  assert (HP : Pages ex_ask "*" "0" [["user:1"; "user:2"]; ["order:7"; "counter"]]).
  { eapply next_page; [reflexivity..|discriminate|]. eapply last_page; reflexivity. }
  split; [exact HP|]. destruct (scan_ends ex_ask "*" 100 _ 2 HP (le_n _)) as (keys & E & Ek & _). by exists keys.
Defined.
(** A server whose cursor never comes back, with no keys, is asked forever. *)
Example scan_of_a_stuck_server fuel : redis_scan_all (λ _, Ok (ex_page "1" [])) fuel "*" 20 = None.
Proof.
  unfold redis_scan_all. generalize "0". assert (H : ∀ c, scan_loop (λ _, Ok (ex_page "1" [])) fuel "*" 20 c [] = None); [|exact H].
  induction fuel as [|fuel IH]; intros c; [done|]. cbn [scan_loop]. unfold redis_cmd. cbn -[scan_loop]. apply IH.
Qed.

(** ** Columns of documents *)

Fixpoint assoc_str (k : string) (l : list (string * string)) : option string :=
  match l with [] => None | (n, t) :: l => if decide (n = k) then Some t else assoc_str k l end.
Lemma note_field_get k v seen k' : assoc_str k' (note_field k v seen) =
  if decide (k = k') then Some (match assoc_str k' seen with
                                | Some t => if bool_decide (t = "null") && negb (is_null v) then bson_type_name v else t
                                | None => bson_type_name v end)
  else assoc_str k' seen.
Proof.
  induction seen as [|[n t] seen IH]; cbn; [by case_decide|].
  destruct (decide (n = k)) as [En|En]; cbn.
  - subst n. by destruct (decide (k = k')).
  - rewrite IH. destruct (decide (n = k')) as [En'|En']; [|done]. rewrite decide_False; [done|congruence].
Qed.
Lemma note_field_names k v seen : (note_field k v seen).*1 = if decide (k ∈ seen.*1) then seen.*1 else seen.*1 ++ [k].
Proof.
  induction seen as [|[n t] seen IH]; cbn; [by rewrite decide_False by (by intros ?%elem_of_nil)|].
  destruct (decide (n = k)) as [En|En]; cbn.
  - subst n. by rewrite decide_True by (by left).
  - rewrite IH. destruct (decide (k ∈ seen.*1)) as [H|H]; [by rewrite decide_True by (by right)|].
    rewrite decide_False; [done|]. intros [?|?]%elem_of_cons; congruence.
Qed.
Lemma sampled_fold docs : sampled_columns docs = foldl (λ seen kv, note_field kv.1 kv.2 seen) [] (concat docs).
Proof.
  unfold sampled_columns. generalize (@nil (string * string)). induction docs as [|d docs IH]; intros acc; cbn; [done|].
  by rewrite IH, foldl_app.
Qed.
Lemma null_name b : bson_type_name b = "null" ↔ is_null b = true.
Proof. by destruct b. Qed.

(** The first value of a field that is not null tells its type. *)
Definition type_seen (k : string) (fields : list (string * bson)) : string :=
  match filter (λ kv, kv.1 = k ∧ is_null kv.2 = false) fields with (_, v) :: _ => bson_type_name v | [] => "null" end.

(** The columns of a collection are the fields of its sample.  The sampled
    documents' field names are listed, each once, in the order in which they are first
    met, and with the type of the first value that is not null, or null if there is
    none. *)
Theorem columns_are_sampled docs :
  let fields := concat docs in
  NoDup (sampled_columns docs).*1 ∧
  (∀ k, k ∈ (sampled_columns docs).*1 ↔ k ∈ fields.*1) ∧
  (∀ pre k v post, fields = pre ++ (k, v) :: post → k ∉ pre.*1 → ∃ later, (sampled_columns docs).*1 = (sampled_columns [pre]).*1 ++ k :: later) ∧
  ∀ k, k ∈ fields.*1 → assoc_str k (sampled_columns docs) = Some (type_seen k fields).
Proof.
  cbv zeta. rewrite sampled_fold. generalize (concat docs). clear docs. intros fields.
  set (go := λ fields, foldl (λ seen (kv : string * bson), note_field kv.1 kv.2 seen) [] fields).
  assert (Hgrow : ∀ l acc, ∃ later, (foldl (λ seen (kv : string * bson), note_field kv.1 kv.2 seen) acc l).*1 = acc.*1 ++ later).
  { clear. induction l as [|[k v] l IH]; intros acc; cbn; [exists []; by rewrite app_nil_r|].
    destruct (IH (note_field k v acc)) as (later & ->). rewrite note_field_names.
    case_decide; [by eexists|]. exists (k :: later). by rewrite <- app_assoc. }
  assert (Hin : ∀ l, NoDup (go l).*1 ∧ (∀ k, k ∈ (go l).*1 ↔ k ∈ l.*1)).
  { intros l. subst go. cbn. induction l as [|[k v] l [IH1 IH2]] using rev_ind; [split; [constructor|done]|].
    rewrite foldl_app. cbn. rewrite note_field_names, fmap_app. cbn. case_decide as Hd.
    - split; [done|]. intros k'. rewrite elem_of_app, list_elem_of_singleton, IH2. rewrite IH2 in Hd. split; [by left|]. by intros [?| ->].
    - split; [|intros k'; by rewrite !elem_of_app, IH2]. apply NoDup_app. split_and!; [done| |apply NoDup_singleton].
      by intros x Hx ->%list_elem_of_singleton. }
  split_and!; [apply Hin|apply Hin| |].
  - intros pre k v post -> Hpre. rewrite sampled_fold. cbn [concat]. rewrite app_nil_r. change (go (pre ++ (k, v) :: post))
      with (foldl (λ seen (kv : string * bson), note_field kv.1 kv.2 seen) [] (pre ++ (k, v) :: post)). rewrite foldl_app. cbn [foldl fst snd].
    destruct (Hgrow post (note_field k v (foldl (λ seen kv, note_field kv.1 kv.2 seen) [] pre))) as (later & ->). rewrite note_field_names.
    rewrite decide_False by (intros Hx; by apply Hpre, (proj2 (Hin pre))). exists later. by rewrite <- app_assoc.
  - clear Hgrow Hin. intros k. subst go. cbn. induction fields as [|[n v] fields IH] using rev_ind; [by intros ?%elem_of_nil|].
    rewrite foldl_app, fmap_app, elem_of_app. cbn [foldl fst snd]. rewrite note_field_get. unfold type_seen. rewrite filter_app.
    assert (Hout : k ∉ fields.*1 → assoc_str k (foldl (λ seen kv, note_field kv.1 kv.2 seen) [] fields) = None).
    { clear. induction fields as [|[m w] fields IHf] using rev_ind; [done|]. rewrite fmap_app, not_elem_of_app. intros [H1 H2].
      rewrite foldl_app. cbn. rewrite note_field_get, decide_False; [by apply IHf|]. intros E. apply H2. subst m. by left. }
    destruct (decide (n = k)) as [->|Hne].
    + intros _. destruct (decide (k ∈ fields.*1)) as [Hk|Hk].
      * rewrite (IH Hk). unfold type_seen. destruct (filter _ fields) as [|[m w] rest] eqn:Ef; cbn.
        -- destruct (is_null v) eqn:Ev; cbn; [by rewrite decide_False by naive_solver|by rewrite decide_True].
        -- assert (Hw : is_null w = false).
           { assert (H : (m, w) ∈ (m, w) :: rest) by (by left). rewrite <- Ef in H. by apply list_elem_of_filter in H as [[_ H] _]. }
           rewrite bool_decide_eq_false_2; [done|]. intros E%null_name. congruence.
      * rewrite (Hout Hk). f_equal. rewrite (filter_none _ fields); cbn.
        -- destruct (is_null v) eqn:Ev; [rewrite decide_False by naive_solver; by apply null_name|by rewrite decide_True].
        -- apply Forall_forall. intros [m w] Hmw [Em _]. cbn in Em. subst m. apply Hk. by apply (list_elem_of_fmap_2 fst) in Hmw.
    + intros [Hk|Hk]; [|cbn in Hk; apply list_elem_of_singleton in Hk; congruence]. rewrite (IH Hk). unfold type_seen. f_equal.
      rewrite (filter_none _ [(n, v)]) by (apply Forall_singleton; cbn; naive_solver). by rewrite app_nil_r.
Qed.

(** ** Namespaces *)

(** What is listed is what the keys are in: in byte order, once each; and a key of a
    namespace other than the root begins with its name and a colon. *)
Lemma namespaces_of_keys keys :
  NoDup (namespaces keys) ∧ (∀ n, n ∈ namespaces keys ↔ ∃ k, k ∈ keys ∧ namespace_of k = n).
Proof.
  split; [apply BTree.wf_NoDup, BTree.wf_from_entries|]. unfold namespaces, BTree.from_entries. intros n.
  induction keys as [|k keys IH] using rev_ind.
  - cbn. split; [by intros ?%elem_of_nil|by intros (? & ?%elem_of_nil & _)].
  - rewrite fmap_app, foldl_app. cbn. rewrite BTree.insert_keys, IH. split.
    + intros [->|(k0 & H & E)]; [exists k|exists k0]; (split; [|done]); apply elem_of_app; [right; by left|by left].
    + intros (k0 & [H| ->%list_elem_of_singleton]%elem_of_app & E); [right; by exists k0|by left].
Qed.
Lemma namespace_prefix k : namespace_of k ≠ ROOT → ∃ r, k = namespace_of k +:+ ":" +:+ r.
Proof.
  unfold namespace_of, split_first. destruct (split_once ":" k) as [[a b]|] eqn:E.
  - intros H. apply split_once_spec in E as [-> _]. destruct (negb _ && _); [|done]. exists b. by rewrite str_app_cons, str_app_nil_l.
  - rewrite Nat.ltb_irrefl, andb_false_r. done.
Qed.
(** The root is sampled with every key, not with those that have no colon. *)
Example root_sampled_anywhere : sample_pattern ROOT = "*" ∧ namespaces ["user:1"; "counter"; "order:7"; "user:2"] = [ROOT; "order"; "user"].
Proof. vm_compute. split; reflexivity. Qed.
