(* ===== verification/Describe.v ===== *)
(** * The three metadata operations (crates/automation/src/metadata.rs:
    [list_databases], [list_tables], [describe_table])

    Family by family, what is asked of the engine and how the answer becomes a
    projection of [Metadata].  The SQL families record what they dial and send, as
    [DbBackends] does; MongoDB, Redis and TDengine answer commands. *)

From S2P Require Import Prelude StreamQuery.
From S2P Require Import RustStr Json TdengineLeg MongoLeg RedisLeg DbFamily Connections Cells DbBackends Metadata.
From stdpp Require Import strings list.

(** The engines other than SQL's: whether they open, and what they answer. *)
Record Server := {
  mongo_opens : bool; mongo_runs : string → Document → result string Document;
  redis_opens : Z → bool; redis_runs : Z → list string → result string Resp;
  td_runs : option string → string → option (Z * string * option json) }.

Section Describe.
(** [row_not_found]: the complaint of [fetch_one] when there is no row. *)
Context (engine : Engine) (trust_env : option string) (server : Server) (f64_to_i64 : Z → Z) (row_not_found : string).

(** Opening, with no word of the reason; and a statement. *)
Definition opened {E} (m : M E unit) : M MetadataError unit := map_err (λ _, meta_connect_failed) m.
Definition asked {A} (m : M string A) : M MetadataError A := map_err meta_query_failed m.
Definition decoded {A} (f : Row → option A) (rows : list Row) : M MetadataError (list A) :=
  match mapM f rows with Some xs => mret xs | None => throw (meta_query_failed engine.(column_decode)) end.
Definition ss_rows (conn : Connection) (password : string) (db : option string) (q : string) (bs : list string) : M MetadataError (list Row) :=
  _ ← opened (dial engine (tds_config trust_env conn password db)); asked (fetch engine false q bs).
Definition lift {A} (r : result MetadataError A) : M MetadataError A := λ l, (r, l).

(** ** Databases *)

Definition SQLSERVER_SYSTEM_DATABASES : list string := ["master"; "model"; "msdb"; "tempdb"].
Definition ch_hidden (d : string) : bool := eq_ignore_ascii_case d "information_schema" || bool_decide (d = "system_metadata").
Definition td_hidden (d : string) : bool := eq_ignore_ascii_case d "information_schema" || eq_ignore_ascii_case d "performance_schema".
Definition first_texts (rows : list (list json)) : list string := omap (λ r, head r ≫= Json.as_str) rows.
Definition mongo_run (db : string) (cmd : Document) : result MetadataError Document :=
  match server.(mongo_runs) db cmd with Ok r => Ok r | Err e => Err (meta_query_failed e) end.
Definition open_mongo_conn : result MetadataError unit := if server.(mongo_opens) then Ok tt else Err meta_connect_failed.
Definition open_redis_conn (db : Z) : result MetadataError unit := if server.(redis_opens) db then Ok tt else Err meta_connect_failed.
Definition td_query (db : option string) (q : string) : result MetadataError TdQueryOutcome :=
  match read_reply (server.(td_runs) db q) with Ok o => Ok o | Err e => Err (meta_from_td e) end.
Definition mongo_database (b : bson) : option string := match b with BDoc d => get_str d "name" | _ => None end.
Definition visible (hidden : string → bool) (l : list string) : list string := filter (λ d, hidden d = false) l.

Definition list_databases (family : Family) (conn : Connection) (password : string) : M MetadataError (list string) :=
  match family with
  | Sqlite => mret ["main"]
  | MySql p =>
      _ ← opened (open_mysql engine conn password); rows ← asked (fetch_all_by_mode engine p.(catalog_mode) "SHOW DATABASES" None);
      mret (visible (λ d, bool_decide (d ∈ p.(system_databases))) (mysql_names rows))
  | Postgres =>
      _ ← opened (open_pg_db engine conn password None);
      rows ← asked (fetch engine false "SELECT datname FROM pg_database WHERE datistemplate = false ORDER BY datname" []); decoded first_text rows
  | Clickhouse =>
      _ ← opened (open_mysql engine conn password); rows ← asked (fetch engine false "SHOW DATABASES" []);
      mret (visible ch_hidden (mysql_names rows))
  | SqlServer =>
      rows ← ss_rows conn password None "SELECT name FROM sys.databases ORDER BY name" [];
      mret (visible (λ d, bool_decide (d ∈ SQLSERVER_SYSTEM_DATABASES)) ((λ r, ss_string (cell r 0)) <$> rows))
  | Mongo => lift (_ ← open_mongo_conn; resp ← mongo_run "admin" [("listDatabases", BInt32 1)];
                   Ok (omap mongo_database (default [] (get_array resp "databases"))))
  | Redis => lift (_ ← open_redis_conn 0; Ok (redis_databases (server.(redis_runs) 0%Z)))
  | Tdengine => lift (o ← td_query None "SHOW DATABASES"; Ok (visible td_hidden (first_texts o.(rows))))
  end.

(** ** Tables *)

Definition table_of (name kind : string) (comment : option string) (estimate : option Z) : TableSummary :=
  {| ts_name := name; ts_schema := None; ts_kind := kind; ts_comment := comment; ts_row_estimate := estimate |}.
Definition not_negative (n : option Z) : option Z := n ≫= λ n, if decide (0 ≤ n)%Z then Some n else None.
Definition mysql_table (r : Row) : TableSummary :=
  table_of (decode_mysql_string (cell r 0)) (if bool_decide (decode_mysql_string (cell r 1) = "VIEW") then "view" else "table")
    (non_empty (decode_mysql_string (cell r 2))) (not_negative (mysql_row_count f64_to_i64 (cell r 3))).
Definition ch_table (r : Row) : TableSummary :=
  table_of (decode_mysql_string (cell r 0)) (if bool_decide (decode_mysql_string (cell r 1) = "View") then "view" else "table")
    (non_empty (decode_mysql_string (cell r 2))) (mysql_row_count f64_to_i64 (cell r 3)).
Definition pg_tables_sql : string :=
  "SELECT n.nspname,
                        c.relname,
                        CASE c.relkind WHEN 'v' THEN 'view' WHEN 'm' THEN 'view' ELSE 'table' END,
                        obj_description(c.oid, 'pg_class'),
                        c.reltuples::bigint
                 FROM pg_class c
                 JOIN pg_namespace n ON n.oid = c.relnamespace
                 WHERE c.relkind IN ('r', 'p', 'v', 'm')
                   AND n.nspname <> 'information_schema'
                   AND n.nspname !~ '^pg_'
                 ORDER BY n.nspname, c.relname".
Definition pg_table (r : Row) : TableSummary :=
  let '(name, schema) := pg_display_name (default "" (text_of (cell r 0))) (default "" (text_of (cell r 1))) in
  {| ts_name := name; ts_schema := schema; ts_kind := default "table" (text_of (cell r 2));
     ts_comment := flat (c_string (cell r 3)); ts_row_estimate := not_negative (i64_of (cell r 4)) |}.
Definition sqlite_table (r : Row) : option TableSummary :=
  n ← text_of (cell r 0); t ← text_of (cell r 1); Some (table_of n t None None).
Definition ss_tables_sql : string :=
  "SELECT t.name AS name, 'table' AS kind,
                        CAST(ep.value AS NVARCHAR(4000)) AS comment,
                        (SELECT SUM(p.rows) FROM sys.partitions p
                         WHERE p.object_id = t.object_id AND p.index_id IN (0, 1)) AS row_estimate
                 FROM sys.tables t
                 LEFT JOIN sys.extended_properties ep
                   ON ep.class = 1 AND ep.major_id = t.object_id
                  AND ep.minor_id = 0 AND ep.name = 'MS_Description'
                 WHERE t.schema_id = SCHEMA_ID('dbo')
                 UNION ALL
                 SELECT v.name, 'view', CAST(ep.value AS NVARCHAR(4000)), NULL
                 FROM sys.views v
                 LEFT JOIN sys.extended_properties ep
                   ON ep.class = 1 AND ep.major_id = v.object_id
                  AND ep.minor_id = 0 AND ep.name = 'MS_Description'
                 WHERE v.schema_id = SCHEMA_ID('dbo')
                 ORDER BY name".
Definition ss_table (r : Row) : TableSummary :=
  table_of (ss_string (cell r 0)) (ss_string (cell r 1)) (ss_opt_string (cell r 2)) (as_i64_value (decode_cell_tds (cell r 3))).
Definition mongo_table (d : Document) : TableSummary :=
  table_of (default "" (get_str d "name")) (if bool_decide (get_str d "type" = Some "view") then "view" else "table") None None.
Definition named_table (n : string) : TableSummary := table_of n "table" None None.
Definition redis_tables (fuel : nat) (i : Z) : option (result MetadataError (list TableSummary)) :=
  match open_redis_conn i with
  | Err e => Some (Err e)
  | Ok _ => (λ r, keys ← r; Ok (named_table <$> namespaces keys)) <$> redis_scan_all (server.(redis_runs) i) fuel "*" MAX_KEYS
  end.

(** None when [fuel] pages of a scan were not enough. *)
Definition Scanned (A : Type) : Type := Log → option (result MetadataError A * Log).
Definition done_by {A} (m : M MetadataError A) : Scanned A := λ l, Some (m l).
Definition scanned {A} (r : option (result MetadataError A)) : Scanned A := λ l, (λ r, (r, l)) <$> r.

Definition list_tables (fuel : nat) (family : Family) (conn : Connection) (password : string) (db : option string)
    : Scanned (list TableSummary) :=
  let db_name := or_else db conn.(default_database) in
  match family, db_name with
  | MySql p, Some d => done_by $
      _ ← opened (open_mysql_db engine conn password (Some d));
      rows ← asked (fetch_all_by_mode engine p.(catalog_mode) (tables_sql p d).1 None); mret (mysql_table <$> rows)
  | Postgres, _ => done_by $
      _ ← opened (open_pg_db engine conn password db_name); rows ← asked (fetch engine false pg_tables_sql []); mret (pg_table <$> rows)
  | Sqlite, _ => done_by $
      _ ← opened (open_sqlite engine conn);
      rows ← asked (fetch engine false "SELECT name, type FROM sqlite_master
                 WHERE type IN ('table', 'view') AND name NOT LIKE 'sqlite_%'
                 ORDER BY name" []); decoded sqlite_table rows
  | Clickhouse, _ =>
      let d := default "default" db_name in
      done_by $ _ ← opened (open_mysql_db engine conn password (Some d)); rows ← asked (fetch engine false (ch_tables_sql d) []); mret (ch_table <$> rows)
  | SqlServer, Some d => done_by $ rows ← ss_rows conn password (Some d) ss_tables_sql []; mret (ss_table <$> rows)
  | Mongo, Some d => done_by $ lift (_ ← open_mongo_conn; resp ← mongo_run d [("listCollections", BInt32 1)]; Ok (mongo_table <$> mongo_batch resp))
  | Redis, _ => scanned (redis_tables fuel (db_index conn.(default_database) db_name))
  | Tdengine, Some d => done_by $
      lift (o ← td_query (Some d) (if td_hidden d then "SHOW TABLES" else "SHOW STABLES");
            Ok (named_table <$> filter (λ n, n ≠ "") (first_texts o.(rows))))
  | _, None => done_by (throw no_database)
  end.

(** ** A table *)

Definition missing_table (table db : string) : MetadataError :=
  meta_not_found ("table '" +:+ table +:+ "' (database '" +:+ db +:+ "')").
Definition bare (table : string) (columns : list ColumnDetail) (pk : list string) (indexes : list IndexDetail) : TableDescription :=
  {| td_table := table; td_comment := None; td_columns := columns; td_primary_key := pk; td_indexes := indexes; td_foreign_keys := [] |}.

(** TDengine: the note of a column tells its role. *)
Definition td_text (row : list json) (i : nat) : string := default "" (row !! i ≫= Json.as_str).
Definition td_column (row : list json) : ColumnDetail :=
  {| cd_name := td_text row 0; cd_data_type := td_text row 1; cd_nullable := negb (bool_decide (td_text row 3 = "PRIMARY KEY"));
     cd_default_value := None; cd_comment := if bool_decide (td_text row 3 = "TAG") then Some "TAG" else None |}.
Definition td_primary (rows : list (list json)) : list string := (λ r, td_text r 0) <$> filter (λ r, td_text r 3 = "PRIMARY KEY") rows.
Definition describe_tdengine (db : option string) (table : string) : result MetadataError TableDescription :=
  match db with
  | None => Err no_database
  | Some d =>
      o ← td_query (Some d) ("DESCRIBE " +:+ quote_ident_td table);
      match o.(rows) with
      | [] => Err (missing_table table d)
      | rs => Ok (bare table (td_column <$> rs) (td_primary rs) [])
      end
  end.

(** The MySQL family: four statements of the catalog. *)
Definition mysql_detail (r : Row) : ColumnDetail :=
  {| cd_name := decode_mysql_string (cell r 0); cd_data_type := decode_mysql_string (cell r 1);
     cd_nullable := bool_decide (decode_mysql_string (cell r 2) = "YES");
     cd_default_value := match c_bytes (cell r 3) with Some (Some b) => Some (from_utf8_lossy b) | _ => None end;
     cd_comment := non_empty (decode_mysql_string (cell r 4)) |}.
Definition mysql_primary (rows : list Row) : list string :=
  (λ r, decode_mysql_string (cell r 0)) <$> filter (λ r, default 0%Z (i64_of (cell r 5)) = 1%Z) rows.
Definition mysql_index_row (r : Row) : IndexRow :=
  {| ir_name := decode_mysql_string (cell r 0); ir_unique := (default 1 (i64_of (cell r 1)) =? 0)%Z; ir_column := decode_mysql_string (cell r 2) |}.
Definition mysql_fk_row (r : Row) : FkRow :=
  {| fr_name := non_empty (decode_mysql_string (cell r 0)); fr_column := decode_mysql_string (cell r 1);
     fr_ref_table := decode_mysql_string (cell r 2); fr_ref_column := decode_mysql_string (cell r 3) |}.
Definition by_mode (p : Profile) (q : string * option string) : M MetadataError (list Row) :=
  asked (fetch_all_by_mode engine p.(catalog_mode) q.1 q.2).
Definition describe_mysql (p : Profile) (conn : Connection) (password : string) (db : option string) (table : string)
    : M MetadataError TableDescription :=
  match db with
  | None => throw no_database
  | Some d =>
      _ ← opened (open_mysql_db engine conn password (Some d));
      meta ← by_mode p (meta_sql p d table);
      cols ← by_mode p (col_sql p d table);
      match cols with
      | [] => throw (missing_table table d)
      | _ =>
          idx ← by_mode p (idx_sql p d table);
          fks ← by_mode p (fk_sql p d table);
          mret {| td_table := table; td_comment := head meta ≫= (λ r, non_empty (decode_mysql_string (cell r 0)));
                  td_columns := mysql_detail <$> cols; td_primary_key := mysql_primary cols;
                  td_indexes := group_indexes (mysql_index_row <$> idx); td_foreign_keys := group_fks (mysql_fk_row <$> fks) |}
      end
  end.

(** PostgreSQL: five statements; the relation is bound to each. *)
Definition bool_of (c : Cell) : option bool := match c.(c_bool) with Some (Some b) => Some b | _ => None end.
Definition pg_detail (r : Row) : option ColumnDetail :=
  n ← text_of (named r "name"); t ← text_of (named r "col_type"); nu ← bool_of (named r "nullable");
  d ← c_string (named r "col_default"); c ← c_string (named r "comment");
  Some {| cd_name := n; cd_data_type := t; cd_nullable := nu; cd_default_value := d; cd_comment := c |}.
Definition pg_index (r : Row) : option IndexDetail :=
  n ← text_of (named r "name"); u ← bool_of (named r "unique"); c ← c_string (named r "cols");
  Some {| ix_name := n; ix_columns := split_csv c; ix_unique := u |}.
Definition pg_fk (r : Row) : option ForeignKeyDetail :=
  n ← text_of (named r "name"); c ← c_string (named r "cols"); t ← text_of (named r "ref_table"); rc ← c_string (named r "ref_cols");
  Some {| fk_name := Some n; fk_columns := split_csv c; fk_ref_table := t; fk_ref_columns := split_csv rc |}.
Definition pg_detail_sql (rel : string) : string :=
  "SELECT a.attname AS name,
                format_type(a.atttypid, a.atttypmod) AS col_type,
                NOT a.attnotnull AS nullable,
                pg_get_expr(ad.adbin, ad.adrelid) AS col_default,
                col_description(a.attrelid, a.attnum) AS comment
         FROM pg_attribute a
         LEFT JOIN pg_attrdef ad ON ad.adrelid = a.attrelid AND ad.adnum = a.attnum
         WHERE a.attrelid = " +:+ rel +:+ " AND a.attnum > 0 AND NOT a.attisdropped
         ORDER BY a.attnum".
Definition pg_primary_sql (rel : string) : string :=
  "SELECT a.attname
         FROM pg_index i
         JOIN LATERAL unnest(i.indkey) WITH ORDINALITY AS k(attnum, ord) ON true
         JOIN pg_attribute a ON a.attrelid = i.indrelid AND a.attnum = k.attnum
         WHERE i.indrelid = " +:+ rel +:+ " AND i.indisprimary
         ORDER BY k.ord".
Definition pg_index_sql (rel : string) : string :=
  "SELECT ic.relname AS name, i.indisunique AS unique,
                (SELECT string_agg(a.attname, ',' ORDER BY t.ord)
                 FROM unnest(i.indkey) WITH ORDINALITY AS t(attnum, ord)
                 JOIN pg_attribute a ON a.attrelid = i.indrelid AND a.attnum = t.attnum) AS cols
         FROM pg_index i
         JOIN pg_class ic ON ic.oid = i.indexrelid
         WHERE i.indrelid = " +:+ rel +:+ "
         ORDER BY ic.relname".
Definition pg_fk_sql (rel : string) : string :=
  "SELECT con.conname AS name,
                (SELECT string_agg(a.attname, ',' ORDER BY t.ord)
                 FROM unnest(con.conkey) WITH ORDINALITY AS t(attnum, ord)
                 JOIN pg_attribute a ON a.attrelid = con.conrelid AND a.attnum = t.attnum) AS cols,
                conf.relname AS ref_table,
                (SELECT string_agg(a.attname, ',' ORDER BY t.ord)
                 FROM unnest(con.confkey) WITH ORDINALITY AS t(attnum, ord)
                 JOIN pg_attribute a ON a.attrelid = con.confrelid AND a.attnum = t.attnum) AS ref_cols
         FROM pg_constraint con
         JOIN pg_class conf ON conf.oid = con.confrelid
         WHERE con.contype = 'f' AND con.conrelid = " +:+ rel +:+ "
         ORDER BY con.conname".
Definition pg_comment_sql (rel : string) : string := "SELECT obj_description(" +:+ rel +:+ ", 'pg_class')".
Definition pg_missing (rel : PgRelation) (db : option string) : MetadataError :=
  let db_label := default "postgres" db in
  meta_not_found (match rel_schema rel with
    | Some schema => "table '" +:+ object_name rel +:+ "' (schema '" +:+ schema +:+ "', database '" +:+ db_label +:+ "')"
    | None => "table '" +:+ object_name rel +:+ "' (database '" +:+ db_label +:+ "', schema resolved via search_path)"
    end).
(** [fetch_one] and its first column. *)
Definition scalar (rows : list Row) : M MetadataError (option string) :=
  match rows with
  | [] => throw (meta_query_failed row_not_found)
  | r :: _ => match c_string (cell r 0) with Some o => mret o | None => throw (meta_query_failed engine.(column_decode)) end
  end.
Definition describe_pg (conn : Connection) (password : string) (db : option string) (table : string) : M MetadataError TableDescription :=
  _ ← opened (open_pg_db engine conn password db);
  let rel := parse table in
  let run := λ q, asked (fetch engine false (q rel.(regclass)) rel.(params)) in
  columns ← run pg_detail_sql ≫= decoded pg_detail;
  match columns with
  | [] => throw (pg_missing rel db)
  | _ =>
      pk ← run pg_primary_sql ≫= decoded first_text;
      indexes ← run pg_index_sql ≫= decoded pg_index;
      fks ← run pg_fk_sql ≫= decoded pg_fk;
      comment ← run pg_comment_sql ≫= scalar;
      mret {| td_table := table; td_comment := comment; td_columns := columns; td_primary_key := pk; td_indexes := indexes; td_foreign_keys := fks |}
  end.

(** SQLite: the pragmas, one more for every index. *)
Definition text_at (r : Row) (n : string) : string := default "" (text_of (named r n)).
Definition int_at (r : Row) (n : string) : Z := default 0%Z (i64_of (named r n)).
Definition sqlite_detail (r : Row) : ColumnDetail :=
  {| cd_name := text_at r "name"; cd_data_type := default "BLOB" (non_empty (text_at r "type"));
     cd_nullable := (int_at r "notnull" =? 0)%Z; cd_default_value := flat (c_string (named r "dflt_value")); cd_comment := None |}.
Definition sqlite_primary (rows : list Row) : list string :=
  (sort_by_key fst ((λ r, (int_at r "pk", text_at r "name")) <$> filter (λ r, 0 < int_at r "pk")%Z rows)).*2.
Definition pragma (name table : string) : string := "PRAGMA " +:+ name +:+ "(" +:+ quote_ident_sqlite table +:+ ")".
Definition run_pragma (name table : string) : M MetadataError (list Row) := asked (fetch engine false (pragma name table) []).
Fixpoint sqlite_indexes (rows : list Row) : M MetadataError (list IndexDetail) :=
  match rows with
  | [] => mret []
  | r :: rows =>
      let n := text_at r "name" in
      if is_empty n || starts_with "sqlite_autoindex" n then sqlite_indexes rows else
      info ← run_pragma "index_info" n;
      rest ← sqlite_indexes rows;
      mret ({| ix_name := n; ix_columns := omap (λ i, text_of (named i "name") ≫= non_empty) info; ix_unique := (int_at r "unique" =? 1)%Z |} :: rest)
  end.
Definition pragma_fk (r : Row) : PragmaFk :=
  {| pf_id := int_at r "id"; pf_seq := int_at r "seq"; pf_table := text_at r "table"; pf_from := text_at r "from"; pf_to := text_at r "to" |}.
Definition describe_sqlite (conn : Connection) (table : string) : M MetadataError TableDescription :=
  _ ← opened (open_sqlite engine conn);
  rows ← run_pragma "table_info" table;
  match rows with
  | [] => throw (meta_not_found ("table '" +:+ table +:+ "'"))
  | _ =>
      indexes ← run_pragma "index_list" table ≫= sqlite_indexes;
      fks ← run_pragma "foreign_key_list" table;
      mret {| td_table := table; td_comment := None; td_columns := sqlite_detail <$> rows; td_primary_key := sqlite_primary rows;
              td_indexes := indexes; td_foreign_keys := group_pragma (pragma_fk <$> fks) |}
  end.

(** ClickHouse: columns only. *)
Definition ch_default (kind expr : string) : option string :=
  if is_empty expr then None else if bool_decide (kind = "DEFAULT") || is_empty kind then Some expr else Some (kind +:+ " " +:+ expr).
Definition ch_detail (r : Row) : ColumnDetail :=
  let t := decode_mysql_string (cell r 1) in
  {| cd_name := decode_mysql_string (cell r 0); cd_data_type := t; cd_nullable := starts_with "Nullable(" t;
     cd_default_value := ch_default (decode_mysql_string (cell r 2)) (decode_mysql_string (cell r 3));
     cd_comment := non_empty (decode_mysql_string (cell r 4)) |}.
Definition describe_clickhouse (conn : Connection) (password : string) (db : option string) (table : string) : M MetadataError TableDescription :=
  let d := default "default" db in
  _ ← opened (open_mysql_db engine conn password (Some d));
  rows ← asked (fetch engine false (ch_columns_sql d table) []);
  match rows with [] => throw (missing_table table d) | _ => mret (bare table (ch_detail <$> rows) [] []) end.

(** SQL Server: a connection for each of the five statements. *)
Definition ss_detail_sql : string :=
  "SELECT c.name, tp.name AS type_name, c.max_length, c.precision, c.scale,
                CASE WHEN c.is_nullable = 1 THEN 1 ELSE 0 END AS is_nullable,
                OBJECT_DEFINITION(c.default_object_id) AS default_expr,
                CAST(ep.value AS NVARCHAR(4000)) AS comment
         FROM sys.columns c
         JOIN sys.types tp ON tp.user_type_id = c.user_type_id
         LEFT JOIN sys.extended_properties ep
           ON ep.class = 1 AND ep.major_id = c.object_id
          AND ep.minor_id = c.column_id AND ep.name = 'MS_Description'
         WHERE c.object_id = OBJECT_ID(@P1)
         ORDER BY c.column_id".
Definition ss_primary_sql : string :=
  "SELECT c.name
         FROM sys.indexes i
         JOIN sys.index_columns ic
           ON ic.object_id = i.object_id AND ic.index_id = i.index_id
         JOIN sys.columns c
           ON c.object_id = ic.object_id AND c.column_id = ic.column_id
         WHERE i.object_id = OBJECT_ID(@P1) AND i.is_primary_key = 1
         ORDER BY ic.key_ordinal".
Definition ss_index_sql : string :=
  "SELECT i.name AS index_name,
                CASE WHEN i.is_unique = 1 THEN 1 ELSE 0 END AS is_unique,
                c.name AS column_name
         FROM sys.indexes i
         JOIN sys.index_columns ic
           ON ic.object_id = i.object_id AND ic.index_id = i.index_id
          AND ic.is_included_column = 0
         JOIN sys.columns c
           ON c.object_id = ic.object_id AND c.column_id = ic.column_id
         WHERE i.object_id = OBJECT_ID(@P1) AND i.name IS NOT NULL
         ORDER BY i.name, ic.key_ordinal".
Definition ss_fk_sql : string :=
  "SELECT fk.name AS fk_name, pc.name AS column_name,
                OBJECT_NAME(fk.referenced_object_id) AS ref_table, rc.name AS ref_column
         FROM sys.foreign_keys fk
         JOIN sys.foreign_key_columns fkc ON fkc.constraint_object_id = fk.object_id
         JOIN sys.columns pc
           ON pc.object_id = fkc.parent_object_id AND pc.column_id = fkc.parent_column_id
         JOIN sys.columns rc
           ON rc.object_id = fkc.referenced_object_id AND rc.column_id = fkc.referenced_column_id
         WHERE fk.parent_object_id = OBJECT_ID(@P1)
         ORDER BY fk.name, fkc.constraint_column_id".
Definition ss_comment_sql : string :=
  "SELECT CAST(ep.value AS NVARCHAR(4000)) AS comment
         FROM sys.extended_properties ep
         WHERE ep.class = 1 AND ep.major_id = OBJECT_ID(@P1)
           AND ep.minor_id = 0 AND ep.name = 'MS_Description'".
Definition ss_detail (r : Row) : ColumnDetail :=
  {| cd_name := ss_string (cell r 0);
     cd_data_type := format_sqlserver_type (ss_string (cell r 1)) (as_i16 (ss_i64 (cell r 2))) (as_u8 (ss_i64 (cell r 3))) (as_u8 (ss_i64 (cell r 4)));
     cd_nullable := (ss_i64 (cell r 5) =? 1)%Z; cd_default_value := strip_default_parens_opt (decode_cell_tds (cell r 6));
     cd_comment := ss_opt_string (cell r 7) |}.
Definition ss_index_row (r : Row) : IndexRow :=
  {| ir_name := ss_string (cell r 0); ir_unique := (ss_i64 (cell r 1) =? 1)%Z; ir_column := ss_string (cell r 2) |}.
Definition ss_fk_row (r : Row) : FkRow :=
  {| fr_name := non_empty (ss_string (cell r 0)); fr_column := ss_string (cell r 1);
     fr_ref_table := ss_string (cell r 2); fr_ref_column := ss_string (cell r 3) |}.
Definition describe_sqlserver (conn : Connection) (password : string) (db : option string) (table : string) : M MetadataError TableDescription :=
  let db_name := or_else db conn.(default_database) in
  let run := λ q, ss_rows conn password db_name q [table] in
  cols ← run ss_detail_sql;
  match cols with
  | [] => throw (meta_not_found ("table '" +:+ table +:+ "' (schema 'dbo', database '" +:+ default "master" db_name +:+ "')"))
  | _ =>
      pk ← run ss_primary_sql;
      idx ← run ss_index_sql;
      fks ← run ss_fk_sql;
      comment ← run ss_comment_sql;
      mret {| td_table := table; td_comment := head comment ≫= (λ r, ss_opt_string (cell r 0)); td_columns := ss_detail <$> cols;
              td_primary_key := (λ r, ss_string (cell r 0)) <$> pk; td_indexes := group_indexes (ss_index_row <$> idx);
              td_foreign_keys := group_fks (ss_fk_row <$> fks) |}
  end.

(** MongoDB: is it there, what do its documents hold, which indexes has it. *)
Definition describe_mongo (conn : Connection) (db : option string) (table : string) : result MetadataError TableDescription :=
  let d := resolve_db conn.(default_database) db in
  _ ← open_mongo_conn;
  there ← mongo_run d [("listCollections", BInt32 1); ("filter", BDoc [("name", BString table)]); ("nameOnly", BBool true)];
  match mongo_batch there with
  | [] => Err (meta_not_found ("collection '" +:+ table +:+ "' (database '" +:+ d +:+ "')"))
  | _ =>
      sample ← mongo_run d [("find", BString table); ("limit", BInt32 20)];
      let indexes := match mongo_run d [("listIndexes", BString table)] with Ok resp => mongo_batch resp | Err _ => [] end in
      Ok (bare table (plain_column <$> sampled_columns (mongo_batch sample)) [] (omap mongo_index indexes))
  end.

(** Redis: the type of the first key of the namespace. *)
Definition describe_redis (fuel : nat) (conn : Connection) (db : option string) (table : string) : option (result MetadataError TableDescription) :=
  let i := db_index conn.(default_database) db in
  match open_redis_conn i with
  | Err e => Some (Err e)
  | Ok _ =>
      (λ r, keys ← r;
            match keys with
            | [] => Err (meta_not_found ("namespace '" +:+ table +:+ "' (database '" +:+ z_string i +:+ "')"))
            | k :: _ => t ← redis_cmd (server.(redis_runs) i) ["TYPE"; k];
                        Ok (bare table (plain_column <$> field_specs (key_type t)) [] [])
            end) <$> redis_scan_all (server.(redis_runs) i) fuel (sample_pattern table) SAMPLE_KEYS
  end.

Definition describe_table (fuel : nat) (family : Family) (conn : Connection) (password : string) (db : option string) (table : string)
    : Scanned TableDescription :=
  let db_name := or_else db conn.(default_database) in
  match family with
  | MySql p => done_by (describe_mysql p conn password db_name table)
  | Postgres => done_by (describe_pg conn password db_name table)
  | Sqlite => done_by (describe_sqlite conn table)
  | Clickhouse => done_by (describe_clickhouse conn password db_name table)
  | SqlServer => done_by (describe_sqlserver conn password db_name table)
  | Mongo => done_by (lift (describe_mongo conn db_name table))
  | Redis => scanned (describe_redis fuel conn db_name table)
  | Tdengine => done_by (lift (describe_tdengine db_name table))
  end.
End Describe.

(** ** Metadata only reads, and only from its own database *)

(** Every event of an operation, at any point of a log. *)
Definition Does {E A} (P : Event → Prop) (m : M E A) : Prop := ∀ l, ∃ ev, (m l).2 = l ++ ev ∧ Forall P ev.
(** Its errors. *)
Definition Errs {E A} (P : E → Prop) (m : M E A) : Prop := ∀ l e, (m l).1 = Err e → P e.
Lemma does_ret {E A} P (a : A) : Does P (mret a : M E A).
Proof. intros l. exists []. split; [by rewrite app_nil_r|constructor]. Qed.
Lemma does_throw {E A} P (e : E) : Does P (throw e : M E A).
Proof. intros l. exists []. split; [by rewrite app_nil_r|constructor]. Qed.
Lemma does_bind {E A B} P (m : M E A) (f : A → M E B) : Does P m → (∀ a, Does P (f a)) → Does P (m ≫= f).
Proof.
  intros Hm Hf l. destruct (Hm l) as (ev & E1 & H1). unfold mbind, m_bind. destruct (m l) as [[a|e] l'] eqn:Em; cbn in E1; subst l'; [|by exists ev].
  destruct (Hf a (l ++ ev)) as (ev2 & -> & H2). exists (ev ++ ev2). rewrite app_assoc. split; [done|]. by apply Forall_app.
Qed.
Lemma does_map_err {E F A} P (f : E → F) (m : M E A) : Does P m → Does P (map_err f m).
Proof. intros Hm l. destruct (Hm l) as (ev & E1 & H1). exists ev. unfold map_err. by destruct (m l) as [[a|e] l']. Qed.
Lemma does_sends {E A} (Q : Statement → Prop) P (m : M E A) : Sends Q m → (∀ s, Q s → P (Send s)) → Does P m.
Proof. intros H HP l. destruct (H l) as (ss & E1 & Hss). exists (Send <$> ss). split; [done|]. apply Forall_fmap. by eapply Forall_impl. Qed.
Lemma does_opens {E A} (Q : Statement → Prop) (T : Target → Prop) P (m : M E A) :
  Opens T Q m → (∀ t, T t → P (Dial t)) → (∀ s, Q s → P (Send s)) → Does P m.
Proof.
  intros H HT HQ l. destruct (H l) as [E1|(t & ss & E1 & Ht & Hss)]; [exists []; by rewrite app_nil_r|]. exists (Dial t :: (Send <$> ss)).
  split; [done|]. constructor; [by apply HT|]. apply Forall_fmap. by eapply Forall_impl.
Qed.
Lemma errs_ret {E A} P (a : A) : Errs P (mret a : M E A).
Proof. done. Qed.
Lemma errs_throw {E A} (P : E → Prop) (e : E) : P e → Errs P (throw e : M E A).
Proof. by intros H l e' [= <-]. Qed.
Lemma errs_bind {E A B} P (m : M E A) (f : A → M E B) : Errs P m → (∀ a, Errs P (f a)) → Errs P (m ≫= f).
Proof.
  intros Hm Hf l e. specialize (Hm l). unfold mbind, m_bind. destruct (m l) as [[a|e'] l']; cbn in *; [apply Hf|]. intros [= <-]. by apply Hm.
Qed.
Lemma errs_map_err {E F A} (P : F → Prop) (f : E → F) (m : M E A) : (∀ e, P (f e)) → Errs P (map_err f m).
Proof. intros H l e. unfold map_err. destruct (m l) as [[a|e'] l']; cbn; [done|]. intros [= <-]. apply H. Qed.

Create HintDb meta discriminated.
#[export] Hint Resolve does_ret does_throw does_bind errs_ret errs_throw errs_bind : meta.

(** The forms of an error: the engine's words only from a statement that was sent. *)
Definition told (e : MetadataError) : Prop :=
  e = meta_connect_failed ∨ e.1 = "QUERY_FAILED" ∨ e.1 = "NOT_FOUND" ∨ e = no_database.
Lemma told_connect : told meta_connect_failed.
Proof. by left. Qed.
Lemma told_query q : told (meta_query_failed q).
Proof. right. by left. Qed.
Lemma told_not_found q : told (meta_not_found q).
Proof. right. right. by left. Qed.
Lemma told_missing t d : told (missing_table t d).
Proof. apply told_not_found. Qed.
Lemma told_database : told no_database.
Proof. right. right. by right. Qed.
Lemma told_td e : told (meta_from_td e).
Proof. destruct e; cbn; unfold told; naive_solver. Qed.
#[export] Hint Resolve told_connect told_query told_not_found told_missing told_database told_td : meta.

Section Describe_theorems.
Context (engine : Engine) (trust_env : option string) (server : Server) (f64_to_i64 : Z → Z) (row_not_found : string).
Context (c : Connection) (pw : string).

(** What an event may be: the row's own database dialled, a reading statement. *)
Definition in_bounds (e : Event) : Prop := match e with Dial t => own_target c pw t | Send s => browses c s end.
Definition Good {A} (m : M MetadataError A) : Prop := Does in_bounds m ∧ Errs told m.
Lemma good_ret {A} (a : A) : Good (mret a).
Proof. split; eauto with meta. Qed.
Lemma good_throw {A} e : told e → Good (throw e : M MetadataError A).
Proof. split; eauto with meta. Qed.
Lemma good_bind {A B} (m : M MetadataError A) (f : A → M MetadataError B) : Good m → (∀ a, Good (f a)) → Good (m ≫= f).
Proof. intros [H1 H2] H. split; [apply does_bind|apply errs_bind]; try done; apply H. Qed.
Lemma good_asked {A} (m : M string A) : Sends (browses c) m → Good (asked m).
Proof. intros H. split; [|apply errs_map_err, told_query]. apply does_map_err. by eapply does_sends. Qed.
Lemma good_opened {E} (m : M E unit) : Dials c pw (browses c) m → Good (opened m).
Proof. intros [H _]. split; [|apply errs_map_err; intros _; apply told_connect]. apply does_map_err. by eapply does_opens. Qed.
Lemma good_decoded {A} (f : Row → option A) rows : Good (decoded engine f rows).
Proof. unfold decoded. destruct (mapM f rows); [apply good_ret|apply good_throw, told_query]. Qed.
Lemma good_lift {A} (r : result MetadataError A) : (∀ e, r = Err e → told e) → Good (lift r).
Proof. intros H. split; [intros l; exists []; by rewrite app_nil_r|]. intros l e E1. by apply H. Qed.
Definition reading (q : string) : Prop := (starts_with "SELECT " q || starts_with "SHOW " q || starts_with "PRAGMA " q) = true.
Lemma good_fetch q bs : reading q → Good (asked (fetch engine false q bs)).
Proof. intros H. apply good_asked, sends_fetch. intros r. by right. Qed.
Lemma good_fetch_by_mode mode q b : reading q → Good (asked (fetch_all_by_mode engine mode q b)).
Proof. intros H. apply good_asked, sends_fetch_by_mode. intros r bs _. by right. Qed.
Lemma good_ss_rows db q bs : starts_with "SELECT " q = true → Good (ss_rows engine trust_env c pw db q bs).
Proof. intros H. apply good_bind; [apply good_opened, dials_tds|]. intros _. apply good_fetch. unfold reading. by rewrite H. Qed.
Lemma good_mysql : Good (opened (open_mysql engine c pw)).
Proof. apply good_opened, dials_mysql_at. by left. Qed.
Lemma good_mysql_db db : Good (opened (open_mysql_db engine c pw db)).
Proof. apply good_opened, dials_mysql_at. by left. Qed.
Lemma good_pg db : Good (opened (open_pg_db engine c pw db)).
Proof. apply good_opened, dials_pg_db. Qed.
Lemma good_sqlite : Good (opened (open_sqlite engine c)).
Proof. apply good_opened, dials_sqlite. Qed.
Lemma reading_more a b : reading a → reading (a +:+ b).
Proof. unfold reading. rewrite !orb_true_iff. intros [[H|H]|H]; [left; left|left; right|right]; by apply starts_with_more. Qed.
Hint Resolve good_ret good_throw good_decoded good_mysql good_mysql_db good_pg good_sqlite : meta.

(** MongoDB's, Redis's and TDengine's errors. *)
Lemma td_query_told db q e : td_query server db q = Err e → told e.
Proof. unfold td_query. destruct (read_reply _) as [|te]; [done|]. intros [= <-]. apply told_td. Qed.
Lemma mongo_run_told db cmd e : mongo_run server db cmd = Err e → told e.
Proof. unfold mongo_run. destruct (mongo_runs server db cmd); [done|]. intros [= <-]. apply told_query. Qed.
Lemma open_mongo_told e : open_mongo_conn server = Err e → told e.
Proof. unfold open_mongo_conn. destruct (mongo_opens server); [done|]. intros [= <-]. apply told_connect. Qed.
Lemma open_redis_told i e : open_redis_conn server i = Err e → told e.
Proof. unfold open_redis_conn. destruct (redis_opens server i); [done|]. intros [= <-]. apply told_connect. Qed.
Lemma redis_cmd_told ask words e : redis_cmd ask words = Err e → told e.
Proof. unfold redis_cmd. destruct (ask words); [done|]. intros [= <-]. apply told_query. Qed.
Lemma scan_page_told r e : scan_page r = Err e → told e.
Proof. intros H. right. left. unfold scan_page in H. repeat case_match; by simplify_eq. Qed.
Lemma scan_told ask fuel pattern cap e : redis_scan_all ask fuel pattern cap = Some (Err e) → told e.
Proof.
  unfold redis_scan_all. generalize "0", (@nil string). induction fuel as [|fuel IH]; intros cur keys; [done|]. cbn [scan_loop].
  destruct (redis_cmd ask _) as [r|e'] eqn:E1; cbn; [|intros [= <-]; by eapply redis_cmd_told].
  destruct (scan_page r) as [[n page]|e'] eqn:E2; [|intros [= <-]; by eapply scan_page_told]. destruct (_ || _); [done|]. apply IH.
Qed.
Lemma bind_told {A B} (r : result MetadataError A) (f : A → result MetadataError B) e :
  r ≫= f = Err e → (∀ e, r = Err e → told e) → (∀ a e, f a = Err e → told e) → told e.
Proof. destruct r; cbn; naive_solver. Qed.
Ltac told_cmds := intros; repeat match goal with
  | H : _ ≫= _ = Err _ |- told _ => apply (bind_told _ _ _ H); clear H; intros
  | H : td_query _ _ _ = Err _ |- _ => exact (td_query_told _ _ _ H)
  | H : mongo_run _ _ _ = Err _ |- _ => exact (mongo_run_told _ _ _ H)
  | H : open_mongo_conn _ = Err _ |- _ => exact (open_mongo_told _ H)
  | H : open_redis_conn _ _ = Err _ |- _ => exact (open_redis_told _ _ H)
  | H : redis_cmd _ _ = Err _ |- _ => exact (redis_cmd_told _ _ _ H)
  | H : Ok _ = Err _ |- _ => discriminate H
  end.
Lemma describe_mongo_told db t e : describe_mongo server c db t = Err e → told e.
Proof.
  unfold describe_mongo. told_cmds. destruct (mongo_batch _); [simplify_eq; eauto with meta|]. told_cmds.
Qed.
Lemma describe_tdengine_told db t e : describe_tdengine server db t = Err e → told e.
Proof.
  unfold describe_tdengine. destruct db; [|intros [= <-]; eauto with meta]. told_cmds. destruct (rows _); simplify_eq; eauto with meta.
Qed.

(** The MySQL family's statements read, and so do PostgreSQL's. *)
Lemma good_by_mode p q : reading q.1 → Good (by_mode engine p q).
Proof. apply good_fetch_by_mode. Qed.
Lemma good_describe_mysql p db t : Good (describe_mysql engine p c pw db t).
Proof.
  unfold describe_mysql. destruct db as [d|]; [|auto with meta]. apply good_bind; [auto with meta|]. intros _.
  apply good_bind; [by apply good_by_mode, reading_more|]. intros meta. apply good_bind; [by apply good_by_mode, reading_more|].
  intros [|r cols]; [auto with meta|]. do 2 (apply good_bind; [by apply good_by_mode, reading_more|]; intros ?). auto with meta.
Qed.
Lemma good_describe_pg db t : Good (describe_pg engine row_not_found c pw db t).
Proof.
  unfold describe_pg. apply good_bind; [auto with meta|]. intros _. cbv zeta.
  assert (Hq : ∀ q bs, reading q → Good (asked (fetch engine false q bs))) by (intros; by apply good_fetch).
  apply good_bind; [apply good_bind; [by apply Hq, reading_more|auto with meta]|]. intros [|d cols]; [apply good_throw, told_not_found|].
  do 3 (apply good_bind; [apply good_bind; [by apply Hq, reading_more|auto with meta]|]; intros ?).
  apply good_bind; [apply good_bind; [by apply Hq, reading_more|]|auto with meta].
  intros rows. unfold scalar. destruct rows as [|r rows]; [auto with meta|]. destruct (c_string _); auto with meta.
Qed.
Lemma good_pragma n t : Good (run_pragma engine n t).
Proof. by apply good_fetch, reading_more. Qed.
Lemma good_sqlite_indexes rows : Good (sqlite_indexes engine rows).
Proof.
  induction rows as [|r rows IH]; [apply good_ret|]. cbn [sqlite_indexes]. cbv zeta. destruct (_ || _); [done|].
  apply good_bind; [apply good_pragma|]. intros info. apply good_bind; [done|]. auto with meta.
Qed.
Lemma good_describe_sqlite t : Good (describe_sqlite engine c t).
Proof.
  unfold describe_sqlite. apply good_bind; [auto with meta|]. intros _. apply good_bind; [apply good_pragma|].
  intros [|r rows]; [auto with meta|]. apply good_bind; [apply good_bind; [apply good_pragma|apply good_sqlite_indexes]|]. intros idx.
  apply good_bind; [apply good_pragma|]. auto with meta.
Qed.
Lemma good_describe_clickhouse db t : Good (describe_clickhouse engine c pw db t).
Proof.
  apply good_bind; [auto with meta|]. intros _. apply good_bind; [by apply good_fetch, reading_more|].
  intros [|r rows]; auto with meta.
Qed.
Lemma good_describe_sqlserver db t : Good (describe_sqlserver engine trust_env c pw db t).
Proof.
  unfold describe_sqlserver. cbv zeta. apply good_bind; [by apply good_ss_rows|]. intros [|r rows]; [apply good_throw, told_not_found|].
  do 4 (apply good_bind; [by apply good_ss_rows|]; intros ?). auto with meta.
Qed.
Lemma good_list_databases family : Good (list_databases engine trust_env server family c pw).
Proof.
  destruct family; cbn [list_databases];
    repeat first [apply good_ret | apply good_mysql | apply good_pg | apply good_decoded | by apply good_ss_rows
                 | by apply good_fetch | by apply good_fetch_by_mode | apply good_lift; told_cmds | apply good_bind; [|intros ?]].
Qed.
Lemma good_list_sql p d : Good (_ ← opened (open_mysql_db engine c pw (Some d));
  rows ← asked (fetch_all_by_mode engine p.(catalog_mode) (tables_sql p d).1 None); mret (mysql_table f64_to_i64 <$> rows)).
Proof. apply good_bind; [auto with meta|]. intros _. apply good_bind; [by apply good_fetch_by_mode, reading_more|auto with meta]. Qed.

(** The operations that may scan. *)
Definition Good_scan {A} (m : Scanned A) : Prop :=
  ∀ l r l', m l = Some (r, l') → (∃ ev, l' = l ++ ev ∧ Forall in_bounds ev) ∧ (∀ e, r = Err e → told e).
Lemma good_done {A} (m : M MetadataError A) : Good m → Good_scan (done_by m).
Proof.
  intros [H1 H2] l r l' [= E]. split; [destruct (H1 l) as (ev & E1 & Hev); rewrite E in E1; by exists ev|].
  intros e ->. apply (H2 l e). by rewrite E.
Qed.
Lemma good_scanned {A} (r : option (result MetadataError A)) : (∀ e, r = Some (Err e) → told e) → Good_scan (scanned r).
Proof.
  intros H l r' l' E. destruct r as [r|]; [|done]. injection E as <- <-. split; [exists []; by rewrite app_nil_r|]. intros e ->. by apply H.
Qed.
Lemma redis_tables_told fuel i e : redis_tables server fuel i = Some (Err e) → told e.
Proof.
  unfold redis_tables. destruct (open_redis_conn server i) eqn:Eo; [|intros [= <-]; by eapply open_redis_told].
  destruct (redis_scan_all _ _ _ _) as [[keys|e']|] eqn:Es; cbn; [done| |done]. intros [= <-]. by eapply scan_told.
Qed.
Lemma describe_redis_told fuel db t e : describe_redis server fuel c db t = Some (Err e) → told e.
Proof.
  unfold describe_redis. destruct (open_redis_conn server _) eqn:Eo; [|intros [= <-]; by eapply open_redis_told].
  destruct (redis_scan_all _ _ _ _) as [[keys|e']|] eqn:Es; cbn; [|intros [= <-]; by eapply scan_told|done].
  destruct keys as [|k keys]; [intros [= <-]; apply told_not_found|]. intros [= E]. told_cmds.
Qed.
Lemma good_list_tables fuel family db : Good_scan (list_tables engine trust_env server f64_to_i64 fuel family c pw db).
Proof.
  unfold list_tables. cbv zeta.
  destruct family; try destruct (or_else db _); first [apply good_scanned; intros; by eapply redis_tables_told | apply good_done];
    first [apply good_list_sql | idtac];
    repeat first [apply good_ret | apply good_throw, told_database | apply good_mysql_db | apply good_pg | apply good_sqlite | apply good_decoded
                 | by apply good_ss_rows | by apply good_fetch | by apply good_fetch, reading_more | apply good_lift; told_cmds
                 | apply good_bind; [|intros ?]].
Qed.
Lemma good_describe_table fuel family db t : Good_scan (describe_table engine trust_env server row_not_found fuel family c pw db t).
Proof.
  unfold describe_table. destruct family;
    first [ apply good_scanned; intros; by eapply describe_redis_told | apply good_done];
    first [ apply good_describe_mysql | apply good_describe_pg | apply good_describe_sqlite | apply good_describe_clickhouse
          | apply good_describe_sqlserver | apply good_lift; intros; by eapply describe_mongo_told
          | apply good_lift; intros; by eapply describe_tdengine_told].
Qed.

(** Metadata stays with its own connection and reads.  Whatever a database
    answers, the three operations dial only the host, port and user (or the file) of
    the connection asked about, with its password, and send the session's own
    statements or ones that read, never one that writes; and an error is one of four
    forms: that the connection failed, with no word of the driver's, that a statement
    failed, that there is no such table, or that no database was named. *)
Theorem metadata_confined fuel family db t :
  Good (list_databases engine trust_env server family c pw) ∧
  Good_scan (list_tables engine trust_env server f64_to_i64 fuel family c pw db) ∧
  Good_scan (describe_table engine trust_env server row_not_found fuel family c pw db t).
Proof. split_and!; [apply good_list_databases|apply good_list_tables|apply good_describe_table]. Qed.

(** ** What a description is *)

Definition well_formed (family : Family) (t : string) (d : TableDescription) : Prop :=
  d.(td_table) = t ∧ (d.(td_columns) = [] → family = Mongo) ∧
  (family ≠ Postgres → family ≠ SqlServer → d.(td_primary_key) ⊆ cd_name <$> d.(td_columns)).
Lemma gives_throw {E A} (R : A → Prop) (e : E) : Gives R (throw e : M E A).
Proof. intros l a [=]. Qed.
Lemma mysql_primary_columns rows : mysql_primary rows ⊆ cd_name <$> (mysql_detail <$> rows).
Proof.
  intros x (r & -> & [_ Hr]%list_elem_of_filter)%list_elem_of_fmap. rewrite <- list_fmap_compose. by apply (list_elem_of_fmap_2 (cd_name ∘ mysql_detail)).
Qed.
Lemma td_primary_columns rows : td_primary rows ⊆ cd_name <$> (td_column <$> rows).
Proof.
  intros x (r & -> & [_ Hr]%list_elem_of_filter)%list_elem_of_fmap. rewrite <- list_fmap_compose. by apply (list_elem_of_fmap_2 (cd_name ∘ td_column)).
Qed.
Lemma sqlite_primary_columns rows : sqlite_primary rows ⊆ cd_name <$> (sqlite_detail <$> rows).
Proof.
  intros x (kx & -> & Hk)%list_elem_of_fmap. rewrite sort_by_key_Permutation in Hk. apply list_elem_of_fmap in Hk as (r & -> & [_ Hr]%list_elem_of_filter).
  rewrite <- list_fmap_compose. by apply (list_elem_of_fmap_2 (cd_name ∘ sqlite_detail)).
Qed.
Lemma wf_mysql p db t : Gives (well_formed (MySql p) t) (describe_mysql engine p c pw db t).
Proof.
  unfold describe_mysql. destruct db as [d|]; [|apply gives_throw]. do 2 (apply gives_bind; intros ?). apply gives_bind. intros [|r cols]; [apply gives_throw|].
  do 2 (apply gives_bind; intros ?). apply gives_ret. split_and!; [done|done|]. intros _ _. apply (mysql_primary_columns (r :: cols)).
Qed.
Lemma wf_pg db t : Gives (well_formed Postgres t) (describe_pg engine row_not_found c pw db t).
Proof.
  unfold describe_pg. apply gives_bind. intros _. cbv zeta. apply gives_bind. intros [|r cols]; [apply gives_throw|].
  do 4 (apply gives_bind; intros ?). by apply gives_ret.
Qed.
Lemma wf_sqlite t : Gives (well_formed Sqlite t) (describe_sqlite engine c t).
Proof.
  unfold describe_sqlite. apply gives_bind. intros _. apply gives_bind. intros [|r rows]; [apply gives_throw|].
  do 2 (apply gives_bind; intros ?). apply gives_ret. split_and!; [done|done|]. intros _ _. apply (sqlite_primary_columns (r :: rows)).
Qed.
Lemma wf_clickhouse db t : Gives (well_formed Clickhouse t) (describe_clickhouse engine c pw db t).
Proof.
  apply gives_bind. intros _. apply gives_bind. intros [|r rows]; [apply gives_throw|]. apply gives_ret. split_and!; [done|done|]. intros _ _ x. by intros ?%elem_of_nil.
Qed.
Lemma wf_sqlserver db t : Gives (well_formed SqlServer t) (describe_sqlserver engine trust_env c pw db t).
Proof.
  unfold describe_sqlserver. cbv zeta. apply gives_bind. intros [|r rows]; [apply gives_throw|]. do 4 (apply gives_bind; intros ?). by apply gives_ret.
Qed.
Lemma wf_bare family t cols pk idx : cols ≠ [] ∨ family = Mongo → pk ⊆ cd_name <$> cols → well_formed family t (bare t cols pk idx).
Proof. intros H Hpk. split_and!; [done|intros E; by destruct H|done]. Qed.
Lemma wf_mongo db t d : describe_mongo server c db t = Ok d → well_formed Mongo t d.
Proof.
  unfold describe_mongo. cbv zeta. destruct (open_mongo_conn server); cbn; [|done]. destruct (mongo_run server _ [("listCollections", _); _; _]) as [there|]; cbn; [|done].
  destruct (mongo_batch there); [done|]. destruct (mongo_run server _ [("find", _); _]) as [sample|]; cbn; [|done]. intros [= <-].
  apply wf_bare; [by right|]. intros x. by intros ?%elem_of_nil.
Qed.
Lemma wf_tdengine db t d : describe_tdengine server db t = Ok d → well_formed Tdengine t d.
Proof.
  unfold describe_tdengine. destruct db as [db|]; [|done]. destruct (td_query _ _ _) as [o|]; cbn; [|done]. destruct (rows o) as [|r rs]; [done|].
  intros [= <-]. apply wf_bare; [by left|]. apply (td_primary_columns (r :: rs)).
Qed.
Lemma field_specs_some k : field_specs k ≠ [].
Proof. unfold field_specs. by repeat case_decide. Qed.
Lemma wf_redis fuel db t d : describe_redis server fuel c db t = Some (Ok d) → well_formed Redis t d.
Proof.
  unfold describe_redis. destruct (open_redis_conn server _); [|done]. destruct (redis_scan_all _ _ _ _) as [[[|k keys]|]|]; cbn; [done| |done..].
  destruct (redis_cmd _ _) as [r|]; cbn; [|done]. intros [= <-]. apply wf_bare; [|intros x; by intros ?%elem_of_nil].
  left. intros H%fmap_nil_inv. by apply field_specs_some in H.
Qed.

(**  A description is well formed.  Whatever an engine answers, a description bears the name that was asked for and lists at least one column, a
    collection of MongoDB without documents apart; and where the primary key is read
    with the columns (everywhere but PostgreSQL and SQL Server, which ask for it
    apart) it names only listed columns.  Otherwise there is an error. *)
Theorem description_well_formed fuel family db t l :
  match describe_table engine trust_env server row_not_found fuel family c pw db t l with
  | Some (Ok d, _) => well_formed family t d
  | _ => True
  end.
Proof.
  assert (Hm : ∀ m : M MetadataError TableDescription, Gives (well_formed family t) m →
    match done_by m l with Some (Ok d, _) => well_formed family t d | _ => True end).
  { intros m H. specialize (H l). unfold done_by. destruct (m l) as [[d|] l']; [|done]. by apply H. }
  unfold describe_table. destruct family.
  1: apply Hm, wf_mysql. 1: apply Hm, wf_pg. 1: apply Hm, wf_sqlite. 1: apply Hm, wf_clickhouse. 1: apply Hm, wf_sqlserver.
  - apply Hm. intros l' d. apply wf_mongo.
  - pose proof (wf_redis fuel (or_else db c.(default_database)) t) as H. unfold scanned.
    destruct (describe_redis _ _ _ _ _) as [[d|]|]; cbn; [by apply H|done..].
  - apply Hm. intros l' d. apply wf_tdengine.
Qed.
End Describe_theorems.
