(* ===== verification/ControlDb.v ===== *)
(** * The control database of the automation engine (the rows of
    crates/automation/src/lib.rs, the tables and foreign keys of src/migrations/)

    Connections and scheduled tasks, and what hangs on them: history rows go with
    their task, a connection's tasks and snapshots go with it, a task only loses its
    target, and a connection with an approval on it cannot go.  SQLite checks and
    cascades; the statements the handlers send are here, and SQLite's LIKE. *)

From S2P Require Import Prelude RustStr Json.
From S2P Require QueryStats Health.
From stdpp Require Import strings gmap.

(** ** Rows *)

Record DatabaseConnection := {
  dc_name : string; dc_db_type : string; dc_host : string; dc_port : Z; dc_username : string; dc_password_encrypted : string;
  dc_default_database : option string; dc_ssh_enabled : bool; dc_ssh_host : option string; dc_ssh_port : option Z;
  dc_team_id : option string; dc_created_by : string; dc_created_at : string; dc_kind : string; dc_file_path : option string;
  dc_use_ssl : bool; dc_timeout_seconds : Z; dc_auto_reconnect : bool; dc_charset : option string; dc_timezone : option string;
  dc_environment : option string; dc_read_only : bool; dc_group_id : option string; dc_extra : option string;
  dc_ssh_username : option string; dc_ssh_auth_mode : option string; dc_ssh_password_encrypted : option string;
  dc_ssh_private_key_encrypted : option string; dc_ssh_passphrase_encrypted : option string }.
Record ScheduledTask := {
  st_name : string; st_task_type : string; st_cron_expr : string; st_config : string; st_source : string; st_target : option string;
  st_notify : string; st_enabled : bool; st_last_run_at : option string; st_last_status : option string; st_created_at : string;
  st_updated_at : string }.
Record SavedQuery := {
  sq_title : string; sq_sql_text : string; sq_tags : string; sq_workspace_id : string; sq_created_by : string; sq_created_at : string }.
Record TaskRunHistory := {
  rh_task_id : string; rh_started_at : string; rh_finished_at : option string; rh_status : string; rh_error : option string;
  rh_summary : option string; rh_triggered_by : string }.
Record HealthCheckResult := {
  hr_task_id : string; hr_started_at : string; hr_finished_at : option string; hr_status : string; hr_metrics_summary : string;
  hr_alert_changes : string; hr_triggered_by : string; hr_error : option string }.
Record SchemaSnapshot := {
  ss_connection_id : string; ss_captured_at : string; ss_schema_hash : string; ss_schema_json : string; ss_prior_hash : option string;
  ss_task_id : option string; ss_change_count : Z }.
Record AccessRow := {
  ar_connection_id : string; ar_action : string; ar_status : string; ar_error : option string; ar_at : string; ar_triggered_by : string }.
Record DataSyncRun := {
  ds_task_id : string; ds_started_at : string; ds_finished_at : option string; ds_status : string; ds_progress : Z;
  ds_cursor : option string; ds_processed_rows : Z; ds_failed_rows : Z; ds_error : option string; ds_summary : option string;
  ds_triggered_by : string; ds_cancel_requested : bool }.

(** ** Tables, by identifier.  Of those the handlers here do not read, what refers. *)
Record Db := {
  connections : gmap string DatabaseConnection; tasks : gmap string ScheduledTask; queries : gmap string SavedQuery;
  run_history : gmap string TaskRunHistory; health_results : gmap string HealthCheckResult; data_sync_runs : gmap string DataSyncRun;
  snapshots : gmap string SchemaSnapshot;
  alert_states : gmap (string * string) Health.AlertRow; reports : gmap string (option string); access_audit : gmap string AccessRow;
  approvals : gmap string string }.
Definition with_connections (f : gmap string DatabaseConnection → gmap string DatabaseConnection) (d : Db) : Db :=
  {| connections := f d.(connections); tasks := d.(tasks); queries := d.(queries); run_history := d.(run_history);
     health_results := d.(health_results); data_sync_runs := d.(data_sync_runs); snapshots := d.(snapshots);
     alert_states := d.(alert_states); reports := d.(reports); access_audit := d.(access_audit); approvals := d.(approvals) |}.
Definition with_tasks (f : gmap string ScheduledTask → gmap string ScheduledTask) (d : Db) : Db :=
  {| connections := d.(connections); tasks := f d.(tasks); queries := d.(queries); run_history := d.(run_history);
     health_results := d.(health_results); data_sync_runs := d.(data_sync_runs); snapshots := d.(snapshots);
     alert_states := d.(alert_states); reports := d.(reports); access_audit := d.(access_audit); approvals := d.(approvals) |}.
Definition with_queries (f : gmap string SavedQuery → gmap string SavedQuery) (d : Db) : Db :=
  {| connections := d.(connections); tasks := d.(tasks); queries := f d.(queries); run_history := d.(run_history);
     health_results := d.(health_results); data_sync_runs := d.(data_sync_runs); snapshots := d.(snapshots);
     alert_states := d.(alert_states); reports := d.(reports); access_audit := d.(access_audit); approvals := d.(approvals) |}.
Definition with_runs (f : gmap string DataSyncRun → gmap string DataSyncRun) (d : Db) : Db :=
  {| connections := d.(connections); tasks := d.(tasks); queries := d.(queries); run_history := d.(run_history);
     health_results := d.(health_results); data_sync_runs := f d.(data_sync_runs); snapshots := d.(snapshots);
     alert_states := d.(alert_states); reports := d.(reports); access_audit := d.(access_audit); approvals := d.(approvals) |}.
Definition with_history (f : gmap string TaskRunHistory → gmap string TaskRunHistory) (d : Db) : Db :=
  {| connections := d.(connections); tasks := d.(tasks); queries := d.(queries); run_history := f d.(run_history);
     health_results := d.(health_results); data_sync_runs := d.(data_sync_runs); snapshots := d.(snapshots);
     alert_states := d.(alert_states); reports := d.(reports); access_audit := d.(access_audit); approvals := d.(approvals) |}.
Definition with_results (f : gmap string HealthCheckResult → gmap string HealthCheckResult) (d : Db) : Db :=
  {| connections := d.(connections); tasks := d.(tasks); queries := d.(queries); run_history := d.(run_history);
     health_results := f d.(health_results); data_sync_runs := d.(data_sync_runs); snapshots := d.(snapshots);
     alert_states := d.(alert_states); reports := d.(reports); access_audit := d.(access_audit); approvals := d.(approvals) |}.
Definition with_alerts (f : gmap (string * string) Health.AlertRow → gmap (string * string) Health.AlertRow) (d : Db) : Db :=
  {| connections := d.(connections); tasks := d.(tasks); queries := d.(queries); run_history := d.(run_history);
     health_results := d.(health_results); data_sync_runs := d.(data_sync_runs); snapshots := d.(snapshots);
     alert_states := f d.(alert_states); reports := d.(reports); access_audit := d.(access_audit); approvals := d.(approvals) |}.
Definition with_snapshots (f : gmap string SchemaSnapshot → gmap string SchemaSnapshot) (d : Db) : Db :=
  {| connections := d.(connections); tasks := d.(tasks); queries := d.(queries); run_history := d.(run_history);
     health_results := d.(health_results); data_sync_runs := d.(data_sync_runs); snapshots := f d.(snapshots);
     alert_states := d.(alert_states); reports := d.(reports); access_audit := d.(access_audit); approvals := d.(approvals) |}.
Definition with_audit (f : gmap string AccessRow → gmap string AccessRow) (d : Db) : Db :=
  {| connections := d.(connections); tasks := d.(tasks); queries := d.(queries); run_history := d.(run_history);
     health_results := d.(health_results); data_sync_runs := d.(data_sync_runs); snapshots := d.(snapshots);
     alert_states := d.(alert_states); reports := d.(reports); access_audit := f d.(access_audit); approvals := d.(approvals) |}.

(** ** Foreign keys *)

Definition has_connection (d : Db) (id : string) : Prop := is_Some (d.(connections) !! id).
Definition has_task (d : Db) (id : string) : Prop := is_Some (d.(tasks) !! id).
Record references (d : Db) : Prop := {
  ref_source i t : d.(tasks) !! i = Some t → has_connection d t.(st_source);
  ref_target i t c : d.(tasks) !! i = Some t → t.(st_target) = Some c → has_connection d c;
  ref_history i r : d.(run_history) !! i = Some r → has_task d r.(rh_task_id);
  ref_results i r : d.(health_results) !! i = Some r → has_task d r.(hr_task_id);
  ref_runs i r : d.(data_sync_runs) !! i = Some r → has_task d r.(ds_task_id);
  ref_alerts i a : d.(alert_states) !! i = Some a → has_task d i.1;
  ref_reports i t : d.(reports) !! i = Some (Some t) → has_task d t;
  ref_snapshots i s : d.(snapshots) !! i = Some s → has_connection d s.(ss_connection_id);
  ref_audit i a : d.(access_audit) !! i = Some a → has_connection d a.(ar_connection_id);
  ref_approvals i c : d.(approvals) !! i = Some c → has_connection d c }.

Section Statements.
(** What the driver displays of the two constraint errors. *)
Context (unique_failed foreign_key_failed : string).
#[local] Instance has_connection_dec d id : Decision (has_connection d id).
Proof. unfold has_connection. apply _. Defined.

Definition of_one (gone : string → Prop) (o : option string) : Prop := match o with Some t => gone t | None => False end.
#[local] Instance of_one_dec gone `{∀ i, Decision (gone i)} o : Decision (of_one gone o).
Proof. destruct o; apply _. Defined.
(** [DELETE FROM scheduled_tasks], for those that [gone] names: their rows go with
    them. *)
Definition cascade_tasks (gone : string → Prop) `{∀ i, Decision (gone i)} (d : Db) : Db :=
  {| connections := d.(connections); tasks := filter (λ kv, ¬ gone kv.1) d.(tasks); queries := d.(queries);
     run_history := filter (λ kv, ¬ gone kv.2.(rh_task_id)) d.(run_history);
     health_results := filter (λ kv, ¬ gone kv.2.(hr_task_id)) d.(health_results);
     data_sync_runs := filter (λ kv, ¬ gone kv.2.(ds_task_id)) d.(data_sync_runs); snapshots := d.(snapshots);
     alert_states := filter (λ kv, ¬ gone kv.1.1) d.(alert_states);
     reports := filter (λ kv, ¬ of_one gone kv.2) d.(reports);
     access_audit := d.(access_audit); approvals := d.(approvals) |}.
Definition delete_task_row (id : string) (d : Db) : Db := cascade_tasks (λ i, i = id) d.

(** [DELETE FROM database_connections]: restricted by approvals, cascading to tasks
    by their source, snapshots and audit rows, and clearing targets. *)
Definition reads_from (id : string) (d : Db) (i : string) : Prop := st_source <$> d.(tasks) !! i = Some id.
#[local] Instance reads_from_dec id d i : Decision (reads_from id d i).
Proof. unfold reads_from. apply _. Defined.
Definition clear_target (id : string) (t : ScheduledTask) : ScheduledTask :=
  {| st_name := t.(st_name); st_task_type := t.(st_task_type); st_cron_expr := t.(st_cron_expr); st_config := t.(st_config);
     st_source := t.(st_source); st_target := if decide (t.(st_target) = Some id) then None else t.(st_target);
     st_notify := t.(st_notify); st_enabled := t.(st_enabled); st_last_run_at := t.(st_last_run_at);
     st_last_status := t.(st_last_status); st_created_at := t.(st_created_at); st_updated_at := t.(st_updated_at) |}.
Definition drop_connection (id : string) (d : Db) : Db :=
  {| connections := delete id d.(connections); tasks := clear_target id <$> d.(tasks); queries := d.(queries);
     run_history := d.(run_history); health_results := d.(health_results); data_sync_runs := d.(data_sync_runs);
     snapshots := filter (λ kv, kv.2.(ss_connection_id) ≠ id) d.(snapshots); alert_states := d.(alert_states); reports := d.(reports);
     access_audit := filter (λ kv, kv.2.(ar_connection_id) ≠ id) d.(access_audit); approvals := d.(approvals) |}.
Definition delete_connection_row (id : string) (d : Db) : result string Db :=
  if bool_decide (map_Exists (λ _ c, c = id) d.(approvals)) then Err foreign_key_failed
  else Ok (drop_connection id (cascade_tasks (reads_from id d) d)).

(** [INSERT] and the statements that set columns. *)
Definition insert_connection_row (id : string) (c : DatabaseConnection) (d : Db) : result string Db :=
  match d.(connections) !! id with Some _ => Err unique_failed | None => Ok (with_connections <[id := c]> d) end.
Definition update_connection_row (id : string) (f : DatabaseConnection → DatabaseConnection) (d : Db) : Db := with_connections (alter f id) d.
Definition target_known (d : Db) (target : option string) : bool :=
  match target with Some c => bool_decide (has_connection d c) | None => true end.
Definition insert_task_row (id : string) (t : ScheduledTask) (d : Db) : result string Db :=
  match d.(tasks) !! id with
  | Some _ => Err unique_failed
  | None => if bool_decide (has_connection d t.(st_source)) && target_known d t.(st_target)
            then Ok (with_tasks <[id := t]> d) else Err foreign_key_failed
  end.
(** How many rows were set: one or none. *)
Definition update_task_row (id : string) (f : ScheduledTask → ScheduledTask) (d : Db) : result string (nat * Db) :=
  match d.(tasks) !! id with
  | None => Ok (0, d)
  | Some t => if bool_decide (has_connection d (f t).(st_source)) && target_known d (f t).(st_target)
              then Ok (1, with_tasks <[id := f t]> d) else Err foreign_key_failed
  end.
Definition request_cancel (task : string) (d : Db) : nat * Db :=
  let running := λ r, r.(ds_task_id) = task ∧ r.(ds_status) = "running" in
  (size (filter (λ kv, running kv.2) d.(data_sync_runs)),
   with_runs (fmap (λ r, if decide (running r) then
     {| ds_task_id := r.(ds_task_id); ds_started_at := r.(ds_started_at); ds_finished_at := r.(ds_finished_at); ds_status := r.(ds_status);
        ds_progress := r.(ds_progress); ds_cursor := r.(ds_cursor); ds_processed_rows := r.(ds_processed_rows);
        ds_failed_rows := r.(ds_failed_rows); ds_error := r.(ds_error); ds_summary := r.(ds_summary);
        ds_triggered_by := r.(ds_triggered_by); ds_cancel_requested := true |} else r)) d).
(** The rows of the runners. *)
Definition insert_history_row (id : string) (r : TaskRunHistory) (d : Db) : result string Db :=
  match d.(run_history) !! id with
  | Some _ => Err unique_failed
  | None => if bool_decide (is_Some (d.(tasks) !! r.(rh_task_id))) then Ok (with_history <[id := r]> d) else Err foreign_key_failed
  end.
Definition insert_snapshot_row (id : string) (s : SchemaSnapshot) (d : Db) : result string Db :=
  match d.(snapshots) !! id with
  | Some _ => Err unique_failed
  | None => if bool_decide (has_connection d s.(ss_connection_id)) then Ok (with_snapshots <[id := s]> d) else Err foreign_key_failed
  end.
Definition insert_access_row (id : string) (a : AccessRow) (d : Db) : result string Db :=
  match d.(access_audit) !! id with
  | Some _ => Err unique_failed
  | None => if bool_decide (has_connection d a.(ar_connection_id)) then Ok (with_audit <[id := a]> d) else Err foreign_key_failed
  end.
Definition insert_result_row (id : string) (r : HealthCheckResult) (d : Db) : result string Db :=
  match d.(health_results) !! id with
  | Some _ => Err unique_failed
  | None => if bool_decide (is_Some (d.(tasks) !! r.(hr_task_id))) then Ok (with_results <[id := r]> d) else Err foreign_key_failed
  end.
(** [INSERT ... ON CONFLICT(task_id, metric) DO UPDATE]. *)
Definition upsert_alert_row (task metric : string) (r : Health.AlertRow) (d : Db) : result string Db :=
  if bool_decide (is_Some (d.(tasks) !! task)) then Ok (with_alerts <[(task, metric) := r]> d) else Err foreign_key_failed.
(** [DELETE ... WHERE task_id = ? AND started_at < ?], by the bytes of the two texts. *)
Definition rotate_result_rows (task cutoff : string) (d : Db) : Db :=
  with_results (filter (λ kv, ¬ (kv.2.(hr_task_id) = task ∧ QueryStats.text_lt kv.2.(hr_started_at) cutoff = true))) d.
(** The end of a run, and the outcome on its task. *)
Definition close_history (id finished : string) (status : string) (error summary : option string) (d : Db) : Db :=
  with_history (alter (λ r, {| rh_task_id := r.(rh_task_id); rh_started_at := r.(rh_started_at); rh_finished_at := Some finished;
    rh_status := status; rh_error := match error with Some e => Some e | None => r.(rh_error) end;
    rh_summary := match summary with Some x => Some x | None => r.(rh_summary) end; rh_triggered_by := r.(rh_triggered_by) |}) id) d.
Definition set_last_run (id when status : string) (d : Db) : Db :=
  with_tasks (alter (λ t, {| st_name := t.(st_name); st_task_type := t.(st_task_type); st_cron_expr := t.(st_cron_expr);
    st_config := t.(st_config); st_source := t.(st_source); st_target := t.(st_target); st_notify := t.(st_notify); st_enabled := t.(st_enabled);
    st_last_run_at := Some when; st_last_status := Some status; st_created_at := t.(st_created_at); st_updated_at := t.(st_updated_at) |}) id) d.
Definition insert_query_row (id : string) (q : SavedQuery) (d : Db) : result string Db :=
  match d.(queries) !! id with Some _ => Err unique_failed | None => Ok (with_queries <[id := q]> d) end.
Definition delete_query_row (id : string) (d : Db) : nat * Db :=
  (match d.(queries) !! id with Some _ => 1 | None => 0 end, with_queries (delete id) d).
End Statements.

(** ** Every statement keeps the references *)

Section Kept.
Context (unique_failed foreign_key_failed : string).
#[local] Instance gone_dec id d i : Decision (reads_from id d i) := reads_from_dec id d i.

Lemma cascade_has_task gone `{∀ i, Decision (gone i)} d i : has_task (cascade_tasks gone d) i ↔ has_task d i ∧ ¬ gone i.
Proof.
  unfold has_task. cbn. split.
  - intros [t [Ht Hg]%map_lookup_filter_Some]. by split; [exists t|].
  - intros [[t Ht] Hg]. exists t. by apply map_lookup_filter_Some.
Qed.
Lemma cascade_keeps gone `{∀ i, Decision (gone i)} d : references d → references (cascade_tasks gone d).
Proof.
  intros [R1 R2 R3 R4 R5 R6 R7 R8 R9 R10].
  constructor; cbn; intros;
    try match goal with Hx : filter _ _ !! _ = Some _ |- _ => apply map_lookup_filter_Some in Hx as [Hx Hg]; cbn in Hg end;
    try (apply cascade_has_task; split; [|done]); unfold has_connection in *; cbn; eauto.
Qed.
Lemma drop_has_connection id d c : has_connection (drop_connection id d) c ↔ has_connection d c ∧ c ≠ id.
Proof.
  unfold has_connection. cbn. split.
  - intros [x [Hne Hx]%lookup_delete_Some]. by split; [exists x|congruence].
  - intros [[x Hx] Hne]. exists x. by apply lookup_delete_Some.
Qed.
Lemma drop_has_task id d i : has_task (drop_connection id d) i ↔ has_task d i.
Proof. unfold has_task. cbn. rewrite lookup_fmap. by destruct (tasks d !! i). Qed.
Lemma drop_keeps id d : references d → (∀ i t, d.(tasks) !! i = Some t → t.(st_source) ≠ id) →
  (∀ i, d.(approvals) !! i ≠ Some id) → references (drop_connection id d).
Proof.
  intros [R1 R2 R3 R4 R5 R6 R7 R8 R9 R10] Hs Ha.
  constructor; cbn -[has_task has_connection]; intros i x Hx; rewrite ?drop_has_task, ?drop_has_connection;
    try (apply map_lookup_filter_Some in Hx as [Hx Hg]; cbn in Hg); eauto.
  - rewrite lookup_fmap in Hx. apply fmap_Some in Hx as (t & Ht & ->). cbn. eauto.
  - rewrite lookup_fmap. intros (t & Ht & ->)%fmap_Some Htg. cbn in Htg. case_decide; [done|]. split; [by eauto|congruence].
  - split; [by eauto|]. intros ->. by apply (Ha i).
Qed.
Lemma delete_connection_keeps id d d' : references d → delete_connection_row foreign_key_failed id d = Ok d' → references d'.
Proof.
  intros R. unfold delete_connection_row. case_bool_decide as Ha; [done|]. intros [= <-]. apply drop_keeps; [by apply cascade_keeps| |].
  - intros i t Ht. cbn in Ht. apply map_lookup_filter_Some in Ht as [Ht Hg]. cbn in Hg. unfold reads_from in Hg. rewrite Ht in Hg. cbn in Hg. congruence.
  - intros i Hi. apply Ha. by exists i, id.
Qed.
Lemma with_connections_keeps f d : references d → (∀ c, has_connection d c → is_Some (f d.(connections) !! c)) → references (with_connections f d).
Proof. intros [R1 R2 R3 R4 R5 R6 R7 R8 R9 R10] H. constructor; cbn; intros; unfold has_connection, has_task in *; cbn in *; eauto. Qed.
Lemma insert_connection_keeps id c d d' : references d → insert_connection_row unique_failed id c d = Ok d' → references d'.
Proof.
  intros R. unfold insert_connection_row. destruct (connections d !! id) eqn:E; [done|]. intros [= <-]. apply with_connections_keeps; [done|].
  intros x [y Hy]. destruct (decide (id = x)) as [->|]; [congruence|]. rewrite lookup_insert_ne by done. by exists y.
Qed.
Lemma update_connection_keeps id f d : references d → references (update_connection_row id f d).
Proof.
  intros R. apply with_connections_keeps; [done|]. intros x [y Hy]. destruct (decide (id = x)) as [->|].
  - rewrite lookup_alter_eq, Hy. by eexists.
  - rewrite lookup_alter_ne by done. by exists y.
Qed.
Lemma with_task_keeps id t d : references d → has_connection d t.(st_source) → target_known d t.(st_target) = true →
  references (with_tasks <[id := t]> d).
Proof.
  intros [R1 R2 R3 R4 R5 R6 R7 R8 R9 R10] Hs Ht.
  assert (Hk : ∀ j, has_task d j → has_task (with_tasks <[id := t]> d) j).
  { intros j [x Hx]. unfold has_task. cbn. destruct (decide (id = j)) as [->|]; [rewrite lookup_insert_eq|rewrite lookup_insert_ne by done]; by eexists. }
  constructor; cbn -[has_task has_connection]; intros i x; intros; try apply Hk; unfold has_connection; cbn; eauto.
  - apply lookup_insert_Some in H as [[-> <-]|[_ H]]; [done|by eapply R1].
  - apply lookup_insert_Some in H as [[-> <-]|[_ H]]; [|by eapply R2]. rewrite H0 in Ht. cbn in Ht. by apply bool_decide_eq_true_1 in Ht.
  - by eapply R8.
  - by eapply R9.
  - by eapply R10.
Qed.
Lemma insert_task_keeps id t d d' : references d → insert_task_row unique_failed foreign_key_failed id t d = Ok d' → references d'.
Proof.
  intros R. unfold insert_task_row. destruct (tasks d !! id); [done|]. destruct (_ && _) eqn:E; [|done]. intros [= <-].
  apply andb_true_iff in E as [E1%bool_decide_eq_true_1 E2]. by apply with_task_keeps.
Qed.
Lemma update_task_keeps id f d n d' : references d → update_task_row foreign_key_failed id f d = Ok (n, d') → references d'.
Proof.
  intros R. unfold update_task_row. destruct (tasks d !! id) as [t|]; [|by intros [= <- <-]]. destruct (_ && _) eqn:E; [|done]. intros [= <- <-].
  apply andb_true_iff in E as [E1%bool_decide_eq_true_1 E2]. by apply with_task_keeps.
Qed.
Lemma request_cancel_keeps task d : references d → references (request_cancel task d).2.
Proof.
  intros [R1 R2 R3 R4 R5 R6 R7 R8 R9 R10]. constructor; cbn; eauto. intros i r. rewrite lookup_fmap. intros (x & Hx & ->)%fmap_Some.
  apply R5 in Hx. by case_decide.
Qed.
Lemma insert_history_keeps id r d d' : references d → insert_history_row unique_failed foreign_key_failed id r d = Ok d' → references d'.
Proof.
  intros [R1 R2 R3 R4 R5 R6 R7 R8 R9 R10]. unfold insert_history_row. destruct (run_history d !! id); [done|]. case_bool_decide as Ht; [|done].
  intros [= <-]. constructor; cbn; eauto. intros i x [[-> <-]|[_ Hx]]%lookup_insert_Some; [done|by eapply R3].
Qed.
Lemma insert_snapshot_keeps id s d d' : references d → insert_snapshot_row unique_failed foreign_key_failed id s d = Ok d' → references d'.
Proof.
  intros [R1 R2 R3 R4 R5 R6 R7 R8 R9 R10]. unfold insert_snapshot_row. destruct (snapshots d !! id); [done|]. case_bool_decide as Ht; [|done].
  intros [= <-]. constructor; cbn; eauto. intros i x [[-> <-]|[_ Hx]]%lookup_insert_Some; [done|by eapply R8].
Qed.
Lemma insert_access_keeps id a d d' : references d → insert_access_row unique_failed foreign_key_failed id a d = Ok d' → references d'.
Proof.
  intros [R1 R2 R3 R4 R5 R6 R7 R8 R9 R10]. unfold insert_access_row. destruct (access_audit d !! id); [done|]. case_bool_decide as Ht; [|done].
  intros [= <-]. constructor; cbn; eauto. intros i x [[-> <-]|[_ Hx]]%lookup_insert_Some; [done|by eapply R9].
Qed.
Lemma insert_result_keeps id r d d' : references d → insert_result_row unique_failed foreign_key_failed id r d = Ok d' → references d'.
Proof.
  intros [R1 R2 R3 R4 R5 R6 R7 R8 R9 R10]. unfold insert_result_row. destruct (health_results d !! id); [done|]. case_bool_decide as Ht; [|done].
  intros [= <-]. constructor; cbn; eauto. intros i x [[-> <-]|[_ Hx]]%lookup_insert_Some; [done|by eapply R4].
Qed.
Lemma upsert_alert_keeps task metric r d d' : references d → upsert_alert_row foreign_key_failed task metric r d = Ok d' → references d'.
Proof.
  intros [R1 R2 R3 R4 R5 R6 R7 R8 R9 R10]. unfold upsert_alert_row. case_bool_decide as Ht; [|done].
  intros [= <-]. constructor; cbn; eauto. intros i x [[<- <-]|[_ Hx]]%lookup_insert_Some; [done|by eapply R6].
Qed.
Lemma rotate_results_keeps task cutoff d : references d → references (rotate_result_rows task cutoff d).
Proof.
  intros [R1 R2 R3 R4 R5 R6 R7 R8 R9 R10]. constructor; cbn; eauto. intros i x [Hx _]%map_lookup_filter_Some. by eapply R4.
Qed.
Lemma close_history_keeps id finished st e s d : references d → references (close_history id finished st e s d).
Proof.
  intros [R1 R2 R3 R4 R5 R6 R7 R8 R9 R10]. constructor; cbn; eauto. intros i x [[-> (y & Hy & ->)]|[_ Hx]]%lookup_alter_Some; [exact (R3 _ _ Hy)|exact (R3 _ _ Hx)].
Qed.
Lemma set_last_run_keeps id when st d : references d → references (set_last_run id when st d).
Proof.
  intros R. unfold set_last_run. destruct (tasks d !! id) as [t|] eqn:E.
  - match goal with |- references (with_tasks (alter ?f id) d) => replace (with_tasks (alter f id) d) with (with_tasks <[id := f t]> d) end.
    + apply with_task_keeps; [done| |]; cbn; [by eapply ref_source|].
      destruct (st_target t) as [c|] eqn:Et; [|done]. apply bool_decide_eq_true. by eapply ref_target.
    + unfold with_tasks. f_equal. apply map_eq. intros j. destruct (decide (j = id)) as [->|].
      * by rewrite lookup_insert_eq, lookup_alter_eq, E.
      * by rewrite lookup_insert_ne, lookup_alter_ne.
  - destruct R as [R1 R2 R3 R4 R5 R6 R7 R8 R9 R10].
    match goal with |- references (with_tasks (alter ?f id) d) => assert (Hf : alter f id d.(tasks) = d.(tasks)) end.
    { apply map_eq. intros j. destruct (decide (j = id)) as [->|]; [by rewrite lookup_alter_eq, E|by rewrite lookup_alter_ne]. }
    unfold with_tasks. rewrite Hf. by constructor.
Qed.
Lemma with_queries_keeps f d : references d → references (with_queries f d).
Proof. intros [R1 R2 R3 R4 R5 R6 R7 R8 R9 R10]. by constructor. Qed.
End Kept.

(** ** LIKE *)

(** The rest of a character of which the first byte was read. *)
Fixpoint skip_rest (s : string) : string := match s with String c s' => if is_continuation c then skip_rest s' else s | "" => "" end.
(** SQLite's: a percent sign stands for any text, an underscore for one character,
    ASCII letters in either case. *)
Fixpoint like (p : string) : string → bool :=
  match p with
  | "" => is_empty
  | String c p =>
      let rest := like p in
      if decide (c = "%"%char) then
        fix star (s : string) : bool := rest s || match s with String _ s' => star s' | "" => false end
      else if decide (c = "_"%char) then λ s, match s with String _ s' => rest (skip_rest s') | "" => false end
      else λ s, match s with String d s' => bool_decide (to_ascii_lower c = to_ascii_lower d) && rest s' | "" => false end
  end.
Definition plain_pattern (p : string) : bool := all_chars (λ c, negb (bool_decide (c = "%"%char) || bool_decide (c = "_"%char))) p.

Lemma like_star p s : like (String "%" p) s = true ↔ ∃ a b, s = a +:+ b ∧ like p b = true.
Proof.
  induction s as [|c s IH].
  - change (like (String "%" p) "") with (like p "" || false). rewrite orb_false_r. split; [by exists "", ""|]. intros (a & b & E & H).
    destruct a; [|done]. by destruct b.
  - change (like (String "%" p) (String c s)) with (like p (String c s) || like (String "%" p) s). rewrite orb_true_iff, IH. split.
    + intros [H|(a & b & -> & H)]; [by exists "", (String c s)|]. by exists (String c a), b.
    + intros ([|c' a] & b & E & H); [left; by rewrite E|]. rewrite str_app_cons in E. injection E as -> ->. right. by exists a, b.
Qed.
Lemma like_any s : like "%" s = true.
Proof. apply like_star. exists s, "". by rewrite str_app_nil_r. Qed.
Lemma like_plain p : plain_pattern p = true → ∀ q s, like (p +:+ q) s = true ↔ ∃ m b, s = m +:+ b ∧ to_ascii_lowercase m = to_ascii_lowercase p ∧ like q b = true.
Proof.
  induction p as [|c p IH]; intros Hp q s.
  - rewrite str_app_nil_l. split; [by exists "", s|]. by intros (m & b & -> & Hm & Hq); destruct m.
  - cbn in Hp. apply andb_true_iff in Hp as [Hc Hp]. apply negb_true_iff, orb_false_iff in Hc as [Hc1 Hc2].
    apply bool_decide_eq_false_1 in Hc1, Hc2. rewrite str_app_cons. cbn [like]. rewrite decide_False, decide_False by done. destruct s as [|d s].
    + split; [done|]. by intros ([|] & b & E & Hm & Hq).
    + rewrite andb_true_iff, bool_decide_eq_true, (IH Hp). split.
      * intros (E & m & b & -> & Hm & Hq). exists (String d m), b. split; [done|]. split; [|done]. change (String (to_ascii_lower d) (to_ascii_lowercase m) = String (to_ascii_lower c) (to_ascii_lowercase p)). congruence.
      * intros ([|d' m] & b & E & Hm & Hq); [done|]. cbn in E, Hm. injection E as <- ->. injection Hm as Hm1 Hm2. split; [done|]. by exists m, b.
Qed.
(** A plain text between percent signs is looked for anywhere. *)
Lemma like_contains p s : plain_pattern p = true →
  like ("%" +:+ p +:+ "%") s = true ↔ ∃ a m b, s = a +:+ m +:+ b ∧ to_ascii_lowercase m = to_ascii_lowercase p.
Proof.
  intros Hp. change ("%" +:+ p +:+ "%") with (String "%" (p +:+ "%")). rewrite like_star. split.
  - intros (a & b & -> & H). apply (like_plain p Hp) in H as (m & b' & -> & Hm & _). by exists a, m, b'.
  - intros (a & m & b & -> & Hm). exists a, (m +:+ b). split; [done|]. apply (like_plain p Hp). exists m, b. split_and!; [done|done|apply like_any].
Qed.
