(* ===== verification/Automation.v ===== *)
(** * The automation endpoints (crates/automation/src/handler.rs: tasks, connections,
    saved queries, histories)

    A handler sends its statements one after the other to the control database; other
    requests may change it before each one.  The gate refuses mutations; connections
    are stored encrypted and told in plain only to an embedded client; tasks are
    checked, patched, run and cancelled; histories are read newest first. *)

From S2P Require Import Prelude RustStr Json License Entitlement Credential.
From S2P Require Import QueryStats Reports.
From S2P Require Import DbFamily DbBackends ControlDb.
From stdpp Require Import strings gmap sorting.

(** ** Requests *)

Record CreateTaskRequest := {
  ct_name : string; ct_task_type : string; ct_cron_expr : string; ct_config : json; ct_source : string; ct_target : option string;
  ct_notify : option (list string) }.
Record UpdateTaskRequest := {
  ut_enabled : option bool; ut_name : option string; ut_cron_expr : option string; ut_config : option json;
  ut_target : option string; ut_notify : option (list string) }.
Record CreateConnectionRequest := {
  cc_name : string; cc_db_type : string; cc_host : string; cc_port : Z; cc_username : string; cc_password : string;
  cc_default_database : option string; cc_ssh_enabled : bool; cc_ssh_host : option string; cc_ssh_port : option Z;
  cc_kind : option string; cc_file_path : option string; cc_use_ssl : bool; cc_timeout_seconds : Z; cc_auto_reconnect : bool;
  cc_charset : option string; cc_timezone : option string; cc_environment : option string; cc_read_only : bool;
  cc_group_id : option string; cc_extra : option string; cc_ssh_username : option string; cc_ssh_auth_mode : option string;
  cc_ssh_password : option string; cc_ssh_private_key : option string; cc_ssh_passphrase : option string }.
Record UpdateConnectionRequest := {
  uc_name : option string; uc_db_type : option string; uc_host : option string; uc_port : option Z; uc_username : option string;
  uc_password : option string; uc_default_database : option string; uc_file_path : option string; uc_use_ssl : option bool;
  uc_read_only : option bool; uc_timeout_seconds : option Z; uc_charset : option string; uc_timezone : option string;
  uc_environment : option string }.
Record SaveQueryRequest := { sv_title : string; sv_sql_text : string; sv_tags : list string }.
Record SavedQueryListQuery := { ql_tag : option string; ql_q : option string; ql_limit : option Z }.

(** ** Replies: a status and a body *)

Notation Reply := (Z * json)%type.
Definition ok (data : json) : Reply := (200%Z, ok_response data).
(** An error told with status 200, and a refusal with its own. *)
Definition soft (code message : string) : Reply := (200%Z, envelope code message).
Definition refuse (status : Z) (code message : string) : Reply := (status, envelope code message).
Definition bad_query (message : string) : Reply := refuse 400 "BAD_QUERY" message.
Definition clamp_limit (raw : option Z) (dflt max : Z) : Z :=
  match raw with Some n => if (0 <? n)%Z then Z.min n max else dflt | None => dflt end.

(** ** Rows as JSON *)

Definition jstr_opt : option string → json := jopt JStr.
Definition task_json (id : string) (t : ScheduledTask) : json :=
  JObj [("id", JStr id); ("name", JStr t.(st_name)); ("task_type", JStr t.(st_task_type)); ("cron_expr", JStr t.(st_cron_expr));
        ("config", JStr t.(st_config)); ("source_db_id", JStr t.(st_source)); ("target_db_id", jstr_opt t.(st_target));
        ("notify_channels", JStr t.(st_notify)); ("enabled", JBool t.(st_enabled)); ("last_run_at", jstr_opt t.(st_last_run_at));
        ("last_status", jstr_opt t.(st_last_status)); ("created_at", JStr t.(st_created_at))].
Definition connection_json (id : string) (c : DatabaseConnection) : json :=
  JObj [("id", JStr id); ("name", JStr c.(dc_name)); ("db_type", JStr c.(dc_db_type)); ("host", JStr c.(dc_host)); ("port", JInt c.(dc_port));
        ("username", JStr c.(dc_username)); ("password_encrypted", JStr c.(dc_password_encrypted));
        ("default_database", jstr_opt c.(dc_default_database)); ("ssh_enabled", JBool c.(dc_ssh_enabled));
        ("ssh_host", jstr_opt c.(dc_ssh_host)); ("ssh_port", jopt JInt c.(dc_ssh_port)); ("team_id", jstr_opt c.(dc_team_id));
        ("created_by", JStr c.(dc_created_by)); ("created_at", JStr c.(dc_created_at)); ("kind", JStr c.(dc_kind));
        ("file_path", jstr_opt c.(dc_file_path)); ("use_ssl", JBool c.(dc_use_ssl)); ("timeout_seconds", JInt c.(dc_timeout_seconds));
        ("auto_reconnect", JBool c.(dc_auto_reconnect)); ("charset", jstr_opt c.(dc_charset)); ("timezone", jstr_opt c.(dc_timezone));
        ("environment", jstr_opt c.(dc_environment)); ("read_only", JBool c.(dc_read_only)); ("group_id", jstr_opt c.(dc_group_id));
        ("extra", jstr_opt c.(dc_extra)); ("ssh_username", jstr_opt c.(dc_ssh_username)); ("ssh_auth_mode", jstr_opt c.(dc_ssh_auth_mode));
        ("ssh_password_encrypted", jstr_opt c.(dc_ssh_password_encrypted));
        ("ssh_private_key_encrypted", jstr_opt c.(dc_ssh_private_key_encrypted));
        ("ssh_passphrase_encrypted", jstr_opt c.(dc_ssh_passphrase_encrypted))].
Definition query_json (id : string) (q : SavedQuery) : json :=
  JObj [("id", JStr id); ("title", JStr q.(sq_title)); ("sql_text", JStr q.(sq_sql_text)); ("tags", JStr q.(sq_tags));
        ("workspace_id", JStr q.(sq_workspace_id)); ("created_by", JStr q.(sq_created_by)); ("created_at", JStr q.(sq_created_at))].
Definition history_json (id : string) (r : TaskRunHistory) : json :=
  JObj [("id", JStr id); ("task_id", JStr r.(rh_task_id)); ("started_at", JStr r.(rh_started_at)); ("finished_at", jstr_opt r.(rh_finished_at));
        ("status", JStr r.(rh_status)); ("error", jstr_opt r.(rh_error)); ("summary", jstr_opt r.(rh_summary));
        ("triggered_by", JStr r.(rh_triggered_by))].
Definition result_json (id : string) (r : HealthCheckResult) : json :=
  JObj [("id", JStr id); ("task_id", JStr r.(hr_task_id)); ("started_at", JStr r.(hr_started_at)); ("finished_at", jstr_opt r.(hr_finished_at));
        ("status", JStr r.(hr_status)); ("metrics_summary", JStr r.(hr_metrics_summary)); ("alert_changes", JStr r.(hr_alert_changes));
        ("triggered_by", JStr r.(hr_triggered_by)); ("error", jstr_opt r.(hr_error))].
Definition snapshot_meta_json (id : string) (s : SchemaSnapshot) : json :=
  JObj [("id", JStr id); ("connection_id", JStr s.(ss_connection_id)); ("captured_at", JStr s.(ss_captured_at));
        ("schema_hash", JStr s.(ss_schema_hash)); ("prior_hash", jstr_opt s.(ss_prior_hash)); ("task_id", jstr_opt s.(ss_task_id));
        ("change_count", JInt s.(ss_change_count))].
Definition snapshot_json (id : string) (s : SchemaSnapshot) : json :=
  JObj [("id", JStr id); ("connection_id", JStr s.(ss_connection_id)); ("captured_at", JStr s.(ss_captured_at));
        ("schema_hash", JStr s.(ss_schema_hash)); ("schema_json", JStr s.(ss_schema_json)); ("prior_hash", jstr_opt s.(ss_prior_hash));
        ("task_id", jstr_opt s.(ss_task_id)); ("change_count", JInt s.(ss_change_count))].

(** ** Statements *)

(** What is around a handler: the license, the deployment, the key; the driver's texts
    of the two constraint errors and of a row that is not there. *)
Record Server := {
  entitlement : EntitlementState; embedded_mode : bool; credential_key : string; unique_failed : string; foreign_key_failed : string;
  row_not_found : string }.
(** A customer's database, asked to create a table: connecting to it, taking a
    connection, beginning, and whether the table is created. *)
Record Canary := { can_connect : Target → result string unit; can_acquire : result string unit; can_begin : result string unit; can_create : string → bool }.
(** What a handler is given: before each statement what the other requests do and
    whether the statement fails; the identifier, clock, the database's clock and the
    nonces drawn; the answer of the customer's database to the canary. *)
Record World := {
  others : nat → Db → Db; sql_fails : nat → option string; new_id : string; now : string; db_now : string; nonce : nat → string;
  canary : Canary }.

(** A handler: statements sent so far and the database; it may reply early. *)
Definition M (A : Type) : Type := nat * Db → result Reply A * (nat * Db).
#[global] Instance handler_ret : MRet M := λ A a s, (Ok a, s).
#[global] Instance handler_bind : MBind M := λ A B f m s, match m s with (Ok a, s') => f a s' | (Err r, s') => (Err r, s') end.
Definition reply {A} (r : Reply) : M A := λ s, (Err r, s).
Definition reply_of (x : result Reply Reply) : Reply := match x with Ok r | Err r => r end.

Section Handlers.
Context `{Printer, Reader, Cipher} (srv : Server) (w : World).

(** One statement, atomic. *)
Definition query {A} (f : Db → result string (A * Db)) : M (result string A) := λ '(i, d),
  let d := w.(others) i d in
  match w.(sql_fails) i with
  | Some e => (Ok (Err e), (S i, d))
  | None => match f d with Ok (a, d') => (Ok (Ok a), (S i, d')) | Err e => (Ok (Err e), (S i, d)) end
  end.
Definition select {A} (f : Db → A) : M (result string A) := query (λ d, Ok (f d, d)).
Definition write (f : Db → result string Db) : M (result string unit) := query (λ d, d' ← f d; Ok (tt, d')).

(** ** The gate *)

Definition gate_blocked : option Reply :=
  if is_gated srv.(entitlement)
  then Some (refuse 403 "ENTITLEMENT_GATED" "License gated. Activate or renew your license to perform this action.") else None.
Definition gate : M unit := match gate_blocked with Some r => reply r | None => mret tt end.

(** ** Lists *)

(** [ORDER BY time DESC LIMIT n] of the rows that a condition keeps. *)
Definition newest {R} (time : R → string) (keep : R → bool) (limit : Z) (t : gmap string R) : list (string * R) :=
  take (Z.to_nat limit) (merge_sort (text_desc (λ kv, time kv.2)) (filter (λ kv, keep kv.2 = true) (map_to_list t))).
Definition rows_json {R} (row : string → R → json) (l : list (string * R)) : json := JArr ((λ kv, row kv.1 kv.2) <$> l).
(** A list, or DB_ERROR with status 200; a row, or that and NOT_FOUND. *)
Definition list_reply {R} (row : string → R → json) (f : Db → list (string * R)) : M Reply :=
  r ← select f; mret (match r with Ok l => ok (rows_json row l) | Err e => soft "DB_ERROR" e end).
Definition get_reply {R} (row : string → R → json) (table : Db → gmap string R) (missing id : string) : M Reply :=
  r ← select (λ d, table d !! id);
  mret (match r with Ok (Some x) => ok (row id x) | Ok None => soft "NOT_FOUND" missing | Err e => soft "DB_ERROR" e end).
Definition all {R} (_ : R) : bool := true.
Definition whole {R} (t : gmap string R) : Z := Z.of_nat (size t).

Definition RUN_HISTORY_DEFAULT_LIMIT : Z := 50.
Definition RUN_HISTORY_MAX_LIMIT : Z := 200.
Definition SAVED_QUERY_DEFAULT_LIMIT : Z := 100.
Definition SAVED_QUERY_MAX_LIMIT : Z := 500.
Definition SNAPSHOT_LIST_DEFAULT_LIMIT : Z := 50.
Definition SNAPSHOT_LIST_MAX_LIMIT : Z := 200.

Definition list_tasks : M Reply := list_reply task_json (λ d, newest st_created_at all (whole d.(tasks)) d.(tasks)).
Definition list_connections : M Reply := list_reply connection_json (λ d, newest dc_created_at all (whole d.(connections)) d.(connections)).
(** The query string of the lists: none when it was rejected. *)
Definition with_query {Q} (q : option Q) (message : string) (k : Q → M Reply) : M Reply :=
  match q with None => reply (bad_query message) | Some q => k q end.
Definition TASK_QUERY : string := "missing or invalid query parameters (expected task_id, optional limit)".
Definition CONNECTION_QUERY : string := "missing or invalid query parameters (expected connection_id, optional limit)".
Definition SAVED_QUERY : string := "invalid query parameters (optional: tag, q, limit)".
Definition list_run_history (q : option (string * option Z)) : M Reply :=
  with_query q TASK_QUERY (λ '(task, limit), list_reply history_json (λ d,
    newest rh_started_at (λ r, bool_decide (r.(rh_task_id) = task)) (clamp_limit limit RUN_HISTORY_DEFAULT_LIMIT RUN_HISTORY_MAX_LIMIT) d.(run_history))).
Definition list_health_results (q : option (string * option Z)) : M Reply :=
  with_query q TASK_QUERY (λ '(task, limit), list_reply result_json (λ d,
    newest hr_started_at (λ r, bool_decide (r.(hr_task_id) = task)) (clamp_limit limit RUN_HISTORY_DEFAULT_LIMIT RUN_HISTORY_MAX_LIMIT) d.(health_results))).
Definition list_snapshots (q : option (string * option Z)) : M Reply :=
  with_query q CONNECTION_QUERY (λ '(conn, limit), list_reply snapshot_meta_json (λ d,
    newest ss_captured_at (λ s, bool_decide (s.(ss_connection_id) = conn)) (clamp_limit limit SNAPSHOT_LIST_DEFAULT_LIMIT SNAPSHOT_LIST_MAX_LIMIT) d.(snapshots))).
Definition get_snapshot (id : string) : M Reply := get_reply snapshot_json snapshots "Snapshot not found" id.

(** The saved queries whose tags and texts match. *)
Definition tag_pattern (tag : string) : string := "%" +:+ (String "034" "" +:+ tag +:+ String "034" "") +:+ "%".
Definition text_pattern (needle : string) : string := "%" +:+ needle +:+ "%".
Definition matches (q : SavedQueryListQuery) (r : SavedQuery) : bool :=
  match q.(ql_tag) with Some tag => like (tag_pattern tag) r.(sq_tags) | None => true end &&
  match q.(ql_q) with Some n => like (text_pattern n) r.(sq_title) || like (text_pattern n) r.(sq_sql_text) | None => true end.
Definition list_saved_queries (q : option SavedQueryListQuery) : M Reply :=
  with_query q SAVED_QUERY (λ q, list_reply query_json (λ d,
    newest sq_created_at (matches q) (clamp_limit q.(ql_limit) SAVED_QUERY_DEFAULT_LIMIT SAVED_QUERY_MAX_LIMIT) d.(queries))).
Definition get_saved_query (id : string) : M Reply := get_reply query_json queries "Saved query not found" id.

(** The runs of a task, with their summary as JSON. *)
Definition run_json (id : string) (r : DataSyncRun) : json :=
  JObj [("id", JStr id); ("task_id", JStr r.(ds_task_id)); ("started_at", JStr r.(ds_started_at)); ("finished_at", jstr_opt r.(ds_finished_at));
        ("status", JStr r.(ds_status)); ("progress", JInt r.(ds_progress)); ("cursor", jstr_opt r.(ds_cursor));
        ("processed_rows", JInt r.(ds_processed_rows)); ("failed_rows", JInt r.(ds_failed_rows)); ("error", jstr_opt r.(ds_error));
        ("summary", default JNull (r.(ds_summary) ≫= from_str)); ("triggered_by", JStr r.(ds_triggered_by))].
Definition list_data_sync_runs (id : string) (limit : option Z) : M Reply :=
  r ← select (λ d, newest ds_started_at (λ r, bool_decide (r.(ds_task_id) = id)) (Z.max 1 (Z.min (default 20 limit) 100))%Z d.(data_sync_runs));
  mret (match r with Ok l => ok (rows_json run_json l) | Err e => refuse 500 "DB_ERROR" e end).

(** ** Tasks *)

Definition embedded_refuses (task_type : string) : M unit :=
  if srv.(embedded_mode) && bool_decide (task_type ∈ ["schema_drift"; "health_check"])
  then reply (refuse 400 "UNSUPPORTED_IN_EMBEDDED" "schema drift and health check require a remote dbmaster-server deployment; the embedded local engine does not run them")
  else mret tt.
Definition check_connection (side id : string) : M unit :=
  r ← select (λ d, bool_decide (is_Some (d.(connections) !! id)));
  match r with
  | Ok true => mret tt
  | Ok false => reply (refuse 404 "CONNECTION_NOT_FOUND" (side +:+ " connection not found: " +:+ id +:+
                         ". Register the connection under Server connections before creating the task."))
  | Err _ => reply (refuse 500 "INTERNAL" "failed to validate task connections")
  end.
Definition validate_task_connections (b : CreateTaskRequest) : M unit :=
  _ ← check_connection "source" b.(ct_source);
  match b.(ct_target) with Some t => check_connection "target" t | None => mret tt end.
Definition task_row (b : CreateTaskRequest) : ScheduledTask :=
  {| st_name := b.(ct_name); st_task_type := b.(ct_task_type); st_cron_expr := b.(ct_cron_expr); st_config := to_vec b.(ct_config);
     st_source := b.(ct_source); st_target := b.(ct_target); st_notify := to_vec (jstrs (default [] b.(ct_notify)));
     st_enabled := true; st_last_run_at := None; st_last_status := None; st_created_at := w.(now); st_updated_at := w.(db_now) |}.
(** The row just written. *)
Definition fetched {R} (row : string → R → json) (table : Db → gmap string R) (id : string) : M Reply :=
  r ← select (λ d, table d !! id);
  mret (match r with
        | Ok (Some x) => ok (row id x)
        | Ok None => soft "FETCH_FAILED" srv.(row_not_found)
        | Err e => soft "FETCH_FAILED" e
        end).
Definition create_task (b : CreateTaskRequest) : M Reply :=
  _ ← gate;
  _ ← embedded_refuses b.(ct_task_type);
  _ ← validate_task_connections b;
  r ← write (insert_task_row srv.(unique_failed) srv.(foreign_key_failed) w.(new_id) (task_row b));
  match r with Ok _ => fetched task_json tasks w.(new_id) | Err e => mret (soft "CREATE_FAILED" e) end.

(** The patch: the columns named, and [updated_at]. *)
Definition given {A} (o : option A) (a : A) : A := default a o.
Definition patch_task (b : UpdateTaskRequest) (t : ScheduledTask) : ScheduledTask :=
  {| st_name := given b.(ut_name) t.(st_name); st_task_type := t.(st_task_type); st_cron_expr := given b.(ut_cron_expr) t.(st_cron_expr);
     st_config := given (to_vec <$> b.(ut_config)) t.(st_config); st_source := t.(st_source);
     st_target := match b.(ut_target) with Some c => Some c | None => t.(st_target) end;
     st_notify := given (to_vec ∘ jstrs <$> b.(ut_notify)) t.(st_notify); st_enabled := given b.(ut_enabled) t.(st_enabled);
     st_last_run_at := t.(st_last_run_at); st_last_status := t.(st_last_status); st_created_at := t.(st_created_at);
     st_updated_at := w.(now) |}.
Definition empty_patch (b : UpdateTaskRequest) : bool :=
  match b.(ut_enabled), b.(ut_name), b.(ut_cron_expr), b.(ut_config), b.(ut_target), b.(ut_notify) with
  | None, None, None, None, None, None => true | _, _, _, _, _, _ => false end.
Definition update_task (id : string) (b : UpdateTaskRequest) : M Reply :=
  _ ← gate;
  if empty_patch b then reply (refuse 400 "EMPTY_PATCH" "No updatable fields provided") else
  r ← query (update_task_row srv.(foreign_key_failed) id (patch_task b));
  match r with
  | Ok O => reply (refuse 404 "NOT_FOUND" "Task not found")
  | Ok _ => fetched task_json tasks id
  | Err e => reply (refuse 500 "DB_ERROR" e)
  end.
Definition deleted : json := JObj [("deleted", JBool true)].
Definition delete_task (id : string) : M Reply :=
  _ ← gate;
  r ← write (λ d, Ok (delete_task_row id d));
  mret (match r with Ok _ => ok deleted | Err e => soft "DB_ERROR" e end).

(** Running a task: which runner is started, and for whom. *)
Inductive Runner : Type := DriftRunner | DataSyncRunner | HealthCheckRunner.
Record Spawn := { sp_runner : Runner; sp_task : string; sp_triggered_by : string }.
Definition runner_of (task_type : string) : option Runner :=
  if decide (task_type = "schema_drift") then Some DriftRunner else if decide (task_type = "data_sync") then Some DataSyncRunner
  else if decide (task_type = "health_check") then Some HealthCheckRunner else None.
Definition run_task_now (sub id : string) : M (Reply * Spawn) :=
  _ ← gate;
  r ← select (λ d, st_task_type <$> d.(tasks) !! id);
  match r with
  | Err _ => reply (refuse 500 "INTERNAL" "failed to load task")
  | Ok None => reply (refuse 404 "TASK_NOT_FOUND" "task not found")
  | Ok (Some task_type) =>
      _ ← embedded_refuses task_type;
      match runner_of task_type with
      | None => reply (refuse 400 "UNSUPPORTED_TASK_TYPE" ("manual run is not supported for task_type '" +:+ task_type +:+ "'"))
      | Some runner =>
          mret ((202%Z, ok_response (JObj [("task_id", JStr id); ("status", JStr "queued");
                                           ("result_at", JStr "GET /api/tasks (last_status) or task_run_history")])),
                {| sp_runner := runner; sp_task := id; sp_triggered_by := "manual:" +:+ sub |})
      end
  end.
Definition cancel_task (id : string) : M Reply :=
  _ ← gate;
  r ← query (λ d, Ok (request_cancel id d));
  mret (match r with
        | Ok n => ok (JObj [("task_id", JStr id); ("cancel_requested", JBool true); ("rows_affected", JInt (Z.of_nat n))])
        | Err e => refuse 500 "DB_ERROR" e
        end).

(** ** Connections *)

(** A write probe that a read-only account fails. *)
Definition source_target (b : CreateConnectionRequest) : option Target :=
  let t := to_ascii_lowercase b.(cc_db_type) in
  let login := if bool_decide (t = "mysql") then Some (MySqlLogin default_handshake)
               else if bool_decide (t ∈ ["postgres"; "postgresql"; "pg"]) then Some (PgLogin None) else None in
  (λ l, Net l b.(cc_host) (as_u16 b.(cc_port)) b.(cc_username) (Some b.(cc_password)) (Some (default "" b.(cc_default_database)))) <$> login.
Definition failed_at {A} (what : string) (r : result string A) : result string A :=
  match r with Ok a => Ok a | Err e => Err (what +:+ ": " +:+ e) end.
Definition WRITABLE : string := "source account is writable; create a read-only account (SELECT on information_schema only)".
Definition run_create_canary (b : CreateConnectionRequest) : result string unit :=
  match source_target b with
  | None => Err ("unsupported db_type for source_drift: " +:+ to_ascii_lowercase b.(cc_db_type))
  | Some t =>
      _ ← failed_at "cannot connect to source DB" (w.(canary).(can_connect) t);
      match t with
      | Net (PgLogin _) _ _ _ _ _ =>
          _ ← failed_at "pool acquire failed" w.(canary).(can_acquire);
          _ ← failed_at "begin failed" w.(canary).(can_begin);
          if w.(canary).(can_create) "CREATE TEMP TABLE dbmaster_canary_readonly (id INT)" then Err WRITABLE else Ok tt
      | _ => if w.(canary).(can_create) "CREATE TEMPORARY TABLE dbmaster_canary_readonly (id INT)" then Err WRITABLE else Ok tt
      end
  end.
Definition kind_of (kind : option string) : string :=
  if bool_decide (to_ascii_lowercase <$> kind = Some "source_drift") then "source_drift" else "collab".
(** Encrypting: the [i]-th secret; an absent or empty one is not stored. *)
Definition encryption_failed (code : string) : Reply := soft code "credential encryption failed".
Definition encrypt_secret (code : string) (i : nat) (plain : string) : M string :=
  match encrypt_v1 (w.(nonce) i) plain srv.(credential_key) with Ok ct => mret ct | Err _ => reply (encryption_failed code) end.
Definition encrypt_optional (i : nat) (plain : option string) : M (option string) :=
  match plain with
  | Some p => if is_empty p then mret None else ct ← encrypt_secret "CREATE_FAILED" i p; mret (Some ct)
  | None => mret None
  end.
Definition connection_row (sub kind password : string) (ssh_password ssh_key ssh_pass : option string) (b : CreateConnectionRequest) : DatabaseConnection :=
  {| dc_name := b.(cc_name); dc_db_type := b.(cc_db_type); dc_host := b.(cc_host); dc_port := b.(cc_port); dc_username := b.(cc_username);
     dc_password_encrypted := password; dc_default_database := b.(cc_default_database); dc_ssh_enabled := b.(cc_ssh_enabled);
     dc_ssh_host := b.(cc_ssh_host); dc_ssh_port := b.(cc_ssh_port); dc_team_id := None; dc_created_by := sub; dc_created_at := w.(now);
     dc_kind := kind; dc_file_path := b.(cc_file_path); dc_use_ssl := b.(cc_use_ssl); dc_timeout_seconds := b.(cc_timeout_seconds);
     dc_auto_reconnect := b.(cc_auto_reconnect); dc_charset := b.(cc_charset); dc_timezone := b.(cc_timezone);
     dc_environment := b.(cc_environment); dc_read_only := b.(cc_read_only); dc_group_id := b.(cc_group_id); dc_extra := b.(cc_extra);
     dc_ssh_username := b.(cc_ssh_username); dc_ssh_auth_mode := b.(cc_ssh_auth_mode); dc_ssh_password_encrypted := ssh_password;
     dc_ssh_private_key_encrypted := ssh_key; dc_ssh_passphrase_encrypted := ssh_pass |}.
Definition create_connection (sub : string) (b : CreateConnectionRequest) : M Reply :=
  _ ← gate;
  let kind := kind_of b.(cc_kind) in
  match (if bool_decide (kind = "source_drift") then run_create_canary b else Ok tt) with
  | Err msg => mret (soft "CANARY_REJECTED" msg)
  | Ok _ =>
      password ← encrypt_secret "CREATE_FAILED" 0 b.(cc_password);
      ssh_password ← encrypt_optional 1 b.(cc_ssh_password);
      ssh_key ← encrypt_optional 2 b.(cc_ssh_private_key);
      ssh_pass ← encrypt_optional 3 b.(cc_ssh_passphrase);
      r ← write (insert_connection_row srv.(unique_failed) w.(new_id) (connection_row sub kind password ssh_password ssh_key ssh_pass b));
      match r with Ok _ => fetched connection_json connections w.(new_id) | Err e => mret (soft "CREATE_FAILED" e) end
  end.
(** Failures of the statement are not looked at. *)
Definition delete_connection (id : string) : M Reply :=
  _ ← gate;
  _ ← write (delete_connection_row srv.(foreign_key_failed) id);
  mret (ok deleted).

(** The plain credential. *)
Definition decrypt_optional (stored : option string) : M (option string) :=
  match stored with
  | Some s => if is_empty s then mret None else
              match decrypt_password s srv.(credential_key) with
              | Ok p => mret (Some p)
              | Err _ => reply (soft "DECRYPT_FAILED" "stored ssh credential could not be decrypted")
              end
  | None => mret None
  end.
Definition get_connection_credential (id : string) : M Reply :=
  if negb srv.(embedded_mode)
  then reply (soft "NOT_EMBEDDED" "Credential retrieval is available only in embedded mode.") else
  r ← select (λ d, d.(connections) !! id);
  match r with
  | Err e => reply (soft "DB_ERROR" e)
  | Ok None => reply (soft "NOT_FOUND" "connection not found")
  | Ok (Some row) =>
      match decrypt_password row.(dc_password_encrypted) srv.(credential_key) with
      | Err _ => reply (soft "DECRYPT_FAILED" "stored credential could not be decrypted (key changed?)")
      | Ok password =>
          ssh_password ← decrypt_optional row.(dc_ssh_password_encrypted);
          ssh_key ← decrypt_optional row.(dc_ssh_private_key_encrypted);
          ssh_pass ← decrypt_optional row.(dc_ssh_passphrase_encrypted);
          mret (ok (JObj [("id", JStr id); ("password", JStr password); ("ssh_username", jstr_opt row.(dc_ssh_username));
                          ("ssh_auth_mode", jstr_opt row.(dc_ssh_auth_mode)); ("ssh_password", jstr_opt ssh_password);
                          ("ssh_private_key", jstr_opt ssh_key); ("ssh_passphrase", jstr_opt ssh_pass)]))
      end
  end.

(** An edit: the row is read, and fourteen of its columns are written back. *)
Definition or_kept {A} (o kept : option A) : option A := match o with Some a => Some a | None => kept end.
Definition edited (b : UpdateConnectionRequest) (password : string) (row : DatabaseConnection) : DatabaseConnection :=
  {| dc_name := given b.(uc_name) row.(dc_name); dc_db_type := given b.(uc_db_type) row.(dc_db_type);
     dc_host := given b.(uc_host) row.(dc_host); dc_port := given b.(uc_port) row.(dc_port); dc_username := given b.(uc_username) row.(dc_username);
     dc_password_encrypted := password; dc_default_database := or_kept b.(uc_default_database) row.(dc_default_database);
     dc_ssh_enabled := row.(dc_ssh_enabled); dc_ssh_host := row.(dc_ssh_host); dc_ssh_port := row.(dc_ssh_port); dc_team_id := row.(dc_team_id);
     dc_created_by := row.(dc_created_by); dc_created_at := row.(dc_created_at); dc_kind := row.(dc_kind);
     dc_file_path := or_kept b.(uc_file_path) row.(dc_file_path); dc_use_ssl := given b.(uc_use_ssl) row.(dc_use_ssl);
     dc_timeout_seconds := given b.(uc_timeout_seconds) row.(dc_timeout_seconds); dc_auto_reconnect := row.(dc_auto_reconnect);
     dc_charset := or_kept b.(uc_charset) row.(dc_charset); dc_timezone := or_kept b.(uc_timezone) row.(dc_timezone);
     dc_environment := or_kept b.(uc_environment) row.(dc_environment); dc_read_only := given b.(uc_read_only) row.(dc_read_only);
     dc_group_id := row.(dc_group_id); dc_extra := row.(dc_extra); dc_ssh_username := row.(dc_ssh_username);
     dc_ssh_auth_mode := row.(dc_ssh_auth_mode); dc_ssh_password_encrypted := row.(dc_ssh_password_encrypted);
     dc_ssh_private_key_encrypted := row.(dc_ssh_private_key_encrypted); dc_ssh_passphrase_encrypted := row.(dc_ssh_passphrase_encrypted) |}.
(** What the statement sets, from a row with the new values. *)
Definition set_columns (new c : DatabaseConnection) : DatabaseConnection :=
  {| dc_name := new.(dc_name); dc_db_type := new.(dc_db_type); dc_host := new.(dc_host); dc_port := new.(dc_port); dc_username := new.(dc_username);
     dc_password_encrypted := new.(dc_password_encrypted); dc_default_database := new.(dc_default_database);
     dc_ssh_enabled := c.(dc_ssh_enabled); dc_ssh_host := c.(dc_ssh_host); dc_ssh_port := c.(dc_ssh_port); dc_team_id := c.(dc_team_id);
     dc_created_by := c.(dc_created_by); dc_created_at := c.(dc_created_at); dc_kind := c.(dc_kind); dc_file_path := new.(dc_file_path);
     dc_use_ssl := new.(dc_use_ssl); dc_timeout_seconds := new.(dc_timeout_seconds); dc_auto_reconnect := c.(dc_auto_reconnect);
     dc_charset := new.(dc_charset); dc_timezone := new.(dc_timezone); dc_environment := new.(dc_environment); dc_read_only := new.(dc_read_only);
     dc_group_id := c.(dc_group_id); dc_extra := c.(dc_extra); dc_ssh_username := c.(dc_ssh_username); dc_ssh_auth_mode := c.(dc_ssh_auth_mode);
     dc_ssh_password_encrypted := c.(dc_ssh_password_encrypted); dc_ssh_private_key_encrypted := c.(dc_ssh_private_key_encrypted);
     dc_ssh_passphrase_encrypted := c.(dc_ssh_passphrase_encrypted) |}.
Definition new_password (b : UpdateConnectionRequest) (row : DatabaseConnection) : M string :=
  match b.(uc_password) with
  | Some p => if is_empty p then mret row.(dc_password_encrypted) else encrypt_secret "UPDATE_FAILED" 0 p
  | None => mret row.(dc_password_encrypted)
  end.
Definition update_connection (id : string) (b : UpdateConnectionRequest) : M Reply :=
  _ ← gate;
  r ← select (λ d, d.(connections) !! id);
  match r with
  | Err e => reply (refuse 500 "DB_ERROR" e)
  | Ok None => reply (refuse 404 "NOT_FOUND" "connection not found")
  | Ok (Some row) =>
      password ← new_password b row;
      r ← write (λ d, Ok (update_connection_row id (set_columns (edited b password row)) d));
      match r with Ok _ => fetched connection_json connections id | Err e => mret (soft "UPDATE_FAILED" e) end
  end.

(** ** Saved queries *)

Definition save_query (sub : string) (b : SaveQueryRequest) : M Reply :=
  _ ← gate;
  r ← write (insert_query_row srv.(unique_failed) w.(new_id)
        {| sq_title := b.(sv_title); sq_sql_text := b.(sv_sql_text); sq_tags := to_vec (jstrs b.(sv_tags)); sq_workspace_id := "default";
           sq_created_by := sub; sq_created_at := w.(now) |});
  mret (match r with Ok _ => ok (JObj [("id", JStr w.(new_id)); ("saved", JBool true)]) | Err e => soft "SAVE_FAILED" e end).
Definition no_saved_query : Reply := soft "NOT_FOUND" "Saved query not found".
Definition delete_saved_query (sub id : string) : M Reply :=
  _ ← gate;
  r ← select (λ d, sq_created_by <$> d.(queries) !! id);
  match r with
  | Err e => mret (soft "DB_ERROR" e)
  | Ok None => mret no_saved_query
  | Ok (Some created_by) =>
      if bool_decide (created_by ≠ sub) then reply (refuse 403 "FORBIDDEN" "Only the author can delete a saved query.") else
      r ← query (λ d, Ok (delete_query_row id d));
      mret (match r with
            | Ok O => no_saved_query
            | Ok _ => ok (JObj [("id", JStr id); ("deleted", JBool true)])
            | Err e => soft "DB_ERROR" e
            end)
  end.

(** ** Requests *)

Inductive Request : Type :=
| ListTasks | CreateTask (b : CreateTaskRequest) | UpdateTask (id : string) (b : UpdateTaskRequest) | DeleteTask (id : string)
| RunTask (id : string) | CancelTask (id : string) | ListRuns (id : string) (limit : option Z)
| ListConnections | GetCredential (id : string) | CreateConnection (b : CreateConnectionRequest)
| UpdateConnection (id : string) (b : UpdateConnectionRequest) | DeleteConnection (id : string)
| ListQueries (q : option SavedQueryListQuery) | GetQuery (id : string) | SaveQuery (b : SaveQueryRequest) | DeleteQuery (id : string)
| RunHistory (q : option (string * option Z)) | HealthResults (q : option (string * option Z))
| Snapshots (q : option (string * option Z)) | GetSnapshot (id : string).
Definition serve (sub : string) (r : Request) : M Reply :=
  match r with
  | ListTasks => list_tasks | CreateTask b => create_task b | UpdateTask id b => update_task id b | DeleteTask id => delete_task id
  | RunTask id => x ← run_task_now sub id; mret x.1
  | CancelTask id => cancel_task id | ListRuns id limit => list_data_sync_runs id limit
  | ListConnections => list_connections | GetCredential id => get_connection_credential id | CreateConnection b => create_connection sub b
  | UpdateConnection id b => update_connection id b | DeleteConnection id => delete_connection id
  | ListQueries q => list_saved_queries q | GetQuery id => get_saved_query id | SaveQuery b => save_query sub b
  | DeleteQuery id => delete_saved_query sub id
  | RunHistory q => list_run_history q | HealthResults q => list_health_results q | Snapshots q => list_snapshots q
  | GetSnapshot id => get_snapshot id
  end.
End Handlers.

(** ** Runs *)

(** What a handler leaves of a property of the database. *)
Definition Keeps {A} (P : Db → Prop) (m : M A) : Prop := ∀ i d, P d → P (m (i, d)).2.2.
Lemma keeps_ret {A} P (a : A) : Keeps P (mret a).
Proof. by intros i d. Qed.
Lemma keeps_reply {A} P r : Keeps P (reply r : M A).
Proof. by intros i d. Qed.
Lemma keeps_bind {A B} P (m : M A) (f : A → M B) : Keeps P m → (∀ a, Keeps P (f a)) → Keeps P (m ≫= f).
Proof.
  intros Hm Hf i d Hd. specialize (Hm i d Hd). unfold mbind, handler_bind. destruct (m (i, d)) as [[a|r] [j d']]; [|done]. by apply Hf.
Qed.
Create HintDb keeps discriminated.
#[export] Hint Resolve keeps_ret keeps_reply keeps_bind : keeps.

Section Keeping.
Context `{Printer, Reader, Cipher} (srv : Server) (w : World) (P : Db → Prop) (Hothers : ∀ i d, P d → P (w.(others) i d)).

Lemma keeps_query {A} (f : Db → result string (A * Db)) : (∀ d a d', P d → f d = Ok (a, d') → P d') → Keeps P (query w f).
Proof.
  intros Hf i d Hd. unfold query. apply (Hothers i) in Hd. destruct (sql_fails w i); [done|]. cbn.
  destruct (f (others w i d)) as [[a d']|e] eqn:E; [|done]. by eapply Hf.
Qed.
Lemma keeps_select {A} (f : Db → A) : Keeps P (select w f).
Proof. apply keeps_query. by intros d a d' Hd [= _ <-]. Qed.
Lemma keeps_write (f : Db → result string Db) : (∀ d d', P d → f d = Ok d' → P d') → Keeps P (write w f).
Proof. intros Hf. apply keeps_query. intros d a d' Hd. destruct (f d) eqn:E; [|done]. intros [= _ <-]. by eapply Hf. Qed.
Lemma keeps_gate : Keeps P (gate srv).
Proof. unfold gate. destruct (gate_blocked srv); auto with keeps. Qed.
#[local] Hint Resolve keeps_select keeps_gate : keeps.
Lemma keeps_list {R} (row : string → R → json) f : Keeps P (list_reply w row f).
Proof. unfold list_reply. auto with keeps. Qed.
Lemma keeps_get {R} (row : string → R → json) t missing id : Keeps P (get_reply w row t missing id).
Proof. unfold get_reply. auto with keeps. Qed.
Lemma keeps_fetched {R} (row : string → R → json) t id : Keeps P (fetched srv w row t id).
Proof. unfold fetched. auto with keeps. Qed.
#[local] Hint Resolve keeps_list keeps_get keeps_fetched : keeps.
Lemma keeps_embedded ty : Keeps P (embedded_refuses srv ty).
Proof. unfold embedded_refuses. destruct (_ && _); auto with keeps. Qed.
Lemma keeps_validate b : Keeps P (validate_task_connections w b).
Proof.
  assert (Hc : ∀ side id, Keeps P (check_connection w side id)).
  { intros side id. apply keeps_bind; [auto with keeps|]. intros [[]|]; auto with keeps. }
  apply keeps_bind; [apply Hc|]. intros _. destruct (ct_target b); auto with keeps.
Qed.
Lemma keeps_secret code i p : Keeps P (encrypt_secret srv w code i p).
Proof. unfold encrypt_secret. destruct (encrypt_v1 _ _ _); auto with keeps. Qed.
Lemma keeps_optional i o : Keeps P (encrypt_optional srv w i o).
Proof.
  unfold encrypt_optional. destruct o as [p|]; [|auto with keeps]. destruct (is_empty p); [auto with keeps|].
  apply keeps_bind; [apply keeps_secret|auto with keeps].
Qed.
Lemma keeps_with_query {Q} (q : option Q) msg k : (∀ q, Keeps P (k q)) → Keeps P (with_query q msg k).
Proof. intros Hk. destruct q; [apply Hk|apply keeps_reply]. Qed.
Lemma keeps_decrypt o : Keeps P (decrypt_optional srv o).
Proof. unfold decrypt_optional. destruct o as [s|]; [|auto with keeps]. destruct (is_empty s); [auto with keeps|]. destruct (decrypt_password _ _); auto with keeps. Qed.
Lemma keeps_credential id : Keeps P (get_connection_credential srv w id).
Proof.
  unfold get_connection_credential. destruct (negb _); [auto with keeps|]. apply keeps_bind; [auto with keeps|]. intros [[row|]|]; [|auto with keeps..].
  destruct (decrypt_password _ _); [|auto with keeps]. do 3 (apply keeps_bind; [apply keeps_decrypt|]; intros ?). auto with keeps.
Qed.
Lemma keeps_run sub id : Keeps P (run_task_now srv w sub id).
Proof.
  unfold run_task_now. apply keeps_bind; [auto with keeps|]. intros _. apply keeps_bind; [auto with keeps|]. intros [[ty|]|]; [|auto with keeps..].
  apply keeps_bind; [apply keeps_embedded|]. intros _. destruct (runner_of ty); auto with keeps.
Qed.
End Keeping.

(** The statements of the requests that write. *)
Inductive Writes {Pr : Printer} (srv : Server) (w : World) (sub : string) : Request → (Db → Db → Prop) → Prop :=
| writes_create_task b : Writes srv w sub (CreateTask b) (λ d d', insert_task_row srv.(unique_failed) srv.(foreign_key_failed) w.(new_id) (task_row w b) d = Ok d')
| writes_update_task id b : Writes srv w sub (UpdateTask id b) (λ d d', ∃ n, update_task_row srv.(foreign_key_failed) id (patch_task w b) d = Ok (n, d'))
| writes_delete_task id : Writes srv w sub (DeleteTask id) (λ d d', d' = delete_task_row id d)
| writes_cancel id : Writes srv w sub (CancelTask id) (λ d d', d' = (request_cancel id d).2)
| writes_create_connection b : Writes srv w sub (CreateConnection b) (λ d d', ∃ p e1 e2 e3,
    insert_connection_row srv.(unique_failed) w.(new_id) (connection_row w sub (kind_of b.(cc_kind)) p e1 e2 e3 b) d = Ok d')
| writes_update_connection id b : Writes srv w sub (UpdateConnection id b) (λ d d', ∃ p row, d' = update_connection_row id (set_columns (edited b p row)) d)
| writes_delete_connection id : Writes srv w sub (DeleteConnection id) (λ d d', delete_connection_row srv.(foreign_key_failed) id d = Ok d')
| writes_save_query b : Writes srv w sub (SaveQuery b) (λ d d', ∃ q, q.(sq_created_by) = sub ∧ insert_query_row srv.(unique_failed) w.(new_id) q d = Ok d')
| writes_delete_query id : Writes srv w sub (DeleteQuery id) (λ d d', d' = (delete_query_row id d).2).

Section Serving.
Context `{Printer, Reader, Cipher}.

(** A property that others keep, and that the request's own statement keeps, is kept. *)
Lemma serve_keeps srv w sub r (P : Db → Prop) : (∀ i d, P d → P (w.(others) i d)) →
  (∀ Q, Writes srv w sub r Q → ∀ d d', P d → Q d d' → P d') → Keeps P (serve srv w sub r).
Proof.
  intros Ho Hw.
  pose proof (keeps_gate srv P) as Hg. pose proof (@keeps_select w P Ho) as Hs. pose proof (@keeps_fetched srv w P Ho) as Hf.
  pose proof (@keeps_list w P Ho) as Hl. pose proof (@keeps_get w P Ho) as Hget.
  destruct r; cbn [serve]; try apply Hl; try apply Hget; try (apply keeps_with_query; try (intros [? ?]); intros; apply Hl).
  - apply keeps_bind; [done|]. intros _. apply keeps_bind; [apply keeps_embedded|]. intros _. apply keeps_bind; [by apply keeps_validate|]. intros _.
    apply keeps_bind; [|intros [|]; [apply Hf|apply keeps_ret]]. apply (keeps_write w P Ho). apply (Hw _ (writes_create_task srv w sub b)).
  - apply keeps_bind; [done|]. intros _. destruct (empty_patch b); [apply keeps_reply|].
    apply keeps_bind; [|intros [[|n]|]; [apply keeps_reply|apply Hf|apply keeps_reply]]. apply (keeps_query w P Ho).
    intros d n d' Hd E. apply (Hw _ (writes_update_task srv w sub id b) d); [done|]. by exists n.
  - apply keeps_bind; [done|]. intros _. apply keeps_bind; [|intros; apply keeps_ret]. apply (keeps_write w P Ho).
    intros d d' Hd [= <-]. by apply (Hw _ (writes_delete_task srv w sub id) d).
  - apply keeps_bind; [by apply keeps_run|]. intros; apply keeps_ret.
  - apply keeps_bind; [done|]. intros _. apply keeps_bind; [|intros; apply keeps_ret]. apply (keeps_query w P Ho).
    intros d n d' Hd [= _ <-]. by apply (Hw _ (writes_cancel srv w sub id) d).
  - apply keeps_bind; [apply Hs|]. intros; apply keeps_ret.
  - by apply keeps_credential.
  - unfold create_connection. apply keeps_bind; [done|]. intros _. cbv zeta. destruct (if bool_decide (kind_of (cc_kind b) = "source_drift") then run_create_canary w b else Ok tt); [|apply keeps_ret].
    apply keeps_bind; [apply keeps_secret|]. intros p. do 3 (apply keeps_bind; [apply keeps_optional|]; intros ?).
    apply keeps_bind; [|intros [|]; [apply Hf|apply keeps_ret]]. apply (keeps_write w P Ho). intros d d' Hd E.
    apply (Hw _ (writes_create_connection srv w sub b) d); [done|]. by repeat eexists.
  - unfold update_connection. apply keeps_bind; [done|]. intros _. apply keeps_bind; [apply Hs|]. intros [[row|]|]; [|apply keeps_reply..].
    apply keeps_bind; [unfold new_password; destruct (uc_password b) as [p|]; [destruct (is_empty p); [apply keeps_ret|apply keeps_secret]|apply keeps_ret]|].
    intros p. apply keeps_bind; [|intros [|]; [apply Hf|apply keeps_ret]]. apply (keeps_write w P Ho). intros d d' Hd [= <-].
    apply (Hw _ (writes_update_connection srv w sub id b) d); [done|]. by repeat eexists.
  - apply keeps_bind; [done|]. intros _. apply keeps_bind; [|intros; apply keeps_ret]. apply (keeps_write w P Ho).
    intros d d' Hd E. by apply (Hw _ (writes_delete_connection srv w sub id) d).
  - apply keeps_bind; [done|]. intros _. apply keeps_bind; [|intros; apply keeps_ret]. apply (keeps_write w P Ho).
    intros d d' Hd E. apply (Hw _ (writes_save_query srv w sub b) d); [done|]. eexists. split; [|exact E]. done.
  - unfold delete_saved_query. apply keeps_bind; [done|]. intros _. apply keeps_bind; [apply Hs|]. intros [[u|]|]; [|apply keeps_ret..].
    destruct (bool_decide _); [apply keeps_reply|]. apply keeps_bind; [|intros; apply keeps_ret]. apply (keeps_query w P Ho).
    intros d n d' Hd [= _ <-]. by apply (Hw _ (writes_delete_query srv w sub id) d).
Qed.

(** A run: requests one after the other, each with other requests before its
    statements, all of them [allowed]. *)
Inductive Run (allowed : Server → string → Request → Prop) : Db → Db → Prop :=
| run_none d : Run allowed d d
| run_request d d' (srv : Server) (w : World) sub r : Run allowed d d' → (∀ i x, Run allowed x (w.(others) i x)) → allowed srv sub r →
    Run allowed d (serve srv w sub r (0, d')).2.2.

(** C8.  No foreign key is ever left hanging.  Whatever requests of these endpoints are
    served, interleaved in whatever way, with failures of whichever statements: if every
    task refers to a source and, if it has one, a target that are there, every history
    row, health result, sync run, alert state and report to a task that is there, and
    every snapshot, audit row and approval to a connection that is there, then so it is
    afterwards.  The task a snapshot was taken for is no foreign key, and may be gone
    (Example snapshot_outlives_task). *)
Theorem references_hold d d' : references d → Run (λ _ _ _, True) d d' → references d'.
Proof.
  intros Hd HR. induction HR as [|d d' srv w sub r HR IH Ho IHo _]; [done|].
  apply (serve_keeps srv w sub r references); [|clear HR IH Ho d d' Hd|by apply IH].
  { intros i x Hx. by apply IHo. }
  intros Q HQ x x' Hx. inversion HQ; subst; clear HQ; intros Hst.
  - by eapply insert_task_keeps.
  - destruct Hst as [n E]. by eapply update_task_keeps.
  - subst. by apply cascade_keeps.
  - subst. by apply request_cancel_keeps.
  - destruct Hst as (p & e1 & e2 & e3 & E). by eapply insert_connection_keeps.
  - destruct Hst as (p & row & ->). by apply update_connection_keeps.
  - by eapply delete_connection_keeps.
  - destruct Hst as (q & _ & E). unfold insert_query_row in E. destruct (queries x !! _); [done|]. injection E as <-. by apply with_queries_keeps.
  - subst. by apply with_queries_keeps.
Qed.
Definition reads (r : Request) : bool :=
  match r with
  | CreateTask _ | UpdateTask _ _ | DeleteTask _ | RunTask _ | CancelTask _ | CreateConnection _ | UpdateConnection _ _
  | DeleteConnection _ | SaveQuery _ | DeleteQuery _ => false
  | _ => true
  end.
Definition gated_reply : Reply := refuse 403 "ENTITLEMENT_GATED" "License gated. Activate or renew your license to perform this action.".
Lemma gate_closed srv : is_gated srv.(entitlement) = true → gate srv = reply gated_reply.
Proof. intros Hg. unfold gate, gate_blocked. by rewrite Hg. Qed.
Lemma serve_gated srv w sub r i d : is_gated srv.(entitlement) = true → reads r = false →
  serve srv w sub r (i, d) = (Err gated_reply, (i, d)).
Proof.
  intros Hg Hr. destruct r; cbn in Hr; try discriminate Hr; cbn [serve];
    unfold create_task, update_task, delete_task, run_task_now, cancel_task, create_connection, update_connection, delete_connection, save_query,
      delete_saved_query; by rewrite (gate_closed srv Hg).
Qed.

(** A lapsed license locks every change and no reading.  Requests served under a
    gated license, and those that only read, whatever they are and however they
    interleave, leave the database as it was; and a request to change something is
    refused with 403 before any statement. *)
Theorem gated_changes_nothing d d' srv w sub r i x :
  (Run (λ srv _ r, is_gated srv.(entitlement) = true ∨ reads r = true) d d' → d' = d) ∧
  (is_gated srv.(entitlement) = true → reads r = false → serve srv w sub r (i, x) = (Err gated_reply, (i, x))).
Proof.
  split; [|apply serve_gated]. intros HR. induction HR as [|d d' srv' w' sub' r' HR IH Ho IHo Ha]; [done|]. rewrite <- IH. clear IH HR.
  destruct (reads r') eqn:Er.
  - apply (serve_keeps srv' w' sub' r' (λ x, x = d')); [intros j y ->; apply IHo| |done]. intros Q HQ. by inversion HQ; subst.
  - rewrite serve_gated; [done|naive_solver|done].
Qed.

(** Only its author deletes a saved query.  Whatever requests others make, and
    whatever else its author does, a saved query stays as it was saved until its
    author deletes it. *)
Theorem author_deletes d d' id q :
  d.(queries) !! id = Some q → Run (λ _ sub r, ¬ (sub = q.(sq_created_by) ∧ r = DeleteQuery id)) d d' →
  d'.(queries) !! id = Some q.
Proof.
  intros Hd HR. induction HR as [|d d' srv w sub r HR IH Ho IHo Ha]; [done|]. specialize (IH Hd). clear HR Hd.
  assert (Hothers : ∀ i x, queries x !! id = Some q → queries (w.(others) i x) !! id = Some q) by (intros i x Hx; by apply IHo).
  assert (Hwrites : (∀ id', r = DeleteQuery id' → id' ≠ id) → Keeps (λ x, queries x !! id = Some q) (serve srv w sub r)).
  { intros Hne. apply serve_keeps; [done|]. intros Q HQ x x' Hx. inversion HQ; subst; clear HQ; intros Hst.
    - unfold insert_task_row in Hst. destruct (tasks x !! _); [done|]. destruct (_ && _); [|done]. by simplify_eq.
    - destruct Hst as [n E]. unfold update_task_row in E. destruct (tasks x !! _); [|by simplify_eq]. destruct (_ && _); [|done]. by simplify_eq.
    - by subst.
    - by subst.
    - destruct Hst as (p & e1 & e2 & e3 & E). unfold insert_connection_row in E. destruct (connections x !! _); [done|]. by simplify_eq.
    - by destruct Hst as (p & row & ->).
    - unfold delete_connection_row in Hst. destruct (bool_decide _); [done|]. by simplify_eq.
    - destruct Hst as (q' & _ & E). unfold insert_query_row in E. destruct (queries x !! new_id w) eqn:En; [done|]. simplify_eq. cbn.
      rewrite lookup_insert_ne; [done|]. intros E'. by rewrite E', Hx in En.
    - subst. cbn. rewrite lookup_delete_ne; [done|]. by apply Hne. }
  assert (r = DeleteQuery id ∨ ∀ id', r = DeleteQuery id' → id' ≠ id) as [->|Hr]; [|  |by apply Hwrites].
  { destruct r as [| | | | | | | | | | | | | | |id'| | | |]; try (right; discriminate). destruct (decide (id' = id)) as [->|]; [by left|right; congruence]. }
  assert (Hsub : sub ≠ q.(sq_created_by)) by naive_solver. cbn [serve]. unfold delete_saved_query, gate, mbind, handler_bind.
  destruct (gate_blocked srv) as [g|]; [done|]. cbn -[query]. unfold select, query. destruct (sql_fails w 0); [by apply Hothers|]. cbn.
  rewrite (Hothers 0 d' IH). cbn. rewrite bool_decide_eq_true_2 by done. cbn. by apply Hothers.
Qed.
End Serving.

(** ** Credentials *)

(** Nobody else, and no statement fails. *)
Definition quiet (w : World) : Prop := (∀ i d, w.(others) i d = d) ∧ ∀ i, w.(sql_fails) i = None.

Section Credentials.
Context `{Printer, Reader, CipherLaws}.

Lemma query_quiet {A} w (f : Db → result string (A * Db)) i d : quiet w → query w f (i, d) =
  match f d with Ok (a, d') => (Ok (Ok a), (S i, d')) | Err e => (Ok (Err e), (S i, d)) end.
Proof. intros [Ho Hf]. unfold query. by rewrite Ho, Hf. Qed.
(** What is stored for an optional secret. *)
Definition stored_as (srv : Server) (nonce : string) (plain ct : option string) : Prop :=
  match plain with
  | Some p => if is_empty p then ct = None else ∃ c, encrypt_v1 nonce p srv.(credential_key) = Ok c ∧ ct = Some c
  | None => ct = None
  end.
Lemma encrypt_optional_cases srv w i plain s :
  (∃ ct, encrypt_optional srv w i plain s = (Ok ct, s) ∧ stored_as srv (w.(nonce) i) plain ct) ∨ ∃ r, encrypt_optional srv w i plain s = (Err r, s).
Proof.
  unfold encrypt_optional, stored_as. destruct plain as [p|]; [|left; by exists None]. destruct (is_empty p); [left; by exists None|].
  unfold encrypt_secret. destruct (encrypt_v1 _ _ _) as [c|]; cbn; [left; exists (Some c); split; [done|by exists c]|right; by eexists].
Qed.
Lemma created_row srv w sub b d : quiet w → d.(connections) !! w.(new_id) = None →
  (serve srv w sub (CreateConnection b) (0, d)).2.2 = d ∨
  ∃ p e1 e2 e3, encrypt_v1 (w.(nonce) 0) b.(cc_password) srv.(credential_key) = Ok p ∧
    stored_as srv (w.(nonce) 1) b.(cc_ssh_password) e1 ∧ stored_as srv (w.(nonce) 2) b.(cc_ssh_private_key) e2 ∧
    stored_as srv (w.(nonce) 3) b.(cc_ssh_passphrase) e3 ∧
    (serve srv w sub (CreateConnection b) (0, d)).2.2 =
      with_connections <[w.(new_id) := connection_row w sub (kind_of b.(cc_kind)) p e1 e2 e3 b]> d.
Proof.
  intros Hq Hn. cbn [serve]. unfold create_connection, gate, mbind, handler_bind.
  destruct (gate_blocked srv); [by left|]. cbn [mret handler_ret]. destruct (if bool_decide _ then _ else _); [|by left].
  unfold encrypt_secret. destruct (encrypt_v1 (nonce w 0) _ _) as [p|] eqn:Ep; [|by left]. cbn [mret handler_ret].
  destruct (encrypt_optional_cases srv w 1 (cc_ssh_password b) (0, d)) as [(e1 & -> & E1)|(r & ->)]; [|by left].
  destruct (encrypt_optional_cases srv w 2 (cc_ssh_private_key b) (0, d)) as [(e2 & -> & E2)|(r & ->)]; [|by left].
  destruct (encrypt_optional_cases srv w 3 (cc_ssh_passphrase b) (0, d)) as [(e3 & -> & E3)|(r & ->)]; [|by left].
  right. exists p, e1, e2, e3. split_and!; [done..|]. unfold write. rewrite query_quiet by done. unfold insert_connection_row. rewrite Hn.
  cbn [mbind result_mbind]. unfold fetched, select, mbind, handler_bind. by rewrite query_quiet by done.
Qed.
Lemma row_stays d d' id c : d.(connections) !! id = Some c →
  Run (λ _ _ r, r ≠ DeleteConnection id ∧ ∀ u, r ≠ UpdateConnection id u) d d' → d'.(connections) !! id = Some c.
Proof.
  intros Hd HR. induction HR as [|d d' srv w sub r HR IH Ho IHo [Ha1 Ha2]]; [done|]. specialize (IH Hd). clear HR Hd.
  apply (serve_keeps srv w sub r (λ x, x.(connections) !! id = Some c)); [intros i x Hx; by apply IHo| |done].
  intros Q HQ x x' Hx. inversion HQ; subst; clear HQ; intros Hst.
  - unfold insert_task_row in Hst. destruct (tasks x !! _); [done|]. destruct (_ && _); [|done]. by simplify_eq.
  - destruct Hst as [n E]. unfold update_task_row in E. destruct (tasks x !! _); [|by simplify_eq]. destruct (_ && _); [|done]. by simplify_eq.
  - by subst.
  - by subst.
  - destruct Hst as (p & e1 & e2 & e3 & E). unfold insert_connection_row in E. destruct (connections x !! new_id w) eqn:En; [done|]. simplify_eq. cbn.
    rewrite lookup_insert_ne; [done|congruence].
  - destruct Hst as (p & row & ->). cbn. rewrite lookup_alter_ne; [done|]. intros ->. by eapply Ha2.
  - unfold delete_connection_row in Hst. destruct (bool_decide _); [done|]. simplify_eq. cbn. rewrite lookup_delete_ne; [done|]. by intros ->.
  - destruct Hst as (q' & _ & E). unfold insert_query_row in E. destruct (queries x !! new_id w) eqn:En; [done|]. by simplify_eq.
  - by subst.
Qed.
Lemma decrypt_stored srv srv' nonce plain ct s : String.length nonce = NONCE_LEN → (∀ p, plain = Some p → from_utf8 p = true) →
  srv'.(credential_key) = srv.(credential_key) → stored_as srv nonce plain ct →
  decrypt_optional srv' ct s = (Ok (not_blank plain), s).
Proof.
  intros Hn Hp Hk Hs. unfold stored_as in Hs. destruct plain as [p|]; [|by subst]. cbn [not_blank mbind option_bind].
  destruct (is_empty p) eqn:Ep; [by subst|]. destruct Hs as (c & Ec & ->). unfold decrypt_optional.
  destruct (encrypt_decrypt _ _ _ _ Hn (Hp p eq_refl) Ec) as [_ Hd]. rewrite Hk, Hd.
  unfold encrypt_v1 in Ec. destruct (Credential.seal _ _ _); [|done]. by injection Ec as <-.
Qed.

(** C10.  A stored credential comes back, to an embedded client only.  A server that is
    not embedded refuses, whatever it is asked and whatever is stored, with an error that
    holds nothing of the database, and without a statement.  On an embedded one, the
    password and the SSH secrets of a connection that was created are told again in plain:
    if the row was inserted, no statement of the creation and of this request fails or has
    another request slip in between, whatever was served between the two did not edit or
    delete the connection, the key is the same, the nonces have their length and the
    secrets are texts. *)
Theorem credential_round_trip :
  (∀ srv' w' sub' id s, srv'.(embedded_mode) = false →
     ∃ status, serve srv' w' sub' (GetCredential id) s =
       (Err (status, envelope "NOT_EMBEDDED" "Credential retrieval is available only in embedded mode."), s)) ∧
  (∀ srv w sub b d d' srv' w' sub',
     let id := w.(new_id) in
     let d1 := (serve srv w sub (CreateConnection b) (0, d)).2.2 in
     quiet w → d.(connections) !! id = None → is_Some (d1.(connections) !! id) →
     (∀ i, String.length (w.(nonce) i) = NONCE_LEN) → from_utf8 b.(cc_password) = true →
     (∀ p, p ∈ [b.(cc_ssh_password); b.(cc_ssh_private_key); b.(cc_ssh_passphrase)] → ∀ s, p = Some s → from_utf8 s = true) →
     Run (λ _ _ r, r ≠ DeleteConnection id ∧ ∀ u, r ≠ UpdateConnection id u) d1 d' →
     quiet w' → srv'.(credential_key) = srv.(credential_key) → srv'.(embedded_mode) = true →
     (serve srv' w' sub' (GetCredential id) (0, d')).1 =
       Ok (ok (JObj [("id", JStr id); ("password", JStr b.(cc_password)); ("ssh_username", jstr_opt b.(cc_ssh_username));
                     ("ssh_auth_mode", jstr_opt b.(cc_ssh_auth_mode)); ("ssh_password", jstr_opt (not_blank b.(cc_ssh_password)));
                     ("ssh_private_key", jstr_opt (not_blank b.(cc_ssh_private_key)));
                     ("ssh_passphrase", jstr_opt (not_blank b.(cc_ssh_passphrase)))]))).
Proof.
  split.
  { intros srv' w' sub' id s He. exists 200%Z. cbn [serve]. unfold get_connection_credential. by rewrite He. }
  intros srv w sub b d d' srv' w' sub'. cbv zeta. intros Hq Hn Hin Hl Hpw Hssh HR Hq' Hk He. cbn [serve]. unfold get_connection_credential.
  rewrite He. cbn [negb].
  destruct (created_row srv w sub b d Hq Hn) as [E|(p & e1 & e2 & e3 & Ep & E1 & E2 & E3 & E)]; [rewrite E, Hn in Hin; by destruct Hin|].
  eapply row_stays in HR; [|rewrite E; cbn; by rewrite lookup_insert_eq].
  unfold select, mbind, handler_bind. rewrite query_quiet by done. rewrite HR. cbn [dc_password_encrypted connection_row].
  destruct (encrypt_decrypt _ _ _ _ (Hl 0) Hpw Ep) as [_ Hd]. rewrite Hk, Hd.
  cbn [dc_ssh_password_encrypted dc_ssh_private_key_encrypted dc_ssh_passphrase_encrypted].
  rewrite (decrypt_stored srv srv' _ _ _ _ (Hl 1) (Hssh b.(cc_ssh_password) ltac:(left)) Hk E1).
  rewrite (decrypt_stored srv srv' _ _ _ _ (Hl 2) (Hssh b.(cc_ssh_private_key) ltac:(right; left)) Hk E2).
  by rewrite (decrypt_stored srv srv' _ _ _ _ (Hl 3) (Hssh b.(cc_ssh_passphrase) ltac:(right; right; left)) Hk E3).
Qed.
End Credentials.

(** ** Lists *)

Section Newest.
Context {R : Type} (time : R → string) (keep : R → bool).

(** What [newest] is: rows that are kept, once each, newest first, as many as there are
    up to the limit; one that was left out is not newer than any that was not. *)
Definition newest_of (limit : Z) (t : gmap string R) (l : list (string * R)) : Prop :=
  length l = Nat.min (Z.to_nat limit) (length (filter (λ kv, keep kv.2 = true) (map_to_list t))) ∧
  NoDup l.*1 ∧ (∀ k r, (k, r) ∈ l → t !! k = Some r ∧ keep r = true) ∧
  StronglySorted (λ x y : string * R, text_le (time y.2) (time x.2) = true) l ∧
  ∀ k r, t !! k = Some r → keep r = true → (k, r) ∉ l → ∀ x, x ∈ l → text_le (time r) (time x.2) = true.
Lemma newest_spec limit (t : gmap string R) : newest_of limit t (newest time keep limit t).
Proof.
  unfold newest_of, newest.
  set (ord := text_desc (λ kv : string * R, time kv.2)). set (kept := filter (λ kv : string * R, keep kv.2 = true) (map_to_list t)).
  assert (Total ord) by (intros x y; apply text_le_total).
  assert (Transitive ord) by (intros x y z Hxy Hyz; unfold ord, text_desc in *; by eapply text_le_trans).
  assert (Hkept : NoDup kept.*1) by (eapply sublist_NoDup; [apply (NoDup_fst_map_to_list t)|apply fmap_sublist, sublist_filter]).
  assert (Hin : ∀ k r, (k, r) ∈ kept ↔ t !! k = Some r ∧ keep r = true)
    by (intros k r; unfold kept; rewrite list_elem_of_filter, elem_of_map_to_list; naive_solver).
  clearbody kept. pose proof (merge_sort_Permutation ord kept) as Hp.
  assert (Hs : StronglySorted ord (merge_sort ord kept)) by (apply StronglySorted_merge_sort; apply _).
  set (n := Z.to_nat limit). assert (E : merge_sort ord kept = take n (merge_sort ord kept) ++ drop n (merge_sort ord kept)) by (by rewrite take_drop).
  assert (Hnd : NoDup (merge_sort ord kept).*1) by (by rewrite Hp).
  split_and!.
  - by rewrite length_take, Hp.
  - rewrite E, fmap_app in Hnd. by apply NoDup_app in Hnd as [].
  - intros k r Hkr. apply Hin. rewrite <- Hp. rewrite E. apply elem_of_app. by left.
  - rewrite E in Hs. by apply StronglySorted_app in Hs as (_ & Hs & _).
  - intros k r Ht Hk Hout x Hx. assert (Hkr : (k, r) ∈ merge_sort ord kept) by (rewrite Hp; by apply Hin).
    rewrite E in Hkr. apply elem_of_app in Hkr as [?|Hkr]; [done|]. rewrite E in Hs. apply StronglySorted_app in Hs as (Hs & _ & _).
    by apply (Hs x (k, r)).
Qed.
End Newest.
Lemma clamp_limit_bounds raw dflt max : (1 ≤ dflt ≤ max)%Z → (1 ≤ clamp_limit raw dflt max ≤ max)%Z.
Proof. unfold clamp_limit. destruct raw as [n|]; [|lia]. destruct (Z.ltb_spec 0 n); lia. Qed.
Lemma list_reply_quiet {R} w (row : string → R → json) f i d : quiet w → list_reply w row f (i, d) = (Ok (ok (rows_json row (f d))), (S i, d)).
Proof. intros Hq. unfold list_reply, select, mbind, handler_bind. by rewrite query_quiet. Qed.

(** Histories are the newest rows of their task.  Where no statement fails, a
    history of runs or of health checks, and a list of snapshots, replies with rows of
    the task or connection asked for only, once each, newest first, between one and
    two hundred at most; a row that was left out for the limit is not newer than any
    that was told; and nothing changes. *)
Theorem histories_are_newest `{Printer, Reader, Cipher} srv w sub id limit i d : quiet w →
  let n := clamp_limit limit RUN_HISTORY_DEFAULT_LIMIT RUN_HISTORY_MAX_LIMIT in
  (1 ≤ n ≤ 200)%Z ∧
  (∃ l, serve srv w sub (RunHistory (Some (id, limit))) (i, d) = (Ok (ok (rows_json history_json l)), (S i, d)) ∧
        newest_of rh_started_at (λ r, bool_decide (r.(rh_task_id) = id)) n d.(run_history) l) ∧
  (∃ l, serve srv w sub (HealthResults (Some (id, limit))) (i, d) = (Ok (ok (rows_json result_json l)), (S i, d)) ∧
        newest_of hr_started_at (λ r, bool_decide (r.(hr_task_id) = id)) n d.(health_results) l) ∧
  (∃ l, serve srv w sub (Snapshots (Some (id, limit))) (i, d) = (Ok (ok (rows_json snapshot_meta_json l)), (S i, d)) ∧
        newest_of ss_captured_at (λ s, bool_decide (s.(ss_connection_id) = id)) n d.(snapshots) l).
Proof.
  intros Hq. cbv zeta. split; [by apply clamp_limit_bounds|].
  split_and!; (eexists; split; [apply list_reply_quiet; done|apply newest_spec]).
Qed.

(** A text holds another, letters of ASCII in either case. *)
Definition holds (needle s : string) : Prop := ∃ a m b, s = a +:+ m +:+ b ∧ to_ascii_lowercase m = to_ascii_lowercase needle.
(** A search finds what it is asked for.  For a text without wildcards, the saved
    queries told are those that hold it in their title or their statement, in whatever
    case, newest first and within the limit. *)
Theorem search_finds `{Printer, Reader, Cipher} srv w sub needle limit i d : quiet w → plain_pattern needle = true →
  let n := clamp_limit limit SAVED_QUERY_DEFAULT_LIMIT SAVED_QUERY_MAX_LIMIT in
  let q := {| ql_tag := None; ql_q := Some needle; ql_limit := limit |} in
  (1 ≤ n ≤ 500)%Z ∧ (∀ r, matches q r = true ↔ holds needle r.(sq_title) ∨ holds needle r.(sq_sql_text)) ∧
  ∃ l, serve srv w sub (ListQueries (Some q)) (i, d) = (Ok (ok (rows_json query_json l)), (S i, d)) ∧
       newest_of sq_created_at (matches q) n d.(queries) l.
Proof.
  intros Hq Hp. cbv zeta. split; [by apply clamp_limit_bounds|]. split.
  - intros r. unfold matches, text_pattern. cbn [ql_tag ql_q andb]. rewrite orb_true_iff, !like_contains by done. done.
  - eexists. split; [by apply list_reply_quiet|apply newest_spec].
Qed.

(** ** At work *)

Section Examples.
#[local] Existing Instances tlv_printer tlv_reader ex_cipher ex_cipher_laws.
Definition ex_server (embedded : bool) : Server :=
  {| entitlement := Trial 100; embedded_mode := embedded; credential_key := "k"; unique_failed := "UNIQUE constraint failed";
     foreign_key_failed := "FOREIGN KEY constraint failed"; row_not_found := "no rows returned" |}.
Definition ex_canary (writable : bool) : Canary :=
  {| can_connect := λ _, Ok tt; can_acquire := Ok tt; can_begin := Ok tt; can_create := λ _, writable |}.
Definition ex_world (id : string) : World :=
  {| others := λ _ d, d; sql_fails := λ _, None; new_id := id; now := "2026-01-01T00:00:00+00:00"; db_now := "2026-01-01 00:00:00";
     nonce := λ _, "0123456789ab"; canary := ex_canary false |}.
Lemma ex_world_quiet id : quiet (ex_world id).
Proof. done. Defined.
Definition ex_db : Db :=
  {| connections := ∅; tasks := ∅; queries := ∅; run_history := ∅; health_results := ∅; data_sync_runs := ∅; snapshots := ∅;
     alert_states := ∅; reports := ∅; access_audit := ∅; approvals := ∅ |}.
Definition ex_connection_to (db_type : string) : CreateConnectionRequest :=
  {| cc_name := "erp"; cc_db_type := db_type; cc_host := "10.0.0.7"; cc_port := 3306; cc_username := "reader"; cc_password := "pw";
     cc_default_database := Some "erp"; cc_ssh_enabled := true; cc_ssh_host := Some "gw"; cc_ssh_port := Some 22%Z; cc_kind := Some "Source_Drift";
     cc_file_path := None; cc_use_ssl := false; cc_timeout_seconds := 30; cc_auto_reconnect := false; cc_charset := None; cc_timezone := None;
     cc_environment := None; cc_read_only := true; cc_group_id := None; cc_extra := None; cc_ssh_username := Some "ops";
     cc_ssh_auth_mode := Some "password"; cc_ssh_password := Some "tunnel"; cc_ssh_private_key := Some ""; cc_ssh_passphrase := None |}.
Definition ex_connection : CreateConnectionRequest := ex_connection_to "MySQL".
Definition ex_created : Db := (serve (ex_server true) (ex_world "c1") "u1" (CreateConnection ex_connection) (0, ex_db)).2.2.
Definition ex_task : CreateTaskRequest :=
  {| ct_name := "nightly"; ct_task_type := "data_sync"; ct_cron_expr := "0 3 * * *"; ct_config := JObj []; ct_source := "c1"; ct_target := Some "c1";
     ct_notify := None |}.
Definition ex_tasked : Db := (serve (ex_server true) (ex_world "t1") "u1" (CreateTask ex_task) (0, ex_created)).2.2.

Lemma ex_db_references : references ex_db.
Proof. by constructor. Defined.
Lemma references_hold_witness : references ex_db ∧ references ex_tasked ∧ st_source <$> ex_tasked.(tasks) !! "t1" = Some "c1".
Proof.
  split; [exact ex_db_references|]. split; [|vm_compute; reflexivity].
  apply (references_hold ex_db); [exact ex_db_references|].
  apply run_request; [|intros; apply run_none|done]. apply run_request; [|intros; apply run_none|done]. apply run_none.
Defined.
(** A snapshot keeps the name of its task when the task is deleted. *)
Definition ex_snapshot : SchemaSnapshot :=
  {| ss_connection_id := "c1"; ss_captured_at := "t"; ss_schema_hash := "h"; ss_schema_json := "{}"; ss_prior_hash := None;
     ss_task_id := Some "t1"; ss_change_count := 0 |}.
Example snapshot_outlives_task :
  let d := (serve (ex_server true) (ex_world "x") "u1" (DeleteTask "t1") (0, with_snapshots <["s1" := ex_snapshot]> ex_tasked)).2.2 in
  d.(tasks) !! "t1" = None ∧ (ss_task_id <$> d.(snapshots) !! "s1") = Some (Some "t1").
Proof. vm_compute. split; reflexivity. Qed.
Definition ex_query : SavedQuery :=
  {| sq_title := "Monthly Revenue"; sq_sql_text := "SELECT 1"; sq_tags := "[]"; sq_workspace_id := "default"; sq_created_by := "u1"; sq_created_at := "t" |}.
Definition ex_saved : Db := with_queries <["q1" := ex_query]> ex_db.
Lemma author_deletes_witness :
  ex_saved.(queries) !! "q1" = Some ex_query ∧
  (serve (ex_server true) (ex_world "x") "u2" (DeleteQuery "q1") (0, ex_saved)).2.2.(queries) !! "q1" = Some ex_query.
Proof.
  split; [reflexivity|]. apply (author_deletes ex_saved _ "q1" ex_query); [reflexivity|].
  apply run_request; [apply run_none|intros; apply run_none|]. intros [[=] _].
Defined.
Lemma credential_round_trip_witness :
  (serve (ex_server true) (ex_world "t1") "u1" (GetCredential "c1") (0, ex_tasked)).1 =
    Ok (ok (JObj [("id", JStr "c1"); ("password", JStr "pw"); ("ssh_username", JStr "ops"); ("ssh_auth_mode", JStr "password");
                  ("ssh_password", JStr "tunnel"); ("ssh_private_key", JNull); ("ssh_passphrase", JNull)])).
Proof.
  refine (proj2 credential_round_trip (ex_server true) (ex_world "c1") "u1" ex_connection ex_db ex_tasked (ex_server true) (ex_world "t1") "u1"
    (ex_world_quiet _) eq_refl _ (λ _, eq_refl) eq_refl _ _ (ex_world_quiet _) eq_refl eq_refl).
  - eexists. vm_compute. reflexivity.
  - intros p Hp s ->. do 3 (apply elem_of_cons in Hp as [E|Hp]; [cbn in E; simplify_eq; reflexivity|]). by apply elem_of_nil in Hp.
  - apply run_request; [apply run_none|intros; apply run_none|]. split; [discriminate|intros; discriminate].
Defined.
Lemma histories_are_newest_witness :
  quiet (ex_world "x") ∧ ∃ l, (serve (ex_server true) (ex_world "x") "u1" (RunHistory (Some ("t1", None))) (0, ex_tasked)).1 = Ok (ok (rows_json history_json l)).
Proof.
  split; [apply ex_world_quiet|].
  destruct (histories_are_newest (ex_server true) (ex_world "x") "u1" "t1" None 0 ex_tasked (ex_world_quiet _)) as (_ & (l & E & _) & _). exists l. by rewrite E.
Defined.
Lemma search_finds_witness :
  plain_pattern "revenue" = true ∧
  matches {| ql_tag := None; ql_q := Some "revenue"; ql_limit := None |} ex_query = true.
Proof.
  split; [reflexivity|].
  apply (proj1 (proj2 (search_finds (ex_server true) (ex_world "x") "u1" "revenue" None 0 ex_saved (ex_world_quiet _) eq_refl)) ex_query).
  left. by exists "Monthly ", "Revenue", "".
Defined.

(** A checked account can be replaced by another, unchecked, one: the connection stays
    one of a drift source. *)
Definition ex_edit : UpdateConnectionRequest :=
  {| uc_name := None; uc_db_type := None; uc_host := None; uc_port := None; uc_username := Some "root"; uc_password := Some "toor";
     uc_default_database := None; uc_file_path := None; uc_use_ssl := None; uc_read_only := Some false; uc_timeout_seconds := None;
     uc_charset := None; uc_timezone := None; uc_environment := None |}.
Example edit_skips_the_canary :
  let w := {| others := λ _ d, d; sql_fails := λ _, None; new_id := "x"; now := "t"; db_now := "t"; nonce := λ _, "0123456789ab";
              canary := ex_canary true |} in
  run_create_canary w ex_connection = Err WRITABLE ∧
  (λ c, (c.(dc_kind), c.(dc_username))) <$> (serve (ex_server true) w "u2" (UpdateConnection "c1" ex_edit) (0, ex_created)).2.2.(connections) !! "c1"
    = Some ("source_drift", "root").
Proof. vm_compute. split; reflexivity. Qed.
(** A connection with an approval is not deleted, and is said to be. *)
Example delete_says_deleted :
  let d := {| connections := ex_created.(connections); tasks := ∅; queries := ∅; run_history := ∅; health_results := ∅; data_sync_runs := ∅;
              snapshots := ∅; alert_states := ∅; reports := ∅; access_audit := ∅; approvals := {["a1" := "c1"]} |} in
  let r := serve (ex_server true) (ex_world "x") "u1" (DeleteConnection "c1") (0, d) in
  r.1 = Ok (ok deleted) ∧ bool_decide (is_Some (r.2.2.(connections) !! "c1")) = true.
Proof. vm_compute. split; reflexivity. Qed.
(** An underscore of a tag stands for any character, and a quote is never found. *)
Example tag_is_a_pattern :
  let tags (t : string) := ("[" +:+ String "034" "" +:+ t +:+ String "034" "" +:+ "]") in
  like (tag_pattern "a_b") (tags "axb") = true ∧ like (tag_pattern "prod") (tags "PROD") = true ∧
  like (tag_pattern (String "034" "x")) (tags ("\" +:+ String "034" "x")) = false.
Proof. vm_compute. split_and!; reflexivity. Qed.
End Examples.
