(* ===== verification/Notify.v ===== *)
(** * Webhooks (drift/src/notify.rs and its two copies, health_check/src/notify.rs and
    data_sync/src/notify.rs)

    The transport the three crates share by copying it: the check of the address, the
    attempts and the pauses between them, the text for Slack; and the three payloads,
    instances of one class.  The HTTP client, and the address as it parses it, are
    parameters. *)

From S2P Require Import Prelude RustStr Json.
From S2P Require Drift Health SyncRunner ControlDb Automation.
From stdpp Require Import strings gmap.

(** ** The address *)

(** [str::split_once] at a text. *)
Fixpoint split_once_at (sep s : string) : option (string * string) :=
  match str_strip_prefix sep s with
  | Some rest => Some ("", rest)
  | None => match s with "" => None | String c s' => prod_map (String c) id <$> split_once_at sep s' end
  end.

Inductive NotifyError : Type :=
| InsecureUrl
| MalformedUrl (s : string)
| ClientBuild (s : string)
| AllAttemptsFailed (attempts : nat) (last_status : option Z) (last_error : string).

(** [Debug] of an optional status. *)
Definition debug_status (o : option Z) : string :=
  match o with Some z => "Some(" +:+ decimal (Z.to_N z) +:+ ")" | None => "None" end.
Definition drift_display (e : NotifyError) : string :=
  match e with
  | InsecureUrl => "webhook URL rejected: must be https, or http://localhost in dev mode"
  | MalformedUrl s => "webhook URL is malformed: " +:+ s
  | ClientBuild s => "HTTP client build failed: " +:+ s
  | AllAttemptsFailed n st e => "webhook delivery failed after " +:+ decimal (N.of_nat n) +:+ " attempts; last_status=" +:+ debug_status st
                                +:+ "; last_error=" +:+ e
  end.
(** The text of the other two crates. *)
Definition health_display (e : NotifyError) : string :=
  match e with
  | InsecureUrl => "insecure webhook URL (require https or loopback)"
  | MalformedUrl s => "malformed webhook URL: " +:+ s
  | ClientBuild s => "reqwest client build failed: " +:+ s
  | AllAttemptsFailed n st e => "all " +:+ decimal (N.of_nat n) +:+ " webhook attempts failed (last_status=" +:+ debug_status st
                                +:+ ", last_error=" +:+ e +:+ ")"
  end.

Definition extract_host (authority : string) : string :=
  match str_strip_prefix "[" authority with
  | Some stripped => split_first "]"%char stripped
  | None => split_first ":"%char authority
  end.
Definition is_loopback_host (host : string) : bool :=
  bool_decide (to_ascii_lowercase host ∈ ["localhost"; "127.0.0.1"; "::1"]).
Definition eq_ignore_ascii_case (a b : string) : bool := bool_decide (to_ascii_lowercase a = to_ascii_lowercase b).
Definition validate_webhook_url (url : string) (dev_mode : bool) : result NotifyError unit :=
  '(scheme, rest) ← ok_or (split_once_at "://" url) (MalformedUrl url);
  let scheme := trim scheme in
  if eq_ignore_ascii_case scheme "https" then Ok tt
  else if eq_ignore_ascii_case scheme "http" && dev_mode
  then if is_loopback_host (extract_host (split_first "/"%char rest)) then Ok tt else Err InsecureUrl
  else Err InsecureUrl.

(** [str::ends_with]. *)
Definition ends_with (suffix s : string) : bool := starts_with (String.rev suffix) (String.rev s).

(** ** Delivery *)

(** Seconds. *)
Definition DEFAULT_TIMEOUT_SECS : Z := 10.
Definition DEFAULT_BACKOFFS : list Z := [1; 4; 16]%Z.

Inductive DeliveryStatus : Type := Delivered | PermanentFailure.
Record DeliveryReceipt := { attempts : nat; final_status : DeliveryStatus; last_status_code : option Z }.

(** What a payload is to the transport: its JSON, and its text for Slack. *)
Class Webhook (A : Type) := { payload_json : A → json; to_slack_text : A → string }.

(** The client: whether one is built, the address it parses and its host. *)
Class HttpClient (Url : Type) := {
  build : Z → result string unit; parse_url : string → result string Url; host_str : Url → option string }.

(** What a delivery does, in order. *)
Inductive Effect (Url : Type) : Type := Sleep (secs : Z) | Post (url : Url) (body : json).
Arguments Sleep {Url} secs.
Arguments Post {Url} url body.

Section Delivery.
Context {Url : Type} `{HttpClient Url}.

Definition is_slack_url (url : Url) : bool :=
  match host_str url with
  | Some host => bool_decide (host = "hooks.slack.com") || ends_with ".hooks.slack.com" host
  | None => false
  end.
Definition slack_body {A} `{Webhook A} (url : Url) (payload : A) : option json :=
  if is_slack_url url then Some (JObj [("text", JStr (to_slack_text payload))]) else None.
Definition is_success (status : Z) : bool := (200 <=? status)%Z && (status <? 300)%Z.

(** The loop; [answers] has the response to each attempt, from 1. *)
Section Attempts.
Context (backoffs : list Z) (req_url : Url) (body : json) (total : nat) (answers : nat → result string Z).
Definition pause (attempt : nat) : list (Effect Url) := if 1 <? attempt then [Sleep (default 0%Z (backoffs !! (attempt - 2)))] else [].
Fixpoint attempts_from (remaining attempt : nat) (last_status : option Z) (last_error : string)
    : list (Effect Url) * result NotifyError DeliveryReceipt :=
  match remaining with
  | O => ([], Err (AllAttemptsFailed total last_status last_error))
  | S remaining =>
      let sent := pause attempt ++ [Post req_url body] in
      let again st e := let '(more, r) := attempts_from remaining (S attempt) st e in (sent ++ more, r) in
      match answers attempt with
      | Ok status => if is_success status
                     then (sent, Ok {| attempts := attempt; final_status := Delivered; last_status_code := Some status |})
                     else again (Some status) ("HTTP " +:+ decimal (Z.to_N status))
      | Err e => again None e
      end
  end.
End Attempts.

Definition deliver_with_backoff {A} `{Webhook A} (payload : A) (url : string) (timeout : Z) (dev_mode : bool) (backoffs : list Z)
    (answers : nat → result string Z) : list (Effect Url) * result NotifyError DeliveryReceipt :=
  match (_ ← validate_webhook_url url dev_mode;
         _ ← err_as ClientBuild (build timeout);
         err_as MalformedUrl (parse_url url)) with
  | Err e => ([], Err e)
  | Ok req_url =>
      let total := Z.to_nat ((Z.of_nat (length backoffs) + 1) mod 2 ^ 32) in
      attempts_from backoffs req_url (default (payload_json payload) (slack_body req_url payload)) total answers total 1 None ""
  end.
Definition deliver {A} `{Webhook A} (payload : A) (url : string) (timeout : Z) (dev_mode : bool)
    (answers : nat → result string Z) : list (Effect Url) * result NotifyError DeliveryReceipt :=
  deliver_with_backoff payload url timeout dev_mode DEFAULT_BACKOFFS answers.
End Delivery.

(** ** What the payloads share *)

Record TaskRef := { tr_id : string; tr_name : string }.
Record ConnectionRef := { cr_id : string; cr_name : string }.
Record SourceRef := { sr_db_type : string; sr_database : string }.
Definition task_ref_json (t : TaskRef) : json := JObj [("id", JStr t.(tr_id)); ("name", JStr t.(tr_name))].
Definition connection_ref_json (c : ConnectionRef) : json := JObj [("id", JStr c.(cr_id)); ("name", JStr c.(cr_name))].
Definition source_ref_json (s : SourceRef) : json := JObj [("db_type", JStr s.(sr_db_type)); ("database", JStr s.(sr_database))].
Definition is_dev_mode (env : option string) : bool := bool_decide (env = Some "1").

(** ** drift: [dbmaster.drift-event.v1] *)

Module DriftEvent.
Definition PAYLOAD_SCHEMA : string := "dbmaster.drift-event.v1".
Record DriftSummary := { prior_snapshot_at : option string; new_snapshot_at : string; change_count : Z; kinds : Drift.DriftKindCounts }.
Record WebhookPayload := {
  schema : string; event_id : string; event_at : string; instance_uuid : string; task : TaskRef; connection : ConnectionRef;
  source : SourceRef; drift_summary : DriftSummary; drifts : list Drift.DriftEntry }.

Definition new (event_id event_at instance_uuid : string) (drifts : list Drift.DriftEntry) (prior_snapshot_at : option string)
    (new_snapshot_at : string) : WebhookPayload :=
  let kinds := Drift.summarize drifts in
  {| schema := PAYLOAD_SCHEMA; event_id := event_id; event_at := event_at; instance_uuid := instance_uuid;
     task := {| tr_id := ""; tr_name := "" |}; connection := {| cr_id := ""; cr_name := "" |};
     source := {| sr_db_type := ""; sr_database := "" |};
     drift_summary := {| prior_snapshot_at := prior_snapshot_at; new_snapshot_at := new_snapshot_at; change_count := Drift.total kinds;
                         kinds := kinds |};
     drifts := drifts |}.
(** The three references the runner sets afterwards. *)
Definition with_refs (t : TaskRef) (c : ConnectionRef) (src : SourceRef) (p : WebhookPayload) : WebhookPayload :=
  {| schema := p.(schema); event_id := p.(event_id); event_at := p.(event_at); instance_uuid := p.(instance_uuid); task := t;
     connection := c; source := src; drift_summary := p.(drift_summary); drifts := p.(drifts) |}.

(** An absent part of a locator is left out. *)
Definition object_json (o : Drift.DriftObject) : json :=
  let part k (v : option string) := match v with Some s => [(k, JStr s)] | None => [] end in
  JObj (part "schema" o.(Drift.o_schema) ++ part "table" o.(Drift.o_table) ++ part "column" o.(Drift.o_column)
        ++ part "index" o.(Drift.o_index)).
Definition drift_json (d : Drift.DriftEntry) : json :=
  JObj [("kind", JStr (Drift.kind_wire_str d.(Drift.kind))); ("object", object_json d.(Drift.object));
        ("before", d.(Drift.before)); ("after", d.(Drift.after))].
Definition counts_json (c : Drift.DriftKindCounts) : json :=
  JObj [("table_added", JInt c.(Drift.n_table_added)); ("table_dropped", JInt c.(Drift.n_table_dropped));
        ("column_added", JInt c.(Drift.n_column_added)); ("column_dropped", JInt c.(Drift.n_column_dropped));
        ("column_type_changed", JInt c.(Drift.n_column_type_changed));
        ("column_nullability_changed", JInt c.(Drift.n_column_nullability_changed));
        ("index_added", JInt c.(Drift.n_index_added)); ("index_dropped", JInt c.(Drift.n_index_dropped));
        ("pk_changed", JInt c.(Drift.n_pk_changed)); ("fk_added", JInt c.(Drift.n_fk_added));
        ("fk_dropped", JInt c.(Drift.n_fk_dropped))].
Definition summary_json (s : DriftSummary) : json :=
  JObj [("prior_snapshot_at", jopt JStr s.(prior_snapshot_at)); ("new_snapshot_at", JStr s.(new_snapshot_at));
        ("change_count", JInt s.(change_count)); ("kinds", counts_json s.(kinds))].
Definition json_of (p : WebhookPayload) : json :=
  JObj [("schema", JStr p.(schema)); ("event_id", JStr p.(event_id)); ("event_at", JStr p.(event_at));
        ("instance_uuid", JStr p.(instance_uuid)); ("task", task_ref_json p.(task)); ("connection", connection_ref_json p.(connection));
        ("source", source_ref_json p.(source)); ("drift_summary", summary_json p.(drift_summary));
        ("drifts", JArr (drift_json <$> p.(drifts)))].
Definition slack_text (p : WebhookPayload) : string :=
  "*DBMaster drift detected* on `" +:+ p.(connection).(cr_name) +:+ "` (" +:+ p.(source).(sr_db_type) +:+ "/" +:+ p.(source).(sr_database)
  +:+ ")" +:+ String LF "" +:+ "Task `" +:+ p.(task).(tr_name) +:+ "` • " +:+ decimal (Z.to_N p.(drift_summary).(change_count))
  +:+ " change(s) detected".
#[global] Instance webhook : Webhook WebhookPayload := {| payload_json := json_of; to_slack_text := slack_text |}.

(** runner.rs: the first channel, a text. *)
Definition first_webhook_url `{Reader} (notify_channels_json : string) : option string :=
  v ← from_str notify_channels_json; arr ← as_array v; first ← head arr; as_str first.
End DriftEvent.

(** ** health check: [dbmaster.health-event.v1] *)

(** More than 400 characters are cut, and an ellipsis says so. *)
Definition cut_400 (s : string) : string := if 400 <? char_count s then take_chars 400 s +:+ "…" else s.

(** The first channel of the other two crates: the field [url] of an object. *)
Definition first_webhook_url `{Reader} (notify_channels_json : string) : option string :=
  v ← from_str notify_channels_json; arr ← as_array v; first ← head arr; u ← jget "url" first; as_str u.

Module HealthEvent.
Definition PAYLOAD_SCHEMA : string := "dbmaster.health-event.v1".
Record AlertPayload := { metric : string; severity : string; state : string; detail : json }.
Record WebhookPayload := {
  schema : string; event_id : string; event_at : string; instance_uuid : string; task : TaskRef; connection : ConnectionRef;
  source : SourceRef; alert : AlertPayload }.
Definition from_alert_change (event_id event_at instance_uuid : string) (t : TaskRef) (c : ConnectionRef) (s : SourceRef)
    (change : Health.AlertChange) : WebhookPayload :=
  {| schema := PAYLOAD_SCHEMA; event_id := event_id; event_at := event_at; instance_uuid := instance_uuid; task := t; connection := c;
     source := s;
     alert := {| metric := change.(Health.metric);
                 severity := match change.(Health.severity) with
                             | Health.Critical => "critical" | Health.Warning => "warning" | Health.Info => "info" end;
                 state := match change.(Health.trigger) with Health.Alert => "alert" | Health.Resolved => "resolved" end;
                 detail := change.(Health.detail) |} |}.
Definition alert_json (a : AlertPayload) : json :=
  JObj [("metric", JStr a.(metric)); ("severity", JStr a.(severity)); ("state", JStr a.(state)); ("detail", a.(detail))].
Definition json_of (p : WebhookPayload) : json :=
  JObj [("schema", JStr p.(schema)); ("event_id", JStr p.(event_id)); ("event_at", JStr p.(event_at));
        ("instance_uuid", JStr p.(instance_uuid)); ("task", task_ref_json p.(task)); ("connection", connection_ref_json p.(connection));
        ("source", source_ref_json p.(source)); ("alert", alert_json p.(alert))].

Section Events.
Context `{Printer, Reader}.
Definition detail_str (d : json) : string := match d with JStr s => s | JNull => "" | other => to_vec other end.
Definition slack_text (p : WebhookPayload) : string :=
  let detail := cut_400 (detail_str p.(alert).(detail)) in
  let emoji := if decide (p.(alert).(severity) = "critical") then "🚨" else if decide (p.(alert).(severity) = "warning") then "⚠️" else "ℹ️" in
  emoji +:+ " *DBMaster health " +:+ p.(alert).(severity) +:+ "* on `" +:+ p.(connection).(cr_name) +:+ "` (" +:+ p.(source).(sr_db_type)
  +:+ "/" +:+ p.(source).(sr_database) +:+ ")" +:+ String LF "" +:+ "Task `" +:+ p.(task).(tr_name) +:+ "` • metric `" +:+ p.(alert).(metric)
  +:+ "` • " +:+ p.(alert).(state) +:+ (if is_empty detail then "" else String LF (">" +:+ detail)).
#[global] Instance webhook : Webhook WebhookPayload := {| payload_json := json_of; to_slack_text := slack_text |}.

(** The crate's copy of the delivery is drift's word for word, but for its logging. *)
Section Copy.
Context {Url : Type} `{HttpClient Url}.
Definition extract_host : string → string := extract_host.
Definition is_loopback_host : string → bool := is_loopback_host.
Definition validate_webhook_url : string → bool → result NotifyError unit := validate_webhook_url.
Definition is_slack_url : Url → bool := is_slack_url.
Definition deliver_with_backoff : WebhookPayload → string → Z → bool → list Z → (nat → result string Z) →
  list (Effect Url) * result NotifyError DeliveryReceipt := deliver_with_backoff.
Definition deliver (payload : WebhookPayload) (url : string) (timeout : Z) (dev_mode : bool) (answers : nat → result string Z)
    : list (Effect Url) * result NotifyError DeliveryReceipt :=
  deliver_with_backoff payload url timeout dev_mode DEFAULT_BACKOFFS answers.
End Copy.

(** runner.rs, step 7: one delivery for each change.  [draws i] is the identifier and
    time of the i-th event, [answers i] the responses to it. *)
Section Run.
Context {Url : Type} `{HttpClient Url} (install_uuid : string) (dev_mode : bool) (draws : nat → string * string)
  (answers : nat → nat → result string Z) (task_id : string) (task : ControlDb.ScheduledTask) (conn_id : string)
  (conn : ControlDb.DatabaseConnection).
Definition event_of (i : nat) (change : Health.AlertChange) : WebhookPayload :=
  from_alert_change (draws i).1 (draws i).2 install_uuid {| tr_id := task_id; tr_name := task.(ControlDb.st_name) |}
    {| cr_id := conn_id; cr_name := conn.(ControlDb.dc_name) |}
    {| sr_db_type := conn.(ControlDb.dc_db_type); sr_database := default "" conn.(ControlDb.dc_default_database) |} change.
Fixpoint deliver_from (url : string) (i : nat) (changes : list Health.AlertChange) : list (Effect Url) * bool :=
  match changes with
  | [] => ([], false)
  | change :: rest =>
      let '(sent, r) := deliver (event_of i change) url DEFAULT_TIMEOUT_SECS dev_mode (answers i) in
      let '(more, any_fail) := deliver_from url (S i) rest in
      (sent ++ more, negb (is_ok r) || any_fail)
  end.
Definition deliver_changes (all_changes : list Health.AlertChange) : list (Effect Url) * string :=
  match all_changes with
  | [] => ([], "skipped")
  | _ => match first_webhook_url task.(ControlDb.st_notify) with
         | None => ([], "skipped")
         | Some url => let '(sent, any_fail) := deliver_from url 0 all_changes in (sent, if any_fail then "failed" else "ok")
         end
  end.
End Run.
End Events.
End HealthEvent.

(** ** data sync: [dbmaster.data-sync-event.v1] *)

Module SyncEvent.
Definition PAYLOAD_SCHEMA : string := "dbmaster.data-sync-event.v1".
Record SyncSummary := { processed_rows : Z; failed_rows : Z; duration_ms : Z; canceled : bool }.
Record WebhookPayload := {
  schema : string; event_id : string; event_at : string; instance_uuid : string; task : TaskRef; source : ConnectionRef;
  target : ConnectionRef; summary : SyncSummary; error : option string }.
Definition new (event_id event_at instance_uuid : string) (task : TaskRef) (source target : ConnectionRef) (summary : SyncSummary)
    (error : option string) : WebhookPayload :=
  {| schema := PAYLOAD_SCHEMA; event_id := event_id; event_at := event_at; instance_uuid := instance_uuid; task := task; source := source;
     target := target; summary := summary; error := error |}.
Definition summary_json (s : SyncSummary) : json :=
  JObj [("processed_rows", JInt s.(processed_rows)); ("failed_rows", JInt s.(failed_rows)); ("duration_ms", JInt s.(duration_ms));
        ("canceled", JBool s.(canceled))].
Definition json_of (p : WebhookPayload) : json :=
  JObj ([("schema", JStr p.(schema)); ("event_id", JStr p.(event_id)); ("event_at", JStr p.(event_at));
         ("instance_uuid", JStr p.(instance_uuid)); ("task", task_ref_json p.(task)); ("source", connection_ref_json p.(source));
         ("target", connection_ref_json p.(target)); ("summary", summary_json p.(summary))]
        ++ match p.(error) with Some e => [("error", JStr e)] | None => [] end).
Definition run_status (p : WebhookPayload) : string :=
  if p.(summary).(canceled) then "canceled"
  else if (0 <? p.(summary).(failed_rows))%Z || bool_decide (is_Some p.(error)) then "failed" else "completed".
Definition dec (z : Z) : string := decimal (Z.to_N z).
Definition slack_text (p : WebhookPayload) : string :=
  "*DBMaster data sync " +:+ run_status p +:+ "* `" +:+ p.(source).(cr_name) +:+ "` → `" +:+ p.(target).(cr_name) +:+ "`" +:+ String LF ""
  +:+ "Task `" +:+ p.(task).(tr_name) +:+ "` • " +:+ dec p.(summary).(processed_rows) +:+ " row(s) processed ("
  +:+ dec p.(summary).(failed_rows) +:+ " failed) in " +:+ dec p.(summary).(duration_ms) +:+ " ms"
  +:+ match p.(error) with Some err => String LF (">Error: " +:+ cut_400 err) | None => "" end.
#[global] Instance webhook : Webhook WebhookPayload := {| payload_json := json_of; to_slack_text := slack_text |}.

(** The crate's copy of the delivery is drift's word for word, but for its logging. *)
Section Copy.
Context {Url : Type} `{HttpClient Url}.
Definition extract_host : string → string := extract_host.
Definition is_loopback_host : string → bool := is_loopback_host.
Definition validate_webhook_url : string → bool → result NotifyError unit := validate_webhook_url.
Definition is_slack_url : Url → bool := is_slack_url.
Definition deliver_with_backoff : WebhookPayload → string → Z → bool → list Z → (nat → result string Z) →
  list (Effect Url) * result NotifyError DeliveryReceipt := deliver_with_backoff.
Definition deliver (payload : WebhookPayload) (url : string) (timeout : Z) (dev_mode : bool) (answers : nat → result string Z)
    : list (Effect Url) * result NotifyError DeliveryReceipt :=
  deliver_with_backoff payload url timeout dev_mode DEFAULT_BACKOFFS answers.
End Copy.

(** runner.rs, [maybe_notify]: the task and the connections as the control database
    answers. *)
Section Notifying.
Context `{Reader} {Url : Type} `{HttpClient Url} (install_uuid event_id event_at : string) (dev_mode : bool)
  (answers : nat → result string Z).
Context (load_task : string → result string (option ControlDb.ScheduledTask))
  (load_row : string → result string (option ControlDb.DatabaseConnection)).
Definition load_connection (id : string) : result string ControlDb.DatabaseConnection :=
  row ← err_as (λ _, "fetch connection") (load_row id);
  ok_or row ("connection " +:+ id +:+ " not found").
Definition name_of (id : string) : string := match load_connection id with Ok c => c.(ControlDb.dc_name) | Err _ => "" end.
Definition summary_of (outcome : result string SyncRunner.RunOutcome) (elapsed_ms : Z) : SyncSummary * option string :=
  match outcome with
  | Ok o => ({| processed_rows := o.(SyncRunner.processed_rows); failed_rows := o.(SyncRunner.failed_rows); duration_ms := elapsed_ms;
                canceled := o.(SyncRunner.canceled) |}, None)
  | Err e => ({| processed_rows := 0; failed_rows := 0; duration_ms := elapsed_ms; canceled := false |}, Some (SyncRunner.redact_error e))
  end.
Definition maybe_notify (task_id : string) (outcome : result string SyncRunner.RunOutcome) (elapsed_ms : Z)
    : list (Effect Url) * result string unit :=
  match (row ← err_as (λ _, "fetch task for notify") (load_task task_id);
         ok_or row ("task " +:+ task_id +:+ " not found for notify")) with
  | Err e => ([], Err e)
  | Ok task =>
      match first_webhook_url task.(ControlDb.st_notify) with
      | None => ([], Ok tt)
      | Some webhook_url =>
          let '(summary, error) := summary_of outcome elapsed_ms in
          let payload := new event_id event_at install_uuid {| tr_id := task_id; tr_name := task.(ControlDb.st_name) |}
            {| cr_id := task.(ControlDb.st_source); cr_name := name_of task.(ControlDb.st_source) |}
            {| cr_id := default "" task.(ControlDb.st_target);
               cr_name := match task.(ControlDb.st_target) with Some id => name_of id | None => "" end |} summary error in
          let '(sent, r) := deliver payload webhook_url DEFAULT_TIMEOUT_SECS dev_mode answers in
          (sent, _ ← err_as health_display r; Ok tt)
      end
  end.
(** The end of a run: what is sent. *)
Definition notify_end (task_id : string) (outcome : result string SyncRunner.RunOutcome) (elapsed_ms : Z) : list (Effect Url) :=
  if SyncRunner.should_notify outcome then (maybe_notify task_id outcome elapsed_ms).1 else [].
End Notifying.
End SyncEvent.

(** ** What the address check accepts *)

(** A scheme and the rest of an address, around the first separator. *)
Lemma split_once_at_Some sep s a b : split_once_at sep s = Some (a, b) → s = a +:+ sep +:+ b.
Proof.
  revert a b. induction s as [|c s IH]; intros a b; cbn [split_once_at]; destruct (str_strip_prefix sep _) as [r|] eqn:E;
    try (apply strip_prefix_Some in E); try (by intros [= <- <-]; rewrite str_app_nil_l).
  destruct (split_once_at sep s) as [[a' b']|]; [|done]. intros [= <- <-]. cbn. rewrite str_app_cons. f_equal. by apply IH.
Qed.
Lemma split_first_prefix c s : ∃ t, s = split_first c s +:+ t ∧ (t = "" ∨ ∃ t', t = String c t').
Proof.
  unfold split_first. induction s as [|d s IH]; cbn; [by exists ""; split; [|left]|].
  case_decide as Hd; [subst d; exists (String c s); split; [by rewrite str_app_nil_l|by right; eexists]|].
  destruct IH as (t & E & Ht). exists t. split; [|done].
  destruct (split_once c s) as [[x y]|]; rewrite str_app_cons; by f_equal.
Qed.

(** An address that is encrypted, or, where [dev_mode] is set, one whose host part, as
    read up to the first colon, slash or bracket, is a loopback name. *)
Definition loopback_authority (rest : string) : Prop := ∃ host tail, is_loopback_host host = true ∧
  ((rest = host +:+ tail ∧ (tail = "" ∨ ∃ t, tail = String ":" t ∨ tail = String "/" t))
   ∨ rest = "[" +:+ host +:+ tail ∧ (tail = "" ∨ ∃ t, tail = String "]" t ∨ tail = String "/" t)).
Definition secure_url (dev_mode : bool) (url : string) : Prop := ∃ scheme rest, url = scheme +:+ "://" +:+ rest ∧
  (to_ascii_lowercase (trim scheme) = "https"
   ∨ (to_ascii_lowercase (trim scheme) = "http" ∧ dev_mode = true ∧ loopback_authority rest)).

Lemma authority_host c p rest t1 t2 : rest = p +:+ t1 → (t1 = "" ∨ ∃ t, t1 = String "/" t) →
  p = split_first c p +:+ t2 → (t2 = "" ∨ ∃ t, t2 = String c t) →
  ∃ tail, rest = split_first c p +:+ tail ∧ (tail = "" ∨ ∃ t, tail = String c t ∨ tail = String "/" t).
Proof.
  intros E1 H1 E2 H2. exists (t2 +:+ t1). split; [by rewrite str_app_assoc, <- E2|].
  destruct H2 as [->|[t ->]].
  - rewrite str_app_nil_l. destruct H1 as [->|[t ->]]; [by left|]. right. exists t. by right.
  - right. exists (t +:+ t1). left. by rewrite str_app_cons.
Qed.
Lemma loopback_read rest : is_loopback_host (extract_host (split_first "/" rest)) = true → loopback_authority rest.
Proof.
  intros H. unfold loopback_authority. destruct (split_first_prefix "/" rest) as (t1 & E1 & H1).
  unfold extract_host in H. destruct (str_strip_prefix "[" (split_first "/" rest)) as [p|] eqn:E.
  - apply strip_prefix_Some in E. destruct (split_first_prefix "]" p) as (t2 & E2 & H2).
    destruct (authority_host "]" p (p +:+ t1) t1 t2) as (tail & Et & Ht); [done..|].
    exists (split_first "]" p), tail. split; [done|]. right. split; [|done]. rewrite E1, E, <- str_app_assoc. by rewrite Et.
  - destruct (split_first_prefix ":" (split_first "/" rest)) as (t2 & E2 & H2).
    destruct (authority_host ":" (split_first "/" rest) rest t1 t2) as (tail & Et & Ht); [done..|].
    exists (split_first ":" (split_first "/" rest)), tail. split; [done|]. left. by split.
Qed.
Lemma validated_secure url dev_mode : validate_webhook_url url dev_mode = Ok tt → secure_url dev_mode url.
Proof.
  unfold validate_webhook_url. destruct (split_once_at "://" url) as [[scheme rest]|] eqn:E; [|done]. apply split_once_at_Some in E. cbn.
  intros H. exists scheme, rest. split; [done|]. unfold eq_ignore_ascii_case in H. case_bool_decide as H1; [by left|]. right.
  case_bool_decide as H2; [|done]. destruct dev_mode; [|done]. cbn in H. split_and!; [done|done|].
  destruct (is_loopback_host _) eqn:El; [|done]. by apply loopback_read.
Qed.

(** ** The attempts *)

Section Contract.
Context {Url : Type} `{HttpClient Url}.

(** The first [n] attempts: a pause before each but the first. *)
Definition schedule (backoffs : list Z) (req_url : Url) (body : json) (n : nat) : list (Effect Url) :=
  flat_map (λ attempt, pause backoffs attempt ++ [Post req_url body]) (seq 1 n).
Definition accepted (answer : result string Z) : bool := match answer with Ok status => is_success status | Err _ => false end.
Definition status_of (answer : result string Z) : option Z := match answer with Ok status => Some status | Err _ => None end.
Definition error_of (answer : result string Z) : string := match answer with Ok status => "HTTP " +:+ decimal (Z.to_N status) | Err e => e end.

(** Attempts follow each other until one is accepted or none is left. *)
Inductive Outcome (backoffs : list Z) (req_url : Url) (body : json) (answers : nat → result string Z) (total : nat)
    : list (Effect Url) * result NotifyError DeliveryReceipt → Prop :=
| delivered n status : 1 ≤ n ≤ total → answers n = Ok status → is_success status = true →
    (∀ k, 1 ≤ k < n → accepted (answers k) = false) →
    Outcome backoffs req_url body answers total
      (schedule backoffs req_url body n, Ok {| attempts := n; final_status := Delivered; last_status_code := Some status |})
| gave_up : (∀ k, 1 ≤ k ≤ total → accepted (answers k) = false) →
    Outcome backoffs req_url body answers total
      (schedule backoffs req_url body total, Err (AllAttemptsFailed total (status_of (answers total)) (error_of (answers total)))).

Lemma schedule_more backoffs (req_url : Url) body n :
  schedule backoffs req_url body (S n) = schedule backoffs req_url body n ++ pause backoffs (S n) ++ [Post req_url body].
Proof. unfold schedule. rewrite seq_S, flat_map_app. cbn [flat_map]. by rewrite app_nil_r. Qed.
(** One attempt: it is accepted, or the rest follow. *)
Lemma attempt_step backoffs (req_url : Url) body total answers remaining attempt st e :
  attempts_from backoffs req_url body total answers (S remaining) attempt st e =
  if accepted (answers attempt)
  then (pause backoffs attempt ++ [Post req_url body],
        Ok (E := NotifyError) {| attempts := attempt; final_status := Delivered; last_status_code := status_of (answers attempt) |})
  else prod_map (app (pause backoffs attempt ++ [Post req_url body])) id
         (attempts_from backoffs req_url body total answers remaining (S attempt) (status_of (answers attempt)) (error_of (answers attempt))).
Proof.
  cbn [attempts_from]. destruct (answers attempt) as [status|e']; cbn; [destruct (is_success status); [done|]|]; by destruct (attempts_from _ _ _ _ _ _ _ _ _).
Qed.
Lemma attempts_outcome backoffs (req_url : Url) body answers total remaining attempt st e :
  0 < total → attempt + remaining = S total → 1 ≤ attempt → (∀ k, 1 ≤ k < attempt → accepted (answers k) = false) →
  (1 < attempt → st = status_of (answers (attempt - 1)) ∧ e = error_of (answers (attempt - 1))) →
  Outcome backoffs req_url body answers total
    (prod_map (app (schedule backoffs req_url body (attempt - 1))) id (attempts_from backoffs req_url body total answers remaining attempt st e)).
Proof.
  intros Ht. revert attempt st e. induction remaining as [|remaining IH]; intros attempt st e Ha H1 Hk Hl.
  - cbn. rewrite app_nil_r. destruct Hl as [-> ->]; [lia|]. replace (attempt - 1) with total by lia. apply gave_up. intros k Hle. apply Hk. lia.
  - assert (Hs : schedule backoffs req_url body (attempt - 1) ++ pause backoffs attempt ++ [Post req_url body] = schedule backoffs req_url body attempt).
    { destruct attempt as [|a]; [lia|]. rewrite schedule_more. by replace (S a - 1) with a by lia. }
    rewrite attempt_step. destruct (accepted (answers attempt)) eqn:Ea.
    + cbn [prod_map fst snd]. rewrite Hs. destruct (answers attempt) as [status|] eqn:E; [|done]. cbn in *. apply delivered; [lia|done|done|done].
    + specialize (IH (S attempt) (status_of (answers attempt)) (error_of (answers attempt))).
      destruct (attempts_from _ _ _ _ _ remaining (S attempt) _ _) as [more r]. replace (S attempt - 1) with attempt in IH by lia.
      cbn [prod_map fst snd id] in *. rewrite app_assoc, Hs. apply IH; [lia|lia| |done].
      intros k Hk'. destruct (decide (k = attempt)) as [->|]; [done|]. apply Hk. lia.
Qed.

(**  Nothing is sent to an address that is neither encrypted nor, where the server
    runs in development mode, a loopback one; a refused, unreadable or clientless
    delivery sends nothing at all; and any other makes its attempts one after the other,
    with the pauses of one, four and sixteen seconds between them, until one is answered
    with a success, which is the receipt, or four have failed, which the error tells
    with the last status and text. *)
Theorem delivery_contract {A} `{Webhook A} (payload : A) url timeout dev_mode answers :
  let '(sent, r) := deliver payload url timeout dev_mode answers in
  match r with
  | Err InsecureUrl | Err (MalformedUrl _) | Err (ClientBuild _) => sent = []
  | _ => secure_url dev_mode url ∧ ∃ req_url, parse_url url = Ok req_url ∧
           Outcome DEFAULT_BACKOFFS req_url (default (payload_json payload) (slack_body req_url payload)) answers 4 (sent, r)
  end.
Proof.
  destruct (deliver _ _ _ _ _) as [sent r] eqn:E. revert E. unfold deliver, deliver_with_backoff. destruct (validate_webhook_url url dev_mode) as [[]|e] eqn:Ev; cbn.
  2: { intros [= <- <-]. unfold validate_webhook_url in Ev. destruct (split_once_at _ _) as [[a b]|]; cbn in Ev; repeat case_match; by simplify_eq. }
  destruct (build timeout) as [[]|e]; cbn; [|by intros [= <- <-]]. destruct (parse_url url) as [req_url|e] eqn:Ep; cbn; [|by intros [= <- <-]].
  set (body := default _ _). change (Z.to_nat _) with 4. intros E.
  assert (Ho : Outcome DEFAULT_BACKOFFS req_url body answers 4 (sent, r)).
  { pose proof (attempts_outcome DEFAULT_BACKOFFS req_url body answers 4 4 1 None "") as Ho. rewrite E in Ho. apply Ho; try lia. }
  assert (Hr : secure_url dev_mode url ∧ ∃ u, Ok (E := string) req_url = Ok u ∧
           Outcome DEFAULT_BACKOFFS u (default (payload_json payload) (slack_body u payload)) answers 4 (sent, r)).
  { split; [by apply validated_secure|]. by exists req_url. }
  inversion Ho; subst; exact Hr.
Qed.
End Contract.

(** ** The channels of a task *)

Section Channels.
Context {Pr : Printer} {Rd : Reader} {RT : RoundTrip}.

(** What the endpoints store as the channels of a task: a list of texts. *)
Lemma stored_channels l : from_str (to_vec (jstrs l)) = Some (jstrs l).
Proof. apply from_to. cbn. induction l; [done|]. cbn. by rewrite IHl. Qed.
Lemma stored_drift_channel l : DriftEvent.first_webhook_url (to_vec (jstrs l)) = head l.
Proof. unfold DriftEvent.first_webhook_url. rewrite stored_channels. by destruct l. Qed.
Lemma stored_no_object_channel l : first_webhook_url (to_vec (jstrs l)) = None.
Proof. unfold first_webhook_url. rewrite stored_channels. by destruct l. Qed.

(** Channels as the endpoints write them: at the creation of a task and at each edit
    that names them. *)
Definition api_channels (t : ControlDb.ScheduledTask) : Prop := ∃ l, t.(ControlDb.st_notify) = to_vec (jstrs l).

(**  A task that is created through the endpoints, and that they edit any number of
    times, has its channels stored as a list of texts: a drift run notifies the first of
    them; a health check or a data sync, which look for an object with a field [url],
    find none, so whatever they detect or however they fail they send nothing. *)
Theorem only_drift_notifies (b : Automation.CreateTaskRequest) (edits : list Automation.UpdateTaskRequest) (w w' : Automation.World) :
  let t := foldl (λ t e, Automation.patch_task w' e t) (Automation.task_row w b) edits in
  ∃ channels, DriftEvent.first_webhook_url t.(ControlDb.st_notify) = head channels ∧
    (∀ Url (C : HttpClient Url) uuid dev draws answers id conn_id conn changes,
       HealthEvent.deliver_changes (Url := Url) uuid dev draws answers id t conn_id conn changes = ([], "skipped")) ∧
    (∀ Url (C : HttpClient Url) uuid ev at_ dev answers load_row id outcome ms,
       SyncEvent.notify_end (Url := Url) uuid ev at_ dev answers (λ _, Ok (Some t)) load_row id outcome ms = []).
Proof.
  intros t. assert (Ht : api_channels t).
  { subst t. assert (H0 : api_channels (Automation.task_row w b)) by (by eexists). revert H0. generalize (Automation.task_row w b).
    induction edits as [|e edits IH]; intros t Ht; [done|]. cbn. apply IH. unfold api_channels. cbn.
    destruct (Automation.ut_notify e) as [l|]; [by exists l|done]. }
  destruct Ht as [l Hl]. exists l. rewrite Hl. split_and!.
  - apply stored_drift_channel.
  - intros. unfold HealthEvent.deliver_changes. rewrite Hl, stored_no_object_channel. by destruct changes.
  - intros. unfold SyncEvent.notify_end. destruct (SyncRunner.should_notify outcome); [|done].
    unfold SyncEvent.maybe_notify. cbn. by rewrite Hl, stored_no_object_channel.
Qed.
End Channels.

(** ** Examples *)

Section Examples.
Definition ex_client : HttpClient string :=
  {| build := λ _, Ok tt; parse_url := Ok; host_str := λ u, p ← split_once_at "://" u; Some (extract_host (split_first "/" p.2)) |}.
#[local] Existing Instance ex_client.
#[local] Existing Instance tlv_printer.
#[local] Existing Instance tlv_reader.
Definition ex_payload : DriftEvent.WebhookPayload := DriftEvent.new "e1" "2026-01-01T00:00:00Z" "i1" [] None "2026-01-01T00:00:00Z".
(** Refused twice, then accepted. *)
Example third_attempt_delivers :
  deliver ex_payload "https://hooks.example/x" 10 false (λ n, if n <? 3 then Ok 503%Z else Ok 204%Z) =
  let post := Post "https://hooks.example/x" (payload_json ex_payload) in
  ([post; Sleep 1; post; Sleep 4; post], Ok {| attempts := 3; final_status := Delivered; last_status_code := Some 204%Z |}).
Proof. vm_compute. reflexivity. Qed.
(** Plain text is refused, a loopback address outside development mode too. *)
Example plain_text_is_refused :
  (validate_webhook_url "http://hooks.example/x" true, validate_webhook_url "http://localhost:9/x" false, validate_webhook_url "http://[::1]:9/x" true,
   validate_webhook_url "hooks.example" true) = (Err InsecureUrl, Err InsecureUrl, Ok tt, Err (MalformedUrl "hooks.example")).
Proof. vm_compute. reflexivity. Qed.
(** What stands before an at sign is taken for the host: a client that reads it as the
    name of a user connects to what follows. *)
Example user_part_passes_as_host : validate_webhook_url "http://localhost:80@hooks.example/x" true = Ok tt.
Proof. vm_compute. reflexivity. Qed.
Example slack_gets_a_text :
  slack_body "https://hooks.slack.com/services/T" ex_payload =
  Some (JObj [("text", JStr ("*DBMaster drift detected* on `` (/)" +:+ String LF "Task `` • 0 change(s) detected"))]).
Proof. vm_compute. reflexivity. Qed.
End Examples.

Definition ex_request : Automation.CreateTaskRequest :=
  {| Automation.ct_name := "watch"; Automation.ct_task_type := "health_check"; Automation.ct_cron_expr := "0 * * * *"; Automation.ct_config := JObj [];
     Automation.ct_source := "c1"; Automation.ct_target := None; Automation.ct_notify := Some ["https://hooks.example/x"] |}.
Lemma only_drift_notifies_witness :
  ∃ channels, @DriftEvent.first_webhook_url tlv_reader (ControlDb.st_notify (@Automation.task_row tlv_printer (Automation.ex_world "t1") ex_request))
    = @head string channels.
Proof.
  destruct (@only_drift_notifies tlv_printer tlv_reader tlv_round_trip ex_request [] (Automation.ex_world "t1") (Automation.ex_world "t1"))
    as (channels & H & _). exists channels. exact H.
Defined.
