(* ===== verification/Runs.v ===== *)
(** * Runs of a task on the control database (what the runners of drift and
    health_check share)

    A run sends its statements one after the other; before each, other requests may
    change the database, and each may fail.  It draws identifiers and times, and leaves
    a trace of what it does outside.  Its failures are texts ([anyhow]).  The logic of
    conditions that such programs keep is here, too, and the writer of the audit of
    credential uses. *)

From S2P Require Import Prelude RustStr Json.
From S2P Require Import ControlDb.
From stdpp Require Import strings gmap.

(** What surrounds a run: the other requests before each statement, whether it fails,
    the identifiers and times drawn, and the texts of the two constraint errors. *)
Record Env := {
  others : nat → Db → Db; sql_fails : nat → option string; uuid : nat → string; clock : nat → string; unique_failed : string;
  foreign_key_failed : string }.

Record St (Ev : Type) := { statements : nat; drawn : nat; db : Db; trace : list Ev }.
Arguments statements {Ev}.
Arguments drawn {Ev}.
Arguments db {Ev}.
Arguments trace {Ev}.

Definition M (Ev A : Type) : Type := St Ev → result string A * St Ev.
#[global] Instance run_ret {Ev} : MRet (M Ev) := λ A a s, (Ok a, s).
#[global] Instance run_bind {Ev} : MBind (M Ev) := λ A B f m s, match m s with (Ok a, s') => f a s' | (Err e, s') => (Err e, s') end.

(** How a source is dialled: the port is cut to 16 bits. *)
Record ConnectOptions := { co_host : string; co_port : Z; co_username : string; co_password : string; co_database : string }.
Definition source_options (conn : DatabaseConnection) (password : string) : ConnectOptions :=
  {| co_host := conn.(dc_host); co_port := conn.(dc_port) mod 2 ^ 16; co_username := conn.(dc_username); co_password := password;
     co_database := default "" conn.(dc_default_database) |}.

Create HintDb runs.

Section Programs.
Context {Ev : Type} (w : Env).

Definition fail {A} (e : string) : M Ev A := λ s, (Err e, s).
(** The result as a value; [anyhow]'s context, which hides the cause. *)
Definition caught {A} (m : M Ev A) : M Ev (result string A) := λ s, let '(r, s') := m s in (Ok r, s').
Definition context {A} (message : string) (m : M Ev A) : M Ev A := λ s, let '(r, s') := m s in (err_as (λ _, message) r, s').
Definition of_result {A} (r : result string A) : M Ev A := λ s, (r, s).
Definition emit_all (l : list Ev) : M Ev unit := λ s,
  (Ok tt, {| statements := s.(statements); drawn := s.(drawn); db := s.(db); trace := s.(trace) ++ l |}).
Definition emit (e : Ev) : M Ev unit := emit_all [e].
Definition draw {A} (f : nat → A) : M Ev A := λ s,
  (Ok (f s.(drawn)), {| statements := s.(statements); drawn := S s.(drawn); db := s.(db); trace := s.(trace) |}).
Definition new_v4 : M Ev string := draw w.(uuid).
Definition utc_now : M Ev string := draw w.(clock).
(** One statement, atomic. *)
Definition statement {A} (f : Db → result string (A * Db)) : M Ev A := λ s,
  let d := w.(others) s.(statements) s.(db) in
  let after d' := {| statements := S s.(statements); drawn := s.(drawn); db := d'; trace := s.(trace) |} in
  match w.(sql_fails) s.(statements) with
  | Some e => (Err e, after d)
  | None => match f d with Ok (a, d') => (Ok a, after d') | Err e => (Err e, after d) end
  end.
Definition fetch {A} (f : Db → A) : M Ev A := statement (λ d, Ok (f d, d)).
Definition insert_row (f : Db → result string Db) : M Ev unit := statement (λ d, d' ← f d; Ok (tt, d')).
Definition update_rows (f : Db → Db) : M Ev unit := insert_row (Ok ∘ f).

(** ** What the runners do alike *)

Definition load_task (id : string) : M Ev ScheduledTask :=
  row ← context "fetch scheduled_task" (fetch (λ d, d.(tasks) !! id));
  of_result (ok_or row ("task " +:+ id +:+ " not found")).
Definition load_source (id : string) : M Ev DatabaseConnection :=
  row ← context "fetch source connection" (fetch (λ d, d.(connections) !! id));
  of_result (ok_or row ("source connection " +:+ id +:+ " not found")).
Definition truncate_redacted (s : string) : string := if char_count s <=? 500 then s else take_chars 500 s +:+ "…[truncated]".
Definition insert_access (connection_id action status : string) (error : option string) (triggered_by : string) : M Ev unit :=
  id ← new_v4; at_ ← utc_now;
  insert_row (insert_access_row w.(unique_failed) w.(foreign_key_failed) id
    {| ar_connection_id := connection_id; ar_action := action; ar_status := status; ar_error := truncate_redacted <$> error; ar_at := at_;
       ar_triggered_by := triggered_by |}).
Definition update_task_status (task_id when status : string) : M Ev unit :=
  context "update scheduled_tasks last_run_at/last_status" (update_rows (set_last_run task_id when status)).
(** The row that opens a run. *)
Definition opening_row (task_id triggered_by started : string) : TaskRunHistory :=
  {| rh_task_id := task_id; rh_started_at := started; rh_finished_at := None; rh_status := "running"; rh_error := None;
     rh_summary := None; rh_triggered_by := triggered_by |}.
Definition open_run (run_id task_id triggered_by started : string) : M Ev unit :=
  context "insert task_run_history running row"
    (insert_row (insert_history_row w.(unique_failed) w.(foreign_key_failed) run_id (opening_row task_id triggered_by started))).

(** A run: it is opened, carried out and closed, whatever its end, and its task told;
    [failed] is what else is done about a failure. *)
Section Recorded.
Context {R : Type} (inner : M Ev R) (summary : R → string) (redact : string → string) (failed : string → string → M Ev unit).
Definition recorded_run (task_id triggered_by : string) : M Ev R :=
  run_id ← new_v4; now_rfc ← utc_now;
  _ ← open_run run_id task_id triggered_by now_rfc;
  outcome ← caught inner;
  now_end ← utc_now;
  match outcome with
  | Ok o => _ ← caught (update_rows (close_history run_id now_end "succeeded" None (Some (summary o))));
            _ ← caught (update_task_status task_id now_end "succeeded"); mret o
  | Err e => _ ← caught (update_rows (close_history run_id now_end "failed" (Some (redact e)) None));
             _ ← caught (failed now_rfc (redact e));
             _ ← caught (update_task_status task_id now_end "failed"); fail e
  end.
End Recorded.

(** ** Programs and conditions *)

(** From a state with [P] a program ends well with [Q], or fails with [F]. *)
Definition Ends {A} (P : St Ev → Prop) (m : M Ev A) (Q : A → St Ev → Prop) (F : St Ev → Prop) : Prop :=
  ∀ s, P s → match m s with (Ok a, s') => Q a s' | (Err _, s') => F s' end.
Definition Kept {A} (P : St Ev → Prop) (m : M Ev A) : Prop := Ends P m (λ _, P) P.
Lemma ends_bind {A B} P (m : M Ev A) (f : A → M Ev B) Q R F : Ends P m Q F → (∀ a, Ends (Q a) (f a) R F) → Ends P (m ≫= f) R F.
Proof. intros Hm Hf s Hs. specialize (Hm s Hs). unfold mbind, run_bind. destruct (m s) as [[a|e] s']; [by apply Hf|done]. Qed.
Lemma ends_weaken {A} (P P' : St Ev → Prop) (m : M Ev A) (Q Q' : A → St Ev → Prop) (F F' : St Ev → Prop) :
  Ends P' m Q' F' → (∀ s, P s → P' s) → (∀ a s, Q' a s → Q a s) → (∀ s, F' s → F s) → Ends P m Q F.
Proof. intros Hm HP HQ HF s Hs. specialize (Hm s (HP s Hs)). destruct (m s) as [[a|e] s']; auto. Qed.
Lemma ends_given {A} (φ : Prop) P (m : M Ev A) Q F : (φ → Ends P m Q F) → Ends (λ s, P s ∧ φ) m Q F.
Proof. intros H' s [Hs Hf]. exact (H' Hf s Hs). Qed.
Definition anything (s : St Ev) : Prop := True.
Lemma ends_kept {A} P (m : M Ev A) : Kept P m → Ends P m (λ _, P) anything.
Proof. intros Hm. by eapply ends_weaken. Qed.
Lemma kept_bind {A B} P (m : M Ev A) (f : A → M Ev B) : Kept P m → (∀ a, Kept P (f a)) → Kept P (m ≫= f).
Proof. apply ends_bind. Qed.
Lemma kept_ret {A} P (a : A) : Kept P (mret a : M Ev A).
Proof. by intros s. Qed.
Lemma kept_fail {A} P e : Kept P (fail (A := A) e).
Proof. by intros s. Qed.
Lemma kept_of_result {A} P (r : result string A) : Kept P (of_result r).
Proof. intros s Hs. by destruct r. Qed.
Lemma kept_caught {A} P (m : M Ev A) : Kept P m → Kept P (caught m).
Proof. intros Hm s Hs. specialize (Hm s Hs). unfold caught. by destruct (m s) as [[a|e] s']. Qed.
Lemma kept_context {A} P msg (m : M Ev A) : Kept P m → Kept P (context msg m).
Proof. intros Hm s Hs. specialize (Hm s Hs). unfold context. by destruct (m s) as [[a|e] s']. Qed.
Lemma kept_and {A} P Q (m : M Ev A) : Kept P m → Kept Q m → Kept (λ s, P s ∧ Q s) m.
Proof. intros Hp Hq s [Ps Qs]. specialize (Hp s Ps). specialize (Hq s Qs). by destruct (m s) as [[a|e] s']. Qed.

(** *** Conditions on the database *)

Section OnDb.
Context (Q : Db → Prop) (Q_others : ∀ i d, Q d → Q (w.(others) i d)).
Definition on_db (s : St Ev) : Prop := Q s.(db).
Lemma statement_kept {A} (f : Db → result string (A * Db)) : (∀ d a d', Q d → f d = Ok (a, d') → Q d') → Kept on_db (statement f).
Proof.
  intros Hf s Hs. unfold statement. apply (Q_others s.(statements)) in Hs. destruct (sql_fails w _); [done|].
  destruct (f _) as [[a d']|e] eqn:E; [by eapply Hf|done].
Qed.
Lemma insert_kept f : (∀ d d', Q d → f d = Ok d' → Q d') → Kept on_db (insert_row f).
Proof. intros Hf. apply statement_kept. intros d a d' Hd E. destruct (f d) as [x|] eqn:Ef; [|done]. injection E as <- <-. by eapply Hf. Qed.
Lemma update_kept f : (∀ d, Q d → Q (f d)) → Kept on_db (update_rows f).
Proof. intros Hf. apply insert_kept. intros d d' Hd [= <-]. by apply Hf. Qed.
Lemma fetch_kept {A} (f : Db → A) : Kept on_db (fetch f).
Proof. apply statement_kept. by intros d a d' Hd [= _ <-]. Qed.
Lemma emit_all_kept l : Kept on_db (emit_all l).
Proof. by intros s. Qed.
Lemma emit_kept e : Kept on_db (emit e).
Proof. apply emit_all_kept. Qed.
Lemma draw_kept {A} (f : nat → A) : Kept on_db (draw f).
Proof. by intros s. Qed.
Lemma load_task_kept id : Kept on_db (load_task id).
Proof. apply kept_bind; [apply kept_context, fetch_kept|intros ?; apply kept_of_result]. Qed.
Lemma load_source_kept id : Kept on_db (load_source id).
Proof. apply kept_bind; [apply kept_context, fetch_kept|intros ?; apply kept_of_result]. Qed.
Lemma insert_access_kept c a st e by_ :
  (∀ id x d d', Q d → insert_access_row w.(unique_failed) w.(foreign_key_failed) id x d = Ok d' → Q d') → Kept on_db (insert_access c a st e by_).
Proof. intros HQ. do 2 (apply kept_bind; [apply draw_kept|intros ?]). apply insert_kept. intros d d'. apply HQ. Qed.
End OnDb.

(** *** Conditions on the trace: statements and draws leave it *)

Lemma statement_trace {A} (f : Db → result string (A * Db)) (U : list Ev → Prop) : Kept (λ s, U s.(trace)) (statement f).
Proof. intros s Hs. unfold statement. destruct (sql_fails w _); [done|]. by destruct (f _) as [[a d']|e]. Qed.
Lemma draw_trace {A} (f : nat → A) (U : list Ev → Prop) : Kept (λ s, U s.(trace)) (draw f).
Proof. by intros s. Qed.
Lemma emit_all_trace l (U : list Ev → Prop) : (∀ tr, U tr → U (tr ++ l)) → Kept (λ s, U s.(trace)) (emit_all l).
Proof. intros HU s Hs. by apply HU. Qed.
Lemma load_task_trace id (U : list Ev → Prop) : Kept (λ s, U s.(trace)) (load_task id).
Proof. apply (kept_bind (λ s, U s.(trace))); [apply kept_context, statement_trace|intros; apply kept_of_result]. Qed.
Lemma load_source_trace id (U : list Ev → Prop) : Kept (λ s, U s.(trace)) (load_source id).
Proof. apply (kept_bind (λ s, U s.(trace))); [apply kept_context, statement_trace|intros; apply kept_of_result]. Qed.
Lemma insert_access_trace c a st e by_ (U : list Ev → Prop) : Kept (λ s, U s.(trace)) (insert_access c a st e by_).
Proof. do 2 (apply (kept_bind (λ s, U s.(trace))); [apply draw_trace|intros ?]). apply statement_trace. Qed.

(** *** No other request, no failing statement *)

Definition quiet : Prop := (∀ i d, w.(others) i d = d) ∧ ∀ i, w.(sql_fails) i = None.
Definition after (s : St Ev) (d : Db) : St Ev := {| statements := S s.(statements); drawn := s.(drawn); db := d; trace := s.(trace) |}.
Definition drew (s : St Ev) : St Ev := {| statements := s.(statements); drawn := S s.(drawn); db := s.(db); trace := s.(trace) |}.
Lemma statement_quiet {A} (f : Db → result string (A * Db)) s : quiet →
  statement f s = match f s.(db) with Ok (a, d') => (Ok a, after s d') | Err e => (Err e, after s s.(db)) end.
Proof. intros [Ho Hf]. unfold statement. by rewrite Ho, Hf. Qed.
Lemma insert_quiet f s : quiet →
  insert_row f s = match f s.(db) with Ok d' => (Ok tt, after s d') | Err e => (Err e, after s s.(db)) end.
Proof. intros Hq. unfold insert_row. rewrite statement_quiet by done. by destruct (f (db s)). Qed.
Lemma update_quiet f s : quiet → update_rows f s = (Ok tt, after s (f s.(db))).
Proof. intros Hq. unfold update_rows. by rewrite insert_quiet. Qed.
Lemma quiet_others (Q : Db → Prop) : quiet → ∀ i d, Q d → Q (w.(others) i d).
Proof. intros [Ho _] i d. by rewrite Ho. Qed.
Lemma bind_ok {A B} (m : M Ev A) (f : A → M Ev B) s a s' : m s = (Ok a, s') → (m ≫= f) s = f a s'.
Proof. intros E. unfold mbind, run_bind. by rewrite E. Qed.
Lemma bind_draw {A B} (g : nat → A) (f : A → M Ev B) s : (draw g ≫= f) s = f (g s.(drawn)) (drew s).
Proof. done. Qed.
Lemma open_run_quiet run_id task_id by_ started s : quiet → s.(db).(run_history) !! run_id = None → is_Some (s.(db).(tasks) !! task_id) →
  open_run run_id task_id by_ started s = (Ok tt, after s (with_history <[run_id := opening_row task_id by_ started]> s.(db))).
Proof.
  intros Hq Hid Ht. unfold open_run, context. rewrite insert_quiet by done. unfold insert_history_row. rewrite Hid. cbn [rh_task_id opening_row].
  by rewrite bool_decide_eq_true_2.
Qed.
Lemma load_task_quiet id s : quiet → load_task id s = (ok_or (s.(db).(tasks) !! id) ("task " +:+ id +:+ " not found"), after s s.(db)).
Proof. intros Hq. unfold load_task, context, fetch, mbind, run_bind. by rewrite statement_quiet. Qed.
Lemma load_source_quiet id s : quiet → load_source id s = (ok_or (s.(db).(connections) !! id) ("source connection " +:+ id +:+ " not found"), after s s.(db)).
Proof. intros Hq. unfold load_source, context, fetch, mbind, run_bind. by rewrite statement_quiet. Qed.

(** A run keeps the references of the control database if what it does in between does. *)
Lemma recorded_references {R} (inner : M Ev R) summary redact failed task_id by_ :
  (∀ i d, references d → references (w.(others) i d)) → Kept (on_db references) inner → (∀ t e, Kept (on_db references) (failed t e)) →
  Kept (on_db references) (recorded_run inner summary redact failed task_id by_).
Proof.
  intros Ho Hi Hf. unfold recorded_run, open_run, update_task_status, new_v4, utc_now.
  repeat first [exact Hi|apply Hf|apply draw_kept|apply kept_ret|apply kept_fail|apply kept_bind; [|intros ?]|apply kept_caught|apply kept_context|case_match].
  1: apply insert_kept; [done|]; by eauto using insert_history_keeps.
  all: apply update_kept; [done|]; by eauto using close_history_keeps, set_last_run_keeps.
Qed.
Lemma recorded_trace {R} (U : list Ev → Prop) (inner : M Ev R) summary redact failed task_id by_ :
  Kept (λ s, U s.(trace)) inner → (∀ t e, Kept (λ s, U s.(trace)) (failed t e)) →
  Kept (λ s, U s.(trace)) (recorded_run inner summary redact failed task_id by_).
Proof.
  intros Hi Hf. unfold recorded_run, open_run, update_task_status, new_v4, utc_now, update_rows, insert_row.
  repeat first [exact Hi|apply Hf|apply (draw_trace _ U)|apply kept_ret|apply kept_fail|apply (statement_trace _ U)|apply kept_bind; [|intros ?]
    |apply kept_caught|apply kept_context|case_match].
Qed.

(** A run whose inner part never ends well does not either, and leaves the trace of it. *)
Lemma recorded_never {R} (Q : Db → Prop) (U : list Ev → Prop) (inner : M Ev R) summary redact failed task_id by_ :
  (∀ i d, Q d → Q (w.(others) i d)) → (∀ f d, Q d → Q (with_history f d)) →
  Ends (λ s, Q s.(db) ∧ U s.(trace)) inner (λ _ _, False) (λ s, U s.(trace)) → (∀ t e, Kept (λ s, U s.(trace)) (failed t e)) →
  Ends (λ s, Q s.(db) ∧ U s.(trace)) (recorded_run inner summary redact failed task_id by_) (λ _ _, False) (λ s, U s.(trace)).
Proof.
  intros Ho Hh Hi Hf. unfold recorded_run, new_v4, utc_now. set (I := λ s : St Ev, Q s.(db) ∧ U s.(trace)).
  assert (HI : ∀ A (m : M Ev A), Kept I m → Ends I m (λ _, I) (λ s, U s.(trace))).
  { intros A m Hm. eapply ends_weaken; [exact Hm|done|done|by intros s0 [_ Hu]]. }
  do 2 (eapply (ends_bind _ _ _ (λ _, I)); [apply HI; by intros s1|intros ?]).
  eapply (ends_bind _ _ _ (λ _, I)).
  { apply HI, kept_context. apply (kept_and (on_db Q) (λ s, U s.(trace))); [|apply (statement_trace _ U)].
    apply insert_kept; [exact Ho|]. intros d d' Hd. unfold insert_history_row. repeat case_match; intros [=]; subst; by apply Hh. }
  intros _. eapply (ends_bind _ _ _ (λ r s, U s.(trace) ∧ is_ok r = false)).
  { intros s1 Hs1. specialize (Hi s1 Hs1). unfold caught. destruct (inner s1) as [[o|e] s2]; [done|]. by split. }
  intros outcome. eapply (ends_bind _ _ _ (λ _ s, U s.(trace) ∧ is_ok outcome = false)); [by intros s1|]. intros now_end. apply ends_given.
  destruct outcome as [o|e]; [done|intros _]. set (K := λ s : St Ev, U s.(trace)).
  apply (ends_bind K _ _ (λ _, K)); [apply kept_caught, (statement_trace _ U)|intros _].
  apply (ends_bind K _ _ (λ _, K)); [apply kept_caught, Hf|intros _].
  apply (ends_bind K _ _ (λ _, K)); [apply kept_caught, kept_context, (statement_trace _ U)|intros _]. by intros s1.
Qed.

(** What a successful inner part reaches a closed run reaches, if closing keeps it. *)
Lemma recorded_ends {R} (Q : Db → Prop) (G : R → Db → Prop) (inner : M Ev R) summary redact failed task_id by_ :
  quiet → (∀ f d, Q d → Q (with_history f d)) →
  (∀ o d id fin st e x, G o d → G o (set_last_run task_id fin st (close_history id fin st e x d))) →
  Ends (on_db Q) inner (λ o s, G o s.(db)) anything →
  Ends (on_db Q) (recorded_run inner summary redact failed task_id by_) (λ o s, G o s.(db)) anything.
Proof.
  intros Hq Hh HG Hi. unfold recorded_run, new_v4, utc_now. do 2 (eapply (ends_bind _ _ _ (λ _, on_db Q)); [by intros s1|intros ?]).
  eapply (ends_bind _ _ _ (λ _, on_db Q)).
  { apply ends_kept, kept_context, insert_kept; [by apply quiet_others|]. intros d d' Hd. unfold insert_history_row.
    repeat case_match; intros [=]; subst; by apply Hh. }
  intros _. eapply (ends_bind _ _ _ (λ r s', match r with Ok o => G o s'.(db) | Err _ => True end)).
  { intros s1 Hs1. specialize (Hi s1 Hs1). unfold caught. by destruct (inner s1) as [[?|?] ?]. }
  intros outcome. eapply (ends_bind _ _ _ (λ _ s', match outcome with Ok o => G o s'.(db) | Err _ => True end)); [by intros s1|].
  intros now_end s1 Hs1. destruct outcome as [o1|e].
  - unfold mbind, run_bind, caught, update_task_status, context. rewrite !update_quiet by done. by apply HG.
  - unfold mbind, run_bind, caught, update_task_status, context. rewrite !update_quiet by done. destruct (failed _ _ _) as [x s3].
    by rewrite update_quiet.
Qed.

(** The result of a run is that of its inner part, started after the opening row; what
    that leaves and closing keeps, holds at the end. *)
Definition opened (task_id by_ : string) (s : St Ev) : St Ev :=
  after (drew (drew s)) (with_history <[w.(uuid) s.(drawn) := opening_row task_id by_ (w.(clock) (S s.(drawn)))]> s.(db)).
Lemma recorded_result {R} (inner : M Ev R) summary redact failed task_id by_ s :
  quiet → s.(db).(run_history) !! w.(uuid) s.(drawn) = None → is_Some (s.(db).(tasks) !! task_id) →
  let '(r, s1) := inner (opened task_id by_ s) in let '(r', s') := recorded_run inner summary redact failed task_id by_ s in
  r' = r ∧ ∀ Q Q' : Db → Prop, (∀ i t st d, Q' d → Q' (set_last_run i t st d)) → (∀ i fin st e x d, Q d → Q (close_history i fin st e x d)) →
    match r with Ok _ => ∀ d, Q d → Q' d | Err e => ∀ t, Ends (on_db Q) (failed t (redact e)) (λ _, on_db Q') (on_db Q') end → Q s1.(db) → Q' s'.(db).
Proof.
  intros Hq Hid Ht. unfold recorded_run, new_v4, utc_now. rewrite !bind_draw.
  assert (Eo : open_run (w.(uuid) s.(drawn)) task_id by_ (w.(clock) (drew s).(drawn)) (drew (drew s)) = (Ok tt, opened task_id by_ s))
    by exact (open_run_quiet _ _ _ _ (drew (drew s)) Hq Hid Ht).
  rewrite (bind_ok _ _ _ _ _ Eo). clear Eo. generalize (opened task_id by_ s). intros s0.
  unfold mbind, run_bind, draw, caught. destruct (inner s0) as [r s1]. set (s2 := drew s1).
  destruct r as [o|e]; unfold update_task_status, context; cbn -[close_history set_last_run update_rows];
    change {| statements := statements s1; drawn := S (drawn s1); db := db s1; trace := trace s1 |} with s2.
  - rewrite !update_quiet by done. split; [done|]. intros Q Q' HQ1 HQ2 HQ3 H1. by apply HQ1, HQ3, HQ2.
  - rewrite update_quiet by done. cbn -[close_history set_last_run update_rows]. set (s3 := after s2 _).
    destruct (failed _ _ s3) as [x s4] eqn:Ef. rewrite update_quiet by done. split; [done|]. intros Q Q' HQ1 HQ2 HQ3 H1.
    assert (H3 : on_db Q s3) by (by apply HQ2). specialize (HQ3 (clock w (S (drawn s))) s3 H3). rewrite Ef in HQ3.
    assert (H4 : Q' s4.(db)) by (by destruct x). by apply HQ1.
Qed.

(** How a run is closed. *)
Definition run_label {R} (r : result string R) : string := match r with Ok _ => "succeeded" | Err _ => "failed" end.
Definition closed_row {R} (summary : R → string) (redact : string → string) (finished : string) (r : result string R) (row : TaskRunHistory) : TaskRunHistory :=
  {| rh_task_id := row.(rh_task_id); rh_started_at := row.(rh_started_at); rh_finished_at := Some finished; rh_status := run_label r;
     rh_error := match r with Err e => Some (redact e) | Ok _ => None end; rh_summary := match r with Ok o => Some (summary o) | Err _ => None end;
     rh_triggered_by := row.(rh_triggered_by) |}.
(** The history and the tasks are as they were but for the run's row and the outcome on
    its task. *)
Definition closes {R} (summary : R → string) (redact : string → string) (task_id by_ : string) (s s' : St Ev) (r : result string R) : Prop := ∃ finished t',
  s'.(db).(run_history) =
    <[w.(uuid) s.(drawn) := closed_row summary redact finished r (opening_row task_id by_ (w.(clock) (S s.(drawn))))]> s.(db).(run_history) ∧
  s'.(db).(tasks) = <[task_id := t']> s.(db).(tasks) ∧ t'.(st_last_run_at) = Some finished ∧ t'.(st_last_status) = Some (run_label r).
Definition same_log (d0 d : Db) : Prop := d.(run_history) = d0.(run_history) ∧ d.(tasks) = d0.(tasks).
Lemma recorded_closes {R} (inner : M Ev R) summary redact failed task_id by_ s t :
  quiet → s.(db).(run_history) !! w.(uuid) s.(drawn) = None → s.(db).(tasks) !! task_id = Some t →
  (∀ d0, Kept (on_db (same_log d0)) inner) → (∀ d0 id fin e now_ why, Kept (on_db (same_log (close_history id fin "failed" (Some e) None d0))) (failed now_ why)) →
  let '(r, s') := recorded_run inner summary redact failed task_id by_ s in closes summary redact task_id by_ s s' r.
Proof.
  intros Hq Hid Ht Hi Hf. unfold recorded_run, new_v4, utc_now. rewrite !bind_draw.
  erewrite bind_ok by (apply open_run_quiet; [done|done|by exists t]).
  set (s0 := after _ _). unfold mbind at 1, run_bind. unfold caught at 1. specialize (Hi s0.(db) s0 (conj eq_refl eq_refl)).
  destruct (inner s0) as [r s1]. assert (H1 : same_log s0.(db) s1.(db)) by (by destruct r). clear Hi. rewrite bind_draw.
  set (fin := clock w (drawn s1)). set (id := uuid w (drawn s)).
  assert (Hd : ∀ lab e x d, same_log (close_history id fin lab e x s1.(db)) d →
     run_history (set_last_run task_id fin lab d) = <[id := {| rh_task_id := task_id; rh_started_at := w.(clock) (S s.(drawn)); rh_finished_at := Some fin;
          rh_status := lab; rh_error := match e with Some y => Some y | None => None end; rh_summary := match x with Some y => Some y | None => None end;
          rh_triggered_by := by_ |}]> (run_history (db s)) ∧
     ∃ t', tasks (set_last_run task_id fin lab d) = <[task_id := t']> (tasks (db s)) ∧ t'.(st_last_run_at) = Some fin ∧ t'.(st_last_status) = Some lab).
  { intros lab e x d [Hh Htk]. destruct H1 as [H1 H2]. cbn in Hh, Htk. split.
    - cbn. rewrite Hh, H1. unfold s0. cbn. by rewrite alter_insert_eq.
    - cbn. rewrite Htk, H2. unfold s0. cbn. eexists. split; [by rewrite <- (insert_id _ _ _ Ht) at 1; rewrite alter_insert_eq|by split]. }
  destruct r as [o|e]; unfold mbind, run_bind, caught, update_task_status, context.
  - rewrite !update_quiet by done. cbn -[close_history set_last_run]. destruct (Hd "succeeded" None (Some (summary o)) _ (conj eq_refl eq_refl)) as (Hh & t' & Htk & Hx).
    exists fin, t'. by split.
  - rewrite update_quiet by done. cbn -[close_history set_last_run update_rows].
    set (s2 := after (drew s1) _). specialize (Hf s1.(db) id fin (redact e) (clock w (drawn (drew s))) (redact e) s2 (conj eq_refl eq_refl)).
    destruct (failed _ _ s2) as [x s3]. assert (H3 : same_log (close_history id fin "failed" (Some (redact e)) None s1.(db)) s3.(db)) by (by destruct x).
    rewrite update_quiet by done. cbn -[close_history set_last_run]. destruct (Hd "failed" (Some (redact e)) None _ H3) as (Hh & t' & Htk & Hx).
    exists fin, t'. by split.
Qed.

(** The statements that keep one part of the database. *)
Lemma access_row_keeps (P : Db → Prop) (P_audit : ∀ f d, P d → P (with_audit f d)) id x d d' :
  P d → insert_access_row w.(unique_failed) w.(foreign_key_failed) id x d = Ok d' → P d'.
Proof. intros Hd. unfold insert_access_row. repeat case_match; intros [=]; subst; by apply P_audit. Qed.
Lemma snapshot_row_keeps (P : Db → Prop) (P_snap : ∀ f d, P d → P (with_snapshots f d)) id x d d' :
  P d → insert_snapshot_row w.(unique_failed) w.(foreign_key_failed) id x d = Ok d' → P d'.
Proof. intros Hd. unfold insert_snapshot_row. repeat case_match; intros [=]; subst; by apply P_snap. Qed.
Lemma history_row_keeps (P : Db → Prop) (P_hist : ∀ f d, P d → P (with_history f d)) id x d d' :
  P d → insert_history_row w.(unique_failed) w.(foreign_key_failed) id x d = Ok d' → P d'.
Proof. intros Hd. unfold insert_history_row. repeat case_match; intros [=]; subst; by apply P_hist. Qed.
End Programs.

#[export] Hint Resolve kept_ret kept_fail kept_of_result : runs.
