(* ===== verification/DriftRun.v ===== *)
(** * One drift run (drift/src/runner.rs, with audit.rs and canary.rs)

    From the history row that opens a run to the one that closes it: the task and its
    connection are read, the credential decrypted and its use audited, the source asked
    whether the account may write, its catalog read, compared with the newest snapshot,
    stored, and the drifts sent to the task's first channel.  Other requests may change
    the control database before each statement, and each may fail; the source's answers
    are arguments. *)

From S2P Require Import Prelude RustStr Json.
From S2P Require Import Credential ControlDb Notify Runs.
From S2P Require Drift DriftCollector Automation.
From stdpp Require Import strings gmap.

(** ** audit.rs *)

Inductive AuditAction : Type := SchemaSnapshotAction | DriftCompare | CanaryCheck | WebhookDeliver.
Inductive AuditStatus : Type := AuditOk | AuditError.
Definition action_db_str (a : AuditAction) : string :=
  match a with
  | SchemaSnapshotAction => "schema_snapshot" | DriftCompare => "drift_compare" | CanaryCheck => "canary_check"
  | WebhookDeliver => "webhook_deliver"
  end.
Definition status_db_str (s : AuditStatus) : string := match s with AuditOk => "ok" | AuditError => "error" end.

(** ** canary.rs *)

Inductive CanaryOutcome : Type := ReadOnly | Writable | Unreachable (message : string).
Definition mysql_canary_create_sql : string := "CREATE TEMPORARY TABLE dbmaster_canary_readonly (id INT)".
Definition mysql_canary_drop_sql : string := "DROP TEMPORARY TABLE dbmaster_canary_readonly".
Definition pg_canary_create_sql : string := "CREATE TEMP TABLE dbmaster_canary_readonly (id INT)".
Definition TRANSPORT_KEYWORDS : list string :=
  ["connection refused"; "connection reset"; "broken pipe"; "timed out"; "timeout"; "dns"; "no route"; "unreachable"; "authentication"; "auth";
   "access denied"; "password"; "tls"; "handshake"].
Definition is_connection_level_error (e : string) : bool :=
  let s := to_ascii_lowercase e in existsb (λ k, contains k s) TRANSPORT_KEYWORDS.
Definition redact (e : string) : string := take_chars 200 e.

(** ** What a run is given *)

(** The source's answers: to connecting, to taking a connection and beginning a
    transaction, to the statement that creates a table, and to the catalog queries. *)
Record Source := {
  connect : Drift.DbType → ConnectOptions → result string unit; acquire : result string unit; begin : result string unit;
  create : result string unit;
  mysql_columns : string → result string (list DriftCollector.MySqlColumnRow);
  mysql_indexes : string → result string (list DriftCollector.MySqlIndexRow);
  mysql_foreign_keys : string → result string (list DriftCollector.MySqlFkRow);
  pg_columns : list string → result string (list DriftCollector.PgColumnRow);
  pg_indexes : list string → result string (list DriftCollector.PgIndexRow);
  pg_foreign_keys : list string → result string (list DriftCollector.PgFkRow) }.
Record World := {
  env : Env; elapsed_ms : Z; credential_key : string; install_uuid : string; webhook_timeout : Z; dev : option string; source : Source;
  answers : nat → result string Z }.

(** What a run does outside the control database, and the audit rows it gets in. *)
Inductive Event (Url : Type) : Type :=
| Logged (connection_id : string) (action : AuditAction) (status : AuditStatus)
| Opened (db_type : Drift.DbType) (options : ConnectOptions)
| Probed (sql : string)
| Introspected (database : string)
| Http (e : Effect Url).
Arguments Logged {Url}.
Arguments Opened {Url}.
Arguments Probed {Url}.
Arguments Introspected {Url}.
Arguments Http {Url}.

Record RunOutcome := { drift_count : Z; webhook_status : string; snapshot_id : string; baseline_snapshot_id : option string }.

Section Run.
Context {Url : Type} `{HttpClient Url, Printer, Reader, Cipher} (sha256_hex : string → string)
  (parse_snapshot : string → result string Drift.SchemaSnapshot) (w : World).

#[local] Notation M := (M (Event Url)).
#[local] Notation St := (St (Event Url)).
#[local] Notation insert_row := (insert_row w.(env)).
#[local] Notation fetch := (fetch w.(env)).
#[local] Notation new_v4 := (new_v4 w.(env)).
#[local] Notation utc_now := (utc_now w.(env)).

Definition log_access (connection_id : string) (action : AuditAction) (status : AuditStatus) (error : option string) (triggered_by : string)
    : M unit :=
  _ ← context "insert credential_access_audit row"
    (insert_access w.(env) connection_id (action_db_str action) (status_db_str status) error triggered_by);
  emit (Logged connection_id action status).

Definition interpret_create (created : result string unit) : CanaryOutcome :=
  match created with
  | Ok _ => Writable
  | Err e => if is_connection_level_error e then Unreachable (redact e) else ReadOnly
  end.
Definition check_mysql : M CanaryOutcome :=
  _ ← emit (Probed mysql_canary_create_sql);
  let outcome := interpret_create w.(source).(create) in
  match w.(source).(create) with Ok _ => _ ← emit (Probed mysql_canary_drop_sql); mret outcome | Err _ => mret outcome end.
Definition check_postgres : M CanaryOutcome :=
  match (_ ← w.(source).(acquire); w.(source).(begin)) with
  | Err e => mret (Unreachable (redact e))
  | Ok _ => _ ← emit (Probed "BEGIN"); _ ← emit (Probed pg_canary_create_sql);
            let outcome := interpret_create w.(source).(create) in
            _ ← emit (Probed "ROLLBACK"); mret outcome
  end.

(** ** runner.rs *)

Definition open_pool (t : Drift.DbType) (conn : DatabaseConnection) (password : string) : M unit :=
  let opts := source_options conn password in
  _ ← emit (Opened t opts);
  of_result (err_as (λ e, match t with Drift.MySql => "mysql" | Drift.Postgres => "postgres" end +:+ " connect failed: " +:+ e)
               (w.(source).(connect) t opts)).
Definition run_canary (check : M CanaryOutcome) (conn_id triggered_by : string) : M unit :=
  outcome ← check;
  let '(status, err) := match outcome with
                        | ReadOnly => (AuditOk, None)
                        | Writable => (AuditError, Some "account is writable; expected read-only")
                        | Unreachable m => (AuditError, Some m)
                        end in
  _ ← caught (log_access conn_id CanaryCheck status err triggered_by);
  match outcome with
  | ReadOnly => mret tt
  | Writable => fail "source account is writable; refusing to run"
  | Unreachable _ => fail "source DB unreachable during canary"
  end.
Definition pg_schemas_from_task_config (config_json : string) : list string :=
  match (v ← from_str config_json; a ← jget "pg_schemas" v; as_array a) with
  | None => ["public"]
  | Some arr => match filter (λ s, is_empty s = false) (omap as_str arr) with [] => ["public"] | out => out end
  end.
Definition collect (t : Drift.DbType) (db_name config : string) : M Drift.SchemaSnapshot :=
  _ ← emit (Introspected db_name);
  let src := w.(source) in
  of_result match t with
            | Drift.MySql =>
                c ← src.(mysql_columns) db_name; i ← src.(mysql_indexes) db_name; f ← src.(mysql_foreign_keys) db_name;
                Ok (DriftCollector.collect_mysql db_name c i f)
            | Drift.Postgres =>
                let schemas := pg_schemas_from_task_config config in
                c ← src.(pg_columns) schemas; i ← src.(pg_indexes) schemas; f ← src.(pg_foreign_keys) schemas;
                Ok (DriftCollector.collect_postgres db_name c i f)
            end.
(** Step 7: the newest snapshot of the connection. *)
Definition newest_snapshot (conn_id : string) (d : Db) : option (string * SchemaSnapshot) :=
  head (Automation.newest ss_captured_at (λ s, bool_decide (s.(ss_connection_id) = conn_id)) 1 d.(snapshots)).
Definition prior_row (p : string * SchemaSnapshot) : Drift.PriorSnapshotRow :=
  {| Drift.p_id := p.1; Drift.captured_at := p.2.(ss_captured_at); Drift.schema_hash := p.2.(ss_schema_hash);
     Drift.schema_json := p.2.(ss_schema_json) |}.
(** Step 8. *)
Definition drifts_of (prior : option (string * SchemaSnapshot)) (snapshot : Drift.SchemaSnapshot)
    : result string (list Drift.DriftEntry * option string * Z) :=
  let reader s := match parse_snapshot s with Ok x => Some x | Err _ => None end in
  let why := match prior with
             | Some p => match parse_snapshot p.2.(ss_schema_json) with Err e => ": " +:+ e | Ok _ => "" end
             | None => "" end in
  err_as (λ e, e +:+ why) (Drift.drifts_since_prior sha256_hex reader (prior_row <$> prior) snapshot).
Definition build_payload (snapshot : Drift.SchemaSnapshot) (drifts : list Drift.DriftEntry) (prior_snapshot_at : option string)
    (new_snapshot_at task_id : string) (task : ScheduledTask) (conn_id : string) (conn : DatabaseConnection) (t : Drift.DbType)
    : M DriftEvent.WebhookPayload :=
  event_id ← new_v4; event_at ← utc_now;
  mret (DriftEvent.with_refs {| tr_id := task_id; tr_name := task.(st_name) |} {| cr_id := conn_id; cr_name := conn.(dc_name) |}
          {| sr_db_type := Drift.as_wire_str t; sr_database := snapshot.(Drift.database) |}
          (DriftEvent.new event_id event_at w.(install_uuid) drifts prior_snapshot_at new_snapshot_at)).
(** Step 10. *)
Definition notify_drifts (snapshot : Drift.SchemaSnapshot) (drifts : list Drift.DriftEntry) (prior_snapshot_at : option string)
    (now_snap task_id : string) (task : ScheduledTask) (conn_id : string) (conn : DatabaseConnection) (t : Drift.DbType)
    (triggered_by : string) : M string :=
  match drifts, DriftEvent.first_webhook_url task.(st_notify) with
  | [], _ | _, None => mret "skipped"
  | _, Some url =>
      payload ← build_payload snapshot drifts prior_snapshot_at now_snap task_id task conn_id conn t;
      let '(sent, delivery) := deliver payload url w.(webhook_timeout) (is_dev_mode w.(dev)) w.(answers) in
      _ ← emit_all (Http <$> sent);
      let '(audit_status, audit_err) := match delivery with Ok _ => (AuditOk, None) | Err e => (AuditError, Some (drift_display e)) end in
      _ ← caught (log_access conn_id WebhookDeliver audit_status audit_err triggered_by);
      mret match delivery with
           | Ok r => match r.(final_status) with Delivered => "ok" | PermanentFailure => "failed" end
           | Err _ => "failed"
           end
  end.

(** Steps 4 to 6. *)
Definition take_snapshot (t : Drift.DbType) (conn_id : string) (conn : DatabaseConnection) (password config triggered_by : string)
    : M Drift.SchemaSnapshot :=
  _ ← open_pool t conn password;
  _ ← (if decide (conn.(dc_kind) = "source_drift")
       then run_canary (match t with Drift.MySql => check_mysql | Drift.Postgres => check_postgres end) conn_id triggered_by
       else mret tt);
  collect t (default "" conn.(dc_default_database)) config.
(** Steps 7 to 9: the drifts, and the row stored. *)
Definition store_snapshot (task_id conn_id : string) (snapshot : Drift.SchemaSnapshot)
    : M (list Drift.DriftEntry * option string * Z * option (string * SchemaSnapshot) * string * string) :=
  prior ← context "fetch prior snapshot" (fetch (newest_snapshot conn_id));
  '(drifts, prior_snapshot_at, change_count) ← of_result (drifts_of prior snapshot);
  snap_id ← new_v4; now_snap ← utc_now;
  _ ← context "insert schema_snapshots row"
    (insert_row (insert_snapshot_row w.(env).(unique_failed) w.(env).(foreign_key_failed) snap_id
       {| ss_connection_id := conn_id; ss_captured_at := now_snap; ss_schema_hash := Drift.canonical_hash sha256_hex snapshot;
          ss_schema_json := Drift.canonical_json snapshot; ss_prior_hash := (λ p, p.2.(ss_schema_hash)) <$> prior;
          ss_task_id := Some task_id; ss_change_count := change_count |}));
  mret (drifts, prior_snapshot_at, change_count, prior, snap_id, now_snap).
Definition run_task_inner (task_id triggered_by : string) : M RunOutcome :=
  task ← load_task w.(env) task_id;
  conn ← load_source w.(env) task.(st_source);
  password ← of_result (err_as (λ e, "credential decrypt failed: " +:+ display e)
               (decrypt_password conn.(dc_password_encrypted) w.(credential_key)));
  _ ← context "audit schema_snapshot start" (log_access task.(st_source) SchemaSnapshotAction AuditOk None triggered_by);
  t ← of_result (ok_or (Drift.from_db_type_str conn.(dc_db_type)) ("unsupported db_type: " +:+ conn.(dc_db_type)));
  snapshot ← take_snapshot t task.(st_source) conn password task.(st_config) triggered_by;
  '(drifts, prior_snapshot_at, change_count, prior, snap_id, now_snap) ← store_snapshot task_id task.(st_source) snapshot;
  status ← notify_drifts snapshot drifts prior_snapshot_at now_snap task_id task task.(st_source) conn t triggered_by;
  mret {| drift_count := change_count; webhook_status := status; snapshot_id := snap_id; baseline_snapshot_id := fst <$> prior |}.

Definition redact_error (e : string) : string := take_chars 500 e.
Definition summary_json (o : RunOutcome) : json :=
  JObj [("drift_count", JInt o.(drift_count)); ("webhook_status", JStr o.(webhook_status)); ("duration_ms", JInt w.(elapsed_ms));
        ("snapshot_id", JStr o.(snapshot_id)); ("baseline_snapshot_id", jopt JStr o.(baseline_snapshot_id))].
Definition run_task (task_id triggered_by : string) : M RunOutcome :=
  recorded_run w.(env) (run_task_inner task_id triggered_by) (λ o, to_vec (summary_json o)) redact_error (λ _ _, mret tt) task_id triggered_by.

(** ** What a run keeps of the database *)

Section OnDatabase.
Context (Q : Db → Prop) (Q_others : ∀ i d, Q d → Q (w.(env).(others) i d)).
Context (Q_access : ∀ id a d d', Q d → insert_access_row w.(env).(unique_failed) w.(env).(foreign_key_failed) id a d = Ok d' → Q d').
Context (Q_snapshot : ∀ id x d d', Q d → insert_snapshot_row w.(env).(unique_failed) w.(env).(foreign_key_failed) id x d = Ok d' → Q d').
#[local] Notation K := (Kept (Ev := Event Url) (on_db Q)).
#[local] Hint Resolve kept_ret kept_fail kept_of_result fetch_kept emit_kept emit_all_kept draw_kept load_task_kept load_source_kept kept_caught kept_context : runs.
Ltac keep := repeat first [ progress eauto with runs | apply kept_bind; [|intros ?] | case_match | case_decide ].
Lemma log_access_keeps c a st e by_ : K (log_access c a st e by_).
Proof. unfold log_access. keep. apply kept_context. by apply insert_access_kept. Qed.
#[local] Hint Resolve log_access_keeps : runs.
Lemma take_snapshot_keeps t id conn pw cfg by_ : K (take_snapshot t id conn pw cfg by_).
Proof. unfold take_snapshot, open_pool, run_canary, check_mysql, check_postgres, collect. keep. Qed.
Lemma store_snapshot_keeps task id x : K (store_snapshot task id x).
Proof.
  unfold store_snapshot, Runs.new_v4, Runs.utc_now. keep. apply kept_context. apply insert_kept; [done|]. by intros; eapply Q_snapshot.
Qed.
Lemma notify_keeps x ds at_ now_ id task cid conn t by_ : K (notify_drifts x ds at_ now_ id task cid conn t by_).
Proof. unfold notify_drifts, build_payload, Runs.new_v4, Runs.utc_now. keep. Qed.
#[local] Hint Resolve take_snapshot_keeps store_snapshot_keeps notify_keeps : runs.
Lemma inner_keeps task by_ : K (run_task_inner task by_).
Proof. unfold run_task_inner. keep. Qed.
End OnDatabase.

(**  Whatever other requests do between its statements and whichever of them fail, a
    drift run keeps the references of the control database: the rows it adds to the
    history, the audit and the snapshots belong to a task and a connection that exist. *)
Theorem run_keeps_references task_id triggered_by s :
  (∀ i d, references d → references (w.(env).(others) i d)) → references s.(db) → references (run_task task_id triggered_by s).2.(db).
Proof.
  intros Ho Hs. assert (K : Kept (on_db references) (run_task task_id triggered_by)).
  { unfold run_task. apply recorded_references; [exact Ho| |intros; apply kept_ret].
    apply inner_keeps; [done|by eauto using insert_access_keeps|by eauto using insert_snapshot_keeps]. }
  specialize (K s Hs). by destruct (run_task _ _ s) as [[o|e] s'].
Qed.

(** C25.  With no other request at work and no failing statement, and for a task that exists
    and a run id not yet in the history, a run that starts is closed: its history row, opened as running, ends with a finishing time and says
    succeeded with its summary, or failed with the first five hundred characters of the
    error; its task says the same with the same time; no other history row and no other
    task is touched. *)
Theorem run_is_recorded task_id triggered_by s t :
  quiet w.(env) → s.(db).(run_history) !! w.(env).(uuid) s.(drawn) = None → s.(db).(tasks) !! task_id = Some t →
  let '(r, s') := run_task task_id triggered_by s in
  closes w.(env) (λ o, to_vec (summary_json o)) redact_error task_id triggered_by s s' r.
Proof.
  intros Hq Hid Ht. apply (recorded_closes _ _ _ _ _ _ _ _ t Hq Hid Ht); [|intros; apply kept_ret].
  intros d0. apply inner_keeps; [by apply quiet_others|apply (access_row_keeps w.(env) (same_log d0))|apply (snapshot_row_keeps w.(env) (same_log d0))];
    by intros f d [].
Qed.

(** *** What a run does outside, in order *)

Section OnTrace.
Context (T : list (Event Url) → Prop) (T_more : ∀ tr l, T tr → T (tr ++ l)).
#[local] Notation K := (Kept (Ev := Event Url) (λ s, T s.(trace))).
Lemma log_access_logged (U : list (Event Url) → Prop) c a st e by_ :
  (∀ tr, U tr → U (tr ++ [Logged c a st])) → Kept (λ s, U s.(trace)) (log_access c a st e by_).
Proof. intros HU. apply (kept_bind (λ s, U s.(trace))); [apply kept_context, insert_access_trace|intros ?]. by apply emit_all_trace. Qed.
Lemma emit_trace e : K (emit e).
Proof. apply emit_all_trace. intros. by apply T_more. Qed.
Lemma emits_trace l : K (emit_all l).
Proof. apply emit_all_trace. intros. by apply T_more. Qed.
Lemma log_access_trace c a st e by_ : K (log_access c a st e by_).
Proof. apply log_access_logged. intros. by apply T_more. Qed.
#[local] Hint Resolve kept_ret kept_fail kept_of_result emit_trace emits_trace draw_trace log_access_trace kept_caught kept_context : runs.
Ltac run := repeat first [ progress eauto with runs | apply (kept_bind (λ s, T s.(trace))); [|intros ?] | case_match | case_decide
  | by apply (kept_context (λ s, T s.(trace))), (statement_trace _ _ T) ].
Lemma take_snapshot_trace t id conn pw cfg by_ : K (take_snapshot t id conn pw cfg by_).
Proof. unfold take_snapshot, open_pool, run_canary, check_mysql, check_postgres, collect. run. Qed.
Lemma store_snapshot_trace task id x : K (store_snapshot task id x).
Proof. unfold store_snapshot, Runs.new_v4, Runs.utc_now, Runs.fetch, Runs.insert_row. run. Qed.
Lemma notify_trace x ds at_ now_ id task cid conn t by_ : K (notify_drifts x ds at_ now_ id task cid conn t by_).
Proof. unfold notify_drifts, build_payload, Runs.new_v4, Runs.utc_now. run. Qed.
End OnTrace.
Definition uses_credential (e : Event Url) : Prop := match e with Logged _ _ _ => False | _ => True end.
Definition recorded (tr : list (Event Url)) : Prop := ∃ c, Logged c SchemaSnapshotAction AuditOk ∈ tr.
(** Each use comes after the record. *)
Definition accounted (tr : list (Event Url)) : Prop := ∀ pre e post, tr = pre ++ e :: post → uses_credential e → recorded pre.
Lemma accounted_more tr e : accounted tr → (uses_credential e → recorded tr) → accounted (tr ++ [e]).
Proof.
  intros Ha He pre x post E Hx. destruct post as [|y post _] using rev_ind.
  - apply app_inj_tail in E as [-> ->]. by apply He.
  - rewrite app_comm_cons, app_assoc in E. apply app_inj_tail in E as [E _]. by eapply Ha.
Qed.

Definition under_record (tr : list (Event Url)) : Prop := recorded tr ∧ accounted tr.
Lemma under_record_more tr l : under_record tr → under_record (tr ++ l).
Proof.
  revert tr. induction l as [|e l IH]; intros tr [[c Hc] Ha]; [by rewrite app_nil_r; split; [exists c|]|].
  rewrite cons_middle, app_assoc. apply IH. split; [exists c; apply elem_of_app; by left|]. apply accounted_more; [done|]. intros _. by exists c.
Qed.
(** The program up to the record, and what follows it. *)
Lemma inner_accounted task_id by_ : Ends (λ s, accounted s.(trace)) (run_task_inner task_id by_) (λ _ s, accounted s.(trace)) (λ s, accounted s.(trace)).
Proof.
  unfold run_task_inner. eapply ends_bind; [apply (load_task_trace _ _ accounted)|]. intros task.
  eapply ends_bind; [apply (load_source_trace _ _ accounted)|]. intros conn.
  eapply ends_bind; [apply (kept_of_result (λ s, accounted s.(trace)))|]. intros password.
  eapply (ends_bind _ _ _ (λ _ s, under_record s.(trace))).
  { intros s Hs. pose proof (insert_access_trace w.(env) task.(st_source) (action_db_str SchemaSnapshotAction) (status_db_str AuditOk) None by_
       (λ tr, tr = s.(trace)) s eq_refl) as Ht. unfold context, log_access, context, mbind, run_bind.
    destruct (insert_access _ _ _ _ _ _ s) as [[[]|e] s1]; cbn; cbn in Ht; rewrite Ht; [|done].
    split; [exists (task.(st_source)); apply elem_of_app; right; by apply list_elem_of_singleton|]. by apply accounted_more. }
  intros _. eapply (ends_weaken _ (λ s, under_record s.(trace)) _ _ (λ _ s, under_record s.(trace)) _ (λ s, under_record s.(trace)));
    [|done|by intros ? ? []|by intros ? []].
  apply (kept_bind (λ s, under_record s.(trace))); [apply kept_of_result|intros t].
  apply (kept_bind (λ s, under_record s.(trace))); [apply take_snapshot_trace, under_record_more|intros x].
  apply (kept_bind (λ s, under_record s.(trace))); [apply store_snapshot_trace|intros [[[[[? ?] ?] ?] ?] ?]].
  apply (kept_bind (λ s, under_record s.(trace))); [apply notify_trace, under_record_more|intros ?]. apply kept_ret.
Qed.

(**  Whatever other requests do and whichever statements fail, a run opens no
    connection to the customer's database, sends it no statement, reads no catalog and
    calls no webhook before the use of the credential is in the audit table. *)
Theorem credential_use_recorded task_id triggered_by s :
  accounted s.(trace) → accounted (run_task task_id triggered_by s).2.(trace).
Proof.
  intros Hs. assert (K : Kept (λ s, accounted s.(trace)) (run_task task_id triggered_by)).
  { unfold run_task. apply (recorded_trace _ accounted); [apply inner_accounted|intros; apply kept_ret]. }
  specialize (K s Hs). by destruct (run_task _ _ s) as [[o|e] s'].
Qed.

(** *** A source that lets its account write *)

Definition source_drift (d : Db) : Prop := ∀ c conn, d.(connections) !! c = Some conn → conn.(dc_kind) = "source_drift".
Definition reads_catalog (e : Event Url) : Prop := match e with Introspected _ | Http _ => True | _ => False end.
Definition unread (tr : list (Event Url)) : Prop := Forall (λ e, ¬ reads_catalog e) tr.
Definition held (s : St) : Prop := source_drift s.(db) ∧ unread s.(trace).
Lemma unread_more tr e : unread tr → ¬ reads_catalog e → unread (tr ++ [e]).
Proof. intros Ht He. apply Forall_app. by split; [|apply Forall_singleton]. Qed.
Lemma held_log_access c a st e by_ : (∀ i d, source_drift d → source_drift (w.(env).(others) i d)) → Kept held (log_access c a st e by_).
Proof.
  intros Ho. apply kept_and.
  - apply log_access_keeps; [done|]. by apply access_row_keeps.
  - apply (log_access_logged unread). intros tr Htr. apply unread_more; [done|by intros []].
Qed.
Lemma check_refuses t s : interpret_create w.(source).(create) ≠ ReadOnly → held s →
  match (match t with Drift.MySql => check_mysql | Drift.Postgres => check_postgres end) s with
  | (Ok o, s') => o ≠ ReadOnly ∧ held s' | (Err _, _) => False end.
Proof.
  intros Hc [Hd Hu]. destruct t; cbn.
  - unfold check_mysql, mbind, run_bind, emit, emit_all. destruct (create (source w)) eqn:E; cbn -[interpret_create];
      (split; [done|]); (split; [done|]); cbn; repeat (apply unread_more; [|by intros []]); done.
  - unfold check_postgres, emit, emit_all. destruct (_ ≫= _) as [[]|e]; unfold mbind, run_bind; cbn -[interpret_create]; [|by repeat split].
    split; [done|]. split; [done|]. cbn. repeat (apply unread_more; [|by intros []]); done.
Qed.
Lemma take_snapshot_refused t id conn pw cfg by_ : (∀ i d, source_drift d → source_drift (w.(env).(others) i d)) →
  interpret_create w.(source).(create) ≠ ReadOnly → conn.(dc_kind) = "source_drift" →
  Ends held (take_snapshot t id conn pw cfg by_) (λ _ _, False) held.
Proof.
  intros Ho Hc Hk. unfold take_snapshot. eapply (ends_bind _ _ _ (λ _, held)).
  { unfold open_pool. apply kept_bind; [|intros ?; apply kept_of_result]. intros s [Hd Hu]. split; [done|]. apply unread_more; [done|by intros []]. }
  intros _. rewrite decide_True by done. eapply (ends_bind _ _ _ (λ _ _, False)); [|by intros ? ?].
  unfold run_canary. eapply (ends_bind _ _ _ (λ o s, o ≠ ReadOnly ∧ held s)).
  { intros s Hs. pose proof (check_refuses t s Hc Hs) as H'. by destruct (_ s) as [[o|e] s']. }
  intros o. intros s [Ho' Hs]. destruct o as [| |m]; [done| |].
  all: match goal with |- context [caught (log_access ?c ?a ?st ?e ?b)] => pose proof (kept_caught held _ (held_log_access c a st e b Ho) s Hs) as K end;
    unfold mbind, run_bind; destruct (caught _ s) as [[x|x] s']; exact K.
Qed.

(** C11.  A drift source whose account can create a table, or cannot be asked, is never
    read: whatever other requests do and whichever statements fail, as long as all
    connections are and stay drift sources, the run fails before any catalog query, and no
    webhook is called. *)
Theorem writable_source_refused task_id triggered_by s :
  (∀ i d, source_drift d → source_drift (w.(env).(others) i d)) → source_drift s.(db) → s.(trace) = [] →
  match w.(source).(create) with Ok _ => True | Err e => is_connection_level_error e = true end →
  let '(r, s') := run_task task_id triggered_by s in is_ok r = false ∧ unread s'.(trace).
Proof.
  intros Ho Hd Ht Hcr. assert (Hc : interpret_create w.(source).(create) ≠ ReadOnly).
  { unfold interpret_create. destruct (create w.(source)) as [u|e]; [done|]. by rewrite Hcr. }
  assert (Hi : Ends held (run_task_inner task_id triggered_by) (λ _ _, False) held).
  { unfold run_task_inner. eapply (ends_bind _ _ _ (λ _, held)).
    { apply kept_and; [by apply load_task_kept|apply (load_task_trace _ _ unread)]. }
    intros task. eapply (ends_bind _ _ _ (λ conn s, held s ∧ conn.(dc_kind) = "source_drift")).
    { intros s0 [Hd0 Hu0]. unfold load_source, context, fetch, statement, mbind, run_bind. cbn. apply (Ho s0.(statements)) in Hd0.
      destruct (sql_fails w.(env) _); [by split|]. cbn. destruct (connections _ !! _) as [conn|] eqn:E; cbn; [|by split]. split; [by split|]. by eapply Hd0. }
    intros conn. apply ends_given. intros Hk.
    eapply (ends_bind _ _ _ (λ _, held)); [apply kept_of_result|intros pw].
    eapply (ends_bind _ _ _ (λ _, held)); [apply kept_context, held_log_access, Ho|intros _].
    eapply (ends_bind _ _ _ (λ _, held)); [apply kept_of_result|intros t].
    eapply (ends_bind _ _ _ (λ _ _, False)); [by apply take_snapshot_refused|by intros ? ?]. }
  assert (K : Ends held (run_task task_id triggered_by) (λ _ _, False) (λ s, unread s.(trace))).
  { unfold run_task. apply (recorded_never w.(env) source_drift unread); [exact Ho|done| |intros; apply kept_ret].
    eapply ends_weaken; [exact Hi|done|done|by intros s0 [_ Hu]]. }
  assert (Hs : held s) by (split; [done|rewrite Ht; apply Forall_nil_2]). specialize (K s Hs). by destruct (run_task _ _ s) as [[o|e] s'].
Qed.

(** *** The chain of snapshots *)

(** The row of a snapshot after a prior one. *)
Definition chained_row (task_id conn_id now_ : string) (prior : option (string * SchemaSnapshot)) (snapshot : Drift.SchemaSnapshot) (n : Z) : SchemaSnapshot :=
  {| ss_connection_id := conn_id; ss_captured_at := now_; ss_schema_hash := Drift.canonical_hash sha256_hex snapshot;
     ss_schema_json := Drift.canonical_json snapshot; ss_prior_hash := (λ p, p.2.(ss_schema_hash)) <$> prior; ss_task_id := Some task_id;
     ss_change_count := n |}.
(** What a successful run adds. *)
Definition extends (task_id : string) (d d' : Db) (o : RunOutcome) : Prop := ∃ t snapshot drifts at_ now_,
  d.(tasks) !! task_id = Some t ∧
  let prior := newest_snapshot t.(st_source) d in
  drifts_of prior snapshot = Ok (drifts, at_, o.(drift_count)) ∧
  d.(snapshots) !! o.(snapshot_id) = None ∧
  d'.(snapshots) = <[o.(snapshot_id) := chained_row task_id t.(st_source) now_ prior snapshot o.(drift_count)]> d.(snapshots) ∧
  o.(baseline_snapshot_id) = fst <$> prior ∧
  (drifts = [] ∨ DriftEvent.first_webhook_url t.(st_notify) = None → o.(webhook_status) = "skipped").

Section Chain.
Context (Hq : quiet w.(env)) (d : Db).
Definition unchanged (d' : Db) : Prop := d'.(snapshots) = d.(snapshots) ∧ d'.(tasks) = d.(tasks).
Lemma unchanged_others i d' : unchanged d' → unchanged (w.(env).(others) i d').
Proof. by apply quiet_others. Qed.
Lemma unchanged_access id a d1 d2 : unchanged d1 → insert_access_row w.(env).(unique_failed) w.(env).(foreign_key_failed) id a d1 = Ok d2 → unchanged d2.
Proof. by apply access_row_keeps. Qed.
Lemma load_task_found id : Ends (on_db unchanged) (load_task w.(env) id : M ScheduledTask) (λ t s, on_db unchanged s ∧ d.(tasks) !! id = Some t) anything.
Proof.
  intros s [Hs Ht]. rewrite load_task_quiet by done. rewrite Ht. cbn. destruct (tasks d !! id) as [t|]; cbn; [|done]. by split.
Qed.
Lemma store_snapshot_chains task_id c snapshot : Ends (on_db unchanged) (store_snapshot task_id c snapshot)
  (λ x s', let '(drifts, at_, n, prior, id, now_) := x in
     prior = newest_snapshot c d ∧ drifts_of prior snapshot = Ok (drifts, at_, n) ∧ d.(snapshots) !! id = None ∧
     s'.(db).(snapshots) = <[id := chained_row task_id c now_ prior snapshot n]> d.(snapshots)) anything.
Proof.
  intros s [Hs Ht]. unfold store_snapshot, context, Runs.fetch. unfold mbind at 1, run_bind. rewrite statement_quiet by done. cbn -[newest_snapshot drifts_of].
  assert (Hn : newest_snapshot c s.(db) = newest_snapshot c d) by (unfold newest_snapshot; by rewrite Hs). rewrite Hn.
  unfold mbind at 1, run_bind, of_result. destruct (drifts_of (newest_snapshot c d) snapshot) as [[[drifts at_] n]|] eqn:Ed; [|done].
  unfold mbind, run_bind, Runs.new_v4, Runs.utc_now, draw. rewrite insert_quiet by done. cbn -[newest_snapshot drifts_of].
  unfold insert_snapshot_row. rewrite Hs. destruct (snapshots d !! _) eqn:Ex; [done|]. case_bool_decide; [|done]. cbn -[newest_snapshot drifts_of].
  rewrite Hs. by split_and!.
Qed.
Lemma inner_extends task_id by_ : Ends (on_db unchanged) (run_task_inner task_id by_) (λ o s', extends task_id d s'.(db) o) anything.
Proof.
  unfold run_task_inner. eapply ends_bind; [apply load_task_found|]. intros t. apply ends_given. intros Ht.
  eapply (ends_bind _ _ _ (λ _, on_db unchanged)).
  { apply ends_kept, load_source_kept, unchanged_others. }
  intros conn. eapply (ends_bind _ _ _ (λ _, on_db unchanged)); [apply ends_kept, kept_of_result|intros pw].
  eapply (ends_bind _ _ _ (λ _, on_db unchanged)).
  { apply ends_kept, kept_context, log_access_keeps; [apply unchanged_others|apply unchanged_access]. }
  intros _. eapply (ends_bind _ _ _ (λ _, on_db unchanged)); [apply ends_kept, kept_of_result|intros ty].
  eapply (ends_bind _ _ _ (λ _, on_db unchanged)).
  { apply ends_kept, take_snapshot_keeps; [apply unchanged_others|apply unchanged_access]. }
  intros snapshot. eapply ends_bind; [apply store_snapshot_chains|]. intros [[[[[drifts at_] n] prior] id] now_].
  eapply (ends_bind _ _ _ (λ status s', (prior = newest_snapshot t.(st_source) d ∧ drifts_of prior snapshot = Ok (drifts, at_, n) ∧ d.(snapshots) !! id = None ∧
     s'.(db).(snapshots) = <[id := chained_row task_id t.(st_source) now_ prior snapshot n]> d.(snapshots)) ∧
     (drifts = [] ∨ DriftEvent.first_webhook_url t.(st_notify) = None → status = "skipped"))).
  2: { intros status s' [(-> & Hd & Hf & Hs) Hw]. exists t, snapshot, drifts, at_, now_. by split_and!. }
  intros s' Hs'.
  assert (K : Kept (on_db (λ d', d'.(snapshots) = <[id := chained_row task_id t.(st_source) now_ prior snapshot n]> d.(snapshots)))
     (notify_drifts snapshot drifts at_ now_ task_id t t.(st_source) conn ty by_)).
  { apply notify_keeps; [apply (quiet_others w.(env) (λ d', d'.(snapshots) = _) Hq)|]. by apply (access_row_keeps w.(env) (λ d', d'.(snapshots) = _)). }
  destruct Hs' as (Hp & Hd & Hf & Hs). specialize (K s' Hs).
  assert (Hw : drifts = [] ∨ DriftEvent.first_webhook_url t.(st_notify) = None →
     notify_drifts snapshot drifts at_ now_ task_id t t.(st_source) conn ty by_ s' = (Ok "skipped", s')).
  { unfold notify_drifts. intros [->|Hn]; [done|]. rewrite Hn. by destruct drifts. }
  destruct (notify_drifts _ _ _ _ _ _ _ _ _ _ s') as [[status|e] s2]; [|done]. split; [by split_and!|]. intros Hc. specialize (Hw Hc). congruence.
Qed.
End Chain.

(** C24.  With no other request at work and no failing statement, a successful run adds one
    snapshot of its task's source: it carries the hash of the newest snapshot before it,
    which the run names as its baseline, and as many changes as the comparison with that
    one gives; nothing is sent where there are none or the task has no channel. *)
Theorem run_extends_chain task_id triggered_by s o s' :
  quiet w.(env) → run_task task_id triggered_by s = (Ok o, s') → extends task_id s.(db) s'.(db) o.
Proof.
  intros Hq E. assert (K : Ends (on_db (unchanged s.(db))) (run_task task_id triggered_by) (λ o s', extends task_id s.(db) s'.(db) o) anything).
  { unfold run_task. apply (recorded_ends w.(env) (unchanged s.(db)) (λ o d', extends task_id s.(db) d' o)); [done|done|by intros ? ? ? ? ? ? []|].
    by apply inner_extends. }
  specialize (K s (conj eq_refl eq_refl)). by rewrite E in K.
Qed.
End Run.

(** ** Examples *)

Section Examples.
#[local] Existing Instances tlv_printer tlv_reader ex_cipher ex_cipher_laws Notify.ex_client.
Definition ex_rows (extra : bool) : list DriftCollector.MySqlColumnRow :=
  DriftCollector.Build_MySqlColumnRow "t" "a" 1 "int" "NO" None None None None ::
  if extra then [DriftCollector.Build_MySqlColumnRow "t" "b" 2 "int" "YES" None None None None] else [].
Definition ex_first : Drift.SchemaSnapshot := DriftCollector.collect_mysql "erp" (ex_rows false) [] [].
Definition ex_parse (s : string) : result string Drift.SchemaSnapshot :=
  if decide (s = Drift.canonical_json ex_first) then Ok ex_first else Err "unexpected".
Definition ex_source (created : result string unit) (extra : bool) : Source :=
  {| connect := λ _ _, Ok tt; acquire := Ok tt; begin := Ok tt; create := created; mysql_columns := λ _, Ok (ex_rows extra);
     mysql_indexes := λ _, Ok []; mysql_foreign_keys := λ _, Ok []; pg_columns := λ _, Err "no"; pg_indexes := λ _, Err "no";
     pg_foreign_keys := λ _, Err "no" |}.
Definition ex_world (run : string) (created : result string unit) (extra : bool) : World :=
  {| env := {| others := λ _ d, d; sql_fails := λ _, None; uuid := λ n, run +:+ decimal (N.of_nat n);
               clock := λ n, "2026-01-0" +:+ run +:+ "T" +:+ decimal (N.of_nat n); unique_failed := "UNIQUE"; foreign_key_failed := "FOREIGN KEY" |};
     elapsed_ms := 12; credential_key := "k"; install_uuid := "i1"; webhook_timeout := 10; dev := None; source := ex_source created extra;
     answers := λ _, Ok 200%Z |}.
Lemma ex_world_still run created extra : quiet (ex_world run created extra).(env).
Proof. done. Defined.
(** The connection and a task made through the endpoints. *)
Definition ex_drift_task : Automation.CreateTaskRequest :=
  {| Automation.ct_name := "watch"; Automation.ct_task_type := "schema_drift"; Automation.ct_cron_expr := "0 * * * *"; Automation.ct_config := JObj [];
     Automation.ct_source := "c1"; Automation.ct_target := None; Automation.ct_notify := Some ["https://hooks.example/x"] |}.
Definition ex_db : Db :=
  (Automation.serve (Automation.ex_server false) (Automation.ex_world "t1") "u1" (Automation.CreateTask ex_drift_task) (0, Automation.ex_created)).2.2.
Definition ex_start (d : Db) : St (Event string) := {| statements := 0; drawn := 0; db := d; trace := [] |}.
Definition ex_run (w : World) (d : Db) : result string RunOutcome * St (Event string) := run_task id ex_parse w "t1" "scheduler" (ex_start d).
Definition denied : result string unit := Err "1142 (42000): CREATE command denied to user 'reader'@'%'".
Definition ex_after : Db := (ex_run (ex_world "1" denied false) ex_db).2.(db).
(** The first run stores a snapshot; the second finds a column more and tells it. *)
Example two_runs :
  ((ex_run (ex_world "1" denied false) ex_db).1, (ex_run (ex_world "2" denied true) ex_after).1) =
  (Ok {| drift_count := 0; webhook_status := "skipped"; snapshot_id := "16"; baseline_snapshot_id := None |},
   Ok {| drift_count := 1; webhook_status := "ok"; snapshot_id := "26"; baseline_snapshot_id := Some "16" |}).
Proof. vm_compute. reflexivity. Qed.
(** MySQL refuses an account without the privilege to create temporary tables with a text
    that counts as an unreachable source: the run of a properly limited account fails. *)
Example limited_account_fails :
  (ex_run (ex_world "1" (Err "1044 (42000): Access denied for user 'reader'@'%' to database 'erp'") false) ex_db).1 =
  Err "source DB unreachable during canary".
Proof. vm_compute. reflexivity. Qed.
Example canary_is_audited :
  (λ a, (a.(ar_action), a.(ar_status), a.(ar_error))) <$> (map_to_list (ex_run (ex_world "1" (Ok tt) false) ex_db).2.(db).(access_audit)).*2 =
  [("schema_snapshot", "ok", None); ("canary_check", "error", Some "account is writable; expected read-only")].
Proof. vm_compute. reflexivity. Qed.

(** The same two rows, inserted one after the other. *)
Definition ex_rebuilt : result string Db :=
  match ex_db.(connections) !! "c1", ex_db.(tasks) !! "t1" with
  | Some c, Some t => d ← insert_connection_row "U" "c1" c Automation.ex_db; insert_task_row "U" "F" "t1" t d
  | _, _ => Err "missing"
  end.
Lemma run_keeps_references_witness : ∃ d, ex_rebuilt = Ok d ∧ references d ∧
  references (run_task id ex_parse (ex_world "1" denied false) "t1" "scheduler" (ex_start d)).2.(db).
Proof.
  destruct ex_rebuilt as [d|e] eqn:E; [|vm_compute in E; discriminate]. exists d. split; [reflexivity|].
  assert (Hd : references d).
  { unfold ex_rebuilt in E. destruct (ex_db.(connections) !! "c1") as [c|]; [|discriminate]. destruct (ex_db.(tasks) !! "t1") as [t|]; [|discriminate].
    destruct (insert_connection_row "U" "c1" c Automation.ex_db) as [d1|] eqn:E1; [|discriminate].
    eapply insert_task_keeps; [|exact E]. eapply insert_connection_keeps; [|exact E1]. exact Automation.ex_db_references. }
  split; [exact Hd|]. apply run_keeps_references; [intros i x Hx; exact Hx|exact Hd].
Defined.
Lemma run_is_recorded_witness :
  is_Some (ex_db.(tasks) !! "t1") ∧
  (let '(r, s') := run_task id ex_parse (ex_world "1" denied false) "t1" "scheduler" (ex_start ex_db) in
   closes (ex_world "1" denied false).(env) (λ o, to_vec (summary_json (ex_world "1" denied false) o)) redact_error "t1" "scheduler" (ex_start ex_db) s' r).
Proof.
  destruct (ex_db.(tasks) !! "t1") as [t|] eqn:Et; [|vm_compute in Et; discriminate]. split; [exists t; reflexivity|].
  assert (Hn : ex_db.(run_history) !! "10" = None) by (vm_compute; reflexivity).
  pose proof (run_is_recorded id ex_parse (ex_world "1" denied false) "t1" "scheduler" (ex_start ex_db) t (ex_world_still "1" denied false) Hn Et) as H.
  destruct (run_task _ _ _ _ _ _) as [r s']. exact H.
Defined.
Lemma credential_use_recorded_witness :
  accounted (ex_start ex_db).(trace) ∧ accounted (run_task id ex_parse (ex_world "1" denied false) "t1" "scheduler" (ex_start ex_db)).2.(trace).
Proof.
  assert (H : accounted (ex_start ex_db).(trace)) by (intros pre x post E; destruct pre; discriminate).
  split; [exact H|]. apply credential_use_recorded. exact H.
Defined.
Lemma writable_source_refused_witness :
  is_ok (run_task id ex_parse (ex_world "1" (Ok tt) false) "t1" "scheduler" (ex_start ex_db)).1 = false ∧
  unread (run_task id ex_parse (ex_world "1" (Ok tt) false) "t1" "scheduler" (ex_start ex_db)).2.(trace).
Proof.
  pose proof (writable_source_refused id ex_parse (ex_world "1" (Ok tt) false) "t1" "scheduler" (ex_start ex_db)) as H.
  destruct (run_task _ _ _ _ _ _) as [r s']. apply H; [done| |done|done].
  intros c conn. destruct (decide (c = "c1")) as [->|Hc].
  - intros E. vm_compute in E. injection E as <-. reflexivity.
  - intros E. exfalso. apply Hc. assert (Hm : ex_db.(connections) !! c = Some conn) by exact E. clear E.
    assert (Hs : map_to_list ex_db.(connections) = [("c1", default conn (ex_db.(connections) !! "c1"))]) by (vm_compute; reflexivity).
    apply elem_of_map_to_list in Hm. rewrite Hs in Hm. apply list_elem_of_singleton in Hm. congruence.
Defined.
Lemma run_extends_chain_witness :
  match run_task id ex_parse (ex_world "2" denied true) "t1" "scheduler" (ex_start ex_after) with
  | (Ok o, s') => o.(baseline_snapshot_id) = Some "16" ∧ extends id ex_parse "t1" (ex_start ex_after).(db) s'.(db) o
  | (Err _, _) => False
  end.
Proof.
  destruct (run_task id ex_parse (ex_world "2" denied true) "t1" "scheduler" (ex_start ex_after)) as [r s'] eqn:E.
  assert (Hr : r = Ok {| drift_count := 1; webhook_status := "ok"; snapshot_id := "26"; baseline_snapshot_id := Some "16" |}).
  { change r with (r, s').1. rewrite <- E. vm_compute. reflexivity. }
  subst r. split; [reflexivity|]. exact (run_extends_chain id ex_parse (ex_world "2" denied true) "t1" "scheduler" (ex_start ex_after) _ s' (ex_world_still "2" denied true) E).
Defined.
End Examples.
