(* ===== verification/HealthRun.v ===== *)
(** * One health check on the control database (health_check/src/collector.rs and
    runner.rs)

    What a source answers becomes a snapshot of metrics, each collected or named as
    unsupported; a run evaluates it against the alert states of its task, one statement
    after the other, calls the webhooks, stores a row of results and removes the expired
    ones.  [Health] has the state machine on the states of one task; here they are rows
    of the database that other requests change and statements fail on. *)

From S2P Require Import Prelude RustStr Json.
From S2P Require Import QueryStats.
From S2P Require Import Credential ControlDb Notify Runs.
From S2P Require Health Automation.
From stdpp Require Import strings gmap.

(** ** collector.rs *)

Definition collection_error (e : string) : string := first_line_chars 200 "collection error" e.
Definition measure_connectivity (select_1 : result string Z) : Health.ConnectivityResult :=
  match select_1 with
  | Ok latency => Health.Build_ConnectivityResult true latency None
  | Err e => Health.Build_ConnectivityResult false 0 (Some (collection_error e))
  end.
(** One metric: what is collected of it, and the entry if it fails. *)
Definition collect_metric {A} (enabled : bool) (name : string) (r : result string A) : option A * list (string * string) :=
  if enabled then match r with Ok a => (Some a, []) | Err e => (None, [(name, collection_error e)]) end else (None, []).
(** [Option<i64>] rows to [u64]. *)
Definition top_tables (rows : list (string * option Z)) : list (string * Z) := (λ r, (r.1, Z.max 0 (default 0%Z r.2))) <$> rows.
(** [str::parse::<u64>], with its error. *)
Definition parse_count (s : string) : result string Z :=
  match parse_u64 s with
  | Some n => Ok n
  | None => Err (if is_empty s then "cannot parse integer from empty string"
                 else if is_empty (default s (str_strip_prefix "+" s)) then "invalid digit found in string"
                 else if all_chars is_ascii_digit (default s (str_strip_prefix "+" s)) then "number too large to fit in target type"
                 else "invalid digit found in string")
  end.

(** What a source answers: to connecting, to the statement that creates a table, to
    [SELECT 1] with its latency, to the queries for the largest tables and those without
    a key, and for the connections, a text in MySQL and a number in PostgreSQL. *)
Record Source := {
  connect : ConnectOptions → result string unit; create : result string unit; select_1 : result string Z;
  mysql_top : string → Z → result string (list (string * option Z)); mysql_no_pk : string → result string (list string);
  threads_connected : result string string;
  pg_top : Z → result string (list (string * option Z)); pg_no_pk : result string (list string); pg_activity : result string Z }.

Definition snapshot_of (db_type : string) (c : Health.ConnectivityResult) (rows : option (list (string * Z)) * list (string * string))
    (pk : option (list string) * list (string * string)) (n : option Z * list (string * string)) : Health.MetricsSnapshot :=
  Health.Build_MetricsSnapshot c rows.1 pk.1 n.1 db_type (rows.2 ++ pk.2 ++ n.2).
Definition collect_mysql (src : Source) (database : string) (flags : Health.MetricFlags) (top_n : Z) : Health.MetricsSnapshot :=
  snapshot_of "mysql" (measure_connectivity src.(select_1))
    (collect_metric flags.(Health.f_row_count) "row_count" (rows ← src.(mysql_top) database top_n; Ok (top_tables rows)))
    (collect_metric flags.(Health.f_missing_pk) "missing_pk" (src.(mysql_no_pk) database))
    (collect_metric flags.(Health.f_connection_count) "connection_count" (v ← src.(threads_connected); parse_count v)).
Definition collect_postgres (src : Source) (flags : Health.MetricFlags) (top_n : Z) : Health.MetricsSnapshot :=
  snapshot_of "postgres" (measure_connectivity src.(select_1))
    (collect_metric flags.(Health.f_row_count) "row_count" (rows ← src.(pg_top) top_n; Ok (top_tables rows)))
    (collect_metric flags.(Health.f_missing_pk) "missing_pk" src.(pg_no_pk))
    (collect_metric flags.(Health.f_connection_count) "connection_count" (n ← src.(pg_activity); Ok (Z.max 0 n))).

(** *** The snapshot and the changes as JSON *)

Definition connectivity_json (c : Health.ConnectivityResult) : json :=
  JObj [("ok", JBool c.(Health.conn_ok)); ("latency_ms", JInt c.(Health.latency_ms)); ("error", jopt JStr c.(Health.conn_error))].
Definition snapshot_json (s : Health.MetricsSnapshot) : json :=
  JObj [("connectivity", connectivity_json s.(Health.connectivity));
        ("row_count", jopt (λ l, JObj [("top_tables", JArr ((λ t, JArr [JStr t.1; JInt t.2]) <$> l))]) s.(Health.row_count));
        ("missing_pk", jopt (λ l, JObj [("tables", jstrs l)]) s.(Health.missing_pk));
        ("connection_count", jopt JInt s.(Health.connection_count)); ("db_type", JStr s.(Health.snap_db_type));
        ("unsupported_metrics", JArr ((λ u, JObj [("metric", JStr u.1); ("reason", JStr u.2)]) <$> s.(Health.unsupported_metrics)))].
Definition severity_str (s : Health.Severity) : string :=
  match s with Health.Critical => "critical" | Health.Warning => "warning" | Health.Info => "info" end.
Definition trigger_str (t : Health.Trigger) : string := match t with Health.Alert => "alert" | Health.Resolved => "resolved" end.
Definition change_json (c : Health.AlertChange) : json :=
  JObj [("metric", JStr c.(Health.metric)); ("severity", JStr (severity_str c.(Health.severity)));
        ("trigger", JStr (trigger_str c.(Health.trigger))); ("detail", c.(Health.detail))].

(** ** runner.rs *)

Inductive Event (Url : Type) : Type :=
| Opened (options : ConnectOptions)
| Probed (sql : string)
| Measured (db_type : string)
| Http (e : Effect Url).
Arguments Opened {Url}.
Arguments Probed {Url}.
Arguments Measured {Url}.
Arguments Http {Url}.

(** [expired_before n] is SQLite's [datetime('now', '-n days')]. *)
Record World := {
  env : Env; elapsed_ms : Z; credential_key : string; install_uuid : string; dev : option string; source : Source;
  responses : nat → nat → result string Z; expired_before : Z → string; parse_config : string → option Health.HealthCheckTaskConfig }.

Section Run.
Context {Url : Type} `{HttpClient Url, Printer, Reader, Cipher} (hash_iter : gset string → list string) (to_lowercase : string → string) (w : World).
#[local] Notation M := (M (Event Url)).
#[local] Notation St := (St (Event Url)).
#[local] Notation insert_row := (insert_row w.(env)).
#[local] Notation fetch := (fetch w.(env)).
#[local] Notation new_v4 := (new_v4 w.(env)).
#[local] Notation utc_now := (utc_now w.(env)).

(** Best effort: a row that is not written is only logged. *)
Definition record_credential_access (conn_id status : string) (error : option string) (triggered_by : string) : M unit :=
  _ ← caught (insert_access w.(env) conn_id "health_check" status error triggered_by); mret tt.
Definition get_password (conn_id : string) (conn : DatabaseConnection) (triggered_by : string) : M string :=
  match decrypt_password conn.(dc_password_encrypted) w.(credential_key) with
  | Ok p => _ ← record_credential_access conn_id "ok" None triggered_by; mret p
  | Err e => _ ← record_credential_access conn_id "error" (Some "credential decrypt failed") triggered_by;
             fail ("credential decrypt failed: " +:+ display e)
  end.

(** *** Evaluation *)

(** The row of one metric, as a table of its own. *)
Definition metric_row (task_id m : string) (d : Db) : Health.AlertTable :=
  match d.(alert_states) !! (task_id, m) with Some r => {[m := r]} | None => ∅ end.
Definition load_prior (task_id m : string) : M (option (Health.AlertState * option json)) :=
  r ← caught (fetch (λ d, Health.prior_of (metric_row task_id m d) m));
  mret (match r with Ok o => o | Err _ => None end).
Definition alert_row (s : Health.AlertState) (d : option json) : Health.AlertRow :=
  Health.Build_AlertRow (Health.as_db_str s) (Health.fail_count s) (Some (match d with Some v => to_vec v | None => "" end)).
Definition persist (task_id m : string) (s : Health.AlertState) (d : option json) : M unit :=
  _ ← caught (insert_row (upsert_alert_row w.(env).(foreign_key_failed) task_id m (alert_row s d))); mret tt.
Definition evaluate_metric (task_id m : string) (ev : option Health.AlertState → Health.AlertState * option Health.AlertChange) : M (list Health.AlertChange) :=
  prior ← load_prior task_id m;
  let '(new_state, change) := ev (fst <$> prior) in
  _ ← persist task_id m new_state None; mret (option_list change).
Definition evaluate_pk (task_id : string) (tables : list string) : M (list Health.AlertChange) :=
  prior ← load_prior task_id "missing_pk";
  let '(persisted_set, pk_changes) := Health.evaluate_missing_pk hash_iter (p ← prior; Health.detail_last_missing p.2) tables in
  _ ← persist task_id "missing_pk" Health.SOk (Some (Health.detail_for_missing_pk persisted_set)); mret pk_changes.
Definition when_collected {A} (o : option A) (f : A → M (list Health.AlertChange)) : M (list Health.AlertChange) :=
  match o with Some a => f a | None => mret [] end.
Definition evaluate_all (task_id : string) (snapshot : Health.MetricsSnapshot) (config : Health.HealthCheckTaskConfig) : M (list Health.AlertChange) :=
  c1 ← evaluate_metric task_id "connectivity" (λ cur,
         Health.evaluate_connectivity cur snapshot.(Health.connectivity) config.(Health.fail_threshold));
  c2 ← when_collected snapshot.(Health.row_count) (λ stats, evaluate_metric task_id "row_count" (λ cur,
         Health.evaluate_row_count cur stats config.(Health.large_table_threshold) config.(Health.fail_threshold)));
  c3 ← when_collected snapshot.(Health.connection_count) (λ count, evaluate_metric task_id "connection_count" (λ cur,
         Health.evaluate_connection_count cur (Some count) config.(Health.connection_count_threshold) config.(Health.fail_threshold)));
  c4 ← when_collected snapshot.(Health.missing_pk) (evaluate_pk task_id);
  mret (c1 ++ c2 ++ c3 ++ c4).

(** *** The run *)

Definition open_pool (what : string) (conn : DatabaseConnection) (password : string) : M unit :=
  let opts := source_options conn password in
  _ ← emit (Opened opts);
  of_result (err_as (λ e, what +:+ " connect failed: " +:+ e) (w.(source).(connect) opts)).
Definition mysql_canary : string := "CREATE TEMPORARY TABLE dbmaster_hc_canary (id INT)".
Definition mysql_canary_drop : string := "DROP TEMPORARY TABLE dbmaster_hc_canary".
Definition pg_canary : string := "CREATE TEMP TABLE dbmaster_hc_canary (id INT)".
Definition run_canary_mysql : M unit :=
  _ ← emit (Probed mysql_canary);
  _ ← (match w.(source).(create) with Ok _ => emit (Probed mysql_canary_drop) | Err _ => mret tt end);
  of_result (Health.run_canary_mysql to_lowercase w.(source).(create)).
Definition run_canary_pg : M unit :=
  _ ← emit (Probed pg_canary);
  of_result (Health.run_canary_pg to_lowercase w.(source).(create)).
(** Steps 4 to 6, for a source with a driver. *)
Definition measure (task_id what : string) (conn : DatabaseConnection) (password : string) (canary : M unit) (snap : Health.MetricsSnapshot)
    (config : Health.HealthCheckTaskConfig) : M (Health.MetricsSnapshot * list Health.AlertChange) :=
  _ ← open_pool what conn password;
  _ ← (if decide (conn.(dc_kind) = "source_drift") then canary else mret tt);
  _ ← emit (Measured what);
  changes ← evaluate_all task_id snap config; mret (snap, changes).
Definition collect_and_evaluate (task_id : string) (conn : DatabaseConnection) (password : string) (config : Health.HealthCheckTaskConfig)
    : M (Health.MetricsSnapshot * list Health.AlertChange) :=
  let flags := config.(Health.metrics) in
  if decide (conn.(dc_db_type) = "mysql")
  then measure task_id "mysql" conn password run_canary_mysql
         (collect_mysql w.(source) (default "" conn.(dc_default_database)) flags 10) config
  else if decide (conn.(dc_db_type) = "postgres")
  then measure task_id "postgres" conn password run_canary_pg (collect_postgres w.(source) flags 10) config
  else mret (Health.connectivity_only_snapshot conn.(dc_db_type)
               (Health.Build_ConnectivityResult false 0 (Some ("unsupported db_type: " +:+ conn.(dc_db_type)))) flags, []).
(** Step 7: identifiers and times are drawn for each change that is sent. *)
Definition deliver_changes (task_id : string) (task : ScheduledTask) (conn : DatabaseConnection) (changes : list Health.AlertChange) : M string := λ s,
  let '(sent, status) := HealthEvent.deliver_changes w.(install_uuid) (is_dev_mode w.(dev))
       (λ i, (w.(env).(uuid) (s.(drawn) + 2 * i), w.(env).(clock) (s.(drawn) + 2 * i + 1))) w.(responses) task_id task task.(st_source) conn changes in
  (Ok status, {| statements := s.(statements);
                 drawn := if decide (status = "skipped") then s.(drawn) else s.(drawn) + 2 * length changes;
                 db := s.(db); trace := s.(trace) ++ (Http <$> sent) |}).
Definition run_status (snapshot : Health.MetricsSnapshot) : string :=
  match snapshot.(Health.unsupported_metrics) with [] => "success" | _ => "partial" end.
(** Steps 8 and 9. *)
Definition store_results (task_id triggered_by : string) (snapshot : Health.MetricsSnapshot) (changes : list Health.AlertChange) (retention : Z) : M unit :=
  id ← new_v4; started_at ← utc_now; finished_at ← utc_now;
  _ ← context "insert health_check_results row"
    (insert_row (insert_result_row w.(env).(unique_failed) w.(env).(foreign_key_failed) id
       {| hr_task_id := task_id; hr_started_at := started_at; hr_finished_at := Some finished_at; hr_status := run_status snapshot;
          hr_metrics_summary := to_vec (snapshot_json snapshot); hr_alert_changes := to_vec (JArr (change_json <$> changes));
          hr_triggered_by := triggered_by; hr_error := None |}));
  _ ← caught (update_rows w.(env) (rotate_result_rows task_id (w.(expired_before) retention))); mret tt.
Definition run_task_inner (task_id triggered_by : string) : M Health.RunOutcome :=
  task ← load_task w.(env) task_id;
  conn ← load_source w.(env) task.(st_source);
  let config := Health.from_json_or_default w.(parse_config) task.(st_config) in
  password ← get_password task.(st_source) conn triggered_by;
  '(snapshot, all_changes) ← collect_and_evaluate task_id conn password config;
  webhook_status ← deliver_changes task_id task conn all_changes;
  _ ← store_results task_id triggered_by snapshot all_changes config.(Health.retention_days);
  mret (Health.Build_RunOutcome (run_status snapshot) (Health.count_collected snapshot) (Z.of_nat (length all_changes) mod 2 ^ 32) webhook_status).
Definition insert_failed_result (task_id triggered_by started_at redacted_error : string) : M unit :=
  id ← new_v4; finished_at ← utc_now;
  context "insert failed-run health_check_results row"
    (insert_row (insert_result_row w.(env).(unique_failed) w.(env).(foreign_key_failed) id
       {| hr_task_id := task_id; hr_started_at := started_at; hr_finished_at := Some finished_at; hr_status := "failed";
          hr_metrics_summary := "{}"; hr_alert_changes := "[]"; hr_triggered_by := triggered_by; hr_error := Some redacted_error |})).
Definition summary_json (o : Health.RunOutcome) : json :=
  JObj [("status", JStr o.(Health.status)); ("metrics_collected", JInt o.(Health.metrics_collected));
        ("alert_changes", JInt o.(Health.alert_changes)); ("webhook_status", JStr o.(Health.webhook_status)); ("duration_ms", JInt w.(elapsed_ms))].
Definition run_task (task_id triggered_by : string) : M Health.RunOutcome :=
  recorded_run w.(env) (run_task_inner task_id triggered_by) (λ o, to_vec (summary_json o)) Health.redact_error
    (insert_failed_result task_id triggered_by) task_id triggered_by.

(** *** Without other requests and failures the evaluation is that of [Health] *)

(** The alert states of one task are a table of [Health]. *)
Definition states_of (task_id : string) (d : Db) (tbl : Health.AlertTable) : Prop := ∀ m, d.(alert_states) !! (task_id, m) = tbl !! m.
Lemma metric_row_prior task_id m d tbl : states_of task_id d tbl → Health.prior_of (metric_row task_id m d) m = Health.prior_of tbl m.
Proof.
  intros Hs. unfold metric_row. rewrite Hs. unfold Health.prior_of, Health.load_metric_state. destruct (tbl !! m) eqn:E.
  - by rewrite lookup_singleton_eq.
  - by rewrite lookup_empty.
Qed.
(** The task is there, and the identifiers to come are not in use for results. *)
Definition ready (task_id : string) (d : Db) : Prop := is_Some (d.(tasks) !! task_id) ∧ ∀ n, d.(health_results) !! w.(env).(uuid) n = None.

Section Quiet.
Context (Hq : quiet w.(env)) (task_id : string).
(** What a part of the evaluation does to the states: as the same part of [Health]. *)
Definition evaluates {A} (m : M A) (tbl tbl' : Health.AlertTable) (a : A) : Prop := ∀ s,
  ready task_id s.(db) → states_of task_id s.(db) tbl → ∃ s', m s = (Ok a, s') ∧ ready task_id s'.(db) ∧ states_of task_id s'.(db) tbl'.
Lemma evaluates_bind {A B} (m : M A) (f : A → M B) tbl tbl' tbl'' a b :
  evaluates m tbl tbl' a → evaluates (f a) tbl' tbl'' b → evaluates (m ≫= f) tbl tbl'' b.
Proof. intros Hm Hf s Hk Hs. destruct (Hm s Hk Hs) as (s1 & E & Hk1 & Hs1). rewrite (bind_ok _ _ _ _ _ E). by apply Hf. Qed.
Lemma evaluates_ret {A} (a : A) tbl : evaluates (mret a) tbl tbl a.
Proof. intros s Hk Hs. by exists s. Qed.
Lemma load_prior_evaluates m tbl : evaluates (load_prior task_id m) tbl tbl (Health.prior_of tbl m).
Proof.
  intros s Hk Hs. exists (after s s.(db)). split; [|done]. unfold load_prior, mbind, run_bind, caught, Runs.fetch. rewrite statement_quiet by done.
  cbn. by rewrite (metric_row_prior task_id m _ tbl Hs).
Qed.
Lemma persist_evaluates m st d tbl : evaluates (persist task_id m st d) tbl (Health.persist_metric_state tbl m st d) tt.
Proof.
  intros s Hk Hs. eexists (after s _). split.
  - unfold persist, mbind, run_bind, caught. rewrite insert_quiet by done. unfold upsert_alert_row. by rewrite bool_decide_eq_true_2 by apply Hk.
  - split; [done|]. intros m'. cbn. unfold Health.persist_metric_state, alert_row. destruct (decide (m = m')) as [->|Hm].
    + by rewrite !lookup_insert_eq.
    + by rewrite !lookup_insert_ne by congruence.
Qed.
Lemma evaluate_metric_evaluates m ev tbl :
  evaluates (evaluate_metric task_id m ev) tbl (Health.threshold_part tbl m ev).1 (Health.threshold_part tbl m ev).2.
Proof.
  unfold evaluate_metric, Health.threshold_part. eapply evaluates_bind; [apply load_prior_evaluates|].
  destruct (ev _) as [st change]. eapply evaluates_bind; [apply persist_evaluates|]. apply evaluates_ret.
Qed.
Lemma evaluate_pk_evaluates tables tbl :
  evaluates (evaluate_pk task_id tables) tbl (Health.missing_pk_part hash_iter tbl tables).1 (Health.missing_pk_part hash_iter tbl tables).2.
Proof.
  unfold evaluate_pk, Health.missing_pk_part. eapply evaluates_bind; [apply load_prior_evaluates|].
  destruct (Health.evaluate_missing_pk _ _ _) as [set changes]. eapply evaluates_bind; [apply persist_evaluates|]. apply evaluates_ret.
Qed.
(** A part that runs only when its metric was collected, after changes found before. *)
Lemma when_collected_evaluates {A} (o : option A) f (part : Health.AlertTable → A → Health.AlertTable * list Health.AlertChange) tbl cs :
  (∀ a tbl, evaluates (f a) tbl (part tbl a).1 (part tbl a).2) →
  ∃ more, evaluates (when_collected o f) tbl (Health.if_collected o part (tbl, cs)).1 more ∧ (Health.if_collected o part (tbl, cs)).2 = cs ++ more.
Proof.
  intros Hf. destruct o as [a|]; cbn; [|exists []; split; [apply evaluates_ret|by rewrite app_nil_r]].
  specialize (Hf a tbl). destruct (part tbl a) as [tbl' more]. by exists more.
Qed.
Lemma evaluate_all_evaluates snapshot config tbl :
  evaluates (evaluate_all task_id snapshot config) tbl (Health.evaluate_all hash_iter tbl snapshot config).1
    (Health.evaluate_all hash_iter tbl snapshot config).2.
Proof.
  unfold evaluate_all, Health.evaluate_all. eapply evaluates_bind; [apply evaluate_metric_evaluates|].
  destruct (Health.threshold_part tbl _ _) as [t1 c1]. cbn [fst snd].
  match goal with |- context [Health.if_collected (Health.row_count snapshot) ?p (t1, c1)] =>
    destruct (when_collected_evaluates (Health.row_count snapshot) (λ stats, evaluate_metric task_id "row_count" (λ cur,
         Health.evaluate_row_count cur stats config.(Health.large_table_threshold) config.(Health.fail_threshold))) p t1 c1) as (c2 & E2 & X2);
      [intros; apply evaluate_metric_evaluates|]; destruct (Health.if_collected (Health.row_count snapshot) p (t1, c1)) as [t2 l2] end.
  cbn [fst snd] in *. eapply evaluates_bind; [exact E2|].
  match goal with |- context [Health.if_collected (Health.connection_count snapshot) ?p (t2, l2)] =>
    destruct (when_collected_evaluates (Health.connection_count snapshot) (λ count, evaluate_metric task_id "connection_count" (λ cur,
         Health.evaluate_connection_count cur (Some count) config.(Health.connection_count_threshold) config.(Health.fail_threshold))) p t2 l2) as (c3 & E3 & X3);
      [intros; apply evaluate_metric_evaluates|]; destruct (Health.if_collected (Health.connection_count snapshot) p (t2, l2)) as [t3 l3] end.
  cbn [fst snd] in *. eapply evaluates_bind; [exact E3|].
  destruct (when_collected_evaluates (Health.missing_pk snapshot) (evaluate_pk task_id) (Health.missing_pk_part hash_iter) t3 l3) as (c4 & E4 & X4);
    [intros; apply evaluate_pk_evaluates|].
  destruct (Health.if_collected (Health.missing_pk snapshot) _ (t3, l3)) as [t4 l4]. cbn [fst snd] in *.
  eapply evaluates_bind; [exact E4|]. subst. rewrite <- !app_assoc. apply evaluates_ret.
Qed.
End Quiet.

(** What a connection and the answers of its source are to [Health]. *)
Definition health_source (conn : DatabaseConnection) (config : Health.HealthCheckTaskConfig) : Health.Source :=
  let password := decrypt_password conn.(dc_password_encrypted) w.(credential_key) in
  let flags := config.(Health.metrics) in
  {| Health.src_db_type := conn.(dc_db_type); Health.src_kind := conn.(dc_kind); Health.decrypt := (_ ← err_as display password; Ok tt);
     Health.connect := err_as (λ e, conn.(dc_db_type) +:+ " connect failed: " +:+ e)
                         (w.(source).(connect) (source_options conn (match password with Ok p => p | Err _ => "" end)));
     Health.create_canary := w.(source).(create);
     Health.collected := if decide (conn.(dc_db_type) = "mysql") then collect_mysql w.(source) (default "" conn.(dc_default_database)) flags 10
                         else collect_postgres w.(source) flags 10 |}.
(** The alert states of a task, which exists. *)
Definition in_state (task_id : string) (tbl : Health.AlertTable) (d : Db) : Prop := ready task_id d ∧ states_of task_id d tbl.
Section Steps.
Context (Hq : quiet w.(env)) (task_id : string).
Lemma record_keeps_state tbl conn_id st e by_ : Kept (on_db (in_state task_id tbl)) (record_credential_access conn_id st e by_).
Proof.
  apply kept_bind; [|intros ?; apply kept_ret]. apply kept_caught, insert_access_kept; [by apply quiet_others|]. by apply access_row_keeps.
Qed.
Lemma measure_as_specified tbl what conn password canary (verdict : result string unit) snap config :
  (∀ s, ∃ s', canary s = (verdict, s') ∧ s'.(db) = s.(db)) → ∀ s, in_state task_id tbl s.(db) →
  let '(r', s') := measure task_id what conn password canary snap config s in
  let '(tbl', r) := match (_ ← err_as (λ e, what +:+ " connect failed: " +:+ e) (w.(source).(connect) (source_options conn password));
                           if decide (conn.(dc_kind) = "source_drift") then verdict else Ok tt) with
                    | Err e => (tbl, Err e)
                    | Ok _ => let '(tbl', changes) := Health.evaluate_all hash_iter tbl snap config in (tbl', Ok (snap, changes))
                    end in
  r' = r ∧ in_state task_id tbl' s'.(db).
Proof.
  intros Hc s Hs. unfold measure, open_pool, mbind, run_bind, of_result, emit, emit_all. cbn -[evaluate_all].
  destruct (connect _ _) as [[]|e]; cbn -[evaluate_all]; [|done].
  set (s1 := {| statements := _ |}). assert (K1 : in_state task_id tbl s1.(db)) by done.
  assert (He : ∀ s2, in_state task_id tbl s2.(db) →
    let '(r', s') := (_ ← emit (Measured what); changes ← evaluate_all task_id snap config; mret (snap, changes)) s2 in
    let '(tbl', changes) := Health.evaluate_all hash_iter tbl snap config in r' = Ok (snap, changes) ∧ in_state task_id tbl' s'.(db)).
  { intros s2 K2. unfold emit, emit_all, mbind, run_bind.
    destruct (evaluate_all_evaluates Hq task_id snap config tbl {| statements := s2.(statements); drawn := s2.(drawn); db := s2.(db); trace := s2.(trace) ++ [Measured what] |})
      as (s3 & E3 & Hk & Ht); [apply K2|apply K2|]. rewrite E3. by destruct (Health.evaluate_all _ _ _ _) as [tbl' changes]. }
  unfold mbind, run_bind, emit, emit_all in He. case_decide.
  - destruct (Hc s1) as (s2 & E & Ed). rewrite E. destruct verdict as [[]|e]; cbn -[evaluate_all]; [|by rewrite Ed].
    assert (K2 : in_state task_id tbl s2.(db)) by (by rewrite Ed). specialize (He s2 K2).
    destruct (Health.evaluate_all _ _ _ _) as [tbl' changes]. exact He.
  - specialize (He s1 K1). destruct (Health.evaluate_all _ _ _ _) as [tbl' changes]. exact He.
Qed.
Lemma canary_mysql_answers s : ∃ s', run_canary_mysql s = (Health.run_canary_mysql to_lowercase w.(source).(create), s') ∧ s'.(db) = s.(db).
Proof. unfold run_canary_mysql, mbind, run_bind, emit, emit_all, of_result. destruct (create _); by eexists. Qed.
Lemma canary_pg_answers s : ∃ s', run_canary_pg s = (Health.run_canary_pg to_lowercase w.(source).(create), s') ∧ s'.(db) = s.(db).
Proof. unfold run_canary_pg, mbind, run_bind, emit, emit_all, of_result. by eexists. Qed.
Lemma steps_as_specified tbl conn_id conn config by_ s : in_state task_id tbl s.(db) →
  let '(r', s') := (password ← get_password conn_id conn by_; collect_and_evaluate task_id conn password config) s in
  let '(tbl', r) := Health.collect_and_evaluate hash_iter to_lowercase tbl (health_source conn config) config in
  r' = r ∧ in_state task_id tbl' s'.(db).
Proof.
  intros Hs. unfold get_password, Health.collect_and_evaluate, health_source. cbn [Health.decrypt Health.src_db_type Health.src_kind Health.connect Health.create_canary Health.collected].
  destruct (decrypt_password _ _) as [p|e]; cbn -[collect_and_evaluate record_credential_access Health.evaluate_all].
  - pose proof (record_keeps_state tbl conn_id "ok" None by_ s Hs) as K1. unfold mbind at 1 2, run_bind.
    destruct (record_credential_access _ _ _ _ s) as [[[]|e] s1] eqn:E1.
    2: { unfold record_credential_access, mbind, run_bind, caught in E1. by destruct (insert_access _ _ _ _ _ _ s). }
    cbn -[collect_and_evaluate Health.evaluate_all]. unfold collect_and_evaluate. case_decide as Hm.
    + rewrite Hm. by apply (measure_as_specified tbl "mysql" conn p _ _ _ config canary_mysql_answers).
    + case_decide as Hp.
      * rewrite Hp. by apply (measure_as_specified tbl "postgres" conn p _ _ _ config canary_pg_answers).
      * done.
  - pose proof (record_keeps_state tbl conn_id "error" (Some "credential decrypt failed") by_ s Hs) as K1. unfold mbind, run_bind.
    destruct (record_credential_access _ _ _ _ s) as [[[]|e'] s1] eqn:E1; [done|].
    unfold record_credential_access, mbind, run_bind, caught in E1. by destruct (insert_access _ _ _ _ _ _ s).
Qed.
End Steps.

(** A row of results that says why its run failed. *)
Definition failure_stored (task_id why : string) (d : Db) : Prop := ∃ id row,
  d.(health_results) !! id = Some row ∧ row.(hr_task_id) = task_id ∧ row.(hr_status) = "failed" ∧ row.(hr_error) = Some why.
Section Refinement.
Context (Hq : quiet w.(env)) (task_id : string).
Lemma insert_failed_stores tbl by_ why started : Ends (on_db (in_state task_id tbl)) (insert_failed_result task_id by_ started why)
  (λ _, on_db (λ d, states_of task_id d tbl ∧ failure_stored task_id why d)) (on_db (λ d, states_of task_id d tbl ∧ failure_stored task_id why d)).
Proof.
  intros s [[Ht Hn] Hs]. unfold insert_failed_result, Runs.new_v4, Runs.utc_now, context, mbind, run_bind, draw. cbn -[Runs.insert_row].
  rewrite insert_quiet by done. unfold insert_result_row. cbn. rewrite Hn, bool_decide_eq_true_2 by done. cbn. split; [done|].
  eexists _, _. split; [apply lookup_insert_eq|by repeat split].
Qed.
Lemma store_results_ok tbl by_ snapshot changes retention s : in_state task_id tbl s.(db) →
  ∃ s', store_results task_id by_ snapshot changes retention s = (Ok tt, s') ∧ states_of task_id s'.(db) tbl.
Proof.
  intros [[Ht Hn] Hs]. unfold store_results, Runs.new_v4, Runs.utc_now, context, mbind, run_bind, draw, caught. cbn -[Runs.insert_row update_rows].
  rewrite insert_quiet by done. unfold insert_result_row. cbn -[update_rows]. rewrite Hn, bool_decide_eq_true_2 by done. cbn -[update_rows].
  rewrite update_quiet by done. by eexists.
Qed.
Lemma inner_as_specified tbl by_ s t conn :
  in_state task_id tbl s.(db) → s.(db).(tasks) !! task_id = Some t → s.(db).(connections) !! t.(st_source) = Some conn →
  let config := Health.from_json_or_default w.(parse_config) t.(st_config) in
  let '(tbl', r) := Health.collect_and_evaluate hash_iter to_lowercase tbl (health_source conn config) config in
  let '(r', s') := run_task_inner task_id by_ s in
  match r with
  | Err e => r' = Err e ∧ in_state task_id tbl' s'.(db)
  | Ok (snapshot, changes) => (∃ webhook, r' = Ok (Health.Build_RunOutcome (run_status snapshot) (Health.count_collected snapshot)
                                (Z.of_nat (length changes) mod 2 ^ 32) webhook)) ∧ states_of task_id s'.(db) tbl'
  end.
Proof.
  intros Hs Ht Hc config. unfold run_task_inner.
  assert (E1 : load_task w.(env) task_id s = (Ok t, after s s.(db))) by (rewrite load_task_quiet by done; by rewrite Ht).
  assert (E2 : load_source w.(env) t.(st_source) (after s s.(db)) = (Ok conn, after (after s s.(db)) s.(db))).
  { rewrite load_source_quiet by done. cbn. by rewrite Hc. }
  rewrite (bind_ok _ _ _ _ _ E1), (bind_ok _ _ _ _ _ E2). fold config.
  pose proof (steps_as_specified Hq task_id tbl t.(st_source) conn config by_ (after (after s s.(db)) s.(db)) Hs) as Hst. fold config in Hst.
  destruct (Health.collect_and_evaluate _ _ _ _ _) as [tbl' r]. unfold mbind, run_bind in Hst |- *.
  destruct (get_password _ _ _ _) as [[pw|e] s1]; [|by destruct Hst as [<- Hst]].
  destruct (collect_and_evaluate _ _ _ _ s1) as [[[snapshot changes]|e] s2]; destruct Hst as [<- Hst]; [|done].
  destruct (deliver_changes _ _ _ _ s2) as [[status|e] s3] eqn:Ed.
  2: { unfold deliver_changes in Ed. by destruct (HealthEvent.deliver_changes _ _ _ _ _ _ _ _ _). }
  assert (Ed3 : s3.(db) = s2.(db)).
  { unfold deliver_changes in Ed. destruct (HealthEvent.deliver_changes _ _ _ _ _ _ _ _ _) as [sent st]. by injection Ed as _ <-. }
  destruct (store_results_ok tbl' by_ snapshot changes config.(Health.retention_days) s3) as (s4 & E4 & H4); [by rewrite Ed3|].
  rewrite E4. split; [by exists status|done].
Qed.

(** C26.  With no other request at work and no failing statement a health check is the one
    of the specification: started from the alert states of its task it leaves those the
    specification computes, fails with its error, which a row of results then tells, or
    ends with its status and counts. *)
Theorem check_refines tbl triggered_by s t conn :
  s.(db).(tasks) !! task_id = Some t → s.(db).(connections) !! t.(st_source) = Some conn → states_of task_id s.(db) tbl →
  s.(db).(run_history) !! w.(env).(uuid) s.(drawn) = None → (∀ n, s.(db).(health_results) !! w.(env).(uuid) n = None) →
  let config := Health.from_json_or_default w.(parse_config) t.(st_config) in
  let '(tbl', r) := Health.collect_and_evaluate hash_iter to_lowercase tbl (health_source conn config) config in
  let '(r', s') := run_task task_id triggered_by s in
  states_of task_id s'.(db) tbl' ∧
  match r with
  | Err e => r' = Err e ∧ failure_stored task_id (Health.redact_error e) s'.(db)
  | Ok (snapshot, changes) => ∃ webhook, r' = Ok (Health.Build_RunOutcome (run_status snapshot) (Health.count_collected snapshot)
                                (Z.of_nat (length changes) mod 2 ^ 32) webhook)
  end.
Proof.
  intros Ht Hc Hs Hid Hn config.
  pose proof (recorded_result w.(env) (run_task_inner task_id triggered_by) (λ o, to_vec (summary_json o)) Health.redact_error
    (insert_failed_result task_id triggered_by) task_id triggered_by s Hq Hid (ex_intro _ t Ht)) as Hr.
  set (s0 := opened _ _ _ _) in Hr. assert (Hin : in_state task_id tbl s0.(db)) by (split; [split; [by exists t|done]|done]).
  pose proof (inner_as_specified tbl triggered_by s0 t conn Hin Ht Hc) as Hi. cbn zeta in Hi. fold config in Hi. fold (run_task task_id triggered_by) in Hr.
  destruct (Health.collect_and_evaluate _ _ _ _ _) as [tbl' r]. destruct (run_task_inner _ _ s0) as [r' s1]. destruct (run_task _ _ s) as [r'' s'].
  destruct Hr as [-> Hr]. destruct r as [[snapshot changes]|e].
  - destruct Hi as [[webhook ->] Hi]. split; [|by exists webhook].
    apply (Hr (λ d, states_of task_id d tbl') (λ d, states_of task_id d tbl')); [done|done|done|exact Hi].
  - destruct Hi as [-> Hi].
    assert (Hd : states_of task_id s'.(db) tbl' ∧ failure_stored task_id (Health.redact_error e) s'.(db)).
    { apply (Hr (in_state task_id tbl') (λ d, states_of task_id d tbl' ∧ failure_stored task_id (Health.redact_error e) d)); [done|done| |exact Hi].
      intros started. apply insert_failed_stores. }
    destruct Hd as [Hd1 Hd2]. by split.
Qed.
End Refinement.
End Run.

(** ** Examples *)

Section Examples.
#[local] Existing Instances tlv_printer tlv_reader ex_cipher Notify.ex_client.
Definition ex_source (up : bool) : Source :=
  {| connect := λ _, if up then Ok tt else Err "timed out"; create := Err "1142 (42000): CREATE command denied to user 'reader'@'%'"; select_1 := Ok 3%Z;
     mysql_top := λ _ _, Ok [("orders", Some 12000000%Z); ("log", None)]; mysql_no_pk := λ _, Err "1142: SELECT command denied";
     threads_connected := Ok "17"; pg_top := λ _, Err "no"; pg_no_pk := Err "no"; pg_activity := Err "no" |}.
Definition ex_world (up : bool) : World :=
  {| env := {| others := λ _ d, d; sql_fails := λ _, None; uuid := λ n, "i" +:+ decimal (N.of_nat n);
               clock := λ n, "2026-03-04T05:06:" +:+ decimal (N.of_nat n); unique_failed := "UNIQUE"; foreign_key_failed := "FOREIGN KEY" |};
     elapsed_ms := 12; credential_key := "k"; install_uuid := "u"; dev := None; source := ex_source up; responses := λ _ _, Ok 200%Z;
     expired_before := λ _, "2026-02-02 05:06:07"; parse_config := λ _, None |}.
Definition ex_task : Automation.CreateTaskRequest :=
  {| Automation.ct_name := "pulse"; Automation.ct_task_type := "health_check"; Automation.ct_cron_expr := "*/5 * * * *"; Automation.ct_config := JObj [];
     Automation.ct_source := "c1"; Automation.ct_target := None; Automation.ct_notify := None |}.
(** A connection and a task made through the endpoints. *)
Definition ex_db (db_type : string) : Db :=
  let d := (Automation.serve (Automation.ex_server true) (Automation.ex_world "c1") "u1"
              (Automation.CreateConnection (Automation.ex_connection_to db_type)) (0, Automation.ex_db)).2.2 in
  (Automation.serve (Automation.ex_server false) (Automation.ex_world "t1") "u1" (Automation.CreateTask ex_task) (0, d)).2.2.
Definition ex_start (d : Db) : St (Event string) := {| statements := 0; drawn := 0; db := d; trace := [] |}.
Definition ex_run (up : bool) (d : Db) : result string Health.RunOutcome * St (Event string) :=
  run_task elements to_ascii_lowercase (ex_world up) "t1" "scheduler" (ex_start d).
Definition ex_end (r : result string Health.RunOutcome * St (Event string)) :
    result string (string * Z) * list (string * option string) * list (string * string) :=
  (o ← r.1; Ok (o.(Health.status), o.(Health.metrics_collected)),
   (λ x, (x.(hr_status), x.(hr_error))) <$> (map_to_list r.2.(db).(health_results)).*2,
   (λ x, (x.1.2, x.2.(Health.r_state))) <$> map_to_list r.2.(db).(alert_states)).
(** One metric is refused: the run is partial, the large table is counted once. *)
Example partial_run : ex_end (ex_run true (ex_db "mysql")) =
  (Ok ("partial", 3%Z), [("partial", None)], [("connection_count", "ok"); ("connectivity", "ok"); ("row_count", "failing")]).
Proof. vm_compute. reflexivity. Qed.
(** The kind of a database is compared letter for letter: "MySQL", which the endpoints
    accept and drift runs read, is not connected to, and no alert state is written. *)
Example kind_is_exact : ex_end (ex_run true (ex_db "MySQL")) = (Ok ("partial", 1%Z), [("partial", None)], []).
Proof. vm_compute. reflexivity. Qed.
(** A source that does not answer fails the run before connectivity is evaluated: the
    outage is in the results, and no alert state counts it. *)
Example outage_is_not_counted : ex_end (ex_run false (ex_db "mysql")) =
  (Err "mysql connect failed: timed out", [("failed", Some "mysql connect failed: timed out")], []).
Proof. vm_compute. reflexivity. Qed.
(** Results expire by calendar day: the separator of the stored times follows the blank of
    the cutoff, so that a result of the day of the cutoff is kept, however early. *)
Example boundary_day_is_kept :
  (QueryStats.text_lt "2026-02-02T00:00:01+00:00" "2026-02-02 05:06:07", QueryStats.text_lt "2026-02-01T23:59:59+00:00" "2026-02-02 05:06:07") = (false, true).
Proof. vm_compute. reflexivity. Qed.

Lemma check_refines_witness : ∃ t conn, (ex_db "mysql").(tasks) !! "t1" = Some t ∧ (ex_db "mysql").(connections) !! t.(st_source) = Some conn ∧
  let w := ex_world false in
  let config := Health.from_json_or_default w.(parse_config) t.(st_config) in
  let '(tbl', r) := Health.collect_and_evaluate elements to_ascii_lowercase ∅ (health_source w conn config) config in
  let '(r', s') := run_task elements to_ascii_lowercase w "t1" "scheduler" (ex_start (ex_db "mysql")) in
  states_of "t1" s'.(db) tbl' ∧
  match r with
  | Err e => r' = Err e ∧ failure_stored "t1" (Health.redact_error e) s'.(db)
  | Ok (snapshot, changes) => ∃ webhook, r' = Ok (Health.Build_RunOutcome (run_status snapshot) (Health.count_collected snapshot)
                                (Z.of_nat (length changes) mod 2 ^ 32) webhook)
  end.
Proof.
  destruct ((ex_db "mysql").(tasks) !! "t1") as [t|] eqn:Et; [|vm_compute in Et; discriminate].
  assert (Hc : is_Some ((ex_db "mysql").(connections) !! t.(st_source))) by (vm_compute in Et; injection Et as <-; vm_compute; eexists; reflexivity).
  destruct ((ex_db "mysql").(connections) !! t.(st_source)) as [conn|] eqn:Ec; [|destruct Hc; discriminate].
  exists t, conn. split; [reflexivity|]. split; [exact Ec|].
  assert (Hs : ∀ m, (ex_db "mysql").(alert_states) !! ("t1", m) = (∅ : Health.AlertTable) !! m).
  { intros m. assert (E : (ex_db "mysql").(alert_states) = ∅) by (vm_compute; reflexivity). rewrite E. by rewrite !lookup_empty. }
  assert (Hh : (ex_db "mysql").(run_history) !! (ex_world false).(env).(uuid) 0 = None) by (vm_compute; reflexivity).
  assert (Hn : ∀ n, (ex_db "mysql").(health_results) !! (ex_world false).(env).(uuid) n = None).
  { intros n. assert (E : (ex_db "mysql").(health_results) = ∅) by (vm_compute; reflexivity). rewrite E. by rewrite lookup_empty. }
  clear Hc. revert Et Ec Hs Hh Hn. generalize (ex_db "mysql"). intros d Et Ec Hs Hh Hn.
  assert (Hq : quiet (ex_world false).(env)) by (split; reflexivity). revert Hq Hh Hn. generalize (ex_world false). intros w Hq Hh Hn.
  exact (check_refines elements to_ascii_lowercase w Hq "t1" ∅ "scheduler" (ex_start d) t conn Et Ec Hs Hh Hn).
Defined.
End Examples.
