(* ===== verification/HealthSql.v ===== *)
(** * What a health check asks a source (crates/health_check/src/collector.rs)

    The four catalog queries of the collector, as text and as what they select of a
    catalog, and the metrics that come of them through [HealthRun.collect_mysql] and
    [HealthRun.collect_postgres].  An order that the text leaves open is left open. *)

From S2P Require Import Prelude RustStr Health HealthRun.
From stdpp Require Import strings list sorting.

(** ** The texts *)

Definition MYSQL_TOP_TABLES_SQL : string :=
  "SELECT table_name AS table_name, table_rows AS table_rows FROM information_schema.tables WHERE table_schema = ? AND table_type = 'BASE TABLE' ORDER BY table_rows DESC LIMIT ?".
Definition MYSQL_MISSING_PK_SQL : string :=
  "SELECT t.table_name AS table_name FROM information_schema.tables t WHERE t.table_schema = ? AND t.table_type = 'BASE TABLE' AND NOT EXISTS ( SELECT 1 FROM information_schema.table_constraints c WHERE c.table_schema = t.table_schema AND c.table_name = t.table_name AND c.constraint_type = 'PRIMARY KEY' ) ORDER BY t.table_name".
Definition PG_TOP_TABLES_SQL : string :=
  "SELECT relname AS relname, n_live_tup AS n_live_tup FROM pg_stat_user_tables ORDER BY n_live_tup DESC NULLS LAST LIMIT $1".
Definition PG_MISSING_PK_SQL : string :=
  "SELECT t.tablename AS tablename FROM pg_tables t WHERE t.schemaname NOT LIKE 'pg_%' AND NOT EXISTS ( SELECT 1 FROM pg_indexes i WHERE i.schemaname = t.schemaname AND i.tablename = t.tablename AND i.indexdef LIKE '%PRIMARY KEY%' ) ORDER BY t.tablename".

(** ** What they select *)

Record MysqlTable := { mt_schema : string; mt_name : string; mt_type : string; mt_rows : option Z }.
Record MysqlConstraint := { mc_schema : string; mc_table : string; mc_type : string }.
Record MysqlCatalog := { tables : list MysqlTable; table_constraints : list MysqlConstraint }.
Record PgTable := { pt_schema : string; pt_name : string }.
Record PgIndex := { pi_schema : string; pi_table : string; pi_def : string }.
Record PgCatalog := { pg_tables : list PgTable; pg_indexes : list PgIndex; pg_stat_user_tables : list (string * option Z) }.

(** LIKE: a percent sign is any text, an underscore any character. *)
Fixpoint pg_like (p s : string) {struct p} : bool :=
  match p with
  | EmptyString => bool_decide (s = "")
  | String c p =>
      if decide (c = "%"%char)
      then (fix any (s : string) : bool := pg_like p s || match s with EmptyString => false | String _ s => any s end) s
      else match s with
           | EmptyString => false
           | String d s => (bool_decide (c = "_"%char) || bool_decide (c = d)) && pg_like p s
           end
  end.

Section Queries.
(** The collations: which texts the catalog's columns take as equal, and the order. *)
Context (same : string → string → bool) (collates : string → string → Prop).

(** Largest first, what is not known last; cut after [n]. *)
Definition larger (a b : string * option Z) : Prop :=
  match a.2, b.2 with Some x, Some y => (y ≤ x)%Z | None, Some _ => False | _, None => True end.
Definition largest (n : Z) (selected rows : list (string * option Z)) : Prop :=
  ∃ sorted, sorted ≡ₚ selected ∧ StronglySorted larger sorted ∧ rows = take (Z.to_nat n) sorted.
Definition in_order (selected rows : list string) : Prop := rows ≡ₚ selected ∧ StronglySorted collates rows.

Definition base_tables (cat : MysqlCatalog) (database : string) : list MysqlTable :=
  List.filter (λ t, same t.(mt_schema) database && same t.(mt_type) "BASE TABLE") cat.(tables).
Definition keyed (cat : MysqlCatalog) (t : MysqlTable) : bool :=
  existsb (λ c, same c.(mc_schema) t.(mt_schema) && same c.(mc_table) t.(mt_name) && same c.(mc_type) "PRIMARY KEY") cat.(table_constraints).
Definition mysql_top_answer (cat : MysqlCatalog) (database : string) (n : Z) : list (string * option Z) → Prop :=
  largest n ((λ t, (t.(mt_name), t.(mt_rows))) <$> base_tables cat database).
Definition mysql_no_pk_answer (cat : MysqlCatalog) (database : string) : list string → Prop :=
  in_order (mt_name <$> List.filter (λ t, negb (keyed cat t)) (base_tables cat database)).
Definition seen_as_keyed (cat : PgCatalog) (t : PgTable) : bool :=
  existsb (λ i, bool_decide (i.(pi_schema) = t.(pt_schema)) && bool_decide (i.(pi_table) = t.(pt_name)) && pg_like "%PRIMARY KEY%" i.(pi_def)) cat.(pg_indexes).
Definition pg_top_answer (cat : PgCatalog) (n : Z) : list (string * option Z) → Prop := largest n cat.(pg_stat_user_tables).
Definition pg_no_pk_answer (cat : PgCatalog) : list string → Prop :=
  in_order (pt_name <$> List.filter (λ t, negb (pg_like "pg_%" t.(pt_schema)) && negb (seen_as_keyed cat t)) cat.(pg_tables)).

(** A source that answers from its catalog. *)
Definition answers {A} (P : A → Prop) (r : result string A) : Prop := match r with Ok a => P a | Err _ => True end.
Definition mysql_source (cat : MysqlCatalog) (src : Source) : Prop := ∀ db n,
  answers (mysql_top_answer cat db n) (src.(mysql_top) db n) ∧ answers (mysql_no_pk_answer cat db) (src.(mysql_no_pk) db).
Definition pg_source (cat : PgCatalog) (src : Source) : Prop :=
  (∀ n, answers (pg_top_answer cat n) (src.(pg_top) n)) ∧ answers (pg_no_pk_answer cat) src.(pg_no_pk).

(** ** The metrics *)

Definition rows_of (o : option Z) : Z := Z.max 0 (default 0%Z o).
Definition ranked (n : Z) (selected : list (string * option Z)) (l : list (string * Z)) : Prop :=
  (Z.of_nat (length l) ≤ n)%Z ∧ StronglySorted (λ a b, (b.2 ≤ a.2)%Z) l ∧
  (∀ e, e ∈ l → ∃ r, r ∈ selected ∧ e = (r.1, rows_of r.2)) ∧
  (∀ r, r ∈ selected → (r.1, rows_of r.2) ∈ l ∨ Z.of_nat (length l) = n ∧ ∀ e, e ∈ l → (rows_of r.2 ≤ e.2)%Z).
Lemma larger_rows a b : larger a b → (rows_of b.2 ≤ rows_of a.2)%Z.
Proof. unfold larger, rows_of. destruct a.2, b.2; cbn; try done; lia. Qed.
Lemma largest_ranked n selected rows : (0 ≤ n)%Z → largest n selected rows → ranked n selected (top_tables rows).
Proof.
  intros Hn (sorted & Hp & Hs & ->). unfold top_tables. split_and!.
  - rewrite length_fmap, length_take. lia.
  - rewrite <- (take_drop (Z.to_nat n) sorted) in Hs. apply StronglySorted_app_1_l in Hs.
    induction Hs as [|a l _ IH Ha]; cbn; [constructor|]. constructor; [exact IH|]. apply Forall_fmap. eapply Forall_impl; [exact Ha|].
    intros b Hb. by apply larger_rows.
  - intros e (r & -> & Hr)%list_elem_of_fmap. exists r. split; [|done]. rewrite <- Hp, <- (take_drop (Z.to_nat n) sorted). apply elem_of_app. by left.
  - intros r Hr. rewrite <- Hp in Hr. rewrite <- (take_drop (Z.to_nat n) sorted) in Hr. apply elem_of_app in Hr as [Hr|Hr].
    + left. apply list_elem_of_fmap. by exists r.
    + right. assert (Hd : drop (Z.to_nat n) sorted ≠ []) by (intros E; rewrite E in Hr; by apply elem_of_nil in Hr).
      split.
      * rewrite length_fmap, length_take. destruct (decide (Z.to_nat n ≤ length sorted)) as [|Hlt]; [lia|]. destruct Hd. apply drop_ge. lia.
      * intros e (x & -> & Hx)%list_elem_of_fmap. apply larger_rows. rewrite <- (take_drop (Z.to_nat n) sorted) in Hs.
        by eapply StronglySorted_app_1_elem_of.
Qed.
Lemma filter_ordered selected rows x : in_order selected rows → x ∈ rows ↔ x ∈ selected.
Proof. intros [Hp _]. by rewrite Hp. Qed.
Lemma collected {A B} enabled name (f : A → B) (P : A → Prop) (r : result string A) b : answers P r →
  (collect_metric enabled name (x ← r; Ok (f x))).1 = Some b → ∃ a, P a ∧ b = f a.
Proof. unfold collect_metric. destruct enabled, r as [a|]; cbn; try done. intros Ha [= <-]. by exists a. Qed.
Lemma collected_id {A} enabled name (P : A → Prop) (r : result string A) b : answers P r →
  (collect_metric enabled name r).1 = Some b → P b.
Proof. unfold collect_metric. destruct enabled, r as [a|]; cbn; try done. by intros Ha [= <-]. Qed.

(**  What a health check reports of a source is what its catalog holds.  The tables
    without a key are, in MySQL, exactly the base tables of the database that no
    PRIMARY KEY constraint names; in PostgreSQL, exactly the tables outside the schemas
    that begin with pg and a character, of which no index definition contains the words
    PRIMARY KEY.  The largest tables come by size, at most as many as asked, and none that
    is left out is larger than one that is listed. *)
Theorem metrics_of_the_catalog src flags db n mysql pg : (0 ≤ n)%Z → mysql_source mysql src → pg_source pg src →
  (let s := HealthRun.collect_mysql src db flags n in
   (∀ l, Health.missing_pk s = Some l → ∀ t, t ∈ l ↔ ∃ x, x ∈ mysql.(tables) ∧ x.(mt_name) = t ∧ same x.(mt_schema) db = true ∧
      same x.(mt_type) "BASE TABLE" = true ∧
      ¬ ∃ c, c ∈ mysql.(table_constraints) ∧ same c.(mc_schema) x.(mt_schema) = true ∧ same c.(mc_table) x.(mt_name) = true ∧ same c.(mc_type) "PRIMARY KEY" = true) ∧
   (∀ l, Health.row_count s = Some l → ranked n ((λ t, (t.(mt_name), t.(mt_rows))) <$> base_tables mysql db) l)) ∧
  (let s := HealthRun.collect_postgres src flags n in
   (∀ l, Health.missing_pk s = Some l → ∀ t, t ∈ l ↔ ∃ x, x ∈ pg.(pg_tables) ∧ x.(pt_name) = t ∧ pg_like "pg_%" x.(pt_schema) = false ∧
      ¬ ∃ i, i ∈ pg.(pg_indexes) ∧ i.(pi_schema) = x.(pt_schema) ∧ i.(pi_table) = x.(pt_name) ∧ pg_like "%PRIMARY KEY%" i.(pi_def) = true) ∧
   (∀ l, Health.row_count s = Some l → ranked n pg.(pg_stat_user_tables) l)).
Proof.
  intros Hn Hmy [Hpt Hpk]. split; split; intros l El.
  - intros t. apply (collected_id _ _ _ _ _ (proj2 (Hmy db n))) in El. rewrite (filter_ordered _ _ _ El), list_elem_of_fmap.
    split.
    + intros (x & -> & Hx). apply list_elem_of_In, filter_In in Hx as [Hx Hk%negb_true_iff]. apply filter_In in Hx as [Hx [H1 H2]%andb_true_iff].
      exists x. apply list_elem_of_In in Hx. split_and!; [done..|]. intros (c & Hc & H3 & H4 & H5).
      assert (keyed mysql x = true); [|congruence]. apply existsb_exists. exists c. split; [by apply list_elem_of_In|]. by rewrite H3, H4, H5.
    + intros (x & Hx & <- & H1 & H2 & Hno). exists x. split; [done|]. apply list_elem_of_In, filter_In. split.
      * apply filter_In. split; [by apply list_elem_of_In|]. by rewrite H1, H2.
      * apply negb_true_iff, not_true_is_false. intros (c & Hc & [[H3 H4]%andb_true_iff H5]%andb_true_iff)%existsb_exists. apply Hno.
        exists c. split_and!; [by apply list_elem_of_In|done..].
  - apply (collected _ _ _ _ _ _ (proj1 (Hmy db n))) in El as (rows & Hr & ->). by apply largest_ranked.
  - intros t. apply (collected_id _ _ _ _ _ Hpk) in El. rewrite (filter_ordered _ _ _ El), list_elem_of_fmap.
    split.
    + intros (x & -> & Hx). apply list_elem_of_In, filter_In in Hx as [Hx [H1%negb_true_iff Hk%negb_true_iff]%andb_true_iff].
      exists x. apply list_elem_of_In in Hx. split_and!; [done..|]. intros (i & Hi & H3 & H4 & H5).
      assert (seen_as_keyed pg x = true); [|congruence]. apply existsb_exists. exists i. split; [by apply list_elem_of_In|].
      by rewrite H3, H4, H5, !bool_decide_eq_true_2.
    + intros (x & Hx & <- & H1 & Hno). exists x. split; [done|]. apply list_elem_of_In, filter_In. split; [by apply list_elem_of_In|].
      rewrite H1. apply negb_true_iff, not_true_is_false.
      intros (i & Hi & [[H3%bool_decide_eq_true H4%bool_decide_eq_true]%andb_true_iff H5]%andb_true_iff)%existsb_exists. apply Hno.
      exists i. split_and!; [by apply list_elem_of_In|done..].
  - apply (collected _ _ _ _ _ _ (Hpt n)) in El as (rows & Hr & ->). by apply largest_ranked.
Qed.
End Queries.

(** ** A table with a key *)

Definition ex_mysql : MysqlCatalog :=
  {| tables := [{| mt_schema := "shop"; mt_name := "orders"; mt_type := "BASE TABLE"; mt_rows := Some 7%Z |};
                {| mt_schema := "shop"; mt_name := "log"; mt_type := "BASE TABLE"; mt_rows := None |};
                {| mt_schema := "shop"; mt_name := "recent"; mt_type := "VIEW"; mt_rows := None |}];
     table_constraints := [{| mc_schema := "shop"; mc_table := "orders"; mc_type := "PRIMARY KEY" |}] |}.
(** As PostgreSQL lists a table with a primary key. *)
Definition ex_pg : PgCatalog :=
  {| pg_tables := [{| pt_schema := "public"; pt_name := "orders" |}; {| pt_schema := "pgq"; pt_name := "queue" |}];
     pg_indexes := [{| pi_schema := "public"; pi_table := "orders"; pi_def := "CREATE UNIQUE INDEX orders_pkey ON public.orders USING btree (id)" |}];
     pg_stat_user_tables := [("orders", Some 7%Z)] |}.
Definition ex_answering : Source :=
  {| connect := λ _, Ok tt; create := Err "denied"; select_1 := Ok 1%Z;
     mysql_top := λ db n, if decide (db = "shop" ∧ n = 10%Z) then Ok [("orders", Some 7%Z); ("log", None)] else Err "other";
     mysql_no_pk := λ db, if decide (db = "shop") then Ok ["log"] else Err "other"; threads_connected := Ok "3";
     pg_top := λ n, if decide (n = 10%Z) then Ok [("orders", Some 7%Z)] else Err "other"; pg_no_pk := Ok ["orders"]; pg_activity := Ok 3%Z |}.
Notation same_text := (λ a b, bool_decide (a = b)).
Definition ex_flags : Health.MetricFlags := {| f_connectivity := true; f_row_count := true; f_missing_pk := true; f_connection_count := true |}.
Lemma ex_mysql_answers : mysql_source same_text (λ _ _, True) ex_mysql ex_answering.
Proof.
  intros db n. cbn. split; case_decide; try exact I.
  - destruct H as [-> ->]. exists [("orders", Some 7%Z); ("log", None)]. split_and!; [by vm_compute| |by vm_compute]. by repeat constructor.
  - subst db. split; [by vm_compute|]. by repeat constructor.
Qed.
Lemma ex_pg_answers : pg_source (λ _ _, True) ex_pg ex_answering.
Proof.
  split; cbn.
  - intros n. case_decide; [subst n|exact I]. exists [("orders", Some 7%Z)]. split_and!; [done| |by vm_compute]. by repeat constructor.
  - split; [by vm_compute|]. by repeat constructor.
Qed.
(** A table with a primary key is reported as without one, and one of a schema whose name
    begins with pg is not looked at. *)
Lemma metrics_of_the_catalog_witness :
  Health.missing_pk (HealthRun.collect_mysql ex_answering "shop" ex_flags 10) = Some ["log"] ∧
  Health.missing_pk (HealthRun.collect_postgres ex_answering ex_flags 10) = Some ["orders"] ∧
  ¬ ∃ i, i ∈ ex_pg.(pg_indexes) ∧ i.(pi_schema) = "public" ∧ i.(pi_table) = "orders" ∧ pg_like "%PRIMARY KEY%" i.(pi_def) = true.
Proof.
  split; [by vm_compute|]. split; [by vm_compute|].
  destruct (metrics_of_the_catalog same_text (λ _ _, True) ex_answering ex_flags "shop" 10 ex_mysql ex_pg ltac:(lia) ex_mysql_answers ex_pg_answers)
    as (_ & Hpk & _).
  destruct (proj1 (Hpk ["orders"] eq_refl "orders") ltac:(left)) as (x & Hx & En & _ & Hno).
  apply elem_of_cons in Hx as [->|[->|Hx%elem_of_nil]%elem_of_cons]; [exact Hno|discriminate En|done].
Defined.
