(* ===== verification/Telemetry.v ===== *)
(** * Anonymous telemetry (core/telemetry.rs)

    [POST /api/telemetry/event] takes events from clients that are not signed in: the
    type is looked up in a whitelist, the sender counted by the [install_uuid] it names,
    its address cut to a network, and the row inserted under a partial unique index that
    makes a retry harmless.  The counters are behind a mutex and the insertion is one
    statement, so requests are handled one after the other. *)

From S2P Require Import Prelude RustStr Json.
From S2P Require Import AppError RateLimiter.
From stdpp Require Import strings gmap.

(** ** The address of the client *)

Definition is_u8 (s : string) : bool := bool_decide (is_Some (parse_below 255 s)).
Definition redact_ipv4 (s : string) : string :=
  match split_on "." s with
  | [p0; p1; p2; p3] => if is_u8 p0 && is_u8 p1 && is_u8 p2 && is_u8 p3 then p0 +:+ "." +:+ p1 +:+ "." +:+ p2 +:+ ".0" else "unknown"
  | _ => "unknown"
  end.
Definition redact_ip_str (raw : string) : string :=
  match str_strip_prefix "::ffff:" raw with
  | Some stripped => redact_ipv4 stripped
  | None =>
      if contains ":" raw
      then match split_on ":" raw with
           | g0 :: g1 :: g2 :: _ :: _ => if negb (is_empty g0) && negb (is_empty g1) && negb (is_empty g2)
                                         then g0 +:+ ":" +:+ g1 +:+ ":" +:+ g2 +:+ ":0" else "unknown"
           | _ => "unknown"
           end
      else redact_ipv4 raw
  end.
(** On the [X-Forwarded-For] header as text. *)
Definition redact_client_ip (fwd : option string) : string :=
  let raw := match fwd with Some s => trim (split_first "," s) | None => "" end in
  if is_empty raw then "unknown" else redact_ip_str raw.

(** ** The counters *)

Definition RATE_LIMIT_MAX : nat := 60.
Definition RATE_LIMIT_WINDOW_SECS : Z := 60.
Definition rate_limit_check (now : Z) (install_uuid : string) (counters : gmap string (list Z)) : bool * gmap string (list Z) :=
  let entries := List.filter (λ t, (Z.max 0 (now - t) / 10 ^ 9 <? RATE_LIMIT_WINDOW_SECS)%Z) (default [] (counters !! install_uuid)) in
  if bool_decide (RATE_LIMIT_MAX ≤ length entries) then (false, <[install_uuid := entries]> counters)
  else (true, <[install_uuid := entries ++ [now]]> counters).

(** ** The table *)

Record Event := {
  te_install_uuid : string; te_event_type : string; te_payload : string; te_db_type : option string; te_app_version : option string;
  te_idempotency_key : option string; te_client_ip : string }.
Definition event_key (e : Event) : option (string * string * string) :=
  k ← e.(te_idempotency_key); Some (e.(te_install_uuid), e.(te_event_type), k).
Inductive SqlError := UniqueViolation | OtherSql (msg : string).
(** The index is partial: rows without a key do not take part. *)
Definition insert_event (e : Event) (table : list Event) : result SqlError (list Event) :=
  match event_key e with
  | Some k => if decide (Some k ∈ event_key <$> table) then Err UniqueViolation else Ok (table ++ [e])
  | None => Ok (table ++ [e])
  end.

(** ** The handler *)

Definition VALID_EVENT_TYPES : list string :=
  ["app_first_launch"; "db_connected"; "session_reopen"; "feature_used"; "feature_failure"; "server_started"; "task_executed";
   "touchpoint_exposed"; "touchpoint_clicked"; "server_download_clicked"; "server_connected"; "trial_started"; "trial_activated"].
Record TelemetryPayload := { event_type : string; event_payload : json; db_type : option string }.
(** One request: when it comes, its header, its body, and whether the database fails. *)
Record Request := { at_ : Z; forwarded_for : option string; body : TelemetryPayload; sql_fails : option string }.
Record State := { counters : gmap string (list Z); events : list Event }.

Section Handler.
Context `{Printer}.

Definition ok_body (data : json) : json := JObj [("ok", JBool true); ("data", data); ("error", JNull)].
Definition ingested_body (ingested deduplicated : bool) : json := ok_body (JObj [("ingested", JBool ingested); ("deduplicated", JBool deduplicated)]).
Definition invalid_type_response (ty : string) : json :=
  JObj [("ok", JBool false); ("data", JNull);
        ("error", JObj [("code", JStr "INVALID_EVENT_TYPE"); ("message", JStr ("Unknown: " +:+ ty))])].
Definition payload_str (k : string) (p : json) : option string := v ← jget k p; as_str v.
Definition install_of (p : TelemetryPayload) : string := default "unknown" (payload_str "install_uuid" p.(event_payload)).
Definition event_of (r : Request) : Event :=
  {| te_install_uuid := install_of r.(body); te_event_type := r.(body).(event_type); te_payload := to_vec r.(body).(event_payload);
     te_db_type := r.(body).(db_type); te_app_version := payload_str "app_version" r.(body).(event_payload);
     te_idempotency_key := payload_str "idempotency_key" r.(body).(event_payload); te_client_ip := redact_client_ip r.(forwarded_for) |}.
Definition ingest_event (r : Request) (s : State) : result AppError json * State :=
  if negb (bool_decide (r.(body).(event_type) ∈ VALID_EVENT_TYPES)) then (Ok (invalid_type_response r.(body).(event_type)), s)
  else
    let '(admitted, counters') := rate_limit_check r.(at_) (install_of r.(body)) s.(counters) in
    let s1 := {| counters := counters'; events := s.(events) |} in
    if negb admitted then (Err RateLimited, s1)
    else match (match r.(sql_fails) with Some e => Err (OtherSql e) | None => insert_event (event_of r) s.(events) end) with
         | Ok events' => (Ok (ingested_body true false), {| counters := counters'; events := events' |})
         | Err UniqueViolation => (Ok (ingested_body false true), s1)
         | Err (OtherSql _) => (Err (Internal "telemetry ingest failed"), s1)
         end.
(** Requests one after the other, with their answers. *)
Fixpoint run (rs : list Request) (s : State) : list (result AppError json) * State :=
  match rs with
  | [] => ([], s)
  | r :: rest => let '(a, s1) := ingest_event r s in let '(l, s2) := run rest s1 in (a :: l, s2)
  end.
End Handler.
Definition boot_state : State := {| counters := ∅; events := [] |}.

(** ** Addresses *)

(** What is stored of an address: the constant, or three parts that the rest of the
    address has no influence on. *)
Inductive anonymous : string → Prop :=
| anonymous_unknown : anonymous "unknown"
| anonymous_v4 a b c : is_u8 a = true → is_u8 b = true → is_u8 c = true → anonymous (a +:+ "." +:+ b +:+ "." +:+ c +:+ ".0")
| anonymous_v6 a b c : anonymous (a +:+ ":" +:+ b +:+ ":" +:+ c +:+ ":0").
Lemma redact_ipv4_anonymous s : anonymous (redact_ipv4 s).
Proof.
  unfold redact_ipv4. repeat case_match; try constructor.
  all: match goal with E : _ && _ = true |- _ => apply andb_prop in E as [[[? ?]%andb_prop ?]%andb_prop _] end; done.
Qed.
Lemma redact_client_ip_anonymous fwd : anonymous (redact_client_ip fwd).
Proof. unfold redact_client_ip, redact_ip_str. repeat case_match; first [apply redact_ipv4_anonymous|constructor]. Qed.

Lemma contains_sep c s : contains (String c "") s = negb (no_char c s).
Proof.
  unfold contains, RustStr.find. induction s as [|x s IH]; [done|]. cbn [no_char all_chars String.index String.prefix].
  destruct (ascii_dec c x) as [->|Hx].
  - rewrite bool_decide_eq_true_2 by done. by destruct s.
  - rewrite bool_decide_eq_false_2 by congruence. cbn. unfold no_char in IH. rewrite <- IH. by destruct (String.index 0 _ s).
Qed.

Lemma is_u8_plain s : is_u8 s = true → no_char "." s = true ∧ no_char ":" s = true.
Proof.
  intros Hs%bool_decide_eq_true. destruct Hs as [n Hn]. unfold parse_below, parse_u64 in Hn.
  set (digits := match s with String c r => _ | _ => _ end) in Hn.
  assert (Hd : all_chars is_ascii_digit digits = true).
  { destruct (parse_digits digits) as [m|] eqn:E; [|done]. clear Hn. unfold parse_digits in E. destruct digits as [|c r]; [done|].
    revert E. generalize (String c r) 0%N. clear. intros s. induction s as [|c s IH]; intros acc; [done|]. cbn.
    destruct (is_ascii_digit c); [apply IH|done]. }
  assert (Hp : ∀ c, is_ascii_digit c = false → c ≠ "+"%char → no_char c s = true).
  { intros c Hc Hc'. assert (Hx : no_char c digits = true).
    { eapply all_chars_impl; [|exact Hd]. intros x Hx. apply negb_true_iff, bool_decide_eq_false. congruence. }
    unfold digits in Hx. destruct s as [|y r]; [done|]. case_decide as Hy; [|exact Hx]. subst y. unfold no_char in *. cbn.
    rewrite bool_decide_eq_false_2 by congruence. exact Hx. }
  by split; apply Hp.
Qed.

(** Addresses of the same network: equal but for the host. *)
Inductive same_network : string → string → Prop :=
| same_v4 a b c d d' : is_u8 a = true → is_u8 b = true → is_u8 c = true → is_u8 d = true → is_u8 d' = true →
    same_network (a +:+ "." +:+ b +:+ "." +:+ c +:+ "." +:+ d) (a +:+ "." +:+ b +:+ "." +:+ c +:+ "." +:+ d')
| same_v6 a b c r r' : Forall (λ g, no_char ":" g = true ∧ g ≠ "") [a; b; c] →
    same_network (a +:+ ":" +:+ b +:+ ":" +:+ c +:+ ":" +:+ r) (a +:+ ":" +:+ b +:+ ":" +:+ c +:+ ":" +:+ r').
Lemma redact_v4 a b c d : is_u8 a = true → is_u8 b = true → is_u8 c = true → is_u8 d = true →
  redact_ip_str (a +:+ "." +:+ b +:+ "." +:+ c +:+ "." +:+ d) = a +:+ "." +:+ b +:+ "." +:+ c +:+ ".0".
Proof.
  intros Ha Hb Hc Hd. destruct (is_u8_plain a Ha) as [Da Ca], (is_u8_plain b Hb) as [Db Cb], (is_u8_plain c Hc) as [Dc Cc], (is_u8_plain d Hd) as [Dd Cd].
  unfold redact_ip_str. destruct (str_strip_prefix _ _) as [r|] eqn:E.
  { apply strip_prefix_Some in E. apply (f_equal (no_char ":")) in E. rewrite !no_char_app, Ca, Cb, Cc, Cd in E. discriminate E. }
  assert (Hc0 : contains ":" (a +:+ "." +:+ b +:+ "." +:+ c +:+ "." +:+ d) = false) by (rewrite contains_sep, !no_char_app, Ca, Cb, Cc, Cd; reflexivity).
  rewrite Hc0. unfold redact_ipv4.
  change ("." +:+ b +:+ "." +:+ c +:+ "." +:+ d) with (String "." (b +:+ "." +:+ c +:+ "." +:+ d)). rewrite split_on_app by done.
  change ("." +:+ c +:+ "." +:+ d) with (String "." (c +:+ "." +:+ d)). rewrite split_on_app by done.
  change ("." +:+ d) with (String "." d). rewrite split_on_app, split_on_one by done. by rewrite Ha, Hb, Hc, Hd.
Qed.
Lemma redact_v6 a b c r : Forall (λ g, no_char ":" g = true ∧ g ≠ "") [a; b; c] →
  redact_ip_str (a +:+ ":" +:+ b +:+ ":" +:+ c +:+ ":" +:+ r) = a +:+ ":" +:+ b +:+ ":" +:+ c +:+ ":0".
Proof.
  intros Hg. apply Forall_cons in Hg as [[Ca Na] Hg]. apply Forall_cons in Hg as [[Cb Nb] Hg]. apply Forall_cons in Hg as [[Cc Nc] _].
  unfold redact_ip_str. destruct (str_strip_prefix _ _) as [x|] eqn:E.
  { apply strip_prefix_Some in E. destruct a as [|y a]; [done|]. injection E as -> _. discriminate. }
  rewrite contains_sep, !no_char_app. replace (no_char ":" ":") with false by done. rewrite andb_false_r. cbn [negb].
  change (":" +:+ b +:+ ":" +:+ c +:+ ":" +:+ r) with (String ":" (b +:+ ":" +:+ c +:+ ":" +:+ r)). rewrite split_on_app by done.
  change (":" +:+ c +:+ ":" +:+ r) with (String ":" (c +:+ ":" +:+ r)). rewrite split_on_app by done.
  change (":" +:+ r) with (String ":" r). rewrite split_on_app by done.
  destruct (split_on ":" r) eqn:Er; [by destruct r as [|x r]; cbn in Er; repeat case_match|]. by destruct a, b, c.
Qed.

(**  What is stored of a client's address is the constant "unknown" or three parts of
    it, and addresses of one network, IPv4 or IPv6, are stored alike: the host is lost. *)
Theorem address_loses_its_host :
  (∀ fwd, anonymous (redact_client_ip fwd)) ∧ (∀ x y, same_network x y → redact_ip_str x = redact_ip_str y).
Proof. split; [exact redact_client_ip_anonymous|]. intros x y []; [by rewrite !redact_v4|by rewrite !redact_v6]. Qed.

(** ** The counters are the sliding window of [RateLimiter] *)

Lemma rate_limit_check_window now k c :
  rate_limit_check now k c =
  let '(ok, l) := check_and_record now k RATE_LIMIT_MAX RATE_LIMIT_WINDOW_SECS {| RateLimiter.counters := c |} in (ok, l.(RateLimiter.counters)).
Proof. unfold rate_limit_check, check_and_record, fresh, age_secs. cbn [RateLimiter.counters]. by destruct (bool_decide _). Qed.

Section Ingestion.
Context `{Printer}.

Definition known (r : Request) : bool := bool_decide (r.(body).(event_type) ∈ VALID_EVENT_TYPES).
Definition limited (a : result AppError json) : bool := match a with Err RateLimited => true | _ => false end.
(** The calls of the counters, and what they decide. *)
Definition call_of (r : Request) : Z * string := (r.(at_), install_of r.(body)).
Lemma ingest_known r s : known r = true →
  let '(ok, l) := check_and_record r.(at_) (install_of r.(body)) RATE_LIMIT_MAX RATE_LIMIT_WINDOW_SECS {| RateLimiter.counters := s.(counters) |} in
  let '(a, s') := ingest_event r s in s'.(counters) = l.(RateLimiter.counters) ∧ limited a = negb ok.
Proof.
  intros Hk. unfold ingest_event. rewrite rate_limit_check_window. unfold known in Hk. rewrite Hk. cbn [negb].
  destruct (check_and_record _ _ _ _ _) as [[] l]; cbn; [|done]. destruct (sql_fails r); cbn; [done|]. by destruct (insert_event _ _) as [|[]].
Qed.
Lemma ingest_unknown r s : known r = false → ingest_event r s = (Ok (invalid_type_response r.(body).(event_type)), s).
Proof. intros Hk. unfold ingest_event. unfold known in Hk. by rewrite Hk. Qed.
Lemma run_counts rs s :
  let '(oks, l) := RateLimiter.run RATE_LIMIT_MAX RATE_LIMIT_WINDOW_SECS {| RateLimiter.counters := s.(counters) |} (call_of <$> List.filter known rs) in
  let '(answers, s') := Telemetry.run rs s in
  s'.(counters) = l.(RateLimiter.counters) ∧ (λ p, negb (limited p.2)) <$> List.filter (λ p, known p.1) (zip rs answers) = oks.
Proof.
  revert s. induction rs as [|r rs IH]; intros s; [done|]. cbn [List.filter Telemetry.run]. destruct (known r) eqn:Hk.
  - cbn [fmap list_fmap RateLimiter.run call_of]. pose proof (ingest_known r s Hk) as Hr. unfold call_of at 1.
    destruct (check_and_record _ _ _ _ _) as [ok l], (ingest_event r s) as [a s1]. destruct Hr as [Hc Ha].
    specialize (IH s1). rewrite Hc in IH. replace {| RateLimiter.counters := RateLimiter.counters l |} with l in IH by by destruct l.
    destruct (RateLimiter.run _ _ _ _) as [oks l'], (Telemetry.run rs s1) as [answers s']. destruct IH as [H1 H2]. split; [done|].
    cbn. rewrite Hk. cbn. by rewrite H2, Ha, negb_involutive.
  - rewrite ingest_unknown by done. specialize (IH s). destruct (RateLimiter.run _ _ _ _) as [oks l'], (Telemetry.run rs s) as [answers s'].
    destruct IH as [H1 H2]. split; [done|]. cbn. by rewrite Hk.
Qed.

(** ** The table *)

Definition row_ok (e : Event) : Prop := e.(te_event_type) ∈ VALID_EVENT_TYPES ∧ anonymous e.(te_client_ip).
Definition keys (t : list Event) : list (string * string * string) := omap event_key t.
Definition recorded_once (t : list Event) : Prop := Forall row_ok t ∧ NoDup (keys t).
Lemma omap_key_elem k (t : list Event) : k ∈ keys t ↔ Some k ∈ event_key <$> t.
Proof.
  unfold keys.
  rewrite list_elem_of_omap, list_elem_of_fmap. split; intros (e & H1 & H2); exists e; by split.
Qed.
(** A request adds at most its own row. *)
Lemma ingest_adds r s : (ingest_event r s).2.(events) = s.(events) ∨
  known r = true ∧ (ingest_event r s).2.(events) = s.(events) ++ [event_of r] ∧ insert_event (event_of r) s.(events) = Ok (s.(events) ++ [event_of r]).
Proof.
  destruct (known r) eqn:Hk; [|left; by rewrite ingest_unknown]. unfold ingest_event. unfold known in Hk. rewrite Hk. cbn [negb].
  destruct (rate_limit_check _ _ _) as [[] c]; [|by left]. cbn [negb]. destruct (sql_fails r); [by left|].
  destruct (insert_event _ _) as [t|[]] eqn:E; cbn; [|by left|by left]. right. split; [done|].
  assert (Ht : t = s.(events) ++ [event_of r]); [|by rewrite Ht].
  revert E. unfold insert_event. repeat case_match; by intros [=].
Qed.
Lemma insert_once e (t t' : list Event) : row_ok e → recorded_once t → insert_event e t = Ok t' → recorded_once t'.
Proof.
  intros He [Hr Hn]. unfold insert_event. destruct (event_key e) as [k|] eqn:Ek.
  - case_decide as Hd; [done|]. intros [= <-]. split; [apply Forall_app; by split; [|constructor]|].
    unfold keys in *. rewrite omap_app. cbn. rewrite Ek. apply NoDup_app. split; [done|]. split; [|apply NoDup_singleton].
    intros x Hx ->%list_elem_of_singleton. by apply Hd, omap_key_elem.
  - intros [= <-]. split; [apply Forall_app; by split; [|constructor]|]. unfold keys in *. rewrite omap_app. cbn. by rewrite Ek, app_nil_r.
Qed.
Lemma event_row_ok r : known r = true → row_ok (event_of r).
Proof. intros Hk%bool_decide_eq_true. split; [done|apply redact_client_ip_anonymous]. Qed.
Lemma run_once rs s : recorded_once s.(events) → recorded_once (Telemetry.run rs s).2.(events).
Proof.
  revert s. induction rs as [|r rs IH]; intros s Hs; [done|]. cbn. destruct (ingest_event r s) as [a s1] eqn:E.
  assert (H1 : recorded_once s1.(events)).
  { destruct (ingest_adds r s) as [H1|(Hk & H1 & Hi)]; rewrite E in H1; cbn in H1; rewrite H1; [done|].
    eapply insert_once; [by apply event_row_ok|exact Hs|exact Hi]. }
  specialize (IH s1 H1). by destruct (Telemetry.run rs s1).
Qed.
Lemma run_keeps_rows rs s e : e ∈ s.(events) → e ∈ (Telemetry.run rs s).2.(events).
Proof.
  revert s. induction rs as [|r rs IH]; intros s Hs; [done|]. cbn. destruct (ingest_event r s) as [a s1] eqn:E.
  assert (H1 : e ∈ s1.(events)).
  { destruct (ingest_adds r s) as [H1|(Hk & H1 & Hi)]; rewrite E in H1; cbn in H1; rewrite H1; [done|]. apply elem_of_app. by left. }
  specialize (IH s1 H1). by destruct (Telemetry.run rs s1).
Qed.
Lemma run_app rs1 rs2 s : Telemetry.run (rs1 ++ rs2) s =
  let '(l1, s1) := Telemetry.run rs1 s in let '(l2, s2) := Telemetry.run rs2 s1 in (l1 ++ l2, s2).
Proof.
  revert s. induction rs1 as [|r rs1 IH]; intros s; cbn; [by destruct (Telemetry.run rs2 s)|].
  destruct (ingest_event r s) as [a s1]. rewrite IH. destruct (Telemetry.run rs1 s1) as [l1 s2]. by destruct (Telemetry.run rs2 s2).
Qed.
Definition stored (a : result AppError json) : Prop := a = Ok (ingested_body true false) ∨ a = Ok (ingested_body false true).
Lemma stored_key_present r s k : event_key (event_of r) = Some k → stored (ingest_event r s).1 → Some k ∈ event_key <$> (ingest_event r s).2.(events).
Proof.
  intros Ek. destruct (known r) eqn:Hk.
  2: { rewrite ingest_unknown by done. by intros [|]. }
  unfold ingest_event. unfold known in Hk. rewrite Hk. cbn [negb].
  destruct (rate_limit_check _ _ _) as [[] c]; cbn [negb]; [|by intros [|]]. destruct (sql_fails r); [by intros [|]|].
  unfold insert_event. rewrite Ek. destruct (decide (Some k ∈ event_key <$> s.(events))) as [Hd|Hd]; [intros _; exact Hd|]. intros _. cbn. rewrite fmap_app. apply elem_of_app. right. rewrite <- Ek. by left.
Qed.

(**  Whatever requests come in, every row is of a known type and without a host
    address, and no two rows have the same sender, type and idempotency key; a retry of
    an event that was stored, however many requests later, is answered as a duplicate and
    leaves the rows alone, unless its sender is limited or the database fails. *)
Theorem events_recorded_once (rs rs' : list Request) (r r' : Request) :
  let s := (Telemetry.run rs boot_state).2 in
  recorded_once s.(events) ∧
  (event_key (event_of r) ≠ None → stored (ingest_event r s).1 → event_key (event_of r') = event_key (event_of r) →
   known r' = true → r'.(sql_fails) = None →
   let s1 := (Telemetry.run rs' (ingest_event r s).2).2 in
   let '(a, s2) := ingest_event r' s1 in (limited a = true ∨ a = Ok (ingested_body false true)) ∧ s2.(events) = s1.(events)).
Proof.
  intros s. split; [by apply run_once; split; constructor|]. intros [k Ek]%not_eq_None_Some Hst Ek' Hk Hf s1.
  assert (Hin : Some k ∈ event_key <$> s1.(events)).
  { pose proof (stored_key_present r s k Ek Hst) as Hin. apply list_elem_of_fmap in Hin as (e & He & Hin). apply list_elem_of_fmap.
    exists e. split; [done|]. by apply run_keeps_rows. }
  unfold ingest_event. unfold known in Hk. rewrite Hk, Hf. cbn [negb]. destruct (rate_limit_check _ _ _) as [[] c]; cbn; [|split; [by left|done]].
  unfold insert_event. rewrite Ek', Ek. rewrite decide_True by done. split; [by right|done].
Qed.
(** At most sixty events of one sender are admitted within any minute. *)
Lemma admitted_in_minute start rs install now :
  ordered start (call_of <$> List.filter known rs) → (start ≤ now)%Z → (∀ r, r ∈ rs → r.(at_) ≤ now)%Z →
  in_window RATE_LIMIT_WINDOW_SECS now install
    (call_of ∘ fst <$> List.filter (λ p, known p.1 && negb (limited p.2)) (zip rs (Telemetry.run rs boot_state).1)) ≤ RATE_LIMIT_MAX.
Proof.
  intros Ho Hs Hn. pose proof (accepted_in_window_bounded RATE_LIMIT_MAX RATE_LIMIT_WINDOW_SECS start _ install now Ho Hs) as Hb.
  pose proof (run_counts rs boot_state) as Hc. change {| RateLimiter.counters := counters boot_state |} with RateLimiter.new in Hc.
  destruct (RateLimiter.run _ _ _ _) as [oks l], (Telemetry.run rs boot_state) as [answers s'] eqn:Er. destruct Hc as [_ Hc]. cbn [fst] in *.
  etransitivity; [|apply Hb]; [|intros e (r & -> & Hr)%list_elem_of_fmap; cbn].
  2: { apply Hn. apply list_elem_of_In, List.filter_In in Hr as [Hr _]. by apply list_elem_of_In. }
  apply Nat.eq_le_incl. f_equal. subst oks. assert (Hl : length answers = length rs).
  { change answers with (answers, s').1. rewrite <- Er. generalize boot_state. clear. induction rs as [|r rs IH]; intros s; [done|]. cbn.
    destruct (ingest_event r s) as [a s1]. specialize (IH s1). destruct (Telemetry.run rs s1). cbn in *. by f_equal. }
  clear - Hl. revert answers Hl. induction rs as [|r rs IH]; intros [|a answers] [=]; [done|]. cbn. destruct (known r); cbn; [|by apply IH].
  destruct (limited a); cbn; [by apply IH|]. f_equal. by apply IH.
Qed.
End Ingestion.

(** ** Examples *)

Section Examples.
#[local] Existing Instance tlv_printer.
Definition ex_request (seconds : Z) (ty key : string) : Request :=
  {| at_ := seconds * 10 ^ 9; forwarded_for := Some "203.0.113.42, 10.0.0.1";
     body := {| event_type := ty; event_payload := JObj [("install_uuid", JStr "i"); ("idempotency_key", JStr key)]; db_type := None |}; sql_fails := None |}.
Example first_and_retry :
  let '(answers, s) := run [ex_request 1 "db_connected" "k"; ex_request 2 "db_connected" "k"; ex_request 3 "other" "k"] boot_state in
  (answers, te_client_ip <$> s.(events)) =
  ([Ok (ingested_body true false); Ok (ingested_body false true); Ok (invalid_type_response "other")], ["203.0.113.0"]).
Proof. vm_compute. reflexivity. Qed.
(** A text with three colons passes for an IPv6 address: its first three parts are
    stored as they are. *)
Example text_stored_as_address : redact_client_ip (Some "alice@example.com:a:b:c") = "alice@example.com:a:b:0".
Proof. vm_compute. reflexivity. Qed.
(** A sender that names itself anew with each request is never limited. *)
Example fresh_names_are_not_limited :
  let flood (n : nat) : list Request := (λ i, {| at_ := 0; forwarded_for := None; sql_fails := None;
    body := {| event_type := "db_connected"; event_payload := JObj [("install_uuid", JStr (decimal (N.of_nat i)))]; db_type := None |} |}) <$> seq 0 n in
  forallb (λ a, negb (limited a)) (run (flood 100) boot_state).1 = true.
Proof. vm_compute. reflexivity. Qed.
Lemma events_recorded_once_witness :
  let r := ex_request 1 "db_connected" "k" in let r' := ex_request 9 "db_connected" "k" in
  let s1 := (run [ex_request 2 "db_connected" "l"] (ingest_event r boot_state).2).2 in
  let '(a, s2) := ingest_event r' s1 in (limited a = true ∨ a = Ok (ingested_body false true)) ∧ s2.(events) = s1.(events).
Proof.
  intros r r'.
  apply (events_recorded_once [] [ex_request 2 "db_connected" "l"] r r'); [discriminate|left; vm_compute; reflexivity|reflexivity..].
Defined.
End Examples.
