(* ===== verification/HttpTargets.v ===== *)
(** * The HTTP targets of a data sync (data_sync/clickhouse.rs, doris_stream_load.rs)

    Rows are sent to ClickHouse as the body of a POST whose statement is in the query of
    the address, and to Doris as the body of a PUT with a label.  A request is a value;
    the HTTP client, base64 and the server's answer to each request are arguments. *)

From S2P Require Import SyncConfig SyncRunner.
From S2P Require Import Prelude RustStr Json.
From S2P Require MongoLeg TdengineLeg.
From stdpp Require Import strings.

Inductive Method := GET | POST | PUT.
Record HttpRequest := { method : Method; url : string; headers : list (string * string); request_body : string }.
(** The status, and the text of the body if it can be read. *)
Record HttpResponse := { status : Z; text : result string string }.
Definition is_success (s : Z) : bool := (200 <=? s)%Z && (s <? 300)%Z.

(** ** url_encode *)

Definition unreserved (c : ascii) : bool :=
  is_ascii_alphanumeric c || bool_decide (c ∈ ["-"; "_"; "."; "~"]%char).
Definition hex_upper (d : N) : ascii := ascii_of_N (if (d <? 10)%N then 48 + d else 55 + d).
Definition percent (c : ascii) : string := String "%" (String (hex_upper (code c / 16)%N) (String (hex_upper (code c mod 16)%N) "")).
Definition encode_byte (c : ascii) : string :=
  if unreserved c then String c "" else if decide (c = " "%char) then "+" else percent c.
Fixpoint url_encode (s : string) : string :=
  match s with "" => "" | String c r => encode_byte c +:+ url_encode r end.

(** How a server reads it: application/x-www-form-urlencoded. *)
Definition hex_value (c : ascii) : option N :=
  if is_ascii_digit c then Some (code c - 48)%N else if in_range 65 70 (code c) then Some (code c - 55)%N
  else if in_range 97 102 (code c) then Some (code c - 87)%N else None.
Fixpoint form_decode (s : string) : option string :=
  match s with
  | "" => Some ""
  | String c r =>
      if decide (c = "+"%char) then String " " <$> form_decode r
      else if decide (c = "%"%char) then
        match r with
        | String a (String b r') => x ← hex_value a; y ← hex_value b; String (ascii_of_N (16 * x + y)) <$> form_decode r'
        | _ => None
        end
      else String c <$> form_decode r
  end.

(** ** The clients *)

Section Clients.
Context `{Printer, Reader} (base64 : string → string).

Definition basic_auth (username password : string) : string := "Basic " +:+ base64 (username +:+ ":" +:+ password).
Definition base_url (host : string) (port : Z) : string := "http://" +:+ host +:+ ":" +:+ TdengineLeg.z_string port.
(** One compact object and a line feed for each row. *)
Fixpoint body_of (rows : list JsonRow) : string :=
  match rows with [] => "" | r :: rest => to_vec (JObj r) +:+ String LF (body_of rest) end.

(** *** clickhouse.rs *)

Record ClickHouseClient := { ch_base_url : string; ch_auth_header : string; ch_database : string }.
Definition ClickHouseClient_new (host : string) (port : Z) (username password database : string) : ClickHouseClient :=
  {| ch_base_url := base_url host port; ch_auth_header := basic_auth username password; ch_database := database |}.
Definition query_url (ch : ClickHouseClient) (sql : string) : string := ch.(ch_base_url) +:+ "/?query=" +:+ url_encode sql.
Definition insert_statement (ch : ClickHouseClient) (table : string) : string :=
  "INSERT INTO " +:+ quote ch.(ch_database) DClickHouse +:+ "." +:+ table +:+ " FORMAT JSONEachRow".
Definition insert_request (ch : ClickHouseClient) (table : string) (rows : list JsonRow) : HttpRequest :=
  {| method := POST; url := query_url ch (insert_statement ch table);
     headers := [("Authorization", ch.(ch_auth_header)); ("Content-Type", "application/octet-stream")]; request_body := body_of rows |}.
(** The request sent, if any, and the result. *)
Definition insert_batch (ch : ClickHouseClient) (table : string) (rows : list JsonRow) (send : HttpRequest → result string HttpResponse)
    : option HttpRequest * result string nat :=
  match rows with
  | [] => (None, Ok 0)
  | _ =>
      let req := insert_request ch table rows in
      (Some req, match send req with
                 | Err e => Err ("clickhouse insert connect failed: " +:+ e)
                 | Ok resp => if is_success resp.(status) then Ok (length rows) else Err "clickhouse insert connect failed"
                 end)
  end.
Definition truncate_request (ch : ClickHouseClient) (table : string) : HttpRequest :=
  {| method := POST; url := query_url ch ("TRUNCATE TABLE " +:+ quote ch.(ch_database) DClickHouse +:+ "." +:+ table);
     headers := [("Authorization", ch.(ch_auth_header))]; request_body := " " |}.
(** A refusal is only logged. *)
Definition truncate (ch : ClickHouseClient) (table : string) (send : HttpRequest → result string HttpResponse) : HttpRequest * result string unit :=
  let req := truncate_request ch table in
  (req, match send req with Err e => Err ("clickhouse truncate connect failed: " +:+ e) | Ok _ => Ok tt end).
Definition query_request (ch : ClickHouseClient) (sql : string) : HttpRequest :=
  {| method := GET; url := query_url ch sql; headers := [("Authorization", ch.(ch_auth_header))]; request_body := "" |}.
Definition query_text (ch : ClickHouseClient) (sql : string) (send : HttpRequest → result string HttpResponse) : HttpRequest * result string string :=
  let req := query_request ch sql in
  (req, match send req with
        | Err e => Err ("clickhouse query connect failed: " +:+ e)
        | Ok resp => if is_success resp.(status)
                     then match resp.(text) with Ok t => Ok t | Err e => Err ("clickhouse read body failed: " +:+ e) end
                     else Err "clickhouse query connect failed"
        end).

(** *** doris_stream_load.rs *)

Record DorisStreamLoadClient := { ds_base_url : string; ds_auth_header : string; ds_database : string; label_seq : Z }.
Definition DorisStreamLoadClient_new (host : string) (port : Z) (username password database : string) : DorisStreamLoadClient :=
  {| ds_base_url := base_url host port; ds_auth_header := basic_auth username password; ds_database := database; label_seq := 0 |}.
(** [fetch_add] on the counter. *)
Definition next_label (c : DorisStreamLoadClient) : DorisStreamLoadClient :=
  {| ds_base_url := c.(ds_base_url); ds_auth_header := c.(ds_auth_header); ds_database := c.(ds_database); label_seq := (c.(label_seq) + 1) mod 2 ^ 64 |}.
Definition label (now_ms seq : Z) : string := "dbmaster_sync_" +:+ TdengineLeg.z_string now_ms +:+ "_" +:+ decimal (Z.to_N seq).
Definition load_request (c : DorisStreamLoadClient) (now_ms : Z) (table : string) (rows : list JsonRow) : HttpRequest :=
  {| method := PUT; url := c.(ds_base_url) +:+ "/api/" +:+ c.(ds_database) +:+ "/" +:+ table +:+ "/_load";
     headers := [("Authorization", c.(ds_auth_header)); ("Expect", "100-continue"); ("label", label now_ms c.(label_seq)); ("format", "json");
                 ("read_json_by_line", "true"); ("Content-Type", "application/json")]; request_body := body_of rows |}.
(** [Value::as_u64]. *)
Definition as_u64 (j : json) : option Z := match j with JInt z => if decide (0 ≤ z ≤ u64_max)%Z then Some z else None | _ => None end.
Definition load_result (rows : list JsonRow) (answer : result string HttpResponse) : result string Z :=
  match answer with
  | Err e => Err ("doris stream load connect failed: " +:+ e)
  | Ok resp =>
      if negb (is_success resp.(status)) then Err "doris stream load connect failed"
      else
        match resp.(text) with
        | Err e => Err ("doris read response failed: " +:+ e)
        | Ok t =>
            match from_str t with
            | None => Err "doris stream load connect failed: non-JSON response"
            | Some j =>
                let doris_status := default "" (v ← jget "Status" j; as_str v) in
                if decide (doris_status = "Success")
                then Ok (default (Z.of_nat (length rows)) (v ← jget "NumberLoadedRows" j; as_u64 v))
                else Err "doris stream load connect failed"
            end
        end
  end.
Definition doris_insert_batch (now_ms : Z) (table : string) (rows : list JsonRow) (send : HttpRequest → result string HttpResponse)
    (c : DorisStreamLoadClient) : option HttpRequest * result string Z * DorisStreamLoadClient :=
  match rows with
  | [] => (None, Ok 0%Z, c)
  | _ => let req := load_request c now_ms table rows in (Some req, load_result rows (send req), next_label c)
  end.
Definition doris_truncate (table : string) : result string unit := Ok tt.

(** The attempts of a run at one batch: [clock] and [answers] for each of them. *)
Fixpoint doris_attempts (clock : nat → Z) (answers : nat → HttpRequest → result string HttpResponse) (table : string) (rows : list JsonRow)
    (attempt left_ : nat) (c : DorisStreamLoadClient) : list HttpRequest * result unit Z :=
  let '(req, r, c') := doris_insert_batch (clock attempt) table rows (answers attempt) c in
  let sent := option_list req in
  match r with
  | Ok n => (sent, Ok n)
  | Err _ => match left_ with
             | O => (sent, Err tt)
             | S k => let '(more, r') := doris_attempts clock answers table rows (S attempt) k c' in (sent ++ more, r')
             end
  end.
End Clients.

(** ** What the servers read *)

Lemma ascii_byte c : (code c < 256)%N.
Proof. apply N_ascii_bounded. Qed.
Lemma hex_value_upper d : (d < 16)%N → hex_value (hex_upper d) = Some d.
Proof.
  intros Hd. assert (Hx : d ∈ (N.of_nat <$> seq 0 16)).
  { apply list_elem_of_fmap. exists (N.to_nat d). split; [lia|]. apply elem_of_seq. lia. }
  cbn in Hx. repeat (apply elem_of_cons in Hx as [->|Hx]; [reflexivity|]). by apply elem_of_nil in Hx.
Qed.
Lemma unreserved_plain c : unreserved c = true → c ≠ "+"%char ∧ c ≠ "%"%char.
Proof. intros Hc. split; intros ->; vm_compute in Hc; discriminate. Qed.
Lemma decode_byte c r : form_decode (encode_byte c +:+ r) = String c <$> form_decode r.
Proof.
  unfold encode_byte. destruct (unreserved c) eqn:Hu.
  - apply unreserved_plain in Hu as [H1 H2]. rewrite str_app_cons, str_app_nil_l. cbn [form_decode].
    by rewrite decide_False, decide_False by done.
  - case_decide as Hc; [by subst|]. unfold percent. rewrite !str_app_cons, str_app_nil_l. cbn [form_decode].
    rewrite decide_False, decide_True by done. pose proof (ascii_byte c) as Hb.
    rewrite !hex_value_upper by (try apply N.mod_lt; try apply N.Div0.div_lt_upper_bound; lia). cbn [mbind option_bind].
    replace (16 * (code c / 16) + code c mod 16)%N with (code c) by (apply N.div_mod; done). unfold code. by rewrite ascii_N_embedding.
Qed.
Lemma form_decode_encode s : form_decode (url_encode s) = Some s.
Proof. induction s as [|c s IH]; [done|]. cbn [url_encode]. by rewrite decode_byte, IH. Qed.

(** What may stand in the query of an address as it is. *)
Definition query_char (c : ascii) : bool := unreserved c || bool_decide (c = "+"%char) || bool_decide (c = "%"%char).
Lemma hex_upper_plain d : (d < 16)%N → query_char (hex_upper d) = true.
Proof.
  intros Hd. assert (Hx : d ∈ (N.of_nat <$> seq 0 16)).
  { apply list_elem_of_fmap. exists (N.to_nat d). split; [lia|]. apply elem_of_seq. lia. }
  cbn in Hx. repeat (apply elem_of_cons in Hx as [->|Hx]; [reflexivity|]). by apply elem_of_nil in Hx.
Qed.
Lemma url_encode_plain s : all_chars query_char (url_encode s) = true.
Proof.
  induction s as [|c s IH]; [done|]. cbn [url_encode]. rewrite all_chars_app, IH, andb_true_r. unfold encode_byte. destruct (unreserved c) eqn:Hu.
  - cbn. unfold query_char. by rewrite Hu.
  - case_decide; [done|]. pose proof (ascii_byte c) as Hb. cbn.
    rewrite !hex_upper_plain by (try apply N.mod_lt; try apply N.Div0.div_lt_upper_bound; lia). done.
Qed.

Section Arrival.
Context `{RoundTrip} (base64 : string → string).
(** The rows of a body: one value a line. *)
Definition read_rows (s : string) : option (list json) := mapM from_str (List.removelast (split_on LF s)).
(** A row that prints on one line, as compact JSON does. *)
Definition one_line (r : JsonRow) : Prop := float_free (JObj r) = true ∧ no_char LF (to_vec (JObj r)) = true.
Lemma read_body rows : Forall one_line rows → read_rows (body_of rows) = Some (JObj <$> rows).
Proof.
  unfold read_rows. intros Hr.
  assert (E : split_on LF (body_of rows) = ((λ r, to_vec (JObj r)) <$> rows) ++ [""]).
  { induction Hr as [|r rows [_ Hl] _ IH]; [done|]. cbn [body_of]. rewrite split_on_app by done. by rewrite IH. }
  rewrite E, removelast_last. clear E. induction Hr as [|r rows [Hf _] _ IH]; [done|]. cbn. rewrite from_to by done. cbn. by rewrite IH.
Qed.

(** C38.  A batch for ClickHouse is one POST.  Decoded as the server does, its query is the
    INSERT statement of the table, which no byte of it can leave, and its body the rows;
    the batch counts as written, whole, exactly when the server answers with success. *)
Theorem clickhouse_batch_arrives (ch : ClickHouseClient) (table : string) (rows : list JsonRow) (send : HttpRequest → result string HttpResponse) :
  rows ≠ [] → Forall one_line rows →
  ∃ q, (insert_batch ch table rows send).1 = Some q ∧ q.(method) = POST ∧
    (∃ enc, q.(url) = ch.(ch_base_url) +:+ "/?query=" +:+ enc ∧ all_chars query_char enc = true ∧ form_decode enc = Some (insert_statement ch table)) ∧
    read_rows q.(request_body) = Some (JObj <$> rows) ∧
    match (insert_batch ch table rows send).2 with
    | Ok n => n = length rows ∧ ∃ resp, send q = Ok resp ∧ is_success resp.(status) = true
    | Err _ => ∀ resp, send q = Ok resp → is_success resp.(status) = false
    end.
Proof.
  intros Hne Hr. destruct rows as [|r rows]; [done|]. set (rs := r :: rows) in *. exists (insert_request ch table rs). split; [done|].
  split; [done|]. split; [|split].
  - exists (url_encode (insert_statement ch table)). split; [done|]. split; [apply url_encode_plain|apply form_decode_encode].
  - by apply read_body.
  - cbn. destruct (send _) as [resp|e]; [|by intros resp]. destruct (is_success _) eqn:Hs; [by eauto|]. by intros resp' [= <-].
Qed.

(** *** Labels *)

Definition label_of (q : HttpRequest) : option string := snd <$> List.find (λ p, bool_decide (p.1 = "label")) q.(headers).
Lemma z_string_plain z : no_char "_" (TdengineLeg.z_string z) = true.
Proof. by apply TdengineLeg.z_string_no_char. Qed.
Lemma label_inj ms ms' n n' : (0 ≤ n)%Z → (0 ≤ n')%Z → label ms n = label ms' n' → n = n'.
Proof.
  intros Hn Hn' E. unfold label in E. apply str_app_inv_head in E.
  apply (sep_inj "_" (TdengineLeg.z_string ms) (TdengineLeg.z_string ms')) in E as [_ E]; [|apply z_string_plain..].
  apply (f_equal parse_digits) in E. rewrite !parse_decimal in E. injection E as E. lia.
Qed.
Definition loaded (answer : result string HttpResponse) : Prop := ∃ resp t j,
  answer = Ok resp ∧ is_success resp.(status) = true ∧ resp.(text) = Ok t ∧ from_str t = Some j ∧ jget "Status" j = Some (JStr "Success").
Lemma load_result_ok rows a n : load_result rows a = Ok n → loaded a.
Proof.
  unfold load_result. destruct a as [resp|]; [|done]. destruct (is_success _) eqn:Hs; [|done]. cbn [negb]. destruct (text resp) as [t|] eqn:Et; [|done].
  destruct (from_str t) as [j|] eqn:Ej; [|done]. case_decide as Hd; [|done]. intros _. exists resp, t, j. split_and!; try done.
  destruct (jget "Status" j) as [v|]; [|done]. cbn in Hd. by destruct v; cbn in Hd; subst.
Qed.
Lemma doris_attempts_unfold clock answers table rows attempt left_ (c : DorisStreamLoadClient) : rows ≠ [] →
  doris_attempts clock answers table rows attempt left_ c =
  let q := load_request c (clock attempt) table rows in
  match load_result rows (answers attempt q), left_ with
  | Ok n, _ => ([q], Ok n)
  | Err _, O => ([q], Err tt)
  | Err _, S k => let '(more, r') := doris_attempts clock answers table rows (S attempt) k (next_label c) in (q :: more, r')
  end.
Proof. intros Hne. destruct rows as [|r rows]; [done|]. destruct left_; cbn -[load_result]; by destruct (load_result _ _). Qed.
Lemma doris_attempts_spec clock answers table rows attempt left_ (c : DorisStreamLoadClient) :
  rows ≠ [] → Forall one_line rows → (0 ≤ c.(label_seq))%Z → (c.(label_seq) + Z.of_nat left_ < 2 ^ 64)%Z →
  let '(sent, r) := doris_attempts clock answers table rows attempt left_ c in
  1 ≤ length sent ≤ S left_ ∧ NoDup (label_of <$> sent) ∧
  Forall (λ q, q.(method) = PUT ∧ read_rows q.(request_body) = Some (JObj <$> rows) ∧
    ∃ ms n, label_of q = Some (label ms n) ∧ (c.(label_seq) ≤ n ≤ c.(label_seq) + Z.of_nat left_)%Z) sent ∧
  match r with
  | Ok n => ∃ q, last sent = Some q ∧ loaded (answers (attempt + (length sent - 1)) q)
  | Err _ => length sent = S left_
  end.
Proof.
  intros Hne Hr. revert attempt c. induction left_ as [|k IH]; intros attempt c Hc Hb; rewrite doris_attempts_unfold by done; cbn zeta.
  all: pose proof (read_body rows Hr) as Hrd; assert (Hl : label_of (load_request c (clock attempt) table rows) = Some (label (clock attempt) c.(label_seq))) by done.
  all: assert (Hm : (load_request c (clock attempt) table rows).(method) = PUT) by done.
  all: change (body_of rows) with (load_request c (clock attempt) table rows).(request_body) in Hrd.
  all: generalize dependent (load_request c (clock attempt) table rows); intros q Hrd Hl Hm.
  all: destruct (load_result rows (answers attempt q)) as [m|e] eqn:E.
  1,3: split; [cbn; lia|]; split; [apply NoDup_singleton|]; split; [constructor; [|done]; split; [done|]; split; [done|]; eexists _, _; split; [done|lia]|].
  1,2: exists q; split; [done|]; cbn; rewrite Nat.add_0_r; by eapply load_result_ok.
  - split; [cbn; lia|]. split; [apply NoDup_singleton|]. split; [|done]. constructor; [|done]. split; [done|]. split; [done|]. eexists _, _. split; [done|lia].
  - assert (Hseq : (next_label c).(label_seq) = (c.(label_seq) + 1)%Z) by (cbn; apply Z.mod_small; lia).
    specialize (IH (S attempt) (next_label c)). rewrite Hseq in IH. specialize (IH ltac:(lia) ltac:(lia)).
    destruct (doris_attempts clock answers table rows (S attempt) k (next_label c)) as [more r']. destruct IH as (I1 & I2 & I3 & I4).
    split; [cbn; lia|]. split; [|split].
    + constructor; [|done]. intros (q' & Eq & Hin)%list_elem_of_fmap. rewrite Forall_forall in I3. destruct (I3 q' Hin) as (_ & _ & ms' & n' & L & Hn').
      rewrite Hl, L in Eq. apply (inj Some), label_inj in Eq; lia.
    + constructor; [split; [done|]; split; [done|]; eexists _, _; split; [done|lia]|].
      eapply Forall_impl; [exact I3|]. intros q' (J1 & J2 & ms' & n' & L & Hn'). split; [done|]. split; [done|]. exists ms', n'. split; [done|lia].
    + destruct r' as [m|u]; [|cbn; by rewrite I4]. destruct I4 as (q' & L & Hld). exists q'. destruct more as [|q0 more]; [done|]. split; [done|].
      replace (attempt + (length (q :: q0 :: more) - 1)) with (S attempt + (length (q0 :: more) - 1)) by (cbn; lia). done.
Qed.

(**  The attempts at one batch for Doris all carry its rows, each under a label of its
    own: no two are the same load to the server, which drops repeated labels only, so a
    load whose answer was lost is made again.  A batch counts as written only on an
    answer that says Success, and as failed only after every attempt. *)
Theorem doris_attempts_are_new_loads clock answers table rows retries (c : DorisStreamLoadClient) :
  rows ≠ [] → Forall one_line rows → (0 ≤ c.(label_seq))%Z → (c.(label_seq) + Z.of_nat (max 1 retries) ≤ 2 ^ 64)%Z →
  let '(sent, r) := doris_attempts clock answers table rows 1 (max 1 retries - 1) c in
  NoDup (label_of <$> sent) ∧ Forall (λ q, q.(method) = PUT ∧ read_rows q.(request_body) = Some (JObj <$> rows)) sent ∧
  match r with
  | Ok n => ∃ q, last sent = Some q ∧ loaded (answers (length sent) q)
  | Err _ => length sent = max 1 retries
  end.
Proof.
  intros Hne Hr Hc Hb. pose proof (doris_attempts_spec clock answers table rows 1 (max 1 retries - 1) c Hne Hr Hc ltac:(lia)) as Hs.
  destruct (doris_attempts _ _ _ _ _ _ _) as [sent r]. destruct Hs as (Hl & G1 & G2 & G3). split; [done|]. split.
  - eapply Forall_impl; [exact G2|]. by intros q (? & ? & _).
  - destruct r; [|lia]. replace (1 + (length sent - 1)) with (length sent) in G3 by lia. exact G3.
Qed.
End Arrival.

(** ** Examples *)

Section Examples.
#[local] Existing Instances tlv_printer tlv_reader tlv_round_trip.
Definition ex_ch : ClickHouseClient := ClickHouseClient_new id "ch" 8123 "u" "p" "erp".
Definition ex_row (n : Z) : JsonRow := [("id", JInt n)].
Definition answers_with (s : Z) (t : string) (_ : HttpRequest) : result string HttpResponse := Ok {| status := s; text := Ok t |}.
Example insert_url : (insert_request ex_ch "t" []).(url) = "http://ch:8123/?query=INSERT+INTO+%60erp%60.t+FORMAT+JSONEachRow".
Proof. vm_compute. reflexivity. Qed.
(** A refused TRUNCATE is a success. *)
Example refused_truncate : (truncate ex_ch "t" (answers_with 403 "denied")).2 = Ok tt.
Proof. reflexivity. Qed.
(** An answer that reports fewer rows than were sent is a success; the rest is counted
    neither as processed nor as failed. *)
Example partial_load :
  load_result [ex_row 1; ex_row 2] (answers_with 200 (to_vec (JObj [("Status", JStr "Success"); ("NumberLoadedRows", JInt 1)])) (truncate_request ex_ch "t")) = Ok 1%Z.
Proof. vm_compute. reflexivity. Qed.
Lemma ex_rows_one_line : Forall one_line [ex_row 1; ex_row 2].
Proof. by repeat constructor. Defined.
Lemma clickhouse_batch_arrives_witness : ∃ q, (insert_batch ex_ch "t" [ex_row 1; ex_row 2] (answers_with 200 "")).1 = Some q ∧
  read_rows q.(request_body) = Some [JObj (ex_row 1); JObj (ex_row 2)].
Proof.
  destruct (clickhouse_batch_arrives ex_ch "t" [ex_row 1; ex_row 2] (answers_with 200 "") ltac:(discriminate) ex_rows_one_line) as (q & E & _ & _ & Hr & _).
  exists q. split; [exact E|exact Hr].
Defined.
Definition ex_doris : DorisStreamLoadClient := DorisStreamLoadClient_new id "be" 8040 "u" "p" "erp".
(** The first answer is lost, the second is a success: the rows were sent twice, under two labels. *)
Definition ex_answers (attempt : nat) (_ : HttpRequest) : result string HttpResponse :=
  if decide (attempt = 1) then Err "connection reset" else Ok {| status := 200; text := Ok (to_vec (JObj [("Status", JStr "Success")])) |}.
Lemma doris_attempts_are_new_loads_witness :
  let '(sent, r) := doris_attempts (λ n, Z.of_nat n) ex_answers "t" [ex_row 1; ex_row 2] 1 (max 1 3 - 1) ex_doris in
  r = Ok 2%Z ∧ label_of <$> sent = [Some "dbmaster_sync_1_0"; Some "dbmaster_sync_2_1"] ∧
  Forall (λ q, q.(method) = PUT ∧ read_rows q.(request_body) = Some [JObj (ex_row 1); JObj (ex_row 2)]) sent.
Proof.
  pose proof (doris_attempts_are_new_loads (λ n, Z.of_nat n) ex_answers "t" [ex_row 1; ex_row 2] 3 ex_doris ltac:(discriminate) ex_rows_one_line ltac:(done) ltac:(done)) as Hd.
  destruct (doris_attempts _ _ _ _ _ _ _) as [sent r] eqn:E. split; [|split; [|apply Hd]].
  - change r with (sent, r).2. rewrite <- E. vm_compute. reflexivity.
  - change sent with (sent, r).1. rewrite <- E. vm_compute. reflexivity.
Defined.
End Examples.
