(* ===== verification/Server.v ===== *)
(** * The state of the server and its license at run time (core/server/mod.rs,
    core/server/router.rs, src/lib.rs)

    The application state keeps the entitlement behind a shared cell that a request can
    exchange while others read it.  The cells are a heap, a state points into it, so that
    who shares a cell with whom is what the code makes of it.  The handlers are processes
    in the sense of [Interleave]: another request may come between resolving a license,
    writing its file, renaming it, exchanging the cell and answering. *)

From S2P Require Import Prelude RustStr Clock Json License Entitlement Interleave.
From S2P Require ServerConfig.
From stdpp Require Import strings gmap relations.

(** ** State *)

Record World := { cells : list EntitlementState; instances : list InstanceMeta; files : gmap path string }.
Definition with_cells (f : list EntitlementState → list EntitlementState) (w : World) : World :=
  {| cells := f w.(cells); instances := w.(instances); files := w.(files) |}.
Definition with_instances (t : list InstanceMeta) (w : World) : World := {| cells := w.(cells); instances := t; files := w.(files) |}.
Definition with_files (f : gmap path string → gmap path string) (w : World) : World := {| cells := w.(cells); instances := w.(instances); files := f w.(files) |}.
Definition load (loc : nat) (w : World) : option EntitlementState := w.(cells) !! loc.
Definition store (loc : nat) (e : EntitlementState) : World → World := with_cells <[loc := e]>.

Record AppState := {
  config : ServerConfig.Config; entitlement : nat; admin_token : option string; state_install_uuid : string; embedded_mode : bool }.
Definition ADMIN_TOKEN_ENV : string := "DBMASTER_SERVER_ADMIN_TOKEN".
(** [AppState::new] makes a cell of its own. *)
Definition AppState_new (env : ServerConfig.Env) (cfg : ServerConfig.Config) (ent : EntitlementState) (uuid : string) (w : World) : AppState * World :=
  ({| config := cfg; entitlement := length w.(cells);
      admin_token := t ← ServerConfig.var env ADMIN_TOKEN_ENV; (if is_empty t then None else Some t);
      state_install_uuid := uuid; embedded_mode := false |}, with_cells (λ l, l ++ [ent]) w).
Definition AppState_new_embedded (env : ServerConfig.Env) (cfg : ServerConfig.Config) (ent : EntitlementState) (uuid : string) (w : World) : AppState * World :=
  let '(s, w') := AppState_new env cfg ent uuid w in
  ({| config := s.(config); entitlement := s.(entitlement); admin_token := s.(admin_token); state_install_uuid := s.(state_install_uuid);
      embedded_mode := true |}, w').
Definition new_state (embedded : bool) := if embedded then AppState_new_embedded else AppState_new.

(** [build_app_with_config]: the core routes are built with one state, the automation
    routes with another; the MCP routes share the cell of the second. *)
Record App := { core : AppState; automation : AppState; mcp_entitlement : nat }.
Definition build_router_with_config := new_state.
Definition build_app_with_config (embedded : bool) (env : ServerConfig.Env) (cfg : ServerConfig.Config) (ent : EntitlementState) (uuid : string)
    (w : World) : App * World :=
  let '(core_state, w1) := build_router_with_config embedded env cfg ent uuid w in
  let '(state, w2) := new_state embedded env cfg ent uuid w1 in
  ({| core := core_state; automation := state; mcp_entitlement := state.(entitlement) |}, w2).

(** ** Handlers *)

Definition CARGO_PKG_VERSION : string := "0.1.0".
Definition data_json (data : json) : json := JObj [("ok", JBool true); ("data", data); ("error", JNull)].
Definition error_json (code message : string) : json :=
  JObj [("ok", JBool false); ("data", JNull); ("error", JObj [("code", JStr code); ("message", JStr message)])].
Definition reason_str (r : GatedReason) : string :=
  match r with TrialExpired => "trial_expired" | LicenseInvalid => "license_invalid" | InstanceMismatch => "instance_mismatch" | LicenseExpired => "license_expired" end.
Definition reason_code (r : GatedReason) : string :=
  match r with TrialExpired => "TRIAL_EXPIRED" | LicenseInvalid => "INVALID_LICENSE" | InstanceMismatch => "INSTANCE_MISMATCH" | LicenseExpired => "EXPIRED" end.
Definition reason_debug (r : GatedReason) : string :=
  match r with TrialExpired => "TrialExpired" | LicenseInvalid => "LicenseInvalid" | InstanceMismatch => "InstanceMismatch" | LicenseExpired => "LicenseExpired" end.

Inductive Reply := Http (status : Z) (body : json) | Gate (blocked : bool) | Panic.
(** What a step draws, and whether its call to the file system fails, with what is left
    of the file written. *)
Record Answer := { a_uuid : string; a_now_s : string; a_now : Z; a_io : option (string * option string) }.
Inductive Proc :=
| GetHealth | GetInstance | GetEntitlement
| PostLicense (header : option string) (text : string)
| Writing (text : string) (new : EntitlementState)
| Renaming (text : string) (new : EntitlementState)
| Swapping (new : EntitlementState)
| Answering
| AutomationWrite | McpWrite.

Section Handlers.
Context `{C : TimestampCodec} {Signature VerifyingKey : Type}.
Context (hex_decode : string → option string) (signature_from_slice : string → option Signature).
Context (verify : VerifyingKey → string → Signature → bool) (verifying_key_from_bytes : string → option VerifyingKey).
(** The debug override of the key, and the path of the license file. *)
Context (override : option string) (license_path : path) (app : App).

Definition resolve (a : Answer) (text : option string) (w : World) : option (result string EntitlementState * list InstanceMeta) :=
  resolve_entitlement_with_text hex_decode signature_from_slice verify verifying_key_from_bytes override a.(a_uuid) a.(a_now_s) a.(a_now) text w.(instances).

Definition health_json (s : AppState) : json :=
  JObj [("version", JStr CARGO_PKG_VERSION); ("status", JStr "ok"); ("funnel_lite_enabled", JBool s.(config).(ServerConfig.funnel_lite_enabled))].
Definition instance_json (s : AppState) : json :=
  data_json (JObj [("install_uuid", JStr s.(state_install_uuid)); ("version", JStr CARGO_PKG_VERSION); ("embedded_mode", JBool s.(embedded_mode))]).
Definition banner_json (now : Z) (e : EntitlementState) : json :=
  match renewal_banner now e with
  | Some Soon => JObj [("show", JBool true); ("tier", JStr "soon")]
  | Some Urgent => JObj [("show", JBool true); ("tier", JStr "urgent")]
  | None => JObj [("show", JBool false); ("tier", JNull)]
  end.
Definition entitlement_json (now : Z) (e : EntitlementState) : json :=
  let full state_str days iso license :=
    data_json (JObj [("state", JStr state_str); ("days_until_expiry", jopt JInt days); ("expires_at", jopt JStr iso);
                     ("renewal_banner", banner_json now e); ("license", license)]) in
  match e with
  | Licensed l exp => full "licensed" ((λ t, num_days (t - now)) <$> exp) (to_rfc3339 <$> exp)
                        (JObj [("type", JStr l.(license_type)); ("issued_at", JStr l.(issued_at))])
  | Trial exp => full "trial" (Some (num_days (exp - now))) (Some (to_rfc3339 exp)) JNull
  | Gated reason => data_json (JObj [("state", JStr "gated"); ("reason", JStr (reason_str reason))])
  end.
(** The answer after the exchange, from what the cell holds then; a gated state there
    is a panic. *)
Definition swapped_reply (e : EntitlementState) : Reply :=
  match e with
  | Licensed l exp => Http 200 (data_json (JObj [("state", JStr "licensed"); ("license_type", JStr l.(license_type));
                                                 ("expires_at", jopt JStr (to_rfc3339 <$> exp)); ("scheduler_note", JStr "restart_required_for_schedulers")]))
  | Trial exp => Http 200 (data_json (JObj [("state", JStr "trial"); ("expires_at", JStr (to_rfc3339 exp));
                                            ("scheduler_note", JStr "restart_required_for_schedulers")]))
  | Gated _ => Panic
  end.

(** [post_license] up to the resolved state. *)
Definition admin_check (s : AppState) (header : option string) : option Reply :=
  if s.(embedded_mode)
  then Some (Http 200 (error_json "FORBIDDEN" "embedded mode is always Licensed; POST /api/license not applicable"))
  else match s.(admin_token) with
       | None => Some (Http 403 (error_json "FORBIDDEN" "POST /api/license requires DBMASTER_SERVER_ADMIN_TOKEN to be configured on remote servers"))
       | Some expected => if decide (default "" header = expected) then None else Some (Http 401 (error_json "UNAUTHORIZED" "invalid admin token"))
       end.
Definition post_license (header : option string) (text : string) (a : Answer) (w : World) : World * (Proc + Reply) :=
  match admin_check app.(core) header with
  | Some r => (w, inr r)
  | None =>
      match resolve a (Some text) w with
      | None => (with_instances (get_or_create_instance a.(a_uuid) a.(a_now_s) w.(instances)).2 w, inr Panic)
      | Some (Err _, t) => (with_instances t w, inr (Http 422 (error_json "INVALID_LICENSE" "ensure instance_meta")))
      | Some (Ok (Gated reason), t) =>
          (with_instances t w, inr (Http 200 (error_json (reason_code reason) ("license rejected: " +:+ reason_debug reason))))
      | Some (Ok new, t) => (with_instances t w, inl (Writing text new))
      end
  end.
Definition write_failed (e : string) : Reply := Http 500 (error_json "FILE_WRITE_FAILED" e).
Definition gate_of (loc : nat) (w : World) : Reply := match load loc w with Some e => Gate (is_gated e) | None => Panic end.
Definition exec (a : Answer) (p : Proc) (w : World) : World * (Proc + Reply) :=
  match p with
  | GetHealth => (w, inr (Http 200 (health_json app.(core))))
  | GetInstance => (w, inr (Http 200 (instance_json app.(core))))
  | GetEntitlement => (w, inr (match load app.(core).(entitlement) w with Some e => Http 200 (entitlement_json a.(a_now) e) | None => Panic end))
  | PostLicense header text => post_license header text a w
  | Writing text new =>
      match a.(a_io) with
      | Some (e, torn) => (with_files (λ m, match torn with Some c => <[tmp_path license_path := c]> m | None => m end) w, inr (write_failed e))
      | None => (with_files (fs_exec (FsWrite (tmp_path license_path) text)) w, inl (Renaming text new))
      end
  | Renaming text new =>
      match a.(a_io), w.(files) !! tmp_path license_path with
      | Some (e, _), _ => (w, inr (write_failed e))
      | None, None => (w, inr (write_failed "No such file or directory (os error 2)"))
      | None, Some _ => (with_files (fs_exec (FsRename (tmp_path license_path) license_path)) w, inl (Swapping new))
      end
  | Swapping new => (store app.(core).(entitlement) new w, inl Answering)
  | Answering => (w, inr (match load app.(core).(entitlement) w with Some e => swapped_reply e | None => Panic end))
  | AutomationWrite => (w, inr (gate_of app.(automation).(entitlement) w))
  | McpWrite => (w, inr (gate_of app.(mcp_entitlement) w))
  end.

(** The requests of clients; those that pass the check of the token post the texts of [posted]. *)
Definition may_request (posted : string → Prop) (w : World) (rs : list Reply) (p : Proc) : Prop :=
  match p with
  | GetHealth | GetInstance | GetEntitlement | AutomationWrite | McpWrite => True
  | PostLicense header text => admin_check app.(core) header = None → posted text
  | Writing _ _ | Renaming _ _ | Swapping _ | Answering => False
  end.
(** A failing write leaves nothing of its own. *)
Definition whole (w : World) (a : Answer) : Prop := match a.(a_io) with Some (_, Some _) => False | _ => True end.
Definition any (w : World) (a : Answer) : Prop := True.

(** A restart: the file is read and resolved. *)
Definition restart (a : Answer) (w : World) : option (result string EntitlementState * list InstanceMeta) :=
  resolve a (w.(files) !! license_path) w.
End Handlers.

(** ** The two cells *)

Lemma build_app_cells embedded env cfg ent uuid w :
  let '(app, w0) := build_app_with_config embedded env cfg ent uuid w in
  app.(core).(entitlement) = length w.(cells) ∧ app.(automation).(entitlement) = S (length w.(cells)) ∧ app.(mcp_entitlement) = S (length w.(cells)) ∧
  w0.(cells) = w.(cells) ++ [ent; ent] ∧ w0.(instances) = w.(instances) ∧ w0.(files) = w.(files) ∧ app.(core).(embedded_mode) = embedded.
Proof. destruct embedded; cbn; rewrite length_app, <- app_assoc; cbn; split_and!; try done; lia. Qed.

Section Theorems.
Context `{C : TimestampCodec} {Signature VerifyingKey : Type}.
Context (hex_decode : string → option string) (signature_from_slice : string → option Signature).
Context (verify : VerifyingKey → string → Signature → bool) (verifying_key_from_bytes : string → option VerifyingKey).
Context (override : option string) (license_path : path).
Notation exec := (exec hex_decode signature_from_slice verify verifying_key_from_bytes override license_path).
Notation restart := (restart hex_decode signature_from_slice verify verifying_key_from_bytes override license_path).
Notation resolve := (resolve hex_decode signature_from_slice verify verifying_key_from_bytes override).
(** A text with which the instance is licensed, at some time. *)
Definition verified (uuid text : string) (new : EntitlementState) : Prop := ∃ now l e,
  resolve_from_license_text hex_decode signature_from_slice verify verifying_key_from_bytes override now text uuid = Some new ∧ new = Licensed l e.

Lemma tmp_path_ne (p : path) : tmp_path p ≠ p.
Proof.
  destruct p as [d f]. unfold tmp_path. cbn. intros [= E]. apply (f_equal String.length) in E. rewrite str_length_app in E. cbn in E. lia.
Qed.
(** A posted text resolves to a license or to a gated state. *)
Lemma resolve_posted a text w x t : resolve a (Some text) w = Some (Ok x, t) →
  ∃ r, get_or_create_instance a.(a_uuid) a.(a_now_s) w.(instances) = (Ok r, t) ∧
    resolve_from_license_text hex_decode signature_from_slice verify verifying_key_from_bytes override a.(a_now) text r.(install_uuid) = Some x ∧
    match x with Trial _ => False | _ => True end.
Proof.
  unfold resolve, resolve_entitlement_with_text. destruct (get_or_create_instance _ _ _) as [[r|e] t'] eqn:Eg; [|done].
  destruct (resolve_from_license_text _ _ _ _ _ _ _ _) as [st|] eqn:Er; [|done]. cbn. intros [= -> ->]. exists r. split; [done|]. split; [done|].
  unfold resolve_from_license_text, resolve_from_license_text_with_pk, license_state in Er. repeat (case_match; try done).
  all: destruct (parse_license text) as [[p|[]]|]; cbn in Er; try (by simplify_eq); repeat (case_match; simplify_eq; try done).
Qed.

(** *** Requests at the same time *)

Section Running.
Context (embedded : bool) (env : ServerConfig.Env) (cfg : ServerConfig.Config) (ent : EntitlementState) (row : InstanceMeta) (rest : list InstanceMeta)
  (before : list EntitlementState) (files0 : gmap path string) (posted : string → Prop).
Definition stopped : World := {| cells := before; instances := row :: rest; files := files0 |}.
Definition built : App * World := build_app_with_config embedded env cfg ent row.(install_uuid) stopped.
Definition accepted (text : string) (new : EntitlementState) : Prop :=
  (∃ header, admin_check built.1.(core) header = None) ∧ posted text ∧ verified row.(install_uuid) text new.
Definition good_text (s : option string) : Prop := ∃ text new, s = Some text ∧ accepted text new.
Definition sound (w : World) (rs : list Reply) : Prop :=
  (∃ c, w.(cells) = before ++ [c; ent] ∧ (c = ent ∨ ∃ text, accepted text c)) ∧ w.(instances) = row :: rest ∧
  (w.(files) !! license_path = files0 !! license_path ∨ good_text (w.(files) !! license_path)) ∧
  Forall (λ r, match r with Gate b => b = is_gated ent | _ => True end) rs.
(** What a process at work knows: the temporary file is gone or one of an accepted text. *)
Definition knows (p : Proc) (w : World) (rs : list Reply) : Prop :=
  match p with
  | PostLicense header text => admin_check built.1.(core) header = None → posted text
  | Writing text new => accepted text new
  | Renaming text new => accepted text new ∧ (w.(files) !! tmp_path license_path = None ∨ good_text (w.(files) !! tmp_path license_path))
  | Swapping new => ∃ text, accepted text new
  | _ => True
  end.
Lemma knows_files p w w' rs rs' : knows p w rs →
  (w'.(files) !! tmp_path license_path = w.(files) !! tmp_path license_path ∨ w'.(files) !! tmp_path license_path = None ∨
   good_text (w'.(files) !! tmp_path license_path)) → knows p w' rs'.
Proof. destruct p; cbn; try done. intros [Ha Ht] [E|[E|E]]; (split; [done|]); [rewrite E; done|by left|by right]. Qed.
Lemma built_cells : built.2.(cells) = before ++ [ent; ent] ∧ built.2.(instances) = row :: rest ∧ built.2.(files) = files0 ∧
  built.1.(core).(entitlement) = length before ∧ built.1.(automation).(entitlement) = S (length before) ∧ built.1.(mcp_entitlement) = S (length before).
Proof.
  pose proof (build_app_cells embedded env cfg ent row.(install_uuid) stopped) as Hb. unfold built. destruct (build_app_with_config _ _ _ _ _ _) as [app w].
  cbn in *. tauto.
Qed.
Lemma closed_without_token : embedded = true ∨ built.1.(core).(admin_token) = None → ∀ header, admin_check built.1.(core) header ≠ None.
Proof.
  pose proof (build_app_cells embedded env cfg ent row.(install_uuid) stopped) as Hb. unfold built. destruct (build_app_with_config _ _ _ _ _ _) as [app w].
  destruct Hb as (_ & _ & _ & _ & _ & _ & <-). intros He header. unfold admin_check. cbn in *. destruct (embedded_mode (core app)); [done|].
  destruct He as [He|He]; [done|]. by rewrite He.
Qed.
Lemma step_sound w rs a p : sound w rs → knows p w rs → whole w a →
  match exec built.1 a p w with
  | (w', inl p') => sound w' rs ∧ knows p' w' rs ∧ ∀ q, knows q w rs → True → knows q w' rs ∧ True
  | (w', inr o) => sound w' (o :: rs) ∧ ∀ q, knows q w rs → True → knows q w' (o :: rs)
  end.
Proof.
  intros ((c & Ec & Hc) & Ei & Hf & Hg) Hp Ha. destruct built_cells as (_ & _ & _ & Lc & La & Lm).
  assert (Hsame : ∀ o, match o with Gate b => b = is_gated ent | _ => True end → sound w (o :: rs) ∧ ∀ q, knows q w rs → True → knows q w (o :: rs)).
  { intros o Ho. split; [|intros q Hq _; eapply knows_files; [exact Hq|by left]]. split; [by exists c|]. split; [done|]. split; [done|]. by constructor. }
  assert (Hgate : ∀ loc, loc = S (length before) → gate_of loc w = Gate (is_gated ent)).
  { intros loc ->. unfold gate_of, load. rewrite Ec, lookup_app_r by lia. by replace (S (length before) - length before) with 1 by lia. }
  assert (Hcore : load built.1.(core).(entitlement) w = Some c).
  { unfold load. rewrite Lc, Ec, lookup_app_r by lia. by rewrite Nat.sub_diag. }
  destruct p as [| | |header text|text new|text new|new| | |]; cbn [exec].
  - by apply Hsame.
  - by apply Hsame.
  - rewrite Hcore. by apply Hsame.
  - unfold post_license. destruct (admin_check _ _) as [r|] eqn:Er.
    { apply Hsame. unfold admin_check in Er. repeat case_match; by simplify_eq. }
    assert (Ew : ∀ t, t = row :: rest → with_instances t w = w) by (intros t ->; destruct w; cbn in *; by subst).
    destruct (resolve a (Some text) w) as [[[x|e] t]|] eqn:Ex.
    + destruct (resolve_posted _ _ _ _ _ Ex) as (r & Eg & Er' & Hx). rewrite Ei in Eg. cbn in Eg. injection Eg as <- <-.
      rewrite Ew by done. destruct x as [l e|exp|reason]; [|done|by apply Hsame].
      split; [split; [by exists c|done]|]. split; [|intros q Hq _; split; [|done]; eapply knows_files; [exact Hq|by left]].
      split; [by exists header|]. split; [by apply Hp|]. by exists a.(a_now), l, e.
    + unfold resolve, resolve_entitlement_with_text in Ex. rewrite Ei in Ex. cbn in Ex.
      by destruct (resolve_from_license_text _ _ _ _ _ _ _ _).
    + rewrite Ew by (by rewrite Ei). by apply Hsame.
  - unfold whole in Ha. destruct (a_io a) as [[e [torn|]]|]; [done| |].
    + replace (with_files _ w) with w by (by destruct w). by apply Hsame.
    + assert (Ht : good_text (Some text)) by (by exists text, new). pose proof (tmp_path_ne license_path) as Hne.
      split; [split; [by exists c|]; split; [done|]; split; [|done]; cbn; by rewrite lookup_insert_ne|].
      split; [split; [done|]; right; cbn; by rewrite lookup_insert_eq|].
      intros q Hq _. split; [|done]. eapply knows_files; [exact Hq|]. right; right. cbn. by rewrite lookup_insert_eq.
  - destruct Hp as [Hacc Ht]. destruct (a_io a) as [[e ?]|]; [by apply Hsame|]. destruct (files w !! tmp_path license_path) as [s|] eqn:Es; [|by apply Hsame].
    destruct Ht as [Ht|Ht]; [done|]. pose proof (tmp_path_ne license_path) as Hne.
    split; [split; [by exists c|]; split; [done|]; split; [|done]; right; cbn; by rewrite Es, lookup_insert_eq|].
    split; [by exists text|]. intros q Hq _. split; [|done]. eapply knows_files; [exact Hq|]. right; left. cbn. rewrite Es.
    by rewrite lookup_insert_ne, lookup_delete_eq.
  - destruct Hp as [text Hacc]. rewrite Lc. split.
    + split; [|done]. exists new. split; [|right; by exists text]. cbn. rewrite Ec, insert_app_r_alt by lia. by rewrite Nat.sub_diag.
    + split; [done|]. intros q Hq _. split; [|done]. eapply knows_files; [exact Hq|by left].
  - rewrite Hcore. apply Hsame. by destruct c.
  - rewrite (Hgate _ La). by apply Hsame.
  - rewrite (Hgate _ Lm). by apply Hsame.
Qed.
Lemma run_sound s : reachable (exec built.1) (may_request built.1 posted) whole built.2 s → sound s.(db) s.(replies).
Proof.
  destruct built_cells as (Ec & Ei & Ef & _). intros Hs.
  eapply (invariant (exec built.1) (may_request built.1 posted) whole sound knows (λ _ _, True)); [done| | | |exact Hs].
  - intros d rs p HI Hr. split; [|done]. by destruct p.
  - intros d rs a p. apply step_sound.
  - split; [exists ent; by rewrite Ec; split; [|left]|]. split; [done|]. split; [left; by rewrite Ef|constructor].
Qed.

(**  However requests come and interleave, the gates of the REST handlers and of the
    MCP tools answer by the entitlement the server started with: a license taken in at
    run time changes a cell that only the core routes read. *)
Theorem gates_keep_their_entitlement s : reachable (exec built.1) (may_request built.1 posted) whole built.2 s →
  load built.1.(automation).(entitlement) s.(db) = Some ent ∧ load built.1.(mcp_entitlement) s.(db) = Some ent ∧
  ∀ b, Gate b ∈ s.(replies) → b = is_gated ent.
Proof.
  intros Hs%run_sound. destruct Hs as ((c & Ec & _) & _ & _ & Hg). destruct built_cells as (_ & _ & _ & _ & La & Lm).
  assert (Hl : load (S (length before)) s.(db) = Some ent).
  { unfold load. rewrite Ec, lookup_app_r by lia. by replace (S (length before) - length before) with 1 by lia. }
  rewrite La, Lm. split; [done|]. split; [done|]. intros b Hb. rewrite Forall_forall in Hg. exact (Hg _ Hb).
Qed.
(** C18.  Whatever comes in and however it interleaves, the cell of the core routes holds
    the entitlement of the start or a license that verified from a text posted past the
    check of the token, and the license file its first content or such a text, as long as
    no write leaves half of one; where the token is not configured or the server is
    embedded, both stay as they were. *)
Theorem only_verified_licenses_installed s : reachable (exec built.1) (may_request built.1 posted) whole built.2 s →
  (∃ c, load built.1.(core).(entitlement) s.(db) = Some c ∧ (c = ent ∨ ∃ text, accepted text c)) ∧
  (s.(db).(files) !! license_path = files0 !! license_path ∨ good_text (s.(db).(files) !! license_path)) ∧
  (embedded = true ∨ built.1.(core).(admin_token) = None →
   load built.1.(core).(entitlement) s.(db) = Some ent ∧ s.(db).(files) !! license_path = files0 !! license_path).
Proof.
  intros Hs%run_sound. destruct Hs as ((c & Ec & Hc) & _ & Hf & _). destruct built_cells as (_ & _ & _ & Lc & _).
  assert (Hl : load built.1.(core).(entitlement) s.(db) = Some c) by (unfold load; rewrite Lc, Ec, lookup_app_r by lia; by rewrite Nat.sub_diag).
  split; [by exists c|]. split; [done|]. intros He. rewrite Hl. pose proof (closed_without_token He) as Hno. split.
  - destruct Hc as [->|(text & (header & Hh) & _)]; [done|]. by destruct (Hno header).
  - destruct Hf as [Hf|(text & new & _ & (header & Hh) & _)]; [done|]. by destruct (Hno header).
Qed.
End Running.

(** *** One post, step by step *)

Lemma license_state_same now l uuid l' e : license_state now l uuid = Licensed l' e → l' = l ∧ l.(instance_id) = uuid.
Proof. unfold license_state. case_bool_decide; cbn [negb]; [|done]. repeat case_match; by intros [= <- _]. Qed.
(** The text decides the license at any later time. *)
Lemma verified_at_restart a w now text uuid l e r t :
  resolve_from_license_text hex_decode signature_from_slice verify verifying_key_from_bytes override now text uuid = Some (Licensed l e) →
  get_or_create_instance a.(a_uuid) a.(a_now_s) w.(instances) = (Ok r, t) → r.(install_uuid) = uuid → w.(files) !! license_path = Some text →
  restart a w = Some (Ok (license_state a.(a_now) l uuid), t).
Proof.
  intros Hr Hg <- Hf. unfold restart, Server.restart, Server.resolve, resolve_entitlement_with_text. rewrite Hf, Hg.
  unfold resolve_from_license_text, resolve_from_license_text_with_pk in *. destruct (trusted_verifying_key _ _ _) as [pk|]; [|done].
  destruct (parse_license text) as [[p|[]]|]; cbn in *; try done. destruct (verify_license_with_pk _ _ _ _ _) as [l'|]; [|done].
  injection Hr as Hr. by apply license_state_same in Hr as [-> _].
Qed.
Definition refusal (r : Reply) : Prop := r = Panic ∨ ∃ status code message, r = Http status (error_json code message).
Context (app : App).
Notation cell := (load app.(core).(entitlement)).
Notation file w := (w.(files) !! license_path).
(** Refused, the world is as it was; installed, cell and file agree, and every restart
    finds the license, for as long as it lasts. *)
Definition installed (text : string) (w' : World) (l : LicenseV2) (e : option Z) : Prop :=
  cell w' = Some (Licensed l e) ∧ file w' = Some text ∧
  ∀ a, ∃ t, restart a w' = Some (Ok (license_state a.(a_now) l l.(instance_id)), t).
Inductive outcome (text : string) (w w' : World) : Proc + Reply → Prop :=
| outcome_refused r : refusal r → cell w' = cell w → file w' = file w → outcome text w w' (inr r)
| outcome_installed l e : installed text w' l e → outcome text w w' (inr (swapped_reply (Licensed l e)))
| outcome_cut p : cell w' = cell w ∨ (∃ l e, installed text w' l e) → file w' = file w ∨ file w' = Some text → outcome text w w' (inl p).

(** From each point of a post on. *)
Lemma load_stored w e : is_Some (cell w) → cell (store app.(core).(entitlement) e w) = Some e.
Proof. intros Hc%lookup_lt_is_Some. unfold load. cbn. by apply list_lookup_insert_eq. Qed.
Lemma from_answering text w0 w l e answers : installed text w l e →
  let '(w', r) := run_alone (exec app) answers Answering w in outcome text w0 w' r.
Proof.
  intros Hi. destruct answers as [|a answers]; cbn; [apply outcome_cut; [right; by exists l, e|right; apply Hi]|].
  destruct Hi as (Hc & Hf & Hr). rewrite Hc. by apply outcome_installed.
Qed.
Lemma from_swapping text w0 w l e answers : is_Some (cell w) → cell w = cell w0 → file w = Some text →
  (∀ a, ∃ t, restart a w = Some (Ok (license_state a.(a_now) l l.(instance_id)), t)) →
  let '(w', r) := run_alone (exec app) answers (Swapping (Licensed l e)) w in outcome text w0 w' r.
Proof.
  intros Hs Hc Hf Hr. destruct answers as [|a answers]; cbn; [apply outcome_cut; [by left|by right]|].
  apply (from_answering text w0 (store app.(core).(entitlement) (Licensed l e) w) l e answers).
  split; [by apply load_stored|]. split; [done|]. exact Hr.
Qed.
(** A failing or unfinished step of the file system leaves cell and file. *)
Lemma write_failed_refusal e : refusal (write_failed e).
Proof. right. by eexists _, _, _. Qed.
Lemma from_renaming text w0 w l e answers : is_Some (cell w) → cell w = cell w0 → file w = file w0 → w.(files) !! tmp_path license_path = Some text →
  (∀ w', w'.(instances) = w.(instances) → file w' = Some text → ∀ a, ∃ t, restart a w' = Some (Ok (license_state a.(a_now) l l.(instance_id)), t)) →
  let '(w', r) := run_alone (exec app) answers (Renaming text (Licensed l e)) w in outcome text w0 w' r.
Proof.
  intros Hs Hc Hf Ht Hr. destruct answers as [|a answers]; cbn -[run_alone]; [apply outcome_cut; by left|]. cbn. rewrite Ht.
  destruct (a_io a) as [[err ?]|]; [apply outcome_refused; [apply write_failed_refusal|done..]|]. cbn -[tmp_path].
  match goal with |- context [run_alone _ _ _ ?x] => set (w1 := x) end.
  assert (Hf1 : file w1 = Some text) by (cbn -[tmp_path]; rewrite Ht; apply lookup_insert_eq).
  apply (from_swapping text w0 w1 l e answers); [done|done|done|]. by apply Hr.
Qed.
Lemma from_writing text w0 w l e answers : is_Some (cell w) → cell w = cell w0 → file w = file w0 →
  (∀ w', w'.(instances) = w.(instances) → file w' = Some text → ∀ a, ∃ t, restart a w' = Some (Ok (license_state a.(a_now) l l.(instance_id)), t)) →
  let '(w', r) := run_alone (exec app) answers (Writing text (Licensed l e)) w in outcome text w0 w' r.
Proof.
  intros Hs Hc Hf Hr. pose proof (tmp_path_ne license_path) as Hne. destruct answers as [|a answers]; [apply outcome_cut; by left|]. cbn.
  destruct (a_io a) as [[err [torn|]]|]; [apply outcome_refused; [apply write_failed_refusal|done|]|apply outcome_refused; [apply write_failed_refusal|done|done]|].
  - cbn. by rewrite lookup_insert_ne.
  - apply from_renaming; [done|done|cbn; by rewrite lookup_insert_ne|cbn; apply lookup_insert_eq|exact Hr].
Qed.

(** C19.  A license posted while no other post is at work is taken in whole or not at all,
    at whatever step it fails: a refusal leaves the cell and the file as they were; on
    success both have the license, and a restart resolves the same license until it
    expires; cut off in between, the cell has it only if the file has. *)
Theorem post_is_all_or_nothing header text w answers : is_Some (cell w) →
  let '(w', r) := run_alone (exec app) answers (PostLicense header text) w in outcome text w w' r.
Proof.
  intros Hs. destruct answers as [|a answers]; [apply outcome_cut; by left|]. cbn. unfold post_license.
  destruct (admin_check _ _) as [rep|] eqn:Er.
  { apply outcome_refused; [|done|done]. unfold admin_check in Er. repeat case_match; simplify_eq; right; by eexists _, _, _. }
  destruct (resolve a (Some text) w) as [[[x|e] t]|] eqn:Ex.
  - destruct (resolve_posted _ _ _ _ _ Ex) as (r & Eg & Er' & Hx). destruct x as [l e|exp|reason]; [|done|].
    + apply from_writing; [done|done|done|]. intros w' Ei Hf' a'. pose proof (install_uuid_stable a.(a_uuid) a.(a_now_s) a'.(a_uuid) a'.(a_now_s) w.(instances)) as Hst.
      rewrite Eg in Hst. cbn in Hst, Ei. rewrite <- Ei in Hst. exists w'.(instances).
      assert (Hid : l.(instance_id) = r.(install_uuid)).
      { unfold resolve, Server.resolve in Ex. apply resolve_licensed_inv in Ex as (? & ? & ? & r' & [= <-] & _ & _ & _ & _ & Eg' & Hl).
        rewrite Eg in Eg'. injection Eg' as <-. by apply license_state_same in Hl as [_ ?]. }
      rewrite Hid. by eapply verified_at_restart.
    + apply outcome_refused; [|done|done]. right. by eexists _, _, _.
  - apply outcome_refused; [|done|done]. right. by eexists _, _, _.
  - apply outcome_refused; [by left|done|done].
Qed.
End Theorems.

(** ** Examples *)

Section Examples.
#[local] Existing Instance bits_codec.
Definition ex_env : ServerConfig.Env := λ k, if decide (k = ADMIN_TOKEN_ENV) then ServerConfig.Value "tok" else ServerConfig.Unset.
Definition ex_path : path := ("etc", ".dbmlicense").
Definition ex_text : string := license_text sample "00ff".
(** The same license with another end of its file. *)
Definition ex_text' : string := ex_text +:+ String LF "".
(** A server that starts gated, its trial over. *)
Definition ex_built : App * World := built false ex_env ServerConfig.ex_config (Gated TrialExpired) sample_instance [] [] ∅.
Definition ex_exec := exec toy_hex Some toy_verify toy_key None ex_path ex_built.1.
Definition fine : Answer := {| a_uuid := "u"; a_now_s := "s"; a_now := 0; a_io := None |}.
Definition torn : Answer := {| a_uuid := "u"; a_now_s := "s"; a_now := 0; a_io := Some ("No space left on device (os error 28)", Some "-----BEGIN") |}.
Definition posts (l : list Proc) : System World Proc Reply := {| db := ex_built.2; procs := l; replies := [] |}.
Definition ex_run (sched : list (nat * Answer)) (l : list Proc) : option (System World Proc Reply) := run_schedule ex_exec sched (posts l).
Definition posted_reply : Reply := swapped_reply (Licensed sample None).
(** The license is taken in and reported, and the gate of the REST handlers still refuses. *)
Definition ex_three : list Proc := [PostLicense (Some "tok") ex_text; GetEntitlement; AutomationWrite].
Definition ex_schedule : list (nat * Answer) := [(0, fine); (0, fine); (0, fine); (0, fine); (0, fine); (0, fine); (0, fine)].
Example license_does_not_open_the_gate :
  (λ s, (s.(replies), load 0 s.(db))) <$> ex_run ex_schedule ex_three =
  Some ([Gate true; Http 200 (entitlement_json 0 (Licensed sample None)); posted_reply], Some (Licensed sample None)).
Proof. vm_compute. reflexivity. Qed.
(** Two posts share the temporary file: the first renames the text of the second, which
    is told that it failed; the file has the text of the refused post. *)
Example refused_text_is_kept :
  (λ s, (s.(replies), s.(db).(files) !! ex_path)) <$>
  ex_run [(0, fine); (1, fine); (0, fine); (1, fine); (0, fine); (0, fine); (0, fine); (0, fine)]
    [PostLicense (Some "tok") ex_text; PostLicense (Some "tok") ex_text'] =
  Some ([write_failed "No such file or directory (os error 2)"; posted_reply], Some ex_text').
Proof. vm_compute. reflexivity. Qed.
(** A failing write of the second tears what the first then renames: its client is told of
    a license, and the next start finds none. *)
Example torn_text_is_installed :
  (λ s, (s.(replies), s.(db).(files) !! ex_path, fst <$> restart toy_hex Some toy_verify toy_key None ex_path fine s.(db))) <$>
  ex_run [(0, fine); (1, fine); (0, fine); (1, torn); (0, fine); (0, fine); (0, fine)]
    [PostLicense (Some "tok") ex_text; PostLicense (Some "tok") ex_text'] =
  Some ([posted_reply; write_failed "No space left on device (os error 28)"], Some "-----BEGIN", Some (Ok (Gated LicenseInvalid))).
Proof. vm_compute. reflexivity. Qed.

Lemma ex_served_reachable : ∃ s, ex_run ex_schedule ex_three = Some s ∧
  reachable ex_exec (may_request ex_built.1 (λ _, True)) whole ex_built.2 s.
Proof.
  destruct (ex_run ex_schedule ex_three) as [s|] eqn:E; [|vm_compute in E; discriminate]. exists s. split; [reflexivity|].
  unfold reachable. transitivity (posts ex_three).
  - unfold posts, boot. eapply rtc_l; [apply (sys_request _ _ _ _ (PostLicense (Some "tok") ex_text)); exact (λ _, I)|].
    eapply rtc_l; [apply (sys_request _ _ _ _ GetEntitlement); exact I|]. eapply rtc_l; [apply (sys_request _ _ _ _ AutomationWrite); exact I|]. apply rtc_refl.
  - apply (run_schedule_steps _ _ _ ex_schedule); [exact E|]. vm_compute. repeat split.
Defined.
Lemma gates_keep_their_entitlement_witness : ∃ s, ex_run ex_schedule ex_three = Some s ∧
  load ex_built.1.(automation).(entitlement) s.(db) = Some (Gated TrialExpired).
Proof.
  destruct ex_served_reachable as (s & E & Hs). exists s. split; [exact E|].
  exact (proj1 (gates_keep_their_entitlement toy_hex Some toy_verify toy_key None ex_path false ex_env ServerConfig.ex_config (Gated TrialExpired)
    sample_instance [] [] ∅ (λ _, True) s Hs)).
Defined.
Lemma only_verified_licenses_installed_witness : ∃ s, ex_run ex_schedule ex_three = Some s ∧
  (s.(db).(files) !! ex_path = None ∨
   good_text toy_hex Some toy_verify toy_key None false ex_env ServerConfig.ex_config (Gated TrialExpired) sample_instance [] [] ∅ (λ _, True) (s.(db).(files) !! ex_path)).
Proof.
  destruct ex_served_reachable as (s & E & Hs). exists s. split; [exact E|].
  exact (proj1 (proj2 (only_verified_licenses_installed toy_hex Some toy_verify toy_key None ex_path false ex_env ServerConfig.ex_config (Gated TrialExpired)
    sample_instance [] [] ∅ (λ _, True) s Hs))).
Defined.
Lemma post_is_all_or_nothing_witness : is_Some (load ex_built.1.(core).(entitlement) ex_built.2) ∧
  let '(w', r) := run_alone ex_exec [fine; torn] (PostLicense (Some "tok") ex_text) ex_built.2 in
  outcome toy_hex Some toy_verify toy_key None ex_path ex_built.1 ex_text ex_built.2 w' r.
Proof.
  assert (Hc : is_Some (load ex_built.1.(core).(entitlement) ex_built.2)) by (vm_compute; eexists; reflexivity).
  split; [exact Hc|]. exact (post_is_all_or_nothing toy_hex Some toy_verify toy_key None ex_path ex_built.1 (Some "tok") ex_text ex_built.2 [fine; torn] Hc).
Defined.
End Examples.
