(* ===== verification/McpServer.v ===== *)
(** * The MCP server (crates/mcp: handler.rs, lib.rs, and the definitions of tools.rs and write.rs)

    What the server tells a client of itself: its name, the tools with the schemas of
    their arguments and the hints on what they do.  And how a call comes in: past the
    guard of the endpoint, with the identity it found, to the dispatch.  The protocol
    itself is rmcp's. *)

From S2P Require Import Prelude RustStr Clock Json Risk DdlExec Approvals QueryStats McpTokens McpTools ServerConfig Entitlement.
From S2P Require Accounts Server.
From stdpp Require Import strings gmap.

(** ** The tools *)

Definition TOOL_LIST_CONNECTIONS : string := "list_connections".
Definition TOOL_LIST_DATABASES : string := "list_databases".
Definition TOOL_LIST_TABLES : string := "list_tables".
Definition TOOL_DESCRIBE_TABLE : string := "describe_table".
Definition TOOL_READ_QUERY : string := "read_query".
Definition TOOL_SUBMIT_WRITE : string := "submit_write".
Definition TOOL_GET_APPROVAL : string := "get_approval".
Definition TOOL_EXECUTE_WRITE : string := "execute_write".

Record ToolAnnotations := { read_only_hint : option bool; destructive_hint : option bool; idempotent_hint : option bool }.
Record Tool := { tool_name : string; title : string; description : string; input_schema : json; annotations : ToolAnnotations }.
Definition tool (name title_ description_ : string) (schema : json) : Tool :=
  {| tool_name := name; title := title_; description := description_; input_schema := schema;
     annotations := {| read_only_hint := Some true; destructive_hint := None; idempotent_hint := None |} |}.
Definition write_tool (name title_ description_ : string) (schema : json) (read_only destructive idempotent : bool) : Tool :=
  {| tool_name := name; title := title_; description := description_; input_schema := schema;
     annotations := {| read_only_hint := Some read_only; destructive_hint := Some destructive; idempotent_hint := Some idempotent |} |}.
Definition write_tool_definitions : list Tool := [
  write_tool TOOL_SUBMIT_WRITE "Submit write for approval"
    ("Submit ONE write statement for HUMAN APPROVAL — nothing is executed at submit time. The statement lands in the dbmaster approval queue " +:+
     "(status=pending); a human must approve it in the dbmaster client before execute_write can run it. Returns approvalId (keep it) plus a risk " +:+
     "assessment. The execution backend accepts DDL only (CREATE/ALTER/DROP/TRUNCATE/RENAME); data-modifying statements will be rejected at execution time. " +:+
     "Args: connection_id, sql.")
    (JObj [
      ("type", JStr "object");
      ("properties", JObj [
        ("connection_id", JObj [("type", JStr "string"); ("description", JStr "Connection id from list_connections")]);
        ("sql", JObj [("type", JStr "string"); ("description", JStr "A single write/DDL statement to be executed after human approval")])]);
      ("required", JArr [JStr "connection_id"; JStr "sql"]);
      ("additionalProperties", JBool false)]) false false false;
  write_tool TOOL_GET_APPROVAL "Get approval status"
    ("Get the current state of a write approval you submitted via submit_write (only the submitter can see it). Returns status " +:+
     "(pending/approved/rejected/executing/failed), execStatus (pending/executing/approved/failed — 'approved' means executed successfully), execError " +:+
     "after a failed execution, risk, and timestamps. Poll this while waiting for the human decision. Args: approval_id.")
    (JObj [
      ("type", JStr "object");
      ("properties", JObj [("approval_id", JObj [("type", JStr "string"); ("description", JStr "approvalId returned by submit_write")])]);
      ("required", JArr [JStr "approval_id"]);
      ("additionalProperties", JBool false)]) true false true;
  write_tool TOOL_EXECUTE_WRITE "Execute approved write"
    ("Execute an approval that a human has ALREADY approved — call get_approval first and only execute when status is 'approved' (otherwise fails with " +:+
     "APPROVAL_NOT_APPROVED). Idempotent: if execution already started or finished, returns the current execStatus without executing again. Only the " +:+
     "submitter can execute. Args: approval_id.")
    (JObj [
      ("type", JStr "object");
      ("properties", JObj [("approval_id", JObj [("type", JStr "string"); ("description", JStr "approvalId returned by submit_write")])]);
      ("required", JArr [JStr "approval_id"]);
      ("additionalProperties", JBool false)]) false true true].
Definition tool_definitions : list Tool := [
  tool TOOL_LIST_CONNECTIONS "List connections"
    ("List the database connections registered on this dbmaster server. Returns id, name, db_type, read_only and default_database for each — never " +:+
     "credentials. Start here, then drill down with list_databases / list_tables.")
    (JObj [("type", JStr "object"); ("properties", JObj []); ("additionalProperties", JBool false)]);
  tool TOOL_LIST_DATABASES "List databases"
    ("List the databases visible to one connection (for PostgreSQL this is the databases in the cluster, not the schemas inside one — use list_tables to " +:+
     "enumerate the tables of every schema in a database). Args: connection_id from list_connections. Engine-internal catalogs (e.g. information_schema) " +:+
     "are hidden to keep the output compact.")
    (JObj [
      ("type", JStr "object");
      ("properties", JObj [("connection_id", JObj [("type", JStr "string"); ("description", JStr "Connection id from list_connections")])]);
      ("required", JArr [JStr "connection_id"]);
      ("additionalProperties", JBool false)]);
  tool TOOL_LIST_TABLES "List tables"
    ("List tables and views in a database, with comments and approximate row-count estimates where the engine keeps statistics (estimates spare you from " +:+
     "COUNT(*)). On PostgreSQL every user schema of the database is enumerated (system schemas are hidden); objects outside the public schema are named " +:+
     "'schema.table' and carry a 'schema' field — pass that qualified name to describe_table to address them. Two addressing boundaries: a table name that " +:+
     "itself contains '.' cannot be addressed by the 'schema.table' form (only names without '.' round-trip), and a bare name is resolved by the " +:+
     "connection's search_path, so a '$user' schema can take precedence over public for it. Args: connection_id; optional database (defaults to the " +:+
     "connection's default database).")
    (JObj [
      ("type", JStr "object");
      ("properties", JObj [
        ("connection_id", JObj [("type", JStr "string"); ("description", JStr "Connection id from list_connections")]);
        ("database", JObj [("type", JStr "string"); ("description", JStr "Database name from list_databases (optional)")])]);
      ("required", JArr [JStr "connection_id"]);
      ("additionalProperties", JBool false)]);
  tool TOOL_DESCRIBE_TABLE "Describe table"
    ("Describe one table for SQL writing: columns (name, type, nullable, default, comment), primary key, indexes (with columns) and foreign keys. Compact " +:+
     "output. Args: connection_id, table; optional database.")
    (JObj [
      ("type", JStr "object");
      ("properties", JObj [
        ("connection_id", JObj [("type", JStr "string"); ("description", JStr "Connection id from list_connections")]);
        ("table", JObj [
          ("type", JStr "string");
          ("description", JStr ("Table name from list_tables. A 'schema.table' qualified name addresses that schema explicitly (PostgreSQL); not usable when the " +:+
              "object name itself contains '.'. A bare name resolves via the connection's search_path, where a '$user' schema can take " +:+
              "precedence over public."))]);
        ("database", JObj [("type", JStr "string"); ("description", JStr "Database name (optional)")])]);
      ("required", JArr [JStr "connection_id"; JStr "table"]);
      ("additionalProperties", JBool false)]);
  tool TOOL_READ_QUERY "Read query"
    ("Execute ONE read-only SQL statement (SELECT / SHOW / plain EXPLAIN) and return rows. Writes, DDL, USE, transactions and multiple statements per call " +:+
     "are rejected. Rows are server-capped: pass max_rows to request fewer (default 500); long-running statements are cancelled by a server-side timeout. " +:+
     "Args: connection_id, sql; optional database, max_rows.")
    (JObj [
      ("type", JStr "object");
      ("properties", JObj [
        ("connection_id", JObj [("type", JStr "string"); ("description", JStr "Connection id from list_connections")]);
        ("sql", JObj [("type", JStr "string"); ("description", JStr "A single read-only SQL statement")]);
        ("database", JObj [("type", JStr "string"); ("description", JStr "Database name (optional; defaults to the connection's default)")]);
        ("max_rows", JObj [("type", JStr "integer"); ("minimum", JInt 1); ("description", JStr "Row cap for this call (optional; server default 500)")])]);
      ("required", JArr [JStr "connection_id"; JStr "sql"]);
      ("additionalProperties", JBool false)])] ++ write_tool_definitions.

(** ** The server *)

Record ServerInfo := { server_name : string; server_version : string; enables_tools : bool }.
Definition get_info : ServerInfo := {| server_name := "dbmaster-server"; server_version := Server.CARGO_PKG_VERSION; enables_tools := true |}.
Record ListToolsResult := { listed : list Tool; next_cursor : option string; ttl_ms : Z; cache_public : bool }.
Definition list_tools : ListToolsResult := {| listed := tool_definitions; next_cursor := None; ttl_ms := 300000; cache_public := true |}.

(** A result of a call: an error is a text of its own. *)
Inductive CallToolResult := Structured (v : json) | ToolFailed (text : string).
Definition tool_result `{Printer} (r : result string json) : CallToolResult :=
  match r with
  | Ok v => Structured v
  | Err msg => ToolFailed (to_vec (JObj [("error", JObj [("code", JStr "TOOL_ERROR"); ("message", JStr msg)])]))
  end.

(** ** JSON Schema, as far as the schemas use it *)

(** A number written with a fraction or an exponent is taken as no integer. *)
Definition type_ok (ty : string) (v : json) : bool :=
  match v with JStr _ => bool_decide (ty = "string") | JInt _ => bool_decide (ty = "integer") | _ => false end.
Definition property_ok (p v : json) : bool :=
  match jget "type" p with Some (JStr ty) => type_ok ty v | _ => true end &&
  match jget "minimum" p, v with Some (JInt m), JInt z => (m <=? z)%Z | _, _ => true end.
Definition required_of (schema : json) : list string := match jget "required" schema with Some (JArr l) => omap Json.as_str l | _ => [] end.
Definition properties_of (schema : json) : list (string * json) := match jget "properties" schema with Some (JObj kvs) => kvs | _ => [] end.
(** All schemas say [additionalProperties: false]. *)
Definition conforms (schema : json) (args : list (string * json)) : bool :=
  forallb (λ k, bool_decide (is_Some (assoc_get k args))) (required_of schema) &&
  forallb (λ kv, match assoc_get kv.1 (properties_of schema) with Some p => property_ok p kv.2 | None => false end) args.
(** What the schemas do not say: no text is blank, no number beyond 64 bits. *)
Definition ordinary (args : list (string * json)) : Prop :=
  Forall (λ kv, match kv.2 with JStr s => is_empty (RustStr.trim s) = false | JInt z => (z ≤ u64_max)%Z | _ => True end) args.

Lemma assoc_get_elem k v args : assoc_get k args = Some v → (k, v) ∈ args.
Proof. induction args as [|[k' v'] args IH]; cbn; [done|]. case_decide as E; [intros [= ->]; subst; by left|right; auto]. Qed.
Section Arguments.
Context {Pr : Printer} (schema : json) (args : list (string * json)).
Hypothesis (Hc : conforms schema args = true) (Ho : ordinary args).
Lemma conforming_get k v : assoc_get k args = Some v → ∃ p, assoc_get k (properties_of schema) = Some p ∧ property_ok p v = true.
Proof.
  intros Hk%assoc_get_elem. apply andb_prop in Hc as [_ Hp]. rewrite forallb_forall in Hp. apply list_elem_of_In in Hk. specialize (Hp _ Hk). cbn in Hp.
  destruct (assoc_get k _) as [p|]; [eauto|done].
Qed.
Lemma conforming_str k p : assoc_get k (properties_of schema) = Some p → jget "type" p = Some (JStr "string") →
  assoc_get k args = None ∧ arg_str args k = Ok None ∨
  ∃ s, assoc_get k args = Some (JStr s) ∧ is_empty (RustStr.trim s) = false ∧ arg_str args k = Ok (Some s).
Proof.
  intros Hp Ht. unfold arg_str. destruct (assoc_get k args) as [v|] eqn:E; [|by left]. right.
  destruct (conforming_get k v E) as (p' & Hp' & Hv). rewrite Hp in Hp'. injection Hp' as <-. unfold property_ok in Hv. rewrite Ht in Hv.
  apply andb_prop in Hv as [Hv _]. destruct v; try done. eexists; split; [done|]. split; [|done].
  apply assoc_get_elem in E. unfold ordinary in Ho. rewrite Forall_forall in Ho. exact (Ho _ E).
Qed.
Lemma conforming_opt k p : assoc_get k (properties_of schema) = Some p → jget "type" p = Some (JStr "string") → ∃ o, arg_str args k = Ok o.
Proof. intros Hp Ht. destruct (conforming_str k p Hp Ht) as [[_ ->]|(s & _ & _ & ->)]; eauto. Qed.
Lemma conforming_req k p : assoc_get k (properties_of schema) = Some p → jget "type" p = Some (JStr "string") → k ∈ required_of schema →
  ∃ s, require_str args k = Ok s.
Proof.
  intros Hp Ht Hr. unfold require_str. destruct (conforming_str k p Hp Ht) as [[Hn _]|(s & _ & Hs & ->)].
  - apply andb_prop in Hc as [Hq _]. rewrite forallb_forall in Hq. apply list_elem_of_In in Hr. specialize (Hq _ Hr).
    apply bool_decide_eq_true in Hq. rewrite Hn in Hq. by destruct Hq.
  - exists s. cbn. by rewrite Hs.
Qed.
Lemma conforming_u64 k p : assoc_get k (properties_of schema) = Some p → jget "type" p = Some (JStr "integer") → jget "minimum" p = Some (JInt 1) →
  ∃ o, arg_u64 args k = Ok o.
Proof.
  intros Hp Ht Hm. unfold arg_u64. destruct (assoc_get k args) as [v|] eqn:E; [|eauto].
  destruct (conforming_get k v E) as (p' & Hp' & Hv). rewrite Hp in Hp'. injection Hp' as <-. unfold property_ok in Hv. rewrite Ht, Hm in Hv.
  apply andb_prop in Hv as [Hv Hz]. destruct v; try done. apply Z.leb_le in Hz. apply assoc_get_elem in E. unfold ordinary in Ho. rewrite Forall_forall in Ho.
  specialize (Ho _ E). cbn in Ho. rewrite decide_True by lia. eauto.
Qed.
End Arguments.

(** The shape of each tool: its name, the arguments it requires, those that are texts. *)
Definition str_prop (schema : json) (k : string) : bool :=
  match assoc_get k (properties_of schema) with
  | Some p => match jget "type" p with Some (JStr ty) => bool_decide (ty = "string") | _ => false end
  | None => false
  end.
Definition prop_shape (e : string * list string * list string) (kv : string * json) : bool :=
  match jget "type" kv.2 with
  | Some (JStr ty) => bool_decide (ty = "string") && bool_decide (kv.1 ∈ e.2) ||
      bool_decide (e.1.1 = TOOL_READ_QUERY ∧ kv.1 = "max_rows" ∧ ty = "integer")
  | _ => false
  end.
Definition shape_ok (t : Tool) (e : string * list string * list string) : bool :=
  bool_decide (tool_name t = e.1.1) && bool_decide (required_of t.(input_schema) = e.1.2) && forallb (str_prop t.(input_schema)) e.2 &&
  forallb (prop_shape e) (properties_of t.(input_schema)).
Definition shapes : list (string * list string * list string) :=
  [(TOOL_LIST_CONNECTIONS, [], []); (TOOL_LIST_DATABASES, ["connection_id"], ["connection_id"]);
   (TOOL_LIST_TABLES, ["connection_id"], ["connection_id"; "database"]);
   (TOOL_DESCRIBE_TABLE, ["connection_id"; "table"], ["connection_id"; "table"; "database"]);
   (TOOL_READ_QUERY, ["connection_id"; "sql"], ["connection_id"; "sql"; "database"]);
   (TOOL_SUBMIT_WRITE, ["connection_id"; "sql"], ["connection_id"; "sql"]); (TOOL_GET_APPROVAL, ["approval_id"], ["approval_id"]);
   (TOOL_EXECUTE_WRITE, ["approval_id"], ["approval_id"])].
Lemma tool_shape t : t ∈ list_tools.(listed) → ∃ e, e ∈ shapes ∧ shape_ok t e = true.
Proof.
  intros Ht. assert (He : existsb (shape_ok t) shapes = true).
  { revert t Ht. apply Forall_forall. vm_compute. repeat constructor. }
  apply existsb_exists in He as (e & Hin & He). exists e. split; [by apply list_elem_of_In|done].
Qed.
Lemma shape_texts t e : shape_ok t e = true → tool_name t = e.1.1 ∧ required_of t.(input_schema) = e.1.2 ∧
  (∀ k, k ∈ e.2 → ∃ p, assoc_get k (properties_of t.(input_schema)) = Some p ∧ jget "type" p = Some (JStr "string")).
Proof.
  intros [[[Hn%bool_decide_eq_true Hr%bool_decide_eq_true]%andb_prop Hs]%andb_prop _]%andb_prop. split_and!; [done..|].
  intros k Hk. rewrite forallb_forall in Hs. apply list_elem_of_In in Hk. specialize (Hs k Hk). unfold str_prop in Hs.
  destruct (assoc_get k _) as [p|]; [|done]. exists p. split; [done|]. destruct (jget "type" p) as [[]|]; try done.
  by apply bool_decide_eq_true in Hs as ->.
Qed.
Lemma read_rows_prop t : t ∈ list_tools.(listed) → tool_name t = TOOL_READ_QUERY →
  ∃ p, assoc_get "max_rows" (properties_of t.(input_schema)) = Some p ∧ jget "type" p = Some (JStr "integer") ∧ jget "minimum" p = Some (JInt 1).
Proof.
  intros Ht Hn. assert (He : bool_decide (tool_name t = TOOL_READ_QUERY) = false ∨
    assoc_get "max_rows" (properties_of t.(input_schema)) = Some (JObj [("type", JStr "integer"); ("minimum", JInt 1);
      ("description", JStr "Row cap for this call (optional; server default 500)")])).
  { clear Hn. revert t Ht. apply Forall_forall. repeat (apply Forall_cons; split; [first [left; reflexivity|right; reflexivity]|]). apply Forall_nil. done. }
  destruct He as [He|He]; [by rewrite Hn in He|]. eexists. split; [exact He|]. by cbn.
Qed.

(** ** The tools as they are served *)

Section Served.
Context {Pr : Printer} (unicode_alphanumeric : SqlSplit.char → bool) (unicode_upper : SqlSplit.char → list SqlSplit.char).
Context (to_lowercase to_uppercase : string → string).
Context (parse_mysql parse_pg parse_generic : string → option (list Statement)).
Context (whitelist : list string) (limits : ToolLimits) (backend : TargetCall → result (string * string) json) (reads : Reads).
Context (default_database : string → option string).
Notation execute := (execute to_lowercase to_uppercase parse_mysql parse_pg parse_generic whitelist limits backend reads default_database).
Notation dispatch := (dispatch unicode_alphanumeric unicode_upper to_lowercase to_uppercase parse_mysql parse_pg parse_generic whitelist limits
  backend reads default_database).
Notation finish := (finish unicode_alphanumeric unicode_upper to_lowercase parse_mysql parse_pg parse_generic whitelist).
Notation step := (step unicode_alphanumeric unicode_upper to_lowercase parse_mysql parse_pg parse_generic whitelist).
(** A call that ends in an error with nothing done, and one that ends in an error about its arguments. *)
Definition refused (s : Store) (o : ToolOutcome * list TargetCall * Store) : Prop :=
  match o with
  | (ToolReply r, [], s') => is_ok r = false ∧ s' = s
  | (ToolStart p, [], s') => s' = s ∧ ∀ b w, ∃ e, step b w p = answer w (ToolErr e)
  | _ => False
  end.
Definition argument_error (o : ToolOutcome * list TargetCall * Store) : Prop :=
  match o with
  | (ToolReply (Err e), [], _) => starts_with "INVALID_ARGUMENT: " e = true
  | (ToolStart p, [], _) => ∃ b w e, step b w p = answer w (ToolErr e) ∧ starts_with "INVALID_ARGUMENT: " e = true
  | _ => False
  end.
(** A call to no tool. *)
Definition unknown_tool (name : string) : string := "unknown tool '" +:+ name +:+ "'".

Definition mistyped (schema : json) (args : list (string * json)) (k : string) : Prop :=
  ∃ p ty v, assoc_get k (properties_of schema) = Some p ∧ jget "type" p = Some (JStr ty) ∧
    assoc_get k args = Some v ∧ v ≠ JNull ∧ type_ok ty v = false.

Lemma missing_str args k : assoc_get k args = None → is_ok (require_str args k) = false.
Proof. intros E. unfold require_str, arg_str. by rewrite E. Qed.
Lemma mistyped_opt args k v : assoc_get k args = Some v → v ≠ JNull → type_ok "string" v = false → is_ok (arg_str args k) = false.
Proof. intros E Hn Ht. unfold arg_str. rewrite E. by destruct v. Qed.
Lemma mistyped_str args k v : assoc_get k args = Some v → v ≠ JNull → type_ok "string" v = false → is_ok (require_str args k) = false.
Proof.
  intros E Hn Ht. unfold require_str. pose proof (mistyped_opt args k v E Hn Ht) as H. by destruct (arg_str args k).
Qed.
Lemma mistyped_u64 args k v : assoc_get k args = Some v → v ≠ JNull → type_ok "integer" v = false → is_ok (arg_u64 args k) = false.
Proof. intros E Hn Ht. unfold arg_u64. rewrite E. by destruct v. Qed.
(** The dispatch, tool by tool. *)
Notation conn_of args := (arg (require_str args "connection_id")).
Lemma serves_connections a s args u : execute a s TOOL_LIST_CONNECTIONS (Some args) (Some u) =
  (ToolReply (match flat (list_connection_summaries default_database a s.(st_world)) with
              | Ok cs => Ok (JObj [("connections", JArr (summary_json <$> visible_summaries whitelist cs))]) | Err e => Err e end), [], s).
Proof. reflexivity. Qed.
Lemma serves_databases a s args u : execute a s TOOL_LIST_DATABASES (Some args) (Some u) =
  with_target whitelist backend a s (conn_of args) (λ c, Ok (ListDatabases c)) (λ c j, JObj [("connection_id", JStr c); ("databases", j)]).
Proof. reflexivity. Qed.
Lemma serves_tables a s args u : execute a s TOOL_LIST_TABLES (Some args) (Some u) =
  with_target whitelist backend a s (conn_of args) (λ c, db ← arg (arg_str args "database"); Ok (ListTables c db))
    (λ c j, JObj [("connection_id", JStr c); ("tables", j)]).
Proof. reflexivity. Qed.
Lemma serves_describe a s args u : execute a s TOOL_DESCRIBE_TABLE (Some args) (Some u) =
  with_target whitelist backend a s (conn_of args)
    (λ c, t ← arg (require_str args "table"); db ← arg (arg_str args "database"); Ok (DescribeTable c db t)) (λ _ j, j).
Proof. reflexivity. Qed.
Lemma serves_read a s args u : execute a s TOOL_READ_QUERY (Some args) (Some u) =
  run_read_query to_lowercase to_uppercase parse_mysql parse_pg parse_generic whitelist limits reads a s args.
Proof. reflexivity. Qed.
Lemma serves_write a s args u :
  execute a s TOOL_SUBMIT_WRITE (Some args) (Some u) = (ToolStart (SubmitWrite u args), [], s) ∧
  execute a s TOOL_GET_APPROVAL (Some args) (Some u) = (ToolStart (GetApproval u args), [], s) ∧
  execute a s TOOL_EXECUTE_WRITE (Some args) (Some u) = (ToolStart (ExecuteWrite u args), [], s).
Proof. split_and!; reflexivity. Qed.
(** Errors that are not about arguments. *)
Lemma whitelist_error a w c e : ensure_connection_allowed whitelist a w c = Err e →
  starts_with "INVALID_ARGUMENT: " e = false ∧ starts_with "unknown tool" e = false.
Proof. unfold ensure_connection_allowed. repeat case_match; intros Hx; simplify_eq; done. Qed.
Lemma load_error b w u id e : load_own_approval b w u id = Err e → starts_with "INVALID_ARGUMENT: " e = false.
Proof. unfold load_own_approval. repeat case_match; intros Hx; simplify_eq; done. Qed.
Lemma with_target_refuses a s conn call reply : (∀ c, is_ok (call c) = false) ∨ is_ok conn = false →
  refused s (with_target whitelist backend a s conn call reply).
Proof.
  intros Hr. unfold with_target. destruct conn as [c|e]; cbn; [|done]. destruct (ensure_connection_allowed _ _ _ _); cbn; [|done].
  destruct Hr as [Hr|Hr]; [|done]. specialize (Hr c). by destruct (call c).
Qed.
Lemma with_target_argument a s conn call reply : is_ok conn = true → (∀ c, is_ok (call c) = true) →
  ¬ argument_error (with_target whitelist backend a s conn call reply).
Proof.
  intros Hr Hcall. unfold with_target. destruct conn as [c|e]; cbn; [|done]. specialize (Hcall c).
  destruct (ensure_connection_allowed _ _ _ _) as [|e] eqn:Ea; cbn.
  - destruct (call c) as [t|]; [|done]. intros Hx. cbn in Hx. by repeat case_match.
  - by rewrite (proj1 (whitelist_error _ _ _ _ Ea)).
Qed.
Lemma is_ok_arg {A} (r : result string A) : is_ok (arg r) = is_ok r.
Proof. by destruct r. Qed.
Lemma arg_bind_refused {A B} (r : result string A) (f : A → result string B) : is_ok r = false → is_ok (arg r ≫= f) = false.
Proof. by destruct r. Qed.
Lemma read_refuses a s args : is_ok (require_str args "connection_id") = false ∨ is_ok (require_str args "sql") = false ∨
    is_ok (arg_str args "database") = false ∨ is_ok (arg_u64 args "max_rows") = false →
  refused s (run_read_query to_lowercase to_uppercase parse_mysql parse_pg parse_generic whitelist limits reads a s args).
Proof.
  intros Hr. unfold run_read_query. destruct (require_str args "connection_id"); cbn; [|done]. destruct (require_str args "sql"); cbn; [|done].
  destruct (arg_str args "database"); cbn; [|done]. destruct (arg_u64 args "max_rows"); cbn; [|done]. by destruct Hr as [|[|[]]].
Qed.
Lemma submit_refuses b w user args : is_ok (require_str args "connection_id") = false ∨ is_ok (require_str args "sql") = false →
  ∃ e, step b w (SubmitWrite user args) = answer w (ToolErr e).
Proof.
  intros Hr. cbn. unfold submit_write. destruct (write_gate_blocked w); [by eexists|]. destruct (require_str args "connection_id"); cbn; [|by eexists].
  destruct (require_str args "sql"); cbn; [|by eexists]. by destruct Hr.
Qed.
Lemma approval_refuses b w user args : is_ok (require_str args "approval_id") = false →
  (∃ e, step b w (GetApproval user args) = answer w (ToolErr e)) ∧ (∃ e, step b w (ExecuteWrite user args) = answer w (ToolErr e)).
Proof.
  intros Hr. cbn. unfold get_approval, execute_write. destruct (require_str args "approval_id"); [done|]. cbn.
  split; [by eexists|]. destruct (write_gate_blocked w); by eexists.
Qed.

(** An argument that its tool refuses: a required text, a text, or the number of rows. *)
Definition bad_argument (args : list (string * json)) (e : string * list string * list string) (k : string) : Prop :=
  k ∈ e.1.2 ∧ is_ok (require_str args k) = false ∨ k ∈ e.2 ∧ is_ok (arg_str args k) = false ∨
  e.1.1 = TOOL_READ_QUERY ∧ k = "max_rows" ∧ is_ok (arg_u64 args k) = false.
Lemma require_of_opt args k : is_ok (arg_str args k) = false → is_ok (require_str args k) = false.
Proof. unfold require_str. by destruct (arg_str args k). Qed.
Lemma excluded_bad t args e k : t ∈ list_tools.(listed) → e ∈ shapes → shape_ok t e = true →
  (k ∈ required_of t.(input_schema) ∧ assoc_get k args = None) ∨ mistyped t.(input_schema) args k → bad_argument args e k.
Proof.
  intros Ht He Hs. apply andb_prop in Hs as [[[Hn%bool_decide_eq_true Hr%bool_decide_eq_true]%andb_prop _]%andb_prop Hp].
  intros [[Hk Hm]|(p & ty & v & Hk & Hty & Hv & Hnull & Hbad)].
  - left. rewrite Hr in Hk. split; [done|by apply missing_str].
  - apply assoc_get_elem in Hk. rewrite forallb_forall in Hp. apply list_elem_of_In in Hk. specialize (Hp _ Hk). unfold prop_shape in Hp.
    cbn [fst snd] in Hp. rewrite Hty in Hp. apply orb_prop in Hp as [[Hp%bool_decide_eq_true Hq%bool_decide_eq_true]%andb_prop|Hp].
    + subst ty. right; left. split; [done|by eapply mistyped_opt].
    + apply bool_decide_eq_true in Hp as (E & -> & ->). right; right. split_and!; [done..|by eapply mistyped_u64].
Qed.
Ltac refuse_arg := first [assumption | apply require_of_opt; assumption].
Lemma bad_refused a s user args e k : e ∈ shapes → bad_argument args e k → refused s (execute a s e.1.1 (Some args) (Some user)).
Proof.
  intros He Hb. repeat (apply elem_of_cons in He as [->|He]); [..|by apply elem_of_nil in He]; unfold bad_argument in Hb; cbn [fst snd] in *.
  all: destruct Hb as [[Hk Hb]|[[Hk Hb]|(Hk & -> & Hb)]]; try discriminate Hk;
    repeat (apply elem_of_cons in Hk as [->|Hk]); try by apply elem_of_nil in Hk.
  all: rewrite ?serves_databases, ?serves_tables, ?serves_describe, ?serves_read, ?(proj1 (serves_write _ _ _ _)),
         ?(proj1 (proj2 (serves_write _ _ _ _))), ?(proj2 (proj2 (serves_write _ _ _ _))).
  all: first
    [ apply with_target_refuses; right; rewrite is_ok_arg; refuse_arg
    | apply with_target_refuses; left; intros c; apply arg_bind_refused; refuse_arg
    | apply with_target_refuses; left; intros c; destruct (arg (require_str args "table")); [cbn|done]; apply arg_bind_refused; refuse_arg
    | apply read_refuses; first [left; refuse_arg|right; left; refuse_arg|right; right; left; refuse_arg|right; right; right; refuse_arg]
    | split; [done|]; intros b w; apply submit_refuses; first [left; refuse_arg|right; refuse_arg]
    | split; [done|]; intros b w; apply approval_refuses; refuse_arg ].
Qed.

(** A listed tool is a tool of the dispatch. *)
Lemma listed_known a s t args user : t ∈ list_tools.(listed) →
  execute a s t.(tool_name) (Some args) (Some user) ≠ (ToolReply (Err (unknown_tool t.(tool_name))), [], s).
Proof.
  intros Ht Hx. assert (Hno : ∀ o, o = (ToolReply (Err (unknown_tool (tool_name t))), [] : list TargetCall, s) →
    match o with (ToolReply (Err e), [], _) => starts_with "unknown tool" e = true | _ => False end) by (by intros o ->).
  apply Hno in Hx. clear Hno. destruct (tool_shape t Ht) as (e & He & Hs). apply andb_prop in Hs as [[[Hn%bool_decide_eq_true _]%andb_prop _]%andb_prop _].
  rewrite Hn in Hx. clear Hn Ht t. assert (Harg : ∀ A (r : result string A) e, arg r = Err e → starts_with "unknown tool" e = false) by (by intros A [] x [= <-]).
  assert (Hw : ∀ conn call reply, (∀ e, conn = Err e → starts_with "unknown tool" e = false) →
    (∀ c e, call c = Err e → starts_with "unknown tool" e = false) →
    match with_target whitelist backend a s conn call reply with (ToolReply (Err e), [], _) => starts_with "unknown tool" e = true | _ => False end → False).
  { intros conn call reply Hc Hcall. unfold with_target. destruct conn as [c|x]; cbn; [|by rewrite (Hc x)].
    destruct (ensure_connection_allowed _ _ _ _) eqn:Ea; cbn; [|by rewrite (proj2 (whitelist_error _ _ _ _ Ea))].
    destruct (call c) as [tc|x] eqn:Ec; cbn; [|by rewrite (Hcall c x)]. by repeat case_match. }
  repeat (apply elem_of_cons in He as [->|He]); [..|by apply elem_of_nil in He]; cbn [fst snd] in Hx.
  - rewrite serves_connections in Hx. unfold list_connection_summaries in Hx. by destruct (ans_db a).
  - rewrite serves_databases in Hx. eapply Hw; [..|exact Hx]; [apply Harg|done].
  - rewrite serves_tables in Hx. eapply Hw; [..|exact Hx]; [apply Harg|]. intros c x. destruct (arg (arg_str args "database")) eqn:E; [done|].
    intros [= <-]. by eapply Harg.
  - rewrite serves_describe in Hx. eapply Hw; [..|exact Hx]; [apply Harg|]. intros c x. destruct (arg (require_str args "table")) eqn:E; cbn.
    + destruct (arg (arg_str args "database")) eqn:E'; [done|]. intros [= <-]. by eapply Harg.
    + intros [= <-]. by eapply Harg.
  - rewrite serves_read in Hx. unfold run_read_query in Hx. destruct (arg (require_str args "connection_id")) eqn:E1; cbn in Hx; [|by rewrite (Harg _ _ _ E1) in Hx].
    destruct (arg (require_str args "sql")) eqn:E2; cbn in Hx; [|by rewrite (Harg _ _ _ E2) in Hx].
    destruct (arg (arg_str args "database")) eqn:E3; cbn in Hx; [|by rewrite (Harg _ _ _ E3) in Hx].
    destruct (arg (arg_u64 args "max_rows")) eqn:E4; cbn in Hx; [|by rewrite (Harg _ _ _ E4) in Hx].
    destruct (ensure_connection_allowed _ _ _ _) eqn:Ea; cbn in Hx; [|by rewrite (proj2 (whitelist_error _ _ _ _ Ea)) in Hx].
    destruct (negb (is_read_only _)); [discriminate Hx|]. destruct (negb (_ =? 1)); [discriminate Hx|]. destruct (read_limit _ _); [|done].
    destruct (read_query _ _ _ _ _ _ _ _ _ _ _ _ _) as [[[|[]] ?] ?]; done.
  - by rewrite (proj1 (serves_write a s args user)) in Hx.
  - by rewrite (proj1 (proj2 (serves_write a s args user))) in Hx.
  - by rewrite (proj2 (proj2 (serves_write a s args user))) in Hx.
Qed.

Lemma conforming_accepted a s user t args : t ∈ list_tools.(listed) → conforms t.(input_schema) args = true → ordinary args →
  ¬ argument_error (execute a s t.(tool_name) (Some args) (Some user)).
Proof.
  intros Ht Hc Ho. pose proof (read_rows_prop t Ht) as Hrows. destruct (tool_shape t Ht) as (e & He & Hsh).
  destruct (shape_texts t e Hsh) as (En & Er & Hs). rewrite En in *.
  assert (Hreq : ∀ k, k ∈ e.2 → k ∈ e.1.2 → ∃ s, require_str args k = Ok s).
  { intros k Hk Hk'. destruct (Hs k Hk) as (p & Hp & Hty). rewrite <- Er in Hk'. by eapply conforming_req. }
  assert (Hopt : ∀ k, k ∈ e.2 → ∃ o, arg_str args k = Ok o).
  { intros k Hk. destruct (Hs k Hk) as (p & Hp & Hty). by eapply conforming_opt. }
  clear En Er Hs Ht. repeat (apply elem_of_cons in He as [->|He]); [..|by apply elem_of_nil in He]; cbn [fst snd] in *.
  all: try (destruct (Hreq "connection_id") as [conn Econn]; [by left..|]); try (destruct (Hreq "approval_id") as [id Eid]; [by left..|]).
  - rewrite serves_connections. unfold list_connection_summaries. destruct (ans_db a) as [x|x]; cbn; [tauto|discriminate].
  - rewrite serves_databases. apply with_target_argument; [by rewrite Econn|done].
  - destruct (Hopt "database") as [db Edb]; [by right; left|]. rewrite serves_tables. apply with_target_argument; [by rewrite Econn|intros c; by rewrite Edb].
  - destruct (Hreq "table") as [tb Etb]; [by right; left..|]. destruct (Hopt "database") as [db Edb]; [by right; right; left|].
    rewrite serves_describe. apply with_target_argument; [by rewrite Econn|intros c; by rewrite Etb, Edb].
  - destruct (Hreq "sql") as [sql Esql]; [by right; left..|]. destruct (Hopt "database") as [db Edb]; [by right; right; left|].
    destruct (Hrows eq_refl) as (p & Hp & Hty & Hmin). destruct (conforming_u64 _ _ Hc Ho "max_rows" p Hp Hty Hmin) as [n En].
    rewrite serves_read. intros Hx. unfold run_read_query in Hx. rewrite Econn, Esql, Edb, En in Hx. cbn in Hx.
    destruct (ensure_connection_allowed _ _ _ _) as [|e] eqn:Ea; cbn in Hx;
      [|by rewrite (proj1 (whitelist_error _ _ _ _ Ea)) in Hx]. destruct (negb (is_read_only _)); [discriminate Hx|]. destruct (negb (_ =? 1)); [discriminate Hx|].
    destruct (read_limit _ _); [|exact Hx].
    destruct (read_query _ _ _ _ _ _ _ _ _ _ _ _ _) as [[[|[]] ?] ?]; exact Hx.
  - destruct (Hreq "sql") as [sql Esql]; [by right; left..|]. rewrite (proj1 (serves_write a s args user)). intros (b & w & e & Hstep & Hi).
    cbn in Hstep. unfold submit_write in Hstep. rewrite Econn, Esql in Hstep. cbn in Hstep.
    unfold write_gate_blocked in Hstep. destruct (is_gated _); [by injection Hstep as <-|].
    destruct (ensure_connection_allowed _ _ _ _) as [|e'] eqn:Ea; [done|]. injection Hstep as <-. by rewrite (proj1 (whitelist_error _ _ _ _ Ea)) in Hi.
  - rewrite (proj1 (proj2 (serves_write a s args user))). intros (b & w & e & Hstep & Hi). cbn in Hstep. unfold get_approval in Hstep. rewrite Eid in Hstep. cbn in Hstep.
    destruct (load_own_approval b w user id) as [row|e'] eqn:El; [done|]. injection Hstep as <-. by rewrite (load_error _ _ _ _ _ El) in Hi.
  - rewrite (proj2 (proj2 (serves_write a s args user))). intros (b & w & e & Hstep & Hi). cbn in Hstep. unfold execute_write in Hstep. rewrite Eid in Hstep.
    unfold write_gate_blocked in Hstep. destruct (is_gated _); [by injection Hstep as <-|].
    destruct (load_own_approval b w user id) as [row|e'] eqn:El; [case_decide; [done|by injection Hstep as <-]|].
    injection Hstep as <-. by rewrite (load_error _ _ _ _ _ El) in Hi.
Qed.

(** C40.  The tools a client is told of are the tools the server has, under names of their
    own: a call by any other name, and no call by one of these, is answered as to a tool
    the server does not know.  A call that leaves out an argument its schema requires, or
    gives one of the schema's arguments a value of another type (other than null, which
    counts as left out), is refused with nothing done; and one that conforms to the
    schema, with no blank text and no number beyond 64 bits, is never refused for its
    arguments. *)
Theorem tools_as_advertised a s user :
  NoDup (tool_name <$> list_tools.(listed)) ∧
  (∀ name args, execute a s name (Some args) (Some user) = (ToolReply (Err (unknown_tool name)), [], s) ↔
     name ∉ tool_name <$> list_tools.(listed)) ∧
  (∀ t args k, t ∈ list_tools.(listed) →
     (k ∈ required_of t.(input_schema) ∧ assoc_get k args = None) ∨ mistyped t.(input_schema) args k →
     refused s (execute a s t.(tool_name) (Some args) (Some user))) ∧
  (∀ t args, t ∈ list_tools.(listed) → conforms t.(input_schema) args = true → ordinary args →
     ¬ argument_error (execute a s t.(tool_name) (Some args) (Some user))).
Proof.
  split; [apply (bool_decide_unpack _); vm_compute; exact I|]. split_and!.
  - intros name args. split.
    + intros Hx Hn. apply list_elem_of_fmap in Hn as (t & -> & Ht). by apply (listed_known a s t args user) in Ht.
    + intros Hn. unfold McpTools.execute. assert (Hne : ∀ x, x ∈ tool_name <$> list_tools.(listed) → name ≠ x) by (intros x Hx ->; done).
      repeat (rewrite decide_False by (apply Hne; apply (bool_decide_unpack _); vm_compute; exact I)). done.
  - intros t args k Ht Hk. destruct (tool_shape t Ht) as (e & He & Hs). pose proof (excluded_bad t args e k Ht He Hs Hk) as Hb.
    apply andb_prop in Hs as [[[Hn%bool_decide_eq_true _]%andb_prop _]%andb_prop _]. rewrite Hn. by eapply bad_refused.
  - apply conforming_accepted.
Qed.

Lemma hint_shape t : t ∈ list_tools.(listed) →
  t.(annotations).(read_only_hint) = Some true ∧ tool_name t ∉ [TOOL_SUBMIT_WRITE; TOOL_EXECUTE_WRITE] ∨
  t.(annotations).(read_only_hint) = Some false ∧ tool_name t ∈ [TOOL_SUBMIT_WRITE; TOOL_EXECUTE_WRITE].
Proof.
  intros Ht. assert (He : bool_decide (t.(annotations).(read_only_hint) = Some (negb (bool_decide (tool_name t ∈ [TOOL_SUBMIT_WRITE; TOOL_EXECUTE_WRITE])))) = true).
  { revert t Ht. apply Forall_forall. vm_compute. repeat constructor. }
  apply bool_decide_eq_true in He. rewrite He. case_bool_decide; [by right|by left].
Qed.
(** The same store under another license. *)
Definition relicensed (ent : EntitlementState) (s : Store) : Store :=
  with_world {| Approvals.approvals := s.(st_world).(approvals); database_connections := s.(st_world).(database_connections);
    Approvals.entitlement := ent; Approvals.audit := s.(st_world).(Approvals.audit); executions := s.(st_world).(executions) |} s.
(** Turns in which nobody else changes the store. *)
Definition undisturbed (turns : list Turn) : Prop := Forall (λ t, ∀ s, t.(t_others) s = s) turns.

Lemma with_target_relicensed ent a s conn call reply : with_target whitelist backend a (relicensed ent s) conn call reply =
  ((with_target whitelist backend a s conn call reply).1, relicensed ent (with_target whitelist backend a s conn call reply).2).
Proof. unfold with_target. cbn. change (ensure_connection_allowed whitelist a (st_world (relicensed ent s))) with (ensure_connection_allowed whitelist a (st_world s)). by destruct (_ ≫= _) as [[]|]. Qed.
Lemma with_target_store a s conn call reply : (with_target whitelist backend a s conn call reply).2 = s.
Proof. unfold with_target. by destruct (_ ≫= _) as [[]|]. Qed.
Lemma read_query_relicensed ent a s args :
  let o := run_read_query to_lowercase to_uppercase parse_mysql parse_pg parse_generic whitelist limits reads a s args in
  run_read_query to_lowercase to_uppercase parse_mysql parse_pg parse_generic whitelist limits reads a (relicensed ent s) args = (o.1, relicensed ent o.2).
Proof.
  unfold run_read_query. change (ensure_connection_allowed whitelist a (st_world (relicensed ent s))) with (ensure_connection_allowed whitelist a (st_world s)).
  destruct (_ ≫= _) as [[[[conn sql] db] n]|]; [|done]. destruct (negb (is_read_only _)); [done|]. destruct (negb _); [done|].
  destruct (read_limit _ _); [|done]. change (st_recorder (relicensed ent s)) with (st_recorder s).
  by destruct (read_query _ _ _ _ _ _ _ _ _ _ _ _ _) as [[r c] rec].
Qed.

(** A tool that is none of the two writing ones: it runs here, or is the poll of an approval. *)
Lemma read_tool ent a s t args user : t ∈ list_tools.(listed) → tool_name t ∉ [TOOL_SUBMIT_WRITE; TOOL_EXECUTE_WRITE] →
  let o := execute a s t.(tool_name) (Some args) (Some user) in
  (o = (ToolStart (GetApproval user args), [], s) ∨ ∃ r, o.1.1 = ToolReply r ∨ o.1.1 = ToolPanic) ∧
  (t.(tool_name) ≠ TOOL_READ_QUERY → o.2 = s) ∧
  execute a (relicensed ent s) t.(tool_name) (Some args) (Some user) = (o.1, relicensed ent o.2).
Proof.
  intros Ht Hn. destruct (tool_shape t Ht) as (e & He & Hs). destruct (shape_texts t e Hs) as (En & _). rewrite En in *. clear En Hs Ht.
  assert (Hw : ∀ conn call reply, ∃ r, (with_target whitelist backend a s conn call reply).1.1 = ToolReply r).
  { intros conn call reply. unfold with_target. destruct (_ ≫= _) as [[]|]; by eexists. }
  repeat (apply elem_of_cons in He as [->|He]); [..|by apply elem_of_nil in He]; cbn [fst snd] in Hn |- *.
  - split; [right; eexists; by left|done].
  - rewrite !serves_databases, with_target_relicensed. split_and!; [|intros _; apply with_target_store|done]. destruct (Hw (conn_of args) (λ c, Ok (ListDatabases c)) (λ c j, JObj [("connection_id", JStr c); ("databases", j)])) as [r Hr]. eauto.
  - rewrite !serves_tables, with_target_relicensed. split_and!; [|intros _; apply with_target_store|done].
    edestruct Hw as [r Hr]. right. exists r. left. exact Hr.
  - rewrite !serves_describe, with_target_relicensed. split_and!; [|intros _; apply with_target_store|done].
    edestruct Hw as [r Hr]. right. exists r. left. exact Hr.
  - rewrite !serves_read. split_and!; [|done|apply read_query_relicensed]. right. unfold run_read_query.
    destruct (_ ≫= _) as [[[[conn sql] db] n]|e]; [|by exists (Err e); left]. destruct (negb (is_read_only _)); [eexists; by left|].
    destruct (negb _); [eexists; by left|]. destruct (read_limit _ _); [|by exists (Err ""); right].
    destruct (read_query _ _ _ _ _ _ _ _ _ _ _ _ _) as [[r c] rec]. eexists. by left.
  - exfalso. apply Hn. by left.
  - rewrite !(proj1 (proj2 (serves_write _ _ _ _))). split; [by left|done].
  - exfalso. apply Hn. by right; left.
Qed.
(** The poll of an approval: one step that leaves everything as it was, under any license. *)
Lemma poll_finishes turns s user args : let '(r, did, s') := finish turns s (GetApproval user args) in
  Forall (λ o, o.(os_after) = o.(os_before)) did ∧
  (undisturbed turns → s' = s ∧ ∀ ent, ∃ did', finish turns (relicensed ent s) (GetApproval user args) = (r, did', relicensed ent s)).
Proof.
  destruct turns as [|t turns]; cbn.
  - split; [done|]. intros _. split; [done|]. intros ent. by eexists.
  - split; [by repeat constructor|]. intros [Ho _]%Forall_cons. rewrite Ho. split; [by destruct s|]. intros ent. rewrite Ho. by eexists.
Qed.
Lemma gated_finishes b rest s user args p r did s' : is_gated (b.(t_others) s).(st_world).(Approvals.entitlement) = true →
  p = SubmitWrite user args ∨ p = ExecuteWrite user args → finish (b :: rest) s p = (r, did, s') →
  ∃ e, r = Some (Err e) ∧ starts_with "ENTITLEMENT_GATED" e = true ∧ Forall (λ o, o.(os_after) = o.(os_before)) did ∧
    s'.(st_world) = (b.(t_others) s).(st_world).
Proof.
  intros Hg [->| ->]; cbn; unfold submit_write, execute_write, write_gate_blocked; rewrite Hg; cbn; intros [= <- <- <-];
    (eexists; split_and!; [done..|by repeat constructor|done]).
Qed.
(** A call without arguments is one with none of them. *)
Lemma dispatch_args a turns logged s name args user : dispatch a turns logged s name args (Some user) = dispatch a turns logged s name (Some (default [] args)) (Some user).
Proof. by destruct args. Qed.
Lemma log_relicensed ent logged user name r s : log_call logged user name r (relicensed ent s) = relicensed ent (log_call logged user name r s).
Proof. done. Qed.

(** C27.  The hints are true.  A tool said to be read-only leaves the tables as they are in
    each of its own steps, whatever others do meanwhile, and sends a target nothing but
    reads of its catalog and statements classified read-only; with nobody else at work it
    changes nothing of the server but its row in the audit and, for a query, the sample of
    a slow one, and it does and answers the same under any license.  Each of the others is
    refused with ENTITLEMENT_GATED while the license is gated, with nothing done. *)
Theorem hints_are_truthful a turns logged s user t args : (1 ≤ limits.(max_rows_limit))%Z → t ∈ list_tools.(listed) →
  let '(r, calls, did, s') := dispatch a turns logged s t.(tool_name) (Some args) (Some user) in
  if bool_decide (t.(annotations).(read_only_hint) = Some true)
  then Forall (λ o, o.(os_after) = o.(os_before)) did ∧
       Forall (λ c, match c with ReadQuery _ _ sql _ _ => is_read_only (Risk.classify to_lowercase parse_mysql parse_pg parse_generic sql) = true
                    | _ => True end) calls ∧
       (undisturbed turns → s'.(st_world) = s.(st_world) ∧
          s'.(st_mcp) = match r with Some r => log_mcp_event logged (Some user) ToolCall (Some t.(tool_name)) (short_reason r) s.(st_mcp) | None => s.(st_mcp) end ∧
          (t.(tool_name) ≠ TOOL_READ_QUERY → s'.(st_captures) = s.(st_captures) ∧ s'.(st_recorder) = s.(st_recorder)) ∧
          ∀ ent, ∃ did', dispatch a turns logged (relicensed ent s) t.(tool_name) (Some args) (Some user) = (r, calls, did', relicensed ent s'))
  else ∀ b rest, turns = b :: rest → is_gated (b.(t_others) s).(st_world).(Approvals.entitlement) = true →
       ∃ e, r = Some (Err e) ∧ starts_with "ENTITLEMENT_GATED" e = true ∧ calls = [] ∧ Forall (λ o, o.(os_after) = o.(os_before)) did ∧
         s'.(st_world) = (b.(t_others) s).(st_world).
Proof.
  intros Hm Ht. rename args into xs. destruct (hint_shape t Ht) as [[Hh Hn]|[Hh Hn]]; rewrite Hh.
  - rewrite bool_decide_eq_true_2 by done.
    pose proof (execute_gated to_lowercase to_uppercase parse_mysql parse_pg parse_generic whitelist limits backend reads default_database a s (tool_name t) (Some xs) (Some user) Hm) as Hg.
    pose proof (λ ent, read_tool ent a s t xs user Ht Hn) as Hr. unfold McpTools.dispatch in *.
    destruct (execute a s (tool_name t) (Some xs) (Some user)) as [[[r|p|] calls] s1] eqn:Eo; [| |done]; cbn [fst snd] in Hr.
    + destruct Hg as [(Hw & Hmcp & Hc) _]. split; [constructor|]. split.
      { destruct calls as [|c [|]]; [constructor| |done]. constructor; [|constructor]. destruct c; try done. by destruct Hc as (_ & ? & _). }
      intros _. cbn [log_call with_mcp st_world st_mcp st_captures st_recorder]. rewrite Hw, Hmcp. split_and!; [done..|intros Hne; by rewrite (proj1 (proj2 (Hr (Trial 0))) Hne)|].
      intros ent. exists []. rewrite (proj2 (proj2 (Hr ent))). by rewrite log_relicensed.
    + destruct Hg as (-> & -> & _). destruct (proj1 (Hr (Trial 0))) as [[= ->]|(r & [|])]; [|done..].
      pose proof (poll_finishes turns s user xs) as Hp. destruct (finish turns s _) as [[r did] s']. destruct Hp as [Hd Hu].
      split_and!; [done|constructor|]. intros Hq. destruct (Hu Hq) as [-> He]. destruct r as [r|]; cbn [log_call with_mcp st_world st_mcp st_captures st_recorder]; (split_and!; [done..|]);
        intros ent; rewrite (proj2 (proj2 (Hr ent))); destruct (He ent) as [did' ->]; eexists; by rewrite ?log_relicensed.
  - rewrite bool_decide_eq_false_2 by done. unfold McpTools.dispatch.
    destruct (serves_write a s xs user) as (E1 & _ & E3).
    apply elem_of_cons in Hn as [->|[->|Hn%elem_of_nil]%elem_of_cons]; [rewrite E1|rewrite E3|done].
    + destruct (finish turns s _) as [[r did] s'] eqn:Ef. intros b rest -> Hg. apply (gated_finishes b rest s user xs) in Ef as (e & -> & He & Hd & Hw); [|done|by left].
      exists e. by split_and!.
    + destruct (finish turns s _) as [[r did] s'] eqn:Ef. intros b rest -> Hg. apply (gated_finishes b rest s user xs) in Ef as (e & -> & He & Hd & Hw); [|done|by right].
      exists e. by split_and!.
Qed.
End Served.

(** ** A call, from its header on *)

Section Endpoint.
Context {Pr : Printer} `{Accounts.Jwt} (sha256_hex : string → string) (cfg : ServerConfig.Config).
Context (unicode_alphanumeric : SqlSplit.char → bool) (unicode_upper : SqlSplit.char → list SqlSplit.char).
Context (to_lowercase to_lowercase' to_uppercase : string → string).
Context (parse_mysql parse_pg parse_generic : string → option (list Statement)).
Context (backend : TargetCall → result (string * string) json) (reads : Reads) (default_database : string → option string).
Notation guard := (McpTokens.guard sha256_hex (accounts_config cfg) cfg.(mcp_rate_limit_per_minute)).
Notation history := (McpTokens.run sha256_hex (accounts_config cfg) cfg.(mcp_rate_limit_per_minute)).
Notation whitelist := cfg.(mcp_allowed_connections).
(** [router]: the guard is the layer around the service, whose handler has the limits and
    the whitelist of the configuration; [call_tool] passes on the identity of the request. *)
Definition call_tool (b : Approvals.Answer) (turns : list Turn) (logged : bool) (s : Store) (tool : string)
    (args : option (list (string * json))) (c : Accounts.Claims) : option (result string json) * list TargetCall * list OwnStep * Store :=
  dispatch unicode_alphanumeric unicode_upper to_lowercase to_uppercase parse_mysql parse_pg parse_generic whitelist (tool_limits cfg)
    backend reads default_database b turns logged s tool args (Some c.(Accounts.sub)).
Definition router (a : McpTokens.Answer) (b : Approvals.Answer) (turns : list Turn) (logged : bool) (header : option string) (tool : string)
    (args : option (list (string * json))) (s : Store) : option (option (result string json) * list TargetCall * list OwnStep) * Store :=
  match guard a header false s.(st_mcp) with
  | (Forwarded c, m) => let '(r, calls, did, s') := call_tool b turns logged (with_mcp m s) tool args c in (Some (r, calls, did), s')
  | (_, m) => (None, with_mcp m s)
  end.

End Endpoint.

(** ** A call of an agent *)

#[local] Existing Instances tlv_printer Accounts.ex_jwt.
Definition ex_tool_args : list (string * json) := [("connection_id", JStr "a"); ("sql", JStr "SELECT 1"); ("max_rows", JInt 99999)].
Definition ex_history : list (McpTokens.Answer * Op) := [(ex_a "t1" "aa" 0, Create (Some "Bearer s1|u1|0|900|x") (Some "laptop"))].
Notation ex_mcp l := (McpTokens.run ex_hash (accounts_config ex_config) ex_config.(mcp_rate_limit_per_minute) l (McpTokens.initial {["u1"]})).
Definition ex_store (m : McpTokens.State) (w : World) : Store := {| st_world := w; st_mcp := m; st_recorder := ex_rec; st_captures := [] |}.
Definition ex_turns : list Turn := replicate 5 {| t_others := λ s, s; t_ans := ok_at "t" "u" |}.
Notation ex_router header tool args w := (router ex_hash ex_config (λ _, false) (λ c, [c]) to_ascii_lowercase (λ s, s) (λ _, None) ex_parse_select (λ _, None)
  ex_backend ex_engine (λ _, None) (ex_a "" "" (70 * 10 ^ 9)) (ok_at "t" "u") ex_turns true header tool (Some args) (ex_store (ex_mcp ex_history).2 w)).
Definition ex_row (tool : string) : McpTokens.AuditRow := audit_row (Some "u1") ToolCall (Some tool) None.
(** An approval as a version before the REST endpoint ran approvals at once may have left it. *)
Definition ex_approved : Approval :=
  {| ddl_sql := "DROP TABLE c"; target_db_id := "a"; submitter_id := "u1"; reviewer_id := Some "u2"; status := "approved";
     exec_status := "pending"; Approvals.created_at := "t0"; resolved_at := Some "t1"; executed_at := None; exec_error := None |}.
Definition ex_writes : World := Build_World {["p" := ex_approved]} {["a" := ex_target]} (Entitlement.Trial 0) [] [].
Notation ex_summary o := ((λ d : option (result string json) * list TargetCall * list OwnStep, (d.1.1, d.1.2, length d.2)) <$> o).
(** What the approved write of that call did: the statement is on its target. *)
Example approved_write_runs :
  (λ e, (e.(e_id), e.(e_by), e.(e_target), e.(e_via), e.(e_sent))) <$>
    (ex_router (Some "Bearer dbm_mcp_aa") TOOL_EXECUTE_WRITE [("approval_id", JStr "p")] ex_writes).2.(st_world).(executions) =
  [("p", "u1", "a", ViaMcp, [SqlSplit.chars_of "DROP TABLE c"])].
Proof. by vm_compute. Qed.
Notation ex_serve w name args := (execute to_ascii_lowercase (λ s, s) (λ _, None) ex_parse_select (λ _, None) [] (tool_limits ex_config) ex_backend ex_engine
  (λ _, None) (ok_at "t" "u") w name args (Some "u")).
Definition ex_served : Store := ex_store (McpTokens.initial {["u1"]}) ex_reads.
Lemma ex_tool_listed name : existsb (λ t, bool_decide (tool_name t = name)) list_tools.(listed) = true →
  ∃ t, t ∈ list_tools.(listed) ∧ tool_name t = name.
Proof. intros (t & Ht & En%bool_decide_eq_true)%existsb_exists. exists t. by split; [apply list_elem_of_In|]. Qed.
Lemma tools_as_advertised_witness :
  ex_serve ex_served "drop_everything" (Some []) = (ToolReply (Err "unknown tool 'drop_everything'"), [], ex_served) ∧
  ex_serve ex_served TOOL_LIST_TABLES (Some []) = (ToolReply (Err "INVALID_ARGUMENT: missing required argument 'connection_id'"), [], ex_served) ∧
  match ex_serve ex_served TOOL_READ_QUERY (Some [("connection_id", JStr "a"); ("sql", JStr "SELECT 1"); ("max_rows", JStr "9")]) with
  | (ToolReply (Err e), [], s) => starts_with "INVALID_ARGUMENT: argument 'max_rows' must be an integer" e = true
  | _ => False
  end.
Proof.
  destruct (tools_as_advertised (λ _, false) (λ c, [c]) to_ascii_lowercase (λ s, s) (λ _, None) ex_parse_select (λ _, None) [] (tool_limits ex_config) ex_backend ex_engine
    (λ _, None) (ok_at "t" "u") ex_served "u") as (_ & Hu & _).
  split; [|split; by vm_compute]. apply Hu. apply (bool_decide_unpack _). vm_compute. exact I.
Defined.
(** While the license is gated, a query still runs and a change is refused. *)
Definition ex_gated : Store := relicensed (Entitlement.Gated Entitlement.TrialExpired) ex_served.
Notation ex_dispatch st nm := (dispatch (λ _, false) (λ c, [c]) to_ascii_lowercase (λ s, s) (λ _, None) ex_parse_select (λ _, None) [] (tool_limits ex_config)
  ex_backend ex_engine (λ _, None) (ok_at "t" "u") ex_turns true st nm (Some ex_tool_args) (Some "u")).
Lemma hints_are_truthful_witness :
  (1 ≤ (tool_limits ex_config).(max_rows_limit))%Z ∧
  (ex_dispatch ex_gated TOOL_READ_QUERY).1 = (Some (Ok (read_reply ex_result 10000 5)), [ReadQuery "a" None "SELECT 1" 10000 30], []) ∧
  ∃ e, (ex_dispatch ex_gated TOOL_SUBMIT_WRITE).1.1 = (Some (Err e), []) ∧ starts_with "ENTITLEMENT_GATED" e = true.
Proof.
  assert (Hm : (1 ≤ (tool_limits ex_config).(max_rows_limit))%Z) by (cbn; lia). split; [exact Hm|]. split; [by vm_compute|].
  destruct (ex_tool_listed TOOL_SUBMIT_WRITE eq_refl) as (t & Ht & En).
  pose proof (hints_are_truthful (λ _, false) (λ c, [c]) to_ascii_lowercase (λ s, s) (λ _, None) ex_parse_select (λ _, None) [] (tool_limits ex_config) ex_backend ex_engine
    (λ _, None) (ok_at "t" "u") ex_turns true ex_gated "u" t ex_tool_args Hm Ht) as Hh.
  destruct (hint_shape t Ht) as [[_ Hn]|[Er _]]; [exfalso; apply Hn; rewrite En; by left|].
  rewrite Er, bool_decide_eq_false_2, En in Hh by done. revert Hh. destruct (dispatch _ _ _ _ _ _ _ _ _ _ _ _ _ _ _ _ _ _ _) as [[[r calls] did] s'].
  intros Hh. destruct (Hh _ _ eq_refl eq_refl) as (e & -> & He & -> & _). by exists e.
Defined.
(** What the schema admits and the code refuses, and what it excludes and the code takes. *)
Example blank_text_conforms : ∃ t, t ∈ list_tools.(listed) ∧ tool_name t = TOOL_LIST_DATABASES ∧
  conforms t.(input_schema) [("connection_id", JStr " ")] = true ∧
  ex_serve ex_served TOOL_LIST_DATABASES (Some [("connection_id", JStr " ")]) =
    (ToolReply (Err "INVALID_ARGUMENT: missing required argument 'connection_id'"), [], ex_served).
Proof.
  eexists. split; [apply elem_of_cons; right; apply elem_of_cons; left; reflexivity|]. split_and!; by vm_compute.
Qed.
Example zero_rows_run :
  (ex_serve ex_served TOOL_READ_QUERY (Some [("connection_id", JStr "a"); ("sql", JStr "SELECT 1"); ("max_rows", JInt 0); ("extra", JNull)])).1 =
    (ToolReply (Ok (read_reply ex_result 1 5)), [ReadQuery "a" None "SELECT 1" 1 30]).
Proof. by vm_compute. Qed.
