(* ===== verification/Boot.v ===== *)
(** * Starting the server (src/main.rs, core/db/pool.rs)

    The two start-ups, as programs that may stop at each of their steps and leave a trace
    of what they set going: the production one, which reads everything from the
    environment, and the embedded one, a child of the desktop client.  What they call is
    that of the other files: the configuration and the credential key, the migration of
    the stored passwords, the entitlement, the states of the routes, the embedded user.
    The database engine, the network and the generator are arguments. *)

From S2P Require Import Prelude RustStr Clock Json License Entitlement Interleave Credential Server.
From S2P Require ServerConfig Accounts MongoLeg.
From stdpp Require Import strings gmap pretty.

(** ** Programs *)

Inductive Engine := DriftScheduler | DataSyncScheduler | HealthScheduler | WeeklyReports | NativeCollector | Retention (days : Z).
#[global] Instance Engine_eq_dec : EqDecision Engine.
Proof. solve_decision. Defined.
Inductive Event :=
| Exposed (host : string) | PoolOpened (url : string) | Migrated | Rebuilt | CredentialsMigrated (n : nat) | Spawned (e : Engine)
| Listening (addr : string) (app : App) | Handshake (line : json) | Stopped (e : Engine).
Record St := { world : World; passwords : gmap string string; accounts : Accounts.Db; disk : gmap string string; trace : list Event }.
Inductive Stop := Fails (e : string) | Panics.
Definition M (A : Type) : Type := St → result Stop A * St.
#[global] Instance boot_ret : MRet M := λ A a s, (Ok a, s).
#[global] Instance boot_bind : MBind M := λ A B f m s, match m s with (Ok a, s') => f a s' | (Err e, s') => (Err e, s') end.
Definition of_result {A} (r : result string A) : M A := λ s, (match r with Ok a => Ok a | Err e => Err (Fails e) end, s).
Definition stop {A} (e : string) : M A := of_result (Err e).
Definition emit (l : list Event) : M unit := λ s,
  (Ok tt, {| world := s.(world); passwords := s.(passwords); accounts := s.(accounts); disk := s.(disk); trace := s.(trace) ++ l |}).
Definition on_world {A} (f : World → option (result string A * World)) : M A := λ s,
  match f s.(world) with
  | None => (Err Panics, s)
  | Some (r, w) => (match r with Ok a => Ok a | Err e => Err (Fails e) end,
                    {| world := w; passwords := s.(passwords); accounts := s.(accounts); disk := s.(disk); trace := s.(trace) |})
  end.
Definition on_passwords {A} (f : gmap string string → result string A * gmap string string) : M A := λ s, let '(r, t) := f s.(passwords) in
  (match r with Ok a => Ok a | Err e => Err (Fails e) end,
   {| world := s.(world); passwords := t; accounts := s.(accounts); disk := s.(disk); trace := s.(trace) |}).
Definition on_accounts {A} (f : Accounts.Db → result string A * Accounts.Db) : M A := λ s, let '(r, d) := f s.(accounts) in
  (match r with Ok a => Ok a | Err e => Err (Fails e) end,
   {| world := s.(world); passwords := s.(passwords); accounts := d; disk := s.(disk); trace := s.(trace) |}).
Definition on_disk {A} (f : gmap string string → result string A * gmap string string) : M A := λ s, let '(r, d) := f s.(disk) in
  (match r with Ok a => Ok a | Err e => Err (Fails e) end,
   {| world := s.(world); passwords := s.(passwords); accounts := s.(accounts); disk := d; trace := s.(trace) |}).

(** ** The credential key of an embedded server *)

(** Whether the file is there but cannot be read, and whether it can be written. *)
Record KeyIo := { unreadable : bool; unwritable : bool }.
Definition fresh_key_and_maybe_write (io : KeyIo) (random key_path : string) (d : gmap string string) : string * gmap string string :=
  (random, if io.(unwritable) then d else <[key_path := random]> d).
Definition load_or_create_credential_key (io : KeyIo) (random data_dir : string) (d : gmap string string) : string * gmap string string :=
  let key_path := data_dir +:+ "/credential.key" in
  match d !! key_path with
  | None => fresh_key_and_maybe_write io random key_path d
  | Some bytes => if io.(unreadable) then (random, d)
                  else if decide (String.length bytes = 32) then (bytes, d) else fresh_key_and_maybe_write io random key_path d
  end.

(** ** Rebuilding an embedded database *)

Section Rebuild.
(** The errors of the attempts at a rename, from 0; [left_] is what remains of the thirty. *)
Context (rename_fails : string → nat → option string).
Fixpoint rename_loop (src dst : string) (attempts left_ : nat) (d : gmap string string) : result string unit * gmap string string * nat :=
  match d !! src with
  | None => (Ok tt, d, 0)
  | Some c =>
      match rename_fails src attempts with
      | None => (Ok tt, <[dst := c]> (delete src d), 0)
      | Some e =>
          match left_ with
          | O => (Err e, d, 0)
          | S k => let '(r, d', sleeps) := rename_loop src dst (S attempts) k d in (r, d', S sleeps)
          end
      end
  end.
Definition backup_path (stamp p : string) : string := p +:+ ".bak-" +:+ stamp.
Definition db_files (db_path : string) : list string := [db_path; db_path +:+ "-wal"; db_path +:+ "-shm"].
Fixpoint backup_all (stamp : string) (paths : list string) (d : gmap string string) : result string unit * gmap string string :=
  match paths with
  | [] => (Ok tt, d)
  | p :: rest => match rename_loop p (backup_path stamp p) 0 29 d with
                 | (Ok _, d', _) => backup_all stamp rest d'
                 | (Err e, d', _) => (Err e, d')
                 end
  end.
Definition backup_db_files (db_path stamp : string) : gmap string string → result string unit * gmap string string :=
  backup_all stamp (db_files db_path).

(** [opens] and [migrates] are the answers of the first and second time, [engine] what
    the database engine does to the files at its calls, from 0. *)
Context (opens migrates : nat → result string unit) (engine : nat → gmap string string → gmap string string).
Definition init_pool (n : nat) (url : string) : M unit :=
  _ ← on_disk (λ d, (opens n, engine (2 * n) d));
  emit [PoolOpened url].
Definition run_migrations (n : nat) : M (result string unit) :=
  _ ← on_disk (λ d, (Ok tt, engine (2 * n + 1) d));
  match migrates n with Ok _ => _ ← emit [Migrated]; mret (Ok tt) | Err e => mret (Err e) end.
Definition init_pool_with_embedded_rebuild (url db_path stamp : string) : M bool :=
  _ ← init_pool 0 url;
  r ← run_migrations 0;
  match r with
  | Ok _ => mret false
  | Err _ =>
      _ ← on_disk (backup_db_files db_path stamp);
      _ ← init_pool 1 url;
      r2 ← run_migrations 1;
      _ ← of_result r2;
      _ ← emit [Rebuilt]; mret true
  end.
End Rebuild.

(** ** The start-ups *)

Section Startup.
Context `{C : TimestampCodec} `{Cipher} `{Accounts.Jwt} {Signature VerifyingKey : Type}.
Context (hex_decode : string → option string) (signature_from_slice : string → option Signature).
Context (verify : VerifyingKey → string → Signature → bool) (verifying_key_from_bytes : string → option VerifyingKey).
Context (override : option string) (license_path : path) (to_lowercase : string → string).

(** What a start meets outside: the environment, the generator, the answers of the
    database and the network, and how serving ends. *)
Inductive Served := ServerEnds (r : result string unit) | Interrupted | ParentGone.
Record Outside := {
  env : ServerConfig.Env; hex_bytes : string → result string (list Z); random_key : list Z; nonces : nat → string; updates : nat → bool;
  scan : result string (list (string * string)); opens : nat → result string unit; migrates : nat → result string unit;
  answer : Server.Answer; bind : string → result string Z; served : Served }.
Definition key_of (bytes : list Z) : string := foldr (λ b s, String (ascii_of_N (Z.to_N b)) s) "" bytes.
Definition served_result (r : Served) : result string unit := match r with ServerEnds r => r | Interrupted | ParentGone => Ok tt end.
Definition resolve_entitlement (o : Outside) : M EntitlementState := on_world (λ w,
  '(r, t) ← restart hex_decode signature_from_slice verify verifying_key_from_bytes override license_path o.(answer) w;
  Some (r, with_instances t w)).
Definition get_install_uuid (o : Outside) : M string := on_world (λ w,
  let '(r, t) := get_or_create_instance o.(answer).(a_uuid) o.(answer).(a_now_s) w.(instances) in
  Some (match r with Ok row => Ok row.(install_uuid) | Err e => Err e end, with_instances t w)).
Definition build_app (embedded : bool) (o : Outside) (cfg : ServerConfig.Config) (ent : EntitlementState) (uuid : string) : M App := on_world (λ w,
  let '(app, w') := build_app_with_config embedded o.(env) cfg ent uuid w in Some (Ok app, w')).
(** One more state, for the schedulers. *)
Definition scheduler_state (embedded : bool) (o : Outside) (cfg : ServerConfig.Config) (ent : EntitlementState) (uuid : string) : M AppState := on_world (λ w,
  let '(s, w') := new_state embedded o.(env) cfg ent uuid w in Some (Ok s, w')).

Definition engines : list Engine := [DriftScheduler; DataSyncScheduler; HealthScheduler].
Definition run_normal (o : Outside) : M unit :=
  cfg ← of_result (ServerConfig.from_env to_lowercase o.(env));
  _ ← emit (if ServerConfig.registration_exposure_warn cfg.(ServerConfig.registration_enabled) cfg.(ServerConfig.host) (ServerConfig.dev_mode o.(env))
            then [Exposed cfg.(ServerConfig.host)] else []);
  bytes ← of_result (ServerConfig.load_credential_key o.(hex_bytes) o.(random_key) o.(env));
  _ ← of_result (o.(opens) 0);
  _ ← emit [PoolOpened cfg.(ServerConfig.database_url)];
  _ ← of_result (o.(migrates) 0);
  _ ← emit [Migrated];
  migrated ← on_passwords (migrate_legacy_credentials (key_of bytes) o.(nonces) o.(updates) o.(scan));
  _ ← emit (if decide (0 < migrated) then [CredentialsMigrated migrated] else []);
  ent ← resolve_entitlement o;
  uuid ← get_install_uuid o;
  app ← build_app false o cfg ent uuid;
  scheds ← (if is_gated ent then mret []
            else cfg2 ← of_result (ServerConfig.from_env to_lowercase o.(env));
                 _ ← scheduler_state false o cfg2 ent uuid;
                 _ ← emit (Spawned <$> engines); mret engines);
  _ ← emit (if is_gated ent then [] else [Spawned WeeklyReports; Spawned NativeCollector]);
  let addr := cfg.(ServerConfig.host) +:+ ":" +:+ decimal (Z.to_N cfg.(ServerConfig.port)) in
  _ ← emit [Spawned (Retention cfg.(ServerConfig.slow_query_retention_days))];
  _ ← of_result (o.(bind) addr);
  _ ← emit [Listening addr app];
  _ ← emit (Stopped <$> scheds);
  of_result (served_result o.(served)).

(** *** Embedded *)

Context (stamp_rfc : Z → string) (hash_password : string → string → result string string) (verify_password : string → string → result string bool).
Record Embedded := {
  outside : Outside; data_dir_override : option string; temp_dir : string; pid : N; mkdir : result string unit; jwt_random : list Z;
  refresh_random : list Z; key_io : KeyIo; rename_fails : string → nat → option string; engine : nat → gmap string string → gmap string string;
  epoch : string; throwaway : string; user_answers : list Accounts.Answer }.
Definition embedded_license (o : Outside) (uuid : string) : LicenseV2 :=
  {| email := "embedded@local"; expires_at := None; instance_id := uuid; issued_at := o.(answer).(a_now_s); license_type := "embedded" |}.
(** [n] random bytes in hexadecimal. *)
Definition random_hex_secret (bytes : list Z) : string := foldr (λ b s, MongoLeg.hex2 b +:+ s) "" bytes.
Definition data_dir (e : Embedded) : string := default (e.(temp_dir) +:+ "/dbmaster-embedded-" +:+ decimal e.(pid)) e.(data_dir_override).
Definition embedded_db (e : Embedded) : string := data_dir e +:+ "/dbmaster-embedded.db".
Definition embedded_cfg (e : Embedded) : ServerConfig.Config :=
  ServerConfig.embedded_config (random_hex_secret e.(jwt_random)) (random_hex_secret e.(refresh_random)) (embedded_db e).
Definition ready_handshake (port : Z) (access refresh uuid : string) : json :=
  JObj [("type", JStr "dbmaster_embedded_ready"); ("port", JInt port); ("access_token", JStr access); ("refresh_token", JStr refresh);
        ("install_uuid", JStr uuid); ("version", JStr CARGO_PKG_VERSION)].
Definition embedded_user (e : Embedded) (cfg : ServerConfig.Config) : M (string * string * string) := on_accounts (λ d,
  match run_alone (Accounts.exec to_lowercase stamp_rfc hash_password verify_password (ServerConfig.accounts_config cfg)) e.(user_answers)
          (Accounts.Embedded e.(throwaway)) d with
  | (d', inr (Ok (Accounts.BSession id access refresh _))) => (Ok (id, access, refresh), d')
  | (d', _) => (Err "embedded user bootstrap failed", d')
  end).
Definition run_embedded (e : Embedded) : M unit :=
  let o := e.(outside) in
  _ ← of_result e.(mkdir);
  let cfg := embedded_cfg e in
  _ ← on_disk (λ d, let '(k, d') := load_or_create_credential_key e.(key_io) (key_of o.(random_key)) (data_dir e) d in (Ok k, d'));
  _ ← init_pool_with_embedded_rebuild e.(rename_fails) o.(opens) o.(migrates) e.(engine) cfg.(ServerConfig.database_url) (embedded_db e) e.(epoch);
  _ ← emit [Spawned (Retention cfg.(ServerConfig.slow_query_retention_days)); Spawned WeeklyReports; Spawned NativeCollector];
  uuid ← get_install_uuid o;
  let ent := Licensed (embedded_license o uuid) None in
  '(_, access, refresh) ← embedded_user e cfg;
  app ← build_app true o cfg ent uuid;
  _ ← scheduler_state true o cfg ent uuid;
  _ ← emit [Spawned DataSyncScheduler];
  port ← of_result (o.(bind) "127.0.0.1:0");
  _ ← emit [Listening "127.0.0.1:0" app; Handshake (ready_handshake port access refresh uuid)];
  _ ← emit [Stopped DataSyncScheduler];
  of_result (served_result o.(served)).
End Startup.

(** ** Steps *)

(** A program ends in a state, whatever it stops at. *)
Definition ends {A} (m : M A) (Q : result Stop A → St → Prop) (s : St) : Prop := let '(r, s') := m s in Q r s'.
Section Steps.
Context {A : Type} (Q : result Stop A → St → Prop).
Lemma ends_seq {B} (m : M B) (f : B → M A) s :
  ends m (λ r s', match r with Ok b => ends (f b) Q s' | Err e => Q (Err e) s' end) s → ends (m ≫= f) Q s.
Proof. unfold ends, mbind, boot_bind. by destruct (m s) as [[b|e] s']. Qed.
Lemma ends_of_result (r : result string A) s : match r with Ok a => Q (Ok a) s | Err e => Q (Err (Fails e)) s end → ends (of_result r) Q s.
Proof. unfold ends, of_result. by destruct r. Qed.
Lemma ends_ret (a : A) s : Q (Ok a) s → ends (mret a) Q s.
Proof. done. Qed.
Lemma ends_mono (Q' : result Stop A → St → Prop) m s : ends m Q s → (∀ r s', Q r s' → Q' r s') → ends m Q' s.
Proof. unfold ends. destruct (m s). auto. Qed.
Lemma ends_on_world f s :
  match f s.(world) with
  | None => Q (Err Panics) s
  | Some (r, w) =>
      let s' := {| world := w; passwords := s.(passwords); accounts := s.(accounts); disk := s.(disk); trace := s.(trace) |} in
      match r with Ok a => Q (Ok a) s' | Err e => Q (Err (Fails e)) s' end
  end → ends (on_world f) Q s.
Proof. unfold ends, on_world. destruct (f _) as [[[a|e] w]|]; by cbn. Qed.
End Steps.
(** Events of no engine, no socket and no warning. *)
Definition quiet (l : list Event) : Prop := Forall (λ ev, match ev with Spawned _ | Listening _ _ | Exposed _ | Handshake _ => False | _ => True end) l.
Lemma quiet_no l : quiet l → (∀ e, Spawned e ∉ l) ∧ (∀ a b, Listening a b ∉ l) ∧ (∀ h, Exposed h ∉ l) ∧ ∀ h, Handshake h ∉ l.
Proof. unfold quiet. rewrite Forall_forall. intros Hq. split_and!; intros * Hi; exact (Hq _ Hi). Qed.
(** Programs that only leave such events and change only files. *)
Definition quietly (s s' : St) : Prop := (∃ l, s'.(trace) = s.(trace) ++ l ∧ quiet l) ∧ s'.(world) = s.(world) ∧ s'.(accounts) = s.(accounts).
Definition calm {A} (m : M A) : Prop := ∀ s, ends m (λ _ s', quietly s s') s.
Lemma quietly_refl s : quietly s s.
Proof. split; [exists []; rewrite app_nil_r; split; [done|constructor]|done]. Qed.
Lemma quietly_trans s1 s2 s3 : quietly s1 s2 → quietly s2 s3 → quietly s1 s3.
Proof.
  intros ((l & E & Hl) & E1 & E2) ((l' & E' & Hl') & E1' & E2'). split; [|by rewrite E1', E2'].
  exists (l ++ l'). rewrite E', E, app_assoc. split; [done|by apply Forall_app].
Qed.
Lemma calm_bind {A B} (m : M A) (f : A → M B) : calm m → (∀ a, calm (f a)) → calm (m ≫= f).
Proof.
  intros Hm Hf s. apply ends_seq. eapply ends_mono; [apply Hm|]. intros [a|e] s1 H1; [|exact H1].
  eapply ends_mono; [apply Hf|]. intros ? s2 H2. by eapply quietly_trans.
Qed.
Lemma calm_of_result {A} (r : result string A) : calm (of_result r).
Proof. intros s. apply quietly_refl. Qed.
Lemma calm_ret {A} (a : A) : calm (mret a).
Proof. intros s. apply quietly_refl. Qed.
Lemma calm_on_disk {A} (f : gmap string string → result string A * gmap string string) : calm (on_disk f).
Proof.
  intros s. unfold ends, on_disk. destruct (f _) as [r d]. split; [exists []; cbn; rewrite app_nil_r; split; [done|constructor]|done].
Qed.
Lemma calm_emit l : quiet l → calm (emit l).
Proof. intros Hl s. split; [by exists l|done]. Qed.
(** A step that only leaves its events. *)
Ltac emits := apply ends_seq; cbn [ends emit trace world passwords accounts disk].

(** ** The backup of an embedded database *)

Section Backup.
Context (rename_fails : string → nat → option string) (db_path stamp : string).
Notation files := (db_files db_path).
Notation bak := (backup_path stamp).
Lemma rename_loop_spec src dst left_ : ∀ attempts d,
  let '(r, d', sleeps) := rename_loop rename_fails src dst attempts left_ d in
  sleeps ≤ left_ ∧ d' = match r, d !! src with Ok _, Some c => <[dst := c]> (delete src d) | _, _ => d end.
Proof.
  induction left_ as [|k IH]; intros attempts d; cbn; destruct (d !! src) as [c|] eqn:Ec; try done;
    destruct (rename_fails src attempts); try (split; [lia|done]).
  specialize (IH (S attempts) d). destruct (rename_loop _ _ _ _ _ _) as [[r d'] sleeps]. rewrite Ec in IH. destruct IH. split; [lia|done].
Qed.
Lemma db_files_suffix p : p ∈ files ↔ ∃ x, p = db_path +:+ x ∧ x ∈ [""; "-wal"; "-shm"].
Proof.
  unfold db_files. rewrite !elem_of_cons, elem_of_nil. setoid_rewrite elem_of_cons. setoid_rewrite elem_of_cons. setoid_rewrite list_elem_of_singleton.
  rewrite <- (str_app_nil_r db_path) at 1. split; [intros [->|[->|[->|Hp]]]; [eauto 6..|done]|intros (x & -> & [->|[->| ->]]); auto].
Qed.
Lemma bak_not_file p : p ∈ files → bak p ∉ files.
Proof.
  intros (x & -> & Hx)%db_files_suffix (y & E & Hy)%db_files_suffix. unfold backup_path in E. rewrite <- str_app_assoc in E.
  apply (inj (String.append db_path)) in E. rewrite !elem_of_cons, elem_of_nil in Hx, Hy. by destruct Hx as [->|[->|[->|Hx]]], Hy as [->|[->|[->|Hy]]].
Qed.
Lemma bak_inj p q : p ∈ files → q ∈ files → bak p = bak q → p = q.
Proof.
  intros (x & -> & Hx)%db_files_suffix (y & -> & Hy)%db_files_suffix E. unfold backup_path in E. rewrite <- !str_app_assoc in E.
  apply (inj (String.append db_path)) in E. rewrite !elem_of_cons, elem_of_nil in Hx, Hy. by destruct Hx as [->|[->|[->|Hx]]], Hy as [->|[->|[->|Hy]]].
Qed.

(** After a part of the moves: the files of [todo] are where they were, the others moved. *)
Definition moved (gone : list string) (d d' : gmap string string) : Prop :=
  (∀ p, p ∈ gone → d' !! p = None ∧ ∀ c, d !! p = Some c → d' !! bak p = Some c) ∧
  (∀ q, q ∉ gone → (∀ p, p ∈ gone → q ≠ bak p) → d' !! q = d !! q).
Lemma backup_all_spec todo : ∀ gone d d0, NoDup (gone ++ todo) → (∀ p, p ∈ gone ++ todo → p ∈ files) → moved gone d0 d →
  let '(r, d') := backup_all rename_fails stamp todo d in
  ∃ gone', gone' ⊆ gone ++ todo ∧ moved gone' d0 d' ∧ (r = Ok tt → gone' = gone ++ todo).
Proof.
  induction todo as [|p todo IH]; intros gone d d0 Hnd Hsub Hm; cbn [backup_all].
  { exists gone. rewrite app_nil_r. split_and!; set_solver. }
  pose proof (rename_loop_spec p (bak p) 29 0 d) as Hr. destruct (rename_loop _ p (bak p) 0 29 d) as [[[u|e] d1] sl]; destruct Hr as [_ ->].
  2:{ exists gone. split_and!; [set_solver|done|done]. }
  assert (Hp : p ∈ files) by (apply Hsub; set_solver).
  assert (Hpg : p ∉ gone) by (apply NoDup_app in Hnd; set_solver).
  assert (Hd : d !! p = d0 !! p).
  { apply Hm; [done|]. intros q Hq ->. apply (bak_not_file q); [apply Hsub; set_solver|done]. }
  specialize (IH (gone ++ [p]) (match d !! p with Some c => <[bak p := c]> (delete p d) | None => d end) d0).
  rewrite <- app_assoc in IH. apply IH; [done|done|]. destruct Hm as [Hm1 Hm2].
  assert (Hpb : p ≠ bak p) by (intros E; apply (bak_not_file p Hp); by rewrite <- E).
  split.
  - intros q [Hq| ->%list_elem_of_singleton]%elem_of_app.
    + assert (q ∈ files) by (apply Hsub; set_solver). assert (q ≠ p) by (intros ->; done).
      assert (Hqb : ∀ x, x ∈ files → q ≠ bak x) by (intros x Hx ->; by apply (bak_not_file x)).
      assert (bak q ≠ bak p) by (intros E; apply bak_inj in E; auto).
      assert (bak q ≠ p) by (intros <-; by apply (bak_not_file q)).
      destruct (d !! p); [rewrite !lookup_insert_ne, !lookup_delete_ne by (done || symmetry; auto)|]; by apply Hm1.
    + rewrite Hd. destruct (d0 !! p) as [c|] eqn:Ec; [|split; [by rewrite Hd|done]].
      rewrite lookup_insert_ne, lookup_delete_eq, lookup_insert_eq by done. split; [done|]. by intros ? [= ->].
  - intros q Hq Hqb. assert (q ≠ p) by set_solver. assert (q ≠ bak p) by (apply Hqb; set_solver).
    destruct (d !! p); [rewrite lookup_insert_ne, lookup_delete_ne by done|]; (apply Hm2; [set_solver|intros x Hx; apply Hqb; set_solver]).
Qed.
Lemma backup_db_files_spec d :
  let '(r, d') := backup_db_files rename_fails db_path stamp d in ∃ gone, gone ⊆ files ∧ moved gone d d' ∧ (r = Ok tt → gone = files).
Proof.
  apply (backup_all_spec files [] d d); [|done|split; set_solver]. unfold db_files.
  assert (Hn : ∀ x y, x ≠ y → db_path +:+ x ≠ db_path +:+ y) by (intros x y Hne E; by apply (inj (String.append db_path)) in E).
  assert (Hn' : ∀ x, x ≠ "" → db_path ≠ db_path +:+ x) by (intros x Hne; rewrite <- (str_app_nil_r db_path) at 1; auto).
  cbn. rewrite !NoDup_cons, !elem_of_cons, !elem_of_nil. pose proof (Hn' "-wal" ltac:(done)). pose proof (Hn' "-shm" ltac:(done)).
  pose proof (Hn "-wal" "-shm" ltac:(done)). split_and!; try tauto. apply NoDup_nil_2.
Qed.

Definition is_pool (ev : Event) : bool := match ev with PoolOpened _ => true | _ => false end.
Section Rebuilt.
Context (opens migrates : nat → result string unit) (engine : nat → gmap string string → gmap string string) (url : string) (s : St).
Notation rebuild := (init_pool_with_embedded_rebuild rename_fails opens migrates engine url db_path stamp).
(** The files when the migration has been tried. *)
Definition tried : gmap string string := engine 1 (engine 0 s.(disk)).

(** C39.  An embedded database that cannot be migrated is set aside, never lost: wherever
    the rebuild stops, each file of the database is where it was or under its backup name,
    with what it held, and no other file has changed; after a rebuild all have moved and
    the new database starts from none of them; where the migration succeeds nothing moves;
    and a pool is opened at most twice. *)
Theorem rebuild_keeps_files : (∀ n d q, q ∉ files → engine n d !! q = d !! q) →
  ends rebuild (λ r s',
    (∀ q, q ∉ files → (∀ p, p ∈ files → q ≠ bak p) → s'.(disk) !! q = s.(disk) !! q) ∧
    (opens 0 = Ok tt → is_ok (migrates 0) = false →
       ∀ p c, p ∈ files → tried !! p = Some c → s'.(disk) !! bak p = Some c ∨ (r ≠ Ok true ∧ s'.(disk) !! p = Some c)) ∧
    (r = Ok true → is_ok (migrates 0) = false ∧ migrates 1 = Ok tt ∧
       ∃ d, s'.(disk) = engine 3 (engine 2 d) ∧ ∀ p, p ∈ files → d !! p = None) ∧
    (r = Ok false → migrates 0 = Ok tt ∧ s'.(disk) = tried) ∧
    (∃ new, s'.(trace) = s.(trace) ++ new ∧ length (List.filter is_pool new) ≤ 2)) s.
Proof.
  intros He. assert (Hout : ∀ n d q, q ∉ files → engine n d !! q = d !! q) by done.
  unfold init_pool_with_embedded_rebuild, init_pool. do 2 apply ends_seq. unfold ends at 1, on_disk at 1.
  cbn [disk world passwords accounts trace]. destruct (opens 0) as [[]|e] eqn:Eo.
  2:{ cbn. split_and!; try done; [intros q Hq _; by apply He|by exists []; rewrite app_nil_r; cbn; split; [|lia]]. }
  cbn [ends emit trace world passwords accounts disk]. apply ends_seq. unfold run_migrations at 1. apply ends_seq. unfold ends at 1, on_disk at 1.
  cbn [disk world passwords accounts trace]. change (engine (2 * 0 + 1) (engine (2 * 0) (disk s))) with tried.
  assert (Htr : ∀ q, q ∉ files → tried !! q = s.(disk) !! q) by (intros q Hq; unfold tried; by rewrite !He).
  destruct (migrates 0) as [[]|e] eqn:Em.
  { cbn. split_and!; try done; [intros q Hq _; by apply Htr|exists [PoolOpened url; Migrated]; cbn; split; [by rewrite <- app_assoc|lia]]. }
  cbn [ends mret boot_ret]. apply ends_seq. unfold ends at 1, on_disk at 1. cbn [disk world passwords accounts trace].
  pose proof (backup_db_files_spec tried) as Hb. destruct (backup_db_files _ _ _ tried) as [r d]. destruct Hb as (gone & Hsub & [Hm1 Hm2] & Hall).
  assert (Hkeep : ∀ p c, p ∈ files → tried !! p = Some c → d !! bak p = Some c ∨ d !! p = Some c).
  { intros p c Hp Hc. destruct (decide (p ∈ gone)) as [Hg|Hg]; [left; by apply Hm1|]. right. rewrite Hm2; [done|done|].
    intros q Hq ->. by apply (bak_not_file q); [apply Hsub|]. }
  assert (Hother : ∀ q, q ∉ files → (∀ p, p ∈ files → q ≠ bak p) → d !! q = s.(disk) !! q).
  { intros q Hq Hqb. rewrite Hm2; [by apply Htr|by intros ?%Hsub|auto]. }
  destruct r as [[]|e1].
  2:{ cbn. split_and!; try done; [|by eexists; split; [done|cbn; lia]].
      intros _ _ p c Hp Hc. destruct (Hkeep p c Hp Hc); [by left|by right]. }
  specialize (Hall eq_refl) as ->. assert (Hgone : ∀ p, p ∈ files → d !! p = None) by (intros p Hp; by apply Hm1).
  assert (Hbak : ∀ p c, p ∈ files → tried !! p = Some c → d !! bak p = Some c) by (intros p c Hp Hc; by apply Hm1).
  do 2 apply ends_seq. unfold ends at 1, on_disk at 1. cbn [disk world passwords accounts trace]. change (engine (2 * 1) d) with (engine 2 d).
  destruct (opens 1) as [[]|e1].
  2:{ cbn. split_and!; try done; cbn [disk trace]; [intros; rewrite He by done; by apply Hother| |exists [PoolOpened url]; split; [done|cbn; lia]].
      intros _ _ p c Hp Hc. left. cbn [disk]. rewrite He by (by apply bak_not_file). by apply Hbak. }
  cbn [ends emit trace world passwords accounts disk]. apply ends_seq. unfold run_migrations at 1. apply ends_seq. unfold ends at 1, on_disk at 1.
  cbn [disk world passwords accounts trace]. change (engine (2 * 1 + 1) (engine 2 d)) with (engine 3 (engine 2 d)).
  destruct (migrates 1) as [[]|e1].
  - cbn. split_and!; try done; cbn [disk trace]; [intros; rewrite !He by done; by apply Hother| | |exists [PoolOpened url; PoolOpened url; Migrated; Rebuilt]; cbn; split; [by rewrite <- !app_assoc|lia]].
    + intros _ _ p c Hp Hc. left. rewrite !He by (by apply bak_not_file). by apply Hbak.
    + intros _. split_and!; [done..|]. by exists d.
  - cbn. split_and!; try done; cbn [disk trace]; [intros; rewrite !He by done; by apply Hother| |exists [PoolOpened url; PoolOpened url]; cbn; split; [by rewrite <- !app_assoc|lia]].
    intros _ _ p c Hp Hc. left. rewrite !He by (by apply bak_not_file). by apply Hbak.
Qed.
Lemma rebuild_calm : calm rebuild.
Proof.
  unfold init_pool_with_embedded_rebuild, init_pool, run_migrations.
  repeat first [apply calm_bind; [|intros ?] | apply calm_on_disk | apply calm_of_result | apply calm_ret | apply calm_emit; repeat constructor | case_match].
Qed.
End Rebuilt.
End Backup.

(** ** The production start *)

Section Production.
Context `{C : TimestampCodec} `{Cipher} `{!CipherLaws} {Signature VerifyingKey : Type}.
Context (hex_decode : string → option string) (signature_from_slice : string → option Signature).
Context (verify : VerifyingKey → string → Signature → bool) (verifying_key_from_bytes : string → option VerifyingKey).
Context (override : option string) (license_path : path) (to_lowercase : string → string).
Notation run_normal := (run_normal hex_decode signature_from_slice verify verifying_key_from_bytes override license_path to_lowercase).
Context (o : Outside) (s : St).
Definition resolved (ent : EntitlementState) : Prop := ∃ t,
  restart hex_decode signature_from_slice verify verifying_key_from_bytes override license_path o.(answer) s.(world) = Some (Ok ent, t).
(** No password is stored in the old format, and each still decrypts to what it did. *)
Definition secured (key : list Z) (t : gmap string string) : Prop :=
  same_rows (key_of key) s.(passwords) t ∧ map_Forall (λ _ v, legacy v = false) t.
Definition configured (cfg : ServerConfig.Config) (key : list Z) : Prop :=
  ServerConfig.from_env to_lowercase o.(env) = Ok cfg ∧ ServerConfig.load_credential_key o.(hex_bytes) o.(random_key) o.(env) = Ok key.

Lemma migrated_secured key rows m t :
  (∀ j, String.length (o.(nonces) j) = NONCE_LEN) → rows ≡ₚ map_to_list s.(passwords) → map_Forall (λ _ v, from_utf8 v = true) s.(passwords) →
  migrate_legacy_credentials (key_of key) o.(nonces) o.(updates) (Ok rows) s.(passwords) = (Ok m, t) → secured key t.
Proof.
  intros Hn Hrows Hu Hm. pose proof (migrate_table (key_of key) o.(nonces) o.(updates) rows s.(passwords) Hn Hrows Hu) as Ht.
  rewrite Hm in Ht. destruct Ht as [Hs Hall]. split; [done|]. by apply (Hall m).
Qed.

(** What a start that ended in [r] has done. *)
Record started (r : result Stop unit) (s' : St) : Prop := {
  st_after_config ev : ev ∈ s'.(trace) → (∃ host, ev = Exposed host) ∨ ∃ cfg key, configured cfg key;
  st_exposed cfg : ServerConfig.from_env to_lowercase o.(env) = Ok cfg →
    (∃ host, Exposed host ∈ s'.(trace)) ↔
    ServerConfig.registration_exposure_warn cfg.(ServerConfig.registration_enabled) cfg.(ServerConfig.host) (ServerConfig.dev_mode o.(env)) = true;
  st_spawned e : Spawned e ∈ s'.(trace) →
    (∃ key, secured key s'.(passwords)) ∧ ((∃ days, e = Retention days) ∨ ∃ ent, resolved ent ∧ is_gated ent = false);
  st_listening addr app : Listening addr app ∈ s'.(trace) →
    (∃ cfg key, configured cfg key ∧ secured key s'.(passwords) ∧ addr = cfg.(ServerConfig.host) +:+ ":" +:+ decimal (Z.to_N cfg.(ServerConfig.port)) ∧
                app.(core).(config) = cfg ∧ app.(core).(embedded_mode) = false) ∧
    ∃ ent, resolved ent ∧ load app.(core).(entitlement) s'.(world) = Some ent ∧ load app.(automation).(entitlement) s'.(world) = Some ent ∧
           ∀ e, e ∈ engines → Spawned e ∈ s'.(trace) ↔ is_gated ent = false;
  st_served : r = Ok tt → (∃ addr app, Listening addr app ∈ s'.(trace)) ∧ ∀ e, e ∈ engines → Spawned e ∈ s'.(trace) → Stopped e ∈ s'.(trace) }.

(** The cells of the application and of the schedulers hold the entitlement given. *)
Lemma build_app_ends (Q : result Stop App → St → Prop) (embedded : bool) cfg ent uuid s0 :
  (∀ app w, app.(core).(config) = cfg → app.(core).(embedded_mode) = embedded → app.(core).(entitlement) < length w.(cells) →
     load app.(core).(entitlement) w = Some ent → load app.(automation).(entitlement) w = Some ent → load app.(mcp_entitlement) w = Some ent →
     w.(instances) = s0.(world).(instances) →
     Q (Ok app) {| world := w; passwords := s0.(passwords); accounts := s0.(accounts); disk := s0.(disk); trace := s0.(trace) |}) →
  ends (build_app embedded o cfg ent uuid) Q s0.
Proof.
  intros HQ. apply ends_on_world. pose proof (build_app_cells embedded o.(env) cfg ent uuid s0.(world)) as Hb.
  assert (Hc : (build_app_with_config embedded o.(env) cfg ent uuid s0.(world)).1.(core).(config) = cfg) by (by destruct embedded).
  destruct (build_app_with_config _ _ _ _ _ _) as [app w]. cbn in Hc. destruct Hb as (Lc & La & Lm & Ec & Ei & _ & Em).
  apply HQ; [done..| | | | |done]; unfold load; rewrite ?Lc, ?La, ?Lm, Ec.
  - rewrite length_app. cbn. lia.
  - by rewrite lookup_app_r, Nat.sub_diag by lia.
  - rewrite lookup_app_r by lia. by replace (S (length s0.(world).(cells)) - length s0.(world).(cells)) with 1 by lia.
  - rewrite lookup_app_r by lia. by replace (S (length s0.(world).(cells)) - length s0.(world).(cells)) with 1 by lia.
Qed.
Lemma scheduler_state_ends (Q : result Stop AppState → St → Prop) (embedded : bool) cfg ent uuid s0 :
  (∀ st l, Q (Ok st) {| world := with_cells (λ c, c ++ l) s0.(world); passwords := s0.(passwords); accounts := s0.(accounts); disk := s0.(disk);
                        trace := s0.(trace) |}) →
  ends (scheduler_state embedded o cfg ent uuid) Q s0.
Proof. intros HQ. apply ends_on_world. destruct embedded; apply HQ. Qed.
Lemma load_grown loc w l ent : load loc w = Some ent → load loc (with_cells (λ c, c ++ l) w) = Some ent.
Proof. apply lookup_app_l_Some. Qed.

Definition warned (cfg : ServerConfig.Config) : list Event :=
  if ServerConfig.registration_exposure_warn cfg.(ServerConfig.registration_enabled) cfg.(ServerConfig.host) (ServerConfig.dev_mode o.(env))
  then [Exposed cfg.(ServerConfig.host)] else [].
Lemma warned_spec cfg ev : ev ∈ warned cfg ↔ ev = Exposed cfg.(ServerConfig.host) ∧
  ServerConfig.registration_exposure_warn cfg.(ServerConfig.registration_enabled) cfg.(ServerConfig.host) (ServerConfig.dev_mode o.(env)) = true.
Proof. unfold warned. destruct (ServerConfig.registration_exposure_warn _ _ _); [rewrite list_elem_of_singleton|rewrite elem_of_nil]; naive_solver. Qed.
(** Stopped before anything is started. *)
Lemma stopped_early e s' cfg l : ServerConfig.from_env to_lowercase o.(env) = Ok cfg → s'.(trace) = warned cfg ++ l → quiet l →
  (l = [] ∨ ∃ key, configured cfg key) → started (Err e) s'.
Proof.
  intros Hc Ht (Hq1 & Hq2 & Hq3 & _)%quiet_no Hk. split; rewrite ?Ht.
  - intros ev [(-> & _)%warned_spec|Hi]%elem_of_app; [left; eauto|]. right. destruct Hk as [->|[key Hk]]; [by apply elem_of_nil in Hi|eauto].
  - intros c Hc'. rewrite Hc in Hc'. injection Hc' as <-. setoid_rewrite elem_of_app. setoid_rewrite warned_spec. split; [|eauto].
    by intros (? & [(_ & ?)|?%Hq3]).
  - intros x [(? & _)%warned_spec|?%Hq1]%elem_of_app; done.
  - intros a b [(? & _)%warned_spec|?%Hq2]%elem_of_app; done.
  - done.
Qed.

(** What is set going of the engines, and what of them is stopped. *)
Definition ticking : list Engine := engines ++ [WeeklyReports; NativeCollector].
Definition set_going (ent : EntitlementState) : list Event := if is_gated ent then [] else Spawned <$> ticking.
Definition set_down (ent : EntitlementState) : list Event := if is_gated ent then [] else Stopped <$> engines.
Lemma set_going_spec ent ev : ev ∈ set_going ent ↔ is_gated ent = false ∧ ∃ e, ev = Spawned e ∧ e ∈ ticking.
Proof. unfold set_going. destruct (is_gated ent); [rewrite elem_of_nil|rewrite list_elem_of_fmap]; naive_solver. Qed.
Lemma set_down_spec ent ev : ev ∈ set_down ent ↔ is_gated ent = false ∧ ∃ e, ev = Stopped e ∧ e ∈ engines.
Proof. unfold set_down. destruct (is_gated ent); [rewrite elem_of_nil|rewrite list_elem_of_fmap]; naive_solver. Qed.
Lemma engines_tick e : e ∈ engines → e ∈ ticking ∧ ∀ d, e ≠ Retention d.
Proof. intros He. split; [apply elem_of_app; by left|]. intros d ->. unfold engines in He. repeat (apply elem_of_cons in He as [?|He]; [done|]). by apply elem_of_nil in He. Qed.

Lemma started_late r s' cfg key ent app l served :
  configured cfg key → secured key s'.(passwords) → resolved ent →
  app.(core).(config) = cfg → app.(core).(embedded_mode) = false →
  load app.(core).(entitlement) s'.(world) = Some ent → load app.(automation).(entitlement) s'.(world) = Some ent →
  quiet l → (r = Ok tt → served = true) →
  s'.(trace) = warned cfg ++ l ++ set_going ent ++ [Spawned (Retention cfg.(ServerConfig.slow_query_retention_days))] ++
    (if served then [Listening (cfg.(ServerConfig.host) +:+ ":" +:+ decimal (Z.to_N cfg.(ServerConfig.port))) app] ++ set_down ent else []) →
  started r s'.
Proof.
  intros Hc Hs Hr Ha Hm Hl1 Hl2 (Hq1 & Hq2 & Hq3 & _)%quiet_no Hsrv Ht. set (addr := (_ +:+ _)%string) in Ht.
  assert (Hin : ∀ ev, ev ∈ s'.(trace) →
     (ev = Exposed cfg.(ServerConfig.host) ∧ ev ∈ warned cfg) ∨
     ev ∈ l ∨ (is_gated ent = false ∧ ∃ e, ev = Spawned e ∧ e ∈ ticking) ∨ ev = Spawned (Retention cfg.(ServerConfig.slow_query_retention_days)) ∨
     ev = Listening addr app ∨ ∃ e, ev = Stopped e).
  { intros ev. rewrite Ht, !elem_of_app, set_going_spec, list_elem_of_singleton. intros [Hw|[?|[?|[?|Hd]]]]; eauto 6.
    - left. split; [|done]. by apply warned_spec in Hw as [-> _].
    - destruct served; [|by apply elem_of_nil in Hd]. apply elem_of_app in Hd as [->%list_elem_of_singleton|(_ & e & -> & _)%set_down_spec]; eauto 8. }
  assert (Hon : ∀ e, e ∈ engines → is_gated ent = false → Spawned e ∈ s'.(trace)).
  { intros e [He _]%engines_tick Hg. rewrite Ht, !elem_of_app, set_going_spec. eauto 8. }
  assert (Hoff : ∀ e, e ∈ engines → Spawned e ∈ s'.(trace) → is_gated ent = false).
  { intros e [_ Hne]%engines_tick [[? _]|[?%Hq1|[[? _]|[[= E]|[?|[??]]]]]]%Hin; try done. by destruct (Hne _ E). }
  split.
  - intros ev _. right. by exists cfg, key.
  - intros c Hc'. destruct Hc as [Hc _]. rewrite Hc in Hc'. injection Hc' as <-. split.
    + intros [h [[_ Hw]|[?%Hq3|[(_ & ? & ? & _)|[?|[?|[??]]]]]]%Hin]; try done. by apply warned_spec in Hw as [_ ?].
    + intros Hw. exists cfg.(ServerConfig.host). rewrite Ht. apply elem_of_app. left. by apply warned_spec.
  - intros e [[? _]|[?%Hq1|[[? _]|[[= ->]|[?|[??]]]]]]%Hin; try done; (split; [by exists key|]); eauto.
  - intros a b [[? _]|[?%Hq2|[(_ & ? & ? & _)|[?|[[= -> ->]|[??]]]]]]%Hin; try done. split; [by exists cfg, key|].
    exists ent. split_and!; [done..|]. intros e He. split; [by apply Hoff|by apply Hon].
  - intros Hok. rewrite (Hsrv Hok) in Ht. split; [exists addr, app|intros e He Hsp; pose proof (Hoff e He Hsp)]; rewrite Ht, !elem_of_app, ?set_down_spec, ?list_elem_of_singleton; eauto 12.
Qed.

(** C20.  A start of the production server does things in the order that makes it safe,
    at whatever step it ends: nothing is opened before both secrets and the credential key
    are accepted; nothing is spawned, and no request served, while a password is stored in
    the old format; a gated instance runs no engine but the rotation of the statistics,
    any other all of them; the gates have the entitlement that was resolved; the warning of an
    exposed registration is given exactly when it should; and a server that stops has
    stopped the engines it started. *)
Theorem production_start rows : s.(trace) = [] → o.(scan) = Ok rows →
  (∀ j, String.length (o.(nonces) j) = NONCE_LEN) → rows ≡ₚ map_to_list s.(passwords) → map_Forall (λ _ v, from_utf8 v = true) s.(passwords) →
  ends (run_normal o) started s.
Proof.
  intros Ht Hscan Hn Hrows Hu. unfold Boot.run_normal.
  apply ends_seq, ends_of_result. destruct (ServerConfig.from_env to_lowercase o.(env)) as [cfg|e] eqn:Ecfg.
  2:{ split; rewrite ?Ht; try done; try (by intros * ?%elem_of_nil); intros ? Hc; by rewrite Ecfg in Hc. }
  apply ends_seq. fold (warned cfg). cbn [ends emit trace world passwords accounts disk]. rewrite Ht. cbn [app].
  apply ends_seq, ends_of_result. destruct (ServerConfig.load_credential_key _ _ _) as [key|e] eqn:Ek.
  2:{ apply (stopped_early _ _ cfg []); [done|by rewrite app_nil_r|constructor|by left]. }
  assert (Hck : configured cfg key) by done.
  apply ends_seq, ends_of_result. destruct (opens o 0).
  2:{ apply (stopped_early _ _ cfg []); [done|by rewrite app_nil_r|constructor|by left]. }
  emits. apply ends_seq, ends_of_result. destruct (migrates o 0).
  2:{ eapply (stopped_early _ _ cfg); [done|done|by repeat constructor|eauto]. }
  emits. apply ends_seq. unfold on_passwords, ends at 1. cbn [passwords world accounts disk trace].
  rewrite Hscan. destruct (migrate_legacy_credentials _ _ _ (Ok rows) _) as [[m|e] t] eqn:Em.
  2:{ eapply (stopped_early _ _ cfg); [done|cbn; by rewrite <- app_assoc|by repeat constructor|eauto]. }
  pose proof (migrated_secured key rows m t Hn Hrows Hu Em) as Hsec.
  assert (Hq : ∃ l, warned cfg ++ l = ((warned cfg ++ [PoolOpened (ServerConfig.database_url cfg)]) ++ [Migrated]) ++
    (if decide (0 < m) then [CredentialsMigrated m] else []) ∧ quiet l).
  { eexists. rewrite <- !app_assoc. split; [done|]. repeat constructor. by case_decide; repeat constructor. }
  destruct Hq as (l & El & Hq). emits. rewrite <- El. clear El.
  apply ends_seq, ends_on_world. cbn [world].
  destruct (restart _ _ _ _ _ _ _ _) as [[[ent|e] t1]|] eqn:Er.
  2-3: eapply (stopped_early _ _ cfg); [done|done|done|eauto].
  assert (Hres : resolved ent) by by exists t1.
  apply ends_seq, ends_on_world. cbn [world with_instances]. destruct (get_or_create_instance _ _ _) as [[row|e] t2].
  2: eapply (stopped_early _ _ cfg); [done|done|done|eauto].
  apply ends_seq, build_app_ends. intros app w Ha Hm _ Hl1 Hl2 _ _. apply ends_seq. cbn [passwords accounts disk trace].
  pose proof (λ r s' srv Hs1 Hs2 Hs3, started_late r s' cfg key ent app l srv Hck Hs1 Hres Ha Hm Hs2 Hs3 Hq) as Hlate.
  unfold set_going, set_down in Hlate. destruct (is_gated ent).
  2: apply ends_seq, ends_of_result, ends_seq, scheduler_state_ends; intros st cells; emits;
     apply (load_grown _ _ cells) in Hl1, Hl2.
  all: apply ends_ret; emits; emits; apply ends_seq, ends_of_result; destruct (bind o _);
    [emits; emits; apply ends_of_result; destruct (served_result _) as [[]|]; apply (Hlate _ _ true)|apply (Hlate _ _ false)]; try done;
    cbn; by rewrite <- !app_assoc.
Qed.
End Production.

(** ** The embedded start *)

(** The credential key is found again. *)
Section Key.
Context `{Cipher} `{!CipherLaws}.
Lemma key_kept io random data_dir d :
  let '(k, d') := load_or_create_credential_key io random data_dir d in
  (∀ q, q ≠ data_dir +:+ "/credential.key" → d' !! q = d !! q) ∧
  (io.(unreadable) = true → is_Some (d !! (data_dir +:+ "/credential.key")) → d' = d) ∧
  (io.(unreadable) = false → io.(unwritable) = false → String.length random = 32 →
   d' !! (data_dir +:+ "/credential.key") = Some k ∧ String.length k = 32).
Proof.
  unfold load_or_create_credential_key, fresh_key_and_maybe_write. destruct (d !! _) as [bytes|] eqn:E, (unreadable io), (unwritable io);
    try case_decide; split_and!; try done; intros; rewrite ?lookup_insert_ne, ?lookup_insert_eq by done;
    try match goal with Hs : is_Some None |- _ => by apply is_Some_None in Hs end; try done.
Qed.

(**  What an embedded server encrypted, it decrypts after any number of restarts: once
    a start has read or written the key file, every later start that can read it has the
    same key, whether it could write or not, and changes no file. *)
Theorem embedded_passwords_survive io random data_dir d nonce p v starts :
  io.(unreadable) = false → io.(unwritable) = false → String.length random = 32 → String.length nonce = NONCE_LEN → from_utf8 p = true →
  let '(k, d') := load_or_create_credential_key io random data_dir d in
  encrypt_v1 nonce p k = Ok v → Forall (λ st, unreadable st.1 = false) starts →
  let '(ks, d'') := foldl (λ '(ks, x) '(i, rnd), let '(k', x') := load_or_create_credential_key i rnd data_dir x in (k' :: ks, x')) ([], d') starts in
  d'' = d' ∧ Forall (λ k', decrypt_password v k' = Ok p) ks.
Proof.
  intros Hr Hw Hl Hn Hp. pose proof (key_kept io random data_dir d) as Hk. destruct (load_or_create_credential_key io random data_dir d) as [k d'].
  destruct Hk as (_ & _ & Hk). destruct (Hk Hr Hw Hl) as [Hd Hk32]. intros Hv%encrypt_decrypt; [|done..]. destruct Hv as [_ Hv].
  assert (Hgen : ∀ ks, Forall (λ k', decrypt_password v k' = Ok p) ks → Forall (λ st : KeyIo * string, unreadable st.1 = false) starts →
    let '(ks', d'') := foldl (λ '(ks, x) '(i, rnd), let '(k', x') := load_or_create_credential_key i rnd data_dir x in (k' :: ks, x')) (ks, d') starts in
    d'' = d' ∧ Forall (λ k', decrypt_password v k' = Ok p) ks'); [|intros Hs; by apply Hgen].
  induction starts as [|[i rnd] starts IH]; intros ks Hks Hs; [done|]. apply Forall_cons in Hs as [Hi Hs]. cbn in Hi.
  assert (E : load_or_create_credential_key i rnd data_dir d' = (k, d')) by (unfold load_or_create_credential_key; by rewrite Hd, Hi, decide_True).
  cbn [foldl]. rewrite E. apply IH; [|done]. by constructor.
Qed.
End Key.

Section Embedded.
Context `{C : TimestampCodec} `{Accounts.Jwt}.
Context (to_lowercase : string → string) (stamp_rfc : Z → string) (hash_password : string → string → result string string).
Context (verify_password : string → string → result string bool).
Notation run_embedded := (run_embedded to_lowercase stamp_rfc hash_password verify_password).
Context (e : Embedded) (s : St).
Notation user_run := (run_alone (Accounts.exec to_lowercase stamp_rfc hash_password verify_password (ServerConfig.accounts_config (embedded_cfg e)))
  e.(user_answers) (Accounts.Embedded e.(throwaway)) s.(accounts)).

(** What an embedded start that ended in [r] has done. *)
Record started_locally (r : result Stop unit) (s' : St) : Prop := {
  sl_spawned x : Spawned x ∈ s'.(trace) → x ∈ [Retention 14; WeeklyReports; NativeCollector; DataSyncScheduler];
  sl_exposed h : Exposed h ∉ s'.(trace);
  sl_listening addr app : Listening addr app ∈ s'.(trace) →
    addr = "127.0.0.1:0" ∧ app.(core).(config) = embedded_cfg e ∧ (∀ header, admin_check app.(core) header ≠ None) ∧
    ∃ ent, load app.(core).(entitlement) s'.(world) = Some ent ∧ load app.(automation).(entitlement) s'.(world) = Some ent ∧
           load app.(mcp_entitlement) s'.(world) = Some ent ∧ is_gated ent = false;
  sl_handshake line : Handshake line ∈ s'.(trace) →
    (∃ addr app, Listening addr app ∈ s'.(trace)) ∧
    ∃ port id access refresh c uuid, e.(outside).(bind) "127.0.0.1:0" = Ok port ∧ user_run = (s'.(accounts), inr (Ok (Accounts.BSession id access refresh c))) ∧
      line = ready_handshake port access refresh uuid;
  sl_served : r = Ok tt → (∃ line, Handshake line ∈ s'.(trace)) ∧ Stopped DataSyncScheduler ∈ s'.(trace) }.

Definition spawned_first : list Event := [Spawned (Retention 14); Spawned WeeklyReports; Spawned NativeCollector].
Lemma local_stopped x s' l l' : s'.(trace) = l ++ l' → quiet l → (l' = [] ∨ l' = spawned_first ∨ l' = spawned_first ++ [Spawned DataSyncScheduler]) →
  started_locally (Err x) s'.
Proof.
  intros Ht (Hq1 & Hq2 & Hq3 & Hq4)%quiet_no Hl.
  assert (Hin : ∀ ev, ev ∈ s'.(trace) → ev ∈ l ∨ ∃ y, ev = Spawned y ∧ y ∈ [Retention 14; WeeklyReports; NativeCollector; DataSyncScheduler]).
  { intros ev. rewrite Ht. intros [?|Hi]%elem_of_app; [by left|right]. unfold spawned_first in Hl.
    destruct Hl as [->|[->| ->]]; cbn in Hi; repeat (apply elem_of_cons in Hi as [->|Hi]; [eexists; split; [done|set_solver]|]); by apply elem_of_nil in Hi. }
  split; try done.
  - by intros y [?%Hq1|(? & [= ->] & ?)]%Hin.
  - by intros h [?%Hq3|(? & ? & ?)]%Hin.
  - by intros a b [?%Hq2|(? & ? & ?)]%Hin.
  - by intros h [?%Hq4|(? & ? & ?)]%Hin.
Qed.
Lemma embedded_user_ends (Q : result Stop (string * string * string) → St → Prop) s0 : s0.(accounts) = s.(accounts) →
  (∀ id access refresh c d, user_run = (d, inr (Ok (Accounts.BSession id access refresh c))) →
     Q (Ok (id, access, refresh)) {| world := s0.(world); passwords := s0.(passwords); accounts := d; disk := s0.(disk); trace := s0.(trace) |}) →
  (∀ err s', s'.(trace) = s0.(trace) → Q (Err err) s') →
  ends (embedded_user to_lowercase stamp_rfc hash_password verify_password e (embedded_cfg e)) Q s0.
Proof.
  intros Ea Hok Herr. unfold embedded_user, on_accounts, ends. rewrite Ea.
  destruct user_run as [d r] eqn:Er. repeat case_match; simplify_eq; try (by apply Herr). by eapply Hok.
Qed.
(**  The embedded server keeps to the host it runs on: at whatever step it ends, it
    listens on the loopback address only, with registration closed and no way to post a
    license, its gates open; it runs neither the drift nor the health engine; and the
    handshake is given only once it listens, with the port that was bound and the tokens
    of the embedded user. *)
Theorem embedded_start : s.(trace) = [] → ends (run_embedded e) started_locally s.
Proof.
  intros Ht. unfold Boot.run_embedded. apply ends_seq, ends_of_result. destruct (mkdir e) as [[]|err].
  2:{ eapply (local_stopped _ _ [] []); [done|constructor|by left]. }
  apply ends_seq. eapply ends_mono; [apply calm_on_disk|]. intros r0 s0 Hq0. destruct r0 as [key|err].
  2:{ destruct Hq0 as ((l & E & Hl) & _). eapply (local_stopped _ _ l []); [by rewrite E, Ht, app_nil_r|done|by left]. }
  apply ends_seq. eapply ends_mono; [apply rebuild_calm|]. intros r1 s1 Hq1. pose proof (quietly_trans _ _ _ Hq0 Hq1) as ((l & El & Hl) & Ew & Ea).
  rewrite Ht in El. cbn in El. destruct r1 as [rebuilt|err].
  2:{ eapply (local_stopped _ _ l []); [by rewrite El, app_nil_r|done|by left]. }
  emits. change (ServerConfig.slow_query_retention_days (embedded_cfg e)) with 14%Z. fold spawned_first. rewrite El.
  apply ends_seq, ends_on_world. cbn [world]. destruct (get_or_create_instance _ _ _) as [[row|err] t].
  2:{ eapply (local_stopped _ _ l spawned_first); [done|done|by right; left]. }
  apply ends_seq, embedded_user_ends; [by rewrite <- Ea| |].
  2:{ intros err s' Es. eapply (local_stopped _ _ l spawned_first); [done|done|by right; left]. }
  intros id access refresh c d Hu. apply ends_seq, build_app_ends. intros app w Hc Hm _ Hl1 Hl2 Hl3 _.
  apply ends_seq, scheduler_state_ends. intros _ cells. emits. rewrite <- app_assoc.
  apply (load_grown _ _ cells) in Hl1, Hl2, Hl3. apply ends_seq, ends_of_result. destruct (bind _ _) as [port|err] eqn:Ep.
  2:{ eapply (local_stopped _ _ l (spawned_first ++ [Spawned DataSyncScheduler])); [done|done|by right; right]. }
  emits. emits. apply ends_of_result. apply quiet_no in Hl as (Hn1 & Hn2 & Hn3 & Hn4).
  set (tr := (((l ++ _) ++ _) ++ _)). set (hs := ready_handshake port access refresh (install_uuid row)) in *.
  assert (Hin : ∀ ev, ev ∈ tr ↔ ev ∈ l ∨ ev ∈ spawned_first ∨ ev = Spawned DataSyncScheduler ∨ ev = Listening "127.0.0.1:0" app ∨ ev = Handshake hs ∨
    ev = Stopped DataSyncScheduler).
  { intros ev. unfold tr. rewrite !elem_of_app, !elem_of_cons, !elem_of_nil. tauto. }
  assert (Hfirst : ∀ ev, ev ∈ spawned_first → ∃ x, ev = Spawned x ∧ x ∈ [Retention 14; WeeklyReports; NativeCollector]).
  { intros ev. unfold spawned_first. change [_; _; _] with (Spawned <$> [Retention 14; WeeklyReports; NativeCollector]) at 1. by rewrite list_elem_of_fmap. }
  clearbody tr.
  assert (Hgoal : ∀ r, started_locally r {| world := with_cells (λ c, c ++ cells) w; passwords := s1.(passwords); accounts := d; disk := s1.(disk); trace := tr |});
    [|destruct (served_result _); apply Hgoal].
  intros r. split; cbn [trace world accounts]; setoid_rewrite Hin.
  - intros x [?%Hn1|[(? & [= <-] & Hx)%Hfirst|[[= ->]|[?|[?|?]]]]]; try done; [|by repeat constructor].
    change (x ∈ [Retention 14; WeeklyReports; NativeCollector] ++ [DataSyncScheduler]). apply elem_of_app. by left.
  - by intros h [?%Hn3|[(? & ? & _)%Hfirst|[?|[?|[?|?]]]]].
  - intros addr a [?%Hn2|[(? & ? & _)%Hfirst|[?|[[= -> ->]|[?|?]]]]]; try done. split_and!; [done|done| |by eexists].
    intros header. unfold admin_check. by rewrite Hm.
  - intros line [?%Hn4|[(? & ? & _)%Hfirst|[?|[?|[[= ->]|?]]]]]; try done. split; [eauto 8|].
    by exists port, id, access, refresh, c, (install_uuid row).
  - intros _. split; [exists hs|]; tauto.
Qed.
End Embedded.

(** ** Examples *)

Section Examples.
#[local] Existing Instances bits_codec ex_cipher ex_cipher_laws Accounts.ex_jwt.
Definition ex_vars : ServerConfig.Env :=
  ServerConfig.ex_env [("SERVER_JWT_SECRET", "s1"); ("SERVER_JWT_REFRESH_SECRET", "s2"); ("DBMASTER_CREDENTIAL_KEY", "00ff"); ("SERVER_PORT", "8080")].
Definition ex_outside : Outside :=
  {| env := ex_vars; hex_bytes := λ _, Ok (repeat 7%Z 32); random_key := repeat 9%Z 32; nonces := ex_nonces; updates := λ _, true; scan := Ok ex_rows;
     opens := λ _, Ok tt; migrates := λ _, Ok tt; answer := {| a_uuid := "u-1"; a_now_s := "now"; a_now := 0; a_io := None |};
     bind := λ _, Ok 40123%Z; served := Interrupted |}.
Definition ex_start (files0 : gmap path string) (t : gmap string string) : St :=
  {| world := {| cells := []; instances := [sample_instance]; files := files0 |}; passwords := t; accounts := Accounts.ex_empty; disk := ∅; trace := [] |}.
Notation ex_normal := (run_normal toy_hex Some toy_verify toy_key None ex_path to_ascii_lowercase).
Definition shown (ev : Event) : string :=
  match ev with
  | Exposed h => "exposed " +:+ h | PoolOpened u => "pool " +:+ u | Migrated => "migrated" | Rebuilt => "rebuilt"
  | CredentialsMigrated n => "passwords " +:+ decimal (N.of_nat n) | Listening a _ => "listening " +:+ a | Handshake _ => "handshake"
  | Spawned DriftScheduler => "drift" | Spawned DataSyncScheduler => "sync" | Spawned HealthScheduler => "health" | Spawned WeeklyReports => "weekly"
  | Spawned NativeCollector => "native" | Spawned (Retention _) => "retention" | Stopped _ => "stopped"
  end.
(** A licensed instance, one whose license file is torn, and one whose second migration fails. *)
Example licensed_start :
  (λ '(r, s'), (r, shown <$> s'.(trace))) (ex_normal ex_outside (ex_start {[ex_path := ex_text]} ex_table)) =
  (Ok tt, ["exposed 0.0.0.0"; "pool sqlite:dbmaster.db?mode=rwc"; "migrated"; "passwords 2"; "drift"; "sync"; "health"; "weekly"; "native"; "retention";
           "listening 0.0.0.0:8080"; "stopped"; "stopped"; "stopped"]).
Proof. vm_compute. reflexivity. Qed.
Example torn_license_start :
  (λ '(r, s'), (r, shown <$> s'.(trace))) (ex_normal ex_outside (ex_start {[ex_path := "-----BEGIN"]} ex_table)) =
  (Ok tt, ["exposed 0.0.0.0"; "pool sqlite:dbmaster.db?mode=rwc"; "migrated"; "passwords 2"; "retention"; "listening 0.0.0.0:8080"]).
Proof. vm_compute. reflexivity. Qed.
Lemma production_start_witness : (ex_start {[ex_path := ex_text]} ex_table).(trace) = [] ∧
  ends (ex_normal ex_outside)
    (started toy_hex Some toy_verify toy_key None ex_path to_ascii_lowercase ex_outside (ex_start {[ex_path := ex_text]} ex_table))
    (ex_start {[ex_path := ex_text]} ex_table).
Proof.
  split; [reflexivity|].
  refine (production_start toy_hex Some toy_verify toy_key None ex_path to_ascii_lowercase ex_outside (ex_start {[ex_path := ex_text]} ex_table) ex_rows _ _ _ _ _).
  - reflexivity.
  - reflexivity.
  - reflexivity.
  - symmetry. apply map_to_list_to_map. apply (bool_decide_unpack _). vm_compute. exact I.
  - intros id v Hv. apply elem_of_list_to_map_2 in Hv. cbn in Hv. repeat (apply elem_of_cons in Hv as [[= -> ->]|Hv]; [reflexivity|]). by apply elem_of_nil in Hv.
Defined.

Definition ex_engine (n : nat) (d : gmap string string) : gmap string string := match d !! "/d/x.db" with None => <["/d/x.db" := "new"]> d | Some _ => d end.
Definition ex_busy (p : string) (n : nat) : option string := if n <? 3 then Some "os error 32" else None.
Definition ex_disk : gmap string string := {[ "/d/x.db-wal" := "wal"; "/d/credential.key" := key_of (repeat 7%Z 32) ]}.
Definition ex_local : Embedded :=
  {| outside := ex_outside; data_dir_override := Some "/d"; temp_dir := "/tmp"; pid := 7; mkdir := Ok tt; jwt_random := repeat 1%Z 32;
     refresh_random := repeat 2%Z 32; key_io := {| unreadable := false; unwritable := false |}; rename_fails := ex_busy; engine := λ _ d, d;
     epoch := "1700000000"; throwaway := "pw"; user_answers := [Accounts.ex_ans "1" 0; Accounts.ex_ans "2" 0; Accounts.ex_ans "3" 0] |}.
Notation ex_embedded := (run_embedded to_ascii_lowercase pretty Accounts.ex_hash Accounts.ex_verify).
Definition ex_fresh : St := ex_start ∅ ∅.
Example local_start :
  (λ '(r, s'), (r, shown <$> s'.(trace), s'.(disk) !! "/d/credential.key")) (ex_embedded ex_local ex_fresh) =
  (Ok tt, ["pool sqlite:/d/dbmaster-embedded.db?mode=rwc"; "migrated"; "retention"; "weekly"; "native"; "sync"; "listening 127.0.0.1:0"; "handshake"; "stopped"],
   Some (key_of (repeat 9%Z 32))).
Proof. vm_compute. reflexivity. Qed.
Lemma embedded_start_witness : ex_fresh.(trace) = [] ∧
  ends (ex_embedded ex_local) (started_locally to_ascii_lowercase pretty Accounts.ex_hash Accounts.ex_verify ex_local ex_fresh) ex_fresh.
Proof.
  split; [reflexivity|]. exact (embedded_start to_ascii_lowercase pretty Accounts.ex_hash Accounts.ex_verify ex_local ex_fresh eq_refl).
Defined.

(** The first migration fails: the files are set aside, after three refusals each. *)
Definition ex_migrates (n : nat) : result string unit := match n with O => Err "VersionMismatch(1)" | _ => Ok tt end.
Notation ex_rebuild := (init_pool_with_embedded_rebuild ex_busy (λ _, Ok tt) ex_migrates ex_engine "sqlite:/d/x.db" "/d/x.db" "17").
Definition ex_old : St := {| world := ex_fresh.(world); passwords := ∅; accounts := Accounts.ex_empty; disk := <["/d/x.db" := "old"]> ex_disk; trace := [] |}.
Example rebuilt_aside :
  (λ '(r, s'), (r, (λ p, s'.(disk) !! p) <$> ["/d/x.db"; "/d/x.db.bak-17"; "/d/x.db-wal"; "/d/x.db-wal.bak-17"; "/d/credential.key"])) (ex_rebuild ex_old) =
  (Ok true, [Some "new"; Some "old"; None; Some "wal"; Some (key_of (repeat 7%Z 32))]).
Proof. vm_compute. reflexivity. Qed.
Lemma rebuild_keeps_files_witness : ex_migrates 0 = Err "VersionMismatch(1)" ∧
  let '(r, s') := ex_rebuild ex_old in s'.(disk) !! "/d/credential.key" = Some (key_of (repeat 7%Z 32)).
Proof.
  split; [reflexivity|].
  assert (He : ∀ n d q, q ∉ db_files "/d/x.db" → ex_engine n d !! q = d !! q).
  { intros n d q Hq. unfold ex_engine. destruct (d !! "/d/x.db"); [done|]. apply lookup_insert_ne. intros <-. apply Hq. by left. }
  pose proof (rebuild_keeps_files ex_busy "/d/x.db" "17" (λ _, Ok tt) ex_migrates ex_engine "sqlite:/d/x.db" ex_old He) as Hk. unfold ends in Hk.
  destruct (ex_rebuild ex_old) as [r s']. destruct Hk as (Hk & _). apply Hk.
  - intros Hin. repeat (apply elem_of_cons in Hin as [Hin|Hin]; [discriminate Hin|]). by apply elem_of_nil in Hin.
  - intros p Hp. repeat (apply elem_of_cons in Hp as [->|Hp]; [discriminate|]). by apply elem_of_nil in Hp.
Defined.
Definition fine_io : KeyIo := {| unreadable := false; unwritable := false |}.
Definition ex_starts : list (KeyIo * string) := [({| unreadable := false; unwritable := true |}, key_of (repeat 1%Z 32)); (fine_io, key_of (repeat 2%Z 32))].
Lemma embedded_passwords_survive_witness :
  let '(k, d') := load_or_create_credential_key fine_io (key_of (repeat 9%Z 32)) "/d" ∅ in
  ∃ v, encrypt_v1 (ex_nonces 0) "hunter2" k = Ok v ∧
  let '(ks, d'') := foldl (λ '(ks, x) '(i, rnd), let '(k', x') := load_or_create_credential_key i rnd "/d" x in (k' :: ks, x')) ([], d') ex_starts in
  d'' = d' ∧ Forall (λ k', decrypt_password v k' = Ok "hunter2") ks.
Proof.
  pose proof (λ v, embedded_passwords_survive fine_io (key_of (repeat 9%Z 32)) "/d" ∅ (ex_nonces 0) "hunter2" v ex_starts
    eq_refl eq_refl eq_refl eq_refl eq_refl) as Hs.
  destruct (load_or_create_credential_key _ _ _ _) as [k d']. eexists. split; [reflexivity|].
  apply Hs; [reflexivity|]. repeat constructor.
Defined.
End Examples.
